(* ===== verification/_CoqProject ===== *)
-Q . S2P
Prelude.v
Float64.v
QuotaMath.v
DecimalQ.v
Calendar.v
World.v
UserCache.v
QuotaStore.v
Reserve.v
SubscriptionTime.v
Subscription.v
SubscriptionInv.v
SubscriptionUse.v
SubscriptionOrders.v
Billing.v
BillingFrame.v
BillingLaws.v
BillingInv.v
BillingRefund.v
BillingChoice.v
Credit.v
TopUp.v
Redemption.v
Grants.v
StatusCodes.v
RateLimit.v
Task.v
TaskPolling.v
TaskLaws.v
TaskOnce.v
Channel.v
ChannelCache.v
ChannelLaws.v
ChannelSync.v
ChannelModes.v
ChannelRepair.v
ChannelKeys.v
ChannelSelect.v
ChannelRelay.v
Lease.v
LeaseLaws.v
LeaseRun.v
LeaseWedge.v
LeaseCleanup.v
ToolPrice.v
DecimalOrder.v
Cost.v
CostSettle.v
CostLaws.v
CostCharge.v
CostSamples.v
PricingExpr.v
PricingLaws.v
FloatSum.v
TokenParts.v
PricingSamples.v
Price.v
PriceLaws.v
RedisLimit.v
RedisLimitLaws.v
Concurrency.v
ConcurrencyLaws.v
Sampler.v
SamplerLaws.v
UsageMerge.v
UsageLaws.v
ClaudeStream.v
ClaudeProtocol.v
ClaudeContent.v
ClaudeTools.v
Steps.v
Session.v
SessionLogin.v
SessionLaws.v
SessionRefresh.v
AuthFlow.v
TwoFactor.v
LoginFlow.v
FactorLaws.v
FactorGuess.v
