(* ===== verification/Prelude.v ===== *)
(** * new-api: the money of an LLM gateway

    new-api relays requests to language-model providers and charges for them.  A
    request is paid from the user's wallet or from a subscription, and at the same
    time from the API token it came with; wallets are filled by payment providers,
    redemption codes, check-ins, invitations and administrators.  This development
    models that billing core (packages model, service and common of src/) and
    proves that it neither loses nor invents quota.

    ** How the code is modelled

    Go's [int] and [int64] are integers of type Z with explicit wrap-around
    ([wrap64], written [+!], [-!], [*!]); database columns are Z.  Floating point is
    exact IEEE 754 (Float64.v, on the standard library's SpecFloat).  A function
    that returns [error] is a computation of the monad [M S E A]: it maps a state to
    a normal result or an error, and a new state.  The state (World.v) is the whole
    deployment: the tables, the Redis keys, the in-process batch queues, the jobs
    handed to the goroutine pool, the log, two clocks (process and database) and a
    fault script.  Every database statement, transaction begin and commit, and Redis
    command consumes one entry of the script, and fails there with no effect if the
    entry says so: a theorem that quantifies over the world covers every pattern of
    failures, one that assumes an empty script speaks of a run without faults.  A
    transaction restores every table when its body or its commit fails.  Lua scripts
    run atomically in Redis and are functions on its state.  Concurrency is
    interleaving of such atomic steps (step relations [cache_step], [sub_step],
    [session_step], lists of [CacheCall]) or of whole calls on a locked row (lists of
    calls).

    ** The files

    Prelude: integers, the monad, the [preserves] and [triple] logics with their
    hint database, strings.

    Float64, QuotaMath, DecimalQ: common/quota_math.go, common/quota.go.  Conversions
    of floats and decimals to quota; the decimal package is the class [Decimal] with
    [DecimalLaws], which the exact rationals of DecimalQ satisfy.
    Shown: saturation stays in range and marks exactly the clamped inputs; rounding
    is to the nearest integer.

    Calendar: the part of package time the code uses (civil dates, AddDate), with a
    fixed zone offset.

    World: rows, Redis, batch stores, jobs, primitive effects and their lemmas.

    UserCache: model/user_cache.go, model/user_auth_cache.go.  The user hash in Redis
    and the version fence in front of it.  Shown: once an authentication version was
    bumped, no writer can make Redis serve an older snapshot.

    QuotaStore: model/quota_reserve.go, model/utils.go, model/token_cache.go and the
    balance operations of model/user.go, model/token.go, model/channel.go.
    Reserve: its theorems.  Reservations are all or nothing under every failure;
    books kept beside any traffic of cache scripts show that reservations never oversell
    the balance that was last filled into the cache; a flush of the batch queues
    conserves every balance.

    SubscriptionTime, Subscription: model/subscription.go, model/db_time.go and the
    hybrid cache of pkg/cachex.  SubscriptionInv: usage stays between zero and the
    total over every sequence of operations.  SubscriptionUse: pre-consumption charges
    exactly one subscription once, refunds happen once.  SubscriptionOrders: orders are
    fulfilled at most once, purchases are atomic, purchase limits hold.

    Billing: service/billing_session.go, service/funding_source.go,
    service/billing.go, part of service/quota.go.  The interface FundingSource is a
    type class with the two implementations as instances.  BillingFrame: what each
    call leaves alone.  BillingLaws: the contract of a funding source as a class
    ([FundingLaws]), kept by both implementations; a settlement moves the funding source
    and the token by the difference to what was pre-consumed.
    BillingInv, BillingRefund, BillingChoice: a request costs what it used, a refund
    restores both balances, refunds happen at most once, the preference is respected.

    Credit, TopUp, Redemption, Grants: model/topup.go, model/redemption.go,
    model/checkin.go, model/user_quota_adjustment.go and the invitation rewards of
    model/user.go.  Shown: every order and every code credits at most once over every
    sequence of calls, with what it is worth and within the wallet ceiling; adjustments are exact and
    authorised; a check-in is awarded once a day; transfers conserve.

    Task, TaskPolling: model/task.go, service/task_billing.go, service/task_polling.go,
    pkg/billingexpr/settle.go.  A provider adaptor and the expression engine are type
    classes; a poll is a transition, ended by the compare-and-swap of the status, and
    the billing it makes due.  TaskLaws: a settlement or refund moves exactly the change
    of the task's quota.  TaskOnce: over every interleaving of workers a task is billed
    at most once.

    StatusCodes: setting/operation_setting/status_code_ranges.go.  A rule that parses
    matches exactly the codes its text lists, and printing a rule parses back to it.

    RateLimit: common/rate-limit.go.  The limiter never accepts more than its maximum
    in a window that idle keys outlive, and refuses only when the window is full.

    Channel, ChannelCache: model/channel.go, model/ability.go, model/channel_cache.go,
    model/channel_constraint.go, model/channel_satisfy.go, over a state of their own
    ([RState]: the tables of channels and abilities, the memory cache, the fault
    script).  Random values are arguments.  ChannelLaws: the weighted choice and the
    priority of a retry.  ChannelSync: every administrative operation keeps the abilities
    what the channels prescribe ([synced]).  ChannelModes: so does every sequence of
    them; a rebuilt cache holds just the enabled abilities; routing with and without the
    cache serves the same tier for models with abilities of their own.  ChannelRepair: the repair of the abilities restores
    them.  ChannelKeys: which key a request gets, round robin, disabled keys
    that stay out until the cache is rebuilt.

    ChannelSelect: service/group.go, service/channel_select.go, dto/channel_constraints.go
    and the retry loop of controller/relay.go, for any behaviour of the handlers.
    ChannelRelay: the loop ends within the attempts its settings allow; automatic
    selection stays among the user's groups.

    Lease: model/system_task.go, service/system_task.go and the deletion of old logs.  An
    operation is a program of single statements ([prog]); its state are the two tables and
    the clock.  LeaseLaws: a logic for such programs ([wp]) that lets other nodes act
    between any two statements; what the operations do is proved once, against the class
    [Discipline].  LeaseRun: the step relation of any number of nodes; one active task per
    type, exclusive leases, writes only by the owner.  LeaseWedge: executable schedules, and
    a claim that stalls.  LeaseCleanup: the clean-up of logs ends, with the old logs gone.

    ToolPrice, DecimalOrder, Cost, CostSettle: setting/operation_setting/tools.go,
    service/text_quota.go, service/tiered_settle.go, types/price_data.go and the audio and
    realtime parts of service/quota.go.  From the reported usage and the prices to the
    quota that is settled.  DecimalOrder gives decimals a value ([DecimalValue]) and relates
    it to the quota.  CostLaws: the cost is bounded, grows with the tokens and does not rise
    with a cache hit where the parts fit into the prompt.  CostCharge: with a billing session in front, the wallet loses exactly
    the computed charge.  CostSamples: prices and usages on which the theorems are tried.

    PricingExpr: pkg/billingexpr.  The syntax of expressions, the validation of fixed
    prices, the patching of request rules, the compile cache and what a run records; the
    library that parses and runs expressions is the class [ExprEngine] with [ExprLaws].
    PricingLaws: an accepted expression with fixed prices reports one leaf per run, and
    the cache is transparent.  FloatSum, TokenParts: sums of integers are exact in floats,
    and the prompt an expression sees is what the parts it prices leave.  PricingSamples: a small engine.

    Price, PriceLaws: setting/ratio_setting, setting/billing_setting and
    relay/helper/price.go.  From the name of a model to its prices and the amount reserved.
    Shown: what the price data calls free costs nothing.

    RedisLimit, RedisLimitLaws: middleware/rate-limit.go, middleware/model-rate-limit.go,
    common/limiter and setting/rate_limit.go.  The Lua scripts on the counters, buckets and
    lists of Redis and the middleware around them.  Shown: how many requests pass in any
    span of time.

    Concurrency, ConcurrencyLaws: common/concurrency/tracker.go.  The sorted sets of the
    requests in flight and the pipelines that keep them.  Shown: over every interleaving of
    processes ([tracker_step]), any failures and any loss of sets, what reads count lies
    between what is surely and what may be in flight.
    Sampler, SamplerLaws: pkg/perf_metrics/concurrency_sampler.go, model/perf_concurrency.go.
    Shown: what of model, group and token is recovered from the sets, and that the table
    holds what was sampled, but for what failed writes and restarts catch in memory.

    UsageMerge, UsageLaws: relaykit/dto/usage_merge.go, relaykit/dto/billing_usage.go.  The
    usage a provider reports, overlaid over a stream, and the snapshot of it that is billed.
    Shown: passing usage on in another format does not change the bill.

    ClaudeStream: relaykit/relayconvert/internal/oai_chat/to_claude_messages_resp.go and its
    drivers in relayconvert/response_registry.go and relay/channel/openai.  Chunks of a chat
    completion become events of Claude's protocol.  ClaudeProtocol: the events are accepted
    by the automaton of the protocol.  ClaudeContent: so are those of the handler of OpenAI
    channels for three chunks or more; they say what the chunks said.
    ClaudeTools: the arguments of parallel tool calls reach the block of their call.

    Steps: programs of single statements, each of which may fail before or after its effect,
    run by any number of processes; a logic over the history of the store and its adequacy.
    Changes of the store that happen once are made by at most one process.

    Session: model/user_session.go. SessionLogin: service/auth_session.go. A login session
    is a row of the database with a snapshot in Redis and a chain of refresh tokens; every
    operation is a program over that store and one clock. Redis keys expire by that clock,
    and the digest that keys a snapshot is taken to tell sessions apart. Transactions are
    the sequence of their statements, as without row locks. [revoke_rounds] and
    [delete_rounds] take the number of rounds; the theorems hold for every number of them.
    SessionLaws: a session that was revoked or moved to new versions is not let in once
    the lifetime of a snapshot has passed. SessionRefresh: of concurrent rotations with
    one token at most one succeeds.

    AuthFlow: model/auth_flow.go.  TwoFactor: model/twofa.go, model/twofa_enrollment.go,
    common/totp.go.  LoginFlow: service/login_verification.go.  One-time flows, second
    factors with recovery codes, and the login that needs both.  A transaction is one
    statement of a program and leaves nothing when it fails; programs of the sessions run on
    their part of the store ([on_sessions]).  FactorLaws: a login consumed a flow and
    verified a factor, and nothing is spent twice.  FactorGuess: wrong codes tried one after
    the other are checked five times and then once in five minutes.

    ** Bounds and fuel

    [advance_resets] (the catch-up loop of a quota reset) takes fuel; one round per
    second between the first missed reset and now is enough, because every round moves
    forward by at least a second, and the theorem of its termination says so.  The
    retry loops of the code ([retry], [increment_auth_loop], [refresh_group_loop])
    carry the code's own counts.  [relay_loop] takes fuel; one more than the attempts
    allowed is enough, which its theorem states.  [clean_rounds] takes fuel; without others
    writing logs two rounds are enough, and [clean_batches] starts with what remains, of
    which every batch deletes some.  [batch_room] and the like state that a queued delta
    does not overflow 64 bits, which the code saturates.

    ** Defects shown

    Several theorems exhibit runs the code does not intend: an administrator's completion
    of a Creem order multiplies its quota; a refund after an image request topped up
    its reservation loses the first part; a subscription refund retried after a failed
    commit pays twice; an overflowing custom reset period makes the reset loop endless;
    a user's own request for a failed task takes the refund away from it; a poll of a
    channel read before a key was disabled enables the key again; a tag set in a batch
    does not reach the abilities; a claim of a system task that stalls past its lease
    blocks its type for good; a turn of a realtime session is paid twice; audio requests
    on a model priced per call are free; without Redis failed requests count against the
    limit of successful ones; a key of Redis that is scanned twice is sampled twice; the
    details of Gemini's usage are added up over the chunks of a stream; a stream of one or
    two chunks starts its Claude message never or twice; codes of a second factor that are
    tried at the same time are all checked; a cached balance that is lost before the queued
    debits are written is filled without them; a window of the in-memory limiter longer
    than its keys are kept is cut short; a chunk that mixes thinking, text and tool calls
    loses words.

    ** Not modelled

    HTTP handlers, signature checks, log texts and notifications; expiry times of Redis
    keys other than those of sessions and rate limits (a key may vanish at any step of the
    interleavings instead); paginated listings; the submission of tasks; the handlers that
    relay a request and the other conversions between formats; plugins in JavaScript; the
    signing of access tokens and the listings of sessions; passkeys and OAuth;
    the administration of tokens and users; the front end. *)

From stdpp Require Import base tactics numbers list gmap strings sorting.
From Stdlib Require Import ZArith Lia.

#[export] Set Default Goal Selector "!".
Open Scope Z_scope.

(** ** Machine integers *)

(** Go's [int] and [int64] on the 64-bit targets the project builds for. *)
Definition MaxInt64 : Z := 9223372036854775807.
Definition MinInt64 : Z := -9223372036854775808.

(** Two's complement wrap-around of a mathematical result. *)
Definition wrap64 (z : Z) : Z := (z + 2 ^ 63) mod 2 ^ 64 - 2 ^ 63.

Definition in_i64 (z : Z) : Prop := MinInt64 <= z <= MaxInt64.

Declare Scope i64_scope.
Delimit Scope i64_scope with i64.
Notation "a +! b" := (wrap64 (a + b)) (at level 50, left associativity) : i64_scope.
Notation "a -! b" := (wrap64 (a - b)) (at level 50, left associativity) : i64_scope.
Notation "a *! b" := (wrap64 (a * b)) (at level 40, left associativity) : i64_scope.
Open Scope i64_scope.

Lemma wrap64_range z : in_i64 (wrap64 z).
Proof. unfold in_i64, wrap64, MinInt64, MaxInt64. pose proof (Z.mod_pos_bound (z + 2^63) (2^64)). lia. Qed.

Lemma wrap64_id z : in_i64 z -> wrap64 z = z.
Proof.
  unfold in_i64, wrap64, MinInt64, MaxInt64. intros.
  rewrite Z.mod_small by lia. lia.
Qed.

(** The two ways a 64-bit sum of in-range operands can leave the range. *)
Lemma wrap64_over z : MaxInt64 < z <= MaxInt64 + 2 ^ 63 -> wrap64 z = z - 2 ^ 64.
Proof.
  unfold MaxInt64, wrap64. intros.
  replace (z + 2^63) with ((z - 2^63) + 1 * 2 ^ 64) by lia.
  rewrite Z.mod_add by lia. rewrite Z.mod_small by lia. lia.
Qed.

Lemma wrap64_under z : MinInt64 - 2 ^ 63 <= z < MinInt64 -> wrap64 z = z + 2 ^ 64.
Proof.
  unfold MinInt64, wrap64. intros.
  replace (z + 2^63) with ((z + 2^63 + 2^64) + (-1) * 2 ^ 64) by lia.
  rewrite Z.mod_add by lia. rewrite Z.mod_small by lia. lia.
Qed.

(** ** The effect monad: explicit state, Go's trailing [error] as a sum *)

Inductive result (E A : Type) : Type :=
| Ok (a : A)
| Err (e : E).
Arguments Ok {E A} a.
Arguments Err {E A} e.

Definition M (S E A : Type) : Type := S -> result E A * S.

Definition ret {S E A} (a : A) : M S E A := fun s => (Ok a, s).
Definition bind {S E A B} (c : M S E A) (f : A -> M S E B) : M S E B :=
  fun s => match c s with
           | (Ok a, s') => f a s'
           | (Err e, s') => (Err e, s')
           end.

Declare Scope effect_scope.
Delimit Scope effect_scope with effect.
Notation "'let!' x := c 'in' k" := (bind c (fun x => k))
  (at level 10, x pattern, c at level 200, k at level 200) : effect_scope.
Notation "c ;; k" := (bind c (fun _ => k)) (at level 100, k at level 200, right associativity) : effect_scope.
Open Scope effect_scope.

(** [return nil, err] *)
Definition throw {S E A} (e : E) : M S E A := fun s => (Err e, s).
(** [x, err := f()]: the error becomes a value the caller inspects. *)
Definition catch {S E A} (c : M S E A) : M S E (result E A) :=
  fun s => let (r, s') := c s in (Ok r, s').
Definition get {S E} : M S E S := fun s => (Ok s, s).
Definition gets {S E A} (f : S -> A) : M S E A := fun s => (Ok (f s), s).
Definition modify {S E} (f : S -> S) : M S E unit := fun s => (Ok tt, f s).
Definition of_result {S E A} (r : result E A) : M S E A := fun s => (r, s).

Definition guardE {S E} (b : bool) (e : E) : M S E unit :=
  if b then throw e else ret tt.

Fixpoint mapM_ {S E A} (f : A -> M S E unit) (l : list A) : M S E unit :=
  match l with
  | [] => ret tt
  | x :: l => f x ;; mapM_ f l
  end.

(** Runs a computation and keeps the final state / the result. *)
Definition exec {S E A} (c : M S E A) (s : S) : S := (c s).2.
Definition eval {S E A} (c : M S E A) (s : S) : result E A := (c s).1.

Lemma run_eq {S E A} (c : M S E A) s : c s = (eval c s, exec c s).
Proof. apply surjective_pairing. Qed.

Lemma bind_ok {S E A B} (c : M S E A) (f : A -> M S E B) s a s' :
  c s = (Ok a, s') -> bind c f s = f a s'.
Proof. intros H. unfold bind. by rewrite H. Qed.

Lemma bind_err {S E A B} (c : M S E A) (f : A -> M S E B) s e s' :
  c s = (Err e, s') -> bind c f s = (Err e, s').
Proof. intros H. unfold bind. by rewrite H. Qed.

Lemma bind_inv {S E A B} (c : M S E A) (f : A -> M S E B) s r s2 :
  bind c f s = (r, s2) ->
  (exists a s1, c s = (Ok a, s1) /\ f a s1 = (r, s2)) \/
  (exists e, c s = (Err e, s2) /\ r = Err e).
Proof.
  unfold bind. destruct (c s) as [[a|e] s1] eqn:Hc; intros H; simplify_eq; eauto.
Qed.

(** A state predicate every outcome of a computation preserves. *)
Definition preserves {S E A} (I : S -> Prop) (c : M S E A) : Prop :=
  forall s, I s -> I (c s).2.

Section preserves.
Context {S E : Type} (I : S -> Prop).

Lemma preserves_ret {A} (a : A) : preserves (E:=E) I (ret a).
Proof. by intros s Hs. Qed.
Lemma preserves_throw {A} (e : E) : preserves (A:=A) I (throw e).
Proof. by intros s Hs. Qed.
Lemma preserves_gets {A} (f : S -> A) : preserves (E:=E) I (gets f).
Proof. by intros s Hs. Qed.
Lemma preserves_bind {A B} (c : M S E A) (f : A -> M S E B) :
  preserves I c -> (forall a, preserves I (f a)) -> preserves I (bind c f).
Proof.
  intros Hc Hf s Hs. unfold bind. specialize (Hc s Hs).
  destruct (c s) as [[a|e] s1]; simpl in *; [by apply Hf | done].
Qed.
(** After reading the state, the continuation runs in that very state. *)
Lemma preserves_read {A B} (g : S -> A) (f : A -> M S E B) :
  (forall s, I s -> I (f (g s) s).2) -> preserves I (bind (gets g) f).
Proof. intros H s Hs. by apply H. Qed.
Lemma preserves_catch {A} (c : M S E A) : preserves I c -> preserves I (catch c).
Proof. intros Hc s Hs. specialize (Hc s Hs). unfold catch. by destruct (c s). Qed.
Lemma preserves_mapM_ {A} (f : A -> M S E unit) l :
  (forall a, preserves I (f a)) -> preserves I (mapM_ f l).
Proof.
  intros Hf. induction l as [|x l IH]; simpl; [apply preserves_ret|].
  apply preserves_bind; [apply Hf | intros; apply IH].
Qed.
End preserves.

(** Walks a computation: binds, branches and known subcomputations. *)
Create HintDb preserve discriminated.
#[export] Hint Resolve preserves_ret preserves_throw preserves_gets preserves_bind
  preserves_catch preserves_mapM_ : preserve.

Ltac preserve_step :=
  match goal with
  | |- preserves _ (bind _ _) => apply preserves_bind; [|intros]
  | |- preserves _ (ret _) => apply preserves_ret
  | |- preserves _ (throw _) => apply preserves_throw
  | |- preserves _ (gets _) => apply preserves_gets
  | |- preserves _ (catch _) => apply preserves_catch
  | |- preserves _ (mapM_ _ _) => apply preserves_mapM_; intros
  | |- preserves _ (if ?b then _ else _) => destruct b
  | |- preserves _ (match ?x with _ => _ end) => destruct x
  | |- preserves _ (let (_, _) := ?x in _) => destruct x
  | |- preserves _ _ => solve [eauto with preserve]
  end.
Ltac solve_preserves := intros; repeat preserve_step.

(** [triple I c Q]: every outcome of [c] keeps the state predicate [I], and a
    normal result satisfies [Q]. *)
Definition triple {S E A} (I : S -> Prop) (c : M S E A) (Q : A -> Prop) : Prop :=
  forall s, I s -> I (c s).2 /\ forall a, (c s).1 = Ok a -> Q a.

Section triple.
Context {S E : Type} (I : S -> Prop).

Lemma triple_ret {A} (a : A) (Q : A -> Prop) : Q a -> triple (E:=E) I (ret a) Q.
Proof. intros Ha s Hs. split; [done|]. intros a' [= <-]. done. Qed.
Lemma triple_throw {A} (e : E) (Q : A -> Prop) : triple I (throw e) Q.
Proof. intros s Hs. split; [done|]. by intros a [=]. Qed.
Lemma triple_bind {A B} (c : M S E A) (f : A -> M S E B) (Q : A -> Prop) (R : B -> Prop) :
  triple I c Q -> (forall a, Q a -> triple I (f a) R) -> triple I (bind c f) R.
Proof.
  intros Hc Hf s Hs. unfold bind. specialize (Hc s Hs) as [H1 H2].
  destruct (c s) as [[a|e] s1]; simpl in *; [by apply Hf; auto | by split].
Qed.
Lemma triple_catch {A} (c : M S E A) (Q : A -> Prop) :
  triple I c Q -> triple I (catch c) (fun r => match r with Ok a => Q a | Err _ => True end).
Proof.
  intros Hc s Hs. specialize (Hc s Hs) as [H1 H2]. unfold catch. destruct (c s) as [[a|e] s1]; simpl in *.
  - split; [done|]. intros r [= <-]. auto.
  - split; [done|]. by intros r [= <-].
Qed.
Lemma triple_preserves {A} (c : M S E A) (Q : A -> Prop) : triple I c Q -> preserves I c.
Proof. intros H s Hs. by apply H. Qed.
Lemma preserves_triple {A} (c : M S E A) : preserves I c -> triple I c (fun _ => True).
Proof. intros H s Hs. split; [by apply H|done]. Qed.
Lemma triple_weaken {A} (c : M S E A) (Q R : A -> Prop) : triple I c Q -> (forall a, Q a -> R a) -> triple I c R.
Proof. intros H HQ s Hs. destruct (H s Hs) as [H1 H2]. split; auto. Qed.
Lemma triple_gets {A} (f : S -> A) (Q : A -> Prop) : (forall s, I s -> Q (f s)) -> triple (E:=E) I (gets f) Q.
Proof. intros H s Hs. split; [done|]. intros a [= <-]. auto. Qed.
End triple.

(** ** Strings *)

Definition is_space (c : Ascii.ascii) : bool :=
  match Ascii.nat_of_ascii c with
  | 9 | 10 | 11 | 12 | 13 | 32 => true
  | _ => false
  end%nat.

Fixpoint trim_left (s : string) : string :=
  match s with
  | EmptyString => EmptyString
  | String c s' => if is_space c then trim_left s' else s
  end.

Definition string_rev (s : string) : string :=
  String.string_of_list_ascii (rev (String.list_ascii_of_string s)).

(** [strings.TrimSpace], on the ASCII white space. *)
Definition TrimSpace (s : string) : string := string_rev (trim_left (string_rev (trim_left s))).

(** [strings.Split(s, sep)] for a one-byte separator *)
Fixpoint Split (sep : Ascii.ascii) (s : string) : list string :=
  match s with
  | EmptyString => [EmptyString]
  | String c s' =>
      if bool_decide (c = sep) then EmptyString :: Split sep s'
      else match Split sep s' with
           | w :: ws => String c w :: ws
           | [] => [String c EmptyString]
           end
  end.

(** [strings.Trim(s, string(c))] for a one-byte cutset *)
Fixpoint drop_char (x : Ascii.ascii) (s : string) : string :=
  match s with
  | EmptyString => EmptyString
  | String c s' => if bool_decide (c = x) then drop_char x s' else s
  end.
Definition TrimChar (x : Ascii.ascii) (s : string) : string := string_rev (drop_char x (string_rev (drop_char x s))).

Fixpoint HasPrefix (s p : string) : bool :=
  match p, s with
  | EmptyString, _ => true
  | String c p', String d s' => bool_decide (c = d) && HasPrefix s' p'
  | _, _ => false
  end.

(** [strings.Contains] *)
Fixpoint Contains (s sub : string) : bool :=
  HasPrefix s sub ||
  match s with
  | EmptyString => false
  | String _ s' => Contains s' sub
  end.

Lemma HasPrefix_app p s : HasPrefix (p +:+ s) p = true.
Proof. induction p as [|c p IH]; simpl; [by destruct s|]. by rewrite bool_decide_true. Qed.
