(* ===== verification/Float64.v ===== *)
(** * IEEE-754 binary64, the part of Go's float64 the billing code uses

    [float64] values are the standard library's [spec_float] at precision 53 and
    maximal exponent 1024.  Every valid finite float is an integer multiple of
    2^-1074, so [sv] reads a float as that exact integer and the comparison,
    truncation and rounding used by Go become integer facts. *)

From stdpp Require Import base tactics numbers.
From Stdlib Require Import ZArith Lia SpecFloat.
From S2P Require Import Prelude.
Open Scope Z_scope.

Definition float64 := spec_float.
Definition valid64 (x : float64) : Prop := valid_binary 53 1024 x = true.

(** The conversion [float64(z)] of a Go integer: round to nearest, ties to even. *)
Definition float64_of_int (z : Z) : float64 := binary_normalize 53 1024 z 0 false.

Definition IsNaN (x : float64) : bool :=
  match x with S754_nan => true | _ => false end.

(** [x > y] and [x < y]; both are false when an operand is NaN. *)
Definition f_gt (x y : float64) : bool :=
  match SFcompare x y with Some Gt => true | _ => false end.
Definition f_lt (x y : float64) : bool :=
  match SFcompare x y with Some Lt => true | _ => false end.
Definition f_le (x y : float64) : bool :=
  match SFcompare x y with Some Lt | Some Eq => true | _ => false end.

Definition cond_opp (s : bool) (z : Z) : Z := if s then - z else z.

(** The integer part of |m * 2^e|. *)
Definition mag_trunc (m : positive) (e : Z) : Z :=
  if 0 <=? e then Z.pos m * 2 ^ e else Z.pos m / 2 ^ (- e).

(** [int(x)]: truncation toward zero; out of the int64 range (and for NaN and
    the infinities) the amd64 conversion instruction yields the minimal integer. *)
Definition int_of_float64 (x : float64) : Z :=
  match x with
  | S754_zero _ => 0
  | S754_finite s m e =>
      let z := cond_opp s (mag_trunc m e) in
      if (MinInt64 <=? z) && (z <=? MaxInt64) then z else MinInt64
  | _ => MinInt64
  end.

(** |m * 2^e| rounded half away from zero. *)
Definition mag_round (m : positive) (e : Z) : Z :=
  if 0 <=? e then Z.pos m * 2 ^ e else (Z.pos m + 2 ^ (- e - 1)) / 2 ^ (- e).

(** [math.Round] *)
Definition f_round (x : float64) : float64 :=
  match x with
  | S754_finite s m e =>
      if 0 <=? e then x else binary_normalize 53 1024 (cond_opp s (mag_round m e)) 0 s
  | _ => x
  end.

(** ** The exact scaled value *)

Definition unit64 : Z := 2 ^ 1074.

Definition sv (x : float64) : Z :=
  match x with
  | S754_finite s m e => cond_opp s (Z.pos m * 2 ^ (e + 1074))
  | _ => 0
  end.

Definition is_fin (x : float64) : Prop :=
  match x with S754_zero _ | S754_finite _ _ _ => True | _ => False end.

Lemma digits2_pos_bound p : 2 ^ (Z.pos (digits2_pos p) - 1) <= Z.pos p < 2 ^ Z.pos (digits2_pos p).
Proof.
  induction p as [p IH|p IH|]; simpl digits2_pos; [| |lia].
  all: rewrite Pos2Z.inj_succ; rewrite Z.pow_succ_r by lia.
  all: replace (Z.succ (Z.pos (digits2_pos p)) - 1) with (Z.succ (Z.pos (digits2_pos p) - 1)) by lia.
  all: rewrite Z.pow_succ_r by lia; lia.
Qed.

Lemma valid_finite s m e :
  valid64 (S754_finite s m e) ->
  -1074 <= e <= 971 /\ Z.pos m < 2 ^ 53 /\ (e = -1074 \/ 2 ^ 52 <= Z.pos m).
Proof.
  unfold valid64. simpl. unfold bounded, canonical_mantissa, fexp, emin.
  intros H. apply andb_prop in H as [H1 H2]. apply Z.eqb_eq in H1. apply Z.leb_le in H2.
  pose proof (digits2_pos_bound m) as [Hl Hu].
  assert (Z.pos (digits2_pos m) <= 53) by lia.
  split; [lia|]. split.
  - eapply Z.lt_le_trans; [exact Hu|]. apply Z.pow_le_mono_r; lia.
  - destruct (Z.eq_dec e (-1074)) as [->|Hne]; [by left|right].
    replace (Z.pos (digits2_pos m) - 1) with 52 in Hl by lia. done.
Qed.

Lemma cmp_mag m1 e1 m2 e2 :
  -1074 <= e1 -> -1074 <= e2 -> Z.pos m1 < 2 ^ 53 -> 2 ^ 52 <= Z.pos m2 -> e1 < e2 ->
  Z.pos m1 * 2 ^ (e1 + 1074) < Z.pos m2 * 2 ^ (e2 + 1074).
Proof.
  intros H1 H2 Hm1 Hm2 Hlt.
  assert (0 < 2 ^ (e1 + 1074)) by (apply Z.pow_pos_nonneg; lia).
  assert (2 ^ (e1 + 1074 + 1) <= 2 ^ (e2 + 1074)) as Hp by (apply Z.pow_le_mono_r; lia).
  rewrite Z.pow_add_r, Z.pow_1_r in Hp by lia. nia.
Qed.

Lemma SFcompare_sv x y :
  valid64 x -> valid64 y -> is_fin x -> is_fin y ->
  SFcompare x y = Some (sv x ?= sv y).
Proof.
  intros Hx Hy Fx Fy.
  assert (forall s m e, valid64 (S754_finite s m e) -> 0 < Z.pos m * 2 ^ (e + 1074)) as Hpos.
  { intros s m e H. apply valid_finite in H. assert (0 < 2 ^ (e + 1074)) by (apply Z.pow_pos_nonneg; lia). lia. }
  destruct x as [sx|sx| |sx mx ex], y as [sy|sy| |sy my ey]; simpl in Fx, Fy; try done.
  - destruct sy; cbn [SFcompare sv cond_opp]; specialize (Hpos _ _ _ Hy); f_equal; symmetry;
      [apply Z.compare_gt_iff | apply Z.compare_lt_iff]; lia.
  - destruct sx; cbn [SFcompare sv cond_opp]; specialize (Hpos _ _ _ Hx); f_equal; symmetry;
      [apply Z.compare_lt_iff | apply Z.compare_gt_iff]; lia.
  - pose proof (Hpos _ _ _ Hx) as Px. pose proof (Hpos _ _ _ Hy) as Py.
    apply valid_finite in Hx as (?&?&Hx). apply valid_finite in Hy as (?&?&Hy).
    assert (match ex ?= ey with
            | Lt => Lt | Gt => Gt | Eq => Pos.compare_cont Eq mx my
            end = (Z.pos mx * 2 ^ (ex + 1074) ?= Z.pos my * 2 ^ (ey + 1074))) as Hc.
    { destruct (Z.compare_spec ex ey) as [->|Hlt|Hgt].
      - assert (0 < 2 ^ (ey + 1074)) as Hp by (apply Z.pow_pos_nonneg; lia).
        change (Pos.compare_cont Eq mx my) with (Z.pos mx ?= Z.pos my).
        rewrite (Z.mul_comm (Z.pos mx)), (Z.mul_comm (Z.pos my)).
        destruct (Z.compare_spec (Z.pos mx) (Z.pos my)) as [->|?|?]; symmetry;
          [apply Z.compare_refl | apply Z.compare_lt_iff | apply Z.compare_gt_iff]; nia.
      - symmetry. apply Z.compare_lt_iff, cmp_mag; lia.
      - symmetry. apply Z.compare_gt_iff, cmp_mag; lia. }
    destruct sx, sy; cbn [SFcompare sv cond_opp]; f_equal.
    + rewrite Z.compare_opp, (Z.compare_antisym (Z.pos mx * _)), <- Hc. by destruct (ex ?= ey).
    + symmetry. apply Z.compare_lt_iff. lia.
    + symmetry. apply Z.compare_gt_iff. lia.
    + exact Hc.
Qed.

(** Comparison against an infinity or NaN never looks like an in-range value. *)
Lemma f_gt_fin x y :
  valid64 x -> valid64 y -> is_fin x -> is_fin y -> f_gt x y = (sv y <? sv x).
Proof.
  intros. unfold f_gt. rewrite SFcompare_sv by done.
  destruct (Z.compare_spec (sv x) (sv y)), (Z.ltb_spec (sv y) (sv x)); lia || done.
Qed.

Lemma f_lt_fin x y :
  valid64 x -> valid64 y -> is_fin x -> is_fin y -> f_lt x y = (sv x <? sv y).
Proof.
  intros. unfold f_lt. rewrite SFcompare_sv by done.
  destruct (Z.compare_spec (sv x) (sv y)), (Z.ltb_spec (sv x) (sv y)); lia || done.
Qed.

(** ** Integer conversions are exact below 2^53 *)

Lemma iter_xO_digits m k :
  Z.pos (digits2_pos (Pos.iter xO m k)) = Z.pos (digits2_pos m) + Z.pos k /\
  Z.pos (Pos.iter xO m k) = Z.pos m * 2 ^ Z.pos k.
Proof.
  induction k as [|k [IH1 IH2]] using Pos.peano_ind.
  - simpl Pos.iter. split; [simpl digits2_pos; lia|]. rewrite Z.pow_1_r. lia.
  - rewrite Pos.iter_succ. split.
    + simpl digits2_pos. lia.
    + rewrite Pos2Z.inj_succ, Z.pow_succ_r by lia. rewrite Pos2Z.inj_xO, IH2. lia.
Qed.

Lemma shr_fexp_canonical mz ez :
  fexp 53 1024 (Z.pos (digits2_pos mz) + ez) = ez ->
  shr_fexp 53 1024 (Z.pos mz) ez loc_Exact = ({| shr_m := Z.pos mz; shr_r := false; shr_s := false |}, ez).
Proof. intros H. unfold shr_fexp. simpl Zdigits2. rewrite H, Z.sub_diag. done. Qed.

Lemma binary_round_exact s m :
  Z.pos m < 2 ^ 53 ->
  exists mz ez, binary_round 53 1024 s m 0 = S754_finite s mz ez /\
    valid64 (S754_finite s mz ez) /\ Z.pos mz * 2 ^ (ez + 1074) = Z.pos m * unit64.
Proof.
  intros Hm. pose proof (digits2_pos_bound m) as [Hl _].
  assert (Z.pos (digits2_pos m) <= 53) as Hd.
  { destruct (Z.le_gt_cases (Z.pos (digits2_pos m)) 53) as [|Hgt]; [done|].
    assert (2 ^ 53 <= 2 ^ (Z.pos (digits2_pos m) - 1)) by (apply Z.pow_le_mono_r; lia). lia. }
  set (d := Z.pos (digits2_pos m)) in *.
  assert (exists mz, shl_align m 0 (fexp 53 1024 (d + 0)) = (mz, d - 53) /\
            Z.pos (digits2_pos mz) = 53 /\ Z.pos mz = Z.pos m * 2 ^ (53 - d)) as (mz & Hal & Hdg & Hv).
  { unfold fexp, emin. rewrite Z.max_l by lia. replace (d + 0 - 53) with (d - 53) by lia.
    unfold shl_align. destruct (d - 53 - 0) as [|k|k] eqn:Hk; try lia.
    - exists m. replace d with 53 by lia. split; [done|]. split; [fold d; lia|]. rewrite Z.sub_diag. lia.
    - exists (Pos.iter xO m k). destruct (iter_xO_digits m k) as [H1 H2].
      split; [done|]. fold d in H1. split; [lia|]. rewrite H2. f_equal. f_equal. lia. }
  assert (fexp 53 1024 (Z.pos (digits2_pos mz) + (d - 53)) = d - 53) as Hcan by (unfold fexp, emin; lia).
  exists mz, (d - 53). split; [|split].
  - unfold binary_round. fold d. rewrite Hal. unfold binary_round_aux.
    rewrite shr_fexp_canonical by done. simpl loc_of_shr_record. simpl shr_m.
    simpl round_nearest_even. rewrite shr_fexp_canonical by done. simpl shr_m.
    destruct (Z.leb_spec (d - 53) (1024 - 53)); [done|lia].
  - unfold valid64. simpl. unfold bounded, canonical_mantissa. rewrite Hcan, Z.eqb_refl. simpl.
    apply Z.leb_le. lia.
  - rewrite Hv. unfold unit64. rewrite <- Z.mul_assoc, <- Z.pow_add_r by lia. f_equal. f_equal. lia.
Qed.

(** The conversion result is finite, valid and exact. *)
Lemma binary_normalize_exact z s :
  Z.abs z < 2 ^ 53 ->
  let x := binary_normalize 53 1024 z 0 s in valid64 x /\ is_fin x /\ sv x = z * unit64.
Proof.
  intros Hz. destruct z as [|m|m]; simpl.
  - done.
  - destruct (binary_round_exact false m) as (mz & ez & -> & Hv & Hs); [lia|]. simpl. rewrite Hs. done.
  - destruct (binary_round_exact true m) as (mz & ez & -> & Hv & Hs); [lia|]. simpl. rewrite Hs.
    split_and!; [done..|lia].
Qed.

Lemma float64_of_int_exact z :
  Z.abs z < 2 ^ 53 ->
  valid64 (float64_of_int z) /\ is_fin (float64_of_int z) /\ sv (float64_of_int z) = z * unit64.
Proof. apply binary_normalize_exact. Qed.

Lemma unit64_pos : 0 < unit64.
Proof. unfold unit64. apply Z.pow_pos_nonneg; lia. Qed.

(** Truncation reads off the scaled value. *)
Lemma mag_trunc_scaled m e :
  -1074 <= e -> mag_trunc m e = (Z.pos m * 2 ^ (e + 1074)) / unit64.
Proof.
  intros He. unfold mag_trunc, unit64. destruct (Z.leb_spec 0 e).
  - rewrite Z.pow_add_r, Z.mul_assoc by lia. rewrite Z.div_mul; [done|]. apply Z.pow_nonzero; lia.
  - assert (2 ^ 1074 = 2 ^ (e + 1074) * 2 ^ (- e)) as -> by (rewrite <- Z.pow_add_r by lia; f_equal; lia).
    rewrite (Z.mul_comm (Z.pos m)). rewrite Z.div_mul_cancel_l; [done| |]; apply Z.pow_nonzero; lia.
Qed.

Lemma int_of_float64_quot x :
  valid64 x -> is_fin x -> in_i64 (Z.quot (sv x) unit64) -> int_of_float64 x = Z.quot (sv x) unit64.
Proof.
  intros Hx Hf Hr. destruct x as [s|s| |s m e]; simpl in Hf; try done.
  apply valid_finite in Hx. cbn [sv int_of_float64] in *. pose proof unit64_pos.
  assert (0 <= Z.pos m * 2 ^ (e + 1074)) by (assert (0 < 2 ^ (e + 1074)) by (apply Z.pow_pos_nonneg; lia); lia).
  rewrite mag_trunc_scaled by lia.
  assert (Z.quot (cond_opp s (Z.pos m * 2 ^ (e + 1074))) unit64
          = cond_opp s (Z.pos m * 2 ^ (e + 1074) / unit64)) as Hq.
  { assert (unit64 <> 0) by lia.
    destruct s; cbn [cond_opp]; [rewrite Z.quot_opp_l by done|]; rewrite Z.quot_div_nonneg by done; done. }
  rewrite Hq in *. unfold in_i64 in Hr.
  destruct (Z.leb_spec MinInt64 (cond_opp s (Z.pos m * 2 ^ (e + 1074) / unit64))); [|lia].
  destruct (Z.leb_spec (cond_opp s (Z.pos m * 2 ^ (e + 1074) / unit64)) MaxInt64); [done|lia].
Qed.
