(* ===== verification/QuotaMath.v ===== *)
(** * Quota conversions (common/quota_math.go, common/quota.go)

    Every price computed by the gateway reaches the integer quota domain through
    this file: floats are truncated or rounded, decimals are rounded, and a value
    outside the single-request (int32) or wallet (2^53-1) range is either
    saturated with an audit marker or rejected by the strict variants.

    The decimal type is a third-party package: [Decimal] is its interface and
    [DecimalLaws] the documented behaviour the conversions rely on. *)

From stdpp Require Import base tactics numbers strings.
From Stdlib Require Import ZArith Lia SpecFloat.
From S2P Require Import Prelude Float64.
Open Scope Z_scope.

Definition MaxQuota : Z := 2147483647.
Definition MinQuota : Z := -2147483648.
Definition MaxWalletQuota : Z := 9007199254740991.

Definition ValidateWalletQuota (quota : Z) : result string unit :=
  if MaxWalletQuota <? quota then Err "wallet quota exceeds 9007199254740991"%string else Ok tt.

Inductive QuotaClampKind := QuotaClampOverflow | QuotaClampUnderflow | QuotaClampNaN.

Record QuotaClamp := mkQuotaClamp {
  Op : string;
  Kind : QuotaClampKind;
  Original : float64;
  Clamped : Z
}.

(** The value and the audit marker ([nil] for an in-range value). *)
Definition saturateQuotaBounded (value : float64) (op : string) (maxQuota minQuota : Z)
  : Z * option QuotaClamp :=
  let clamped k z := (z, Some (mkQuotaClamp op k value z)) in
  if IsNaN value then clamped QuotaClampNaN 0
  else if f_gt value (float64_of_int maxQuota) then clamped QuotaClampOverflow maxQuota
  else if f_lt value (float64_of_int minQuota) then clamped QuotaClampUnderflow minQuota
  else (int_of_float64 value, None).

Definition saturateQuota (value : float64) (op : string) : Z * option QuotaClamp :=
  saturateQuotaBounded value op MaxQuota MinQuota.

Definition strictQuota (qc : Z * option QuotaClamp) : result QuotaClamp Z :=
  match qc with
  | (_, Some clamp) => Err clamp
  | (quota, None) => Ok quota
  end.

Definition QuotaFromFloatChecked (value : float64) := saturateQuota value "QuotaFromFloat".
Definition QuotaFromFloat (value : float64) : Z := (QuotaFromFloatChecked value).1.
Definition QuotaFromFloatStrict (value : float64) := strictQuota (QuotaFromFloatChecked value).

Definition QuotaRoundChecked (value : float64) := saturateQuota (f_round value) "QuotaRound".
Definition QuotaRound (value : float64) : Z := (QuotaRoundChecked value).1.
Definition QuotaRoundStrict (value : float64) := strictQuota (QuotaRoundChecked value).

(** common.GetTrustQuota, for a configured QuotaPerUnit *)
Definition GetTrustQuota (QuotaPerUnit : float64) : Z :=
  int_of_float64 (SFmul 53 1024 (float64_of_int 10) QuotaPerUnit).

(** ** The decimal package *)

Class Decimal := {
  dec : Type;
  NewFromInt : Z -> dec;
  NewFromFloat : float64 -> dec;
  d_Add : dec -> dec -> dec;
  d_Sub : dec -> dec -> dec;
  d_Mul : dec -> dec -> dec;
  d_Ceil : dec -> dec;
  d_Round0 : dec -> dec;      (* Round(0) *)
  d_Float64 : dec -> float64  (* the first result of Float64() *)
}.

(** [denotes d z]: the decimal [d] is the integer [z].  The laws are those of
    exact decimal arithmetic, and of Float64's nearest rounding, which is exact
    on integers below 2^53 and cannot cross a representable integer. *)
Class DecimalLaws (D : Decimal) := {
  denotes : dec -> Z -> Prop;
  NewFromInt_denotes z : denotes (NewFromInt z) z;
  NewFromFloat_denotes x z : valid64 x -> is_fin x -> sv x = z * unit64 -> Z.abs z < 2 ^ 53 ->
    denotes (NewFromFloat x) z;
  d_Add_denotes a b x y : denotes a x -> denotes b y -> denotes (d_Add a b) (x + y);
  d_Sub_denotes a b x y : denotes a x -> denotes b y -> denotes (d_Sub a b) (x - y);
  d_Mul_denotes a b x y : denotes a x -> denotes b y -> denotes (d_Mul a b) (x * y);
  d_Ceil_integer a : exists z, denotes (d_Ceil a) z;
  d_Round0_integer a : exists z, denotes (d_Round0 a) z;
  d_Round0_denotes a x : denotes a x -> denotes (d_Round0 a) x;
  d_Float64_exact a x : denotes a x -> Z.abs x < 2 ^ 53 -> d_Float64 a = float64_of_int x;
  d_Float64_num a : valid64 (d_Float64 a) /\ IsNaN (d_Float64 a) = false;
  d_Float64_above a x b : denotes a x -> Z.abs b < 2 ^ 53 -> b < x ->
    f_gt (d_Float64 a) (float64_of_int b) = true;
  d_Float64_below a x b : denotes a x -> Z.abs b < 2 ^ 53 -> x < b ->
    f_lt (d_Float64 a) (float64_of_int b) = true
}.

Section decimal.
Context {D : Decimal}.

Definition QuotaFromDecimalChecked (d : dec) : Z * option QuotaClamp :=
  saturateQuota (d_Float64 (d_Round0 d)) "QuotaFromDecimal".
Definition QuotaFromDecimal (d : dec) : Z := (QuotaFromDecimalChecked d).1.
Definition QuotaFromDecimalStrict (d : dec) : result QuotaClamp Z :=
  strictQuota (QuotaFromDecimalChecked d).
Definition WalletQuotaFromDecimalStrict (d : dec) : result QuotaClamp Z :=
  strictQuota (saturateQuotaBounded (d_Float64 (d_Round0 d)) "WalletQuotaFromDecimal"
                 MaxWalletQuota (- MaxWalletQuota)).
End decimal.

(** ** Correctness of the saturation *)

Section saturate.
Context (op : string) (hi lo : Z).
Hypothesis Hhi : 0 <= hi < 2 ^ 53.
Hypothesis Hlo : - 2 ^ 53 < lo <= 0.

(** The three outcomes of the conversion, in terms of the exact value. *)
Lemma saturate_cases v :
  valid64 v ->
  let r := saturateQuotaBounded v op hi lo in
  (IsNaN v = true /\ r = (0, Some (mkQuotaClamp op QuotaClampNaN v 0))) \/
  (r = (hi, Some (mkQuotaClamp op QuotaClampOverflow v hi)) /\ (is_fin v -> hi * unit64 < sv v)) \/
  (r = (lo, Some (mkQuotaClamp op QuotaClampUnderflow v lo)) /\ (is_fin v -> sv v < lo * unit64)) \/
  (is_fin v /\ lo * unit64 <= sv v <= hi * unit64 /\ r = (int_of_float64 v, None)).
Proof using Hhi Hlo.
  intros Hv. destruct (float64_of_int_exact hi) as (Vh & Fh & Sh); [lia|].
  destruct (float64_of_int_exact lo) as (Vl & Fl & Sl); [lia|].
  unfold saturateQuotaBounded. destruct (IsNaN v) eqn:Hn; [by left|right].
  assert (is_fin v \/ exists s, v = S754_infinity s) as [Hf|[s ->]]
    by (destruct v; simpl; eauto; done).
  - rewrite f_gt_fin, f_lt_fin, Sh, Sl by done.
    destruct (Z.ltb_spec (hi * unit64) (sv v)); [by left|right].
    destruct (Z.ltb_spec (sv v) (lo * unit64)); [by left|right]. done.
  - destruct (float64_of_int hi) eqn:Eh, (float64_of_int lo) eqn:El; simpl in Fh, Fl; try done;
      destruct s; simpl; naive_solver.
Qed.

Lemma quot_between v :
  lo * unit64 <= sv v <= hi * unit64 -> lo <= Z.quot (sv v) unit64 <= hi.
Proof using Hhi Hlo.
  intros [H1 H2]. pose proof unit64_pos as Hu.
  rewrite <- (Z.quot_mul lo unit64), <- (Z.quot_mul hi unit64) by lia.
  split; apply Z.quot_le_mono; lia.
Qed.
End saturate.

(** ** Rounding *)

(** The reference: the integer nearest to n/d, ties away from zero. *)
Definition round_half_away (n d : Z) : Z := Z.sgn n * ((2 * Z.abs n + d) / (2 * d)).

Lemma mag_round_scaled m e :
  -1074 <= e -> mag_round m e = (2 * (Z.pos m * 2 ^ (e + 1074)) + unit64) / (2 * unit64).
Proof.
  intros He. unfold mag_round, unit64. destruct (Z.leb_spec 0 e).
  - rewrite Z.pow_add_r by lia. assert (0 < 2 ^ 1074) by (apply Z.pow_pos_nonneg; lia).
    set (U := 2 ^ 1074) in *. apply Z.div_unique with (r := U); lia.
  - assert (2 ^ 1074 = 2 ^ (e + 1075) * 2 ^ (- e - 1)) as H1 by (rewrite <- Z.pow_add_r by lia; f_equal; lia).
    assert (2 * 2 ^ 1074 = 2 ^ (e + 1075) * 2 ^ (- e)) as ->.
    { rewrite <- Z.pow_add_r by lia. rewrite <- Z.pow_succ_r by lia. f_equal. lia. }
    assert (2 * (Z.pos m * 2 ^ (e + 1074)) + 2 ^ 1074 = 2 ^ (e + 1075) * (Z.pos m + 2 ^ (- e - 1))) as ->.
    { rewrite Z.mul_add_distr_l, <- H1. replace (e + 1075) with (Z.succ (e + 1074)) by lia.
      rewrite Z.pow_succ_r by lia. lia. }
    rewrite Z.div_mul_cancel_l; [done| |]; apply Z.pow_nonzero; lia.
Qed.

Lemma mag_round_small m e : Z.pos m < 2 ^ 53 -> e < 0 -> 0 <= mag_round m e < 2 ^ 53.
Proof.
  intros Hm He. unfold mag_round. destruct (Z.leb_spec 0 e); [lia|].
  assert (0 < 2 ^ (- e - 1)) by (apply Z.pow_pos_nonneg; lia).
  assert (2 ^ (- e) = 2 * 2 ^ (- e - 1)) as -> by (rewrite <- Z.pow_succ_r by lia; f_equal; lia).
  split; [apply Z.div_pos; lia | apply Z.div_lt_upper_bound; nia].
Qed.

(** [math.Round] returns the float holding the nearest integer. *)
Lemma f_round_sv x :
  valid64 x -> is_fin x ->
  valid64 (f_round x) /\ is_fin (f_round x) /\ sv (f_round x) = round_half_away (sv x) unit64 * unit64.
Proof.
  intros Hx Hf. pose proof unit64_pos as Hu.
  destruct x as [s|s| |s m e]; simpl in Hf; try done.
  pose proof Hx as Hv. apply valid_finite in Hv as (He & Hm & _).
  assert (0 < Z.pos m * 2 ^ (e + 1074)) as Hp
    by (assert (0 < 2 ^ (e + 1074)) by (apply Z.pow_pos_nonneg; lia); lia).
  assert (round_half_away (cond_opp s (Z.pos m * 2 ^ (e + 1074))) unit64 = cond_opp s (mag_round m e)) as Hr.
  { rewrite mag_round_scaled by lia. unfold round_half_away.
    destruct s; cbn [cond_opp]; rewrite ?Z.sgn_opp, ?Z.abs_opp, Z.sgn_pos, Z.abs_eq by lia; lia. }
  cbn [sv]. rewrite Hr. cbn [f_round]. destruct (Z.leb_spec 0 e) as [H0|H0].
  - split_and!; [done..|]. unfold mag_round. rewrite (proj2 (Z.leb_le 0 e)) by lia.
    cbn [sv]. rewrite Z.pow_add_r by lia. unfold unit64. destruct s; cbn [cond_opp]; lia.
  - pose proof (mag_round_small m e Hm H0).
    apply binary_normalize_exact. destruct s; cbn [cond_opp]; lia.
Qed.

Lemma int_of_float64_exact x z :
  valid64 x -> is_fin x -> sv x = z * unit64 -> in_i64 z -> int_of_float64 x = z.
Proof.
  intros Hv Hf Hs Hr. pose proof unit64_pos. rewrite int_of_float64_quot by (rewrite ?Hs, ?Z.quot_mul; auto; lia).
  rewrite Hs, Z.quot_mul by lia. done.
Qed.

(** Saturating a float that holds the integer [z]. *)
Lemma saturate_integer op hi lo x z :
  0 <= hi < 2 ^ 53 -> - 2 ^ 53 < lo <= 0 ->
  valid64 x -> is_fin x -> sv x = z * unit64 ->
  saturateQuotaBounded x op hi lo =
    if hi <? z then (hi, Some (mkQuotaClamp op QuotaClampOverflow x hi))
    else if z <? lo then (lo, Some (mkQuotaClamp op QuotaClampUnderflow x lo))
    else (z, None).
Proof.
  intros Hhi Hlo Hv Hf Hs. pose proof unit64_pos as Hu.
  destruct (float64_of_int_exact hi) as (Vh & Fh & Sh); [lia|].
  destruct (float64_of_int_exact lo) as (Vl & Fl & Sl); [lia|].
  unfold saturateQuotaBounded. replace (IsNaN x) with false by (by destruct x).
  rewrite f_gt_fin, f_lt_fin, Sh, Sl, Hs by done.
  replace (hi * unit64 <? z * unit64) with (hi <? z) by (apply Bool.eq_true_iff_eq; rewrite !Z.ltb_lt; nia).
  replace (z * unit64 <? lo * unit64) with (z <? lo) by (apply Bool.eq_true_iff_eq; rewrite !Z.ltb_lt; nia).
  destruct (Z.ltb_spec hi z); [done|]. destruct (Z.ltb_spec z lo); [done|].
  rewrite (int_of_float64_exact x z); try done. unfold in_i64, MinInt64, MaxInt64. lia.
Qed.

(** ** Properties *)

(** [saturateQuotaBounded] never leaves the configured range, and it reports
    no clamp exactly when the value is a number inside the range, in which case
    the result is the value truncated toward zero. *)
Theorem saturateQuotaBounded_correct v op hi lo :
  0 <= hi < 2 ^ 53 -> - 2 ^ 53 < lo <= 0 -> valid64 v ->
  let (q, clamp) := saturateQuotaBounded v op hi lo in
  lo <= q <= hi /\
  (clamp = None <-> is_fin v /\ lo * unit64 <= sv v <= hi * unit64) /\
  (clamp = None -> q = Z.quot (sv v) unit64).
Proof.
  intros Hhi Hlo Hv. pose proof unit64_pos.
  destruct (saturate_cases op hi lo Hhi Hlo v Hv) as [[Hn ->]|[[-> Hc]|[[-> Hc]|(Hf & Hr & ->)]]].
  1-3: split; [lia|]; split; [|done]; split; [done|]; intros [Hf Hr].
  - by destruct v.
  - specialize (Hc Hf). lia.
  - specialize (Hc Hf). lia.
  - pose proof (quot_between hi lo Hhi Hlo v Hr) as Hq.
    assert (int_of_float64 v = Z.quot (sv v) unit64) as ->.
    { apply int_of_float64_quot; [done..|]. unfold in_i64, MinInt64, MaxInt64. lia. }
    done.
Qed.

Lemma saturateQuotaBounded_correct_witness :
  exists q c, saturateQuotaBounded (float64_of_int 5000000000) "QuotaFromFloat" MaxQuota MinQuota = (q, c)
    /\ q = MaxQuota /\ c <> None /\ MinQuota <= q <= MaxQuota.
Proof.
  pose proof (saturateQuotaBounded_correct (float64_of_int 5000000000) "QuotaFromFloat" MaxQuota MinQuota
    ltac:(vm_compute; split; congruence) ltac:(vm_compute; split; congruence) ltac:(vm_compute; reflexivity)) as H.
  eexists _, _. split; [vm_compute; reflexivity|].
  split; [vm_compute; reflexivity|]. split; [congruence|].
  vm_compute in H |- *. apply H.
Defined.

(** [QuotaRound] is rounding half away from zero: a finite value whose nearest
    integer fits the single-request range is converted to it with no clamp, and
    any other finite value is saturated at the bound it exceeds. *)
Theorem QuotaRoundChecked_nearest v :
  valid64 v -> is_fin v ->
  let z := round_half_away (sv v) unit64 in
  (MinQuota <= z <= MaxQuota -> QuotaRoundChecked v = (z, None)) /\
  (MaxQuota < z -> QuotaRound v = MaxQuota /\ exists c, QuotaRoundStrict v = Err c) /\
  (z < MinQuota -> QuotaRound v = MinQuota /\ exists c, QuotaRoundStrict v = Err c).
Proof.
  intros Hv Hf z. destruct (f_round_sv v Hv Hf) as (Vr & Fr & Sr).
  unfold QuotaRound, QuotaRoundStrict, QuotaRoundChecked, saturateQuota.
  rewrite (saturate_integer _ MaxQuota MinQuota _ z) by (done || (unfold MaxQuota, MinQuota; lia)).
  split_and!; intros H.
  - destruct (Z.ltb_spec MaxQuota z); [lia|]. destruct (Z.ltb_spec z MinQuota); [lia|done].
  - destruct (Z.ltb_spec MaxQuota z); [|lia]. simpl. eauto.
  - destruct (Z.ltb_spec MaxQuota z); [unfold MaxQuota, MinQuota in *; lia|].
    destruct (Z.ltb_spec z MinQuota); [|lia]. simpl. eauto.
Qed.

(** 2.5 = 5 * 2^-1 rounds to 3. *)
Lemma QuotaRoundChecked_nearest_witness :
  QuotaRoundChecked (SFdiv 53 1024 (float64_of_int 5) (float64_of_int 2)) = (3, None).
Proof.
  pose proof (QuotaRoundChecked_nearest (SFdiv 53 1024 (float64_of_int 5) (float64_of_int 2))
    ltac:(vm_compute; reflexivity) ltac:(vm_compute; exact I)) as [H _].
  vm_compute in H |- *. apply H. split; congruence.
Defined.

Section decimal_props.
Context {D : Decimal} {L : DecimalLaws D}.

Lemma saturate_decimal op hi lo d z :
  0 <= hi < 2 ^ 53 -> - 2 ^ 53 < lo <= 0 -> denotes d z ->
  let (q, c) := saturateQuotaBounded (d_Float64 d) op hi lo in
  (lo <= z <= hi -> (q, c) = (z, None)) /\ (~ lo <= z <= hi -> is_Some c).
Proof using All.
  intros Hhi Hlo Hz. destruct (d_Float64_num d) as [Hv Hn].
  destruct (decide (lo <= z <= hi)) as [Hr|Hr].
  - destruct (float64_of_int_exact z) as (V & F & S); [lia|].
    rewrite (d_Float64_exact d z) by (done || lia).
    rewrite (saturate_integer op hi lo _ z) by done.
    destruct (Z.ltb_spec hi z); [lia|]. destruct (Z.ltb_spec z lo); [lia|]. done.
  - unfold saturateQuotaBounded. rewrite Hn.
    destruct (decide (hi < z)).
    + rewrite (d_Float64_above d z hi) by (done || lia). split; [lia|eauto].
    + destruct (f_gt _ _); [split; [lia|eauto]|].
      rewrite (d_Float64_below d z lo) by (done || lia). split; [lia|eauto].
Qed.

Lemma WalletQuotaFromDecimalStrict_denotes d z :
  denotes (d_Round0 d) z ->
  (- MaxWalletQuota <= z <= MaxWalletQuota -> WalletQuotaFromDecimalStrict d = Ok z) /\
  (~ - MaxWalletQuota <= z <= MaxWalletQuota -> exists c, WalletQuotaFromDecimalStrict d = Err c).
Proof using All.
  intros Hz. unfold WalletQuotaFromDecimalStrict.
  pose proof (saturate_decimal "WalletQuotaFromDecimal" MaxWalletQuota (- MaxWalletQuota) (d_Round0 d) z
    ltac:(unfold MaxWalletQuota; lia) ltac:(unfold MaxWalletQuota; lia) Hz) as H.
  destruct (saturateQuotaBounded _ _ _ _) as [q c]. destruct H as [H1 H2]. split; intros Hr.
  - specialize (H1 Hr). by simplify_eq.
  - destruct (H2 Hr) as [x ->]. simpl. eauto.
Qed.

Lemma WalletQuotaFromDecimalStrict_range d z :
  WalletQuotaFromDecimalStrict d = Ok z -> - MaxWalletQuota <= z <= MaxWalletQuota.
Proof using All.
  intros H. destruct (d_Round0_integer d) as [x Hx].
  destruct (WalletQuotaFromDecimalStrict_denotes d x Hx) as [H1 H2].
  destruct (decide (- MaxWalletQuota <= x <= MaxWalletQuota)) as [Hr|Hr].
  - rewrite H1 in H by done. by simplify_eq.
  - destruct (H2 Hr) as [c Hc]. congruence.
Qed.
End decimal_props.
