(* ===== verification/DecimalQ.v ===== *)
(** * A concrete decimal: exact rationals

    The quota conversions are proved for any decimal package that satisfies
    [DecimalLaws]; this instance, with exact rational arithmetic, shows that the
    laws can hold and lets the witnesses of the theorems compute. *)

From stdpp Require Import base tactics numbers.
From Stdlib Require Import ZArith QArith Qround Lia Lqa SpecFloat.
From S2P Require Import Prelude Float64 QuotaMath.
Open Scope Z_scope.

Definition q_round0 (q : Q) : Q :=
  inject_Z (round_half_away (Qnum q) (Z.pos (Qden q))).

Definition q_float64 (q : Q) : float64 :=
  let z := Qfloor q in
  if Z.abs z <? 2 ^ 53 then float64_of_int z else S754_infinity (z <? 0).

#[export] Instance QDecimal : Decimal := {
  dec := Q;
  NewFromInt := inject_Z;
  NewFromFloat x := Qmake (sv x) (2 ^ 1074)%positive;
  d_Add := Qplus;
  d_Sub := Qminus;
  d_Mul := Qmult;
  d_Ceil q := inject_Z (Qceiling q);
  d_Round0 := q_round0;
  d_Float64 := q_float64
}.

Lemma round_half_away_integer z d : 0 < d -> round_half_away (z * d) d = z.
Proof.
  intros Hd. unfold round_half_away.
  rewrite Z.sgn_mul, (Z.sgn_pos d), Z.mul_1_r, Z.abs_mul, (Z.abs_eq d) by lia.
  assert ((2 * (Z.abs z * d) + d) / (2 * d) = Z.abs z) as ->; [|lia].
  symmetry. apply Z.div_unique with (r := d); lia.
Qed.

Lemma q_denotes_num (q : Q) z : (q == inject_Z z)%Q -> Qnum q = z * Z.pos (Qden q).
Proof. unfold Qeq, inject_Z. simpl. lia. Qed.

Lemma q_floor_denotes (q : Q) z : (q == inject_Z z)%Q -> Qfloor q = z.
Proof. intros H. rewrite (Qfloor_comp _ _ H). apply Qfloor_Z. Qed.

Lemma f_gt_inf b : Z.abs b < 2 ^ 53 -> f_gt (S754_infinity false) (float64_of_int b) = true.
Proof. intros Hb. destruct (float64_of_int_exact b Hb) as (_ & Hf & _). by destruct (float64_of_int b). Qed.
Lemma f_lt_inf b : Z.abs b < 2 ^ 53 -> f_lt (S754_infinity true) (float64_of_int b) = true.
Proof. intros Hb. destruct (float64_of_int_exact b Hb) as (_ & Hf & _). by destruct (float64_of_int b). Qed.

Lemma q_float64_big x : 2 ^ 53 <= Z.abs x -> forall q, (q == inject_Z x)%Q -> q_float64 q = S754_infinity (x <? 0).
Proof.
  intros Hx q Hq. unfold q_float64. rewrite (q_floor_denotes q x Hq).
  destruct (Z.ltb_spec (Z.abs x) (2 ^ 53)); [lia|done].
Qed.

Lemma q_float64_small x : Z.abs x < 2 ^ 53 -> forall q, (q == inject_Z x)%Q -> q_float64 q = float64_of_int x.
Proof.
  intros Hx q Hq. unfold q_float64. rewrite (q_floor_denotes q x Hq).
  destruct (Z.ltb_spec (Z.abs x) (2 ^ 53)); [done|lia].
Qed.

#[local] Obligation Tactic := idtac.

#[export] Program Instance QDecimalLaws : DecimalLaws QDecimal := {
  denotes := fun (q : Q) z => (q == inject_Z z)%Q
}.
Next Obligation. intros. reflexivity. Qed.
Next Obligation.
  intros x z _ _ Hs _. simpl. rewrite Hs. unfold Qeq, inject_Z. simpl Qnum. simpl Qden.
  rewrite Pos2Z.inj_pow. unfold unit64. lia.
Qed.
Next Obligation. intros a b x y Ha Hb. simpl. rewrite Ha, Hb. rewrite inject_Z_plus. reflexivity. Qed.
Next Obligation.
  intros a b x y Ha Hb. simpl. rewrite Ha, Hb. unfold Qminus, Z.sub.
  rewrite inject_Z_plus, inject_Z_opp. reflexivity.
Qed.
Next Obligation. intros a b x y Ha Hb. simpl. rewrite Ha, Hb. rewrite inject_Z_mult. reflexivity. Qed.
Next Obligation. intros a. eexists. simpl. reflexivity. Qed.
Next Obligation. intros a. eexists. simpl. reflexivity. Qed.
Next Obligation.
  intros a x Ha. simpl. unfold q_round0. rewrite (q_denotes_num a x Ha), round_half_away_integer by lia.
  reflexivity.
Qed.
Next Obligation. intros a x Ha Hx. simpl. by apply q_float64_small. Qed.
Next Obligation.
  intros a. simpl. unfold q_float64. destruct (Z.ltb_spec (Z.abs (Qfloor a)) (2 ^ 53)) as [H|H]; [|done].
  destruct (float64_of_int_exact _ H) as (Hv & Hf & _). split; [done|]. by destruct (float64_of_int _).
Qed.
Next Obligation.
  intros a x b Ha Hb Hlt. simpl. destruct (decide (Z.abs x < 2 ^ 53)) as [Hx|Hx].
  - rewrite (q_float64_small x) by done.
    destruct (float64_of_int_exact _ Hb) as (V1 & F1 & S1). destruct (float64_of_int_exact _ Hx) as (V2 & F2 & S2).
    rewrite f_gt_fin by done. rewrite S1, S2. apply Z.ltb_lt. pose proof unit64_pos. nia.
  - rewrite (q_float64_big x) by (done || lia). destruct (Z.ltb_spec x 0); [lia|]. by apply f_gt_inf.
Qed.
Next Obligation.
  intros a x b Ha Hb Hlt. simpl. destruct (decide (Z.abs x < 2 ^ 53)) as [Hx|Hx].
  - rewrite (q_float64_small x) by done.
    destruct (float64_of_int_exact _ Hb) as (V1 & F1 & S1). destruct (float64_of_int_exact _ Hx) as (V2 & F2 & S2).
    rewrite f_lt_fin by done. rewrite S1, S2. apply Z.ltb_lt. pose proof unit64_pos. nia.
  - rewrite (q_float64_big x) by (done || lia). destruct (Z.ltb_spec x 0); [|lia]. by apply f_lt_inf.
Qed.
