(* ===== verification/Calendar.v ===== *)
(** * The part of Go's [time] package used by the subscription clock

    A [time.Time] of this program is always built by [time.Unix(n, 0)], so it is
    a number of Unix seconds read in the server's location.  The location is a
    fixed offset east of UTC, [off] seconds (no daylight-saving transitions).
    Civil dates are the proleptic Gregorian calendar; [Date] normalises months
    and days the way the package documents. *)

From stdpp Require Import base tactics numbers list.
From Stdlib Require Import ZArith Lia.
From S2P Require Import Prelude.
Open Scope Z_scope.

Definition is_leap (y : Z) : bool :=
  (y mod 4 =? 0) && (negb (y mod 100 =? 0) || (y mod 400 =? 0)).

(** Days of the [n] years that follow 1 January of year 1. *)
Definition days_before_year (n : Z) : Z := 365 * n + n / 4 - n / 100 + n / 400.

(** Days of a year before the first of month [m]. *)
Definition days_before_month (leap : bool) (m : Z) : Z :=
  let l := if leap then 1 else 0 in
  if m <=? 1 then 0 else if m =? 2 then 31 else if m =? 3 then 59 + l
  else if m =? 4 then 90 + l else if m =? 5 then 120 + l else if m =? 6 then 151 + l
  else if m =? 7 then 181 + l else if m =? 8 then 212 + l else if m =? 9 then 243 + l
  else if m =? 10 then 273 + l else if m =? 11 then 304 + l else 334 + l.

(** The month of a day of the year: the last one that starts no later. *)
Fixpoint month_search (leap : bool) (yday : Z) (fuel : nat) (m : Z) : Z :=
  match fuel with
  | O => m
  | S fuel => if days_before_month leap m <=? yday then m else month_search leap yday fuel (m - 1)
  end.
Definition month_of_yday (leap : bool) (yday : Z) : Z := month_search leap yday 11 12.

(** Days since 1970-01-01 of a date with month in 1..12. *)
Definition days_of_civil (y m d : Z) : Z :=
  days_before_year (y - 1) + days_before_month (is_leap y) m + d - 1 - 719162.

(** 400-year, 100-year, 4-year and 1-year cycles, then the month. *)
Definition civil_of_days (z : Z) : Z * Z * Z :=
  let n := z + 719162 in
  let n400 := n / 146097 in let r400 := n mod 146097 in
  let n100 := Z.min (r400 / 36524) 3 in let r100 := r400 - 36524 * n100 in
  let n4 := r100 / 1461 in let r4 := r100 mod 1461 in
  let n1 := Z.min (r4 / 365) 3 in let yday := r4 - 365 * n1 in
  let y := 400 * n400 + 100 * n100 + 4 * n4 + n1 + 1 in
  let m := month_of_yday (is_leap y) yday in
  (y, m, yday - days_before_month (is_leap y) m + 1).

(** [Date(y, m, d, 0, 0, 0, 0, loc)] as Unix seconds: months outside 1..12 carry
    into the year, days outside the month carry linearly. *)
Definition Date (off y m d : Z) : Z :=
  days_of_civil (y + (m - 1) / 12) ((m - 1) mod 12 + 1) d * 86400 - off.

Definition unix_days (off u : Z) : Z := (u + off) / 86400.
Definition sec_of_day (off u : Z) : Z := (u + off) mod 86400.

Definition Year (off u : Z) : Z := (civil_of_days (unix_days off u)).1.1.
Definition Month (off u : Z) : Z := (civil_of_days (unix_days off u)).1.2.
Definition Day (off u : Z) : Z := (civil_of_days (unix_days off u)).2.

(** Sunday = 0; 1970-01-01 was a Thursday. *)
Definition Weekday (off u : Z) : Z := (unix_days off u + 4) mod 7.

(** [t.AddDate(years, months, days)] keeps the clock time of day. *)
Definition AddDate (off u years months days : Z) : Z :=
  Date off (Year off u + years) (Month off u + months) (Day off u + days) + sec_of_day off u.

(** A [time.Duration] counts nanoseconds in an int64; [Add] on whole seconds. *)
Definition Nanosecond_per_second : Z := 1000000000.
Definition Add (u duration : Z) : Z := u + duration / Nanosecond_per_second.
Definition seconds_to_duration (n : Z) : Z := n *! Nanosecond_per_second.

(** ** The calendar is exact *)

Lemma days_before_month_range leap m : 0 <= days_before_month leap m <= 335.
Proof. unfold days_before_month. destruct leap; repeat case_match; lia. Qed.

(** The search returns a month that starts no later and ends after the day. *)
Lemma month_search_spec leap yday fuel m :
  0 <= yday -> m = Z.of_nat fuel + 1 ->
  let m' := month_search leap yday fuel m in
  1 <= m' <= m /\ days_before_month leap m' <= yday /\ (m' < m -> yday < days_before_month leap (m' + 1)).
Proof.
  intros Hy. revert m. induction fuel as [|fuel IH]; intros m Hm.
  - assert (m = 1) as -> by lia. cbn [month_search]. change (days_before_month leap 1) with 0. lia.
  - cbn [month_search]. destruct (Z.leb_spec (days_before_month leap m) yday); [lia|].
    destruct (IH (m - 1)) as (H1 & H2 & H3); [lia|]. set (m' := month_search _ _ _ _) in *. cbv zeta.
    split; [lia|]. split; [done|]. intros _. destruct (decide (m' = m - 1)) as [->|]; [|apply H3; lia].
    by replace (m - 1 + 1) with m by lia.
Qed.

Lemma month_of_yday_spec leap yday :
  0 <= yday ->
  let m := month_of_yday leap yday in
  1 <= m <= 12 /\ days_before_month leap m <= yday /\ (m < 12 -> yday < days_before_month leap (m + 1)).
Proof. intros Hy. by apply month_search_spec. Qed.

Lemma days_before_month_inv leap m : 1 <= m <= 12 -> month_of_yday leap (days_before_month leap m) = m.
Proof.
  intros Hm. assert (m = 1 \/ m = 2 \/ m = 3 \/ m = 4 \/ m = 5 \/ m = 6 \/ m = 7 \/ m = 8 \/ m = 9
    \/ m = 10 \/ m = 11 \/ m = 12) as H by lia.
  destruct leap; destruct_or! H; subst; reflexivity.
Qed.

Section cycles.
Context (a b c d : Z).
Hypothesis Hb : 0 <= b <= 3.
Hypothesis Hc : 0 <= c <= 24.
Hypothesis Hd : 0 <= d <= 3.

Lemma cycles_before_year :
  days_before_year (400 * a + 100 * b + 4 * c + d) = 146097 * a + 36524 * b + 1461 * c + 365 * d.
Proof using All.
  unfold days_before_year. set (n := 400 * a + 100 * b + 4 * c + d).
  assert (n / 4 = 100 * a + 25 * b + c) as -> by (symmetry; apply Z.div_unique with (r := d); lia).
  assert (n / 100 = 4 * a + b) as -> by (symmetry; apply Z.div_unique with (r := 4 * c + d); lia).
  assert (n / 400 = a) as -> by (symmetry; apply Z.div_unique with (r := 100 * b + 4 * c + d); lia).
  lia.
Qed.
End cycles.

(** Every year count has the four cycles. *)
Lemma cycles_of_year n :
  exists a b c d, n = 400 * a + 100 * b + 4 * c + d /\ 0 <= b <= 3 /\ 0 <= c <= 24 /\ 0 <= d <= 3.
Proof.
  exists (n / 400), (n mod 400 / 100), (n mod 100 / 4), (n mod 4).
  pose proof (Z.div_mod n 400). pose proof (Z.mod_pos_bound n 400).
  assert (n mod 100 = n mod 400 mod 100) as E1.
  { symmetry. apply Z.mod_mod_divide. exists 4. done. }
  assert (n mod 4 = n mod 400 mod 100 mod 4) as E2.
  { rewrite <- E1. symmetry. apply Z.mod_mod_divide. exists 25. done. }
  rewrite E1, E2. set (r := n mod 400) in *.
  pose proof (Z.div_mod r 100). pose proof (Z.mod_pos_bound r 100). set (q := r mod 100) in *.
  pose proof (Z.div_mod q 4). pose proof (Z.mod_pos_bound q 4).
  assert (0 <= r / 100 <= 3) by lia. assert (0 <= q / 4 <= 24) by lia. lia.
Qed.

(** The next year starts after the last day the cycles allow. *)
Lemma next_year_bound a b c d r :
  0 <= b <= 3 -> 0 <= c <= 24 -> 0 <= d <= 3 -> 0 <= r ->
  (d < 3 -> r < 365) -> r <= 365 -> (d = 3 -> c = 24 -> b < 3 -> r < 365) ->
  146097 * a + 36524 * b + 1461 * c + 365 * d + r < days_before_year (400 * a + 100 * b + 4 * c + d + 1).
Proof.
  intros Hb Hc Hd Hr H1 H2 H3.
  destruct (decide (d < 3)).
  { replace (400 * a + 100 * b + 4 * c + d + 1) with (400 * a + 100 * b + 4 * c + (d + 1)) by lia.
    rewrite cycles_before_year by lia. lia. }
  destruct (decide (c < 24)).
  { replace (400 * a + 100 * b + 4 * c + d + 1) with (400 * a + 100 * b + 4 * (c + 1) + 0) by lia.
    rewrite cycles_before_year by lia. lia. }
  destruct (decide (b < 3)).
  { replace (400 * a + 100 * b + 4 * c + d + 1) with (400 * a + 100 * (b + 1) + 4 * 0 + 0) by lia.
    rewrite cycles_before_year by lia. lia. }
  replace (400 * a + 100 * b + 4 * c + d + 1) with (400 * (a + 1) + 100 * 0 + 4 * 0 + 0) by lia.
  rewrite cycles_before_year by lia. lia.
Qed.

Lemma civil_of_days_spec z :
  let '(y, m, d) := civil_of_days z in
  days_of_civil y m d = z /\ 1 <= m <= 12 /\ z < days_of_civil (y + m / 12) (m mod 12 + 1) 1.
Proof.
  unfold civil_of_days. cbv zeta. set (n := z + 719162).
  pose proof (Z.div_mod n 146097) as D1. pose proof (Z.mod_pos_bound n 146097) as B1.
  set (a := n / 146097) in *. set (r := n mod 146097) in *.
  set (b := Z.min (r / 36524) 3). set (r100 := r - 36524 * b).
  pose proof (Z.div_mod r100 1461) as D2. pose proof (Z.mod_pos_bound r100 1461) as B2.
  set (c := r100 / 1461) in *. set (r4 := r100 mod 1461) in *.
  set (d := Z.min (r4 / 365) 3). set (yday := r4 - 365 * d).
  assert (0 <= b <= 3 /\ 0 <= r100 <= 36524 /\ (b < 3 -> r100 < 36524)) as (Hb & Hr100 & Hb3).
  { pose proof (Z.div_mod r 36524). pose proof (Z.mod_pos_bound r 36524). unfold r100, b. lia. }
  assert (0 <= c <= 24) as Hc by lia.
  assert (0 <= d <= 3 /\ 0 <= yday <= 365 /\ (d < 3 -> yday < 365)) as (Hd & Hyd & Hd3).
  { pose proof (Z.div_mod r4 365). pose proof (Z.mod_pos_bound r4 365). unfold yday, d. lia. }
  assert (z = 146097 * a + 36524 * b + 1461 * c + 365 * d + yday - 719162) as Hz by (unfold yday, r100, n in *; lia).
  clearbody yday. set (y := 400 * a + 100 * b + 4 * c + d + 1).
  destruct (month_of_yday_spec (is_leap y) yday) as (Hm & Hlo & Hhi); [lia|].
  set (m := month_of_yday (is_leap y) yday) in *.
  assert (days_before_year (y - 1) = 146097 * a + 36524 * b + 1461 * c + 365 * d) as Hy.
  { replace (y - 1) with (400 * a + 100 * b + 4 * c + d) by lia. apply cycles_before_year; lia. }
  unfold days_of_civil. split; [lia|]. split; [done|]. destruct (decide (m = 12)) as [->|].
  - change (12 / 12) with 1. change (12 mod 12 + 1) with 1.
    assert (146097 * a + 36524 * b + 1461 * c + 365 * d + yday < days_before_year (y + 1 - 1));
      [|change (days_before_month (is_leap (y + 1)) 1) with 0; lia].
    replace (y + 1 - 1) with (400 * a + 100 * b + 4 * c + d + 1) by lia.
    apply next_year_bound; lia.
  - rewrite Z.div_small, Z.mod_small by lia. rewrite Z.add_0_r. lia.
Qed.

Lemma Date_month off y m d : 1 <= m <= 12 -> Date off y m d = days_of_civil y m d * 86400 - off.
Proof.
  intros Hm. unfold Date. rewrite Z.div_small, Z.mod_small by lia. rewrite Z.add_0_r.
  by replace (m - 1 + 1) with m by lia.
Qed.

(** A day is the date it reads as. *)
Lemma Date_of_civil off z :
  let '(y, m, d) := civil_of_days z in
  forall j, Date off y m (d + j) = (z + j) * 86400 - off.
Proof.
  pose proof (civil_of_days_spec z) as H. destruct (civil_of_days z) as [[y m] d].
  destruct H as (H1 & H2 & _). intros j. rewrite Date_month by done.
  enough (days_of_civil y m (d + j) = days_of_civil y m d + j) by lia.
  unfold days_of_civil. lia.
Qed.

Lemma unix_split off u : u = unix_days off u * 86400 + sec_of_day off u - off /\ 0 <= sec_of_day off u < 86400.
Proof.
  unfold unix_days, sec_of_day. pose proof (Z.div_mod (u + off) 86400). pose proof (Z.mod_pos_bound (u + off) 86400).
  lia.
Qed.

(** Adding days moves exactly that many days. *)
Lemma AddDate_days off u n : AddDate off u 0 0 n = u + n * 86400.
Proof.
  unfold AddDate, Year, Month, Day. rewrite !Z.add_0_r.
  pose proof (Date_of_civil off (unix_days off u)) as H. destruct (civil_of_days _) as [[y m] d]. simpl.
  rewrite H. pose proof (unix_split off u). lia.
Qed.

(** Midnight of the day of [u]. *)
Lemma Date_midnight off u :
  Date off (Year off u) (Month off u) (Day off u) = u - sec_of_day off u.
Proof.
  unfold Year, Month, Day. pose proof (Date_of_civil off (unix_days off u)) as H.
  destruct (civil_of_days _) as [[y m] d]. simpl. specialize (H 0). rewrite Z.add_0_r in H. rewrite H.
  pose proof (unix_split off u). lia.
Qed.

(** The first of a month reads back as itself. *)
Lemma civil_of_first y m : 1 <= m <= 12 -> civil_of_days (days_of_civil y m 1) = (y, m, 1).
Proof.
  intros Hm. destruct (cycles_of_year (y - 1)) as (a & b & c & d & Hy & Hb & Hc & Hd).
  pose proof (days_before_month_range (is_leap y) m) as Hr.
  pose proof (days_before_month_inv (is_leap y) m Hm) as Hinv.
  unfold days_of_civil. rewrite Hy, cycles_before_year by done.
  set (t := days_before_month (is_leap y) m) in *.
  unfold civil_of_days. cbv zeta.
  replace (146097 * a + 36524 * b + 1461 * c + 365 * d + t + 1 - 1 - 719162 + 719162)
    with (146097 * a + (36524 * b + 1461 * c + 365 * d + t)) by lia.
  remember (36524 * b + 1461 * c + 365 * d + t) as R eqn:HR.
  assert ((146097 * a + R) / 146097 = a) as -> by (symmetry; apply Z.div_unique with (r := R); lia).
  assert ((146097 * a + R) mod 146097 = R) as -> by (symmetry; apply Z.mod_unique with (q := a); lia).
  assert (R / 36524 = b) as -> by (symmetry; apply Z.div_unique with (r := 1461 * c + 365 * d + t); lia).
  rewrite (Z.min_l b 3) by lia. replace (R - 36524 * b) with (1461 * c + (365 * d + t)) by lia.
  assert ((1461 * c + (365 * d + t)) / 1461 = c) as -> by (symmetry; apply Z.div_unique with (r := 365 * d + t); lia).
  assert ((1461 * c + (365 * d + t)) mod 1461 = 365 * d + t) as -> by (symmetry; apply Z.mod_unique with (q := c); lia).
  assert ((365 * d + t) / 365 = d) as -> by (symmetry; apply Z.div_unique with (r := t); lia).
  rewrite (Z.min_l d 3) by lia. replace (365 * d + t - 365 * d) with t by lia.
  replace (400 * a + 100 * b + 4 * c + d + 1) with y by lia.
  rewrite Hinv. f_equal. fold t. lia.
Qed.

Lemma Date_first_reads off y m :
  1 <= m <= 12 ->
  let u := Date off y m 1 in
  Year off u = y /\ Month off u = m /\ Day off u = 1 /\ sec_of_day off u = 0.
Proof.
  intros Hm u. assert (unix_days off u = days_of_civil y m 1 /\ sec_of_day off u = 0) as [H1 H2].
  { unfold u, unix_days, sec_of_day. rewrite Date_month by done.
    replace (days_of_civil y m 1 * 86400 - off + off) with (days_of_civil y m 1 * 86400) by lia.
    rewrite Z.div_mul, Z.mod_mul by lia. done. }
  unfold Year, Month, Day. rewrite H1, civil_of_first by done. done.
Qed.

(** The first of the next month is after every instant of this one. *)
Lemma first_of_next_month off u :
  u < AddDate off (Date off (Year off u) (Month off u) 1) 0 1 0.
Proof.
  pose proof (civil_of_days_spec (unix_days off u)) as H. pose proof (unix_split off u) as [Hu Hs].
  unfold Year at 1, Month at 1. destruct (civil_of_days _) as [[y m] d]. destruct H as (H1 & H2 & H4). simpl.
  destruct (Date_first_reads off y m) as (Ey & Em & Ed & Es); [done|].
  unfold AddDate. rewrite Ey, Em, Ed, Es. unfold Date. rewrite !Z.add_0_r.
  replace (m + 1 - 1) with m by lia. lia.
Qed.
