(* ===== verification/World.v ===== *)
(** * The shared world of the billing core

    Database rows (model/*.go structs, the columns the modelled code reads or
    writes), the Redis hashes and fences, the in-process batch stores, the
    asynchronous jobs handed to gopool, the clocks, and the fault script.

    Every database statement and every Redis command consumes one entry of the
    fault script: [true] makes that call fail with a driver error and no effect.
    A theorem that quantifies over the script therefore covers every error path;
    the empty script is the fault-free execution. *)

From stdpp Require Import base tactics numbers list gmap strings.
From Stdlib Require Import ZArith Lia.
From S2P Require Import Prelude Float64.
Open Scope Z_scope.

(** ** Errors *)

(** Sentinel errors by name, and [errors.New] by its text. *)
Inductive error :=
| ErrDB                      (* any failure reported by the database driver *)
| ErrRedis                   (* any failure reported by the Redis client *)
| ErrRecordNotFound          (* gorm.ErrRecordNotFound *)
| ErrWalletQuotaLimitExceeded
| ErrTopUpQuotaLimitExceeded
| ErrInvalidTopUpQuota
| ErrTopUpNotFound
| ErrTopUpStatusInvalid
| ErrPaymentMethodMismatch
| ErrRedeemFailed
| ErrInvalidUserQuotaAdjustment
| ErrUserQuotaPermission
| ErrUserAuthCachePending
| ErrUserAuthVersionConflict
| ErrTokenNotProvided
| ErrTokenInvalid
| ErrDatabase (e : error)    (* fmt.Errorf("%w: %v", ErrDatabase, err) *)
| ErrInsufficientWalletQuota
| ErrSubscriptionOrderNotFound
| ErrSubscriptionOrderStatusInvalid
| ErrQuotaClamp              (* a *common.QuotaClamp: the value would saturate *)
| ErrDiverges                (* not a Go error: the call does not return *)
| ErrMsg (s : string).       (* errors.New(s) *)

#[export] Instance error_eq_dec : EqDecision error.
Proof. solve_decision. Defined.

(** The text [err.Error()] of the errors the code inspects by text. *)
Definition Error_text (e : error) : string :=
  match e with
  | ErrMsg s => s
  | ErrInsufficientWalletQuota => "wallet quota insufficient"
  | ErrRecordNotFound => "record not found"
  | _ => ""
  end.

(** ** Rows *)

Record User := mkUser {
  u_Id : Z;
  u_Username : string;
  u_Role : Z;
  u_Status : Z;
  u_Email : string;
  u_Quota : Z;
  u_UsedQuota : Z;
  u_RequestCount : Z;
  u_Group : string;
  u_AffCount : Z;
  u_AffQuota : Z;
  u_AffHistoryQuota : Z;
  u_InviterId : Z;
  u_Deleted : bool;
  u_Setting : string;
  u_StripeCustomer : string;
  u_AuthVersion : Z
}.
Definition set_u_Email (f : string -> string) (r : User) : User :=
  mkUser r.(u_Id) r.(u_Username) r.(u_Role) r.(u_Status) (f r.(u_Email)) r.(u_Quota) r.(u_UsedQuota)
    r.(u_RequestCount) r.(u_Group) r.(u_AffCount) r.(u_AffQuota) r.(u_AffHistoryQuota)
    r.(u_InviterId) r.(u_Deleted) r.(u_Setting) r.(u_StripeCustomer) r.(u_AuthVersion).
Definition set_u_Quota (f : Z -> Z) (r : User) : User :=
  mkUser r.(u_Id) r.(u_Username) r.(u_Role) r.(u_Status) r.(u_Email) (f r.(u_Quota)) r.(u_UsedQuota)
    r.(u_RequestCount) r.(u_Group) r.(u_AffCount) r.(u_AffQuota) r.(u_AffHistoryQuota)
    r.(u_InviterId) r.(u_Deleted) r.(u_Setting) r.(u_StripeCustomer) r.(u_AuthVersion).
Definition set_u_UsedQuota (f : Z -> Z) (r : User) : User :=
  mkUser r.(u_Id) r.(u_Username) r.(u_Role) r.(u_Status) r.(u_Email) r.(u_Quota) (f r.(u_UsedQuota))
    r.(u_RequestCount) r.(u_Group) r.(u_AffCount) r.(u_AffQuota) r.(u_AffHistoryQuota)
    r.(u_InviterId) r.(u_Deleted) r.(u_Setting) r.(u_StripeCustomer) r.(u_AuthVersion).
Definition set_u_RequestCount (f : Z -> Z) (r : User) : User :=
  mkUser r.(u_Id) r.(u_Username) r.(u_Role) r.(u_Status) r.(u_Email) r.(u_Quota) r.(u_UsedQuota)
    (f r.(u_RequestCount)) r.(u_Group) r.(u_AffCount) r.(u_AffQuota) r.(u_AffHistoryQuota)
    r.(u_InviterId) r.(u_Deleted) r.(u_Setting) r.(u_StripeCustomer) r.(u_AuthVersion).
Definition set_u_Group (f : string -> string) (r : User) : User :=
  mkUser r.(u_Id) r.(u_Username) r.(u_Role) r.(u_Status) r.(u_Email) r.(u_Quota) r.(u_UsedQuota)
    r.(u_RequestCount) (f r.(u_Group)) r.(u_AffCount) r.(u_AffQuota) r.(u_AffHistoryQuota)
    r.(u_InviterId) r.(u_Deleted) r.(u_Setting) r.(u_StripeCustomer) r.(u_AuthVersion).
Definition set_u_AffCount (f : Z -> Z) (r : User) : User :=
  mkUser r.(u_Id) r.(u_Username) r.(u_Role) r.(u_Status) r.(u_Email) r.(u_Quota) r.(u_UsedQuota)
    r.(u_RequestCount) r.(u_Group) (f r.(u_AffCount)) r.(u_AffQuota) r.(u_AffHistoryQuota)
    r.(u_InviterId) r.(u_Deleted) r.(u_Setting) r.(u_StripeCustomer) r.(u_AuthVersion).
Definition set_u_AffQuota (f : Z -> Z) (r : User) : User :=
  mkUser r.(u_Id) r.(u_Username) r.(u_Role) r.(u_Status) r.(u_Email) r.(u_Quota) r.(u_UsedQuota)
    r.(u_RequestCount) r.(u_Group) r.(u_AffCount) (f r.(u_AffQuota)) r.(u_AffHistoryQuota)
    r.(u_InviterId) r.(u_Deleted) r.(u_Setting) r.(u_StripeCustomer) r.(u_AuthVersion).
Definition set_u_AffHistoryQuota (f : Z -> Z) (r : User) : User :=
  mkUser r.(u_Id) r.(u_Username) r.(u_Role) r.(u_Status) r.(u_Email) r.(u_Quota) r.(u_UsedQuota)
    r.(u_RequestCount) r.(u_Group) r.(u_AffCount) r.(u_AffQuota) (f r.(u_AffHistoryQuota))
    r.(u_InviterId) r.(u_Deleted) r.(u_Setting) r.(u_StripeCustomer) r.(u_AuthVersion).
Definition set_u_StripeCustomer (f : string -> string) (r : User) : User :=
  mkUser r.(u_Id) r.(u_Username) r.(u_Role) r.(u_Status) r.(u_Email) r.(u_Quota) r.(u_UsedQuota)
    r.(u_RequestCount) r.(u_Group) r.(u_AffCount) r.(u_AffQuota) r.(u_AffHistoryQuota)
    r.(u_InviterId) r.(u_Deleted) r.(u_Setting) (f r.(u_StripeCustomer)) r.(u_AuthVersion).
Definition set_u_AuthVersion (f : Z -> Z) (r : User) : User :=
  mkUser r.(u_Id) r.(u_Username) r.(u_Role) r.(u_Status) r.(u_Email) r.(u_Quota) r.(u_UsedQuota)
    r.(u_RequestCount) r.(u_Group) r.(u_AffCount) r.(u_AffQuota) r.(u_AffHistoryQuota)
    r.(u_InviterId) r.(u_Deleted) r.(u_Setting) r.(u_StripeCustomer) (f r.(u_AuthVersion)).

Record Token := mkToken {
  t_Id : Z;
  t_UserId : Z;
  t_Key : string;
  t_Status : Z;
  t_Name : string;
  t_CreatedTime : Z;
  t_AccessedTime : Z;
  t_ExpiredTime : Z;
  t_RemainQuota : Z;
  t_UnlimitedQuota : bool;
  t_ModelLimitsEnabled : bool;
  t_ModelLimits : string;
  t_AllowIps : option string;
  t_UsedQuota : Z;
  t_Group : string;
  t_CrossGroupRetry : bool;
  t_AutoGroups : string;
  t_Deleted : bool
}.
Definition set_t_Key (f : string -> string) (r : Token) : Token :=
  mkToken r.(t_Id) r.(t_UserId) (f r.(t_Key)) r.(t_Status) r.(t_Name) r.(t_CreatedTime)
    r.(t_AccessedTime) r.(t_ExpiredTime) r.(t_RemainQuota) r.(t_UnlimitedQuota)
    r.(t_ModelLimitsEnabled) r.(t_ModelLimits) r.(t_AllowIps) r.(t_UsedQuota) r.(t_Group)
    r.(t_CrossGroupRetry) r.(t_AutoGroups) r.(t_Deleted).
Definition set_t_Status (f : Z -> Z) (r : Token) : Token :=
  mkToken r.(t_Id) r.(t_UserId) r.(t_Key) (f r.(t_Status)) r.(t_Name) r.(t_CreatedTime)
    r.(t_AccessedTime) r.(t_ExpiredTime) r.(t_RemainQuota) r.(t_UnlimitedQuota)
    r.(t_ModelLimitsEnabled) r.(t_ModelLimits) r.(t_AllowIps) r.(t_UsedQuota) r.(t_Group)
    r.(t_CrossGroupRetry) r.(t_AutoGroups) r.(t_Deleted).
Definition set_t_AccessedTime (f : Z -> Z) (r : Token) : Token :=
  mkToken r.(t_Id) r.(t_UserId) r.(t_Key) r.(t_Status) r.(t_Name) r.(t_CreatedTime)
    (f r.(t_AccessedTime)) r.(t_ExpiredTime) r.(t_RemainQuota) r.(t_UnlimitedQuota)
    r.(t_ModelLimitsEnabled) r.(t_ModelLimits) r.(t_AllowIps) r.(t_UsedQuota) r.(t_Group)
    r.(t_CrossGroupRetry) r.(t_AutoGroups) r.(t_Deleted).
Definition set_t_RemainQuota (f : Z -> Z) (r : Token) : Token :=
  mkToken r.(t_Id) r.(t_UserId) r.(t_Key) r.(t_Status) r.(t_Name) r.(t_CreatedTime)
    r.(t_AccessedTime) r.(t_ExpiredTime) (f r.(t_RemainQuota)) r.(t_UnlimitedQuota)
    r.(t_ModelLimitsEnabled) r.(t_ModelLimits) r.(t_AllowIps) r.(t_UsedQuota) r.(t_Group)
    r.(t_CrossGroupRetry) r.(t_AutoGroups) r.(t_Deleted).
Definition set_t_UsedQuota (f : Z -> Z) (r : Token) : Token :=
  mkToken r.(t_Id) r.(t_UserId) r.(t_Key) r.(t_Status) r.(t_Name) r.(t_CreatedTime)
    r.(t_AccessedTime) r.(t_ExpiredTime) r.(t_RemainQuota) r.(t_UnlimitedQuota)
    r.(t_ModelLimitsEnabled) r.(t_ModelLimits) r.(t_AllowIps) (f r.(t_UsedQuota)) r.(t_Group)
    r.(t_CrossGroupRetry) r.(t_AutoGroups) r.(t_Deleted).

Record SubscriptionPlan := mkSubscriptionPlan {
  p_Id : Z;
  p_Title : string;
  p_PriceAmount : float64;
  p_DurationUnit : string;
  p_DurationValue : Z;
  p_CustomSeconds : Z;
  p_Enabled : bool;
  p_AllowBalancePay : option bool;
  p_AllowWalletOverflow : option bool;
  p_MaxPurchasePerUser : Z;
  p_UpgradeGroup : string;
  p_DowngradeGroup : string;
  p_TotalAmount : Z;
  p_QuotaResetPeriod : string;
  p_QuotaResetCustomSeconds : Z
}.
Definition set_p_AllowBalancePay (f : option bool -> option bool) (r : SubscriptionPlan) : SubscriptionPlan :=
  mkSubscriptionPlan r.(p_Id) r.(p_Title) r.(p_PriceAmount) r.(p_DurationUnit) r.(p_DurationValue)
    r.(p_CustomSeconds) r.(p_Enabled) (f r.(p_AllowBalancePay)) r.(p_AllowWalletOverflow)
    r.(p_MaxPurchasePerUser) r.(p_UpgradeGroup) r.(p_DowngradeGroup) r.(p_TotalAmount)
    r.(p_QuotaResetPeriod) r.(p_QuotaResetCustomSeconds).
Definition set_p_AllowWalletOverflow (f : option bool -> option bool) (r : SubscriptionPlan) : SubscriptionPlan :=
  mkSubscriptionPlan r.(p_Id) r.(p_Title) r.(p_PriceAmount) r.(p_DurationUnit) r.(p_DurationValue)
    r.(p_CustomSeconds) r.(p_Enabled) r.(p_AllowBalancePay) (f r.(p_AllowWalletOverflow))
    r.(p_MaxPurchasePerUser) r.(p_UpgradeGroup) r.(p_DowngradeGroup) r.(p_TotalAmount)
    r.(p_QuotaResetPeriod) r.(p_QuotaResetCustomSeconds).

Record UserSubscription := mkUserSubscription {
  s_Id : Z;
  s_UserId : Z;
  s_PlanId : Z;
  s_AmountTotal : Z;
  s_AmountUsed : Z;
  s_StartTime : Z;
  s_EndTime : Z;
  s_Status : string;
  s_Source : string;
  s_LastResetTime : Z;
  s_NextResetTime : Z;
  s_UpgradeGroup : string;
  s_PrevUserGroup : string;
  s_DowngradeGroup : string;
  s_AllowWalletOverflow : bool;
  s_UpdatedAt : Z
}.
Definition set_s_AmountUsed (f : Z -> Z) (r : UserSubscription) : UserSubscription :=
  mkUserSubscription r.(s_Id) r.(s_UserId) r.(s_PlanId) r.(s_AmountTotal) (f r.(s_AmountUsed))
    r.(s_StartTime) r.(s_EndTime) r.(s_Status) r.(s_Source) r.(s_LastResetTime) r.(s_NextResetTime)
    r.(s_UpgradeGroup) r.(s_PrevUserGroup) r.(s_DowngradeGroup) r.(s_AllowWalletOverflow)
    r.(s_UpdatedAt).
Definition set_s_EndTime (f : Z -> Z) (r : UserSubscription) : UserSubscription :=
  mkUserSubscription r.(s_Id) r.(s_UserId) r.(s_PlanId) r.(s_AmountTotal) r.(s_AmountUsed)
    r.(s_StartTime) (f r.(s_EndTime)) r.(s_Status) r.(s_Source) r.(s_LastResetTime)
    r.(s_NextResetTime) r.(s_UpgradeGroup) r.(s_PrevUserGroup) r.(s_DowngradeGroup)
    r.(s_AllowWalletOverflow) r.(s_UpdatedAt).
Definition set_s_Status (f : string -> string) (r : UserSubscription) : UserSubscription :=
  mkUserSubscription r.(s_Id) r.(s_UserId) r.(s_PlanId) r.(s_AmountTotal) r.(s_AmountUsed)
    r.(s_StartTime) r.(s_EndTime) (f r.(s_Status)) r.(s_Source) r.(s_LastResetTime)
    r.(s_NextResetTime) r.(s_UpgradeGroup) r.(s_PrevUserGroup) r.(s_DowngradeGroup)
    r.(s_AllowWalletOverflow) r.(s_UpdatedAt).
Definition set_s_LastResetTime (f : Z -> Z) (r : UserSubscription) : UserSubscription :=
  mkUserSubscription r.(s_Id) r.(s_UserId) r.(s_PlanId) r.(s_AmountTotal) r.(s_AmountUsed)
    r.(s_StartTime) r.(s_EndTime) r.(s_Status) r.(s_Source) (f r.(s_LastResetTime))
    r.(s_NextResetTime) r.(s_UpgradeGroup) r.(s_PrevUserGroup) r.(s_DowngradeGroup)
    r.(s_AllowWalletOverflow) r.(s_UpdatedAt).
Definition set_s_NextResetTime (f : Z -> Z) (r : UserSubscription) : UserSubscription :=
  mkUserSubscription r.(s_Id) r.(s_UserId) r.(s_PlanId) r.(s_AmountTotal) r.(s_AmountUsed)
    r.(s_StartTime) r.(s_EndTime) r.(s_Status) r.(s_Source) r.(s_LastResetTime)
    (f r.(s_NextResetTime)) r.(s_UpgradeGroup) r.(s_PrevUserGroup) r.(s_DowngradeGroup)
    r.(s_AllowWalletOverflow) r.(s_UpdatedAt).
Definition set_s_UpdatedAt (f : Z -> Z) (r : UserSubscription) : UserSubscription :=
  mkUserSubscription r.(s_Id) r.(s_UserId) r.(s_PlanId) r.(s_AmountTotal) r.(s_AmountUsed)
    r.(s_StartTime) r.(s_EndTime) r.(s_Status) r.(s_Source) r.(s_LastResetTime) r.(s_NextResetTime)
    r.(s_UpgradeGroup) r.(s_PrevUserGroup) r.(s_DowngradeGroup) r.(s_AllowWalletOverflow)
    (f r.(s_UpdatedAt)).

Record SubscriptionPreConsumeRecord := mkPreConsumeRecord {
  r_RequestId : string;
  r_UserId : Z;
  r_UserSubscriptionId : Z;
  r_PreConsumed : Z;
  r_Status : string;
  r_UpdatedAt : Z
}.
Definition set_r_Status (f : string -> string) (r : SubscriptionPreConsumeRecord) : SubscriptionPreConsumeRecord :=
  mkPreConsumeRecord r.(r_RequestId) r.(r_UserId) r.(r_UserSubscriptionId) r.(r_PreConsumed)
    (f r.(r_Status)) r.(r_UpdatedAt).
Definition set_r_UpdatedAt (f : Z -> Z) (r : SubscriptionPreConsumeRecord) : SubscriptionPreConsumeRecord :=
  mkPreConsumeRecord r.(r_RequestId) r.(r_UserId) r.(r_UserSubscriptionId) r.(r_PreConsumed)
    r.(r_Status) (f r.(r_UpdatedAt)).

Record SubscriptionOrder := mkSubscriptionOrder {
  o_UserId : Z;
  o_PlanId : Z;
  o_Money : float64;
  o_TradeNo : string;
  o_PaymentMethod : string;
  o_PaymentProvider : string;
  o_Status : string;
  o_CreateTime : Z;
  o_CompleteTime : Z;
  o_ProviderPayload : string
}.
Definition set_o_PaymentMethod (f : string -> string) (r : SubscriptionOrder) : SubscriptionOrder :=
  mkSubscriptionOrder r.(o_UserId) r.(o_PlanId) r.(o_Money) r.(o_TradeNo) (f r.(o_PaymentMethod))
    r.(o_PaymentProvider) r.(o_Status) r.(o_CreateTime) r.(o_CompleteTime) r.(o_ProviderPayload).
Definition set_o_Status (f : string -> string) (r : SubscriptionOrder) : SubscriptionOrder :=
  mkSubscriptionOrder r.(o_UserId) r.(o_PlanId) r.(o_Money) r.(o_TradeNo) r.(o_PaymentMethod)
    r.(o_PaymentProvider) (f r.(o_Status)) r.(o_CreateTime) r.(o_CompleteTime) r.(o_ProviderPayload).
Definition set_o_CompleteTime (f : Z -> Z) (r : SubscriptionOrder) : SubscriptionOrder :=
  mkSubscriptionOrder r.(o_UserId) r.(o_PlanId) r.(o_Money) r.(o_TradeNo) r.(o_PaymentMethod)
    r.(o_PaymentProvider) r.(o_Status) r.(o_CreateTime) (f r.(o_CompleteTime)) r.(o_ProviderPayload).
Definition set_o_ProviderPayload (f : string -> string) (r : SubscriptionOrder) : SubscriptionOrder :=
  mkSubscriptionOrder r.(o_UserId) r.(o_PlanId) r.(o_Money) r.(o_TradeNo) r.(o_PaymentMethod)
    r.(o_PaymentProvider) r.(o_Status) r.(o_CreateTime) r.(o_CompleteTime) (f r.(o_ProviderPayload)).

Record TopUp := mkTopUp {
  tu_UserId : Z;
  tu_Amount : Z;
  tu_Money : float64;
  tu_TradeNo : string;
  tu_PaymentMethod : string;
  tu_PaymentProvider : string;
  tu_CreateTime : Z;
  tu_CompleteTime : Z;
  tu_Status : string
}.
Definition set_tu_Money (f : float64 -> float64) (r : TopUp) : TopUp :=
  mkTopUp r.(tu_UserId) r.(tu_Amount) (f r.(tu_Money)) r.(tu_TradeNo) r.(tu_PaymentMethod)
    r.(tu_PaymentProvider) r.(tu_CreateTime) r.(tu_CompleteTime) r.(tu_Status).
Definition set_tu_PaymentMethod (f : string -> string) (r : TopUp) : TopUp :=
  mkTopUp r.(tu_UserId) r.(tu_Amount) r.(tu_Money) r.(tu_TradeNo) (f r.(tu_PaymentMethod))
    r.(tu_PaymentProvider) r.(tu_CreateTime) r.(tu_CompleteTime) r.(tu_Status).
Definition set_tu_CreateTime (f : Z -> Z) (r : TopUp) : TopUp :=
  mkTopUp r.(tu_UserId) r.(tu_Amount) r.(tu_Money) r.(tu_TradeNo) r.(tu_PaymentMethod)
    r.(tu_PaymentProvider) (f r.(tu_CreateTime)) r.(tu_CompleteTime) r.(tu_Status).
Definition set_tu_CompleteTime (f : Z -> Z) (r : TopUp) : TopUp :=
  mkTopUp r.(tu_UserId) r.(tu_Amount) r.(tu_Money) r.(tu_TradeNo) r.(tu_PaymentMethod)
    r.(tu_PaymentProvider) r.(tu_CreateTime) (f r.(tu_CompleteTime)) r.(tu_Status).
Definition set_tu_Status (f : string -> string) (r : TopUp) : TopUp :=
  mkTopUp r.(tu_UserId) r.(tu_Amount) r.(tu_Money) r.(tu_TradeNo) r.(tu_PaymentMethod)
    r.(tu_PaymentProvider) r.(tu_CreateTime) r.(tu_CompleteTime) (f r.(tu_Status)).

Record Redemption := mkRedemption {
  rd_Id : Z;
  rd_UserId : Z;
  rd_Key : string;
  rd_Status : Z;
  rd_Name : string;
  rd_Quota : Z;
  rd_CreatedTime : Z;
  rd_RedeemedTime : Z;
  rd_UsedUserId : Z;
  rd_Deleted : bool;
  rd_ExpiredTime : Z
}.
Definition set_rd_Status (f : Z -> Z) (r : Redemption) : Redemption :=
  mkRedemption r.(rd_Id) r.(rd_UserId) r.(rd_Key) (f r.(rd_Status)) r.(rd_Name) r.(rd_Quota)
    r.(rd_CreatedTime) r.(rd_RedeemedTime) r.(rd_UsedUserId) r.(rd_Deleted) r.(rd_ExpiredTime).
Definition set_rd_Name (f : string -> string) (r : Redemption) : Redemption :=
  mkRedemption r.(rd_Id) r.(rd_UserId) r.(rd_Key) r.(rd_Status) (f r.(rd_Name)) r.(rd_Quota)
    r.(rd_CreatedTime) r.(rd_RedeemedTime) r.(rd_UsedUserId) r.(rd_Deleted) r.(rd_ExpiredTime).
Definition set_rd_Quota (f : Z -> Z) (r : Redemption) : Redemption :=
  mkRedemption r.(rd_Id) r.(rd_UserId) r.(rd_Key) r.(rd_Status) r.(rd_Name) (f r.(rd_Quota))
    r.(rd_CreatedTime) r.(rd_RedeemedTime) r.(rd_UsedUserId) r.(rd_Deleted) r.(rd_ExpiredTime).
Definition set_rd_RedeemedTime (f : Z -> Z) (r : Redemption) : Redemption :=
  mkRedemption r.(rd_Id) r.(rd_UserId) r.(rd_Key) r.(rd_Status) r.(rd_Name) r.(rd_Quota)
    r.(rd_CreatedTime) (f r.(rd_RedeemedTime)) r.(rd_UsedUserId) r.(rd_Deleted) r.(rd_ExpiredTime).
Definition set_rd_UsedUserId (f : Z -> Z) (r : Redemption) : Redemption :=
  mkRedemption r.(rd_Id) r.(rd_UserId) r.(rd_Key) r.(rd_Status) r.(rd_Name) r.(rd_Quota)
    r.(rd_CreatedTime) r.(rd_RedeemedTime) (f r.(rd_UsedUserId)) r.(rd_Deleted) r.(rd_ExpiredTime).
Definition set_rd_Deleted (f : bool -> bool) (r : Redemption) : Redemption :=
  mkRedemption r.(rd_Id) r.(rd_UserId) r.(rd_Key) r.(rd_Status) r.(rd_Name) r.(rd_Quota)
    r.(rd_CreatedTime) r.(rd_RedeemedTime) r.(rd_UsedUserId) (f r.(rd_Deleted)) r.(rd_ExpiredTime).
Definition set_rd_ExpiredTime (f : Z -> Z) (r : Redemption) : Redemption :=
  mkRedemption r.(rd_Id) r.(rd_UserId) r.(rd_Key) r.(rd_Status) r.(rd_Name) r.(rd_Quota)
    r.(rd_CreatedTime) r.(rd_RedeemedTime) r.(rd_UsedUserId) r.(rd_Deleted) (f r.(rd_ExpiredTime)).

Record Checkin := mkCheckin {
  ck_UserId : Z;
  ck_CheckinDate : string;
  ck_QuotaAwarded : Z;
  ck_CreatedAt : Z
}.

(** Asynchronous tasks (model/task.go, pkg/billingexpr/types.go). *)
Record BillingSnapshot := mkSnapshot {
  sn_ExprString : string;
  sn_ExprHash : string;
  sn_GroupRatio : float64;
  sn_EstimatedTier : string;
  sn_QuotaPerUnit : float64;
  sn_ExprVersion : Z;
  sn_TaskUsageBilling : bool;
  sn_UsageFacts : gmap string string
}.

(** [OtherRatios] is a Go map: the list is its content in the order of iteration. *)
Record TaskBillingContext := mkBillingContext {
  bc_OtherRatios : list (string * float64);
  bc_OriginModelName : string;
  bc_PerCallBilling : bool;
  bc_TieredSnapshot : option BillingSnapshot
}.
Definition set_bc_TieredSnapshot (f : option BillingSnapshot -> option BillingSnapshot) (r : TaskBillingContext) : TaskBillingContext :=
  mkBillingContext r.(bc_OtherRatios) r.(bc_OriginModelName) r.(bc_PerCallBilling)
    (f r.(bc_TieredSnapshot)).

Record TaskPrivateData := mkPrivateData {
  tp_Key : string;
  tp_UpstreamTaskID : string;
  tp_ResultURL : string;
  tp_BillingSource : string;
  tp_SubscriptionId : Z;
  tp_TokenId : Z;
  tp_NodeName : string;
  tp_BillingContext : option TaskBillingContext;
  tp_PluginState : string;
  tp_PollFailures : Z
}.
Definition set_tp_ResultURL (f : string -> string) (r : TaskPrivateData) : TaskPrivateData :=
  mkPrivateData r.(tp_Key) r.(tp_UpstreamTaskID) (f r.(tp_ResultURL)) r.(tp_BillingSource)
    r.(tp_SubscriptionId) r.(tp_TokenId) r.(tp_NodeName) r.(tp_BillingContext) r.(tp_PluginState)
    r.(tp_PollFailures).
Definition set_tp_BillingContext (f : option TaskBillingContext -> option TaskBillingContext) (r : TaskPrivateData) : TaskPrivateData :=
  mkPrivateData r.(tp_Key) r.(tp_UpstreamTaskID) r.(tp_ResultURL) r.(tp_BillingSource)
    r.(tp_SubscriptionId) r.(tp_TokenId) r.(tp_NodeName) (f r.(tp_BillingContext))
    r.(tp_PluginState) r.(tp_PollFailures).
Definition set_tp_PluginState (f : string -> string) (r : TaskPrivateData) : TaskPrivateData :=
  mkPrivateData r.(tp_Key) r.(tp_UpstreamTaskID) r.(tp_ResultURL) r.(tp_BillingSource)
    r.(tp_SubscriptionId) r.(tp_TokenId) r.(tp_NodeName) r.(tp_BillingContext)
    (f r.(tp_PluginState)) r.(tp_PollFailures).
Definition set_tp_PollFailures (f : Z -> Z) (r : TaskPrivateData) : TaskPrivateData :=
  mkPrivateData r.(tp_Key) r.(tp_UpstreamTaskID) r.(tp_ResultURL) r.(tp_BillingSource)
    r.(tp_SubscriptionId) r.(tp_TokenId) r.(tp_NodeName) r.(tp_BillingContext) r.(tp_PluginState)
    (f r.(tp_PollFailures)).

Record Task := mkTask {
  tk_ID : Z;
  tk_CreatedAt : Z;
  tk_UpdatedAt : Z;
  tk_TaskID : string;
  tk_Platform : string;
  tk_UserId : Z;
  tk_Group : string;
  tk_ChannelId : Z;
  tk_Quota : Z;
  tk_Action : string;
  tk_Status : string;
  tk_FailReason : string;
  tk_SubmitTime : Z;
  tk_StartTime : Z;
  tk_FinishTime : Z;
  tk_Progress : string;
  tk_OriginModelName : string;
  tk_PrivateData : TaskPrivateData;
  tk_Data : string
}.
Definition set_tk_UpdatedAt (f : Z -> Z) (r : Task) : Task :=
  mkTask r.(tk_ID) r.(tk_CreatedAt) (f r.(tk_UpdatedAt)) r.(tk_TaskID) r.(tk_Platform) r.(tk_UserId)
    r.(tk_Group) r.(tk_ChannelId) r.(tk_Quota) r.(tk_Action) r.(tk_Status) r.(tk_FailReason)
    r.(tk_SubmitTime) r.(tk_StartTime) r.(tk_FinishTime) r.(tk_Progress) r.(tk_OriginModelName)
    r.(tk_PrivateData) r.(tk_Data).
Definition set_tk_Quota (f : Z -> Z) (r : Task) : Task :=
  mkTask r.(tk_ID) r.(tk_CreatedAt) r.(tk_UpdatedAt) r.(tk_TaskID) r.(tk_Platform) r.(tk_UserId)
    r.(tk_Group) r.(tk_ChannelId) (f r.(tk_Quota)) r.(tk_Action) r.(tk_Status) r.(tk_FailReason)
    r.(tk_SubmitTime) r.(tk_StartTime) r.(tk_FinishTime) r.(tk_Progress) r.(tk_OriginModelName)
    r.(tk_PrivateData) r.(tk_Data).
Definition set_tk_Status (f : string -> string) (r : Task) : Task :=
  mkTask r.(tk_ID) r.(tk_CreatedAt) r.(tk_UpdatedAt) r.(tk_TaskID) r.(tk_Platform) r.(tk_UserId)
    r.(tk_Group) r.(tk_ChannelId) r.(tk_Quota) r.(tk_Action) (f r.(tk_Status)) r.(tk_FailReason)
    r.(tk_SubmitTime) r.(tk_StartTime) r.(tk_FinishTime) r.(tk_Progress) r.(tk_OriginModelName)
    r.(tk_PrivateData) r.(tk_Data).
Definition set_tk_FailReason (f : string -> string) (r : Task) : Task :=
  mkTask r.(tk_ID) r.(tk_CreatedAt) r.(tk_UpdatedAt) r.(tk_TaskID) r.(tk_Platform) r.(tk_UserId)
    r.(tk_Group) r.(tk_ChannelId) r.(tk_Quota) r.(tk_Action) r.(tk_Status) (f r.(tk_FailReason))
    r.(tk_SubmitTime) r.(tk_StartTime) r.(tk_FinishTime) r.(tk_Progress) r.(tk_OriginModelName)
    r.(tk_PrivateData) r.(tk_Data).
Definition set_tk_SubmitTime (f : Z -> Z) (r : Task) : Task :=
  mkTask r.(tk_ID) r.(tk_CreatedAt) r.(tk_UpdatedAt) r.(tk_TaskID) r.(tk_Platform) r.(tk_UserId)
    r.(tk_Group) r.(tk_ChannelId) r.(tk_Quota) r.(tk_Action) r.(tk_Status) r.(tk_FailReason)
    (f r.(tk_SubmitTime)) r.(tk_StartTime) r.(tk_FinishTime) r.(tk_Progress) r.(tk_OriginModelName)
    r.(tk_PrivateData) r.(tk_Data).
Definition set_tk_StartTime (f : Z -> Z) (r : Task) : Task :=
  mkTask r.(tk_ID) r.(tk_CreatedAt) r.(tk_UpdatedAt) r.(tk_TaskID) r.(tk_Platform) r.(tk_UserId)
    r.(tk_Group) r.(tk_ChannelId) r.(tk_Quota) r.(tk_Action) r.(tk_Status) r.(tk_FailReason)
    r.(tk_SubmitTime) (f r.(tk_StartTime)) r.(tk_FinishTime) r.(tk_Progress) r.(tk_OriginModelName)
    r.(tk_PrivateData) r.(tk_Data).
Definition set_tk_FinishTime (f : Z -> Z) (r : Task) : Task :=
  mkTask r.(tk_ID) r.(tk_CreatedAt) r.(tk_UpdatedAt) r.(tk_TaskID) r.(tk_Platform) r.(tk_UserId)
    r.(tk_Group) r.(tk_ChannelId) r.(tk_Quota) r.(tk_Action) r.(tk_Status) r.(tk_FailReason)
    r.(tk_SubmitTime) r.(tk_StartTime) (f r.(tk_FinishTime)) r.(tk_Progress) r.(tk_OriginModelName)
    r.(tk_PrivateData) r.(tk_Data).
Definition set_tk_Progress (f : string -> string) (r : Task) : Task :=
  mkTask r.(tk_ID) r.(tk_CreatedAt) r.(tk_UpdatedAt) r.(tk_TaskID) r.(tk_Platform) r.(tk_UserId)
    r.(tk_Group) r.(tk_ChannelId) r.(tk_Quota) r.(tk_Action) r.(tk_Status) r.(tk_FailReason)
    r.(tk_SubmitTime) r.(tk_StartTime) r.(tk_FinishTime) (f r.(tk_Progress)) r.(tk_OriginModelName)
    r.(tk_PrivateData) r.(tk_Data).
Definition set_tk_PrivateData (f : TaskPrivateData -> TaskPrivateData) (r : Task) : Task :=
  mkTask r.(tk_ID) r.(tk_CreatedAt) r.(tk_UpdatedAt) r.(tk_TaskID) r.(tk_Platform) r.(tk_UserId)
    r.(tk_Group) r.(tk_ChannelId) r.(tk_Quota) r.(tk_Action) r.(tk_Status) r.(tk_FailReason)
    r.(tk_SubmitTime) r.(tk_StartTime) r.(tk_FinishTime) r.(tk_Progress) r.(tk_OriginModelName)
    (f r.(tk_PrivateData)) r.(tk_Data).
Definition set_tk_Data (f : string -> string) (r : Task) : Task :=
  mkTask r.(tk_ID) r.(tk_CreatedAt) r.(tk_UpdatedAt) r.(tk_TaskID) r.(tk_Platform) r.(tk_UserId)
    r.(tk_Group) r.(tk_ChannelId) r.(tk_Quota) r.(tk_Action) r.(tk_Status) r.(tk_FailReason)
    r.(tk_SubmitTime) r.(tk_StartTime) r.(tk_FinishTime) r.(tk_Progress) r.(tk_OriginModelName)
    r.(tk_PrivateData) (f r.(tk_Data)).

(** The database: one map per table, keyed by the primary key or by the unique
    column the code looks rows up with. *)
Record DB := mkDB {
  users : gmap Z User;
  tokens : gmap Z Token;
  plans : gmap Z SubscriptionPlan;
  subs : gmap Z UserSubscription;
  pre_records : gmap string SubscriptionPreConsumeRecord;
  orders : gmap string SubscriptionOrder;
  topups : gmap string TopUp;
  redemptions : gmap string Redemption;
  checkins : gmap (Z * string) Checkin;
  tasks : gmap Z Task;
  channel_used : gmap Z Z;
  next_sub_id : Z
}.
Definition set_users (f : gmap Z User -> gmap Z User) (r : DB) : DB :=
  mkDB (f r.(users)) r.(tokens) r.(plans) r.(subs) r.(pre_records) r.(orders) r.(topups)
    r.(redemptions) r.(checkins) r.(tasks) r.(channel_used) r.(next_sub_id).
Definition set_tokens (f : gmap Z Token -> gmap Z Token) (r : DB) : DB :=
  mkDB r.(users) (f r.(tokens)) r.(plans) r.(subs) r.(pre_records) r.(orders) r.(topups)
    r.(redemptions) r.(checkins) r.(tasks) r.(channel_used) r.(next_sub_id).
Definition set_plans (f : gmap Z SubscriptionPlan -> gmap Z SubscriptionPlan) (r : DB) : DB :=
  mkDB r.(users) r.(tokens) (f r.(plans)) r.(subs) r.(pre_records) r.(orders) r.(topups)
    r.(redemptions) r.(checkins) r.(tasks) r.(channel_used) r.(next_sub_id).
Definition set_subs (f : gmap Z UserSubscription -> gmap Z UserSubscription) (r : DB) : DB :=
  mkDB r.(users) r.(tokens) r.(plans) (f r.(subs)) r.(pre_records) r.(orders) r.(topups)
    r.(redemptions) r.(checkins) r.(tasks) r.(channel_used) r.(next_sub_id).
Definition set_pre_records (f : gmap string SubscriptionPreConsumeRecord -> gmap string SubscriptionPreConsumeRecord) (r : DB) : DB :=
  mkDB r.(users) r.(tokens) r.(plans) r.(subs) (f r.(pre_records)) r.(orders) r.(topups)
    r.(redemptions) r.(checkins) r.(tasks) r.(channel_used) r.(next_sub_id).
Definition set_orders (f : gmap string SubscriptionOrder -> gmap string SubscriptionOrder) (r : DB) : DB :=
  mkDB r.(users) r.(tokens) r.(plans) r.(subs) r.(pre_records) (f r.(orders)) r.(topups)
    r.(redemptions) r.(checkins) r.(tasks) r.(channel_used) r.(next_sub_id).
Definition set_topups (f : gmap string TopUp -> gmap string TopUp) (r : DB) : DB :=
  mkDB r.(users) r.(tokens) r.(plans) r.(subs) r.(pre_records) r.(orders) (f r.(topups))
    r.(redemptions) r.(checkins) r.(tasks) r.(channel_used) r.(next_sub_id).
Definition set_redemptions (f : gmap string Redemption -> gmap string Redemption) (r : DB) : DB :=
  mkDB r.(users) r.(tokens) r.(plans) r.(subs) r.(pre_records) r.(orders) r.(topups)
    (f r.(redemptions)) r.(checkins) r.(tasks) r.(channel_used) r.(next_sub_id).
Definition set_checkins (f : gmap (Z * string) Checkin -> gmap (Z * string) Checkin) (r : DB) : DB :=
  mkDB r.(users) r.(tokens) r.(plans) r.(subs) r.(pre_records) r.(orders) r.(topups) r.(redemptions)
    (f r.(checkins)) r.(tasks) r.(channel_used) r.(next_sub_id).
Definition set_tasks (f : gmap Z Task -> gmap Z Task) (r : DB) : DB :=
  mkDB r.(users) r.(tokens) r.(plans) r.(subs) r.(pre_records) r.(orders) r.(topups) r.(redemptions)
    r.(checkins) (f r.(tasks)) r.(channel_used) r.(next_sub_id).
Definition set_channel_used (f : gmap Z Z -> gmap Z Z) (r : DB) : DB :=
  mkDB r.(users) r.(tokens) r.(plans) r.(subs) r.(pre_records) r.(orders) r.(topups) r.(redemptions)
    r.(checkins) r.(tasks) (f r.(channel_used)) r.(next_sub_id).
Definition set_next_sub_id (f : Z -> Z) (r : DB) : DB :=
  mkDB r.(users) r.(tokens) r.(plans) r.(subs) r.(pre_records) r.(orders) r.(topups) r.(redemptions)
    r.(checkins) r.(tasks) r.(channel_used) (f r.(next_sub_id)).

(** The Redis user hash. All fields but [Quota] are written together. *)
Record UserHash := mkUserHash {
  h_Id : Z;
  h_Group : string;
  h_Email : string;
  h_Status : Z;
  h_Role : Z;
  h_Username : string;
  h_Setting : string;
  h_AuthVersion : Z;
  h_CacheSchema : Z;
  h_Quota : option Z
}.
Definition set_h_Group (f : string -> string) (r : UserHash) : UserHash :=
  mkUserHash r.(h_Id) (f r.(h_Group)) r.(h_Email) r.(h_Status) r.(h_Role) r.(h_Username)
    r.(h_Setting) r.(h_AuthVersion) r.(h_CacheSchema) r.(h_Quota).
Definition set_h_CacheSchema (f : Z -> Z) (r : UserHash) : UserHash :=
  mkUserHash r.(h_Id) r.(h_Group) r.(h_Email) r.(h_Status) r.(h_Role) r.(h_Username) r.(h_Setting)
    r.(h_AuthVersion) (f r.(h_CacheSchema)) r.(h_Quota).
Definition set_h_Quota (f : option Z -> option Z) (r : UserHash) : UserHash :=
  mkUserHash r.(h_Id) r.(h_Group) r.(h_Email) r.(h_Status) r.(h_Role) r.(h_Username) r.(h_Setting)
    r.(h_AuthVersion) r.(h_CacheSchema) (f r.(h_Quota)).

(** The Redis token hash: the cached row, with the two quota fields optional
    because a hash written by an older release may lack them. *)
Record TokenHash := mkTokenHash {
  th_Token : Token;
  th_RemainQuota : option Z;
  th_UsedQuota : option Z
}.
Definition set_th_Token (f : Token -> Token) (r : TokenHash) : TokenHash :=
  mkTokenHash (f r.(th_Token)) r.(th_RemainQuota) r.(th_UsedQuota).
Definition set_th_RemainQuota (f : option Z -> option Z) (r : TokenHash) : TokenHash :=
  mkTokenHash r.(th_Token) (f r.(th_RemainQuota)) r.(th_UsedQuota).
Definition set_th_UsedQuota (f : option Z -> option Z) (r : TokenHash) : TokenHash :=
  mkTokenHash r.(th_Token) r.(th_RemainQuota) (f r.(th_UsedQuota)).

Record Redis := mkRedis {
  user_hash : gmap Z UserHash;
  auth_fence : gmap Z Z;
  auth_version : gmap Z Z;
  token_hash : gmap string TokenHash;
  token_fence : gmap string unit;
  plan_cache : gmap Z SubscriptionPlan;
  plan_info_cache : gmap Z (Z * string)
}.
Definition set_user_hash (f : gmap Z UserHash -> gmap Z UserHash) (r : Redis) : Redis :=
  mkRedis (f r.(user_hash)) r.(auth_fence) r.(auth_version) r.(token_hash) r.(token_fence)
    r.(plan_cache) r.(plan_info_cache).
Definition set_auth_fence (f : gmap Z Z -> gmap Z Z) (r : Redis) : Redis :=
  mkRedis r.(user_hash) (f r.(auth_fence)) r.(auth_version) r.(token_hash) r.(token_fence)
    r.(plan_cache) r.(plan_info_cache).
Definition set_auth_version (f : gmap Z Z -> gmap Z Z) (r : Redis) : Redis :=
  mkRedis r.(user_hash) r.(auth_fence) (f r.(auth_version)) r.(token_hash) r.(token_fence)
    r.(plan_cache) r.(plan_info_cache).
Definition set_token_hash (f : gmap string TokenHash -> gmap string TokenHash) (r : Redis) : Redis :=
  mkRedis r.(user_hash) r.(auth_fence) r.(auth_version) (f r.(token_hash)) r.(token_fence)
    r.(plan_cache) r.(plan_info_cache).
Definition set_token_fence (f : gmap string unit -> gmap string unit) (r : Redis) : Redis :=
  mkRedis r.(user_hash) r.(auth_fence) r.(auth_version) r.(token_hash) (f r.(token_fence))
    r.(plan_cache) r.(plan_info_cache).
Definition set_plan_cache (f : gmap Z SubscriptionPlan -> gmap Z SubscriptionPlan) (r : Redis) : Redis :=
  mkRedis r.(user_hash) r.(auth_fence) r.(auth_version) r.(token_hash) r.(token_fence)
    (f r.(plan_cache)) r.(plan_info_cache).
Definition set_plan_info_cache (f : gmap Z (Z * string) -> gmap Z (Z * string)) (r : Redis) : Redis :=
  mkRedis r.(user_hash) r.(auth_fence) r.(auth_version) r.(token_hash) r.(token_fence)
    r.(plan_cache) (f r.(plan_info_cache)).

Record Config := mkConfig {
  RedisEnabled : bool;
  BatchUpdateEnabled : bool;
  QuotaPerUnit : float64;
  tz_offset : Z;                    (* the server's location, seconds east of UTC *)
  GenerateHMAC : string -> string   (* common.GenerateHMAC, keyed by the deployment secret *)
}.

(** Batch update types (model/utils.go). *)
Inductive BatchUpdateType :=
| BatchUpdateTypeUserQuota
| BatchUpdateTypeTokenQuota
| BatchUpdateTypeUsedQuota
| BatchUpdateTypeChannelUsedQuota
| BatchUpdateTypeRequestCount.

Record BatchStores := mkBatch {
  bs_UserQuota : gmap Z Z;
  bs_TokenQuota : gmap Z Z;
  bs_UsedQuota : gmap Z Z;
  bs_ChannelUsedQuota : gmap Z Z;
  bs_RequestCount : gmap Z Z
}.

(** What a deferred refund gives back to the funding source. *)
Inductive FundingRefund :=
| RefundWallet (userId consumed : Z)
| RefundSubscription (requestId : string) (preConsumed : Z).

(** Closures handed to [gopool.Go]. *)
Inductive Job :=
| JobCacheUserQuota (userId delta : Z)
| JobCacheTokenQuota (tokenId : Z) (key : string) (delta : Z)
| JobRefund (funding : FundingRefund) (extraReserved subscriptionId tokenId : Z) (tokenKey : string)
    (tokenConsumed : Z) (isPlayground : bool).

Definition LogTypeTopup : Z := 1.
Definition LogTypeConsume : Z := 2.
Definition LogTypeRefund : Z := 6.

Record LogEntry := mkLog { lg_UserId : Z; lg_Type : Z; lg_Quota : Z }.

Record World := mkWorld {
  w_cfg : Config;
  w_db : DB;
  w_redis : Redis;
  w_batch : BatchStores;
  w_jobs : list Job;
  w_logs : list LogEntry;
  w_clock : Z;
  w_dbclock : Z;
  w_faults : list bool
}.
Definition set_w_db (f : DB -> DB) (r : World) : World :=
  mkWorld r.(w_cfg) (f r.(w_db)) r.(w_redis) r.(w_batch) r.(w_jobs) r.(w_logs) r.(w_clock)
    r.(w_dbclock) r.(w_faults).
Definition set_w_redis (f : Redis -> Redis) (r : World) : World :=
  mkWorld r.(w_cfg) r.(w_db) (f r.(w_redis)) r.(w_batch) r.(w_jobs) r.(w_logs) r.(w_clock)
    r.(w_dbclock) r.(w_faults).
Definition set_w_batch (f : BatchStores -> BatchStores) (r : World) : World :=
  mkWorld r.(w_cfg) r.(w_db) r.(w_redis) (f r.(w_batch)) r.(w_jobs) r.(w_logs) r.(w_clock)
    r.(w_dbclock) r.(w_faults).
Definition set_w_jobs (f : list Job -> list Job) (r : World) : World :=
  mkWorld r.(w_cfg) r.(w_db) r.(w_redis) r.(w_batch) (f r.(w_jobs)) r.(w_logs) r.(w_clock)
    r.(w_dbclock) r.(w_faults).
Definition set_w_logs (f : list LogEntry -> list LogEntry) (r : World) : World :=
  mkWorld r.(w_cfg) r.(w_db) r.(w_redis) r.(w_batch) r.(w_jobs) (f r.(w_logs)) r.(w_clock)
    r.(w_dbclock) r.(w_faults).
Definition set_w_faults (f : list bool -> list bool) (r : World) : World :=
  mkWorld r.(w_cfg) r.(w_db) r.(w_redis) r.(w_batch) r.(w_jobs) r.(w_logs) r.(w_clock) r.(w_dbclock)
    (f r.(w_faults)).

Abbreviation MW := (M World error).

(** ** Primitive effects *)

(** Consumes one entry of the fault script. *)
Definition fault_point (e : error) : MW unit := fun w =>
  match w.(w_faults) with
  | [] => (Ok tt, w)
  | b :: fs => (if b then Err e else Ok tt, set_w_faults (fun _ => fs) w)
  end.
Definition stmt : MW unit := fault_point ErrDB.
Definition redis_cmd : MW unit := fault_point ErrRedis.

Definition modify_db (f : DB -> DB) : MW unit := modify (set_w_db f).
Definition modify_redis (f : Redis -> Redis) : MW unit := modify (set_w_redis f).
Definition cfg {A} (f : Config -> A) : MW A := gets (fun w => f w.(w_cfg)).

(** [gopool.Go(job)]: the job is queued; it runs at some later time. *)
Definition go (j : Job) : MW unit := modify (set_w_jobs (fun js => js ++ [j])).

Definition RecordLog (userId type_ quota : Z) : MW unit :=
  modify (set_w_logs (fun l => l ++ [mkLog userId type_ quota])).

Definition GetTimestamp : MW Z := gets w_clock.

(** [DB.Transaction(fn)]: begin and commit are statements of their own; any
    error rolls every table back to the state before the transaction. *)
Definition Transaction {A} (body : MW A) : MW A := fun w =>
  match stmt w with
  | (Err e, w1) => (Err e, w1)
  | (Ok _, w1) =>
      let rollback w := set_w_db (fun _ => w1.(w_db)) w in
      match body w1 with
      | (Err e, w2) => (Err e, rollback w2)
      | (Ok a, w2) =>
          match stmt w2 with
          | (Err e, w3) => (Err e, rollback w3)
          | (Ok _, w3) => (Ok a, w3)
          end
      end
  end.

(** The visible row of a user: soft-deleted rows are filtered by gorm. *)
Definition visible_user (d : DB) (id : Z) : option User :=
  match d.(users) !! id with
  | Some u => if u.(u_Deleted) then None else Some u
  | None => None
  end.
Definition visible_token (d : DB) (id : Z) : option Token :=
  match d.(tokens) !! id with
  | Some t => if t.(t_Deleted) then None else Some t
  | None => None
  end.

(** [First(&user, id)] *)
Definition first_user (id : Z) : MW User :=
  stmt ;;
  let! d := gets w_db in
  match visible_user d id with
  | Some u => ret u
  | None => throw ErrRecordNotFound
  end.

(** [UPDATE users SET ... WHERE id = ? AND p]: the number of rows changed. *)
Definition update_user (id : Z) (p : User -> bool) (f : User -> User) : MW Z :=
  stmt ;;
  let! d := gets w_db in
  match visible_user d id with
  | Some u => if p u then modify_db (set_users (insert id (f u))) ;; ret 1 else ret 0
  | None => ret 0
  end.
Definition update_token (id : Z) (p : Token -> bool) (f : Token -> Token) : MW Z :=
  stmt ;;
  let! d := gets w_db in
  match visible_token d id with
  | Some t => if p t then modify_db (set_tokens (insert id (f t))) ;; ret 1 else ret 0
  | None => ret 0
  end.
Definition count_user (id : Z) : MW Z :=
  stmt ;;
  gets (fun w => match visible_user w.(w_db) id with Some _ => 1 | None => 0 end).

(** ** Lemmas on the primitives *)

(** Monadic inversion for a computation known to succeed. *)
Lemma bind_Ok {A B} (c : MW A) (f : A -> MW B) w b w2 :
  bind c f w = (Ok b, w2) -> exists a w1, c w = (Ok a, w1) /\ f a w1 = (Ok b, w2).
Proof. intros H. apply bind_inv in H as [H|(e & _ & He)]; [done|congruence]. Qed.

Lemma catch_inv {A} (c : MW A) w x w' :
  catch c w = (x, w') -> exists r, x = Ok r /\ c w = (r, w').
Proof. unfold catch. destruct (c w) as [r w1]. intros. simplify_eq. eauto. Qed.

(** Decomposes an equation between outcomes, and only that one. *)
Ltac inv_eq H := first [discriminate H | injection H; clear H; intros; subst | subst].

(** Splits the run of a straight-line computation into its calls, normal and
    error outcomes both. *)
Ltac monad_cases :=
  repeat match goal with
  | H : bind _ _ _ = (_, _) |- _ =>
      let a := fresh "a" in let w := fresh "w" in let Hc := fresh "Hc" in let e := fresh "e" in
      apply bind_inv in H as [(a & w & Hc & H)|(e & H & Hc)]; [|inv_eq Hc]
  | H : catch _ _ = (_, _) |- _ =>
      let r := fresh "r" in let E := fresh "Er" in apply catch_inv in H as (r & E & H); inv_eq E
  | H : ret _ _ = (_, _) |- _ => unfold ret in H; inv_eq H
  | H : throw _ _ = (_, _) |- _ => unfold throw in H; inv_eq H
  | H : gets _ _ = (_, _) |- _ => unfold gets in H; inv_eq H
  | H : modify _ _ = (_, _) |- _ => unfold modify in H; inv_eq H
  | H : get _ = (_, _) |- _ => unfold get in H; inv_eq H
  | H : cfg _ _ = (_, _) |- _ => unfold cfg, gets in H; inv_eq H
  | H : GetTimestamp _ = (_, _) |- _ => unfold GetTimestamp, gets in H; inv_eq H
  | H : (if ?b then _ else _) _ = (_, _) |- _ => let E := fresh "E" in destruct b eqn:E
  end.

Lemma exec_eq {A} (c : MW A) w r w' : c w = (r, w') -> exec c w = w'.
Proof. unfold exec. by intros ->. Qed.

Lemma fault_point_frame e w r w' :
  fault_point e w = (r, w') -> w' = set_w_faults (fun _ => tail w.(w_faults)) w \/ w' = w.
Proof. unfold fault_point. destruct (w_faults w); intros; simplify_eq; simpl; auto. Qed.

Lemma stmt_Ok w w' : stmt w = (Ok tt, w') -> w'.(w_db) = w.(w_db) /\ w'.(w_redis) = w.(w_redis) /\ w'.(w_cfg) = w.(w_cfg).
Proof. intros H. apply fault_point_frame in H as [-> | ->]; done. Qed.
Lemma redis_cmd_Ok w w' : redis_cmd w = (Ok tt, w') -> w'.(w_db) = w.(w_db) /\ w'.(w_redis) = w.(w_redis) /\ w'.(w_cfg) = w.(w_cfg).
Proof. intros H. apply fault_point_frame in H as [-> | ->]; done. Qed.

Lemma Transaction_Ok {A} (c : MW A) w a w' :
  Transaction c w = (Ok a, w') -> exists w1 w2, c w1 = (Ok a, w2) /\ w'.(w_db) = w2.(w_db) /\ w'.(w_cfg) = w2.(w_cfg)
    /\ w1.(w_cfg) = w.(w_cfg).
Proof.
  unfold Transaction. destruct (stmt w) as [[[]|] w1] eqn:H1; [|done].
  destruct (c w1) as [[a'|] w2] eqn:H2; [|done]. destruct (stmt w2) as [[[]|] w3] eqn:H3; [|done].
  intros H. simplify_eq. apply stmt_Ok in H1 as (_ & _ & H1). apply stmt_Ok in H3 as (? & ? & ?). eauto 10.
Qed.

(** The worlds two runs pass through while only calls are counted. *)
Definition same_but_faults (w w' : World) : Prop := exists fs, w' = set_w_faults (fun _ => fs) w.

Lemma stmt_same w r w' : stmt w = (r, w') -> same_but_faults w w'.
Proof.
  unfold stmt, fault_point. destruct (w_faults w) as [|b fs] eqn:E; intros H; injection H as <- <-; [|by eexists].
  exists []. destruct w; simpl in *. by subst.
Qed.

(** A transaction ends with the body's tables, or with the tables it began with. *)
Lemma Transaction_inv {A} (c : MW A) w r w' :
  Transaction c w = (r, w') ->
  (exists e, r = Err e /\ w'.(w_db) = w.(w_db)) \/
  (exists a w1 w2, r = Ok a /\ same_but_faults w w1 /\ c w1 = (Ok a, w2) /\ same_but_faults w2 w').
Proof.
  unfold Transaction. destruct (stmt w) as [[[]|] w1] eqn:H1; apply stmt_same in H1.
  2:{ intros H. injection H as <- <-. left. eexists. split; [done|]. by destruct H1 as [fs ->]. }
  destruct (c w1) as [[a|e] w2] eqn:H2.
  2:{ intros H. injection H as <- <-. left. eexists. split; [done|]. by destruct H1 as [fs ->]. }
  destruct (stmt w2) as [[[]|] w3] eqn:H3; apply stmt_same in H3; intros H; injection H as <- <-.
  - right. eauto 10.
  - left. eexists. split; [done|]. by destruct H1 as [fs ->].
Qed.

Lemma visible_user_lookup d id u : visible_user d id = Some u -> d.(users) !! id = Some u /\ u.(u_Deleted) = false.
Proof. unfold visible_user. repeat case_match; intros; simplify_eq; done. Qed.

Lemma first_user_Ok id w u w' :
  first_user id w = (Ok u, w') ->
  visible_user w.(w_db) id = Some u /\ w'.(w_db) = w.(w_db) /\ w'.(w_redis) = w.(w_redis) /\ w'.(w_cfg) = w.(w_cfg).
Proof.
  intros H. unfold first_user in H. apply bind_Ok in H as ([] & w1 & H1 & H).
  apply stmt_Ok in H1 as (E1 & E2 & E3). apply bind_Ok in H as (d & w2 & H2 & H).
  unfold gets in H2. simplify_eq. rewrite E1 in H. destruct (visible_user _ _); [|done].
  unfold ret in H. by simplify_eq.
Qed.


(** The ledger: what a cache-only computation leaves alone. *)
Definition ledger (w : World) : DB * BatchStores * Config := (w.(w_db), w.(w_batch), w.(w_cfg)).

(** State predicates that only look at the ledger. *)
Class LedgerPred (I : World -> Prop) : Prop :=
  ledger_pred w w' : ledger w = ledger w' -> I w -> I w'.
(** State predicates a rollback keeps. *)
Class RollbackPred (I : World -> Prop) : Prop :=
  rollback_pred w w' : I w -> I w' -> I (set_w_db (fun _ => w.(w_db)) w').

Definition cfg_is (c : Config) (w : World) : Prop := w.(w_cfg) = c.
Definition db_inv (I : DB -> Prop) (w : World) : Prop := I w.(w_db).
Definition ledger_is (l : DB * BatchStores * Config) (w : World) : Prop := ledger w = l.

#[export] Instance cfg_is_ledger c : LedgerPred (cfg_is c).
Proof. intros w w' [= _ _ H]. unfold cfg_is. congruence. Qed.
#[export] Instance cfg_is_rollback c : RollbackPred (cfg_is c).
Proof. by intros w w' _ H. Qed.
#[export] Instance db_inv_ledger I : LedgerPred (db_inv I).
Proof. intros w w' [= H _ _]. unfold db_inv. by rewrite H. Qed.
#[export] Instance db_inv_rollback I : RollbackPred (db_inv I).
Proof. by intros w w' H _. Qed.
#[export] Instance ledger_is_ledger l : LedgerPred (ledger_is l).
Proof. intros w w' H. unfold ledger_is. by rewrite H. Qed.
#[export] Instance ledger_is_rollback l : RollbackPred (ledger_is l).
Proof.
  unfold ledger_is, ledger. intros w w' H1 H2. simpl. subst l. injection H2 as ? ? ?. congruence.
Qed.

Section ledger_pred.
Context (I : World -> Prop) `{!LedgerPred I}.

Lemma fault_point_quiet e : preserves I (fault_point e).
Proof using All.
  intros w Hw. unfold fault_point. destruct (w_faults w); [done|]. by apply (ledger_pred w).
Qed.
Lemma stmt_quiet : preserves I stmt.
Proof using All. apply fault_point_quiet. Qed.
Lemma redis_cmd_quiet : preserves I redis_cmd.
Proof using All. apply fault_point_quiet. Qed.
Lemma modify_redis_quiet f : preserves I (modify_redis f).
Proof using All. intros w Hw. by apply (ledger_pred w). Qed.
Lemma cfg_quiet {A} (f : Config -> A) : preserves I (cfg f).
Proof. by intros w Hw. Qed.
Lemma get_quiet : preserves I (get (E:=error)).
Proof. by intros w Hw. Qed.
Lemma GetTimestamp_quiet : preserves I GetTimestamp.
Proof. by intros w Hw. Qed.
Lemma go_quiet j : preserves I (go j).
Proof using All. intros w Hw. by apply (ledger_pred w). Qed.
Lemma RecordLog_quiet a b q : preserves I (RecordLog a b q).
Proof using All. intros w Hw. by apply (ledger_pred w). Qed.
Lemma first_user_quiet id : preserves I (first_user id).
Proof using All.
  unfold first_user. apply preserves_bind; [apply stmt_quiet|intros _].
  apply preserves_read. intros w Hw. by destruct (visible_user _ _).
Qed.
Lemma count_user_quiet id : preserves I (count_user id).
Proof using All. unfold count_user. apply preserves_bind; [apply stmt_quiet|intros _]. apply preserves_gets. Qed.

Lemma Transaction_preserves `{!RollbackPred I} {A} (b : MW A) : preserves I b -> preserves I (Transaction b).
Proof using All.
  intros Hb w Hw. unfold Transaction. pose proof (stmt_quiet w Hw) as H1.
  destruct (stmt w) as [[[]|] w1]; simpl in *; [|done].
  specialize (Hb w1 H1). destruct (b w1) as [[a|] w2]; simpl in *; [|by apply rollback_pred].
  pose proof (stmt_quiet w2 Hb) as H3. destruct (stmt w2) as [[[]|] w3]; [done|by apply rollback_pred].
Qed.
End ledger_pred.

#[export] Hint Resolve stmt_quiet redis_cmd_quiet modify_redis_quiet cfg_quiet get_quiet GetTimestamp_quiet
  go_quiet RecordLog_quiet first_user_quiet count_user_quiet : preserve.
#[export] Hint Extern 1 (preserves _ (Transaction _)) =>
  (apply Transaction_preserves; [typeclasses eauto..|solve_preserves]) : preserve.
#[export] Hint Extern 0 (LedgerPred _) => (typeclasses eauto) : preserve.
#[export] Hint Extern 0 (RollbackPred _) => (typeclasses eauto) : preserve.

(** Table updates. *)
Lemma modify_db_cfg c f : preserves (cfg_is c) (modify_db f).
Proof. by intros w Hw. Qed.
Lemma update_user_cfg c id p f : preserves (cfg_is c) (update_user id p f).
Proof. unfold update_user. pose proof modify_db_cfg. solve_preserves. Qed.
Lemma update_token_cfg c id p f : preserves (cfg_is c) (update_token id p f).
Proof. unfold update_token. pose proof modify_db_cfg. solve_preserves. Qed.
#[export] Hint Resolve modify_db_cfg update_user_cfg update_token_cfg : preserve.

Lemma update_user_db (I : DB -> Prop) id p f :
  (forall d u, I d -> d.(users) !! id = Some u -> p u = true -> I (set_users (insert id (f u)) d)) ->
  preserves (db_inv I) (update_user id p f).
Proof.
  intros H. unfold update_user. apply preserves_bind; [auto with preserve|intros _].
  apply preserves_read. intros w Hw. destruct (visible_user _ _) as [u|] eqn:Hu; [|done].
  apply visible_user_lookup in Hu as [Hu _]. destruct (p u) eqn:Hp; [|done].
  exact (H (w_db w) u Hw Hu Hp).
Qed.

(** ** Concrete worlds, for evaluation *)

Definition empty_db : DB := mkDB ∅ ∅ ∅ ∅ ∅ ∅ ∅ ∅ ∅ ∅ ∅ 1.
Definition empty_redis : Redis := mkRedis ∅ ∅ ∅ ∅ ∅ ∅ ∅.
Definition empty_batch : BatchStores := mkBatch ∅ ∅ ∅ ∅ ∅.
Definition sample_config (redis batch : bool) : Config :=
  mkConfig redis batch (float64_of_int 500000) 0 (fun s => s).
Definition empty_world (c : Config) : World :=
  mkWorld c empty_db empty_redis empty_batch [] [] 1700000000 1700000000 [].
Definition sample_user (id quota : Z) : User :=
  mkUser id "alice" 1 1 "" quota 0 0 "default" 0 0 0 0 false "" "" 1.
Definition sample_token (id userId : Z) (key : string) (remain : Z) : Token :=
  mkToken id userId key 1 "token" 0 0 (-1) remain false false "" None 0 "" false "" false.
Definition with_user (u : User) (w : World) : World := set_w_db (set_users (insert u.(u_Id) u)) w.
Definition with_token (t : Token) (w : World) : World := set_w_db (set_tokens (insert t.(t_Id) t)) w.
