(* ===== verification/UserCache.v ===== *)
(** * The user cache and its authentication-version fence
    (model/user_cache.go, model/user_auth_cache.go)

    Redis holds one hash per user, a pending fence published before a restrictive
    database update and a committed version floor published after it.  Each Lua
    script is one atomic Redis command. *)

From stdpp Require Import base tactics numbers list gmap strings.
From Stdlib Require Import ZArith Lia.
From S2P Require Import Prelude Float64 World.
Open Scope Z_scope.

Definition userCacheSchemaVersion : Z := 2.

(** The Go [UserBase] is the hash with an absent [Quota] read as zero. *)
Definition UserBase := UserHash.
Definition ub_Quota (b : UserBase) : Z := default 0 b.(h_Quota).

Definition ToBaseUser (u : User) : UserBase :=
  mkUserHash u.(u_Id) u.(u_Group) u.(u_Email) u.(u_Status) u.(u_Role) u.(u_Username) u.(u_Setting)
    u.(u_AuthVersion) userCacheSchemaVersion (Some u.(u_Quota)).

Definition GetUserById (id : Z) : MW User :=
  if id =? 0 then throw (ErrMsg "id 为空！") else first_user id.

(** ** Scripts *)

Definition redis_int (m : gmap Z Z) (id : Z) : Z := default 0 (m !! id).
Definition hash_version (r : Redis) (id : Z) : Z :=
  match r.(user_hash) !! id with Some h => h.(h_AuthVersion) | None => 0 end.

(** A write of version [incoming] is refused when a fence, the committed floor
    or the cached hash is newer. *)
Definition version_refused (r : Redis) (id incoming : Z) : bool :=
  (incoming <? redis_int r.(auth_fence) id) || (incoming <? redis_int r.(auth_version) id)
  || (incoming <? hash_version r id).

(** Raises the committed floor and clears a fence the version satisfies. *)
Definition commit_version (id incoming : Z) (r : Redis) : Redis :=
  let pending := redis_int r.(auth_fence) id in
  let r := if redis_int r.(auth_version) id <? incoming
           then set_auth_version (insert id incoming) r else r in
  if (0 <? pending) && (pending <=? incoming) then set_auth_fence (delete id) r else r.

Definition write_user_script (b : UserBase) (includeQuota : bool) (r : Redis) : Z * Redis :=
  let id := b.(h_Id) in
  let incoming := b.(h_AuthVersion) in
  if version_refused r id incoming then (0, r)
  else
    let r := commit_version id incoming r in
    match r.(user_hash) !! id, includeQuota with
    | None, false => (1, r)
    | old, _ =>
        let oldQuota := old ≫= h_Quota in
        let quota := if includeQuota then
                       match oldQuota with Some q => Some q | None => Some (ub_Quota b) end
                     else oldQuota in
        (1, set_user_hash (insert id (set_h_Quota (fun _ => quota) b)) r)
    end.

Definition writeUserCache (user : UserBase) (includeQuota : bool) : MW unit :=
  let! en := cfg RedisEnabled in
  if (user.(h_Id) <=? 0) || negb en then ret tt
  else
    let user := set_h_CacheSchema (fun _ => userCacheSchemaVersion) user in
    if user.(h_AuthVersion) <=? 0 then throw (ErrMsg "invalid user auth version")
    else
      redis_cmd ;;
      let! r := gets w_redis in
      let (res, r') := write_user_script user includeQuota r in
      modify_redis (fun _ => r') ;;
      if res =? 0 then throw ErrUserAuthCachePending else ret tt.

Definition invalidateUserCache (userId : Z) : MW unit :=
  let! en := cfg RedisEnabled in
  if negb en then ret tt
  else redis_cmd ;; modify_redis (set_user_hash (delete userId)).

Definition populateUserCache (user : User) : MW unit :=
  let! en := cfg RedisEnabled in
  if negb en then ret tt else writeUserCache (ToBaseUser user) true.

Definition updateUserCache (user : User) : MW unit :=
  let! en := cfg RedisEnabled in
  if negb en then ret tt else writeUserCache (ToBaseUser user) false.

Definition getUserAuthVersionFloor (userId : Z) : MW Z :=
  let! en := cfg RedisEnabled in
  if negb en then ret 0
  else
    redis_cmd ;;
    gets (fun w => Z.max (Z.max 0 (redis_int w.(w_redis).(auth_fence) userId))
                     (redis_int w.(w_redis).(auth_version) userId)).

Definition cacheGetUserBase (userId : Z) : MW UserBase :=
  let! en := cfg RedisEnabled in
  if negb en then throw (ErrMsg "redis is not enabled")
  else
    redis_cmd ;;
    let! h := gets (fun w => w.(w_redis).(user_hash) !! userId) in
    match h with
    | None => throw (ErrMsg "key not found in Redis")
    | Some b =>
        if negb (b.(h_Id) =? userId) || negb (b.(h_CacheSchema) =? userCacheSchemaVersion)
           || (b.(h_AuthVersion) <=? 0)
        then throw (ErrMsg "user cache schema is stale")
        else
          let! floor := getUserAuthVersionFloor userId in
          if b.(h_AuthVersion) <? floor then throw ErrUserAuthCachePending else ret b
    end.

Definition GetUserCache (userId : Z) : MW UserBase :=
  let! c := catch (cacheGetUserBase userId) in
  match c with
  | Ok b => ret b
  | Err _ =>
      let! user := GetUserById userId in
      let! en := cfg RedisEnabled in
      if en then
        let! floor := catch (getUserAuthVersionFloor userId) in
        match floor with
        | Ok f => if user.(u_AuthVersion) <? f then throw ErrUserAuthCachePending else ret tt
        | Err _ => ret tt
        end ;;
        let! p := catch (populateUserCache user) in
        match p with
        | Err ErrUserAuthCachePending => throw ErrUserAuthCachePending
        | _ => ret (ToBaseUser user)
        end
      else ret (ToBaseUser user)
  end.

Definition getUserQuotaCache (userId : Z) : MW Z := let! b := GetUserCache userId in ret (ub_Quota b).
Definition getUserGroupCache (userId : Z) : MW string := let! b := GetUserCache userId in ret b.(h_Group).

(** ** Quota scripts on the user hash (model/quota_reserve.go) *)

(** The guard shared by both scripts: the hash of this user, of the current
    schema, with a quota field. *)
Definition quota_field (r : Redis) (userId : Z) : option (UserHash * Z) :=
  match r.(user_hash) !! userId with
  | Some h =>
      if (h.(h_Id) =? userId) && (h.(h_CacheSchema) =? userCacheSchemaVersion)
      then match h.(h_Quota) with Some q => Some (h, q) | None => None end
      else None
  | None => None
  end.

Definition userQuotaReserveScript (userId amount : Z) (r : Redis) : Z * Redis :=
  match quota_field r userId with
  | None => (-1, r)
  | Some (h, q) =>
      if q <? amount then (0, r)
      else (1, set_user_hash (insert userId (set_h_Quota (fun _ => Some (q - amount)) h)) r)
  end.

Definition userQuotaDeltaScript (userId delta : Z) (r : Redis) : Z * Redis :=
  match quota_field r userId with
  | None => (-1, r)
  | Some (h, q) => (1, set_user_hash (insert userId (set_h_Quota (fun _ => Some (q + delta)) h)) r)
  end.

(** ** Fences *)

(** The fence only grows; refreshing its expiry does not change its value. *)
Definition SetUserAuthVersionFence (userId authVersion : Z) : MW unit :=
  let! en := cfg RedisEnabled in
  if negb en then ret tt
  else if (userId <=? 0) || (authVersion <=? 0) then throw (ErrMsg "invalid user auth fence")
  else
    redis_cmd ;;
    modify_redis (fun r => if redis_int r.(auth_fence) userId <? authVersion
                           then set_auth_fence (insert userId authVersion) r else r).

Definition publishCommittedUserAuthVersion (userId authVersion : Z) : MW unit :=
  let! en := cfg RedisEnabled in
  if negb en then ret tt
  else if (userId <=? 0) || (authVersion <=? 0) then throw (ErrMsg "invalid committed user auth version")
  else redis_cmd ;; modify_redis (commit_version userId authVersion).

(** The row of a user including soft-deleted ones ([tx.Unscoped()]). *)
Definition first_user_unscoped (id : Z) : MW User :=
  stmt ;;
  let! d := gets w_db in
  match d.(users) !! id with
  | Some u => ret u
  | None => throw ErrRecordNotFound
  end.

(** [for range 3]: lock, fence, compare-and-set; retried when the row moved. *)
Fixpoint increment_auth_loop (n : nat) (userId : Z) : MW Z :=
  match n with
  | O => throw ErrUserAuthVersionConflict
  | S n =>
      let! user := first_user_unscoped userId in
      let current := Z.max user.(u_AuthVersion) 1 in
      let next := current +! 1 in
      SetUserAuthVersionFence userId next ;;
      stmt ;;
      let! d := gets w_db in
      match d.(users) !! userId with
      | Some u =>
          if u.(u_AuthVersion) =? user.(u_AuthVersion) then
            modify_db (set_users (insert userId (set_u_AuthVersion (fun _ => next) u))) ;; ret next
          else increment_auth_loop n userId
      | None => increment_auth_loop n userId
      end
  end.

Definition IncrementUserAuthVersionWithTx (userId : Z) : MW Z :=
  if userId <=? 0 then throw (ErrMsg "invalid user auth version update")
  else increment_auth_loop 3 userId.

Definition PublishUserAuthCache (userId : Z) : MW unit :=
  let! user := GetUserById userId in updateUserCache user.

Definition BumpUserAuthVersion (userId : Z) : MW Z :=
  let! next := Transaction (IncrementUserAuthVersionWithTx userId) in
  PublishUserAuthCache userId ;;
  ret next.

(** ** Group refresh *)

Definition update_group_script (userId : Z) (group : string) (incoming : Z) (r : Redis) : Z * Redis :=
  if version_refused r userId incoming then (0, r)
  else
    let current := hash_version r userId in
    let r := commit_version userId incoming r in
    match r.(user_hash) !! userId with
    | None => (1, r)
    | Some h =>
        if current =? incoming then
          (1, set_user_hash (insert userId (set_h_CacheSchema (fun _ => userCacheSchemaVersion)
                                              (set_h_Group (fun _ => group) h))) r)
        else (1, r)
    end.

(** updateUserCacheFieldAtVersion, for the "Group" field. *)
Definition updateUserCacheFieldAtVersion (userId : Z) (group : string) (authVersion : Z) : MW unit :=
  let! en := cfg RedisEnabled in
  if negb en then ret tt
  else if (userId <=? 0) || (authVersion <=? 0) then throw (ErrMsg "invalid user auth version")
  else
    redis_cmd ;;
    let! r := gets w_redis in
    let (res, r') := update_group_script userId group authVersion r in
    modify_redis (fun _ => r') ;;
    if res =? 0 then throw ErrUserAuthCachePending else ret tt.

Fixpoint refresh_group_loop (n : nat) (userId : Z) (authoritative : User) : MW unit :=
  updateUserCacheFieldAtVersion userId authoritative.(u_Group) authoritative.(u_AuthVersion) ;;
  match n with
  | O => throw (ErrMsg "user group changed repeatedly during cache refresh")
  | S n =>
      let! verified := first_user userId in
      if (verified.(u_AuthVersion) =? authoritative.(u_AuthVersion))
         && String.eqb verified.(u_Group) authoritative.(u_Group)
      then ret tt
      else refresh_group_loop n userId verified
  end.

Definition RefreshUserGroupCache (userId : Z) : MW unit :=
  let! en := cfg RedisEnabled in
  if negb en then ret tt
  else if userId <=? 0 then throw (ErrMsg "invalid user id")
  else
    let! authoritative := first_user userId in
    refresh_group_loop 3 userId authoritative.

(** ** The fence protocol *)

(** Everything other requests, other nodes and key expiry can do to the Redis
    state of a user: cache fills from arbitrarily old snapshots, group
    refreshes, new fences, floor publications, quota scripts, and expiry of the
    hash or of the pending fence.  (The committed floor is set without expiry.) *)
Inductive cache_step : Redis -> Redis -> Prop :=
| step_write b iq r : cache_step r (write_user_script b iq r).2
| step_group id g v r : cache_step r (update_group_script id g v r).2
| step_fence id v r :
    cache_step r (if redis_int r.(auth_fence) id <? v then set_auth_fence (insert id v) r else r)
| step_publish id v r : cache_step r (commit_version id v r)
| step_reserve id a r : cache_step r (userQuotaReserveScript id a r).2
| step_delta id a r : cache_step r (userQuotaDeltaScript id a r).2
| step_expire_hash id r : cache_step r (set_user_hash (delete id) r)
| step_expire_fence id r : cache_step r (set_auth_fence (delete id) r).

(** Version [v] of user [id] is fenced: the floor has reached it and no cached
    hash is older. *)
Definition fenced (id v : Z) (r : Redis) : Prop :=
  v <= redis_int r.(auth_version) id /\
  forall h, r.(user_hash) !! id = Some h -> v <= h.(h_AuthVersion).

Lemma redis_int_insert m id id' v :
  redis_int (<[id:=v]> m) id' = if decide (id = id') then v else redis_int m id'.
Proof. unfold redis_int. rewrite lookup_insert. by case_decide. Qed.

Lemma commit_version_hash id v r : (commit_version id v r).(user_hash) = r.(user_hash).
Proof. unfold commit_version. by repeat case_match. Qed.

Lemma commit_version_floor id v r id' :
  redis_int (commit_version id v r).(auth_version) id' =
    if decide (id = id') then Z.max (redis_int r.(auth_version) id') v
    else redis_int r.(auth_version) id'.
Proof.
  unfold commit_version.
  destruct (Z.ltb_spec (redis_int (auth_version r) id) v);
    destruct (_ && _); simpl; rewrite ?redis_int_insert; case_decide; subst; lia.
Qed.

Lemma commit_version_fenced id v id' inc r : fenced id v r -> fenced id v (commit_version id' inc r).
Proof.
  intros [H1 H2]. split.
  - rewrite commit_version_floor. case_decide; lia.
  - rewrite commit_version_hash. done.
Qed.

Lemma version_refused_false r id inc :
  version_refused r id inc = false ->
  redis_int r.(auth_fence) id <= inc /\ redis_int r.(auth_version) id <= inc /\ hash_version r id <= inc.
Proof. unfold version_refused. rewrite !orb_false_iff, !Z.ltb_ge. tauto. Qed.

(** Replacing the hash of some user by one at least as new keeps the fence. *)
Lemma insert_hash_fenced id v id' h r :
  fenced id v r -> (id' = id -> v <= h.(h_AuthVersion)) -> fenced id v (set_user_hash (insert id' h) r).
Proof.
  intros [H1 H2] Hh. split; [done|]. simpl. intros h'. rewrite lookup_insert.
  case_decide; intros; simplify_eq; eauto.
Qed.

Lemma write_user_script_fenced id v b iq r : fenced id v r -> fenced id v (write_user_script b iq r).2.
Proof.
  intros H. unfold write_user_script. destruct (version_refused _ _ _) eqn:Hr; [done|].
  apply version_refused_false in Hr as (_ & Hfl & _).
  pose proof (commit_version_fenced id v (h_Id b) (h_AuthVersion b) r H) as Hc.
  assert (forall q, fenced id v (set_user_hash (insert (h_Id b) (set_h_Quota q b))
                                   (commit_version (h_Id b) (h_AuthVersion b) r))) as Hins.
  { intros q. apply insert_hash_fenced; [done|]. intros Heq. simpl. destruct H as [H1 _]. rewrite Heq in Hfl. lia. }
  destruct (user_hash _ !! _), iq; simpl; auto.
Qed.

Lemma update_group_script_fenced id v id' g inc r : fenced id v r -> fenced id v (update_group_script id' g inc r).2.
Proof.
  intros H. unfold update_group_script. destruct (version_refused _ _ _); [done|].
  pose proof (commit_version_fenced id v id' inc r H) as Hc.
  destruct (user_hash _ !! _) as [h|] eqn:Hh; [|done]. case_match; [|done]. simpl.
  apply insert_hash_fenced; [done|]. intros ->. simpl. by apply Hc.
Qed.

Lemma quota_field_hash r id h q : quota_field r id = Some (h, q) -> r.(user_hash) !! id = Some h.
Proof. unfold quota_field. repeat case_match; intros; simplify_eq; done. Qed.

Lemma cache_step_fenced id v r r' : fenced id v r -> cache_step r r' -> fenced id v r'.
Proof.
  intros H Hs. destruct Hs as [b iq r|id' g v' r|id' v' r|id' v' r|id' a r|id' a r|id' r|id' r].
  - by apply write_user_script_fenced.
  - by apply update_group_script_fenced.
  - destruct (_ <? _); exact H.
  - by apply commit_version_fenced.
  - unfold userQuotaReserveScript. destruct (quota_field _ _) as [[h q]|] eqn:Hq; [|done].
    apply quota_field_hash in Hq. case_match; [done|]. simpl. apply insert_hash_fenced; [done|].
    intros ->. exact (proj2 H _ Hq).
  - unfold userQuotaDeltaScript. destruct (quota_field _ _) as [[h q]|] eqn:Hq; [|done].
    apply quota_field_hash in Hq. simpl. apply insert_hash_fenced; [done|]. intros ->. exact (proj2 H _ Hq).
  - destruct H as [H1 H2]. split; [done|]. simpl. intros h. rewrite lookup_delete. case_decide; [done|]. apply H2.
  - exact H.
Qed.

Lemma cache_steps_fenced id v r r' : fenced id v r -> rtc cache_step r r' -> fenced id v r'.
Proof. intros H Hs. induction Hs; eauto using cache_step_fenced. Qed.

(** ** What a successful bump establishes *)

(** A cache write that reports success has fenced the version it wrote. *)
Lemma write_user_script_fences b iq r :
  (write_user_script b iq r).1 <> 0 -> fenced b.(h_Id) b.(h_AuthVersion) (write_user_script b iq r).2.
Proof.
  unfold write_user_script. destruct (version_refused _ _ _) eqn:Hr; [done|].
  intros _. apply version_refused_false in Hr as (_ & Hfl & Hh).
  assert (h_AuthVersion b <= redis_int (commit_version (h_Id b) (h_AuthVersion b) r).(auth_version) (h_Id b)) as Hc.
  { rewrite commit_version_floor, decide_True by done. lia. }
  destruct (user_hash _ !! _) as [h|] eqn:Hu, iq; simpl.
  all: split; [done|]; simpl; intros h'; rewrite ?lookup_insert_eq; intros; simplify_eq; done || congruence.
Qed.

Lemma writeUserCache_Ok b iq w w' :
  w.(w_cfg).(RedisEnabled) = true -> 0 < b.(h_Id) ->
  writeUserCache b iq w = (Ok tt, w') -> fenced b.(h_Id) b.(h_AuthVersion) w'.(w_redis).
Proof.
  intros Hen Hid H. unfold writeUserCache in H.
  apply bind_Ok in H as (en & w1 & H1 & H). unfold cfg, gets in H1. simplify_eq. rewrite Hen in H. simpl in H.
  destruct (Z.leb_spec (h_Id b) 0); [lia|]. simpl in H.
  destruct (h_AuthVersion b <=? 0); [done|].
  apply bind_Ok in H as ([] & w2 & H2 & H). apply bind_Ok in H as (r & w3 & H3 & H).
  unfold gets in H3. simplify_eq. set (b' := set_h_CacheSchema _ b) in H.
  pose proof (write_user_script_fences b' iq (w_redis w3)) as Hf.
  destruct (write_user_script b' iq (w_redis w3)) as [res r'].
  apply bind_Ok in H as (? & w4 & H4 & H). unfold modify_redis, modify in H4. simplify_eq.
  destruct (Z.eqb_spec res 0); [done|]. unfold ret in H. simplify_eq. simpl. by apply Hf.
Qed.

Lemma increment_auth_Ok n id w v w' :
  increment_auth_loop n id w = (Ok v, w') ->
  exists u, w'.(w_db).(users) !! id = Some u /\ u.(u_AuthVersion) = v.
Proof.
  revert w. induction n as [|n IH]; intros w H; simpl in H; [done|].
  apply bind_Ok in H as (user & w1 & _ & H). apply bind_Ok in H as ([] & w2 & _ & H).
  apply bind_Ok in H as ([] & w3 & _ & H). apply bind_Ok in H as (d & w4 & H4 & H).
  unfold gets in H4. simplify_eq. destruct (users (w_db w4) !! id) as [u|] eqn:Hu; [|by eapply IH].
  destruct (_ =? _); [|by eapply IH].
  apply bind_Ok in H as ([] & w5 & H5 & H). unfold modify_db, modify in H5. unfold ret in H. simplify_eq. simpl.
  rewrite lookup_insert_eq. eauto.
Qed.

Section quiet_ops.
Context (I : World -> Prop) `{!LedgerPred I}.

Lemma first_user_unscoped_quiet id : preserves I (first_user_unscoped id).
Proof using All. unfold first_user_unscoped. solve_preserves. Qed.
Lemma SetUserAuthVersionFence_quiet id v : preserves I (SetUserAuthVersionFence id v).
Proof using All. unfold SetUserAuthVersionFence. solve_preserves. Qed.
Lemma writeUserCache_quiet b iq : preserves I (writeUserCache b iq).
Proof using All. unfold writeUserCache. solve_preserves. Qed.
Lemma getUserAuthVersionFloor_quiet id : preserves I (getUserAuthVersionFloor id).
Proof using All. unfold getUserAuthVersionFloor. solve_preserves. Qed.
Lemma cacheGetUserBase_quiet id : preserves I (cacheGetUserBase id).
Proof using All. pose proof getUserAuthVersionFloor_quiet. unfold cacheGetUserBase. solve_preserves. Qed.
Lemma GetUserCache_quiet id : preserves I (GetUserCache id).
Proof using All.
  pose proof cacheGetUserBase_quiet. pose proof getUserAuthVersionFloor_quiet. pose proof writeUserCache_quiet.
  unfold GetUserCache, GetUserById, populateUserCache. solve_preserves.
Qed.
Lemma refresh_group_loop_quiet n id u : preserves I (refresh_group_loop n id u).
Proof using All.
  revert u. induction n as [|n IH]; intros u; simpl; unfold updateUserCacheFieldAtVersion; solve_preserves.
Qed.
Lemma RefreshUserGroupCache_quiet id : preserves I (RefreshUserGroupCache id).
Proof using All. pose proof refresh_group_loop_quiet. unfold RefreshUserGroupCache. solve_preserves. Qed.
End quiet_ops.
#[export] Hint Resolve first_user_unscoped_quiet SetUserAuthVersionFence_quiet writeUserCache_quiet
  getUserAuthVersionFloor_quiet cacheGetUserBase_quiet GetUserCache_quiet RefreshUserGroupCache_quiet : preserve.

Lemma increment_auth_cfg c n id : preserves (cfg_is c) (increment_auth_loop n id).
Proof. induction n; simpl; solve_preserves. Qed.
#[export] Hint Resolve increment_auth_cfg : preserve.

(** The rows of a table are stored under their own id. *)
Definition users_wf (d : DB) : Prop := forall id u, d.(users) !! id = Some u -> u.(u_Id) = id.

Lemma users_wf_insert d id u f :
  users_wf d -> d.(users) !! id = Some u -> u_Id (f u) = u_Id u -> users_wf (set_users (insert id (f u)) d).
Proof.
  intros Hwf Hu Hf id' u'. simpl. rewrite lookup_insert. case_decide; intros; simplify_eq; [|by apply Hwf].
  rewrite Hf. by apply Hwf.
Qed.

Lemma increment_auth_wf n id : preserves (db_inv users_wf) (increment_auth_loop n id).
Proof.
  induction n as [|n IH]; simpl; [apply preserves_throw|].
  apply preserves_bind; [solve_preserves|intros user].
  apply preserves_bind; [solve_preserves|intros _].
  apply preserves_bind; [solve_preserves|intros _].
  apply preserves_read. intros w Hw. destruct (users (w_db w) !! id) as [u|] eqn:Hu; [|by apply IH].
  destruct (_ =? _); [|by apply IH]. exact (users_wf_insert _ id u (set_u_AuthVersion _) Hw Hu eq_refl).
Qed.

(** Publishing the current row fences its version. *)
Lemma PublishUserAuthCache_Ok id w w' u :
  w.(w_cfg).(RedisEnabled) = true -> 0 < id -> users_wf w.(w_db) -> w.(w_db).(users) !! id = Some u ->
  PublishUserAuthCache id w = (Ok tt, w') -> fenced id u.(u_AuthVersion) w'.(w_redis).
Proof.
  intros Hen Hid Hwf Hu Hp. unfold PublishUserAuthCache, GetUserById in Hp. destruct (Z.eqb_spec id 0); [lia|].
  apply bind_Ok in Hp as (u' & wc & Hu' & Hp). apply first_user_Ok in Hu' as (Hv' & _ & _ & Hcc).
  apply visible_user_lookup in Hv' as [Hv' _]. rewrite Hu in Hv'. injection Hv' as <-.
  unfold updateUserCache in Hp. apply bind_Ok in Hp as (en & wd & Hd & Hp). unfold cfg, gets in Hd. simplify_eq.
  rewrite Hcc, Hen in Hp. simpl in Hp. apply Hwf in Hu. subst id.
  apply (writeUserCache_Ok (ToBaseUser u)) in Hp; simpl; try done. congruence.
Qed.

Lemma BumpUserAuthVersion_fenced id w v w1 :
  w.(w_cfg).(RedisEnabled) = true -> users_wf w.(w_db) ->
  BumpUserAuthVersion id w = (Ok v, w1) -> fenced id v w1.(w_redis).
Proof.
  intros Hen Hwf Hb. unfold BumpUserAuthVersion, IncrementUserAuthVersionWithTx in Hb.
  apply bind_Ok in Hb as (v' & wa & Ha & Hb). apply bind_Ok in Hb as ([] & wb & Hp & Hb).
  unfold ret in Hb. simplify_eq. destruct (Z.leb_spec id 0).
  { apply Transaction_Ok in Ha as (? & ? & Ha & _). done. }
  pose proof (Transaction_preserves (cfg_is (w_cfg w)) (increment_auth_loop 3 id) (increment_auth_cfg _ _ _) w eq_refl) as Hc.
  pose proof (Transaction_preserves (db_inv users_wf) _ (increment_auth_wf 3 id) w Hwf) as Hwa.
  rewrite Ha in Hc, Hwa. simpl in Hc, Hwa.
  apply Transaction_Ok in Ha as (wx & wy & Hi & Hdb & _).
  apply increment_auth_Ok in Hi as (u & Hu & <-). rewrite <- Hdb in Hu.
  apply (PublishUserAuthCache_Ok id wa w1 u); try done. congruence.
Qed.

Lemma cacheGetUserBase_Ok id w b w' :
  cacheGetUserBase id w = (Ok b, w') -> w.(w_redis).(user_hash) !! id = Some b.
Proof.
  intros Hg. unfold cacheGetUserBase in Hg. apply bind_Ok in Hg as (en & wa & Ha & Hg).
  unfold cfg, gets in Ha. simplify_eq.
  destruct (negb _); [done|]. apply bind_Ok in Hg as ([] & wb & Hc & Hg). apply redis_cmd_Ok in Hc as (_ & Hc & _).
  apply bind_Ok in Hg as (h & wc & Hd & Hg). unfold gets in Hd. simplify_eq. rewrite Hc in Hg.
  destruct (user_hash (w_redis wa) !! id) as [h|] eqn:Hx; [|done]. destruct (_ || _); [done|].
  apply bind_Ok in Hg as (fl & wd & _ & Hg). destruct (_ <? _); [done|]. unfold ret in Hg. by simplify_eq.
Qed.

(** Fail-closed authentication cache: once a version bump has succeeded with
    version [v], no later sequence of cache fills from stale snapshots, refreshes,
    scripts or expiries lets a cached read return the user at a version older
    than [v]. *)
Theorem bump_fences_stale_snapshots id w v w1 r w2 b w3 :
  w.(w_cfg).(RedisEnabled) = true -> users_wf w.(w_db) ->
  BumpUserAuthVersion id w = (Ok v, w1) ->
  rtc cache_step w1.(w_redis) r -> w2.(w_redis) = r ->
  cacheGetUserBase id w2 = (Ok b, w3) ->
  v <= b.(h_AuthVersion).
Proof.
  intros Hen Hwf Hb Hs Hr Hg.
  pose proof (BumpUserAuthVersion_fenced id w v w1 Hen Hwf Hb) as Hf.
  pose proof (cache_steps_fenced id v _ _ Hf Hs) as [_ Hh]. subst r.
  apply cacheGetUserBase_Ok in Hg. by apply Hh.
Qed.

(** User 1 is bumped to version 2; a cache fill still holding the version-1 row
    is refused, a fill with the new row is served. *)
Lemma bump_fences_stale_snapshots_witness :
  let w := with_user (sample_user 1 100) (empty_world (sample_config true false)) in
  let w1 := exec (BumpUserAuthVersion 1) w in
  let stale := ToBaseUser (sample_user 1 100) in
  let fresh := ToBaseUser (set_u_AuthVersion (fun _ => 2) (sample_user 1 100)) in
  let r := (write_user_script stale true (write_user_script fresh true w1.(w_redis)).2).2 in
  let w2 := set_w_redis (fun _ => r) w1 in
  exists b w3, cacheGetUserBase 1 w2 = (Ok b, w3) /\ 2 <= b.(h_AuthVersion).
Proof.
  intros w w1 stale fresh r w2.
  destruct (cacheGetUserBase 1 w2) as [[b|e] w3] eqn:Hg.
  - exists b, w3. split; [done|].
    apply (bump_fences_stale_snapshots 1 w 2 w1 r w2 b w3).
    + reflexivity.
    + intros id u. unfold w. simpl. rewrite lookup_insert. case_decide; [|by rewrite lookup_empty].
      intros [= <-]. simpl. done.
    + vm_compute. reflexivity.
    + eapply rtc_l; [apply (step_write fresh true)|]. eapply rtc_l; [apply (step_write stale true)|]. apply rtc_refl.
    + reflexivity.
    + exact Hg.
  - vm_compute in Hg. discriminate.
Defined.
