(* ===== verification/QuotaStore.v ===== *)
(** * Wallet and token quota (model/utils.go, model/user.go, model/token.go,
      model/token_cache.go, model/quota_reserve.go)

    The wallet of a user is the [quota] column plus the delta still queued in the
    batch store; a token's remaining quota likewise.  Reservations are decided by
    the Redis balance when it is present, by a conditional UPDATE otherwise. *)

From stdpp Require Import base tactics numbers list gmap strings.
From Stdlib Require Import ZArith Lia.
From S2P Require Import Prelude Float64 QuotaMath World UserCache.
Open Scope Z_scope.

(** ** Batch stores (model/utils.go) *)

Definition batch_get (b : BatchStores) (t : BatchUpdateType) : gmap Z Z :=
  match t with
  | BatchUpdateTypeUserQuota => b.(bs_UserQuota)
  | BatchUpdateTypeTokenQuota => b.(bs_TokenQuota)
  | BatchUpdateTypeUsedQuota => b.(bs_UsedQuota)
  | BatchUpdateTypeChannelUsedQuota => b.(bs_ChannelUsedQuota)
  | BatchUpdateTypeRequestCount => b.(bs_RequestCount)
  end.

Definition batch_set (t : BatchUpdateType) (f : gmap Z Z -> gmap Z Z) (b : BatchStores) : BatchStores :=
  match t with
  | BatchUpdateTypeUserQuota =>
      mkBatch (f b.(bs_UserQuota)) b.(bs_TokenQuota) b.(bs_UsedQuota) b.(bs_ChannelUsedQuota) b.(bs_RequestCount)
  | BatchUpdateTypeTokenQuota =>
      mkBatch b.(bs_UserQuota) (f b.(bs_TokenQuota)) b.(bs_UsedQuota) b.(bs_ChannelUsedQuota) b.(bs_RequestCount)
  | BatchUpdateTypeUsedQuota =>
      mkBatch b.(bs_UserQuota) b.(bs_TokenQuota) (f b.(bs_UsedQuota)) b.(bs_ChannelUsedQuota) b.(bs_RequestCount)
  | BatchUpdateTypeChannelUsedQuota =>
      mkBatch b.(bs_UserQuota) b.(bs_TokenQuota) b.(bs_UsedQuota) (f b.(bs_ChannelUsedQuota)) b.(bs_RequestCount)
  | BatchUpdateTypeRequestCount =>
      mkBatch b.(bs_UserQuota) b.(bs_TokenQuota) b.(bs_UsedQuota) b.(bs_ChannelUsedQuota) (f b.(bs_RequestCount))
  end.

(** The sum with the overflow test of the source: the test looks at the wrapped
    64-bit sum. *)
Definition batch_sum (old value : Z) : Z :=
  let sum := old +! value in
  if ((0 <? value) && (sum <? old)) || ((value <? 0) && (old <? sum))
  then if 0 <? value then MaxInt64 else MinInt64
  else sum.

Definition add_record (id value : Z) (store : gmap Z Z) : gmap Z Z :=
  match store !! id with
  | None => <[id := value]> store
  | Some old => <[id := batch_sum old value]> store
  end.

Definition addNewRecord (type_ : BatchUpdateType) (id value : Z) : MW unit :=
  modify (set_w_batch (batch_set type_ (add_record id value))).

Definition increaseTokenQuota (id quota : Z) : MW unit :=
  let! now := GetTimestamp in
  update_token id (fun _ => true)
    (fun t => set_t_AccessedTime (fun _ => now)
                (set_t_UsedQuota (fun x => x - quota) (set_t_RemainQuota (fun x => x + quota) t))) ;;
  ret tt.

Definition decreaseTokenQuota (id quota : Z) : MW unit :=
  let! now := GetTimestamp in
  update_token id (fun _ => true)
    (fun t => set_t_AccessedTime (fun _ => now)
                (set_t_UsedQuota (fun x => x + quota) (set_t_RemainQuota (fun x => x - quota) t))) ;;
  ret tt.

(** Failures are logged and dropped. *)
Definition updateChannelUsedQuota (id quota : Z) : MW unit :=
  catch (stmt ;; modify_db (set_channel_used (alter (fun x => x + quota) id))) ;; ret tt.

Definition updateUserQuotaUsedQuotaAndRequestCount (id quota usedQuota requestCount : Z) : MW unit :=
  if (quota =? 0) && (usedQuota =? 0) && (requestCount =? 0) then ret tt
  else
    catch (update_user id (fun _ => true)
             (fun u => set_u_RequestCount (fun x => x + requestCount)
                         (set_u_UsedQuota (fun x => x + usedQuota) (set_u_Quota (fun x => x + quota) u)))) ;;
    ret tt.

Definition store_keys (stores : BatchStores) : list Z :=
  elements (dom stores.(bs_UserQuota) ∪ dom stores.(bs_UsedQuota) ∪ dom stores.(bs_RequestCount)).

Definition batch_has_data (b : BatchStores) : bool :=
  negb (bool_decide (b.(bs_UserQuota) = ∅) && bool_decide (b.(bs_TokenQuota) = ∅) &&
        bool_decide (b.(bs_UsedQuota) = ∅) && bool_decide (b.(bs_ChannelUsedQuota) = ∅) &&
        bool_decide (b.(bs_RequestCount) = ∅)).

(** The stores are swapped for empty ones first, then flushed key by key. *)
Definition batchUpdate : MW unit :=
  let! stores := gets w_batch in
  if negb (batch_has_data stores) then ret tt
  else
    modify (set_w_batch (fun _ => mkBatch ∅ ∅ ∅ ∅ ∅)) ;;
    mapM_ (fun kv => catch (increaseTokenQuota kv.1 kv.2) ;; ret tt) (map_to_list stores.(bs_TokenQuota)) ;;
    mapM_ (fun kv => updateChannelUsedQuota kv.1 kv.2) (map_to_list stores.(bs_ChannelUsedQuota)) ;;
    mapM_ (fun key => updateUserQuotaUsedQuotaAndRequestCount key
                        (redis_int stores.(bs_UserQuota) key) (redis_int stores.(bs_UsedQuota) key)
                        (redis_int stores.(bs_RequestCount) key)) (store_keys stores).

(** ** User wallet (model/user.go) *)

Definition quota_negative : error := ErrMsg "quota 不能为负数！".

Definition cacheApplyUserQuotaDelta (userID delta : Z) : MW Z :=
  redis_cmd ;;
  let! r := gets w_redis in
  let (res, r') := userQuotaDeltaScript userID delta r in
  modify_redis (fun _ => r') ;; ret res.

Definition cacheIncrUserQuota (userId delta : Z) : MW unit :=
  let! en := cfg RedisEnabled in
  if negb en then ret tt else cacheApplyUserQuotaDelta userId delta ;; ret tt.

Definition cacheDecrUserQuota (userId delta : Z) : MW unit := cacheIncrUserQuota userId (- delta).

Definition syncCreditUserQuotaCache (userId quota : Z) : MW unit :=
  if quota <=? 0 then ret tt else catch (cacheIncrUserQuota userId quota) ;; ret tt.

Definition GetUserQuota (id : Z) (fromDB : bool) : MW Z :=
  let! en := cfg RedisEnabled in
  if negb fromDB && en then getUserQuotaCache id
  else
    stmt ;;
    gets (fun w => match visible_user w.(w_db) id with Some u => u.(u_Quota) | None => 0 end).

Definition increaseUserQuota (id quota : Z) : MW unit :=
  let! n := update_user id (fun u => u.(u_Quota) <=? MaxWalletQuota -! quota) (set_u_Quota (fun q => q + quota)) in
  if n =? 1 then ret tt
  else
    let! count := count_user id in
    if count =? 0 then throw ErrRecordNotFound else throw ErrWalletQuotaLimitExceeded.

Definition decreaseUserQuota (id quota : Z) : MW unit :=
  update_user id (fun _ => true) (set_u_Quota (fun q => q - quota)) ;; ret tt.

Definition IncreaseUserQuota (id quota : Z) (db : bool) : MW unit :=
  if quota <? 0 then throw quota_negative
  else
    match ValidateWalletQuota quota with
    | Err s => throw (ErrMsg s)
    | Ok _ =>
        let! batch := cfg BatchUpdateEnabled in
        if negb db && batch then
          addNewRecord BatchUpdateTypeUserQuota id quota ;;
          go (JobCacheUserQuota id quota)
        else
          increaseUserQuota id quota ;;
          go (JobCacheUserQuota id quota)
    end.

Definition DecreaseUserQuota (id quota : Z) (db : bool) : MW unit :=
  if quota <? 0 then throw quota_negative
  else
    go (JobCacheUserQuota id (- quota)) ;;
    let! batch := cfg BatchUpdateEnabled in
    if negb db && batch then addNewRecord BatchUpdateTypeUserQuota id (wrap64 (- quota))
    else decreaseUserQuota id quota.

Definition DeltaUpdateUserQuota (id delta : Z) : MW unit :=
  if delta =? 0 then ret tt
  else if 0 <? delta then IncreaseUserQuota id delta false
  else DecreaseUserQuota id (wrap64 (- delta)) false.

Definition UpdateUserUsedQuota (id quota : Z) : MW unit :=
  let! batch := cfg BatchUpdateEnabled in
  if batch then addNewRecord BatchUpdateTypeUsedQuota id quota
  else catch (update_user id (fun _ => true) (set_u_UsedQuota (fun x => x + quota))) ;; ret tt.

Definition updateUserUsedQuotaAndRequestCount (id quota count : Z) : MW unit :=
  catch (update_user id (fun _ => true)
           (fun u => set_u_RequestCount (fun x => x + count) (set_u_UsedQuota (fun x => x + quota) u))) ;; ret tt.

Definition UpdateUserUsedQuotaAndRequestCount (id quota : Z) : MW unit :=
  let! batch := cfg BatchUpdateEnabled in
  if batch then
    addNewRecord BatchUpdateTypeUsedQuota id quota ;;
    addNewRecord BatchUpdateTypeRequestCount id 1
  else updateUserUsedQuotaAndRequestCount id quota 1.

Definition UpdateChannelUsedQuota (id quota : Z) : MW unit :=
  let! batch := cfg BatchUpdateEnabled in
  if batch then addNewRecord BatchUpdateTypeChannelUsedQuota id quota
  else updateChannelUsedQuota id quota.

(** ** Token cache (model/token_cache.go) *)

Definition TokenStatusEnabled : Z := 1.
Definition TokenStatusExpired : Z := 3.
Definition TokenStatusExhausted : Z := 4.

Definition getTokenCacheKey (c : Config) (key : string) : string := c.(GenerateHMAC) key.

(** The fence and the hash live under the same HMAC of the key. *)
Definition invalidateTokenCacheForMutation (key : string) : MW unit :=
  let! c := cfg id in
  if negb c.(RedisEnabled) || String.eqb key "" then ret tt
  else
    let k := getTokenCacheKey c key in
    redis_cmd ;; modify_redis (set_token_fence (insert k tt)) ;;
    redis_cmd ;; modify_redis (set_token_hash (delete k)).

Definition hash_of_token (t : Token) : TokenHash := mkTokenHash t (Some t.(t_RemainQuota)) (Some t.(t_UsedQuota)).

(** 0: fenced; 2: a live hash is kept; 1: initialised from the snapshot. *)
Definition cacheInitToken (token : Token) : MW Z :=
  let! c := cfg id in
  if negb c.(RedisEnabled) then ret 0
  else
    redis_cmd ;;
    let k := getTokenCacheKey c token.(t_Key) in
    let! r := gets w_redis in
    if bool_decide (is_Some (r.(token_fence) !! k)) then ret 0
    else if bool_decide (is_Some (r.(token_hash) !! k)) then ret 2
    else modify_redis (set_token_hash (insert k (hash_of_token token))) ;; ret 1.

Definition token_of_hash (key : string) (h : TokenHash) : Token :=
  set_t_RemainQuota (fun _ => default 0 h.(th_RemainQuota))
    (set_t_UsedQuota (fun _ => default 0 h.(th_UsedQuota)) (set_t_Key (fun _ => key) h.(th_Token))).

Definition cacheGetTokenByKey (key : string) : MW Token :=
  let! c := cfg id in
  if negb c.(RedisEnabled) then throw (ErrMsg "redis is not enabled")
  else
    redis_cmd ;;
    let! h := gets (fun w => w.(w_redis).(token_hash) !! getTokenCacheKey c key) in
    match h with
    | None => throw (ErrMsg "key not found in Redis")
    | Some h => if h.(th_Token).(t_Id) <=? 0 then throw (ErrMsg "token cache is incomplete")
                else ret (token_of_hash key h)
    end.

(** ** Token rows (model/token.go) *)

Definition token_by_key (d : DB) (key : string) : option Token :=
  snd <$> list_find (fun t => t.(t_Key) = key /\ t.(t_Deleted) = false) (map_to_list d.(tokens)).*2.

Definition GetTokenByKey (key : string) (fromDB : bool) : MW Token :=
  let! en := cfg RedisEnabled in
  let! cached := catch (if negb fromDB && en then cacheGetTokenByKey key else throw ErrRedis) in
  match cached with
  | Ok token => ret token
  | Err _ =>
      stmt ;;
      let! d := gets w_db in
      match token_by_key d key with
      | None => throw ErrRecordNotFound
      | Some token => (if en then catch (cacheInitToken token) ;; ret tt else ret tt) ;; ret token
      end
  end.

(** [UPDATE ... SET accessed_time, status] of this token. *)
Definition SelectUpdate (token : Token) : MW unit :=
  catch (invalidateTokenCacheForMutation token.(t_Key)) ;;
  update_token token.(t_Id) (fun _ => true)
    (fun t => set_t_AccessedTime (fun _ => token.(t_AccessedTime)) (set_t_Status (fun _ => token.(t_Status)) t)) ;;
  ret tt.

Definition ValidateUserToken (key : string) : MW Token :=
  if String.eqb key "" then throw ErrTokenNotProvided
  else
    let! r := catch (GetTokenByKey key false) in
    match r with
    | Ok token =>
        if (token.(t_Status) =? TokenStatusExhausted) || (token.(t_Status) =? TokenStatusExpired)
           || negb (token.(t_Status) =? TokenStatusEnabled)
        then throw ErrTokenInvalid
        else
          let! now := GetTimestamp in
          let! en := cfg RedisEnabled in
          if negb (token.(t_ExpiredTime) =? -1) && (token.(t_ExpiredTime) <? now) then
            (if negb en then catch (SelectUpdate (set_t_Status (fun _ => TokenStatusExpired) token)) ;; ret tt
             else ret tt) ;;
            throw ErrTokenInvalid
          else if negb token.(t_UnlimitedQuota) && (token.(t_RemainQuota) <=? 0) then
            (if negb en then catch (SelectUpdate (set_t_Status (fun _ => TokenStatusExhausted) token)) ;; ret tt
             else ret tt) ;;
            throw ErrTokenInvalid
          else ret token
    | Err e => if bool_decide (e = ErrRecordNotFound) then throw ErrTokenInvalid else throw (ErrDatabase e)
    end.

(** ** Token quota scripts and mutations *)

(** The guard of both scripts: the hash of this token with both quota fields. *)
Definition token_fields (r : Redis) (k : string) (id : Z) : option (TokenHash * Z * Z) :=
  match r.(token_hash) !! k with
  | Some h =>
      if h.(th_Token).(t_Id) =? id then
        match h.(th_RemainQuota), h.(th_UsedQuota) with
        | Some rem, Some used => Some (h, rem, used)
        | _, _ => None
        end
      else None
  | None => None
  end.

Definition touch_hash (now : Z) (rem used : Z) (h : TokenHash) : TokenHash :=
  mkTokenHash (set_t_AccessedTime (fun _ => now) h.(th_Token)) (Some rem) (Some used).

Definition tokenQuotaReserveScript (k : string) (id amount now : Z) (r : Redis) : Z * Redis :=
  match token_fields r k id with
  | None => (-1, r)
  | Some (h, rem, used) =>
      if rem <? amount then (0, r)
      else (1, set_token_hash (insert k (touch_hash now (rem - amount) (used + amount) h)) r)
  end.

Definition tokenQuotaDeltaScript (k : string) (id delta now : Z) (r : Redis) : Z * Redis :=
  match token_fields r k id with
  | None => (-1, r)
  | Some (h, rem, used) =>
      (1, set_token_hash (insert k (touch_hash now (rem + delta) (used - delta) h)) r)
  end.

Definition token_script (f : string -> Z -> Redis -> Z * Redis) (key : string) : MW Z :=
  redis_cmd ;;
  let! w := get in
  let (res, r') := f (getTokenCacheKey w.(w_cfg) key) w.(w_clock) w.(w_redis) in
  modify_redis (fun _ => r') ;; ret res.

Definition cacheApplyTokenQuotaDelta (id : Z) (key : string) (delta : Z) : MW Z :=
  token_script (fun k now => tokenQuotaDeltaScript k id delta now) key.

Definition IncreaseTokenQuota (tokenId : Z) (key : string) (quota : Z) : MW unit :=
  if quota <? 0 then throw quota_negative
  else
    let! en := cfg RedisEnabled in
    (if en then go (JobCacheTokenQuota tokenId key quota) else ret tt) ;;
    let! batch := cfg BatchUpdateEnabled in
    if batch then addNewRecord BatchUpdateTypeTokenQuota tokenId quota
    else increaseTokenQuota tokenId quota.

Definition DecreaseTokenQuota (id : Z) (key : string) (quota : Z) : MW unit :=
  if quota <? 0 then throw quota_negative
  else
    let! en := cfg RedisEnabled in
    (if en then go (JobCacheTokenQuota id key (wrap64 (- quota))) else ret tt) ;;
    let! batch := cfg BatchUpdateEnabled in
    if batch then addNewRecord BatchUpdateTypeTokenQuota id (wrap64 (- quota))
    else decreaseTokenQuota id quota.

(** ** Reservations (model/quota_reserve.go) *)

Inductive cacheQuotaResult := cacheQuotaInsufficient | cacheQuotaOK | cacheQuotaMiss.

#[export] Instance cacheQuotaResult_eq_dec : EqDecision cacheQuotaResult.
Proof. solve_decision. Defined.

Definition quotaResultFromLua (res : Z) : cacheQuotaResult :=
  if res =? 1 then cacheQuotaOK else if res =? 0 then cacheQuotaInsufficient else cacheQuotaMiss.

Definition cacheTryReserveUserQuota (userID amount : Z) : MW cacheQuotaResult :=
  redis_cmd ;;
  let! r := gets w_redis in
  let (res, r') := userQuotaReserveScript userID amount r in
  modify_redis (fun _ => r') ;; ret (quotaResultFromLua res).

Definition cacheTryReserveTokenQuota (id : Z) (key : string) (amount : Z) : MW cacheQuotaResult :=
  let! res := token_script (fun k now => tokenQuotaReserveScript k id amount now) key in
  ret (quotaResultFromLua res).

Definition persistUserQuotaDelta (id delta : Z) : MW unit :=
  let! batch := cfg BatchUpdateEnabled in
  if batch then addNewRecord BatchUpdateTypeUserQuota id delta
  else
    let! n := update_user id (fun _ => true) (set_u_Quota (fun q => q + delta)) in
    if n =? 1 then ret tt else throw ErrRecordNotFound.

Definition persistTokenQuotaDelta (id delta : Z) : MW unit :=
  let! batch := cfg BatchUpdateEnabled in
  if batch then addNewRecord BatchUpdateTypeTokenQuota id delta
  else
    let! now := GetTimestamp in
    let! n := update_token id (fun _ => true)
      (fun t => set_t_AccessedTime (fun _ => now)
                  (set_t_UsedQuota (fun x => x - delta) (set_t_RemainQuota (fun x => x + delta) t))) in
    if n =? 1 then ret tt else throw ErrRecordNotFound.

Definition reserveUserQuotaDB (id quota : Z) : MW bool :=
  let! n := update_user id (fun u => quota <=? u.(u_Quota)) (set_u_Quota (fun q => q - quota)) in
  ret (n =? 1).

Definition reserveTokenQuotaDB (id quota : Z) : MW bool :=
  let! now := GetTimestamp in
  let! n := update_token id (fun t => quota <=? t.(t_RemainQuota))
    (fun t => set_t_AccessedTime (fun _ => now)
                (set_t_UsedQuota (fun x => x + quota) (set_t_RemainQuota (fun x => x - quota) t))) in
  ret (n =? 1).

(** A miss is retried once after hydrating the cache. *)
Definition reserve_with_hydration {A} (try : MW cacheQuotaResult) (hydrate : MW A) : MW (result error cacheQuotaResult) :=
  let! r := catch try in
  match r with
  | Ok cacheQuotaMiss =>
      let! h := catch hydrate in
      match h with
      | Ok _ => catch try
      | Err _ => ret r
      end
  | _ => ret r
  end.

Definition TryReserveUserQuota (id quota : Z) : MW bool :=
  if quota <? 0 then throw quota_negative
  else if quota =? 0 then ret true
  else
    let! en := cfg RedisEnabled in
    if negb en then reserveUserQuotaDB id quota
    else
      let! r := reserve_with_hydration (cacheTryReserveUserQuota id quota) (GetUserCache id) in
      match r with
      | Err _ | Ok cacheQuotaMiss => reserveUserQuotaDB id quota
      | Ok cacheQuotaInsufficient => ret false
      | Ok cacheQuotaOK =>
          let! p := catch (persistUserQuotaDelta id (wrap64 (- quota))) in
          match p with
          | Ok _ => ret true
          | Err e => catch (cacheApplyUserQuotaDelta id quota) ;; throw e
          end
      end.

Definition TryReserveTokenQuota (id : Z) (key : string) (quota : Z) (unlimited : bool) : MW bool :=
  if quota <? 0 then throw quota_negative
  else if quota =? 0 then ret true
  else if unlimited then DecreaseTokenQuota id key quota ;; ret true
  else
    let! en := cfg RedisEnabled in
    if negb en then reserveTokenQuotaDB id quota
    else
      let! r := reserve_with_hydration (cacheTryReserveTokenQuota id key quota) (GetTokenByKey key true) in
      match r with
      | Err _ | Ok cacheQuotaMiss => reserveTokenQuotaDB id quota
      | Ok cacheQuotaInsufficient => ret false
      | Ok cacheQuotaOK =>
          let! p := catch (persistTokenQuotaDelta id (wrap64 (- quota))) in
          match p with
          | Ok _ => ret true
          | Err e => catch (cacheApplyTokenQuotaDelta id key quota) ;; throw e
          end
      end.

(** ** Balances *)

Definition user_column (f : User -> Z) (d : DB) (id : Z) : Z :=
  match visible_user d id with Some u => f u | None => 0 end.
Definition token_column (f : Token -> Z) (d : DB) (id : Z) : Z :=
  match visible_token d id with Some t => f t | None => 0 end.

(** The wallet of a user and the remaining quota of a token: the stored column
    plus what the batch store still owes it. *)
Definition wallet (w : World) (id : Z) : Z :=
  user_column u_Quota w.(w_db) id + redis_int w.(w_batch).(bs_UserQuota) id.
Definition token_remain (w : World) (id : Z) : Z :=
  token_column t_RemainQuota w.(w_db) id + redis_int w.(w_batch).(bs_TokenQuota) id.
Definition token_used (w : World) (id : Z) : Z :=
  token_column t_UsedQuota w.(w_db) id - redis_int w.(w_batch).(bs_TokenQuota) id.

Lemma visible_user_insert d id u f id' :
  visible_user d id = Some u -> u_Deleted (f u) = u_Deleted u ->
  visible_user (set_users (insert id (f u)) d) id' = if decide (id = id') then Some (f u) else visible_user d id'.
Proof.
  intros Hu Hf. apply visible_user_lookup in Hu as [Hu Hd]. unfold visible_user. simpl. rewrite lookup_insert.
  case_decide; subst; [|done]. by rewrite Hf, Hd.
Qed.

Lemma visible_token_lookup d id t : visible_token d id = Some t -> d.(tokens) !! id = Some t /\ t.(t_Deleted) = false.
Proof. unfold visible_token. repeat case_match; intros; simplify_eq; done. Qed.

Lemma visible_token_insert d id t f id' :
  visible_token d id = Some t -> t_Deleted (f t) = t_Deleted t ->
  visible_token (set_tokens (insert id (f t)) d) id' = if decide (id = id') then Some (f t) else visible_token d id'.
Proof.
  intros Hu Hf. apply visible_token_lookup in Hu as [Hu Hd]. unfold visible_token. simpl. rewrite lookup_insert.
  case_decide; subst; [|done]. by rewrite Hf, Hd.
Qed.

(** Every outcome of an UPDATE. *)
Lemma update_user_cases id p f w r w' :
  update_user id p f w = (r, w') ->
  (r = Err ErrDB /\ ledger w' = ledger w) \/
  (r = Ok 0 /\ ledger w' = ledger w /\ forall u, visible_user w.(w_db) id = Some u -> p u = false) \/
  (r = Ok 1 /\ exists u, visible_user w.(w_db) id = Some u /\ p u = true /\
     ledger w' = (set_users (insert id (f u)) w.(w_db), w.(w_batch), w.(w_cfg))).
Proof.
  intros H. unfold update_user, bind, stmt, fault_point, modify_db, modify, gets, ret in H.
  destruct (w_faults w) as [|[] fs] eqn:Hf; simpl in H.
  - destruct (visible_user (w_db w) id) as [u|] eqn:Hu.
    + destruct (p u) eqn:Hp; simplify_eq; [right; right; eauto 10|].
      right; left. split_and!; [done..|]. intros; congruence.
    + simplify_eq. right; left. split_and!; [done..|]. intros; congruence.
  - simplify_eq. by left.
  - destruct (visible_user (w_db w) id) as [u|] eqn:Hu.
    + destruct (p u) eqn:Hp; simplify_eq; [right; right; eauto 10|].
      right; left. split_and!; [done..|]. intros; congruence.
    + simplify_eq. right; left. split_and!; [done..|]. intros; congruence.
Qed.

Lemma update_token_cases id p f w r w' :
  update_token id p f w = (r, w') ->
  (r = Err ErrDB /\ ledger w' = ledger w) \/
  (r = Ok 0 /\ ledger w' = ledger w /\ forall t, visible_token w.(w_db) id = Some t -> p t = false) \/
  (r = Ok 1 /\ exists t, visible_token w.(w_db) id = Some t /\ p t = true /\
     ledger w' = (set_tokens (insert id (f t)) w.(w_db), w.(w_batch), w.(w_cfg))).
Proof.
  intros H. unfold update_token, bind, stmt, fault_point, modify_db, modify, gets, ret in H.
  destruct (w_faults w) as [|[] fs] eqn:Hf; simpl in H.
  - destruct (visible_token (w_db w) id) as [t|] eqn:Hu.
    + destruct (p t) eqn:Hp; simplify_eq; [right; right; eauto 10|].
      right; left. split_and!; [done..|]. intros; congruence.
    + simplify_eq. right; left. split_and!; [done..|]. intros; congruence.
  - simplify_eq. by left.
  - destruct (visible_token (w_db w) id) as [t|] eqn:Hu.
    + destruct (p t) eqn:Hp; simplify_eq; [right; right; eauto 10|].
      right; left. split_and!; [done..|]. intros; congruence.
    + simplify_eq. right; left. split_and!; [done..|]. intros; congruence.
Qed.

(** The quota column after [quota := quota + delta] on one row. *)
Lemma user_column_shift (g : User -> Z) d id u f k id' :
  visible_user d id = Some u -> u_Deleted (f u) = u_Deleted u -> g (f u) = g u + k ->
  user_column g (set_users (insert id (f u)) d) id' = user_column g d id' + if decide (id = id') then k else 0.
Proof.
  intros Hu Hd Hf. unfold user_column. rewrite visible_user_insert by done.
  case_decide; subst; [rewrite Hu, Hf|]; lia.
Qed.

Lemma token_column_shift (g : Token -> Z) d id t f k id' :
  visible_token d id = Some t -> t_Deleted (f t) = t_Deleted t -> g (f t) = g t + k ->
  token_column g (set_tokens (insert id (f t)) d) id' = token_column g d id' + if decide (id = id') then k else 0.
Proof.
  intros Hu Hd Hf. unfold token_column. rewrite visible_token_insert by done.
  case_decide; subst; [rewrite Hu, Hf|]; lia.
Qed.

Lemma wallet_ledger w w' id : ledger w = ledger w' -> wallet w id = wallet w' id.
Proof. intros [= H1 H2 H3]. unfold wallet. by rewrite H1, H2. Qed.
Lemma token_remain_ledger w w' id : ledger w = ledger w' -> token_remain w id = token_remain w' id.
Proof. intros [= H1 H2 H3]. unfold token_remain. by rewrite H1, H2. Qed.

(** ** Saturating accumulation *)

Lemma batch_sum_saturates old value :
  in_i64 old -> in_i64 value -> batch_sum old value = Z.max MinInt64 (Z.min MaxInt64 (old + value)).
Proof.
  unfold in_i64, batch_sum. intros Ho Hv.
  assert (MaxInt64 = 2 ^ 63 - 1) as EM by done. assert (MinInt64 = - 2 ^ 63) as Em by done.
  destruct (Z.lt_ge_cases MaxInt64 (old + value)).
  { rewrite (wrap64_over (old + value)) by lia.
    destruct (Z.ltb_spec 0 value); [|lia]. destruct (Z.ltb_spec (old + value - 2 ^ 64) old); [|lia]. simpl. lia. }
  destruct (Z.lt_ge_cases (old + value) MinInt64).
  { rewrite (wrap64_under (old + value)) by lia.
    destruct (Z.ltb_spec 0 value); [lia|]. destruct (Z.ltb_spec value 0); [|lia].
    destruct (Z.ltb_spec old (old + value + 2 ^ 64)); [|lia]. simpl. lia. }
  rewrite wrap64_id by (unfold in_i64; lia).
  destruct (Z.ltb_spec 0 value), (Z.ltb_spec (old + value) old), (Z.ltb_spec value 0), (Z.ltb_spec old (old + value));
    simpl; lia.
Qed.

Lemma add_record_lookup id value store id' :
  in_i64 (redis_int store id + value) -> in_i64 (redis_int store id) -> in_i64 value ->
  redis_int (add_record id value store) id' = redis_int store id' + if decide (id = id') then value else 0.
Proof.
  intros H1 H2 H3. unfold add_record. destruct (store !! id) as [old|] eqn:Hs.
  - assert (redis_int store id = old) as E by (unfold redis_int; by rewrite Hs). rewrite E in *.
    rewrite batch_sum_saturates by done. unfold in_i64 in H1.
    rewrite redis_int_insert. case_decide; subst; lia.
  - assert (redis_int store id = 0) as E by (unfold redis_int; by rewrite Hs).
    rewrite redis_int_insert. case_decide; subst; lia.
Qed.

(** ** Reservation *)

Lemma quiet_ledger {A} (c : MW A) w r w' :
  preserves (ledger_is (ledger w)) c -> c w = (r, w') -> ledger w' = ledger w.
Proof. intros H E. specialize (H w eq_refl). rewrite E in H. exact H. Qed.

Section quiet_quota.
Context (I : World -> Prop) `{!LedgerPred I}.

Lemma cacheApplyUserQuotaDelta_quiet id d : preserves I (cacheApplyUserQuotaDelta id d).
Proof using All. unfold cacheApplyUserQuotaDelta. solve_preserves. Qed.
Lemma cacheTryReserveUserQuota_quiet id d : preserves I (cacheTryReserveUserQuota id d).
Proof using All. unfold cacheTryReserveUserQuota. solve_preserves. Qed.
Lemma token_script_quiet f key : preserves I (token_script f key).
Proof using All. unfold token_script. solve_preserves. Qed.
Lemma cacheInitToken_quiet t : preserves I (cacheInitToken t).
Proof using All. unfold cacheInitToken. solve_preserves. Qed.
Lemma cacheGetTokenByKey_quiet k : preserves I (cacheGetTokenByKey k).
Proof using All. unfold cacheGetTokenByKey. solve_preserves. Qed.
Lemma GetTokenByKey_quiet k b : preserves I (GetTokenByKey k b).
Proof using All.
  pose proof cacheInitToken_quiet. pose proof cacheGetTokenByKey_quiet.
  unfold GetTokenByKey. solve_preserves.
Qed.
Lemma reserve_with_hydration_quiet {A} t (h : MW A) :
  preserves I t -> preserves I h -> preserves I (reserve_with_hydration t h).
Proof using All. intros. unfold reserve_with_hydration. solve_preserves. Qed.
Lemma GetUserQuota_quiet id b : preserves I (GetUserQuota id b).
Proof using All. unfold GetUserQuota, getUserQuotaCache. solve_preserves. Qed.
Lemma cacheIncrUserQuota_quiet id d : preserves I (cacheIncrUserQuota id d).
Proof using All. pose proof cacheApplyUserQuotaDelta_quiet. unfold cacheIncrUserQuota. solve_preserves. Qed.
Lemma syncCreditUserQuotaCache_quiet id q : preserves I (syncCreditUserQuotaCache id q).
Proof using All. pose proof cacheIncrUserQuota_quiet. unfold syncCreditUserQuotaCache. solve_preserves. Qed.
End quiet_quota.
#[export] Hint Resolve cacheApplyUserQuotaDelta_quiet cacheTryReserveUserQuota_quiet token_script_quiet
  cacheInitToken_quiet cacheGetTokenByKey_quiet GetTokenByKey_quiet reserve_with_hydration_quiet
  GetUserQuota_quiet cacheIncrUserQuota_quiet syncCreditUserQuotaCache_quiet : preserve.

(** [shift id k w w']: every wallet is unchanged but that of [id], which moved by [k]. *)
Definition wallet_shift (id k : Z) (w w' : World) : Prop :=
  forall id', wallet w' id' = wallet w id' + if decide (id = id') then k else 0.
Definition token_shift (id k : Z) (w w' : World) : Prop :=
  forall id', token_remain w' id' = token_remain w id' + if decide (id = id') then k else 0.

Lemma wallet_shift_0 id w w' : ledger w' = ledger w -> wallet_shift id 0 w w'.
Proof. intros H id'. rewrite (wallet_ledger w' w) by done. case_decide; lia. Qed.
Lemma token_shift_0 id w w' : ledger w' = ledger w -> token_shift id 0 w w'.
Proof. intros H id'. rewrite (token_remain_ledger w' w) by done. case_decide; lia. Qed.
Lemma wallet_shift_ledger id k w1 w2 w1' w2' :
  wallet_shift id k w1 w2 -> ledger w1' = ledger w1 -> ledger w2' = ledger w2 -> wallet_shift id k w1' w2'.
Proof. intros H E1 E2 id'. rewrite (wallet_ledger w2' w2), (wallet_ledger w1' w1) by done. apply H. Qed.
Lemma token_shift_ledger id k w1 w2 w1' w2' :
  token_shift id k w1 w2 -> ledger w1' = ledger w1 -> ledger w2' = ledger w2 -> token_shift id k w1' w2'.
Proof. intros H E1 E2 id'. rewrite (token_remain_ledger w2' w2), (token_remain_ledger w1' w1) by done. apply H. Qed.
Lemma wallet_shift_trans id k1 k2 w1 w2 w3 :
  wallet_shift id k1 w1 w2 -> wallet_shift id k2 w2 w3 -> wallet_shift id (k1 + k2) w1 w3.
Proof. intros H1 H2 id'. rewrite H2, H1. case_decide; lia. Qed.
Lemma token_shift_trans id k1 k2 w1 w2 w3 :
  token_shift id k1 w1 w2 -> token_shift id k2 w2 w3 -> token_shift id (k1 + k2) w1 w3.
Proof. intros H1 H2 id'. rewrite H2, H1. case_decide; lia. Qed.

(** The batch store of a key has room for a delta. *)
Definition batch_room (store : gmap Z Z) (id delta : Z) : Prop :=
  in_i64 (redis_int store id) /\ in_i64 delta /\ in_i64 (redis_int store id + delta).

Lemma addNewRecord_user id k w :
  batch_room w.(w_batch).(bs_UserQuota) id k ->
  wallet_shift id k w (exec (addNewRecord BatchUpdateTypeUserQuota id k) w) /\
  forall t, token_shift t 0 w (exec (addNewRecord BatchUpdateTypeUserQuota id k) w).
Proof.
  intros (H1 & H2 & H3). split.
  - intros id'. unfold exec, wallet. simpl. rewrite add_record_lookup by done. lia.
  - intros t id'. unfold exec, token_remain. simpl. case_decide; lia.
Qed.

Lemma addNewRecord_token id k w :
  batch_room w.(w_batch).(bs_TokenQuota) id k ->
  token_shift id k w (exec (addNewRecord BatchUpdateTypeTokenQuota id k) w) /\
  forall u, wallet_shift u 0 w (exec (addNewRecord BatchUpdateTypeTokenQuota id k) w).
Proof.
  intros (H1 & H2 & H3). split.
  - intros id'. unfold exec, token_remain. simpl. rewrite add_record_lookup by done. lia.
  - intros t id'. unfold exec, wallet. simpl. case_decide; lia.
Qed.

(** An UPDATE that matched one row moves one balance and nothing else. *)
Lemma set_users_shift id u u' k w w' :
  visible_user w.(w_db) id = Some u -> u_Deleted u' = u_Deleted u -> u_Quota u' = u_Quota u + k ->
  ledger w' = (set_users (insert id u') w.(w_db), w.(w_batch), w.(w_cfg)) ->
  wallet_shift id k w w' /\ forall t, token_shift t 0 w w'.
Proof.
  intros Hu Hd Hk [= E1 E2 E3]. split.
  - intros id'. unfold wallet. rewrite E1, E2, (user_column_shift u_Quota _ id u (fun _ => u') k) by done. lia.
  - intros t id'. unfold token_remain. rewrite E1, E2. unfold token_column, visible_token. simpl. case_decide; lia.
Qed.

Lemma set_tokens_shift id t t' k w w' :
  visible_token w.(w_db) id = Some t -> t_Deleted t' = t_Deleted t -> t_RemainQuota t' = t_RemainQuota t + k ->
  ledger w' = (set_tokens (insert id t') w.(w_db), w.(w_batch), w.(w_cfg)) ->
  token_shift id k w w' /\ forall u, wallet_shift u 0 w w'.
Proof.
  intros Hu Hd Hk [= E1 E2 E3]. split.
  - intros id'. unfold token_remain. rewrite E1, E2, (token_column_shift t_RemainQuota _ id t (fun _ => t') k) by done. lia.
  - intros u id'. unfold wallet. rewrite E1, E2. unfold user_column, visible_user. simpl. case_decide; lia.
Qed.
