(* ===== verification/Reserve.v ===== *)
(** * Reservations, deferred writes and the flush (theorems on QuotaStore)

    A reservation either takes exactly its amount from exactly one balance or
    leaves the ledger alone, whatever call of it fails; without Redis it never
    overdraws; the periodic flush moves the queued deltas into the rows and
    changes no balance. *)

From stdpp Require Import base tactics numbers list gmap strings.
From Stdlib Require Import ZArith Lia.
From S2P Require Import Prelude Float64 QuotaMath World UserCache QuotaStore.
Open Scope Z_scope.

(** A movement of one wallet, and of one token balance. *)
Definition moves_wallet (id k : Z) (w w' : World) : Prop :=
  wallet_shift id k w w' /\ forall t, token_shift t 0 w w'.
Definition moves_token (id k : Z) (w w' : World) : Prop :=
  token_shift id k w w' /\ forall u, wallet_shift u 0 w w'.

(** The outcome of a reservation: all or nothing. *)
Definition reserve_outcome (moved : World -> World -> Prop) (r : result error bool) (w w' : World) : Prop :=
  match r with
  | Ok true => moved w w'
  | _ => ledger w' = ledger w
  end.
(** The outcome of a mutation. *)
Definition write_outcome {A} (moved : World -> World -> Prop) (r : result error A) (w w' : World) : Prop :=
  match r with
  | Ok _ => moved w w'
  | Err _ => ledger w' = ledger w
  end.

Lemma moves_wallet_0 id w w' : ledger w' = ledger w -> moves_wallet id 0 w w'.
Proof. intros H. split; intros; [by apply wallet_shift_0|by apply token_shift_0]. Qed.
Lemma moves_token_0 id w w' : ledger w' = ledger w -> moves_token id 0 w w'.
Proof. intros H. split; intros; [by apply token_shift_0|by apply wallet_shift_0]. Qed.
Lemma moves_wallet_ledger id k w1 w2 w1' w2' :
  moves_wallet id k w1 w2 -> ledger w1' = ledger w1 -> ledger w2' = ledger w2 -> moves_wallet id k w1' w2'.
Proof.
  intros [H1 H2] E1 E2. split; intros; [by eapply wallet_shift_ledger|by eapply token_shift_ledger].
Qed.
Lemma moves_token_ledger id k w1 w2 w1' w2' :
  moves_token id k w1 w2 -> ledger w1' = ledger w1 -> ledger w2' = ledger w2 -> moves_token id k w1' w2'.
Proof.
  intros [H1 H2] E1 E2. split; intros; [by eapply token_shift_ledger|by eapply wallet_shift_ledger].
Qed.
Lemma moves_wallet_trans id k1 k2 w1 w2 w3 :
  moves_wallet id k1 w1 w2 -> moves_wallet id k2 w2 w3 -> moves_wallet id (k1 + k2) w1 w3.
Proof.
  intros [H1 H2] [H3 H4]. split; [by eapply wallet_shift_trans|].
  intros t. exact (token_shift_trans t 0 0 w1 w2 w3 (H2 t) (H4 t)).
Qed.
Lemma moves_token_trans id k1 k2 w1 w2 w3 :
  moves_token id k1 w1 w2 -> moves_token id k2 w2 w3 -> moves_token id (k1 + k2) w1 w3.
Proof.
  intros [H1 H2] [H3 H4]. split; [by eapply token_shift_trans|].
  intros t. exact (wallet_shift_trans t 0 0 w1 w2 w3 (H2 t) (H4 t)).
Qed.

(** ** The single writes *)

(** The balance moved by a matched row. *)
Ltac shift_row :=
  (eapply set_users_shift || eapply set_tokens_shift); [eassumption| | |eassumption]; simpl; [done|lia].
Ltac same_ledger := unfold ledger in *; congruence.

(** The three outcomes of an UPDATE that was run. *)
Ltac update_cases :=
  let Hc := fresh "Hu" in
  match goal with
  | H : update_user _ _ _ _ = (_, _) |- _ => apply update_user_cases in H as [(Hc & ?)|[(Hc & ? & ?)|(Hc & ? & ? & ? & ?)]]
  | H : update_token _ _ _ _ = (_, _) |- _ => apply update_token_cases in H as [(Hc & ?)|[(Hc & ? & ?)|(Hc & ? & ? & ? & ?)]]
  end; inv_eq Hc; simpl in *; try discriminate; monad_cases; simpl.

Lemma persistUserQuotaDelta_outcome id k w r w' :
  persistUserQuotaDelta id k w = (r, w') -> batch_room w.(w_batch).(bs_UserQuota) id k ->
  write_outcome (moves_wallet id k) r w w'.
Proof.
  intros H Hr. unfold persistUserQuotaDelta in H. monad_cases.
  - pose proof (addNewRecord_user id k _ Hr) as [H1 H2]. rewrite (exec_eq _ _ _ _ H) in H1, H2.
    unfold addNewRecord, modify in H. simplify_eq. by split.
  - update_cases. shift_row.
  - update_cases; same_ledger.
  - update_cases; same_ledger.
Qed.

Lemma persistTokenQuotaDelta_outcome id k w r w' :
  persistTokenQuotaDelta id k w = (r, w') -> batch_room w.(w_batch).(bs_TokenQuota) id k ->
  write_outcome (moves_token id k) r w w'.
Proof.
  intros H Hr. unfold persistTokenQuotaDelta in H. monad_cases.
  - pose proof (addNewRecord_token id k _ Hr) as [H1 H2]. rewrite (exec_eq _ _ _ _ H) in H1, H2.
    unfold addNewRecord, modify in H. simplify_eq. by split.
  - update_cases. shift_row.
  - update_cases; same_ledger.
  - update_cases; same_ledger.
Qed.

Lemma reserveUserQuotaDB_outcome id q w r w' :
  reserveUserQuotaDB id q w = (r, w') ->
  reserve_outcome (moves_wallet id (- q)) r w w' /\
  (r = Ok true -> q <= user_column u_Quota w.(w_db) id) /\
  (r = Ok false -> forall u, visible_user w.(w_db) id = Some u -> u.(u_Quota) < q).
Proof.
  intros H. unfold reserveUserQuotaDB in H. monad_cases; update_cases; split_and!; try same_ledger; try done.
  - intros _ u Hu. match goal with Hp : forall u, _ -> _ |- _ => specialize (Hp u Hu) end. lia.
  - shift_row.
  - intros _. unfold user_column. case_match; simplify_eq; lia.
Qed.

Lemma reserveTokenQuotaDB_outcome id q w r w' :
  reserveTokenQuotaDB id q w = (r, w') ->
  reserve_outcome (moves_token id (- q)) r w w' /\
  (r = Ok true -> q <= token_column t_RemainQuota w.(w_db) id) /\
  (r = Ok false -> forall t, visible_token w.(w_db) id = Some t -> t.(t_RemainQuota) < q).
Proof.
  intros H. unfold reserveTokenQuotaDB in H. monad_cases; update_cases; split_and!; try same_ledger; try done.
  - intros _ t Ht. match goal with Hp : forall t, _ -> _ |- _ => specialize (Hp t Ht) end. lia.
  - shift_row.
  - intros _. unfold token_column. case_match; simplify_eq; lia.
Qed.

(** ** Reservations *)

Lemma batch_room_ledger w w' id k :
  ledger w' = ledger w -> batch_room w.(w_batch).(bs_UserQuota) id k -> batch_room w'.(w_batch).(bs_UserQuota) id k.
Proof. intros [= _ E _]. by rewrite E. Qed.
Lemma batch_room_token_ledger w w' id k :
  ledger w' = ledger w -> batch_room w.(w_batch).(bs_TokenQuota) id k -> batch_room w'.(w_batch).(bs_TokenQuota) id k.
Proof. intros [= _ E _]. by rewrite E. Qed.

(** Runs a computation that leaves the ledger alone. *)
Ltac quiet H := apply quiet_ledger in H; [|solve [eauto with preserve]].

Lemma reserve_outcome_ledger id k r w w1 w' :
  ledger w1 = ledger w -> reserve_outcome (moves_wallet id k) r w1 w' -> reserve_outcome (moves_wallet id k) r w w'.
Proof.
  intros E. unfold reserve_outcome. repeat case_match; [|congruence..].
  intros. by eapply moves_wallet_ledger.
Qed.
Lemma reserve_outcome_token_ledger id k r w w1 w' :
  ledger w1 = ledger w -> reserve_outcome (moves_token id k) r w1 w' -> reserve_outcome (moves_token id k) r w w'.
Proof.
  intros E. unfold reserve_outcome. repeat case_match; [|congruence..].
  intros. by eapply moves_token_ledger.
Qed.

Lemma wrap64_opp id q store : batch_room store id (- q) -> wrap64 (- q) = - q.
Proof. intros (_ & H & _). by apply wrap64_id. Qed.

(** A wallet reservation under any fault script and any cache contents: on
    success exactly [quota] has left this wallet, otherwise nothing moved. *)
Lemma TryReserveUserQuota_moves id quota w r w' :
  TryReserveUserQuota id quota w = (r, w') -> batch_room w.(w_batch).(bs_UserQuota) id (- quota) ->
  reserve_outcome (moves_wallet id (- quota)) r w w'.
Proof.
  intros H Hr. unfold TryReserveUserQuota in H. monad_cases; [done|..].
  - assert (quota = 0) as -> by lia. by apply moves_wallet_0.
  - by apply reserveUserQuotaDB_outcome in H as [H _].
  - quiet Hc.
    assert (reserveUserQuotaDB id quota w = (r, w') -> reserve_outcome (moves_wallet id (- quota)) r w0 w') as Hdb.
    { intros Hd. apply reserveUserQuotaDB_outcome in Hd as [Hd _]. by eapply reserve_outcome_ledger. }
    destruct a as [[]|]; [| |by apply Hdb..].
    { monad_cases. simpl. same_ledger. }
    rewrite (wrap64_opp _ _ _ Hr) in H. monad_cases.
    apply persistUserQuotaDelta_outcome in Hc0; [|by eapply batch_room_ledger].
    destruct r0 as [[]|]; monad_cases; simpl in *.
    + by eapply moves_wallet_ledger.
    + quiet Hc1. same_ledger.
  - quiet H. simpl. same_ledger.
Qed.

(** ** Direct increments and decrements *)

Definition user_live (w : World) (id : Z) : Prop := is_Some (visible_user w.(w_db) id).
Definition token_live (w : World) (id : Z) : Prop := is_Some (visible_token w.(w_db) id).

Lemma user_live_ledger w w' id : ledger w' = ledger w -> user_live w id -> user_live w' id.
Proof. unfold user_live. intros [= E _ _]. by rewrite E. Qed.
Lemma token_live_ledger w w' id : ledger w' = ledger w -> token_live w id -> token_live w' id.
Proof. unfold token_live. intros [= E _ _]. by rewrite E. Qed.

Lemma go_ledger j w r w' : go j w = (r, w') -> r = Ok tt /\ ledger w' = ledger w.
Proof. unfold go, modify. intros. by simplify_eq. Qed.

Lemma addNewRecord_user_moves id k w r w' :
  addNewRecord BatchUpdateTypeUserQuota id k w = (r, w') -> batch_room w.(w_batch).(bs_UserQuota) id k ->
  r = Ok tt /\ moves_wallet id k w w'.
Proof.
  intros H Hr. pose proof (addNewRecord_user id k w Hr) as [H1 H2]. rewrite (exec_eq _ _ _ _ H) in H1, H2.
  unfold addNewRecord, modify in H. simplify_eq. by split.
Qed.
Lemma addNewRecord_token_moves id k w r w' :
  addNewRecord BatchUpdateTypeTokenQuota id k w = (r, w') -> batch_room w.(w_batch).(bs_TokenQuota) id k ->
  r = Ok tt /\ moves_token id k w w'.
Proof.
  intros H Hr. pose proof (addNewRecord_token id k w Hr) as [H1 H2]. rewrite (exec_eq _ _ _ _ H) in H1, H2.
  unfold addNewRecord, modify in H. simplify_eq. by split.
Qed.

(** A live row is matched by an unconditional UPDATE. *)
Ltac live_row :=
  match goal with
  | Hl : user_live _ _, Hp : forall u, _ -> _ |- _ => destruct Hl as [? Hl]; by specialize (Hp _ Hl)
  | Hl : token_live _ _, Hp : forall u, _ -> _ |- _ => destruct Hl as [? Hl]; by specialize (Hp _ Hl)
  end.

Lemma increaseUserQuota_outcome id q w r w' :
  increaseUserQuota id q w = (r, w') -> write_outcome (moves_wallet id q) r w w' /\
  (in_i64 (MaxWalletQuota - q) -> r = Ok tt -> user_column u_Quota w'.(w_db) id <= MaxWalletQuota).
Proof.
  intros H. unfold increaseUserQuota in H. monad_cases.
  - update_cases. split; [shift_row|]. intros Hi _.
    match goal with H : ledger _ = _, Hv : visible_user _ _ = Some ?u |- _ =>
      injection H as E1 _ _; rewrite E1; unfold user_column;
      rewrite (visible_user_insert _ _ u (set_u_Quota (fun x => x + q))) by done end.
    rewrite decide_True by done. simpl. rewrite wrap64_id in * by done. lia.
  - quiet Hc0. update_cases. split; [simpl|done]. same_ledger.
  - quiet Hc0. update_cases. split; [simpl|done]. same_ledger.
  - quiet H. update_cases. split; [simpl|done]. same_ledger.
  - update_cases. split; [simpl|done]. same_ledger.
Qed.

Lemma decreaseUserQuota_outcome id q w r w' :
  decreaseUserQuota id q w = (r, w') -> user_live w id -> write_outcome (moves_wallet id (- q)) r w w'.
Proof.
  intros H Hl. unfold decreaseUserQuota in H. monad_cases; update_cases; [live_row|shift_row|done].
Qed.
Lemma increaseTokenQuota_outcome id q w r w' :
  increaseTokenQuota id q w = (r, w') -> token_live w id -> write_outcome (moves_token id q) r w w'.
Proof.
  intros H Hl. unfold increaseTokenQuota in H. monad_cases; update_cases; [live_row|shift_row|done].
Qed.
Lemma decreaseTokenQuota_outcome id q w r w' :
  decreaseTokenQuota id q w = (r, w') -> token_live w id -> write_outcome (moves_token id (- q)) r w w'.
Proof.
  intros H Hl. unfold decreaseTokenQuota in H. monad_cases; update_cases; [live_row|shift_row|done].
Qed.

Lemma write_outcome_wallet_ledger {A} id k (r : result error A) w w1 w' :
  ledger w1 = ledger w -> write_outcome (moves_wallet id k) r w1 w' -> write_outcome (moves_wallet id k) r w w'.
Proof. intros E. unfold write_outcome. destruct r; [|congruence]. intros. by eapply moves_wallet_ledger. Qed.
Lemma write_outcome_token_ledger {A} id k (r : result error A) w w1 w' :
  ledger w1 = ledger w -> write_outcome (moves_token id k) r w1 w' -> write_outcome (moves_token id k) r w w'.
Proof. intros E. unfold write_outcome. destruct r; [|congruence]. intros. by eapply moves_token_ledger. Qed.

Lemma IncreaseUserQuota_outcome id q db w r w' :
  IncreaseUserQuota id q db w = (r, w') -> batch_room w.(w_batch).(bs_UserQuota) id q ->
  write_outcome (moves_wallet id q) r w w'.
Proof.
  intros H Hr. unfold IncreaseUserQuota in H. monad_cases; [done|].
  destruct (ValidateWalletQuota q); [|by monad_cases]. monad_cases.
  - apply go_ledger in H as [-> H]. apply addNewRecord_user_moves in Hc as [_ Hc]; [|done].
    by eapply moves_wallet_ledger.
  - by apply addNewRecord_user_moves in H as [[=] _].
  - apply go_ledger in H as [-> H]. apply increaseUserQuota_outcome in Hc as [Hc _].
    by eapply moves_wallet_ledger.
  - by apply increaseUserQuota_outcome in H as [H _].
Qed.

Lemma DecreaseUserQuota_outcome id q db w r w' :
  DecreaseUserQuota id q db w = (r, w') -> batch_room w.(w_batch).(bs_UserQuota) id (- q) -> user_live w id ->
  write_outcome (moves_wallet id (- q)) r w w'.
Proof.
  intros H Hr Hl. unfold DecreaseUserQuota in H. monad_cases; [done|..].
  - apply go_ledger in Hc as [_ Hc]. rewrite (wrap64_opp _ _ _ Hr) in H.
    apply addNewRecord_user_moves in H as [-> H]; [|by eapply batch_room_ledger]. by eapply moves_wallet_ledger.
  - apply go_ledger in Hc as [_ Hc]. apply decreaseUserQuota_outcome in H; [|by eapply user_live_ledger].
    by eapply write_outcome_wallet_ledger.
  - by apply go_ledger in H as [[=] _].
Qed.

Ltac go_steps :=
  repeat match goal with H : go _ _ = (_, _) |- _ => apply go_ledger in H as [? H]; try discriminate end.

Lemma IncreaseTokenQuota_outcome id key q w r w' :
  IncreaseTokenQuota id key q w = (r, w') -> batch_room w.(w_batch).(bs_TokenQuota) id q -> token_live w id ->
  write_outcome (moves_token id q) r w w'.
Proof.
  intros H Hr Hl. unfold IncreaseTokenQuota in H. monad_cases; go_steps; try done.
  all: eapply write_outcome_token_ledger; [eassumption||done|].
  all: first [apply addNewRecord_token_moves in H as [-> H]; [done|by eapply batch_room_token_ledger]
             |apply increaseTokenQuota_outcome in H; [done|by eapply token_live_ledger]].
Qed.

Lemma DecreaseTokenQuota_outcome id key q w r w' :
  DecreaseTokenQuota id key q w = (r, w') -> batch_room w.(w_batch).(bs_TokenQuota) id (- q) -> token_live w id ->
  write_outcome (moves_token id (- q)) r w w'.
Proof.
  intros H Hr Hl. unfold DecreaseTokenQuota in H. rewrite (wrap64_opp _ _ _ Hr) in H. monad_cases; go_steps; try done.
  all: eapply write_outcome_token_ledger; [eassumption||done|].
  all: first [apply addNewRecord_token_moves in H as [-> H]; [done|by eapply batch_room_token_ledger]
             |apply decreaseTokenQuota_outcome in H; [done|by eapply token_live_ledger]].
Qed.

Lemma TryReserveTokenQuota_moves id key quota unlimited w r w' :
  TryReserveTokenQuota id key quota unlimited w = (r, w') ->
  batch_room w.(w_batch).(bs_TokenQuota) id (- quota) -> (unlimited = true -> token_live w id) ->
  reserve_outcome (moves_token id (- quota)) r w w'.
Proof.
  intros H Hr Hl. unfold TryReserveTokenQuota in H. monad_cases; [done|..].
  - assert (quota = 0) as -> by lia. by apply moves_token_0.
  - apply DecreaseTokenQuota_outcome in Hc; auto.
  - apply DecreaseTokenQuota_outcome in H; auto.
  - by apply reserveTokenQuotaDB_outcome in H as [H _].
  - quiet Hc.
    assert (reserveTokenQuotaDB id quota w = (r, w') -> reserve_outcome (moves_token id (- quota)) r w0 w') as Hdb.
    { intros Hd. apply reserveTokenQuotaDB_outcome in Hd as [Hd _]. by eapply reserve_outcome_token_ledger. }
    destruct a as [[]|]; [| |by apply Hdb..].
    { monad_cases. simpl. same_ledger. }
    rewrite (wrap64_opp _ _ _ Hr) in H. monad_cases.
    apply persistTokenQuotaDelta_outcome in Hc0; [|by eapply batch_room_token_ledger].
    destruct r0 as [[]|]; monad_cases; simpl in *.
    + by eapply moves_token_ledger.
    + quiet Hc1. same_ledger.
  - quiet H. simpl. same_ledger.
Qed.

(** ** Fault-free evaluation *)

Lemma stmt_ff w : w.(w_faults) = [] -> stmt w = (Ok tt, w).
Proof. unfold stmt, fault_point. by intros ->. Qed.
Lemma redis_cmd_ff w : w.(w_faults) = [] -> redis_cmd w = (Ok tt, w).
Proof. unfold redis_cmd, fault_point. by intros ->. Qed.
Lemma update_user_ff id p f w :
  w.(w_faults) = [] ->
  update_user id p f w =
    match visible_user w.(w_db) id with
    | Some u => if p u then (Ok 1, set_w_db (set_users (insert id (f u))) w) else (Ok 0, w)
    | None => (Ok 0, w)
    end.
Proof.
  intros Hf. unfold update_user, bind. rewrite stmt_ff by done. simpl.
  destruct (visible_user _ _) as [u|]; [|done]. by destruct (p u).
Qed.
Lemma update_token_ff id p f w :
  w.(w_faults) = [] ->
  update_token id p f w =
    match visible_token w.(w_db) id with
    | Some t => if p t then (Ok 1, set_w_db (set_tokens (insert id (f t))) w) else (Ok 0, w)
    | None => (Ok 0, w)
    end.
Proof.
  intros Hf. unfold update_token, bind. rewrite stmt_ff by done. simpl.
  destruct (visible_token _ _) as [u|]; [|done]. by destruct (p u).
Qed.

(** The balance Redis holds for a user. *)
Definition cached_quota (w : World) (id : Z) : option Z := snd <$> quota_field w.(w_redis) id.

Lemma quota_field_set r id h q f :
  quota_field r id = Some (h, q) ->
  quota_field (set_user_hash (insert id (set_h_Quota (fun _ => Some f) h)) r) id =
    Some (set_h_Quota (fun _ => Some f) h, f).
Proof.
  unfold quota_field. destruct (user_hash r !! id) as [h'|]; [|done]. simpl.
  rewrite lookup_insert. case_decide; [|done]. simpl.
  repeat case_match; intros; simplify_eq; simpl in *; congruence.
Qed.

(** The balance in Redis across a reservation that finds it cached, whatever call
    fails: granted, it is debited with the ledger, unless the script failed and the row
    decided; refused, it stays; on an error it is as before, unless the compensating
    command, the third call, failed as well. *)
Definition cached_outcome (quota q : Z) (w : World) (r : result error bool) (left : option Z) : Prop :=
  match r with
  | Ok true => (quota <= q /\ left = Some (q - quota)) \/ (w.(w_faults) !! 0%nat = Some true /\ left = Some q)
  | Ok false => (q < quota \/ w.(w_faults) !! 0%nat = Some true) /\ left = Some q
  | Err _ => left = Some q \/ (w.(w_faults) !! 2%nat = Some true /\ left = Some (q - quota))
  end.

Lemma fault_point_cases e w :
  (fault_point e w = (Err e, set_w_faults tail w) /\ w.(w_faults) !! 0%nat = Some true) \/
  (fault_point e w = (Ok tt, set_w_faults tail w)).
Proof. unfold fault_point. destruct w as [? ? ? ? ? ? ? ? [|[] ?]]; simpl; auto. Qed.

Lemma update_user_redis id p f w r w' : update_user id p f w = (r, w') -> w'.(w_redis) = w.(w_redis) /\ w'.(w_faults) = tail w.(w_faults).
Proof.
  unfold update_user, bind, stmt. destruct (fault_point_cases ErrDB w) as [[-> _]| ->]; simpl; [by intros [= _ <-]|].
  destruct (visible_user _ _) as [u|]; [destruct (p u)|]; by intros [= _ <-].
Qed.

(** The compensating command. *)
Lemma cacheApply_cached id d w h q r w' :
  cacheApplyUserQuotaDelta id d w = (r, w') -> quota_field w.(w_redis) id = Some (h, q) ->
  cached_quota w' id = Some (q + d) \/ (w.(w_faults) !! 0%nat = Some true /\ cached_quota w' id = Some q).
Proof.
  intros H Hqf. unfold cacheApplyUserQuotaDelta, bind, redis_cmd, gets in H. unfold cached_quota.
  destruct (fault_point_cases ErrRedis w) as [[E Hf]|E]; rewrite E in H; simpl in H.
  - injection H as <- <-. simpl. rewrite Hqf. auto.
  - unfold userQuotaDeltaScript in H. rewrite Hqf in H. injection H as <- <-. simpl.
    erewrite quota_field_set by done. auto.
Qed.

Lemma TryReserveUserQuota_cache id quota w r w' q :
  TryReserveUserQuota id quota w = (r, w') -> RedisEnabled w.(w_cfg) = true -> 0 < quota ->
  cached_quota w id = Some q -> cached_outcome quota q w r (cached_quota w' id).
Proof.
  intros H Hen Hq Hc. unfold cached_quota in Hc. destruct (quota_field _ _) as [[h q']|] eqn:Hqf; simplify_eq/=.
  unfold TryReserveUserQuota in H. replace (quota <? 0) with false in H by lia. replace (quota =? 0) with false in H by lia.
  unfold reserve_with_hydration, cacheTryReserveUserQuota, bind at 1, cfg, gets in H. rewrite Hen in H. simpl in H.
  unfold bind, catch, gets, redis_cmd in H. destruct (fault_point_cases ErrRedis w) as [[E Hf]|E]; rewrite E in H; simpl in H.
  { unfold reserveUserQuotaDB, bind in H. destruct (update_user _ _ _ _) as [[n|e] w1] eqn:Hu in H; apply update_user_redis in Hu as [Hu _];
      injection H as <- <-; unfold cached_quota; rewrite Hu; simpl; rewrite Hqf; simpl; [|by left]. destruct (n =? 1); simpl; auto. }
  unfold userQuotaReserveScript in H. rewrite Hqf in H. destruct (Z.ltb_spec q quota); simpl in H.
  { injection H as <- <-. unfold cached_quota. simpl. rewrite Hqf. simpl. auto. }
  set (w0 := set_w_redis _ _) in H.
  assert (quota_field w0.(w_redis) id = Some (set_h_Quota (fun _ => Some (q - quota)) h, q - quota)) as Hqf0
    by (by apply (quota_field_set _ _ _ q)).
  unfold persistUserQuotaDelta, bind, cfg, gets in H. simpl in H. destruct (BatchUpdateEnabled _); simpl in H.
  { injection H as <- <-. unfold cached_quota. cbn [w_redis set_w_batch]. fold w0. rewrite Hqf0. simpl. auto. }
  destruct (update_user _ _ _ w0) as [rn w1] eqn:Hu in H. apply update_user_redis in Hu as [Er Ef]. rewrite <- Er in Hqf0.
  assert (r = Ok true /\ w' = w1 \/ exists e r1, r = Err e /\ cacheApplyUserQuotaDelta id quota w1 = (r1, w')) as [[-> ->]|(e & r1 & -> & H1)].
  { destruct rn as [n|e]; [destruct (n =? 1)|]; simpl in H; [injection H as <- <-; by left|..];
      destruct (cacheApplyUserQuotaDelta id quota w1) as [r1 w2] eqn:H1; injection H as <- <-; eauto. }
  - left. split; [done|]. unfold cached_quota. by rewrite Hqf0.
  - apply (cacheApply_cached _ _ _ _ _ _ _ H1) in Hqf0 as [->|[Hf ->]]; [left; f_equal; lia|].
    right. split; [|done]. rewrite Ef in Hf. unfold w0 in Hf. simpl in Hf. by destruct (w_faults w) as [|? [|? [|? ?]]].
Qed.

(** C7. A wallet reservation is atomic under every fault script and every cache
    state: if it reports success, exactly [quota] left the wallet of [id] and no
    other balance moved; if it reports a refusal or an error, no balance moved.
    Without Redis a success is covered by the stored balance, and a refusal of an
    existing user means the balance was too small.  With Redis, a balance found in the
    cache moves with the ledger: a success covered by it debits it by [quota], a
    refusal leaves it, and after an error it is what it was, the debit compensated;
    the two exceptions are those of [cached_outcome], a script that failed, after
    which the row decides and the cached balance stays, and a compensation that
    failed too, which leaves the cached balance [quota] short. *)
Theorem TryReserveUserQuota_atomic id quota w r w' :
  TryReserveUserQuota id quota w = (r, w') -> batch_room w.(w_batch).(bs_UserQuota) id (- quota) ->
  reserve_outcome (moves_wallet id (- quota)) r w w' /\
  (RedisEnabled w.(w_cfg) = false -> 0 < quota -> r = Ok true -> quota <= user_column u_Quota w.(w_db) id) /\
  (RedisEnabled w.(w_cfg) = false -> r = Ok false ->
     forall u, visible_user w.(w_db) id = Some u -> u.(u_Quota) < quota) /\
  (RedisEnabled w.(w_cfg) = true -> 0 < quota ->
     forall q, cached_quota w id = Some q -> cached_outcome quota q w r (cached_quota w' id)).
Proof.
  intros H Hr. split; [by apply TryReserveUserQuota_moves|].
  split; [|split; [|intros Hen Hq q; by apply TryReserveUserQuota_cache]];
    unfold TryReserveUserQuota in H; intros Hen.
  - intros Hq ->. replace (quota <? 0) with false in H by lia. replace (quota =? 0) with false in H by lia.
    monad_cases; [|by rewrite Hen in *..]. apply reserveUserQuotaDB_outcome in H as (_ & H & _). auto.
  - intros ->. monad_cases; [|by rewrite Hen in *..]. apply reserveUserQuotaDB_outcome in H as (_ & _ & H). auto.
Qed.

(** Without Redis 60 of 100 are reserved; with Redis the write of the row fails after
    the script, and the cached balance is put back. *)
Lemma TryReserveUserQuota_atomic_witness :
  let w := with_user (sample_user 7 100) (empty_world (sample_config false false)) in
  let c := set_w_faults (fun _ => [false; true]) (exec (populateUserCache (sample_user 7 100))
             (with_user (sample_user 7 100) (empty_world (sample_config true false)))) in
  (exists w', TryReserveUserQuota 7 60 w = (Ok true, w') /\ wallet w' 7 = 40 /\ reserve_outcome (moves_wallet 7 (-60)) (Ok true) w w') /\
  (exists c', TryReserveUserQuota 7 60 c = (Err ErrDB, c') /\ cached_quota c' 7 = Some 100 /\ ledger c' = ledger c /\
     cached_outcome 60 100 c (Err ErrDB) (cached_quota c' 7)).
Proof.
  intros w c. split.
  - eexists. assert (TryReserveUserQuota 7 60 w = (Ok true, exec (TryReserveUserQuota 7 60) w)) as E by (vm_compute; reflexivity).
    split; [exact E|]. split; [vm_compute; reflexivity|]. apply (TryReserveUserQuota_atomic 7 60 w _ _ E).
    unfold batch_room, in_i64. vm_compute. intuition discriminate.
  - eexists. assert (TryReserveUserQuota 7 60 c = (Err ErrDB, exec (TryReserveUserQuota 7 60) c)) as E by (vm_compute; reflexivity).
    split; [exact E|]. split; [vm_compute; reflexivity|].
    assert (batch_room c.(w_batch).(bs_UserQuota) 7 (- 60)) as Hr by (unfold batch_room, in_i64; vm_compute; intuition discriminate).
    destruct (TryReserveUserQuota_atomic 7 60 c _ _ E Hr) as (H & _ & _ & Hc). split; [exact H|].
    apply Hc; [reflexivity|lia|vm_compute; reflexivity].
Defined.

(** The same for a token: success moves exactly [quota] out of the remaining
    quota of this token and touches nothing else; anything else moves nothing. *)
Theorem TryReserveTokenQuota_atomic id key quota unlimited w r w' :
  TryReserveTokenQuota id key quota unlimited w = (r, w') ->
  batch_room w.(w_batch).(bs_TokenQuota) id (- quota) -> (unlimited = true -> token_live w id) ->
  reserve_outcome (moves_token id (- quota)) r w w' /\
  (RedisEnabled w.(w_cfg) = false -> unlimited = false -> 0 < quota -> r = Ok true ->
     quota <= token_column t_RemainQuota w.(w_db) id).
Proof.
  intros H Hr Hl. split; [by eapply TryReserveTokenQuota_moves|].
  intros Hen -> Hq ->. unfold TryReserveTokenQuota in H.
  replace (quota <? 0) with false in H by lia. replace (quota =? 0) with false in H by lia.
  monad_cases; [|by rewrite Hen in *..]. apply reserveTokenQuotaDB_outcome in H as (_ & H & _). auto.
Qed.

Lemma TryReserveTokenQuota_atomic_witness :
  let w := with_token (sample_token 3 7 "k" 50) (empty_world (sample_config false false)) in
  let (r, w') := TryReserveTokenQuota 3 "k" 60 true w in
  r = Ok true /\ reserve_outcome (moves_token 3 (-60)) r w w'.
Proof.
  intros w. destruct (TryReserveTokenQuota 3 "k" 60 true w) as [r w'] eqn:E.
  pose proof (TryReserveTokenQuota_atomic 3 "k" 60 true w r w' E) as H.
  split.
  - assert ((r, w').1 = Ok true) by (rewrite <- E; vm_compute; auto). done.
  - apply H; [unfold batch_room, in_i64; vm_compute; intuition discriminate|].
    intros _. by eexists.
Defined.

(** When the cache holds the balance, the cached balance alone decides, and
    it is debited with the ledger: an accepted reservation lowers both, a refused
    one neither; and if the row turns out to be gone the debit of the cache is
    compensated and the caller sees the error. *)
Theorem TryReserveUserQuota_cached id quota w q :
  w.(w_faults) = [] -> RedisEnabled w.(w_cfg) = true -> 0 < quota <= MaxInt64 ->
  cached_quota w id = Some q ->
  let (r, w') := TryReserveUserQuota id quota w in
  if q <? quota then r = Ok false /\ w' = w
  else if BatchUpdateEnabled w.(w_cfg) || bool_decide (user_live w id)
  then r = Ok true /\ cached_quota w' id = Some (q - quota)
  else r = Err ErrRecordNotFound /\ cached_quota w' id = Some q /\ ledger w' = ledger w.
Proof.
  intros Hf Hen Hq Hc. unfold cached_quota in Hc. destruct (quota_field _ _) as [[h q']|] eqn:Hqf; simplify_eq/=.
  unfold TryReserveUserQuota. replace (quota <? 0) with false by lia. replace (quota =? 0) with false by lia.
  unfold reserve_with_hydration, cacheTryReserveUserQuota, bind at 1, cfg, gets. rewrite Hen. simpl.
  unfold bind, catch, gets. rewrite redis_cmd_ff by done. unfold userQuotaReserveScript. rewrite Hqf.
  destruct (Z.ltb_spec q quota); simpl. { by destruct w as [? ? []]. }
  unfold persistUserQuotaDelta, bind, cfg, gets. simpl. destruct (BatchUpdateEnabled _); simpl.
  { split; [done|]. unfold cached_quota. simpl. by rewrite (quota_field_set _ _ _ q). }
  rewrite update_user_ff by done. simpl. unfold user_live.
  destruct (visible_user (w_db w) id) as [u|] eqn:Hu; simpl.
  { split; [done|]. unfold cached_quota. simpl. by rewrite (quota_field_set _ _ _ q). }
  unfold cacheApplyUserQuotaDelta, bind. rewrite redis_cmd_ff by done.
  unfold gets. simpl. unfold userQuotaDeltaScript. erewrite (quota_field_set _ _ _ q) by done. simpl.
  split_and!; [done| |done]. unfold cached_quota. simpl.
  erewrite (quota_field_set _ _ _ (q - quota)) by (by apply (quota_field_set _ _ _ q)). simpl. f_equal. lia.
Qed.

Lemma TryReserveUserQuota_cached_witness :
  let w := exec (populateUserCache (sample_user 7 100)) (with_user (sample_user 7 100) (empty_world (sample_config true true))) in
  let (r, w') := TryReserveUserQuota 7 60 w in r = Ok true /\ cached_quota w' 7 = Some 40.
Proof.
  intros w. pose proof (TryReserveUserQuota_cached 7 60 w 100) as H.
  destruct (TryReserveUserQuota 7 60 w) as [r w']. apply H; [reflexivity|reflexivity|unfold MaxInt64; lia|reflexivity].
Defined.

(** ** Interleaved reservations on the cached balance *)

Definition hash_quota (r : Redis) (id : Z) : option Z := r.(user_hash) !! id ≫= h_Quota.

(** What can happen to the cached hashes, as whole Lua scripts: cache fills (of any
    age), group refreshes, fences, floor publications and quota scripts of this or any
    other user, and the loss of a hash, by expiry or by [invalidateUserCache]. *)
Inductive CacheCall :=
| CacheFill (b : UserBase) (includeQuota : bool)
| CacheGroup (userId : Z) (group : string) (version : Z)
| CacheFence (userId version : Z)
| CachePublish (userId version : Z)
| CacheReserve (userId amount : Z)
| CacheDelta (userId delta : Z)
| CacheDrop (userId : Z).

(** The reply and the state after it. *)
Definition run_cache (c : CacheCall) (r : Redis) : Z * Redis :=
  match c with
  | CacheFill b iq => write_user_script b iq r
  | CacheGroup id g v => update_group_script id g v r
  | CacheFence id v => (1, if redis_int r.(auth_fence) id <? v then set_auth_fence (insert id v) r else r)
  | CachePublish id v => (1, commit_version id v r)
  | CacheReserve id n => userQuotaReserveScript id n r
  | CacheDelta id d => userQuotaDeltaScript id d r
  | CacheDrop id => (1, set_user_hash (delete id) r)
  end.

(** The books of a cached balance, kept from the replies alone: the balance a fill
    wrote, and since then the deltas applied, the positive ones among them, and the
    reservations granted. *)
Record Account := mkAccount { ac_Filled : Z; ac_Moved : Z; ac_Credited : Z; ac_Granted : Z }.

Definition keep_books (id : Z) (c : CacheCall) (reply : Z) (a : option Account) : option Account :=
  match c, a with
  | CacheFill b true, None =>
      if (b.(h_Id) =? id) && (reply =? 1) then Some (mkAccount (ub_Quota b) 0 0 0) else None
  | CacheReserve id' n, Some (mkAccount f m k g) =>
      if (id' =? id) && (reply =? 1) then Some (mkAccount f m k (g + n)) else a
  | CacheDelta id' d, Some (mkAccount f m k g) =>
      if (id' =? id) && (reply =? 1) then Some (mkAccount f (m + d) (k + Z.max 0 d) g) else a
  | CacheDrop id', _ => if id' =? id then None else a
  | _, _ => a
  end.

Definition audit (id : Z) (s : Redis * option Account) (c : CacheCall) : Redis * option Account :=
  ((run_cache c s.1).2, keep_books id c (run_cache c s.1).1 s.2).

(** The books of the balance the cache starts with. *)
Definition opening (id : Z) (r : Redis) : option Account := (fun q => mkAccount q 0 0 0) <$> hash_quota r id.

Lemma hash_quota_insert r id id' h :
  hash_quota (set_user_hash (insert id' h) r) id = if decide (id' = id) then h.(h_Quota) else hash_quota r id.
Proof. unfold hash_quota. simpl. rewrite lookup_insert. by case_decide. Qed.
Lemma hash_quota_commit r id id' v : hash_quota (commit_version id' v r) id = hash_quota r id.
Proof. unfold hash_quota. by rewrite commit_version_hash. Qed.

Lemma quota_field_quota r id h q : quota_field r id = Some (h, q) -> hash_quota r id = Some q.
Proof. unfold quota_field, hash_quota. repeat case_match; intros; simplify_eq; simpl; done. Qed.

Lemma write_user_script_quota b iq r id :
  hash_quota (write_user_script b iq r).2 id =
    if (h_Id b =? id) && ((write_user_script b iq r).1 =? 1) && iq
    then Some (default (ub_Quota b) (hash_quota r id)) else hash_quota r id.
Proof.
  unfold write_user_script. destruct (version_refused _ _ _); [by rewrite andb_false_r|].
  rewrite commit_version_hash.
  destruct (Z.eqb_spec (h_Id b) id) as [<-|Hne], (user_hash r !! h_Id b) as [h|] eqn:Hh, iq; simpl;
    rewrite ?hash_quota_insert, ?hash_quota_commit, ?decide_True, ?decide_False by done; simpl; try done;
    unfold hash_quota; rewrite Hh; simpl; try done. by destruct (h_Quota h).
Qed.

Lemma update_group_script_quota id' g v r id : hash_quota (update_group_script id' g v r).2 id = hash_quota r id.
Proof.
  unfold update_group_script. destruct (version_refused _ _ _); [done|].
  rewrite commit_version_hash. destruct (user_hash r !! id') as [h|] eqn:Hh; simpl; [|by rewrite hash_quota_commit].
  case_match; simpl; rewrite ?hash_quota_insert, ?hash_quota_commit; [|done].
  case_decide; subst; [|done]. unfold hash_quota. by rewrite Hh.
Qed.

Lemma reserve_script_quota id' n r id :
  let (reply, r') := userQuotaReserveScript id' n r in
  (if (id' =? id) && (reply =? 1) then exists q, n <= q /\ hash_quota r id = Some q /\ hash_quota r' id = Some (q - n)
   else hash_quota r' id = hash_quota r id).
Proof.
  unfold userQuotaReserveScript. destruct (quota_field r id') as [[h q]|] eqn:E; [|by rewrite andb_false_r].
  apply quota_field_quota in E. destruct (Z.ltb_spec q n); [by rewrite andb_false_r|]. rewrite hash_quota_insert.
  destruct (Z.eqb_spec id' id) as [->|]; [rewrite decide_True by done; simpl; eauto|by rewrite decide_False].
Qed.

Lemma delta_script_quota id' d r id :
  let (reply, r') := userQuotaDeltaScript id' d r in
  (if (id' =? id) && (reply =? 1) then exists q, hash_quota r id = Some q /\ hash_quota r' id = Some (q + d)
   else hash_quota r' id = hash_quota r id).
Proof.
  unfold userQuotaDeltaScript. destruct (quota_field r id') as [[h q]|] eqn:E; [|by rewrite andb_false_r].
  apply quota_field_quota in E. rewrite hash_quota_insert.
  destruct (Z.eqb_spec id' id) as [->|]; [rewrite decide_True by done; simpl; eauto|by rewrite decide_False].
Qed.

(** The cached balance is the one in the books, which never grant more than was
    filled and credited. *)
Definition books_right (id : Z) (s : Redis * option Account) : Prop :=
  match s.2 with
  | None => hash_quota s.1 id = None
  | Some (mkAccount f m k g) => hash_quota s.1 id = Some (f + m - g) /\ m <= k /\ 0 <= g <= Z.max 0 (f + k)
  end.

(** Amounts of reservations are not negative (TryReserveUserQuota refuses others). *)
Definition fair_call (c : CacheCall) : Prop := match c with CacheReserve _ n => 0 <= n | _ => True end.

Lemma keep_books_unmoved id r r' a :
  books_right id (r, a) -> hash_quota r' id = hash_quota r id -> books_right id (r', a).
Proof. unfold books_right. simpl. by intros H ->. Qed.

Lemma audit_right id s c : books_right id s -> fair_call c -> books_right id (audit id s c).
Proof.
  destruct s as [r a]. intros H Hc. unfold audit. destruct c as [b iq|id' g v|id' v|id' v|id' n|id' d|id']; simpl.
  - pose proof (write_user_script_quota b iq r id) as E. destruct (_ && _) eqn:Hb in E.
    + destruct iq; [|by rewrite andb_false_r in Hb]. rewrite andb_true_r in Hb. rewrite Hb.
      destruct a as [[f m k g]|]; unfold books_right in *; simpl in *.
      * destruct H as [H ?]. rewrite H in E. done.
      * rewrite H in E. simpl in E. split; [rewrite E; f_equal; lia|lia].
    + destruct iq; rewrite ?andb_true_r, ?andb_false_r in Hb; [rewrite Hb|]; destruct a; by eapply keep_books_unmoved.
  - destruct a; eapply keep_books_unmoved; try apply update_group_script_quota; done.
  - destruct a; eapply keep_books_unmoved; try done; by destruct (_ <? _).
  - destruct a; eapply keep_books_unmoved; try apply hash_quota_commit; done.
  - pose proof (reserve_script_quota id' n r id) as E. destruct (userQuotaReserveScript id' n r) as [reply r']. simpl.
    destruct a as [[f m k g]|]; destruct (_ && _); try (by eapply keep_books_unmoved); unfold books_right in *; simpl in *;
      destruct E as (q & Hq & E1 & ->); rewrite E1 in H; [|done]. destruct H as [[= ->] ?]. split; [f_equal; lia|lia].
  - pose proof (delta_script_quota id' d r id) as E. destruct (userQuotaDeltaScript id' d r) as [reply r']. simpl.
    destruct a as [[f m k g]|]; destruct (_ && _); try (by eapply keep_books_unmoved); unfold books_right in *; simpl in *;
      destruct E as (q & E1 & ->); rewrite E1 in H; [|done]. destruct H as [[= ->] ?]. split; [f_equal; lia|lia].
  - assert (hash_quota (set_user_hash (delete id') r) id = if id' =? id then None else hash_quota r id) as E.
    { unfold hash_quota. simpl. destruct (Z.eqb_spec id' id) as [->|]; [by rewrite lookup_delete_eq|by rewrite lookup_delete_ne]. }
    destruct (id' =? id); [destruct a; exact E|]. destruct a; by eapply keep_books_unmoved.
Qed.

(** C3. Concurrent reservations never oversell a cached balance.  Take any sequence of
    cache scripts of all users, the reservations, charges and refunds of user [id]
    among them, with the hash expiring or being invalidated and filled again at any
    time, and keep books of the cached balance of [id] from the replies: opened with
    the balance a fill writes, closed when the hash is lost.  Then, as long as the
    books are open, the cached balance is exactly what was filled plus the deltas less
    the reservations granted, and the reservations granted since that fill never add
    up to more than it wrote plus what was credited since.  (What a fill writes is the
    balance of the row, which lacks the debits still queued in memory, see
    [refill_forgets_queued_debits].) *)
Theorem concurrent_reservations_no_oversell id calls r :
  Forall fair_call calls ->
  let (r', books) := foldl (audit id) (r, opening id r) calls in
  match books with
  | None => hash_quota r' id = None
  | Some (mkAccount filled moved credited granted) =>
      hash_quota r' id = Some (filled + moved - granted) /\ 0 <= granted <= Z.max 0 (filled + credited)
  end.
Proof.
  intros Hc. assert (books_right id (foldl (audit id) (r, opening id r) calls)) as H.
  { assert (books_right id (r, opening id r)) as H0.
    { unfold books_right, opening. simpl. destruct (hash_quota r id) as [q|]; simpl; [|done]. split; [f_equal; lia|lia]. }
    revert H0. generalize (r, opening id r). induction Hc as [|c calls Hc _ IH]; intros s Hs; simpl; [done|].
    by apply IH, audit_right. }
  destruct (foldl _ _ _) as [r' [[f m k g]|]]; [|exact H]. destruct H as (? & _ & ?). done.
Qed.

(** 60 of 100 are granted, a second 60 refused; 30 come back; the hash is lost and
    filled with 70, of which 60 are granted. *)
Lemma concurrent_reservations_no_oversell_witness :
  let fill q := CacheFill (ToBaseUser (sample_user 7 q)) true in
  let calls := [fill 100; CacheReserve 7 60; CacheReserve 7 60; CacheDelta 7 30; CacheReserve 8 5; CacheDrop 7; fill 70;
                fill 900; CacheReserve 7 60] in
  let r := (empty_world (sample_config true true)).(w_redis) in
  foldl (audit 7) (r, opening 7 r) calls = ((foldl (audit 7) (r, opening 7 r) calls).1, Some (mkAccount 70 0 0 60)) /\
  hash_quota (foldl (audit 7) (r, opening 7 r) calls).1 7 = Some 10.
Proof.
  intros fill calls r.
  assert (Forall fair_call calls) as Hc by (repeat constructor; unfold fair_call; lia).
  pose proof (concurrent_reservations_no_oversell 7 calls r Hc) as H.
  assert ((foldl (audit 7) (r, opening 7 r) calls).2 = Some (mkAccount 70 0 0 60)) as E by (vm_compute; reflexivity).
  destruct (foldl _ _ _) as [r' books]. simpl in E. subst books. simpl. split; [reflexivity|]. exact (proj1 H).
Defined.

(** A fill reads the row without the debits queued in memory: with batched writes, a
    hash lost between a reservation and the flush is filled with the old balance, and
    the user of 100 reserves 60 twice. *)
Example refill_forgets_queued_debits :
  let w0 := with_user (sample_user 7 100) (empty_world (sample_config true true)) in
  let w1 := exec (TryReserveUserQuota 7 60) w0 in
  let w2 := exec (invalidateUserCache 7) w1 in
  eval (TryReserveUserQuota 7 60) w0 = Ok true /\ eval (TryReserveUserQuota 7 60) w1 = Ok false /\
  eval (TryReserveUserQuota 7 60) w2 = Ok true /\ wallet (exec (TryReserveUserQuota 7 60) w2) 7 = -20.
Proof. vm_compute. auto. Qed.

(** ** The flush *)

(** What one pass over the users adds to a column. *)
Definition pass_delta (l : list Z) (m : gmap Z Z) (w : World) (id : Z) : Z :=
  if bool_decide (id ∈ l) then (if bool_decide (user_live w id) then redis_int m id else 0) else 0.

Lemma user_live_insert w id u f id' :
  visible_user w.(w_db) id = Some u -> u_Deleted (f u) = u_Deleted u ->
  user_live (set_w_db (set_users (insert id (f u))) w) id' <-> user_live w id'.
Proof.
  intros Hu Hd. unfold user_live. simpl. rewrite visible_user_insert by done.
  case_decide; subst; [|done]. rewrite Hu. split; eauto.
Qed.

(** One key of the user pass, without faults. *)
Lemma flush_user_ff key q uq rc w :
  w.(w_faults) = [] ->
  let (r, w') := updateUserQuotaUsedQuotaAndRequestCount key q uq rc w in
  r = Ok tt /\ w'.(w_faults) = [] /\ w'.(w_batch) = w.(w_batch) /\ w'.(w_db).(tokens) = w.(w_db).(tokens) /\
  (forall id, user_live w' id <-> user_live w id) /\
  (forall id, user_column u_Quota w'.(w_db) id =
     user_column u_Quota w.(w_db) id + if decide (key = id) then (if bool_decide (user_live w id) then q else 0) else 0).
Proof.
  intros Hf. unfold updateUserQuotaUsedQuotaAndRequestCount.
  destruct ((q =? 0) && (uq =? 0) && (rc =? 0)) eqn:Hz; simpl.
  { split_and!; try done. intros id. repeat case_match; lia. }
  unfold bind, catch. rewrite update_user_ff by done. unfold ret. simpl.
  set (f := fun u => set_u_RequestCount (fun x => x + rc) (set_u_UsedQuota (fun x => x + uq) (set_u_Quota (fun x => x + q) u))).
  destruct (visible_user (w_db w) key) as [u|] eqn:Hu; simpl.
  - split_and!; try done; intros id.
    + apply (user_live_insert w key u f); done.
    + rewrite (user_column_shift u_Quota _ key u f q) by done. case_decide; subst; [|done].
      rewrite bool_decide_true; [done|]. unfold user_live. eauto.
  - split_and!; try done. intros id. case_decide; subst; [|lia]. rewrite bool_decide_false; [lia|].
    unfold user_live. rewrite Hu. by intros [? ?].
Qed.

Lemma flush_users_ff ks q uq rc w :
  w.(w_faults) = [] -> NoDup ks ->
  let (r, w') := mapM_ (fun key => updateUserQuotaUsedQuotaAndRequestCount key (redis_int q key) (redis_int uq key)
                                     (redis_int rc key)) ks w in
  r = Ok tt /\ w'.(w_faults) = [] /\ w'.(w_batch) = w.(w_batch) /\ w'.(w_db).(tokens) = w.(w_db).(tokens) /\
  (forall id, user_column u_Quota w'.(w_db) id = user_column u_Quota w.(w_db) id + pass_delta ks q w id).
Proof.
  intros Hf Hn. revert w Hf. induction Hn as [|k ks Hk Hn IH]; intros w Hf; simpl.
  { split_and!; try done. intros id. unfold pass_delta. rewrite bool_decide_false by set_solver. lia. }
  pose proof (flush_user_ff k (redis_int q k) (redis_int uq k) (redis_int rc k) w Hf) as H1. unfold bind.
  destruct (updateUserQuotaUsedQuotaAndRequestCount _ _ _ _ w) as [r1 w1].
  destruct H1 as (-> & Hf1 & Hb1 & Ht1 & Hl1 & Hc1). specialize (IH w1 Hf1).
  destruct (mapM_ _ ks w1) as [r w']. destruct IH as (-> & Hf' & Hb' & Ht' & Hc').
  split_and!; try done; [congruence..|]. intros id. rewrite Hc', Hc1. unfold pass_delta.
  rewrite (bool_decide_ext _ _ (Hl1 id)).
  destruct (decide (k = id)) as [->|Hne].
  - rewrite (bool_decide_false (id ∈ ks)) by done. rewrite (bool_decide_true (id ∈ id :: ks)) by set_solver. lia.
  - rewrite (bool_decide_ext (id ∈ k :: ks) (id ∈ ks)) by set_solver. lia.
Qed.

Lemma token_live_insert w id t f id' :
  visible_token w.(w_db) id = Some t -> t_Deleted (f t) = t_Deleted t ->
  token_live (set_w_db (set_tokens (insert id (f t))) w) id' <-> token_live w id'.
Proof.
  intros Hu Hd. unfold token_live. simpl. rewrite visible_token_insert by done.
  case_decide; subst; [|done]. rewrite Hu. split; eauto.
Qed.

Lemma flush_token_ff key q w :
  w.(w_faults) = [] ->
  let (r, w') := (catch (increaseTokenQuota key q) ;; ret tt) w in
  r = Ok tt /\ w'.(w_faults) = [] /\ w'.(w_batch) = w.(w_batch) /\ w'.(w_db).(users) = w.(w_db).(users) /\
  (forall id, token_live w' id <-> token_live w id) /\
  (forall id, token_column t_RemainQuota w'.(w_db) id =
     token_column t_RemainQuota w.(w_db) id + if decide (key = id) then (if bool_decide (token_live w id) then q else 0) else 0).
Proof.
  intros Hf. unfold increaseTokenQuota, bind, catch, GetTimestamp, gets. rewrite update_token_ff by done. unfold ret. simpl.
  set (f := fun t => set_t_AccessedTime (fun _ => w_clock w)
    (set_t_UsedQuota (fun x => x - q) (set_t_RemainQuota (fun x => x + q) t))).
  destruct (visible_token (w_db w) key) as [t|] eqn:Ht; simpl.
  - split_and!; try done; intros id.
    + apply (token_live_insert w key t f); done.
    + rewrite (token_column_shift t_RemainQuota _ key t f q) by done. case_decide; subst; [|done].
      rewrite bool_decide_true; [done|]. unfold token_live. eauto.
  - split_and!; try done. intros id. case_decide; subst; [|lia]. rewrite bool_decide_false; [lia|].
    unfold token_live. rewrite Ht. by intros [? ?].
Qed.

Lemma flush_tokens_ff (l : list (Z * Z)) w :
  w.(w_faults) = [] -> NoDup l.*1 ->
  let (r, w') := mapM_ (fun kv => catch (increaseTokenQuota kv.1 kv.2) ;; ret tt) l w in
  r = Ok tt /\ w'.(w_faults) = [] /\ w'.(w_batch) = w.(w_batch) /\ w'.(w_db).(users) = w.(w_db).(users) /\
  (forall id, token_live w id -> token_column t_RemainQuota w'.(w_db) id =
     token_column t_RemainQuota w.(w_db) id + redis_int (list_to_map l) id).
Proof.
  intros Hf Hn. revert w Hf. induction l as [|[k v] l IH]; intros w Hf; cbn [mapM_].
  { split_and!; try done. intros id. unfold redis_int. simpl. rewrite lookup_empty. simpl. lia. }
  rewrite fmap_cons in Hn. apply NoDup_cons in Hn as [Hk Hn]. simpl in Hk.
  pose proof (flush_token_ff k v w Hf) as H1. unfold bind at 1. cbn [fst snd].
  destruct ((catch (increaseTokenQuota k v) ;; ret tt) w) as [r1 w1].
  destruct H1 as (-> & Hf1 & Hb1 & Hu1 & Hl1 & Hc1). specialize (IH Hn w1 Hf1).
  destruct (mapM_ _ l w1) as [r w']. destruct IH as (-> & Hf' & Hb' & Hu' & Hc').
  split_and!; try done; [congruence..|]. intros id Hl. rewrite Hc', Hc1 by (by apply Hl1). simpl.
  rewrite redis_int_insert, bool_decide_true by done. case_decide; subst; [|lia].
  unfold redis_int at 1. rewrite (not_elem_of_list_to_map_1 l id Hk). simpl. lia.
Qed.

Lemma flush_channels_ff (l : list (Z * Z)) w :
  w.(w_faults) = [] ->
  let (r, w') := mapM_ (fun kv => updateChannelUsedQuota kv.1 kv.2) l w in
  r = Ok tt /\ w'.(w_faults) = [] /\ w'.(w_batch) = w.(w_batch) /\
  w'.(w_db).(users) = w.(w_db).(users) /\ w'.(w_db).(tokens) = w.(w_db).(tokens).
Proof.
  revert w. induction l as [|kv l IH]; intros w Hf; cbn [mapM_]; [done|].
  unfold bind at 1. unfold updateChannelUsedQuota at 1. unfold bind, catch. rewrite stmt_ff by done. simpl.
  specialize (IH (set_w_db (set_channel_used (alter (fun x => x + kv.2) kv.1)) w) Hf).
  destruct (mapM_ _ l _) as [r w']. destruct IH as (-> & ? & ? & ? & ?). done.
Qed.

Lemma redis_int_not_key m id : id ∉ dom m -> redis_int m id = 0.
Proof. intros H. unfold redis_int. by rewrite (not_elem_of_dom_1 _ _ H). Qed.

(** The periodic flush conserves balances: in a fault-free run it empties
    every batch store and leaves the wallet of every existing user and the
    remaining quota of every existing token exactly as they were. *)
Theorem batchUpdate_conserves w :
  w.(w_faults) = [] ->
  let (r, w') := batchUpdate w in
  r = Ok tt /\ w'.(w_batch) = mkBatch ∅ ∅ ∅ ∅ ∅ /\
  (forall id, user_live w id -> wallet w' id = wallet w id) /\
  (forall id, token_live w id -> token_remain w' id = token_remain w id).
Proof.
  intros Hf. unfold batchUpdate, bind at 1, gets.
  destruct (batch_has_data (w_batch w)) eqn:Hd; cbn [negb].
  2:{ unfold batch_has_data in Hd. rewrite negb_false_iff, !andb_true_iff, !bool_decide_eq_true in Hd.
      simpl. split_and!; [done| |done..]. destruct (w_batch w). simpl in *. by destruct_and!; subst. }
  unfold modify, bind at 1. set (w0 := set_w_batch _ w).
  pose proof (flush_tokens_ff (map_to_list (bs_TokenQuota (w_batch w))) w0 Hf (NoDup_fst_map_to_list _)) as H1.
  unfold bind at 1. destruct (mapM_ _ _ w0) as [r1 w1]. destruct H1 as (-> & Hf1 & Hb1 & Hu1 & Hc1).
  pose proof (flush_channels_ff (map_to_list (bs_ChannelUsedQuota (w_batch w))) w1 Hf1) as H2.
  unfold bind at 1. destruct (mapM_ _ _ w1) as [r2 w2]. destruct H2 as (-> & Hf2 & Hb2 & Hu2 & Ht2).
  pose proof (flush_users_ff (store_keys (w_batch w)) (bs_UserQuota (w_batch w)) (bs_UsedQuota (w_batch w))
    (bs_RequestCount (w_batch w)) w2 Hf2 (NoDup_elements _)) as H3.
  destruct (mapM_ _ (store_keys _) w2) as [r3 w3]. destruct H3 as (-> & Hf3 & Hb3 & Ht3 & Hc3).
  assert (w_batch w3 = mkBatch ∅ ∅ ∅ ∅ ∅) as Hb by (by rewrite Hb3, Hb2, Hb1).
  split_and!; try done; intros id Hl.
  - unfold wallet. rewrite Hb. simpl. unfold redis_int at 1. rewrite lookup_empty. simpl.
    assert (user_column u_Quota (w_db w2) id = user_column u_Quota (w_db w) id) as E
      by (unfold user_column, visible_user; by rewrite Hu2, Hu1).
    assert (user_live w2 id) as Hl2 by (unfold user_live, visible_user; by rewrite Hu2, Hu1).
    rewrite Hc3, E. unfold pass_delta. rewrite (bool_decide_true (user_live w2 id)) by done.
    case_bool_decide as Hin; [lia|]. unfold store_keys in Hin. rewrite elem_of_elements in Hin.
    rewrite redis_int_not_key by set_solver. lia.
  - unfold token_remain. rewrite Hb. simpl. unfold redis_int at 1. rewrite lookup_empty. simpl.
    unfold token_column at 1, visible_token at 1. rewrite Ht3, Ht2.
    change (token_column t_RemainQuota (w_db w1) id + 0 =
            token_column t_RemainQuota (w_db w) id + redis_int (bs_TokenQuota (w_batch w)) id).
    rewrite Hc1 by done. rewrite list_to_map_to_list. simpl. lia.
Qed.

Lemma batchUpdate_conserves_witness :
  let w := exec (IncreaseUserQuota 7 50 false) (with_user (sample_user 7 100) (empty_world (sample_config false true))) in
  let (r, w') := batchUpdate w in
  wallet w' 7 = 150 /\ user_column u_Quota w'.(w_db) 7 = 150 /\ user_column u_Quota w.(w_db) 7 = 100.
Proof.
  intros w. pose proof (batchUpdate_conserves w eq_refl) as H.
  destruct (batchUpdate w) as [r w'] eqn:E. destruct H as (_ & _ & H & _).
  split_and!.
  - rewrite (H 7); [vm_compute; reflexivity|]. by eexists.
  - change (user_column u_Quota (r, w').2.(w_db) 7 = 150). rewrite <- E. vm_compute. reflexivity.
  - vm_compute. reflexivity.
Defined.
