(* ===== verification/SubscriptionTime.v ===== *)
(** * Subscription periods (model/subscription.go, the time arithmetic)

    The end of a purchased period, the next quota reset, and the loop that
    catches up with missed resets.  Times are Unix seconds read in the server's
    location (a fixed offset [off] from UTC). *)

From stdpp Require Import base tactics numbers list strings.
From Stdlib Require Import ZArith Lia.
From S2P Require Import Prelude Float64 Calendar World.
Open Scope Z_scope.

Definition SubscriptionDurationYear : string := "year".
Definition SubscriptionDurationMonth : string := "month".
Definition SubscriptionDurationDay : string := "day".
Definition SubscriptionDurationHour : string := "hour".
Definition SubscriptionDurationCustom : string := "custom".

Definition SubscriptionResetNever : string := "never".
Definition SubscriptionResetDaily : string := "daily".
Definition SubscriptionResetWeekly : string := "weekly".
Definition SubscriptionResetMonthly : string := "monthly".
Definition SubscriptionResetCustom : string := "custom".

Definition hours_to_duration (n : Z) : Z := n *! (3600 * Nanosecond_per_second).

Definition calcPlanEndTime (off start : Z) (plan : SubscriptionPlan) : result error Z :=
  if (plan.(p_DurationValue) <=? 0) && negb (String.eqb plan.(p_DurationUnit) SubscriptionDurationCustom)
  then Err (ErrMsg "duration_value must be > 0")
  else if String.eqb plan.(p_DurationUnit) SubscriptionDurationYear
  then Ok (AddDate off start plan.(p_DurationValue) 0 0)
  else if String.eqb plan.(p_DurationUnit) SubscriptionDurationMonth
  then Ok (AddDate off start 0 plan.(p_DurationValue) 0)
  else if String.eqb plan.(p_DurationUnit) SubscriptionDurationDay
  then Ok (Add start (hours_to_duration (plan.(p_DurationValue) *! 24)))
  else if String.eqb plan.(p_DurationUnit) SubscriptionDurationHour
  then Ok (Add start (hours_to_duration plan.(p_DurationValue)))
  else if String.eqb plan.(p_DurationUnit) SubscriptionDurationCustom
  then if plan.(p_CustomSeconds) <=? 0 then Err (ErrMsg "custom_seconds must be > 0")
       else Ok (Add start (seconds_to_duration plan.(p_CustomSeconds)))
  else Err (ErrMsg ("invalid duration_unit: " +:+ plan.(p_DurationUnit))).

Definition NormalizeResetPeriod (period : string) : string :=
  let p := TrimSpace period in
  if String.eqb p SubscriptionResetDaily || String.eqb p SubscriptionResetWeekly
     || String.eqb p SubscriptionResetMonthly || String.eqb p SubscriptionResetCustom
  then p else SubscriptionResetNever.

(** Monday = 1 .. Sunday = 7. *)
Definition iso_weekday (off u : Z) : Z := let d := Weekday off u in if d =? 0 then 7 else d.

Definition calcNextResetTime (off base : Z) (plan : SubscriptionPlan) (endUnix : Z) : Z :=
  let period := NormalizeResetPeriod plan.(p_QuotaResetPeriod) in
  let today := Date off (Year off base) (Month off base) (Day off base) in
  let clip next := if (0 <? endUnix) && (endUnix <? next) then 0 else next in
  if String.eqb period SubscriptionResetNever then 0
  else if String.eqb period SubscriptionResetDaily then clip (AddDate off today 0 0 1)
  else if String.eqb period SubscriptionResetWeekly then clip (AddDate off today 0 0 (8 - iso_weekday off base))
  else if String.eqb period SubscriptionResetMonthly
  then clip (AddDate off (Date off (Year off base) (Month off base) 1) 0 1 0)
  else if String.eqb period SubscriptionResetCustom
  then if plan.(p_QuotaResetCustomSeconds) <=? 0 then 0
       else clip (Add base (seconds_to_duration plan.(p_QuotaResetCustomSeconds)))
  else 0.

(** The catch-up loop of maybeResetUserSubscriptionWithPlanTx.  [None] is a loop
    that is still running after [fuel] rounds. *)
Fixpoint advance_resets (fuel : nat) (off : Z) (plan : SubscriptionPlan) (endUnix now base next : Z) (advanced : bool)
    : option (Z * Z * bool) :=
  if (0 <? next) && (next <=? now) then
    match fuel with
    | O => None
    | S fuel => advance_resets fuel off plan endUnix now next (calcNextResetTime off next plan endUnix) true
    end
  else Some (base, next, advanced).

(** A custom period that a [time.Duration] can hold: about 292 years. *)
Definition reset_seconds_fit (plan : SubscriptionPlan) : Prop :=
  plan.(p_QuotaResetCustomSeconds) <= MaxInt64 / Nanosecond_per_second.

Lemma Add_seconds base n : 0 < n <= MaxInt64 / Nanosecond_per_second -> Add base (seconds_to_duration n) = base + n.
Proof.
  intros Hn. unfold Add, seconds_to_duration, Nanosecond_per_second in *.
  change (MaxInt64 / 1000000000) with 9223372036 in Hn.
  rewrite wrap64_id by (unfold in_i64, MinInt64, MaxInt64; lia).
  rewrite Z.div_mul by lia. done.
Qed.

Lemma iso_weekday_range off u : 1 <= iso_weekday off u <= 7.
Proof.
  unfold iso_weekday, Weekday. pose proof (Z.mod_pos_bound (unix_days off u + 4) 7 ltac:(lia)).
  destruct (Z.eqb_spec ((unix_days off u + 4) mod 7) 0); lia.
Qed.

(** The reset before the period's end is applied. *)
Definition raw_next (off base : Z) (plan : SubscriptionPlan) (next : Z) : Prop :=
  let period := NormalizeResetPeriod plan.(p_QuotaResetPeriod) in
  (period = SubscriptionResetDaily /\ next = base - sec_of_day off base + 86400) \/
  (period = SubscriptionResetWeekly /\ next = base - sec_of_day off base + (8 - iso_weekday off base) * 86400) \/
  (period = SubscriptionResetMonthly /\ next = AddDate off (Date off (Year off base) (Month off base) 1) 0 1 0) \/
  (period = SubscriptionResetCustom /\ 0 < plan.(p_QuotaResetCustomSeconds) /\
     next = Add base (seconds_to_duration plan.(p_QuotaResetCustomSeconds))).

Lemma calcNextResetTime_cases off base plan endUnix :
  calcNextResetTime off base plan endUnix = 0 \/
  (raw_next off base plan (calcNextResetTime off base plan endUnix) /\
   (0 < endUnix -> calcNextResetTime off base plan endUnix <= endUnix)).
Proof.
  unfold calcNextResetTime, raw_next. cbv zeta.
  set (period := NormalizeResetPeriod _). rewrite Date_midnight, !AddDate_days.
  assert (forall next, (if (0 <? endUnix) && (endUnix <? next) then 0 else next) = 0 \/
    ((if (0 <? endUnix) && (endUnix <? next) then 0 else next) = next /\ (0 < endUnix -> next <= endUnix))) as Hclip.
  { intros next. destruct (Z.ltb_spec 0 endUnix), (Z.ltb_spec endUnix next); simpl; lia. }
  destruct (String.eqb_spec period SubscriptionResetNever); [auto|].
  destruct (String.eqb_spec period SubscriptionResetDaily).
  { edestruct Hclip as [->|[-> ?]]; [auto|]. right. split; [|done]. left. split; [done|lia]. }
  destruct (String.eqb_spec period SubscriptionResetWeekly).
  { edestruct Hclip as [->|[-> ?]]; [auto|]. right. split; [|done]. right; left. done. }
  destruct (String.eqb_spec period SubscriptionResetMonthly).
  { edestruct Hclip as [->|[-> ?]]; [auto|]. right. split; [|done]. right; right; left. done. }
  destruct (String.eqb_spec period SubscriptionResetCustom); [|auto].
  destruct (Z.leb_spec (p_QuotaResetCustomSeconds plan) 0); [auto|].
  edestruct Hclip as [->|[-> ?]]; [auto|]. right. split; [|done]. right; right; right. done.
Qed.

Lemma calcNextResetTime_after off base plan endUnix :
  reset_seconds_fit plan ->
  calcNextResetTime off base plan endUnix = 0 \/ base < calcNextResetTime off base plan endUnix.
Proof.
  intros Hfit. destruct (calcNextResetTime_cases off base plan endUnix) as [H|[H _]]; [by left|right].
  pose proof (unix_split off base). destruct H as [[_ H]|[[_ H]|[[_ H]|(_ & Hp & H)]]]; rewrite H.
  - lia.
  - pose proof (iso_weekday_range off base). lia.
  - apply first_of_next_month.
  - rewrite Add_seconds by (unfold reset_seconds_fit in Hfit; lia). lia.
Qed.

(** Midnight of a day, and the weekday it has. *)
Lemma midnight_shift off base k :
  sec_of_day off (base - sec_of_day off base + k * 86400) = 0 /\
  unix_days off (base - sec_of_day off base + k * 86400) = unix_days off base + k.
Proof.
  destruct (unix_split off base) as [Hb Hs]. unfold sec_of_day at 1, unix_days at 1.
  replace (base - sec_of_day off base + k * 86400 + off) with ((unix_days off base + k) * 86400) by lia.
  rewrite Z.mod_mul, Z.div_mul by lia. done.
Qed.

(** The next reset of a calendar period falls where it should: strictly
    after [base], never past the end of the subscription, at local midnight, and
    within one day (daily), on the first Monday at most a week away (weekly), or on
    the first day of the following month (monthly). *)
Theorem calcNextResetTime_aligned off base plan endUnix :
  let next := calcNextResetTime off base plan endUnix in
  let period := NormalizeResetPeriod plan.(p_QuotaResetPeriod) in
  next <> 0 -> period <> SubscriptionResetCustom ->
  base < next /\ (0 < endUnix -> next <= endUnix) /\ sec_of_day off next = 0 /\
  ((period = SubscriptionResetDaily /\ next <= base + 86400) \/
   (period = SubscriptionResetWeekly /\ Weekday off next = 1 /\ next <= base + 7 * 86400) \/
   (period = SubscriptionResetMonthly /\ Day off next = 1 /\
    12 * Year off next + Month off next = 12 * Year off base + Month off base + 1)).
Proof.
  cbv zeta. intros H0 Hc. destruct (calcNextResetTime_cases off base plan endUnix) as [H|[H Hend]]; [done|].
  destruct (unix_split off base) as [Hb Hs].
  destruct H as [[Hp H]|[[Hp H]|[[Hp H]|(Hp & _)]]]; [| | |done].
  - pose proof (midnight_shift off base 1) as [H1 _]. rewrite H in *. rewrite Z.mul_1_l in *.
    split_and!; [lia|done|done|]. left. split; [done|lia].
  - pose proof (midnight_shift off base (8 - iso_weekday off base)) as [H1 H2].
    pose proof (iso_weekday_range off base). rewrite H in *.
    split_and!; [lia|done|done|]. right; left. split_and!; [done| |lia].
    unfold Weekday. rewrite H2. unfold iso_weekday, Weekday.
    pose proof (Z.mod_pos_bound (unix_days off base + 4) 7 ltac:(lia)).
    set (wd := (unix_days off base + 4) mod 7) in *.
    assert (unix_days off base + 4 = 7 * ((unix_days off base + 4) / 7) + wd) as E by (apply Z.div_mod; lia).
    destruct (Z.eqb_spec wd 0).
    + replace (unix_days off base + (8 - 7) + 4) with (1 + ((unix_days off base + 4) / 7) * 7) by lia.
      rewrite Z.mod_add by lia. done.
    + replace (unix_days off base + (8 - wd) + 4) with (1 + (((unix_days off base + 4) / 7) + 1) * 7) by lia.
      rewrite Z.mod_add by lia. done.
  - pose proof (first_of_next_month off base) as Hlt. rewrite H in *.
    pose proof (civil_of_days_spec (unix_days off base)) as Hcv.
    assert (1 <= Month off base <= 12) as Hm.
    { unfold Month. destruct (civil_of_days _) as [[y m] d]. simpl. lia. }
    clear Hcv. destruct (Date_first_reads off (Year off base) (Month off base)) as (Ey & Em & Ed & Es); [done|].
    remember (AddDate off (Date off (Year off base) (Month off base) 1) 0 1 0) as n eqn:En.
    assert (n = Date off (Year off base + Month off base / 12) (Month off base mod 12 + 1) 1) as Hn.
    { rewrite En. unfold AddDate. rewrite Ey, Em, Ed, Es. unfold Date. rewrite !Z.add_0_r.
      replace (Month off base + 1 - 1) with (Month off base) by lia.
      pose proof (Z.mod_pos_bound (Month off base) 12 ltac:(lia)).
      replace (Month off base mod 12 + 1 - 1) with (Month off base mod 12) by lia.
      rewrite (Z.div_small (Month off base mod 12)), (Z.mod_small (Month off base mod 12)), Z.add_0_r by lia. done. }
    destruct (Date_first_reads off (Year off base + Month off base / 12) (Month off base mod 12 + 1))
      as (Fy & Fm & Fd & Fs); [pose proof (Z.mod_pos_bound (Month off base) 12 ltac:(lia)); lia|].
    rewrite <- Hn in Fy, Fm, Fd, Fs. split_and!; [done..|].
    right; right. split_and!; [done..|]. rewrite Fy, Fm. pose proof (Z.div_mod (Month off base) 12). lia.
Qed.

Definition sample_plan (id total : Z) (period : string) : SubscriptionPlan :=
  mkSubscriptionPlan id "pro" (float64_of_int 10) "month" 1 0 true None None 0 "" "" total period 0.

(** 2023-11-14 22:13:20 UTC: the next Monday is 2023-11-20. *)
Lemma calcNextResetTime_aligned_witness :
  let next := calcNextResetTime 0 1700000000 (sample_plan 1 100 "weekly") 0 in
  next = 1700438400 /\ Weekday 0 next = 1.
Proof.
  intros next.
  destruct (calcNextResetTime_aligned 0 1700000000 (sample_plan 1 100 "weekly") 0) as (_ & _ & _ & [H|[H|H]]);
    [vm_compute; congruence|vm_compute; congruence|..].
  - destruct H as [H _]. vm_compute in H. discriminate H.
  - split; [vm_compute; reflexivity|]. apply H.
  - destruct H as [H _]. vm_compute in H. discriminate H.
Defined.

Lemma advance_resets_fuel fuel off plan endUnix now base next adv :
  reset_seconds_fit plan -> (Z.to_nat (now - next + 1) <= fuel)%nat ->
  exists base' next' adv', advance_resets fuel off plan endUnix now base next adv = Some (base', next', adv') /\
    (next' <= 0 \/ now < next').
Proof.
  intros Hfit. revert base next adv. induction fuel as [|fuel IH]; intros base next adv Hf; simpl.
  - destruct (Z.ltb_spec 0 next), (Z.leb_spec next now); simpl; try lia; eexists _, _, _; split; auto; lia.
  - destruct (Z.ltb_spec 0 next), (Z.leb_spec next now); simpl; try (eexists _, _, _; split; auto; lia).
    destruct (calcNextResetTime_after off next plan endUnix Hfit) as [E|E].
    + rewrite E. exists next, 0, true. split; [|lia]. by destruct fuel.
    + apply IH. lia.
Qed.

Lemma advance_resets_chain fuel off plan endUnix now base next adv b n a :
  reset_seconds_fit plan -> next = calcNextResetTime off base plan endUnix ->
  advance_resets fuel off plan endUnix now base next adv = Some (b, n, a) ->
  n = calcNextResetTime off b plan endUnix /\
  (if (0 <? next) && (next <=? now) then a = true /\ base < b <= now else b = base /\ a = adv).
Proof.
  intros Hfit. revert base next adv. induction fuel as [|fuel IH]; intros base next adv Hn H; simpl in H.
  - destruct ((0 <? next) && (next <=? now)) eqn:E; [done|]. by simplify_eq.
  - destruct ((0 <? next) && (next <=? now)) eqn:E; [|by simplify_eq].
    apply IH in H as [H1 H2]; [|done]. split; [done|].
    destruct (calcNextResetTime_after off base plan endUnix Hfit); [lia|].
    destruct (_ && _) in H2; [|destruct H2; subst; lia].
    destruct H2. split; [done|lia].
Qed.

(** The catch-up loop of a quota reset terminates and lands on the current
    period: with one round per second between the first missed reset and now
    (each round moves strictly forward), it stops with the reset after the last
    period start [b] not after [now], [b] is at or after [base], and it reports an
    advance exactly when a reset was due. *)
Theorem advance_resets_terminates off plan endUnix now base :
  reset_seconds_fit plan ->
  let next := calcNextResetTime off base plan endUnix in
  exists b n a,
    advance_resets (Z.to_nat (now - next + 1)) off plan endUnix now base next false = Some (b, n, a) /\
    n = calcNextResetTime off b plan endUnix /\ (n <= 0 \/ now < n) /\
    (a = true <-> 0 < next <= now) /\ (a = true -> base < b <= now) /\ (a = false -> b = base).
Proof.
  intros Hfit next.
  destruct (advance_resets_fuel (Z.to_nat (now - next + 1)) off plan endUnix now base next false Hfit) as
    (b & n & a & H & Hstop); [lia|].
  exists b, n, a. split; [done|].
  destruct (advance_resets_chain _ _ _ _ _ _ _ _ _ _ _ Hfit eq_refl H) as [Hn Hc].
  split; [done|]. split; [done|]. fold next in Hc.
  destruct (Z.ltb_spec 0 next), (Z.leb_spec next now); simpl in Hc; destruct Hc as [Ha Hb]; subst; split_and!;
    try done; lia.
Qed.

Lemma advance_resets_terminates_witness :
  reset_seconds_fit (sample_plan 1 100 "daily") /\
  exists n, advance_resets (Z.to_nat (1700259200 - calcNextResetTime 0 1700000000 (sample_plan 1 100 "daily") 0 + 1)) 0
    (sample_plan 1 100 "daily") 0 1700259200 1700000000
    (calcNextResetTime 0 1700000000 (sample_plan 1 100 "daily") 0) false = Some (1700179200, n, true).
Proof.
  assert (reset_seconds_fit (sample_plan 1 100 "daily")) as Hfit by (vm_compute; congruence).
  split; [exact Hfit|].
  destruct (advance_resets_terminates 0 (sample_plan 1 100 "daily") 0 1700259200 1700000000 Hfit)
    as (b & n & a & H & _). vm_compute in H. exists 1700265600.
  assert (b = 1700179200 /\ n = 1700265600 /\ a = true) as (-> & -> & ->) by (injection H; auto).
  destruct (advance_resets_terminates 0 (sample_plan 1 100 "daily") 0 1700259200 1700000000 Hfit)
    as (b & n & a & H' & _). rewrite H'. vm_compute in H'. injection H' as -> -> ->. reflexivity.
Defined.

(** A custom period of 2^55 seconds passes the only validation there is
    (it is positive), but as a [time.Duration] it wraps to zero: the next reset is
    the base itself and, once it is due, the catch-up loop never ends. *)
Theorem overflowing_reset_period_diverges off plan endUnix now base :
  plan.(p_QuotaResetPeriod) = "custom"%string -> plan.(p_QuotaResetCustomSeconds) = 2 ^ 55 ->
  0 < base <= now -> base <= endUnix ->
  calcNextResetTime off base plan endUnix = base /\
  forall fuel adv, advance_resets fuel off plan endUnix now base (calcNextResetTime off base plan endUnix) adv = None.
Proof.
  intros Hp Hs Hb He.
  assert (calcNextResetTime off base plan endUnix = base) as E.
  { unfold calcNextResetTime. rewrite Hp. cbn -[Date Add seconds_to_duration Z.pow]. rewrite Hs.
    replace (2 ^ 55 <=? 0) with false by done.
    replace (Add base (seconds_to_duration (2 ^ 55))) with base.
    - destruct (Z.ltb_spec endUnix base); [lia|]. by rewrite andb_false_r.
    - unfold Add. replace (seconds_to_duration (2 ^ 55)) with 0 by done. rewrite Z.div_0_l by done. lia. }
  split; [done|]. intros fuel. rewrite E.
  induction fuel as [|fuel IH]; intros adv; simpl;
    (destruct (Z.ltb_spec 0 base); [|lia]); (destruct (Z.leb_spec base now); [|lia]); simpl; [done|].
  rewrite E. apply IH.
Qed.

Lemma overflowing_reset_period_diverges_witness :
  let plan := mkSubscriptionPlan 1 "pro" (float64_of_int 10) "month" 1 0 true None None 0 "" "" 100 "custom" (2 ^ 55) in
  advance_resets 1000 0 plan 1800000000 1700259200 1700000000 (calcNextResetTime 0 1700000000 plan 1800000000) false = None.
Proof.
  intros plan. apply (overflowing_reset_period_diverges 0 plan 1800000000 1700259200 1700000000);
    [reflexivity|reflexivity|lia|lia].
Defined.
