(* ===== verification/Subscription.v ===== *)
(** * Subscriptions (model/subscription.go, the operations)

    Plans and their cache, purchase and order completion, group upgrade and
    downgrade, administration, periodic reset and expiry, and the per-request
    pre-consumption with its idempotency records.  Row locks ([lockForUpdate])
    serialise the transactions; each definition below is one such transaction with
    the statements in the order of the source. *)

From stdpp Require Import base tactics numbers list gmap strings sorting pretty.
From Stdlib Require Import ZArith Lia.
From S2P Require Import Prelude Float64 QuotaMath Calendar World UserCache QuotaStore SubscriptionTime.
Open Scope Z_scope.

Definition TopUpStatusPending : string := "pending".
Definition TopUpStatusSuccess : string := "success".
Definition TopUpStatusFailed : string := "failed".
Definition TopUpStatusExpired : string := "expired".

(** model/db_time.go: the database clock, or the local one when it cannot be read. *)
Definition GetDBTimestamp : MW Z :=
  let! r := catch (stmt ;; gets w_dbclock) in
  let! local := GetTimestamp in
  match r with
  | Ok ts => if ts <=? 0 then ret local else ret ts
  | Err _ => ret local
  end.

(** ** Plans and their cache *)

Definition NormalizeDefaults (p : SubscriptionPlan) : SubscriptionPlan :=
  let p := match p.(p_AllowBalancePay) with
           | None => set_p_AllowBalancePay (fun _ => Some true) p
           | Some _ => p
           end in
  match p.(p_AllowWalletOverflow) with
  | None => set_p_AllowWalletOverflow (fun _ => Some true) p
  | Some _ => p
  end.

(** pkg/cachex HybridCache: a Redis key when Redis is on, process memory otherwise;
    only the former can fail. *)
Definition cache_access : MW unit := let! en := cfg RedisEnabled in if en then redis_cmd else ret tt.
Definition HybridCache_Get {A} (f : Redis -> option A) : MW (option A) :=
  let! r := catch (cache_access ;; gets (fun w => f w.(w_redis))) in
  match r with Ok v => ret v | Err _ => ret None end.
Definition HybridCache_Set (f : Redis -> Redis) : MW unit :=
  catch (cache_access ;; modify_redis f) ;; ret tt.

Definition InvalidateSubscriptionPlanCache (planId : Z) : MW unit :=
  if planId <=? 0 then ret tt
  else
    HybridCache_Set (set_plan_cache (delete planId)) ;;
    HybridCache_Set (set_plan_info_cache (fun _ => ∅)).

Definition getSubscriptionPlanByIdTx (id : Z) : MW SubscriptionPlan :=
  if id <=? 0 then throw (ErrMsg "invalid plan id")
  else
    let! cached := HybridCache_Get (fun r => r.(plan_cache) !! id) in
    match cached with
    | Some plan => ret (NormalizeDefaults plan)
    | None =>
        stmt ;;
        let! row := gets (fun w => w.(w_db).(plans) !! id) in
        match row with
        | None => throw ErrRecordNotFound
        | Some plan =>
            let plan := NormalizeDefaults plan in
            HybridCache_Set (set_plan_cache (insert id plan)) ;;
            ret plan
        end
    end.
Definition GetSubscriptionPlanById (id : Z) : MW SubscriptionPlan := getSubscriptionPlanByIdTx id.

(** ** Queries on user subscriptions *)

Definition end_asc (a b : UserSubscription) : bool :=
  (a.(s_EndTime) <? b.(s_EndTime)) || ((a.(s_EndTime) =? b.(s_EndTime)) && (a.(s_Id) <=? b.(s_Id))).
Definition end_desc (a b : UserSubscription) : bool := end_asc b a.
Definition user_end_asc (a b : UserSubscription) : bool :=
  (a.(s_UserId) <? b.(s_UserId)) || ((a.(s_UserId) =? b.(s_UserId)) && end_asc a b).
Definition next_reset_asc (a b : UserSubscription) : bool := a.(s_NextResetTime) <=? b.(s_NextResetTime).

(** [WHERE p ORDER BY le] *)
Definition select_subs (p : UserSubscription -> bool) (le : UserSubscription -> UserSubscription -> bool) (d : DB)
    : list UserSubscription :=
  merge_sort (fun a b => Is_true (le a b)) (filter (fun s => Is_true (p s)) (map_to_list d.(subs)).*2).
Definition find_subs (p : UserSubscription -> bool) (le : UserSubscription -> UserSubscription -> bool)
    : MW (list UserSubscription) :=
  stmt ;; gets (fun w => select_subs p le w.(w_db)).
Definition count_subs (p : UserSubscription -> bool) : MW Z :=
  stmt ;; gets (fun w => Z.of_nat (length (select_subs p end_asc w.(w_db)))).
(** [WHERE id = ? ... First]: the locked row. *)
Definition first_sub (id : Z) : MW UserSubscription :=
  stmt ;;
  let! row := gets (fun w => w.(w_db).(subs) !! id) in
  match row with Some s => ret s | None => throw ErrRecordNotFound end.
(** [tx.Save(sub)], with the BeforeUpdate hook. *)
Definition save_sub (sub : UserSubscription) : MW unit :=
  let! now := GetTimestamp in
  stmt ;; modify_db (set_subs (insert sub.(s_Id) (set_s_UpdatedAt (fun _ => now) sub))).

Definition active_at (userId now : Z) (s : UserSubscription) : bool :=
  (s.(s_UserId) =? userId) && String.eqb s.(s_Status) "active" && (now <? s.(s_EndTime)).

Definition CountUserSubscriptionsByPlan (userId planId : Z) : MW Z :=
  if (userId <=? 0) || (planId <=? 0) then throw (ErrMsg "invalid userId or planId")
  else count_subs (fun s => (s.(s_UserId) =? userId) && (s.(s_PlanId) =? planId)).

Definition GetAllActiveUserSubscriptions (userId : Z) : MW (list UserSubscription) :=
  if userId <=? 0 then throw (ErrMsg "invalid userId")
  else let! now := GetTimestamp in find_subs (active_at userId now) end_desc.

Definition HasActiveUserSubscription (userId : Z) : MW bool :=
  if userId <=? 0 then throw (ErrMsg "invalid userId")
  else
    let! now := GetTimestamp in
    let! count := count_subs (active_at userId now) in
    ret (0 <? count).

Definition UserActiveSubscriptionsAllowWalletOverflow (userId : Z) : MW bool :=
  if userId <=? 0 then throw (ErrMsg "invalid userId")
  else
    let! now := GetTimestamp in
    let! strictCount := count_subs (fun s => active_at userId now s && negb s.(s_AllowWalletOverflow)) in
    ret (strictCount =? 0).

Definition GetAllUserSubscriptions (userId : Z) : MW (list UserSubscription) :=
  if userId <=? 0 then throw (ErrMsg "invalid userId")
  else find_subs (fun s => s.(s_UserId) =? userId) end_desc.

(** ** User groups *)

(** [Select(group).Find(&group)]: no row leaves the empty string. *)
Definition getUserGroupByIdTx (userId : Z) : MW string :=
  if userId <=? 0 then throw (ErrMsg "invalid userId")
  else
    stmt ;;
    gets (fun w => match visible_user w.(w_db) userId with Some u => u.(u_Group) | None => "" end).

Definition update_group (userId : Z) (group : string) : MW unit :=
  update_user userId (fun _ => true) (set_u_Group (fun _ => group)) ;; ret tt.

(** A failed look-up of another active subscription counts as "none". *)
Definition has_active_upgrade (p : UserSubscription -> bool) : MW bool :=
  let! r := catch (find_subs p end_desc) in
  match r with
  | Ok (_ :: _) => ret true
  | _ => ret false
  end.

Definition downgradeUserGroupForSubscriptionTx (sub : UserSubscription) (now : Z) : MW string :=
  let downgradeGroup := TrimSpace sub.(s_DowngradeGroup) in
  let upgradeGroup := TrimSpace sub.(s_UpgradeGroup) in
  if String.eqb downgradeGroup "" && String.eqb upgradeGroup "" then ret ""%string
  else
    let! currentGroup := getUserGroupByIdTx sub.(s_UserId) in
    let! other := has_active_upgrade (fun s => active_at sub.(s_UserId) now s && negb (s.(s_Id) =? sub.(s_Id))
                                             && negb (String.eqb s.(s_UpgradeGroup) "")) in
    if other then ret ""%string
    else if String.eqb downgradeGroup "" && negb (String.eqb currentGroup upgradeGroup) then ret ""%string
    else
      let target := if String.eqb downgradeGroup "" then TrimSpace sub.(s_PrevUserGroup) else downgradeGroup in
      if String.eqb target "" || String.eqb target currentGroup then ret ""%string
      else update_group sub.(s_UserId) target ;; ret target.

Definition refreshSubscriptionUserGroupCache (userId : Z) : MW unit :=
  catch (RefreshUserGroupCache userId) ;; ret tt.

(** ** Creation *)

(** [AmountTotal] and [TotalAmount] are int64 columns. *)

Definition purchase_limit : error := ErrMsg "已达到该套餐购买上限".

Definition CreateUserSubscriptionFromPlanTx (userId : Z) (plan : SubscriptionPlan) (source : string) : MW UserSubscription :=
  if plan.(p_Id) =? 0 then throw (ErrMsg "invalid plan")
  else if userId <=? 0 then throw (ErrMsg "invalid user id")
  else
    (if 0 <? plan.(p_MaxPurchasePerUser) then
       let! count := count_subs (fun s => (s.(s_UserId) =? userId) && (s.(s_PlanId) =? plan.(p_Id))) in
       guardE (plan.(p_MaxPurchasePerUser) <=? count) purchase_limit
     else ret tt) ;;
    let! now := GetDBTimestamp in
    let! off := cfg tz_offset in
    let! endUnix := of_result (calcPlanEndTime off now plan) in
    let nextReset := calcNextResetTime off now plan endUnix in
    let lastReset := if 0 <? nextReset then now else 0 in
    let upgradeGroup := TrimSpace plan.(p_UpgradeGroup) in
    let! prevGroup :=
      (if String.eqb upgradeGroup "" then ret ""%string
       else
         let! currentGroup := getUserGroupByIdTx userId in
         if String.eqb currentGroup upgradeGroup then ret ""%string
         else update_group userId upgradeGroup ;; ret currentGroup) in
    let! local := GetTimestamp in
    stmt ;;
    let! id := gets (fun w => w.(w_db).(next_sub_id)) in
    let sub := mkUserSubscription id userId plan.(p_Id) (wrap64 plan.(p_TotalAmount)) 0 now endUnix "active" source
                 lastReset nextReset upgradeGroup prevGroup (TrimSpace plan.(p_DowngradeGroup))
                 (default true plan.(p_AllowWalletOverflow)) local in
    modify_db (fun d => set_next_sub_id (fun n => n + 1) (set_subs (insert id sub) d)) ;;
    ret sub.

(** ** Orders *)

Definition first_order (tradeNo : string) : MW SubscriptionOrder :=
  stmt ;;
  let! row := gets (fun w => w.(w_db).(orders) !! tradeNo) in
  match row with Some o => ret o | None => throw ErrRecordNotFound end.
Definition save_order (o : SubscriptionOrder) : MW unit :=
  stmt ;; modify_db (set_orders (insert o.(o_TradeNo) o)).
(** [Create]: the trade number is unique. *)
Definition create_order (o : SubscriptionOrder) : MW unit :=
  stmt ;;
  let! row := gets (fun w => w.(w_db).(orders) !! o.(o_TradeNo)) in
  match row with
  | Some _ => throw ErrDB
  | None => modify_db (set_orders (insert o.(o_TradeNo) o))
  end.

Definition Order_Insert (o : SubscriptionOrder) : MW unit :=
  let! now := GetTimestamp in
  create_order (if o.(o_CreateTime) =? 0 then
                  mkSubscriptionOrder o.(o_UserId) o.(o_PlanId) o.(o_Money) o.(o_TradeNo) o.(o_PaymentMethod)
                    o.(o_PaymentProvider) o.(o_Status) now o.(o_CompleteTime) o.(o_ProviderPayload)
                else o).

Definition GetSubscriptionOrderByTradeNo (tradeNo : string) : MW (option SubscriptionOrder) :=
  if String.eqb tradeNo "" then ret None
  else
    let! r := catch (first_order tradeNo) in
    match r with Ok o => ret (Some o) | Err _ => ret None end.

Definition first_topup (tradeNo : string) : MW TopUp :=
  stmt ;;
  let! row := gets (fun w => w.(w_db).(topups) !! tradeNo) in
  match row with Some t => ret t | None => throw ErrRecordNotFound end.
Definition save_topup (t : TopUp) : MW unit :=
  stmt ;; modify_db (set_topups (insert t.(tu_TradeNo) t)).

Definition upsertSubscriptionTopUpTx (order : SubscriptionOrder) : MW unit :=
  let! now := GetTimestamp in
  let! r := catch (first_topup order.(o_TradeNo)) in
  match r with
  | Err e =>
      if bool_decide (e = ErrRecordNotFound) then
        save_topup (mkTopUp order.(o_UserId) 0 order.(o_Money) order.(o_TradeNo) order.(o_PaymentMethod) ""
                      order.(o_CreateTime) now TopUpStatusSuccess)
      else throw e
  | Ok topup =>
      let topup := set_tu_Money (fun _ => order.(o_Money)) topup in
      if negb (String.eqb topup.(tu_PaymentMethod) "")
         && negb (String.eqb topup.(tu_PaymentMethod) order.(o_PaymentMethod))
      then throw ErrPaymentMethodMismatch
      else
        let topup := if String.eqb topup.(tu_PaymentMethod) ""
                     then set_tu_PaymentMethod (fun _ => order.(o_PaymentMethod)) topup else topup in
        let topup := if topup.(tu_CreateTime) =? 0
                     then set_tu_CreateTime (fun _ => order.(o_CreateTime)) topup else topup in
        save_topup (set_tu_Status (fun _ => TopUpStatusSuccess) (set_tu_CompleteTime (fun _ => now) topup))
  end.

(** Any failure to load the order is reported as "not found". *)
Definition locked_order (tradeNo provider : string) : MW SubscriptionOrder :=
  let! r := catch (first_order tradeNo) in
  match r with
  | Err _ => throw ErrSubscriptionOrderNotFound
  | Ok order =>
      if negb (String.eqb provider "") && negb (String.eqb order.(o_PaymentProvider) provider)
      then throw ErrPaymentMethodMismatch else ret order
  end.

(** The transaction; [None] when the order was already completed. *)
Definition complete_order_tx (tradeNo providerPayload provider actualMethod : string) : MW (option (Z * bool)) :=
  let! order := locked_order tradeNo provider in
  if String.eqb order.(o_Status) TopUpStatusSuccess then ret None
  else if negb (String.eqb order.(o_Status) TopUpStatusPending) then throw ErrSubscriptionOrderStatusInvalid
  else
    let! plan := GetSubscriptionPlanById order.(o_PlanId) in
    first_user order.(o_UserId) ;;
    let! subscription := CreateUserSubscriptionFromPlanTx order.(o_UserId) plan "order" in
    upsertSubscriptionTopUpTx order ;;
    let! now := GetTimestamp in
    let order := set_o_CompleteTime (fun _ => now) (set_o_Status (fun _ => TopUpStatusSuccess) order) in
    let order := if String.eqb providerPayload "" then order else set_o_ProviderPayload (fun _ => providerPayload) order in
    let order := if negb (String.eqb actualMethod "") && negb (String.eqb order.(o_PaymentMethod) actualMethod)
                 then set_o_PaymentMethod (fun _ => actualMethod) order else order in
    save_order order ;;
    ret (Some (order.(o_UserId),
               negb (String.eqb subscription.(s_PrevUserGroup) "")
               && negb (String.eqb (TrimSpace subscription.(s_UpgradeGroup)) ""))).

Definition CompleteSubscriptionOrder (tradeNo providerPayload provider actualMethod : string) : MW unit :=
  if String.eqb tradeNo "" then throw (ErrMsg "tradeNo is empty")
  else
    let! r := Transaction (complete_order_tx tradeNo providerPayload provider actualMethod) in
    match r with
    | None => ret tt
    | Some (logUserId, upgraded) =>
        (if upgraded && (0 <? logUserId) then refreshSubscriptionUserGroupCache logUserId else ret tt) ;;
        (if 0 <? logUserId then RecordLog logUserId LogTypeTopup 0 else ret tt)
    end.

Definition ExpireSubscriptionOrder (tradeNo provider : string) : MW unit :=
  if String.eqb tradeNo "" then throw (ErrMsg "tradeNo is empty")
  else
    Transaction (
      let! order := locked_order tradeNo provider in
      if negb (String.eqb order.(o_Status) TopUpStatusPending) then ret tt
      else
        let! now := GetTimestamp in
        save_order (set_o_CompleteTime (fun _ => now) (set_o_Status (fun _ => TopUpStatusExpired) order))).

Definition AdminBindSubscription (userId planId : Z) : MW string :=
  if (userId <=? 0) || (planId <=? 0) then throw (ErrMsg "invalid userId or planId")
  else
    let! plan := GetSubscriptionPlanById planId in
    let! groupChanged := Transaction (
      first_user userId ;;
      let! subscription := CreateUserSubscriptionFromPlanTx userId plan "admin" in
      ret (negb (String.eqb subscription.(s_PrevUserGroup) ""))) in
    if groupChanged : bool then
      refreshSubscriptionUserGroupCache userId ;;
      ret ("用户分组将升级到 " +:+ plan.(p_UpgradeGroup))
    else ret ""%string.

(** ** Purchase from the wallet *)

Definition PaymentMethodBalance : string := "balance".
Definition PaymentProviderBalance : string := "balance".

Section balance.
Context {D : Decimal}.

Definition calcSubscriptionBalanceQuota (quotaPerUnit priceAmount : float64) : result error Z :=
  if f_le priceAmount (float64_of_int 0) then Ok 0
  else if f_le quotaPerUnit (float64_of_int 0) then Err (ErrMsg "额度单位配置错误")
  else
    match WalletQuotaFromDecimalStrict (d_Ceil (d_Mul (NewFromFloat priceAmount) (NewFromFloat quotaPerUnit))) with
    | Ok q => Ok q
    | Err _ => Err ErrQuotaClamp
    end.

(** The transaction; [tradeNo] is the generated order number. *)
Definition purchase_with_balance_tx (userId planId : Z) (tradeNo : string) : MW (Z * bool) :=
  let! plan := getSubscriptionPlanByIdTx planId in
  if negb plan.(p_Enabled) then throw (ErrMsg "套餐未启用")
  else if f_lt plan.(p_PriceAmount) (float64_of_int 0) then throw (ErrMsg "套餐价格不能为负数")
  else if bool_decide (plan.(p_AllowBalancePay) = Some false) then throw (ErrMsg "该套餐不允许使用余额兑换")
  else
    let! perUnit := cfg QuotaPerUnit in
    let! requiredQuota := of_result (calcSubscriptionBalanceQuota perUnit plan.(p_PriceAmount)) in
    let! user := first_user userId in
    if (0 <? requiredQuota) && (user.(u_Quota) <? requiredQuota) then throw (ErrMsg "余额不足")
    else
      (if 0 <? requiredQuota
       then update_user userId (fun _ => true) (set_u_Quota (fun q => q - requiredQuota)) ;; ret tt
       else ret tt) ;;
      let! subscription := CreateUserSubscriptionFromPlanTx userId plan PaymentMethodBalance in
      let! now := GetTimestamp in
      create_order (mkSubscriptionOrder userId plan.(p_Id) plan.(p_PriceAmount) tradeNo PaymentMethodBalance
                      PaymentProviderBalance TopUpStatusSuccess now now ("charged_quota=" +:+ pretty requiredQuota)) ;;
      ret (requiredQuota,
           negb (String.eqb subscription.(s_PrevUserGroup) "")
           && negb (String.eqb (TrimSpace subscription.(s_UpgradeGroup)) "")).

Definition PurchaseSubscriptionWithBalance (userId planId : Z) (tradeNo : string) : MW unit :=
  if (userId <=? 0) || (planId <=? 0) then throw (ErrMsg "invalid userId or planId")
  else
    let! r := Transaction (purchase_with_balance_tx userId planId tradeNo) in
    let (chargedQuota, upgraded) := r : Z * bool in
    (if 0 <? chargedQuota then catch (cacheDecrUserQuota userId chargedQuota) ;; ret tt else ret tt) ;;
    (if upgraded : bool then refreshSubscriptionUserGroupCache userId else ret tt) ;;
    RecordLog userId LogTypeTopup 0.
End balance.

(** ** Administration *)

Definition group_message (target : string) : string :=
  if String.eqb target "" then "" else "用户分组将回退到 " +:+ target.

(** The downgrade of a removed subscription, then the cache and the message. *)
Definition after_downgrade (r : Z * string) : MW string :=
  let (userId, target) := r in
  (if negb (String.eqb target "") && (0 <? userId) then refreshSubscriptionUserGroupCache userId else ret tt) ;;
  ret (group_message target).

Definition AdminInvalidateUserSubscription (userSubscriptionId : Z) : MW string :=
  if userSubscriptionId <=? 0 then throw (ErrMsg "invalid userSubscriptionId")
  else
    let! now := GetTimestamp in
    let! r := Transaction (
      let! sub := first_sub userSubscriptionId in
      let sub := set_s_UpdatedAt (fun _ => now) (set_s_EndTime (fun _ => now) (set_s_Status (fun _ => "cancelled"%string) sub)) in
      stmt ;; modify_db (set_subs (insert userSubscriptionId sub)) ;;
      let! target := downgradeUserGroupForSubscriptionTx sub now in
      ret (sub.(s_UserId), target)) in
    after_downgrade r.

Definition AdminDeleteUserSubscription (userSubscriptionId : Z) : MW string :=
  if userSubscriptionId <=? 0 then throw (ErrMsg "invalid userSubscriptionId")
  else
    let! now := GetTimestamp in
    let! r := Transaction (
      let! sub := first_sub userSubscriptionId in
      let! target := downgradeUserGroupForSubscriptionTx sub now in
      stmt ;; modify_db (set_subs (delete userSubscriptionId)) ;;
      ret (sub.(s_UserId), target)) in
    after_downgrade r.

Definition resetUserSubscriptionTx (sub : UserSubscription) (plan : SubscriptionPlan) (now : Z) (advanceResetTime : bool)
    : MW unit :=
  let! off := cfg tz_offset in
  let sub := set_s_AmountUsed (fun _ => 0) sub in
  let sub := if advanceResetTime then
               let nextReset := calcNextResetTime off now plan sub.(s_EndTime) in
               set_s_LastResetTime (fun _ => if 0 <? nextReset then now else 0)
                 (set_s_NextResetTime (fun _ => nextReset) sub)
             else sub in
  save_sub sub.

Record SubscriptionResetResult := mkResetResult {
  rr_PlanId : Z;
  rr_MatchedCount : Z;
  rr_ResetCount : Z;
  rr_UserCount : Z;
  rr_AdvanceResetTime : bool;
  rr_PlanTitle : string;
  rr_AffectedUserIds : list Z
}.

(** The users in order of first appearance. *)
Definition buildSubscriptionResetResult (plan : SubscriptionPlan) (subs : list UserSubscription) (advance : bool)
    : SubscriptionResetResult :=
  let userIds := rev (remove_dups (rev (s_UserId <$> subs))) in
  mkResetResult plan.(p_Id) (Z.of_nat (length subs)) (Z.of_nat (length subs)) (Z.of_nat (length userIds)) advance
    plan.(p_Title) userIds.

Definition adminResetUserSubscriptionsByPlanTx (userId : Z) (plan : SubscriptionPlan) (now : Z) (advance : bool)
    : MW SubscriptionResetResult :=
  let! subs := find_subs (fun s => active_at userId now s && (s.(s_PlanId) =? plan.(p_Id))) end_asc in
  match subs with
  | [] => throw (ErrMsg "该用户没有有效的此套餐订阅")
  | _ =>
      mapM_ (fun s => resetUserSubscriptionTx s plan now advance) subs ;;
      ret (buildSubscriptionResetResult plan subs advance)
  end.

Definition adminResetPlanSubscriptionsTx (plan : SubscriptionPlan) (now : Z) (advance : bool) : MW SubscriptionResetResult :=
  let! subs := find_subs (fun s => (s.(s_PlanId) =? plan.(p_Id)) && String.eqb s.(s_Status) "active"
                                   && (now <? s.(s_EndTime))) user_end_asc in
  mapM_ (fun s => resetUserSubscriptionTx s plan now advance) subs ;;
  ret (buildSubscriptionResetResult plan subs advance).

Definition AdminResetUserSubscriptionsByPlan (userId planId : Z) (advance : bool) : MW SubscriptionResetResult :=
  if (userId <=? 0) || (planId <=? 0) then throw (ErrMsg "invalid userId or planId")
  else
    let! now := GetDBTimestamp in
    Transaction (
      let! plan := getSubscriptionPlanByIdTx planId in
      adminResetUserSubscriptionsByPlanTx userId plan now advance).

Definition AdminResetPlanSubscriptions (planId : Z) (advance : bool) : MW SubscriptionResetResult :=
  if planId <=? 0 then throw (ErrMsg "invalid planId")
  else
    let! now := GetDBTimestamp in
    Transaction (
      let! plan := getSubscriptionPlanByIdTx planId in
      adminResetPlanSubscriptionsTx plan now advance).

(** ** Expiry *)

Definition due_at (now : Z) (s : UserSubscription) : bool :=
  String.eqb s.(s_Status) "active" && (0 <? s.(s_EndTime)) && (s.(s_EndTime) <=? now).

(** The transaction of one user: how many rows expired, and the group the user
    falls back to ("" for no change). *)
Definition expire_user_tx (userId now : Z) : MW (Z * string) :=
  let! local := GetTimestamp in
  let due s := (s.(s_UserId) =? userId) && due_at now s in
  stmt ;;
  let! n := gets (fun w => Z.of_nat (length (select_subs due end_asc w.(w_db)))) in
  modify_db (set_subs (fmap (fun s => if due s then set_s_UpdatedAt (fun _ => local)
                                        (set_s_Status (fun _ => "expired"%string) s) else s))) ;;
  let! other := has_active_upgrade (fun s => active_at userId now s && negb (String.eqb s.(s_UpgradeGroup) "")) in
  if other then ret (n, ""%string)
  else
    let! r := catch (find_subs (fun s => (s.(s_UserId) =? userId) && String.eqb s.(s_Status) "expired"
                                  && (negb (String.eqb s.(s_DowngradeGroup) "") || negb (String.eqb s.(s_UpgradeGroup) "")))
                       end_desc) in
    match r with
    | Ok (lastExpired :: _) =>
        let! currentGroup := getUserGroupByIdTx userId in
        let explicit := TrimSpace lastExpired.(s_DowngradeGroup) in
        let upgradeGroup := TrimSpace lastExpired.(s_UpgradeGroup) in
        let prevGroup := TrimSpace lastExpired.(s_PrevUserGroup) in
        if String.eqb explicit ""
           && (String.eqb upgradeGroup "" || String.eqb prevGroup "" || negb (String.eqb currentGroup upgradeGroup))
        then ret (n, ""%string)
        else
          let target := if String.eqb explicit "" then prevGroup else explicit in
          if String.eqb target "" || String.eqb target currentGroup then ret (n, ""%string)
          else update_group userId target ;; ret (n, target)
    | _ => ret (n, ""%string)
    end.

Fixpoint expire_users (userIds : list Z) (now count : Z) : MW Z :=
  match userIds with
  | [] => ret count
  | userId :: rest =>
      let! r := Transaction (expire_user_tx userId now) in
      let (n, cacheGroup) := r : Z * string in
      (if String.eqb cacheGroup "" then ret tt else refreshSubscriptionUserGroupCache userId) ;;
      expire_users rest now (count + n)
  end.

(** The users are visited in the order of a Go map, which is unspecified; the
    order of [elements] stands for it. *)
Definition ExpireDueSubscriptions (limit : Z) : MW Z :=
  let limit := if limit <=? 0 then 200 else limit in
  let! now := GetDBTimestamp in
  let! due := find_subs (due_at now) end_asc in
  let userIds := filter (fun id => 0 < id) (s_UserId <$> take (Z.to_nat limit) due) in
  expire_users (elements (list_to_set userIds : gset Z)) now 0.

(** ** Resets *)

Definition maybeResetUserSubscriptionWithPlanTx (sub : UserSubscription) (plan : SubscriptionPlan) (now : Z)
    : MW UserSubscription :=
  if (0 <? sub.(s_NextResetTime)) && (now <? sub.(s_NextResetTime)) then ret sub
  else if String.eqb (NormalizeResetPeriod plan.(p_QuotaResetPeriod)) SubscriptionResetNever then ret sub
  else
    let! off := cfg tz_offset in
    let base := if sub.(s_LastResetTime) <=? 0 then sub.(s_StartTime) else sub.(s_LastResetTime) in
    let next := calcNextResetTime off base plan sub.(s_EndTime) in
    match advance_resets (Z.to_nat (now - next + 1)) off plan sub.(s_EndTime) now base next false with
    | None => throw ErrDiverges
    | Some (base, next, advanced) =>
        if negb advanced then
          if (sub.(s_NextResetTime) =? 0) && (0 <? next) then
            let sub := set_s_LastResetTime (fun _ => base) (set_s_NextResetTime (fun _ => next) sub) in
            save_sub sub ;; ret sub
          else ret sub
        else
          let sub := set_s_NextResetTime (fun _ => next) (set_s_LastResetTime (fun _ => base)
                       (set_s_AmountUsed (fun _ => 0) sub)) in
          save_sub sub ;; ret sub
    end.

Definition reset_due_at (now : Z) (s : UserSubscription) : bool :=
  (0 <? s.(s_NextResetTime)) && (s.(s_NextResetTime) <=? now).

Definition reset_one_tx (id : Z) (plan : SubscriptionPlan) (now : Z) : MW Z :=
  let! locked := catch (first_sub id) in
  match locked with
  | Ok locked =>
      if reset_due_at now locked then maybeResetUserSubscriptionWithPlanTx locked plan now ;; ret 1 else ret 0
  | Err _ => ret 0
  end.

(** A subscription whose plan cannot be loaded is skipped. *)
Fixpoint reset_all (l : list UserSubscription) (now count : Z) : MW Z :=
  match l with
  | [] => ret count
  | sub :: rest =>
      let! plan := catch (getSubscriptionPlanByIdTx sub.(s_PlanId)) in
      match plan with
      | Err _ => reset_all rest now count
      | Ok plan =>
          let! n := Transaction (reset_one_tx sub.(s_Id) plan now) in
          reset_all rest now (count + n)
      end
  end.

Definition ResetDueSubscriptions (limit : Z) : MW Z :=
  let limit := if limit <=? 0 then 200 else limit in
  let! now := GetDBTimestamp in
  let! due := find_subs (fun s => reset_due_at now s && String.eqb s.(s_Status) "active") next_reset_asc in
  reset_all (take (Z.to_nat limit) due) now 0.

(** ** Per-request consumption *)

Record SubscriptionPreConsumeResult := mkPreConsumeResult {
  pc_UserSubscriptionId : Z;
  pc_PreConsumed : Z;
  pc_AmountTotal : Z;
  pc_AmountUsedBefore : Z;
  pc_AmountUsedAfter : Z
}.

Definition no_active_subscription : error := ErrMsg "no active subscription".
Definition already_refunded : error := ErrMsg "subscription pre-consume already refunded".
Definition subscription_insufficient (amount : Z) : error :=
  ErrMsg ("subscription quota insufficient, need=" +:+ pretty amount).

Definition find_record (requestId : string) : MW (option SubscriptionPreConsumeRecord) :=
  stmt ;; gets (fun w => w.(w_db).(pre_records) !! requestId).

(** [tx.Create(record)]: the request id is unique. *)
Definition create_record (r : SubscriptionPreConsumeRecord) : MW unit :=
  let! now := GetTimestamp in
  stmt ;;
  let! row := gets (fun w => w.(w_db).(pre_records) !! r.(r_RequestId)) in
  match row with
  | Some _ => throw ErrDB
  | None => modify_db (set_pre_records (insert r.(r_RequestId) (set_r_UpdatedAt (fun _ => now) r)))
  end.

Fixpoint try_candidates (requestId : string) (userId amount now : Z) (candidates : list UserSubscription)
    : MW SubscriptionPreConsumeResult :=
  match candidates with
  | [] => throw (subscription_insufficient amount)
  | candidate :: rest =>
      let! plan := getSubscriptionPlanByIdTx candidate.(s_PlanId) in
      let! sub := maybeResetUserSubscriptionWithPlanTx candidate plan now in
      let usedBefore := sub.(s_AmountUsed) in
      if (0 <? sub.(s_AmountTotal)) && (sub.(s_AmountTotal) -! usedBefore <? amount)
      then try_candidates requestId userId amount now rest
      else
        let! created := catch (create_record (mkPreConsumeRecord requestId userId sub.(s_Id) amount "consumed" 0)) in
        match created with
        | Err e =>
            let! dup := catch (find_record requestId) in
            match dup with
            | Ok (Some dup) =>
                if String.eqb dup.(r_Status) "refunded" then throw already_refunded
                else ret (mkPreConsumeResult sub.(s_Id) dup.(r_PreConsumed) sub.(s_AmountTotal) usedBefore usedBefore)
            | _ => throw e
            end
        | Ok _ =>
            let sub := set_s_AmountUsed (fun u => u +! amount) sub in
            save_sub sub ;;
            ret (mkPreConsumeResult sub.(s_Id) amount sub.(s_AmountTotal) usedBefore sub.(s_AmountUsed))
        end
  end.

Definition pre_consume_tx (requestId : string) (userId amount now : Z) : MW SubscriptionPreConsumeResult :=
  let! existing := find_record requestId in
  match existing with
  | Some existing =>
      if String.eqb existing.(r_Status) "refunded" then throw already_refunded
      else
        let! sub := first_sub existing.(r_UserSubscriptionId) in
        ret (mkPreConsumeResult sub.(s_Id) existing.(r_PreConsumed) sub.(s_AmountTotal) sub.(s_AmountUsed) sub.(s_AmountUsed))
  | None =>
      let! candidates := catch (find_subs (active_at userId now) end_asc) in
      match candidates with
      | Ok (c :: cs) => try_candidates requestId userId amount now (c :: cs)
      | _ => throw no_active_subscription
      end
  end.

Definition PreConsumeUserSubscription (requestId : string) (userId amount : Z) : MW SubscriptionPreConsumeResult :=
  if userId <=? 0 then throw (ErrMsg "invalid userId")
  else if String.eqb (TrimSpace requestId) "" then throw (ErrMsg "requestId is empty")
  else if amount <=? 0 then throw (ErrMsg "amount must be > 0")
  else
    let! now := GetDBTimestamp in
    Transaction (pre_consume_tx requestId userId amount now).

Definition post_consume_tx (userSubscriptionId delta : Z) : MW unit :=
  let! sub := first_sub userSubscriptionId in
  let newUsed := Z.max (sub.(s_AmountUsed) +! delta) 0 in
  if (0 <? sub.(s_AmountTotal)) && (sub.(s_AmountTotal) <? newUsed)
  then throw (ErrMsg ("subscription used exceeds total, used=" +:+ pretty newUsed +:+ " total=" +:+ pretty sub.(s_AmountTotal)))
  else save_sub (set_s_AmountUsed (fun _ => newUsed) sub).

Definition PostConsumeUserSubscriptionDelta (userSubscriptionId delta : Z) : MW unit :=
  if userSubscriptionId <=? 0 then throw (ErrMsg "invalid userSubscriptionId")
  else if delta =? 0 then ret tt
  else Transaction (post_consume_tx userSubscriptionId delta).

(** The outer transaction only writes the record, and it becomes visible at its
    commit; PostConsumeUserSubscriptionDelta opens a transaction of its own on the
    shared handle, which commits independently of the outer one. *)
Definition RefundSubscriptionPreConsume (requestId : string) : MW unit :=
  if String.eqb (TrimSpace requestId) "" then throw (ErrMsg "requestId is empty")
  else
    let! now := GetTimestamp in
    stmt ;; (* begin *)
    let! row := find_record requestId in
    match row with
    | None => throw ErrRecordNotFound
    | Some record =>
        let refunded := set_r_UpdatedAt (fun _ => now) (set_r_Status (fun _ => "refunded"%string) record) in
        if String.eqb record.(r_Status) "refunded" then stmt (* commit *)
        else
          (if record.(r_PreConsumed) <=? 0 then ret tt
           else PostConsumeUserSubscriptionDelta record.(r_UserSubscriptionId) (wrap64 (- record.(r_PreConsumed)))) ;;
          stmt ;; (* save *)
          stmt ;; (* commit *)
          modify_db (set_pre_records (insert requestId refunded))
    end.

Definition CleanupSubscriptionPreConsumeRecords (olderThanSeconds : Z) : MW Z :=
  let older := if olderThanSeconds <=? 0 then 7 * 24 * 3600 else olderThanSeconds in
  let! now := GetDBTimestamp in
  let cutoff := now -! older in
  stmt ;;
  let! old := gets (fun w => filter (fun kv => kv.2.(r_UpdatedAt) < cutoff) w.(w_db).(pre_records)) in
  modify_db (set_pre_records (filter (fun kv => ~ kv.2.(r_UpdatedAt) < cutoff))) ;;
  ret (Z.of_nat (size old)).

Definition GetSubscriptionPlanInfoByUserSubscriptionId (userSubscriptionId : Z) : MW (Z * string) :=
  if userSubscriptionId <=? 0 then throw (ErrMsg "invalid userSubscriptionId")
  else
    let! cached := HybridCache_Get (fun r => r.(plan_info_cache) !! userSubscriptionId) in
    match cached with
    | Some info => ret info
    | None =>
        let! sub := first_sub userSubscriptionId in
        let! plan := getSubscriptionPlanByIdTx sub.(s_PlanId) in
        let info := (sub.(s_PlanId), plan.(p_Title)) in
        HybridCache_Set (set_plan_info_cache (insert userSubscriptionId info)) ;;
        ret info
    end.
