(* ===== verification/SubscriptionInv.v ===== *)
(** * Subscription invariants (theorems on Subscription)

    The used amount of a limited subscription stays within [0, total] through
    every operation, under every fault script; pre-consumption is charged once per
    request; orders are fulfilled once; purchases from the wallet are atomic. *)

From stdpp Require Import base tactics numbers list gmap strings sorting relations.
From Stdlib Require Import ZArith Lia.
From S2P Require Import Prelude Float64 QuotaMath DecimalQ Calendar World UserCache QuotaStore Reserve SubscriptionTime Subscription.
Open Scope Z_scope.

(** ** The usage invariant *)

Definition sub_ok (s : UserSubscription) : Prop :=
  in_i64 s.(s_AmountTotal) /\ in_i64 s.(s_AmountUsed) /\
  (0 < s.(s_AmountTotal) -> 0 <= s.(s_AmountUsed) <= s.(s_AmountTotal)).

Definition subs_ok (d : DB) : Prop :=
  forall id s, d.(subs) !! id = Some s -> s.(s_Id) = id /\ sub_ok s.

Abbreviation SI := (db_inv subs_ok).

Lemma subs_ok_same d d' : d'.(subs) = d.(subs) -> subs_ok d -> subs_ok d'.
Proof. unfold subs_ok. by intros ->. Qed.

Lemma subs_ok_insert d s : subs_ok d -> sub_ok s -> subs_ok (set_subs (insert s.(s_Id) s) d).
Proof.
  intros Hd Hs id s'. simpl. rewrite lookup_insert. case_decide; intros; simplify_eq; auto.
Qed.

Lemma modify_db_SI f : (forall d, subs_ok d -> subs_ok (f d)) -> preserves SI (modify_db f).
Proof. intros H w Hw. apply H, Hw. Qed.

Lemma update_user_SI id p f : preserves SI (update_user id p f).
Proof. apply update_user_db. intros d u Hd _ _. exact Hd. Qed.
#[export] Hint Resolve update_user_SI : preserve.

(** Reads, caches and user rows leave the subscriptions alone. *)
Section quiet_subs.
Context (I : World -> Prop) `{!LedgerPred I}.

Lemma GetDBTimestamp_quiet : preserves I GetDBTimestamp.
Proof using All. unfold GetDBTimestamp. solve_preserves. Qed.
Lemma cache_access_quiet : preserves I cache_access.
Proof using All. unfold cache_access. solve_preserves. Qed.
Lemma HybridCache_Get_quiet {A} (f : Redis -> option A) : preserves I (HybridCache_Get f).
Proof using All. pose proof cache_access_quiet. unfold HybridCache_Get. solve_preserves. Qed.
Lemma HybridCache_Set_quiet f : preserves I (HybridCache_Set f).
Proof using All. pose proof cache_access_quiet. unfold HybridCache_Set. solve_preserves. Qed.
Lemma getSubscriptionPlanByIdTx_quiet id : preserves I (getSubscriptionPlanByIdTx id).
Proof using All.
  pose proof (@HybridCache_Get_quiet). pose proof HybridCache_Set_quiet.
  unfold getSubscriptionPlanByIdTx. solve_preserves.
Qed.
Lemma find_subs_quiet p le : preserves I (find_subs p le).
Proof using All. unfold find_subs. solve_preserves. Qed.
Lemma count_subs_quiet p : preserves I (count_subs p).
Proof using All. unfold count_subs. solve_preserves. Qed.
Lemma first_sub_quiet id : preserves I (first_sub id).
Proof using All. unfold first_sub. solve_preserves. Qed.
Lemma first_order_quiet id : preserves I (first_order id).
Proof using All. unfold first_order. solve_preserves. Qed.
Lemma first_topup_quiet id : preserves I (first_topup id).
Proof using All. unfold first_topup. solve_preserves. Qed.
Lemma find_record_quiet id : preserves I (find_record id).
Proof using All. unfold find_record. solve_preserves. Qed.
Lemma getUserGroupByIdTx_quiet id : preserves I (getUserGroupByIdTx id).
Proof using All. unfold getUserGroupByIdTx. solve_preserves. Qed.
Lemma has_active_upgrade_quiet p : preserves I (has_active_upgrade p).
Proof using All. pose proof find_subs_quiet. unfold has_active_upgrade. solve_preserves. Qed.
Lemma refreshSubscriptionUserGroupCache_quiet id : preserves I (refreshSubscriptionUserGroupCache id).
Proof using All. unfold refreshSubscriptionUserGroupCache. solve_preserves. Qed.
Lemma locked_order_quiet t p : preserves I (locked_order t p).
Proof using All. pose proof first_order_quiet. unfold locked_order. solve_preserves. Qed.
Lemma of_result_quiet {A} (r : result error A) : preserves I (of_result r).
Proof. by intros w Hw. Qed.
Lemma guardE_quiet b (e : error) : preserves I (guardE b e).
Proof. unfold guardE. solve_preserves. Qed.
Lemma InvalidateSubscriptionPlanCache_quiet id : preserves I (InvalidateSubscriptionPlanCache id).
Proof using All. pose proof HybridCache_Set_quiet. unfold InvalidateSubscriptionPlanCache. solve_preserves. Qed.
Lemma GetPlanInfo_quiet id : preserves I (GetSubscriptionPlanInfoByUserSubscriptionId id).
Proof using All.
  pose proof (@HybridCache_Get_quiet). pose proof HybridCache_Set_quiet. pose proof first_sub_quiet.
  pose proof getSubscriptionPlanByIdTx_quiet. unfold GetSubscriptionPlanInfoByUserSubscriptionId. solve_preserves.
Qed.
Lemma after_downgrade_quiet r : preserves I (after_downgrade r).
Proof using All. pose proof refreshSubscriptionUserGroupCache_quiet. unfold after_downgrade. solve_preserves. Qed.
End quiet_subs.
#[export] Hint Resolve GetDBTimestamp_quiet HybridCache_Get_quiet HybridCache_Set_quiet getSubscriptionPlanByIdTx_quiet
  find_subs_quiet count_subs_quiet first_sub_quiet first_order_quiet first_topup_quiet find_record_quiet
  getUserGroupByIdTx_quiet has_active_upgrade_quiet refreshSubscriptionUserGroupCache_quiet locked_order_quiet
  of_result_quiet guardE_quiet after_downgrade_quiet : preserve.

(** ** Every operation keeps the invariant *)

Lemma save_sub_SI sub : sub_ok sub -> preserves SI (save_sub sub).
Proof.
  intros Hs. unfold save_sub. solve_preserves. apply modify_db_SI. intros d Hd.
  by apply (subs_ok_insert d (set_s_UpdatedAt _ sub)).
Qed.

Lemma first_sub_triple id : triple SI (first_sub id) (fun s => sub_ok s /\ s.(s_Id) = id).
Proof.
  intros w Hw. split; [by apply first_sub_quiet; [apply _|]|]. intros s Hs.
  destruct (first_sub id w) as [r w'] eqn:E. simpl in Hs. subst r. unfold first_sub in E.
  apply bind_Ok in E as ([] & w1 & H1 & H). apply stmt_Ok in H1 as (E1 & _).
  apply bind_Ok in H as (row & w2 & H2 & H). unfold gets in H2. injection H2 as <- <-. rewrite E1 in H.
  destruct (subs (w_db w) !! id) as [s'|] eqn:Hl; [|done]. injection H as -> _. destruct (Hw _ _ Hl). by split.
Qed.

Lemma select_subs_elem p le d s : s ∈ select_subs p le d -> exists id, d.(subs) !! id = Some s /\ p s = true.
Proof.
  unfold select_subs. rewrite merge_sort_Permutation, list_elem_of_filter, list_elem_of_fmap.
  intros (Hp & [id s'] & -> & H). apply elem_of_map_to_list in H. exists id. split; [done|by apply Is_true_eq_true].
Qed.

Lemma find_subs_triple p le : triple SI (find_subs p le) (Forall sub_ok).
Proof.
  unfold find_subs. eapply triple_bind; [apply preserves_triple; auto with preserve|]. intros [] _.
  apply triple_gets. intros w Hw. apply Forall_forall. intros s Hs.
  apply select_subs_elem in Hs as (id & Hs & _). by destruct (Hw _ _ Hs).
Qed.

Lemma update_group_SI id g : preserves SI (update_group id g).
Proof. unfold update_group. solve_preserves. Qed.
Lemma downgrade_SI sub now : preserves SI (downgradeUserGroupForSubscriptionTx sub now).
Proof. pose proof update_group_SI. unfold downgradeUserGroupForSubscriptionTx. solve_preserves. Qed.
#[export] Hint Resolve save_sub_SI update_group_SI downgrade_SI : preserve.

Lemma sub_ok_fresh id u p t n e src l nr ug pg dg ov up :
  sub_ok (mkUserSubscription id u p (wrap64 t) 0 n e "active" src l nr ug pg dg ov up).
Proof.
  split_and!; simpl; [apply wrap64_range|unfold in_i64, MinInt64, MaxInt64; lia|]. lia.
Qed.

Lemma Create_SI userId plan source : preserves SI (CreateUserSubscriptionFromPlanTx userId plan source).
Proof.
  unfold CreateUserSubscriptionFromPlanTx. solve_preserves. apply modify_db_SI. intros d Hd.
  eapply subs_ok_same; [|apply (subs_ok_insert d); [exact Hd|apply sub_ok_fresh]]. done.
Qed.

Lemma other_tables_SI f : (forall d, (f d).(subs) = d.(subs)) -> preserves SI (modify_db f).
Proof. intros H. apply modify_db_SI. intros d. by apply subs_ok_same. Qed.
Lemma save_order_SI o : preserves SI (save_order o).
Proof. unfold save_order. solve_preserves; by apply other_tables_SI. Qed.
Lemma create_order_SI o : preserves SI (create_order o).
Proof. unfold create_order. solve_preserves; by apply other_tables_SI. Qed.
Lemma save_topup_SI t : preserves SI (save_topup t).
Proof. unfold save_topup. solve_preserves; by apply other_tables_SI. Qed.
Lemma create_record_SI r : preserves SI (create_record r).
Proof. unfold create_record. solve_preserves; by apply other_tables_SI. Qed.
#[export] Hint Resolve Create_SI save_order_SI create_order_SI save_topup_SI create_record_SI : preserve.

Lemma upsertSubscriptionTopUpTx_SI o : preserves SI (upsertSubscriptionTopUpTx o).
Proof. unfold upsertSubscriptionTopUpTx. solve_preserves. Qed.
#[export] Hint Resolve upsertSubscriptionTopUpTx_SI : preserve.

Lemma complete_order_tx_SI t pl pr am : preserves SI (complete_order_tx t pl pr am).
Proof. unfold complete_order_tx. solve_preserves. Qed.
#[export] Hint Resolve complete_order_tx_SI : preserve.
Lemma CompleteSubscriptionOrder_SI t pl pr am : preserves SI (CompleteSubscriptionOrder t pl pr am).
Proof. unfold CompleteSubscriptionOrder. solve_preserves. Qed.
Lemma ExpireSubscriptionOrder_SI t p : preserves SI (ExpireSubscriptionOrder t p).
Proof. unfold ExpireSubscriptionOrder. solve_preserves. Qed.
Lemma AdminBindSubscription_SI u p : preserves SI (AdminBindSubscription u p).
Proof. unfold AdminBindSubscription. solve_preserves. Qed.

Lemma purchase_tx_SI {D : Decimal} u p t : preserves SI (purchase_with_balance_tx u p t).
Proof. unfold purchase_with_balance_tx. solve_preserves. Qed.
#[export] Hint Resolve purchase_tx_SI : preserve.
Lemma PurchaseSubscriptionWithBalance_SI {D : Decimal} u p t : preserves SI (PurchaseSubscriptionWithBalance u p t).
Proof. unfold PurchaseSubscriptionWithBalance, cacheDecrUserQuota. solve_preserves. Qed.

Lemma set_subs_insert_SI s id :
  sub_ok s -> s.(s_Id) = id -> preserves SI (modify_db (set_subs (insert id s))).
Proof. intros Hs <-. apply modify_db_SI. intros d Hd. by apply subs_ok_insert. Qed.

Lemma AdminInvalidateUserSubscription_SI id : preserves SI (AdminInvalidateUserSubscription id).
Proof.
  unfold AdminInvalidateUserSubscription. preserve_step; [solve_preserves|].
  preserve_step; [auto with preserve|]. preserve_step; [|auto with preserve].
  apply Transaction_preserves; [apply _..|]. eapply triple_preserves.
  eapply triple_bind; [apply first_sub_triple|]. intros s [Hs <-]. apply preserves_triple. solve_preserves.
  by apply set_subs_insert_SI.
Qed.

Lemma AdminDeleteUserSubscription_SI id : preserves SI (AdminDeleteUserSubscription id).
Proof.
  unfold AdminDeleteUserSubscription. preserve_step; [solve_preserves|].
  preserve_step; [auto with preserve|]. preserve_step; [|auto with preserve].
  apply Transaction_preserves; [apply _..|]. solve_preserves. apply modify_db_SI. intros d Hd k s.
  simpl. rewrite lookup_delete_Some. intros [_ H]. by apply Hd.
Qed.

Lemma sub_ok_zero s s' : sub_ok s -> s'.(s_AmountTotal) = s.(s_AmountTotal) -> s'.(s_AmountUsed) = 0 -> sub_ok s'.
Proof.
  intros (H1 & _ & _) Ht Hu. unfold sub_ok. rewrite Ht, Hu.
  split; [done|]. split; [unfold in_i64, MinInt64, MaxInt64|]; lia.
Qed.
Lemma sub_ok_same s s' :
  sub_ok s -> s'.(s_AmountTotal) = s.(s_AmountTotal) -> s'.(s_AmountUsed) = s.(s_AmountUsed) -> sub_ok s'.
Proof. unfold sub_ok. by intros H -> ->. Qed.

Lemma reset_SI s plan now adv : sub_ok s -> preserves SI (resetUserSubscriptionTx s plan now adv).
Proof.
  intros Hs. unfold resetUserSubscriptionTx. destruct adv; solve_preserves; apply save_sub_SI; by apply (sub_ok_zero s).
Qed.

Lemma reset_list_SI l plan now adv :
  Forall sub_ok l -> preserves SI (mapM_ (fun s => resetUserSubscriptionTx s plan now adv) l).
Proof.
  induction 1 as [|s l Hs _ IH]; simpl; [apply preserves_ret|].
  apply preserves_bind; [by apply reset_SI|done].
Qed.

Lemma AdminResetUserSubscriptionsByPlan_SI u p adv : preserves SI (AdminResetUserSubscriptionsByPlan u p adv).
Proof.
  unfold AdminResetUserSubscriptionsByPlan. preserve_step; [solve_preserves|].
  preserve_step; [auto with preserve|]. apply Transaction_preserves; [apply _..|].
  preserve_step; [auto with preserve|]. eapply triple_preserves.
  eapply triple_bind; [apply find_subs_triple|]. intros l Hl. apply preserves_triple.
  destruct l; [apply preserves_throw|]. preserve_step; [by apply reset_list_SI|solve_preserves].
Qed.

Lemma AdminResetPlanSubscriptions_SI p adv : preserves SI (AdminResetPlanSubscriptions p adv).
Proof.
  unfold AdminResetPlanSubscriptions. preserve_step; [solve_preserves|].
  preserve_step; [auto with preserve|]. apply Transaction_preserves; [apply _..|].
  preserve_step; [auto with preserve|]. eapply triple_preserves.
  eapply triple_bind; [apply find_subs_triple|]. intros l Hl. apply preserves_triple.
  preserve_step; [by apply reset_list_SI|solve_preserves].
Qed.

Lemma expire_user_tx_SI u now : preserves SI (expire_user_tx u now).
Proof.
  unfold expire_user_tx. solve_preserves. apply modify_db_SI. intros d Hd id s. simpl.
  rewrite lookup_fmap, fmap_Some. intros (s' & Hs' & ->). destruct (Hd _ _ Hs') as [H1 H2].
  by case_match.
Qed.
#[export] Hint Resolve expire_user_tx_SI : preserve.
Lemma expire_users_SI l now c : preserves SI (expire_users l now c).
Proof. revert c. induction l; intros c; simpl; solve_preserves. Qed.
Lemma ExpireDueSubscriptions_SI limit : preserves SI (ExpireDueSubscriptions limit).
Proof. pose proof expire_users_SI. unfold ExpireDueSubscriptions. solve_preserves. Qed.

Lemma maybeReset_triple sub plan now :
  sub_ok sub -> triple SI (maybeResetUserSubscriptionWithPlanTx sub plan now)
    (fun s => sub_ok s /\ s.(s_Id) = sub.(s_Id) /\ s.(s_AmountTotal) = sub.(s_AmountTotal)).
Proof.
  intros Hs. unfold maybeResetUserSubscriptionWithPlanTx.
  case_match; [by apply triple_ret|]. case_match; [by apply triple_ret|].
  eapply triple_bind; [apply preserves_triple; auto with preserve|]. intros off _.
  destruct (advance_resets _ _ _ _ _ _ _ _) as [[[base next] adv]|]; [|apply triple_throw].
  destruct adv; simpl; [|case_match; [|by apply triple_ret]].
  - eapply triple_bind; [apply preserves_triple, save_sub_SI; by apply (sub_ok_zero sub)|]. intros _ _.
    apply triple_ret. split_and!; [|done..]. by apply (sub_ok_zero sub).
  - eapply triple_bind; [by apply preserves_triple, save_sub_SI|]. intros _ _. by apply triple_ret.
Qed.

Lemma reset_one_tx_SI id plan now : preserves SI (reset_one_tx id plan now).
Proof.
  unfold reset_one_tx. eapply triple_preserves.
  eapply triple_bind; [apply triple_catch, first_sub_triple|]. intros [s|e]; [|intros; apply preserves_triple; solve_preserves].
  intros [Hs _]. case_match; [|apply preserves_triple; solve_preserves].
  eapply triple_bind; [by apply maybeReset_triple|]. intros; apply preserves_triple; solve_preserves.
Qed.
#[export] Hint Resolve reset_one_tx_SI : preserve.
Lemma reset_all_SI l now c : preserves SI (reset_all l now c).
Proof. revert c. induction l; intros c; simpl; solve_preserves. Qed.
Lemma ResetDueSubscriptions_SI limit : preserves SI (ResetDueSubscriptions limit).
Proof. pose proof reset_all_SI. unfold ResetDueSubscriptions. solve_preserves. Qed.

(** A charge that the remaining amount covers keeps a subscription within its total. *)
Lemma sub_ok_charge s amount :
  sub_ok s -> 0 < amount -> ((0 <? s.(s_AmountTotal)) && (s.(s_AmountTotal) -! s.(s_AmountUsed) <? amount)) = false ->
  sub_ok (set_s_AmountUsed (fun u => u +! amount) s) /\
  (0 < s.(s_AmountTotal) -> s.(s_AmountUsed) +! amount = s.(s_AmountUsed) + amount).
Proof.
  intros (Ht & Hu & Hb) Ha Hg.
  assert (0 < s.(s_AmountTotal) -> s.(s_AmountUsed) +! amount = s.(s_AmountUsed) + amount /\
    s.(s_AmountUsed) + amount <= s.(s_AmountTotal)) as Hc.
  { intros H0. specialize (Hb H0). unfold in_i64 in *.
    replace (0 <? s_AmountTotal s) with true in Hg by lia. simpl in Hg.
    rewrite wrap64_id in Hg by (unfold in_i64, MinInt64 in *; lia).
    split; [|lia]. apply wrap64_id. unfold in_i64, MinInt64 in *. lia. }
  split; [|intros H0; by apply Hc]. split; [done|]. split; [apply wrap64_range|]. simpl. intros H0.
  specialize (Hb H0). destruct (Hc H0) as [-> ?]. lia.
Qed.

Lemma try_candidates_SI req u amount now l : 0 < amount -> Forall sub_ok l -> preserves SI (try_candidates req u amount now l).
Proof.
  intros Ha. induction 1 as [|s l Hs _ IH]; simpl; [apply preserves_throw|].
  preserve_step; [auto with preserve|]. eapply triple_preserves. eapply triple_bind; [by apply maybeReset_triple|].
  intros sub (Hsub & _). apply preserves_triple.
  destruct ((0 <? s_AmountTotal sub) && (s_AmountTotal sub -! s_AmountUsed sub <? amount)) eqn:Hg; [done|].
  destruct (sub_ok_charge sub amount Hsub Ha Hg) as [Hc _]. solve_preserves.
Qed.

Lemma pre_consume_tx_SI req u amount now : 0 < amount -> preserves SI (pre_consume_tx req u amount now).
Proof.
  intros Ha. unfold pre_consume_tx. preserve_step; [auto with preserve|]. preserve_step; [solve_preserves|].
  eapply triple_preserves. eapply triple_bind; [apply triple_catch, find_subs_triple|].
  intros [[|c cs]|e] Hl; apply preserves_triple; [solve_preserves| |solve_preserves]. by apply try_candidates_SI.
Qed.

Lemma PreConsumeUserSubscription_SI req u amount : preserves SI (PreConsumeUserSubscription req u amount).
Proof.
  unfold PreConsumeUserSubscription. do 2 (preserve_step; [solve_preserves|]).
  destruct (Z.leb_spec amount 0); [solve_preserves|]. preserve_step; [auto with preserve|].
  apply Transaction_preserves; [apply _..|]. by apply pre_consume_tx_SI.
Qed.

Lemma post_consume_tx_SI id delta : preserves SI (post_consume_tx id delta).
Proof.
  unfold post_consume_tx. eapply triple_preserves. eapply triple_bind; [apply first_sub_triple|].
  intros s [(H1 & H2 & H3) _]. apply preserves_triple.
  destruct ((0 <? s_AmountTotal s) && (s_AmountTotal s <? Z.max (s_AmountUsed s +! delta) 0)) eqn:Hg; [solve_preserves|].
  apply save_sub_SI. pose proof (wrap64_range (s_AmountUsed s + delta)). unfold in_i64, MinInt64, MaxInt64 in *.
  split; [done|]. split; [unfold in_i64|]; simpl; unfold MinInt64, MaxInt64; lia.
Qed.
#[export] Hint Resolve post_consume_tx_SI : preserve.
Lemma PostConsumeUserSubscriptionDelta_SI id delta : preserves SI (PostConsumeUserSubscriptionDelta id delta).
Proof. unfold PostConsumeUserSubscriptionDelta. solve_preserves. Qed.
#[export] Hint Resolve PostConsumeUserSubscriptionDelta_SI : preserve.

Lemma RefundSubscriptionPreConsume_SI req : preserves SI (RefundSubscriptionPreConsume req).
Proof. unfold RefundSubscriptionPreConsume. solve_preserves; by apply other_tables_SI. Qed.
Lemma CleanupSubscriptionPreConsumeRecords_SI o : preserves SI (CleanupSubscriptionPreConsumeRecords o).
Proof. unfold CleanupSubscriptionPreConsumeRecords. solve_preserves; by apply other_tables_SI. Qed.

(** ** Reachability *)

(** Every operation that writes subscription state, as a step. *)
Inductive sub_step {D : Decimal} : World -> World -> Prop :=
| step_complete t pl pr am w : sub_step w (exec (CompleteSubscriptionOrder t pl pr am) w)
| step_expire_order t p w : sub_step w (exec (ExpireSubscriptionOrder t p) w)
| step_bind u p w : sub_step w (exec (AdminBindSubscription u p) w)
| step_purchase u p t w : sub_step w (exec (PurchaseSubscriptionWithBalance u p t) w)
| step_invalidate id w : sub_step w (exec (AdminInvalidateUserSubscription id) w)
| step_delete id w : sub_step w (exec (AdminDeleteUserSubscription id) w)
| step_reset_user u p adv w : sub_step w (exec (AdminResetUserSubscriptionsByPlan u p adv) w)
| step_reset_plan p adv w : sub_step w (exec (AdminResetPlanSubscriptions p adv) w)
| step_expire limit w : sub_step w (exec (ExpireDueSubscriptions limit) w)
| step_reset_due limit w : sub_step w (exec (ResetDueSubscriptions limit) w)
| step_preconsume req u amount w : sub_step w (exec (PreConsumeUserSubscription req u amount) w)
| step_post id delta w : sub_step w (exec (PostConsumeUserSubscriptionDelta id delta) w)
| step_refund req w : sub_step w (exec (RefundSubscriptionPreConsume req) w)
| step_cleanup o w : sub_step w (exec (CleanupSubscriptionPreConsumeRecords o) w)
(** anything that does not write the subscription table: other requests, time,
    cache expiry, and the next faults *)
| step_environment w w' : w'.(w_db).(subs) = w.(w_db).(subs) -> sub_step w w'.

Lemma sub_step_ok {D : Decimal} w w' : sub_step w w' -> subs_ok w.(w_db) -> subs_ok w'.(w_db).
Proof.
  intros H Hw. destruct H.
  - by apply CompleteSubscriptionOrder_SI.
  - by apply ExpireSubscriptionOrder_SI.
  - by apply AdminBindSubscription_SI.
  - by apply PurchaseSubscriptionWithBalance_SI.
  - by apply AdminInvalidateUserSubscription_SI.
  - by apply AdminDeleteUserSubscription_SI.
  - by apply AdminResetUserSubscriptionsByPlan_SI.
  - by apply AdminResetPlanSubscriptions_SI.
  - by apply ExpireDueSubscriptions_SI.
  - by apply ResetDueSubscriptions_SI.
  - by apply PreConsumeUserSubscription_SI.
  - by apply PostConsumeUserSubscriptionDelta_SI.
  - by apply RefundSubscriptionPreConsume_SI.
  - by apply CleanupSubscriptionPreConsumeRecords_SI.
  - by eapply subs_ok_same.
Qed.

(** C4. The usage of a subscription never leaves its total: from any state in
    which every limited subscription has 0 <= used <= total, every sequence of
    subscription operations, interleaved with anything else and with any calls of
    it failing, ends in such a state. *)
Theorem subscription_usage_bounded {D : Decimal} w w' :
  rtc sub_step w w' -> subs_ok w.(w_db) ->
  forall id s, w'.(w_db).(subs) !! id = Some s -> 0 < s.(s_AmountTotal) -> 0 <= s.(s_AmountUsed) <= s.(s_AmountTotal).
Proof.
  intros H Hw. assert (subs_ok w'.(w_db)) as H'.
  { induction H as [|w w1 w' Hs _ IH]; [done|]. apply IH. by eapply sub_step_ok. }
  intros id s Hs. destruct (H' id s Hs) as [_ (_ & _ & Hb)]. exact Hb.
Qed.

Definition sample_sub (id userId total used : Z) : UserSubscription :=
  mkUserSubscription id userId 1 total used 1700000000 1800000000 "active" "order" 0 0 "" "" "" true 1700000000.
Definition with_sub (s : UserSubscription) (w : World) : World := set_w_db (set_subs (insert s.(s_Id) s)) w.
Definition with_plan (p : SubscriptionPlan) (w : World) : World := set_w_db (set_plans (insert p.(p_Id) p)) w.

(** One subscription of 100 for user 7, 30 of it used. *)
Definition sub_world : World :=
  with_sub (sample_sub 5 7 100 30) (with_plan (sample_plan 1 100 "never")
    (with_user (sample_user 7 1000) (empty_world (sample_config false false)))).

Lemma sub_world_ok : subs_ok sub_world.(w_db).
Proof.
  intros id s H. unfold sub_world, with_sub in H. simpl in H. rewrite lookup_insert in H.
  case_decide as E; [|by rewrite lookup_empty in H]. injection H as <-. split; [exact E|].
  split; [unfold in_i64, MinInt64, MaxInt64; simpl; lia|].
  split; [unfold in_i64, MinInt64, MaxInt64; simpl; lia|simpl; lia].
Qed.

Lemma subscription_usage_bounded_witness :
  let w1 := exec (PreConsumeUserSubscription "a" 7 60) sub_world in
  let w2 := exec (PreConsumeUserSubscription "b" 7 60) w1 in
  (s_AmountUsed <$> w2.(w_db).(subs) !! 5) = Some 90 /\
  forall id s, w2.(w_db).(subs) !! id = Some s -> 0 < s.(s_AmountTotal) -> 0 <= s.(s_AmountUsed) <= s.(s_AmountTotal).
Proof.
  intros w1 w2. split; [vm_compute; reflexivity|].
  apply (subscription_usage_bounded sub_world w2).
  - eapply rtc_l; [apply step_preconsume|]. eapply rtc_l; [apply step_preconsume|]. apply rtc_refl.
  - apply sub_world_ok.
Defined.

(** ** One charge per request *)

