(* ===== verification/SubscriptionUse.v ===== *)
(** * Per-request consumption of a subscription (theorems on Subscription)

    Pre-consumption is charged once per request id, to one active subscription of
    the user that can pay for it; a refund gives back what was charged, once. *)

From stdpp Require Import base tactics numbers list gmap strings sorting relations.
From Stdlib Require Import ZArith Lia.
From S2P Require Import Prelude Float64 QuotaMath DecimalQ Calendar World UserCache QuotaStore Reserve SubscriptionTime Subscription SubscriptionInv.
Open Scope Z_scope.

Lemma same_db w w' : same_but_faults w w' -> w'.(w_db) = w.(w_db).
Proof. by intros [fs ->]. Qed.
Lemma ledger_db w w' : ledger w' = ledger w -> w'.(w_db) = w.(w_db).
Proof. by intros [= E _ _]. Qed.

(** ** Reads *)

Lemma find_record_inv req w r w' :
  find_record req w = (r, w') ->
  w'.(w_db) = w.(w_db) /\ (r = Ok (w.(w_db).(pre_records) !! req) \/ exists e, r = Err e).
Proof.
  unfold find_record, bind. destruct (stmt w) as [[[]|e] w1] eqn:H1; intros H; injection H as <- <-.
  - apply stmt_same, same_db in H1 as E. rewrite E. auto.
  - apply stmt_same, same_db in H1 as E. eauto.
Qed.

Lemma first_sub_inv id w r w' :
  first_sub id w = (r, w') ->
  w'.(w_db) = w.(w_db) /\ (forall s, r = Ok s -> w.(w_db).(subs) !! id = Some s).
Proof.
  unfold first_sub, bind, gets. destruct (stmt w) as [[[]|e] w1] eqn:H1; apply stmt_same, same_db in H1 as E; intros H.
  - rewrite E in H. destruct (subs (w_db w) !! id) as [s|]; injection H as <- <-; split; try done. by intros s' [= ->].
  - injection H as <- <-. split; [done|]. by intros s [=].
Qed.

Lemma find_subs_inv p le w r w' :
  find_subs p le w = (r, w') ->
  w'.(w_db) = w.(w_db) /\ (forall l, r = Ok l -> l = select_subs p le w.(w_db)).
Proof.
  unfold find_subs, bind, gets. destruct (stmt w) as [[[]|e] w1] eqn:H1; apply stmt_same, same_db in H1 as E; intros H;
    injection H as <- <-; (split; [done|]); intros l [= <-]. by rewrite E.
Qed.

(** ** Repetition *)

(** Repeating a pre-consumption is harmless: once a record exists for the
    request id, another pre-consumption (of any amount, under any faults) changes
    no table, and if it succeeds it reports the recorded amount and subscription;
    a request that was refunded is refused. *)
Theorem PreConsumeUserSubscription_repeat req userId amount w r w' rec :
  w.(w_db).(pre_records) !! req = Some rec -> subs_ok w.(w_db) ->
  PreConsumeUserSubscription req userId amount w = (r, w') ->
  w'.(w_db) = w.(w_db) /\
  match r with
  | Ok res => res.(pc_PreConsumed) = rec.(r_PreConsumed) /\ res.(pc_UserSubscriptionId) = rec.(r_UserSubscriptionId)
              /\ rec.(r_Status) <> "refunded"%string
  | Err _ => True
  end.
Proof.
  intros Hrec Hok H. unfold PreConsumeUserSubscription in H. monad_cases; try done.
  - quiet Hc. apply ledger_db in Hc. apply Transaction_inv in H as [(e & -> & Edb)|(res & w1 & w2 & -> & Ein & H & Eout)].
    { split; [congruence|done]. }
    apply same_db in Ein, Eout. unfold pre_consume_tx in H. monad_cases.
    apply find_record_inv in Hc0 as (Erd & [[= ->]|[e [=]]]). rewrite Ein, Hc, Hrec in H.
    destruct (String.eqb_spec (r_Status rec) "refunded"); monad_cases.
    apply first_sub_inv in Hc0 as (Ers & Hs). specialize (Hs _ eq_refl).
    assert (w_db w3 = w_db w) as E5 by congruence. rewrite E5 in Hs. destruct (Hok _ _ Hs) as [Hid _].
    split; [congruence|]. by split_and!.
  - quiet H. by apply ledger_db in H.
Qed.

Lemma PreConsumeUserSubscription_repeat_witness :
  let w1 := exec (PreConsumeUserSubscription "a" 7 60) sub_world in
  let (r, w2) := PreConsumeUserSubscription "a" 7 20 w1 in
  w2.(w_db) = w1.(w_db) /\ exists res, r = Ok res /\ res.(pc_PreConsumed) = 60.
Proof.
  intros w1. destruct (PreConsumeUserSubscription "a" 7 20 w1) as [r w2] eqn:E.
  destruct (PreConsumeUserSubscription_repeat "a" 7 20 w1 r w2
    (mkPreConsumeRecord "a" 7 5 60 "consumed" 1700000000)) as [H1 H2]; [vm_compute; reflexivity| |exact E|].
  { apply PreConsumeUserSubscription_SI. exact sub_world_ok. }
  split; [exact H1|]. destruct r as [res|e]; [exists res; split; [done|apply H2]|].
  assert ((PreConsumeUserSubscription "a" 7 20 w1).1 = Err e) as Hr by (by rewrite E). vm_compute in Hr. discriminate Hr.
Defined.

(** ** The charge *)

(** A reset keeps the identity of a subscription and touches no other table. *)
Definition same_identity (s s' : UserSubscription) : Prop :=
  s'.(s_Id) = s.(s_Id) /\ s'.(s_UserId) = s.(s_UserId) /\ s'.(s_PlanId) = s.(s_PlanId) /\
  s'.(s_AmountTotal) = s.(s_AmountTotal) /\ s'.(s_EndTime) = s.(s_EndTime) /\ s'.(s_Status) = s.(s_Status).

Definition only_subs (d d' : DB) : Prop := exists m, d' = set_subs (fun _ => m) d.
Lemma only_subs_refl d : only_subs d d.
Proof. exists d.(subs). by destruct d. Qed.
Lemma only_subs_trans d1 d2 d3 : only_subs d1 d2 -> only_subs d2 d3 -> only_subs d1 d3.
Proof. intros [m1 ->] [m2 ->]. by exists m2. Qed.
Lemma only_subs_eq d d' : d' = d -> only_subs d d'.
Proof. intros ->. apply only_subs_refl. Qed.

Lemma save_sub_inv sub w r w' :
  save_sub sub w = (r, w') ->
  (exists e, r = Err e /\ w'.(w_db) = w.(w_db)) \/
  (r = Ok tt /\ w'.(w_db) = set_subs (insert sub.(s_Id) (set_s_UpdatedAt (fun _ => w.(w_clock)) sub)) w.(w_db)).
Proof.
  unfold save_sub, bind, GetTimestamp, gets, modify_db, modify.
  destruct (stmt w) as [[[]|e] w1] eqn:H1; apply stmt_same, same_db in H1 as E; intros H; injection H as <- <-.
  - right. simpl. by rewrite E.
  - left. eauto.
Qed.

Lemma save_ret_inv sub w r w' :
  (save_sub sub ;; ret sub) w = (r, w') -> only_subs w.(w_db) w'.(w_db) /\ (forall s, r = Ok s -> s = sub).
Proof.
  intros H. apply bind_inv in H as [(u & w2 & H2 & H)|(e & H2 & ->)]; apply save_sub_inv in H2 as [(e' & He & E)|[He E]];
    try discriminate.
  - injection H as <- <-. rewrite E. split; [by eexists|]. by intros s [= ->].
  - rewrite E. split; [apply only_subs_refl|]. by intros s [=].
Qed.

Lemma maybeReset_inv sub plan now w r w' :
  maybeResetUserSubscriptionWithPlanTx sub plan now w = (r, w') ->
  only_subs w.(w_db) w'.(w_db) /\ (forall s, r = Ok s -> same_identity sub s /\
     (s.(s_AmountUsed) = sub.(s_AmountUsed) \/ s.(s_AmountUsed) = 0)).
Proof.
  intros H. unfold maybeResetUserSubscriptionWithPlanTx in H.
  destruct ((0 <? s_NextResetTime sub) && (now <? s_NextResetTime sub)).
  { monad_cases. split; [apply only_subs_refl|]. intros s [= <-]. by repeat split; try left. }
  destruct (String.eqb _ _).
  { monad_cases. split; [apply only_subs_refl|]. intros s [= <-]. by repeat split; try left. }
  apply bind_inv in H as [(off & w1 & H1 & H)|(e & H1 & _)]; [|done]. unfold cfg, gets in H1. injection H1 as <- <-.
  destruct (advance_resets _ _ _ _ _ _ _ _) as [[[base next] adv]|].
  2:{ monad_cases. split; [apply only_subs_refl|done]. }
  destruct adv; simpl in H.
  - apply save_ret_inv in H as [H1 H2]. split; [done|]. intros s Hs. rewrite (H2 s Hs). simpl. split; [done|auto].
  - destruct (_ && _); [|monad_cases; split; [apply only_subs_refl|]; intros s [= <-]; by repeat split; try left].
    apply save_ret_inv in H as [H1 H2]. split; [done|]. intros s Hs. rewrite (H2 s Hs). simpl. split; [done|auto].
Qed.

Lemma create_record_inv rec w r w' :
  create_record rec w = (r, w') -> w.(w_db).(pre_records) !! rec.(r_RequestId) = None ->
  (exists e, r = Err e /\ w'.(w_db) = w.(w_db)) \/
  (r = Ok tt /\ w'.(w_db) = set_pre_records (insert rec.(r_RequestId) (set_r_UpdatedAt (fun _ => w.(w_clock)) rec)) w.(w_db)).
Proof.
  intros H Hn. unfold create_record, bind, GetTimestamp, gets, modify_db, modify in H.
  destruct (stmt w) as [[[]|e] w1] eqn:H1; apply stmt_same, same_db in H1 as E.
  - rewrite E, Hn in H. injection H as <- <-. right. simpl. by rewrite E.
  - injection H as <- <-. left. eauto.
Qed.

(** What a successful first pre-consumption did. *)
Definition charged (req : string) (userId amount now : Z) (d : DB) (res : SubscriptionPreConsumeResult) (d' : DB) : Prop :=
  exists s', d'.(subs) !! res.(pc_UserSubscriptionId) = Some s' /\
    s'.(s_UserId) = userId /\ s'.(s_Status) = "active"%string /\ now < s'.(s_EndTime) /\
    s'.(s_AmountTotal) = res.(pc_AmountTotal) /\
    s'.(s_AmountUsed) = res.(pc_AmountUsedAfter) /\ res.(pc_AmountUsedAfter) = res.(pc_AmountUsedBefore) +! amount /\
    res.(pc_PreConsumed) = amount /\
    (0 < res.(pc_AmountTotal) -> amount <= res.(pc_AmountTotal) -! res.(pc_AmountUsedBefore)) /\
    exists t, d'.(pre_records) =
      <[req := mkPreConsumeRecord req userId res.(pc_UserSubscriptionId) amount "consumed" t]> d.(pre_records).

Lemma try_candidates_charges req userId amount now l w res w' :
  Forall (fun s => active_at userId now s = true) l ->
  w.(w_db).(pre_records) !! req = None ->
  try_candidates req userId amount now l w = (Ok res, w') ->
  charged req userId amount now w.(w_db) res w'.(w_db).
Proof.
  intros Hl. revert w. induction Hl as [|c l Hc Hl IH]; intros w Hn H; simpl in H; [done|].
  apply bind_Ok in H as (plan & w1 & H1 & H). quiet H1. apply ledger_db in H1.
  apply bind_Ok in H as (sub & w2 & H2 & H). apply maybeReset_inv in H2 as [[m Em] Hs].
  destruct (Hs sub eq_refl) as [(Eid & Eu & _ & Et & Ee & Est) _]. rewrite H1 in Em.
  destruct ((0 <? s_AmountTotal sub) && (s_AmountTotal sub -! s_AmountUsed sub <? amount)) eqn:Hg.
  { apply IH in H; [|by rewrite Em]. by rewrite Em in H. }
  apply bind_Ok in H as (created & w3 & H3 & H). apply catch_inv in H3 as (r3 & [= ->] & H3).
  apply create_record_inv in H3 as [(e & -> & E3)|[-> E3]]; [| |by rewrite Em].
  { apply bind_Ok in H as (dup & w4 & H4 & H). apply catch_inv in H4 as (r4 & [= ->] & H4).
    apply find_record_inv in H4 as (_ & [->|[e' ->]]); [|done]. rewrite E3, Em in H. simpl in H. by rewrite Hn in H. }
  apply bind_Ok in H as (u & w4 & H4 & H). apply save_sub_inv in H4 as [(e & [=] & _)|[_ E4]].
  injection H as <- <-. unfold active_at in Hc. rewrite !andb_true_iff in Hc. destruct Hc as [[Hc1 Hc2] Hc3].
  apply String.eqb_eq in Hc2.
  eexists. simpl. rewrite E4, E3, Em. simpl. rewrite lookup_insert_eq. split; [done|]. simpl.
  split_and!; [lia|congruence|lia|done|done|done|done| |by eexists].
  intros H0. replace (0 <? s_AmountTotal sub) with true in Hg by lia. simpl in Hg. lia.
Qed.

Lemma select_subs_active userId now le d : Forall (fun s => active_at userId now s = true) (select_subs (active_at userId now) le d).
Proof. apply Forall_forall. intros s Hs. by apply select_subs_elem in Hs as (id & _ & H). Qed.

(** The time the operation works with. *)
Definition db_now (w : World) (now : Z) : Prop := now = w.(w_clock) \/ (now = w.(w_dbclock) /\ 0 < now).

Lemma GetDBTimestamp_now w r w' : GetDBTimestamp w = (r, w') -> exists now, r = Ok now /\ db_now w now.
Proof.
  unfold GetDBTimestamp, bind, catch, GetTimestamp, gets.
  destruct (stmt w) as [[[]|e] w1] eqn:H1; apply stmt_same in H1 as [fs ->]; simpl.
  - destruct (Z.leb_spec (w_dbclock w) 0); intros H'; injection H' as <- <-; eexists; (split; [done|]); unfold db_now; auto.
  - intros H'. injection H' as <- <-. eexists. split; [done|]. by left.
Qed.

(** A first pre-consumption that succeeds charged exactly one active,
    unexpired subscription of the user, by exactly [amount], within what it had
    left, and recorded the charge under the request id (no other record changed);
    one that fails changed no table at all. *)
Theorem PreConsumeUserSubscription_charges req userId amount w r w' :
  w.(w_db).(pre_records) !! req = None ->
  PreConsumeUserSubscription req userId amount w = (r, w') ->
  match r with
  | Ok res => exists now, db_now w now /\ 0 < amount /\ charged req userId amount now w.(w_db) res w'.(w_db)
  | Err _ => w'.(w_db) = w.(w_db)
  end.
Proof.
  intros Hn H. unfold PreConsumeUserSubscription in H. monad_cases; try done.
  - apply GetDBTimestamp_now in Hc as Hnow. destruct Hnow as (now & [= ->] & Hnow).
    quiet Hc. apply ledger_db in Hc.
    apply Transaction_inv in H as [(e & -> & Edb)|(res & w1 & w2 & -> & Ein & H & Eout)]; [congruence|].
    apply same_db in Ein, Eout. exists now. split; [done|]. split; [lia|]. unfold pre_consume_tx in H.
    apply bind_Ok in H as (row & w3 & H3 & H). apply find_record_inv in H3 as (E3 & [[= ->]|[e [=]]]).
    rewrite Ein, Hc, Hn in H.
    apply bind_Ok in H as (cs & w4 & H4 & H). apply catch_inv in H4 as (r4 & [= ->] & H4).
    apply find_subs_inv in H4 as (E4 & Hl). destruct r4 as [[|c cs]|]; try done.
    specialize (Hl _ eq_refl). apply try_candidates_charges in H.
    + assert (w_db w4 = w_db w) as Ew by congruence. by rewrite Eout, <- Ew.
    + rewrite Hl. apply select_subs_active.
    + assert (w_db w4 = w_db w) as -> by congruence. done.
  - quiet H. by apply ledger_db in H.
Qed.

Lemma PreConsumeUserSubscription_charges_witness :
  let (r, w') := PreConsumeUserSubscription "a" 7 60 sub_world in
  exists res now, r = Ok res /\ res.(pc_AmountUsedBefore) = 30 /\ res.(pc_AmountUsedAfter) = 90 /\
    charged "a" 7 60 now sub_world.(w_db) res w'.(w_db).
Proof.
  destruct (PreConsumeUserSubscription "a" 7 60 sub_world) as [r w'] eqn:E.
  pose proof (PreConsumeUserSubscription_charges "a" 7 60 sub_world r w' ltac:(reflexivity) E) as H.
  assert ((PreConsumeUserSubscription "a" 7 60 sub_world).1 = r) as Hr by (by rewrite E). vm_compute in Hr. subst r.
  destruct H as (now & _ & _ & H). eexists _, now. split_and!; [reflexivity|reflexivity|reflexivity|exact H].
Defined.

(** ** Refunds *)

Lemma Transaction_ff {A} (c : MW A) w :
  w.(w_faults) = [] ->
  (forall a w', c w = (Ok a, w') -> w'.(w_faults) = []) ->
  Transaction c w = match c w with
                    | (Ok a, w') => (Ok a, w')
                    | (Err e, w') => (Err e, set_w_db (fun _ => w.(w_db)) w')
                    end.
Proof.
  intros Hf Hc. unfold Transaction. rewrite stmt_ff by done. destruct (c w) as [[a|e] w'] eqn:E; [|done].
  by rewrite stmt_ff by eauto.
Qed.

(** The amount after a settlement by [delta], when the arithmetic is in range. *)
Definition settled (s : UserSubscription) (delta : Z) : Z := Z.max (s.(s_AmountUsed) +! delta) 0.

Lemma PostConsume_ff id delta w s :
  w.(w_faults) = [] -> 0 < id -> delta <> 0 -> w.(w_db).(subs) !! id = Some s ->
  (0 < s.(s_AmountTotal) -> settled s delta <= s.(s_AmountTotal)) -> s.(s_Id) = id ->
  PostConsumeUserSubscriptionDelta id delta w =
    (Ok tt, set_w_db (set_subs (insert id (set_s_UpdatedAt (fun _ => w.(w_clock))
                                   (set_s_AmountUsed (fun _ => settled s delta) s)))) w).
Proof.
  intros Hf Hid Hd Hs Hb He. unfold PostConsumeUserSubscriptionDelta.
  replace (id <=? 0) with false by lia. replace (delta =? 0) with false by lia.
  assert (post_consume_tx id delta w = (Ok tt, set_w_db (set_subs (insert id (set_s_UpdatedAt (fun _ => w.(w_clock))
                                   (set_s_AmountUsed (fun _ => settled s delta) s)))) w)) as E.
  { unfold post_consume_tx, first_sub, bind, gets. rewrite stmt_ff, Hs by done. unfold ret, throw.
    fold (settled s delta).
    replace ((0 <? s_AmountTotal s) && (s_AmountTotal s <? settled s delta)) with false
      by (destruct (Z.ltb_spec 0 (s_AmountTotal s)); simpl; lia).
    unfold save_sub, bind, GetTimestamp, gets. rewrite stmt_ff by done. by rewrite <- He. }
  rewrite Transaction_ff; [by rewrite E|done|]. rewrite E. intros a w' [= _ <-]. done.
Qed.

(** A refund gives back exactly what was pre-consumed, and only once: in a
    fault-free run the used amount of the charged subscription drops by the recorded
    amount (not below zero), the record becomes "refunded", and every further
    refund of the same request changes nothing. *)
Theorem RefundSubscriptionPreConsume_once req rec s w :
  w.(w_faults) = [] -> TrimSpace req <> ""%string -> subs_ok w.(w_db) ->
  w.(w_db).(pre_records) !! req = Some rec -> rec.(r_Status) = "consumed"%string ->
  0 < rec.(r_PreConsumed) <= MaxInt64 -> 0 < rec.(r_UserSubscriptionId) ->
  w.(w_db).(subs) !! rec.(r_UserSubscriptionId) = Some s -> 0 <= s.(s_AmountUsed) ->
  let (r, w') := RefundSubscriptionPreConsume req w in
  r = Ok tt /\
  (s_AmountUsed <$> w'.(w_db).(subs) !! rec.(r_UserSubscriptionId)) = Some (Z.max 0 (s.(s_AmountUsed) - rec.(r_PreConsumed))) /\
  (r_Status <$> w'.(w_db).(pre_records) !! req) = Some "refunded"%string /\
  (forall id, id <> rec.(r_UserSubscriptionId) -> w'.(w_db).(subs) !! id = w.(w_db).(subs) !! id) /\
  RefundSubscriptionPreConsume req w' = (Ok tt, w').
Proof.
  intros Hf Hreq Hok Hrec Hst Hpre Hid Hs Hu. destruct (Hok _ _ Hs) as [Hsid (Ht1 & Hu1 & Hb)].
  assert (settled s (- r_PreConsumed rec) = Z.max 0 (s.(s_AmountUsed) - rec.(r_PreConsumed))) as Eset.
  { unfold settled. rewrite wrap64_id; [lia|]. unfold in_i64, MinInt64, MaxInt64 in *. lia. }
  unfold RefundSubscriptionPreConsume at 1. rewrite (proj2 (String.eqb_neq _ _) Hreq).
  unfold bind at 1, GetTimestamp, gets. unfold bind at 1. rewrite stmt_ff by done.
  unfold bind at 1, find_record, bind at 1. rewrite stmt_ff by done. unfold gets. rewrite Hrec, Hst.
  replace (String.eqb "consumed" "refunded") with false by done.
  replace (r_PreConsumed rec <=? 0) with false by lia. unfold bind at 1.
  rewrite (wrap64_id (- r_PreConsumed rec)) by (unfold in_i64, MinInt64, MaxInt64 in *; lia).
  rewrite (PostConsume_ff _ _ _ s); [|done|lia|lia|done| |done].
  2:{ rewrite Eset. intros H0. specialize (Hb H0). lia. }
  unfold bind. rewrite !stmt_ff by done. unfold modify_db, modify. split_and!; [done|..]; simpl.
  - rewrite lookup_insert_eq. simpl. by rewrite Eset.
  - by rewrite lookup_insert_eq.
  - intros id Hne. by rewrite lookup_insert_ne by done.
  - unfold RefundSubscriptionPreConsume. rewrite (proj2 (String.eqb_neq _ _) Hreq).
    unfold bind at 1, GetTimestamp, gets. unfold bind at 1. rewrite stmt_ff by done.
    unfold bind at 1, find_record, bind at 1. rewrite stmt_ff by done. unfold gets. simpl. rewrite lookup_insert_eq. simpl.
    by rewrite stmt_ff.
Qed.

Lemma RefundSubscriptionPreConsume_once_witness :
  let w := exec (PreConsumeUserSubscription "a" 7 60) sub_world in
  let (r, w') := RefundSubscriptionPreConsume "a" w in
  r = Ok tt /\ (s_AmountUsed <$> w'.(w_db).(subs) !! 5) = Some 30.
Proof.
  intros w.
  pose proof (RefundSubscriptionPreConsume_once "a" (mkPreConsumeRecord "a" 7 5 60 "consumed" 1700000000)
    (sample_sub 5 7 100 90) w) as H.
  destruct (RefundSubscriptionPreConsume "a" w) as [r w'].
  destruct H as (H1 & H2 & _).
  - reflexivity.
  - discriminate.
  - apply PreConsumeUserSubscription_SI. exact sub_world_ok.
  - vm_compute. reflexivity.
  - reflexivity.
  - unfold MaxInt64. simpl. lia.
  - simpl. lia.
  - vm_compute. reflexivity.
  - simpl. lia.
  - split; [exact H1|exact H2].
Defined.

(** The fault script of a refund whose outer commit fails: begin, look-up, the
    inner transaction (begin, look-up, save, commit), the save of the record, and
    the failing commit. *)
Definition outer_commit_fails : list bool := [false; false; false; false; false; false; false; true].

(** The refund is not idempotent under a failing commit: the inner
    settlement is a transaction of its own, so when the commit of the record fails
    the amount has already been given back, and the retry gives it back again. *)
Theorem refund_retry_after_commit_failure_pays_twice :
  let used w := s_AmountUsed <$> w.(w_db).(subs) !! 5 in
  let w0 := exec (PreConsumeUserSubscription "b" 7 30) (exec (PreConsumeUserSubscription "a" 7 40) sub_world) in
  let (r1, w1) := RefundSubscriptionPreConsume "a" (set_w_faults (fun _ => outer_commit_fails) w0) in
  let (r2, w2) := RefundSubscriptionPreConsume "a" w1 in
  used w0 = Some 100 /\ r1 = Err ErrDB /\ used w1 = Some 60 /\ r2 = Ok tt /\ used w2 = Some 20.
Proof. vm_compute. done. Qed.
