(* ===== verification/SubscriptionOrders.v ===== *)
(** * Orders and purchases (theorems on Subscription)

    A paid order is fulfilled exactly once; a purchase from the wallet takes the
    price and creates the subscription together or not at all; the purchase limit
    of a plan holds. *)

From stdpp Require Import base tactics numbers list gmap strings sorting relations.
From Stdlib Require Import ZArith Lia.
From S2P Require Import Prelude Float64 QuotaMath DecimalQ Calendar World UserCache QuotaStore Reserve SubscriptionTime Subscription SubscriptionInv SubscriptionUse.
Open Scope Z_scope.

(** ** Creation *)

(** At most the group of one user changed. *)
Definition regrouped (us us' : gmap Z User) : Prop :=
  us' = us \/ exists id u g, us !! id = Some u /\ us' = <[id := set_u_Group (fun _ => g) u]> us.

Lemma regrouped_quota us us' id : regrouped us us' -> (u_Quota <$> us' !! id) = (u_Quota <$> us !! id).
Proof.
  intros [->|(i & u & g & Hu & ->)]; [done|]. rewrite lookup_insert. case_decide; subst; [|done]. by rewrite Hu.
Qed.

Lemma update_group_inv userId g w r w' :
  update_group userId g w = (r, w') ->
  exists us, w'.(w_db) = set_users (fun _ => us) w.(w_db) /\ regrouped w.(w_db).(users) us.
Proof.
  intros H. unfold update_group in H.
  assert (exists us, w'.(w_db) = set_users (fun _ => us) w.(w_db) /\ regrouped w.(w_db).(users) us \/ w'.(w_db) = w.(w_db))
    as [us [Hus|E]].
  { monad_cases; update_cases.
    - exists ∅. right. by apply ledger_db.
    - eexists. left. match goal with H : ledger _ = (_, _, _), Hv : visible_user _ _ = Some _ |- _ =>
        injection H as E _ _; apply visible_user_lookup in Hv as [Hv _]; split; [exact E|right; eauto 10] end.
    - exists ∅. right. by apply ledger_db. }
  - eauto.
  - exists w.(w_db).(users). rewrite E. split; [by destruct (w_db w)|by left].
Qed.

Lemma count_subs_inv p w n w' :
  count_subs p w = (Ok n, w') ->
  w'.(w_db) = w.(w_db) /\ n = Z.of_nat (length (select_subs p end_asc w.(w_db))).
Proof.
  unfold count_subs, bind, gets. destruct (stmt w) as [[[]|e] w1] eqn:H1; apply stmt_same, same_db in H1 as E; [|done].
  intros H. injection H as <- <-. by rewrite E.
Qed.

(** How many subscriptions of a plan a user ever had. *)
Definition purchased (userId planId : Z) (s : UserSubscription) : bool :=
  (s.(s_UserId) =? userId) && (s.(s_PlanId) =? planId).
Definition purchase_count (d : DB) (userId planId : Z) : Z :=
  Z.of_nat (length (select_subs (purchased userId planId) end_asc d)).

(** The effect of a creation. *)
Definition created (userId : Z) (plan : SubscriptionPlan) (source : string) (d : DB) (sub : UserSubscription) (d' : DB) : Prop :=
  sub.(s_Id) = d.(next_sub_id) /\ sub.(s_UserId) = userId /\ sub.(s_PlanId) = plan.(p_Id) /\
  sub.(s_Status) = "active"%string /\ sub.(s_AmountUsed) = 0 /\ sub.(s_AmountTotal) = wrap64 plan.(p_TotalAmount) /\
  sub.(s_Source) = source /\
  exists us, regrouped d.(users) us /\
    d' = set_next_sub_id (fun n => n + 1) (set_subs (insert sub.(s_Id) sub) (set_users (fun _ => us) d)).

Lemma set_users_id d : set_users (fun _ => d.(users)) d = d.
Proof. by destruct d. Qed.

Lemma Create_inv userId plan source w sub w' :
  CreateUserSubscriptionFromPlanTx userId plan source w = (Ok sub, w') ->
  created userId plan source w.(w_db) sub w'.(w_db) /\
  (0 < plan.(p_MaxPurchasePerUser) -> purchase_count w.(w_db) userId plan.(p_Id) < plan.(p_MaxPurchasePerUser)).
Proof.
  intros H. unfold CreateUserSubscriptionFromPlanTx in H.
  destruct (p_Id plan =? 0); [done|]. destruct (userId <=? 0); [done|].
  apply bind_Ok in H as ([] & w1 & H1 & H).
  assert (w_db w1 = w_db w /\ (0 < plan.(p_MaxPurchasePerUser) ->
    purchase_count w.(w_db) userId plan.(p_Id) < plan.(p_MaxPurchasePerUser))) as [E1 Hlim].
  { destruct (Z.ltb_spec 0 (p_MaxPurchasePerUser plan)); [|injection H1 as <-; split; [done|lia]].
    apply bind_Ok in H1 as (n & w1' & Hn & Hg). apply count_subs_inv in Hn as [En Hn].
    unfold guardE in Hg. destruct (Z.leb_spec (p_MaxPurchasePerUser plan) n); [done|]. injection Hg as <-.
    split; [done|]. intros _. unfold purchase_count, purchased. lia. }
  split; [|done]. clear Hlim.
  apply bind_Ok in H as (now & w2 & H2 & H). quiet H2. apply ledger_db in H2.
  apply bind_Ok in H as (off & w3 & H3 & H). unfold cfg, gets in H3. injection H3 as <- <-.
  apply bind_Ok in H as (en & w4 & H4 & H). unfold of_result in H4. injection H4 as H4 <-.
  apply bind_Ok in H as (pg & w5 & H5 & H).
  assert (exists us, w_db w5 = set_users (fun _ => us) (w_db w) /\ regrouped (users (w_db w)) us) as (us & E5 & Hus).
  { destruct (String.eqb _ _).
    { injection H5 as <- <-. exists (users (w_db w)). rewrite H2, E1. split; [by rewrite set_users_id|by left]. }
    apply bind_Ok in H5 as (cg & w6 & H6 & H5). quiet H6. apply ledger_db in H6.
    destruct (String.eqb _ _).
    { injection H5 as <- <-. exists (users (w_db w)). rewrite H6, H2, E1. split; [by rewrite set_users_id|by left]. }
    apply bind_Ok in H5 as ([] & w7 & H7 & H5). injection H5 as <- <-. apply update_group_inv in H7 as (us & E7 & Hus).
    exists us. by rewrite E7, H6, H2, E1 in *. }
  apply bind_Ok in H as (local & w6 & H6 & H). unfold GetTimestamp, gets in H6. injection H6 as <- <-.
  apply bind_Ok in H as ([] & w7 & H7 & H). apply stmt_same, same_db in H7.
  apply bind_Ok in H as (id & w8 & H8 & H). unfold gets in H8. injection H8 as <- <-.
  apply bind_Ok in H as ([] & w9 & H9 & H). unfold modify_db, modify in H9. injection H9 as <-.
  injection H as <- <-. rewrite H7, E5. simpl. unfold created. simpl. split_and!; [done..|].
  exists us. split; [done|]. by rewrite H7, E5.
Qed.

(** ** Orders *)

Lemma first_order_inv t w r w' :
  first_order t w = (r, w') -> w'.(w_db) = w.(w_db) /\ (forall o, r = Ok o -> w.(w_db).(orders) !! t = Some o).
Proof.
  unfold first_order, bind, gets. destruct (stmt w) as [[[]|e] w1] eqn:H1; apply stmt_same, same_db in H1 as E; intros H.
  - rewrite E in H. destruct (orders (w_db w) !! t) as [o|]; injection H as <- <-; split; try done. by intros o' [= ->].
  - injection H as <- <-. split; [done|]. by intros o [=].
Qed.

Lemma locked_order_inv t p w o w' :
  locked_order t p w = (Ok o, w') ->
  w'.(w_db) = w.(w_db) /\ w.(w_db).(orders) !! t = Some o /\ (p = ""%string \/ o.(o_PaymentProvider) = p).
Proof.
  intros H. unfold locked_order in H. apply bind_Ok in H as (r & w1 & H1 & H). apply catch_inv in H1 as (r' & [= ->] & H1).
  apply first_order_inv in H1 as [E Ho]. destruct r' as [o'|]; [|done]. specialize (Ho o' eq_refl).
  destruct (String.eqb_spec p "") as [->|]; simpl in H.
  { injection H as -> <-. auto. }
  destruct (String.eqb_spec (o_PaymentProvider o') p); simpl in H; [|done]. injection H as -> <-. auto.
Qed.

Lemma save_order_inv o w w' :
  save_order o w = (Ok tt, w') -> w'.(w_db) = set_orders (insert o.(o_TradeNo) o) w.(w_db).
Proof.
  unfold save_order, bind, modify_db, modify.
  destruct (stmt w) as [[[]|e] w1] eqn:H1; apply stmt_same, same_db in H1 as E; intros H; [|done].
  injection H as <-. simpl. by rewrite E.
Qed.

Lemma save_topup_inv t w w' :
  save_topup t w = (Ok tt, w') -> w'.(w_db) = set_topups (insert t.(tu_TradeNo) t) w.(w_db).
Proof.
  unfold save_topup, bind, modify_db, modify.
  destruct (stmt w) as [[[]|e] w1] eqn:H1; apply stmt_same, same_db in H1 as E; intros H; [|done].
  injection H as <-. simpl. by rewrite E.
Qed.

Lemma upsert_inv o w w' :
  upsertSubscriptionTopUpTx o w = (Ok tt, w') -> exists ts, w'.(w_db) = set_topups (fun _ => ts) w.(w_db).
Proof.
  intros H. unfold upsertSubscriptionTopUpTx in H.
  apply bind_Ok in H as (now & w1 & H1 & H). unfold GetTimestamp, gets in H1. injection H1 as <- <-.
  apply bind_Ok in H as (r & w2 & H2 & H). apply catch_inv in H2 as (r' & [= ->] & H2). quiet H2. apply ledger_db in H2.
  destruct r' as [t|e].
  - destruct (_ && _); [done|]. apply save_topup_inv in H. rewrite H, H2. by eexists.
  - destruct (bool_decide _); [|done]. apply save_topup_inv in H. rewrite H, H2. by eexists.
Qed.

(** [fulfilled]: the order is marked paid and one subscription was created. *)
Definition fulfilled (t : string) (order : SubscriptionOrder) (d d' : DB) : Prop :=
  exists plan sub d1 order',
    plan.(p_Id) = sub.(s_PlanId) /\ created order.(o_UserId) plan "order" d sub d1 /\
    d'.(subs) = d1.(subs) /\ d'.(users) = d1.(users) /\ d'.(next_sub_id) = d1.(next_sub_id) /\
    d'.(orders) = <[t := order']> d.(orders) /\ order'.(o_Status) = TopUpStatusSuccess /\ order'.(o_UserId) = order.(o_UserId).

Lemma complete_order_tx_inv t pl pr am w res w' :
  complete_order_tx t pl pr am w = (Ok res, w') ->
  exists order, w.(w_db).(orders) !! t = Some order /\ (pr = ""%string \/ order.(o_PaymentProvider) = pr) /\
    ((order.(o_Status) = TopUpStatusSuccess /\ res = None /\ w'.(w_db) = w.(w_db)) \/
     (order.(o_Status) = TopUpStatusPending /\ res <> None /\
      (order.(o_TradeNo) = t -> fulfilled t order w.(w_db) w'.(w_db)))).
Proof.
  intros H. unfold complete_order_tx in H. apply bind_Ok in H as (order & w1 & H1 & H).
  apply locked_order_inv in H1 as (E1 & Ho & Hp). exists order. split; [done|]. split; [done|].
  destruct (String.eqb_spec (o_Status order) TopUpStatusSuccess) as [Hs|Hs].
  { injection H as <- <-. auto. }
  destruct (String.eqb_spec (o_Status order) TopUpStatusPending) as [Hs'|]; simpl in H; [|done]. right.
  apply bind_Ok in H as (plan & w2 & H2 & H). unfold GetSubscriptionPlanById in H2. quiet H2. apply ledger_db in H2.
  apply bind_Ok in H as (u & w3 & H3 & H). quiet H3. apply ledger_db in H3.
  apply bind_Ok in H as (sub & w4 & H4 & H). apply Create_inv in H4 as [H4 _].
  apply bind_Ok in H as ([] & w5 & H5 & H). apply upsert_inv in H5 as [ts H5].
  apply bind_Ok in H as (now & w6 & H6 & H). unfold GetTimestamp, gets in H6. injection H6 as <- <-.
  apply bind_Ok in H as ([] & w7 & H7 & H). apply save_order_inv in H7. injection H as <- <-.
  split; [done|]. split; [done|]. intros Htn.
  rewrite H3, H2, E1 in H4. exists plan, sub, (w_db w4).
  match goal with H : w_db w7 = set_orders (insert _ ?o) _ |- _ => exists o end.
  pose proof H4 as (C1 & C2 & C3 & C4 & C5 & C6 & C7 & us & Hus & Ed).
  split_and!; [by rewrite C3|done|by rewrite H7, H5..| | |].
  - rewrite H7, H5, Ed. simpl. f_equal. repeat case_match; done.
  - repeat case_match; done.
  - repeat case_match; done.
Qed.

(** A subscription order is fulfilled at most once, whatever fails: a call
    that returns an error changed no table; a call that succeeds either found the
    order already paid and changed nothing, or found it pending, created exactly
    one subscription for its user and marked it paid -- after which the first case
    applies; and the payment provider was the expected one. *)
Theorem CompleteSubscriptionOrder_once t pl pr am w r w' :
  (forall order, w.(w_db).(orders) !! t = Some order -> order.(o_TradeNo) = t) ->
  CompleteSubscriptionOrder t pl pr am w = (r, w') ->
  match r with
  | Err _ => w'.(w_db) = w.(w_db)
  | Ok _ =>
      exists order, w.(w_db).(orders) !! t = Some order /\ (pr = ""%string \/ order.(o_PaymentProvider) = pr) /\
        ((order.(o_Status) = TopUpStatusSuccess /\ w'.(w_db) = w.(w_db)) \/
         (order.(o_Status) = TopUpStatusPending /\ fulfilled t order w.(w_db) w'.(w_db)))
  end.
Proof.
  intros Hkey H. unfold CompleteSubscriptionOrder in H. destruct (String.eqb t ""); [by injection H as <- <-|].
  apply bind_inv in H as [(res & w1 & H1 & H)|(e & H1 & ->)].
  - assert (r = Ok tt /\ w_db w' = w_db w1) as [-> E].
    { destruct res as [[u up]|]; [|injection H as <- <-; done].
      assert (ledger w' = ledger w1) as E by (eapply quiet_ledger; [|exact H]; solve_preserves).
      split; [|by apply ledger_db].
      unfold refreshSubscriptionUserGroupCache, RecordLog in H. clear -H. monad_cases; done. }
    apply Transaction_inv in H1 as [(e & [=] & _)|(res' & w2 & w3 & [= ->] & Ein & H1 & Eout)].
    apply same_db in Ein, Eout. apply complete_order_tx_inv in H1 as (order & Ho & Hp & Hc).
    rewrite Ein in *. exists order. split; [done|]. split; [done|]. rewrite E, Eout.
    destruct Hc as [(Hs & _ & Ed)|(Hs & _ & Hf)]; [left|right]; auto.
  - apply Transaction_inv in H1 as [(e' & _ & Edb)|(a & w2 & w3 & [=] & _)]. done.
Qed.

Definition sample_order (t : string) (userId : Z) (status : string) : SubscriptionOrder :=
  mkSubscriptionOrder userId 1 (float64_of_int 10) t "stripe" "stripe" status 1700000000 0 "".
Definition order_world : World := set_w_db (set_orders (insert "T1"%string (sample_order "T1" 7 "pending"))) sub_world.

Lemma CompleteSubscriptionOrder_once_witness :
  let complete := CompleteSubscriptionOrder "T1" "" "stripe" "" in
  let w1 := exec complete order_world in
  let w2 := exec complete w1 in
  purchase_count order_world.(w_db) 7 1 = 1 /\ purchase_count w1.(w_db) 7 1 = 2 /\ purchase_count w2.(w_db) 7 1 = 2 /\
  exists order, order_world.(w_db).(orders) !! "T1"%string = Some order /\ fulfilled "T1" order order_world.(w_db) w1.(w_db).
Proof.
  intros complete w1 w2. do 3 (split; [vm_compute; reflexivity|]).
  pose proof (fun Hk => CompleteSubscriptionOrder_once "T1" "" "stripe" "" order_world _ _ Hk (run_eq _ _)) as H.
  assert (eval complete order_world = Ok tt) as E by (vm_compute; reflexivity).
  unfold complete in E. rewrite E in H. destruct H as (order & Ho & _ & [[Hs _]|[_ Hf]]).
  - intros order Ho. unfold order_world in Ho. simpl in Ho. rewrite lookup_insert_eq in Ho. injection Ho as <-. reflexivity.
  - unfold order_world in Ho. simpl in Ho. rewrite lookup_insert_eq in Ho. injection Ho as <-. discriminate Hs.
  - exists order. split; [exact Ho|exact Hf].
Defined.

(** ** The purchase limit *)

Lemma select_subs_length p le le' d :
  length (select_subs p le d) = length (filter (fun s => Is_true (p s)) (map_to_list d.(subs)).*2) /\
  length (select_subs p le d) = length (select_subs p le' d).
Proof. unfold select_subs. by rewrite !merge_sort_Permutation. Qed.

Lemma purchase_count_insert d id s u p :
  d.(subs) !! id = None -> purchased u p s = true ->
  purchase_count (set_subs (insert id s) d) u p = purchase_count d u p + 1.
Proof.
  intros Hn Hp. unfold purchase_count. rewrite !(proj1 (select_subs_length _ end_asc end_asc _)). simpl.
  rewrite map_to_list_insert by done. rewrite fmap_cons, filter_cons_True by (simpl; by rewrite Hp). simpl. lia.
Qed.

(** A plan's purchase limit holds: whichever way a subscription of a limited
    plan is created, the user had strictly fewer than the limit before and has at
    most the limit (exactly one more) afterwards. *)
Theorem purchase_limit_respected userId plan source w sub w' :
  CreateUserSubscriptionFromPlanTx userId plan source w = (Ok sub, w') ->
  w.(w_db).(subs) !! w.(w_db).(next_sub_id) = None -> 0 < plan.(p_MaxPurchasePerUser) ->
  purchase_count w'.(w_db) userId plan.(p_Id) = purchase_count w.(w_db) userId plan.(p_Id) + 1 /\
  purchase_count w'.(w_db) userId plan.(p_Id) <= plan.(p_MaxPurchasePerUser).
Proof.
  intros H Hfresh Hmax. apply Create_inv in H as [(C1 & C2 & C3 & _ & _ & _ & _ & us & _ & E) Hlim].
  specialize (Hlim Hmax).
  assert (purchase_count w'.(w_db) userId plan.(p_Id) = purchase_count w.(w_db) userId plan.(p_Id) + 1) as Hc.
  { rewrite E. apply (purchase_count_insert (set_users (fun _ => us) (w_db w)) (s_Id sub) sub).
    - simpl. by rewrite C1.
    - unfold purchased. rewrite C2, C3. by rewrite !Z.eqb_refl. }
  split; [done|]. lia.
Qed.

Definition limited_plan : SubscriptionPlan :=
  mkSubscriptionPlan 1 "pro" (float64_of_int 10) "month" 1 0 true None None 2 "vip" "" 100 "never" 0.

Lemma purchase_limit_respected_witness :
  let c := CreateUserSubscriptionFromPlanTx 7 limited_plan "admin" in
  purchase_count (exec c sub_world).(w_db) 7 1 <= 2 /\
  eval c (exec c sub_world) = Err purchase_limit.
Proof.
  intros c. split; [|vm_compute; reflexivity].
  assert (exists sub, eval c sub_world = Ok sub) as [sub E] by (vm_compute; eexists; reflexivity).
  pose proof (run_eq c sub_world) as Hr. rewrite E in Hr.
  apply (purchase_limit_respected 7 limited_plan "admin" sub_world sub); [exact Hr|reflexivity|simpl; lia].
Defined.

(** ** Purchase from the wallet *)

Lemma create_order_inv o w w' :
  create_order o w = (Ok tt, w') ->
  w.(w_db).(orders) !! o.(o_TradeNo) = None /\ w'.(w_db) = set_orders (insert o.(o_TradeNo) o) w.(w_db).
Proof.
  unfold create_order, bind, gets, modify_db, modify.
  destruct (stmt w) as [[[]|e] w1] eqn:H1; apply stmt_same, same_db in H1 as E; [|done].
  rewrite E. destruct (orders (w_db w) !! o_TradeNo o) eqn:Ho; [done|]. intros H. injection H as <-. simpl. by rewrite E.
Qed.

Lemma user_column_set us us' d f id :
  (forall id, (f <$> us' !! id) = (f <$> us !! id)) -> (forall id, (u_Deleted <$> us' !! id) = (u_Deleted <$> us !! id)) ->
  user_column f (set_users (fun _ => us') d) id = user_column f (set_users (fun _ => us) d) id.
Proof.
  intros H1 H2. unfold user_column, visible_user. simpl. specialize (H1 id). specialize (H2 id).
  destruct (us' !! id), (us !! id); simpl in *; try congruence. repeat case_match; congruence.
Qed.

Lemma regrouped_deleted us us' id : regrouped us us' -> (u_Deleted <$> us' !! id) = (u_Deleted <$> us !! id).
Proof.
  intros [->|(i & u & g & Hu & ->)]; [done|]. rewrite lookup_insert. case_decide; subst; [|done]. by rewrite Hu.
Qed.

(** The effect of a purchase: the price left the wallet (which covered it), one
    subscription and one paid order appeared. *)
Definition bought (userId : Z) (tradeNo : string) (price : Z) (d d' : DB) : Prop :=
  (forall id, user_column u_Quota d' id = user_column u_Quota d id - if decide (userId = id) then price else 0) /\
  0 <= price /\ (0 < price -> price <= user_column u_Quota d userId) /\
  d.(orders) !! tradeNo = None /\ (o_Status <$> d'.(orders) !! tradeNo) = Some TopUpStatusSuccess /\
  exists sub, d'.(subs) = <[d.(next_sub_id) := sub]> d.(subs) /\ sub.(s_UserId) = userId /\ sub.(s_AmountUsed) = 0.

Section purchase.
Context {D : Decimal}.

Lemma purchase_tx_inv userId planId tradeNo w price up w' :
  purchase_with_balance_tx userId planId tradeNo w = (Ok (price, up), w') ->
  bought userId tradeNo (Z.max 0 price) w.(w_db) w'.(w_db).
Proof.
  intros H. unfold purchase_with_balance_tx in H.
  apply bind_Ok in H as (plan & w1 & H1 & H). quiet H1. apply ledger_db in H1.
  destruct (negb _); [done|]. destruct (f_lt _ _); [done|]. destruct (bool_decide _); [done|].
  apply bind_Ok in H as (pu & w2 & H2 & H). unfold cfg, gets in H2. injection H2 as <- <-.
  apply bind_Ok in H as (req & w3 & H3 & H). unfold of_result in H3. injection H3 as H3 <-.
  apply bind_Ok in H as (u & w4 & H4 & H). apply first_user_Ok in H4 as (Hu & E4 & _).
  destruct ((0 <? req) && (u_Quota u <? req)) eqn:Hcov; [done|].
  apply bind_Ok in H as ([] & w5 & H5 & H).
  apply bind_Ok in H as (sub & w6 & H6 & H). apply Create_inv in H6 as [(C1 & C2 & _ & _ & C5 & _ & _ & us & Hus & E6) _].
  apply bind_Ok in H as (now & w7 & H7 & H). unfold GetTimestamp, gets in H7. injection H7 as <- <-.
  apply bind_Ok in H as ([] & w8 & H8 & H). apply create_order_inv in H8 as [Hno E8]. injection H as -> _ <-.
  assert (user_column u_Quota (w_db w) userId = u_Quota u) as Hcol
    by (unfold user_column; by rewrite H1 in Hu; rewrite Hu).
  assert ((forall id, user_column u_Quota (w_db w5) id =
            user_column u_Quota (w_db w) id - if decide (userId = id) then Z.max 0 price else 0) /\
          (exists m, w_db w5 = set_users (fun _ => m) (w_db w))) as [Hq [m Em]].
  { destruct (Z.ltb_spec 0 price).
    - apply bind_Ok in H5 as (n & w9 & H9 & H5). injection H5 as <-.
      apply update_user_cases in H9 as [([=] & _)|[([= ->] & _ & Hp)|([= ->] & x & Hv & _ & Hl)]].
      { rewrite E4 in Hp. by specialize (Hp _ Hu). }
      injection Hl as E9 _ _. rewrite E9. rewrite E4, H1 in *. split; [|by eexists].
      intros id. rewrite (user_column_shift u_Quota _ userId x (set_u_Quota (fun q => q - price)) (- price));
        [|exact Hv|done|simpl; lia]. case_decide; lia.
    - injection H5 as <-. rewrite E4, H1. split; [intros id; case_decide; lia|].
      eexists. by rewrite set_users_id. }
  unfold bought. rewrite E8, E6, Em in *. simpl in *. split_and!.
  - intros id. rewrite <- Hq. change (user_column u_Quota (set_users (fun _ => us) (w_db w)) id =
      user_column u_Quota (set_users (fun _ => m) (w_db w)) id).
    apply user_column_set; intros; [by apply regrouped_quota|by apply regrouped_deleted].
  - lia.
  - intros Hp. rewrite Hcol. destruct (Z.ltb_spec 0 price); [|lia]. simpl in Hcov. lia.
  - done.
  - by rewrite lookup_insert_eq.
  - exists sub. by rewrite C1.
Qed.

(** Buying a plan from the wallet is atomic under every fault script: a
    call that returns an error changed no table; a call that succeeds took the
    price from a balance that covered it, created one unused subscription, and
    recorded one paid order -- all of them. *)
Theorem PurchaseSubscriptionWithBalance_atomic userId planId tradeNo w r w' :
  PurchaseSubscriptionWithBalance userId planId tradeNo w = (r, w') ->
  match r with
  | Err _ => w'.(w_db) = w.(w_db)
  | Ok _ => exists price, bought userId tradeNo price w.(w_db) w'.(w_db)
  end.
Proof.
  intros H. unfold PurchaseSubscriptionWithBalance in H.
  destruct ((userId <=? 0) || (planId <=? 0)); [by injection H as <- <-|].
  apply bind_inv in H as [([price up] & w1 & H1 & H)|(e & H1 & ->)].
  - assert (ledger w' = ledger w1) as E.
    { eapply quiet_ledger; [|exact H]. unfold cacheDecrUserQuota. solve_preserves. }
    assert (r = Ok tt) as ->.
    { clear -H. unfold refreshSubscriptionUserGroupCache, RecordLog in H. monad_cases; done. }
    apply ledger_db in E. rewrite E.
    apply Transaction_inv in H1 as [(e & [=] & _)|(res & w2 & w3 & [= <-] & Ein & H1 & Eout)].
    apply same_db in Ein, Eout. apply purchase_tx_inv in H1. rewrite Ein in H1. rewrite Eout. eauto.
  - apply Transaction_inv in H1 as [(e' & _ & Edb)|(a & w2 & w3 & [=] & _)]. done.
Qed.
End purchase.

Definition rich_world : World := set_w_db (set_users (insert 7 (sample_user 7 6000000))) sub_world.

Lemma PurchaseSubscriptionWithBalance_atomic_witness :
  let w' := exec (PurchaseSubscriptionWithBalance 7 1 "B1") rich_world in
  user_column u_Quota w'.(w_db) 7 = 1000000 /\ exists price, bought 7 "B1" price rich_world.(w_db) w'.(w_db).
Proof.
  intros w'. split; [vm_compute; reflexivity|].
  pose proof (PurchaseSubscriptionWithBalance_atomic 7 1 "B1" rich_world _ _ (run_eq _ _)) as H.
  assert (eval (PurchaseSubscriptionWithBalance 7 1 "B1") rich_world = Ok tt) as E by (vm_compute; reflexivity).
  rewrite E in H. exact H.
Defined.
