(* ===== verification/Billing.v ===== *)
(** * Billing sessions (service/funding_source.go, service/billing_session.go,
      service/billing.go, service/quota.go)

    A request is paid from a funding source -- the wallet or a subscription -- and
    from its token.  The session reserves before the upstream call, tops the
    reservation up, settles the difference to the actual cost, or hands a refund
    to the background pool.  [relayInfo] is shared by the session and its callers,
    so it is a component of the state of its own. *)

From stdpp Require Import base tactics numbers list gmap strings pretty.
From Stdlib Require Import ZArith Lia.
From S2P Require Import Prelude Float64 QuotaMath Calendar World UserCache QuotaStore SubscriptionTime Subscription.
Open Scope Z_scope.

(** ** Errors shown to the client (relaykit/types) *)

Inductive ErrorCode :=
| ErrorCodeInsufficientUserQuota
| ErrorCodePreConsumeTokenQuotaFailed
| ErrorCodeUpdateDataError
| ErrorCodeQueryDataError
| ErrorCodeModelPriceError.

#[export] Instance ErrorCode_eq_dec : EqDecision ErrorCode.
Proof. solve_decision. Defined.

Record APIError := mkAPIError { ae_err : error; ae_code : ErrorCode }.

(** ** Running a world computation next to another state *)

Section lift.
Context {S : Type}.
Definition lift {E A} (c : M World E A) : M (World * S) E A :=
  fun ws => let (r, w') := c ws.1 in (r, (w', ws.2)).
Definition getS {E} : M (World * S) E S := fun ws => (Ok ws.2, ws).
Definition modifyS {E} (f : S -> S) : M (World * S) E unit := fun ws => (Ok tt, (ws.1, f ws.2)).
End lift.
(** [if err := f(); err != nil]: the error of another type becomes a value. *)
Definition attempt {S E E' A} (c : M S E A) : M S E' (result E A) := fun s => let (r, s') := c s in (Ok r, s').
(** Replaces the error of a computation. *)
Definition or_error {S E E' A} (c : M S E A) (f : E -> E') : M S E' A :=
  let! r := attempt c in
  match r with Ok a => ret a | Err e => throw (f e) end.

Record RelayInfo := mkRelayInfo {
  ri_UserId : Z;
  ri_TokenId : Z;
  ri_TokenKey : string;
  ri_TokenUnlimited : bool;
  ri_IsPlayground : bool;
  ri_ForcePreConsume : bool;
  ri_UserQuota : Z;
  ri_RequestId : string;
  ri_BillingPreference : string;
  ri_token_quota : Z;
  ri_ImageRequest : bool;
  ri_ImageRequestCount : Z;
  ri_QuotaClamp : bool;
  ri_FinalPreConsumedQuota : Z;
  ri_BillingSource : string;
  ri_SubscriptionId : Z;
  ri_SubscriptionPreConsumed : Z;
  ri_SubscriptionPostDelta : Z;
  ri_SubscriptionAmountTotal : Z;
  ri_SubscriptionAmountUsedAfterPreConsume : Z;
  ri_SubscriptionPlanId : Z;
  ri_SubscriptionPlanTitle : string
}.
Definition set_ri_UserQuota (f : Z -> Z) (r : RelayInfo) : RelayInfo :=
  mkRelayInfo r.(ri_UserId) r.(ri_TokenId) r.(ri_TokenKey) r.(ri_TokenUnlimited) r.(ri_IsPlayground)
    r.(ri_ForcePreConsume) (f r.(ri_UserQuota)) r.(ri_RequestId) r.(ri_BillingPreference)
    r.(ri_token_quota) r.(ri_ImageRequest) r.(ri_ImageRequestCount) r.(ri_QuotaClamp)
    r.(ri_FinalPreConsumedQuota) r.(ri_BillingSource) r.(ri_SubscriptionId)
    r.(ri_SubscriptionPreConsumed) r.(ri_SubscriptionPostDelta) r.(ri_SubscriptionAmountTotal)
    r.(ri_SubscriptionAmountUsedAfterPreConsume) r.(ri_SubscriptionPlanId)
    r.(ri_SubscriptionPlanTitle).
Definition set_ri_SubscriptionPostDelta (f : Z -> Z) (r : RelayInfo) : RelayInfo :=
  mkRelayInfo r.(ri_UserId) r.(ri_TokenId) r.(ri_TokenKey) r.(ri_TokenUnlimited) r.(ri_IsPlayground)
    r.(ri_ForcePreConsume) r.(ri_UserQuota) r.(ri_RequestId) r.(ri_BillingPreference)
    r.(ri_token_quota) r.(ri_ImageRequest) r.(ri_ImageRequestCount) r.(ri_QuotaClamp)
    r.(ri_FinalPreConsumedQuota) r.(ri_BillingSource) r.(ri_SubscriptionId)
    r.(ri_SubscriptionPreConsumed) (f r.(ri_SubscriptionPostDelta)) r.(ri_SubscriptionAmountTotal)
    r.(ri_SubscriptionAmountUsedAfterPreConsume) r.(ri_SubscriptionPlanId)
    r.(ri_SubscriptionPlanTitle).

(** ** Funding sources *)

Record WalletFunding := mkWalletFunding {
  wf_userId : Z;
  wf_consumed : Z
}.
Definition set_wf_consumed (f : Z -> Z) (r : WalletFunding) : WalletFunding :=
  mkWalletFunding r.(wf_userId) (f r.(wf_consumed)).

Record SubscriptionFunding := mkSubscriptionFunding {
  sf_requestId : string;
  sf_userId : Z;
  sf_amount : Z;
  sf_subscriptionId : Z;
  sf_preConsumed : Z;
  sf_AmountTotal : Z;
  sf_AmountUsedAfter : Z;
  sf_PlanId : Z;
  sf_PlanTitle : string
}.

Definition BillingSourceWallet : string := "wallet".
Definition BillingSourceSubscription : string := "subscription".

(** The interface FundingSource; the receiver is the second state component. *)
Class FundingSource (F : Type) := {
  Source : F -> string;
  PreConsume : Z -> M (World * F) error unit;
  Funding_Settle : Z -> M (World * F) error unit;
  Funding_Refund : M (World * F) error unit
}.

#[export] Instance Wallet_FundingSource : FundingSource WalletFunding := {
  Source _ := BillingSourceWallet;
  PreConsume amount :=
    if amount <=? 0 then ret tt
    else
      let! f := getS in
      let! reserved := lift (TryReserveUserQuota f.(wf_userId) amount) in
      if negb reserved then throw ErrInsufficientWalletQuota
      else modifyS (set_wf_consumed (fun _ => amount));
  Funding_Settle delta :=
    if delta =? 0 then ret tt
    else
      let! f := getS in
      if 0 <? delta then lift (DecreaseUserQuota f.(wf_userId) delta false)
      else lift (IncreaseUserQuota f.(wf_userId) (wrap64 (- delta)) false);
  Funding_Refund :=
    let! f := getS in
    if f.(wf_consumed) <=? 0 then ret tt
    else lift (IncreaseUserQuota f.(wf_userId) f.(wf_consumed) false)
}.

(** Up to [n] more attempts after a failure. *)
Fixpoint retry {S E A} (n : nat) (fn : M S E A) : M S E A :=
  let! r := catch fn in
  match r with
  | Ok a => ret a
  | Err e => match n with O => throw e | S n => retry n fn end
  end.
Definition refundWithRetry {S E A} (fn : M S E A) : M S E A := retry 2 fn.

#[export] Instance Subscription_FundingSource : FundingSource SubscriptionFunding := {
  Source _ := BillingSourceSubscription;
  PreConsume _ :=
    let! f := getS in
    let! res := lift (PreConsumeUserSubscription f.(sf_requestId) f.(sf_userId) f.(sf_amount)) in
    let! info := attempt (lift (GetSubscriptionPlanInfoByUserSubscriptionId res.(pc_UserSubscriptionId))) in
    let (planId, planTitle) := match info with Ok i => i | Err _ => (f.(sf_PlanId), f.(sf_PlanTitle)) end in
    modifyS (fun _ => mkSubscriptionFunding f.(sf_requestId) f.(sf_userId) f.(sf_amount) res.(pc_UserSubscriptionId)
                        res.(pc_PreConsumed) res.(pc_AmountTotal) res.(pc_AmountUsedAfter) planId planTitle);
  Funding_Settle delta :=
    if delta =? 0 then ret tt
    else let! f := getS in lift (PostConsumeUserSubscriptionDelta f.(sf_subscriptionId) delta);
  Funding_Refund :=
    let! f := getS in
    if f.(sf_preConsumed) <=? 0 then ret tt
    else lift (refundWithRetry (RefundSubscriptionPreConsume f.(sf_requestId)))
}.

(** A value of the interface type: one of the two implementations. *)
Inductive Funding := FWallet (f : WalletFunding) | FSubscription (f : SubscriptionFunding).

(** Dynamic dispatch. *)
Definition dispatch {A} (cw : M (World * WalletFunding) error A) (cs : M (World * SubscriptionFunding) error A)
    : M (World * Funding) error A :=
  fun wf => match wf.2 with
            | FWallet f => let '(r, (w', f')) := cw (wf.1, f) in (r, (w', FWallet f'))
            | FSubscription f => let '(r, (w', f')) := cs (wf.1, f) in (r, (w', FSubscription f'))
            end.

#[export] Instance Funding_FundingSource : FundingSource Funding := {
  Source f := match f with FWallet f => Source f | FSubscription f => Source f end;
  PreConsume amount := dispatch (PreConsume amount) (PreConsume amount);
  Funding_Settle delta := dispatch (Funding_Settle delta) (Funding_Settle delta);
  Funding_Refund := dispatch Funding_Refund Funding_Refund
}.

(** ** The session *)

Record BillingSession := mkBillingSession {
  b_funding : Funding;
  b_preConsumedQuota : Z;
  b_tokenConsumed : Z;
  b_extraReserved : Z;
  b_trusted : bool;
  b_fundingSettled : bool;
  b_settled : bool;
  b_refunded : bool
}.
Definition set_b_funding (f : Funding -> Funding) (r : BillingSession) : BillingSession :=
  mkBillingSession (f r.(b_funding)) r.(b_preConsumedQuota) r.(b_tokenConsumed) r.(b_extraReserved)
    r.(b_trusted) r.(b_fundingSettled) r.(b_settled) r.(b_refunded).
Definition set_b_preConsumedQuota (f : Z -> Z) (r : BillingSession) : BillingSession :=
  mkBillingSession r.(b_funding) (f r.(b_preConsumedQuota)) r.(b_tokenConsumed) r.(b_extraReserved)
    r.(b_trusted) r.(b_fundingSettled) r.(b_settled) r.(b_refunded).
Definition set_b_tokenConsumed (f : Z -> Z) (r : BillingSession) : BillingSession :=
  mkBillingSession r.(b_funding) r.(b_preConsumedQuota) (f r.(b_tokenConsumed)) r.(b_extraReserved)
    r.(b_trusted) r.(b_fundingSettled) r.(b_settled) r.(b_refunded).
Definition set_b_extraReserved (f : Z -> Z) (r : BillingSession) : BillingSession :=
  mkBillingSession r.(b_funding) r.(b_preConsumedQuota) r.(b_tokenConsumed) (f r.(b_extraReserved))
    r.(b_trusted) r.(b_fundingSettled) r.(b_settled) r.(b_refunded).
Definition set_b_trusted (f : bool -> bool) (r : BillingSession) : BillingSession :=
  mkBillingSession r.(b_funding) r.(b_preConsumedQuota) r.(b_tokenConsumed) r.(b_extraReserved)
    (f r.(b_trusted)) r.(b_fundingSettled) r.(b_settled) r.(b_refunded).
Definition set_b_fundingSettled (f : bool -> bool) (r : BillingSession) : BillingSession :=
  mkBillingSession r.(b_funding) r.(b_preConsumedQuota) r.(b_tokenConsumed) r.(b_extraReserved)
    r.(b_trusted) (f r.(b_fundingSettled)) r.(b_settled) r.(b_refunded).
Definition set_b_settled (f : bool -> bool) (r : BillingSession) : BillingSession :=
  mkBillingSession r.(b_funding) r.(b_preConsumedQuota) r.(b_tokenConsumed) r.(b_extraReserved)
    r.(b_trusted) r.(b_fundingSettled) (f r.(b_settled)) r.(b_refunded).
Definition set_b_refunded (f : bool -> bool) (r : BillingSession) : BillingSession :=
  mkBillingSession r.(b_funding) r.(b_preConsumedQuota) r.(b_tokenConsumed) r.(b_extraReserved)
    r.(b_trusted) r.(b_fundingSettled) r.(b_settled) (f r.(b_refunded)).

(** The state of a session method: the world, and the shared relayInfo with the
    receiver. *)
Abbreviation MB E := (M (World * (RelayInfo * BillingSession)) E).

Definition info {E A} (f : RelayInfo -> A) : MB E A := let! s := getS in ret (f s.1).
Definition sess {E A} (f : BillingSession -> A) : MB E A := let! s := getS in ret (f s.2).
Definition set_info {E} (f : RelayInfo -> RelayInfo) : MB E unit := modifyS (fun s => (f s.1, s.2)).
Definition set_sess {E} (f : BillingSession -> BillingSession) : MB E unit := modifyS (fun s => (s.1, f s.2)).
(** A method call on [s.funding]. *)
Definition on_funding {E A} (c : M (World * Funding) E A) : MB E A :=
  fun ws => let '(r, (w', f')) := c (ws.1, ws.2.2.(b_funding)) in
            (r, (w', (ws.2.1, set_b_funding (fun _ => f') ws.2.2))).

(** service/quota.go *)
Definition token_not_enough : error := ErrMsg "token quota is not enough".

Definition PreConsumeTokenQuota (ri : RelayInfo) (quota : Z) : MW unit :=
  if quota <? 0 then throw quota_negative
  else if ri.(ri_IsPlayground) then ret tt
  else
    let! reserved := TryReserveTokenQuota ri.(ri_TokenId) ri.(ri_TokenKey) quota ri.(ri_TokenUnlimited) in
    if negb reserved then catch (GetTokenByKey ri.(ri_TokenKey) false) ;; throw token_not_enough
    else ret tt.

(** Adjusts the token by [- delta]. *)
Definition adjust_token (ri : RelayInfo) (delta : Z) : MW unit :=
  if 0 <? delta then DecreaseTokenQuota ri.(ri_TokenId) ri.(ri_TokenKey) delta
  else IncreaseTokenQuota ri.(ri_TokenId) ri.(ri_TokenKey) (wrap64 (- delta)).

Definition Settle (actualQuota : Z) : MB error unit :=
  let! s := sess id in
  let! ri := info id in
  if s.(b_settled) then ret tt
  else
    let delta := actualQuota -! s.(b_preConsumedQuota) in
    if delta =? 0 then set_sess (set_b_settled (fun _ => true))
    else
      (if s.(b_fundingSettled) then ret tt
       else on_funding (Funding_Settle delta) ;; set_sess (set_b_fundingSettled (fun _ => true))) ;;
      let! tokenErr := attempt (if ri.(ri_IsPlayground) then ret tt else lift (adjust_token ri delta)) in
      let! s := sess id in
      (if String.eqb (Source s.(b_funding)) BillingSourceSubscription
       then set_info (set_ri_SubscriptionPostDelta (fun d => d +! delta)) else ret tt) ;;
      set_sess (set_b_settled (fun _ => true)) ;;
      of_result tokenErr.

Definition needsRefundLocked (s : BillingSession) : bool :=
  if s.(b_settled) || s.(b_refunded) || s.(b_fundingSettled) then false
  else if 0 <? s.(b_tokenConsumed) then true
  else match s.(b_funding) with
       | FSubscription f => 0 <? f.(sf_preConsumed)
       | FWallet _ => false
       end.

Definition refund_of (f : Funding) : FundingRefund :=
  match f with
  | FWallet f => RefundWallet f.(wf_userId) f.(wf_consumed)
  | FSubscription f => RefundSubscription f.(sf_requestId) f.(sf_preConsumed)
  end.

(** The refund itself runs in the background pool. *)
Definition Refund {E} : MB E unit :=
  let! s := sess id in
  let! ri := info id in
  if s.(b_settled) || s.(b_refunded) || negb (needsRefundLocked s) then ret tt
  else
    set_sess (set_b_refunded (fun _ => true)) ;;
    (fun ws => (Ok tt, (set_w_jobs (fun js => js ++ [JobRefund (refund_of s.(b_funding)) s.(b_extraReserved)
        ri.(ri_SubscriptionId) ri.(ri_TokenId) ri.(ri_TokenKey) s.(b_tokenConsumed) ri.(ri_IsPlayground)]) ws.1, ws.2))).

(** funding.Refund() on the captured values. *)
Definition run_funding_refund (f : FundingRefund) : MW unit :=
  match f with
  | RefundWallet userId consumed => if consumed <=? 0 then ret tt else IncreaseUserQuota userId consumed false
  | RefundSubscription requestId preConsumed =>
      if preConsumed <=? 0 then ret tt else refundWithRetry (RefundSubscriptionPreConsume requestId)
  end.

(** The closures run by the background pool; failures are logged. *)
Definition run_job (j : Job) : MW unit :=
  match j with
  | JobCacheUserQuota userId delta => catch (cacheIncrUserQuota userId delta) ;; ret tt
  | JobCacheTokenQuota tokenId key delta => catch (cacheApplyTokenQuotaDelta tokenId key delta) ;; ret tt
  | JobRefund funding extraReserved subscriptionId tokenId tokenKey tokenConsumed isPlayground =>
      catch (run_funding_refund funding) ;;
      (match funding with
       | RefundSubscription _ _ =>
           if (0 <? extraReserved) && (0 <? subscriptionId)
           then catch (PostConsumeUserSubscriptionDelta subscriptionId (wrap64 (- extraReserved))) ;; ret tt
           else ret tt
       | RefundWallet _ _ => ret tt
       end) ;;
      (if (0 <? tokenConsumed) && negb isPlayground
       then catch (IncreaseTokenQuota tokenId tokenKey tokenConsumed) ;; ret tt else ret tt)
  end.

(** Takes the oldest job off the queue and runs it. *)
Definition run_next_job : MW unit :=
  let! js := gets w_jobs in
  match js with
  | [] => ret tt
  | j :: rest => modify (set_w_jobs (fun _ => rest)) ;; run_job j
  end.

Definition sync_info (s : BillingSession) (ri : RelayInfo) : RelayInfo :=
  match s.(b_funding) with
  | FSubscription f =>
      mkRelayInfo ri.(ri_UserId) ri.(ri_TokenId) ri.(ri_TokenKey) ri.(ri_TokenUnlimited) ri.(ri_IsPlayground)
        ri.(ri_ForcePreConsume) ri.(ri_UserQuota) ri.(ri_RequestId) ri.(ri_BillingPreference) ri.(ri_token_quota)
        ri.(ri_ImageRequest) ri.(ri_ImageRequestCount) ri.(ri_QuotaClamp)
        s.(b_preConsumedQuota) BillingSourceSubscription f.(sf_subscriptionId)
        (f.(sf_preConsumed) +! s.(b_extraReserved)) 0 f.(sf_AmountTotal)
        (f.(sf_AmountUsedAfter) +! s.(b_extraReserved)) f.(sf_PlanId) f.(sf_PlanTitle)
  | FWallet _ =>
      mkRelayInfo ri.(ri_UserId) ri.(ri_TokenId) ri.(ri_TokenKey) ri.(ri_TokenUnlimited) ri.(ri_IsPlayground)
        ri.(ri_ForcePreConsume) ri.(ri_UserQuota) ri.(ri_RequestId) ri.(ri_BillingPreference) ri.(ri_token_quota)
        ri.(ri_ImageRequest) ri.(ri_ImageRequestCount) ri.(ri_QuotaClamp)
        s.(b_preConsumedQuota) BillingSourceWallet 0 0 ri.(ri_SubscriptionPostDelta) ri.(ri_SubscriptionAmountTotal)
        ri.(ri_SubscriptionAmountUsedAfterPreConsume) ri.(ri_SubscriptionPlanId) ri.(ri_SubscriptionPlanTitle)
  end.
Definition syncRelayInfo {E} : MB E unit := let! s := sess id in set_info (sync_info s).

Definition api_insufficient (e : error) : APIError := mkAPIError e ErrorCodeInsufficientUserQuota.
Definition api_update_error (e : error) : APIError := mkAPIError e ErrorCodeUpdateDataError.

Definition reserveFunding (delta : Z) (requireAvailableQuota : bool) : MB APIError unit :=
  let! s := sess id in
  match s.(b_funding) with
  | FWallet f =>
      if requireAvailableQuota then
        or_error (on_funding (PreConsume delta))
          (fun e => if bool_decide (e = ErrInsufficientWalletQuota) then api_insufficient e else api_update_error e)
      else
        or_error (lift (DecreaseUserQuota f.(wf_userId) delta false)) api_update_error ;;
        set_sess (set_b_funding (fun _ => FWallet (set_wf_consumed (fun c => c +! delta) f)))
  | FSubscription f =>
      or_error (lift (PostConsumeUserSubscriptionDelta f.(sf_subscriptionId) delta)) api_insufficient
  end.

Definition rollbackFundingReserve {E} (delta : Z) : MB E unit :=
  let! s := sess id in
  match s.(b_funding) with
  | FWallet f =>
      let! r := attempt (lift (IncreaseUserQuota f.(wf_userId) delta false)) in
      match r with
      | Ok _ => set_sess (set_b_funding (fun _ => FWallet (set_wf_consumed (fun c => c -! delta) f)))
      | Err _ => ret tt
      end
  | FSubscription f =>
      attempt (lift (PostConsumeUserSubscriptionDelta f.(sf_subscriptionId) (wrap64 (- delta)))) ;; ret tt
  end.

Definition reserveToken (delta : Z) : MB APIError unit :=
  let! ri := info id in
  if (delta <=? 0) || ri.(ri_IsPlayground) then ret tt
  else or_error (lift (PreConsumeTokenQuota ri delta)) (fun e => mkAPIError e ErrorCodePreConsumeTokenQuotaFailed).

Definition Reserve (targetQuota : Z) : MB APIError unit :=
  let! s := sess id in
  let! ri := info id in
  let imageRequest := ri.(ri_ImageRequest) || (0 <? ri.(ri_ImageRequestCount)) in
  if s.(b_settled) || s.(b_refunded) || (s.(b_trusted) && negb imageRequest) || (targetQuota <=? s.(b_preConsumedQuota))
  then ret tt
  else
    let delta := targetQuota -! s.(b_preConsumedQuota) in
    if delta <=? 0 then ret tt
    else
      reserveFunding delta imageRequest ;;
      let! t := attempt (reserveToken delta) in
      match t with
      | Err e => rollbackFundingReserve delta ;; throw e
      | Ok _ =>
          set_sess (fun s => set_b_extraReserved (fun x => x +! delta) (set_b_tokenConsumed (fun x => x +! delta)
                               (set_b_preConsumedQuota (fun x => x +! delta) s))) ;;
          (if imageRequest then set_sess (set_b_trusted (fun _ => false)) else ret tt) ;;
          syncRelayInfo
      end.

(** ** Pre-consumption *)

Definition shouldTrust (c : Config) (ri : RelayInfo) (f : Funding) : bool :=
  if ri.(ri_ForcePreConsume) then false
  else
    let trustQuota := GetTrustQuota c.(QuotaPerUnit) in
    if trustQuota <=? 0 then false
    else if negb (ri.(ri_TokenUnlimited) || (trustQuota <? ri.(ri_token_quota))) then false
    else match f with
         | FWallet _ => trustQuota <? ri.(ri_UserQuota)
         | FSubscription _ => false
         end.

Definition user_quota_short : error := ErrMsg "用户额度不足".

(** The error of a failed funding reservation, as the client sees it. *)
Definition funding_error (ri : RelayInfo) (e : error) : MB APIError unit :=
  if bool_decide (e = ErrInsufficientWalletQuota) then
    attempt (lift (GetUserQuota ri.(ri_UserId) false)) ;;
    throw (api_insufficient user_quota_short)
  else if Contains (Error_text e) "no active subscription" || Contains (Error_text e) "subscription quota insufficient" then
    throw (api_insufficient (ErrMsg ("订阅额度不足或未配置订阅: " +:+ Error_text e)))
  else throw (api_update_error e).

Definition preConsume (quota : Z) : MB APIError unit :=
  let! c := (fun ws => (Ok ws.1.(w_cfg), ws)) in
  let! ri := info id in
  let! s := sess id in
  let trusted := shouldTrust c ri s.(b_funding) in
  let effectiveQuota := if trusted then 0 else quota in
  set_sess (set_b_trusted (fun t => t || trusted)) ;;
  (if 0 <? effectiveQuota then
     or_error (lift (PreConsumeTokenQuota ri effectiveQuota)) (fun e => mkAPIError e ErrorCodePreConsumeTokenQuotaFailed) ;;
     set_sess (set_b_tokenConsumed (fun _ => effectiveQuota))
   else ret tt) ;;
  let! r := attempt (on_funding (PreConsume effectiveQuota)) in
  match r with
  | Err e =>
      let! s := sess id in
      (if (0 <? s.(b_tokenConsumed)) && negb ri.(ri_IsPlayground) then
         attempt (lift (IncreaseTokenQuota ri.(ri_TokenId) ri.(ri_TokenKey) s.(b_tokenConsumed))) ;;
         set_sess (set_b_tokenConsumed (fun _ => 0))
       else ret tt) ;;
      funding_error ri e
  | Ok _ =>
      set_sess (set_b_preConsumedQuota (fun _ => effectiveQuota)) ;;
      syncRelayInfo
  end.

(** ** The factory *)

Definition NormalizeBillingPreference (pref : string) : string :=
  let p := TrimSpace pref in
  if String.eqb p "subscription_first" || String.eqb p "wallet_first" || String.eqb p "subscription_only"
     || String.eqb p "wallet_only"
  then p else "subscription_first".

Abbreviation MR := (M (World * RelayInfo) APIError).

Definition new_session (f : Funding) : BillingSession := mkBillingSession f 0 0 0 false false false false.

(** Runs [preConsume] on a fresh session that shares this relayInfo. *)
Definition start_session (f : Funding) (quota : Z) : MR BillingSession :=
  fun wr => let '(r, (w', (ri', s'))) := preConsume quota (wr.1, (wr.2, new_session f)) in
            (match r with Ok _ => Ok s' | Err e => Err e end, (w', ri')).

Definition tryWallet (preConsumedQuota : Z) : MR BillingSession :=
  let! ri := getS in
  let! userQuota := or_error (lift (GetUserQuota ri.(ri_UserId) false)) (fun e => mkAPIError e ErrorCodeQueryDataError) in
  if userQuota <=? 0 then throw (api_insufficient user_quota_short)
  else if userQuota -! preConsumedQuota <? 0 then throw (api_insufficient (ErrMsg "预扣费额度失败"))
  else
    modifyS (set_ri_UserQuota (fun _ => userQuota)) ;;
    start_session (FWallet (mkWalletFunding ri.(ri_UserId) 0)) preConsumedQuota.

Definition trySubscription (preConsumedQuota : Z) : MR BillingSession :=
  let! ri := getS in
  let subConsume := if preConsumedQuota <=? 0 then 1 else preConsumedQuota in
  start_session (FSubscription (mkSubscriptionFunding ri.(ri_RequestId) ri.(ri_UserId) subConsume 0 0 0 0 0 "")) subConsume.

Definition NewBillingSession (preConsumedQuota : Z) : MR BillingSession :=
  let! ri := getS in
  let pref := NormalizeBillingPreference ri.(ri_BillingPreference) in
  if String.eqb pref "subscription_only" then trySubscription preConsumedQuota
  else if String.eqb pref "wallet_only" then tryWallet preConsumedQuota
  else if String.eqb pref "wallet_first" then
    let! r := attempt (tryWallet preConsumedQuota) in
    match r with
    | Ok s => ret s
    | Err e => if bool_decide (e.(ae_code) = ErrorCodeInsufficientUserQuota) then trySubscription preConsumedQuota else throw e
    end
  else
    let! hasSub := or_error (lift (HasActiveUserSubscription ri.(ri_UserId))) (fun e => mkAPIError e ErrorCodeQueryDataError) in
    if negb hasSub then tryWallet preConsumedQuota
    else
      let! r := attempt (trySubscription preConsumedQuota) in
      match r with
      | Ok s => ret s
      | Err e =>
          if bool_decide (e.(ae_code) = ErrorCodeInsufficientUserQuota) then
            let! allow := or_error (lift (UserActiveSubscriptionsAllowWalletOverflow ri.(ri_UserId)))
                            (fun e => mkAPIError e ErrorCodeQueryDataError) in
            if allow : bool then tryWallet preConsumedQuota else throw e
          else throw e
      end.

(** service/billing.go: the session is stored on relayInfo for later calls. *)
Definition PreConsumeBilling (preConsumedQuota : Z) : MR BillingSession :=
  let! ri := getS in
  if ri.(ri_QuotaClamp) then throw (mkAPIError ErrQuotaClamp ErrorCodeModelPriceError)
  else if preConsumedQuota <? 0 then throw (mkAPIError (ErrMsg "pre-consume quota cannot be negative") ErrorCodeModelPriceError)
  else NewBillingSession preConsumedQuota.

(** ** Settlement without a session (service/quota.go) *)

Record postConsumeQuotaResult := mkPostConsumeResult { FundingApplied : bool; TokenApplied : bool }.

(** Go returns the partial result next to the error. *)
Definition postConsumeQuotaWithResult (quota : Z) : M (World * RelayInfo) error (postConsumeQuotaResult * option error) :=
  let! ri := getS in
  let! r1 := attempt (E':=error)
    (if String.eqb ri.(ri_BillingSource) BillingSourceSubscription then
       if ri.(ri_SubscriptionId) =? 0 then throw (ErrMsg "subscription id is missing")
       else if quota =? 0 then ret tt
       else
         lift (PostConsumeUserSubscriptionDelta ri.(ri_SubscriptionId) quota) ;;
         modifyS (set_ri_SubscriptionPostDelta (fun d => d +! quota))
     else if 0 <? quota then lift (DecreaseUserQuota ri.(ri_UserId) quota false)
     else lift (IncreaseUserQuota ri.(ri_UserId) (wrap64 (- quota)) false)) in
  match r1 with
  | Err e => ret (mkPostConsumeResult false false, Some e)
  | Ok _ =>
      if ri.(ri_IsPlayground) then ret (mkPostConsumeResult true false, None)
      else
        let! r2 := attempt (lift (adjust_token ri quota)) in
        match r2 with
        | Err e => ret (mkPostConsumeResult true false, Some e)
        | Ok _ => ret (mkPostConsumeResult true true, None)
        end
  end.

Definition PostConsumeQuota (quota : Z) : M (World * RelayInfo) error unit :=
  let! r := postConsumeQuotaWithResult quota in
  match r.2 with Some e => throw e | None => ret tt end.

(** SettleBilling, with and without a session. *)
Definition SettleBilling_session (actualQuota : Z) : MB error unit := Settle actualQuota.
Definition SettleBilling_legacy (actualQuota : Z) : M (World * RelayInfo) error unit :=
  let! ri := getS in
  let quotaDelta := actualQuota -! ri.(ri_FinalPreConsumedQuota) in
  if quotaDelta =? 0 then ret tt else PostConsumeQuota quotaDelta.
