(* ===== verification/BillingFrame.v ===== *)
(** * What each billing call leaves alone

    Wallet and subscription operations do not touch tokens, token operations do
    not touch wallets or subscriptions, and a run without scripted faults stays
    without faults.  These frames let the session theorems combine the calls. *)

From stdpp Require Import base tactics numbers list gmap strings.
From Stdlib Require Import ZArith Lia.
From S2P Require Import Prelude Float64 QuotaMath World UserCache QuotaStore Reserve SubscriptionTime Subscription SubscriptionInv SubscriptionUse Billing.
Open Scope Z_scope.

(** ** The two halves of the ledger *)

(** The token half: token rows and queued token deltas. *)
Definition tokens_are (T : gmap Z Token) (B : gmap Z Z) (w : World) : Prop :=
  w.(w_db).(tokens) = T /\ w.(w_batch).(bs_TokenQuota) = B.
(** The account half: users, queued wallet deltas, subscriptions. *)
Definition accounts_are (U : gmap Z User) (B : gmap Z Z) (S : gmap Z UserSubscription) (w : World) : Prop :=
  w.(w_db).(users) = U /\ w.(w_batch).(bs_UserQuota) = B /\ w.(w_db).(subs) = S.
(** The subscriptions, and everything but the subscriptions. *)
Definition subs_are (S : gmap Z UserSubscription) (w : World) : Prop := w.(w_db).(subs) = S.

#[export] Instance tokens_are_ledger T B : LedgerPred (tokens_are T B).
Proof. intros w w' [= H1 H2 _]. unfold tokens_are. by rewrite H1, H2. Qed.
#[export] Instance tokens_are_rollback T B : RollbackPred (tokens_are T B).
Proof. by intros w w' [H1 H2] [H3 H4]. Qed.
#[export] Instance accounts_are_ledger U B S : LedgerPred (accounts_are U B S).
Proof. intros w w' [= H1 H2 _]. unfold accounts_are. by rewrite H1, H2. Qed.
#[export] Instance accounts_are_rollback U B S : RollbackPred (accounts_are U B S).
Proof. by intros w w' (H1 & H2 & H3) (H4 & H5 & H6). Qed.
#[export] Instance subs_are_ledger S : LedgerPred (subs_are S).
Proof. intros w w' [= H1 _ _]. unfold subs_are. by rewrite H1. Qed.
#[export] Instance subs_are_rollback S : RollbackPred (subs_are S).
Proof. by intros w w' H1 H2. Qed.

Section token_frame.
Context (T : gmap Z Token) (B : gmap Z Z).
Abbreviation TI := (tokens_are T B).

Lemma update_user_tokens id p f : preserves TI (update_user id p f).
Proof.
  unfold update_user. apply preserves_bind; [auto with preserve|intros _]. apply preserves_read. intros w Hw.
  destruct (visible_user _ _); [|done]. by destruct (p _).
Qed.
Lemma addNewRecord_user_tokens id v : preserves TI (addNewRecord BatchUpdateTypeUserQuota id v).
Proof. by intros w Hw. Qed.
#[local] Hint Resolve update_user_tokens addNewRecord_user_tokens : preserve.

Lemma IncreaseUserQuota_tokens id q b : preserves TI (IncreaseUserQuota id q b).
Proof. unfold IncreaseUserQuota, increaseUserQuota. solve_preserves. Qed.
Lemma DecreaseUserQuota_tokens id q b : preserves TI (DecreaseUserQuota id q b).
Proof. unfold DecreaseUserQuota, decreaseUserQuota. solve_preserves. Qed.
Lemma TryReserveUserQuota_tokens id q : preserves TI (TryReserveUserQuota id q).
Proof. unfold TryReserveUserQuota, reserveUserQuotaDB, persistUserQuotaDelta. solve_preserves. Qed.

Lemma save_sub_tokens s : preserves TI (save_sub s).
Proof. unfold save_sub. solve_preserves; by intros w Hw. Qed.
#[local] Hint Resolve save_sub_tokens : preserve.
Lemma PostConsume_tokens id d : preserves TI (PostConsumeUserSubscriptionDelta id d).
Proof. unfold PostConsumeUserSubscriptionDelta, post_consume_tx. solve_preserves. Qed.
Lemma create_record_tokens r : preserves TI (create_record r).
Proof. unfold create_record. solve_preserves; by intros w Hw. Qed.
#[local] Hint Resolve PostConsume_tokens create_record_tokens : preserve.
Lemma Refund_tokens r : preserves TI (RefundSubscriptionPreConsume r).
Proof. unfold RefundSubscriptionPreConsume. solve_preserves; by intros w Hw. Qed.
Lemma maybeReset_tokens s p n : preserves TI (maybeResetUserSubscriptionWithPlanTx s p n).
Proof. unfold maybeResetUserSubscriptionWithPlanTx. solve_preserves. Qed.
#[local] Hint Resolve maybeReset_tokens : preserve.
Lemma try_candidates_tokens r u a n l : preserves TI (try_candidates r u a n l).
Proof. induction l as [|s l IH]; simpl; solve_preserves. Qed.
#[local] Hint Resolve try_candidates_tokens : preserve.
Lemma PreConsumeUserSubscription_tokens r u a : preserves TI (PreConsumeUserSubscription r u a).
Proof. unfold PreConsumeUserSubscription, pre_consume_tx. solve_preserves. Qed.
End token_frame.
#[export] Hint Resolve IncreaseUserQuota_tokens DecreaseUserQuota_tokens TryReserveUserQuota_tokens
  PostConsume_tokens Refund_tokens PreConsumeUserSubscription_tokens GetPlanInfo_quiet : preserve.

Section account_frame.
Context (U : gmap Z User) (B : gmap Z Z) (S : gmap Z UserSubscription).
Abbreviation AI := (accounts_are U B S).

Lemma update_token_accounts id p f : preserves AI (update_token id p f).
Proof.
  unfold update_token. apply preserves_bind; [auto with preserve|intros _]. apply preserves_read. intros w Hw.
  destruct (visible_token _ _); [|done]. by destruct (p _).
Qed.
Lemma addNewRecord_token_accounts id v : preserves AI (addNewRecord BatchUpdateTypeTokenQuota id v).
Proof. by intros w Hw. Qed.
#[local] Hint Resolve update_token_accounts addNewRecord_token_accounts : preserve.

Lemma IncreaseTokenQuota_accounts id k q : preserves AI (IncreaseTokenQuota id k q).
Proof. unfold IncreaseTokenQuota, increaseTokenQuota. solve_preserves. Qed.
Lemma DecreaseTokenQuota_accounts id k q : preserves AI (DecreaseTokenQuota id k q).
Proof. unfold DecreaseTokenQuota, decreaseTokenQuota. solve_preserves. Qed.
#[local] Hint Resolve IncreaseTokenQuota_accounts DecreaseTokenQuota_accounts : preserve.
Lemma cacheTryReserveTokenQuota_accounts id k q : preserves AI (cacheTryReserveTokenQuota id k q).
Proof. unfold cacheTryReserveTokenQuota. solve_preserves. Qed.
Lemma cacheApplyTokenQuotaDelta_accounts id k q : preserves AI (cacheApplyTokenQuotaDelta id k q).
Proof. unfold cacheApplyTokenQuotaDelta. solve_preserves. Qed.
#[local] Hint Resolve cacheTryReserveTokenQuota_accounts cacheApplyTokenQuotaDelta_accounts : preserve.
Lemma TryReserveTokenQuota_accounts id k q u : preserves AI (TryReserveTokenQuota id k q u).
Proof. unfold TryReserveTokenQuota, reserveTokenQuotaDB, persistTokenQuotaDelta. solve_preserves. Qed.
#[local] Hint Resolve TryReserveTokenQuota_accounts : preserve.
Lemma PreConsumeTokenQuota_accounts ri q : preserves AI (PreConsumeTokenQuota ri q).
Proof. unfold PreConsumeTokenQuota. solve_preserves. Qed.
Lemma adjust_token_accounts ri d : preserves AI (adjust_token ri d).
Proof. unfold adjust_token. solve_preserves. Qed.
End account_frame.
#[export] Hint Resolve IncreaseTokenQuota_accounts DecreaseTokenQuota_accounts TryReserveTokenQuota_accounts
  PreConsumeTokenQuota_accounts adjust_token_accounts : preserve.

(** A preserved frame, read off one run. *)
Lemma tokens_frame {A} (c : MW A) w r w' :
  preserves (tokens_are w.(w_db).(tokens) w.(w_batch).(bs_TokenQuota)) c -> c w = (r, w') ->
  w'.(w_db).(tokens) = w.(w_db).(tokens) /\ w'.(w_batch).(bs_TokenQuota) = w.(w_batch).(bs_TokenQuota).
Proof. intros H E. specialize (H w (conj eq_refl eq_refl)). rewrite E in H. exact H. Qed.
Lemma accounts_frame {A} (c : MW A) w r w' :
  preserves (accounts_are w.(w_db).(users) w.(w_batch).(bs_UserQuota) w.(w_db).(subs)) c -> c w = (r, w') ->
  w'.(w_db).(users) = w.(w_db).(users) /\ w'.(w_batch).(bs_UserQuota) = w.(w_batch).(bs_UserQuota) /\
  w'.(w_db).(subs) = w.(w_db).(subs).
Proof. intros H E. specialize (H w (conj eq_refl (conj eq_refl eq_refl))). rewrite E in H. exact H. Qed.

Lemma tokens_same_shift t w w' :
  w'.(w_db).(tokens) = w.(w_db).(tokens) -> w'.(w_batch).(bs_TokenQuota) = w.(w_batch).(bs_TokenQuota) ->
  token_shift t 0 w w'.
Proof. intros E1 E2 t'. unfold token_remain, token_column, visible_token. rewrite E1, E2. case_decide; lia. Qed.
Lemma accounts_same_shift u w w' :
  w'.(w_db).(users) = w.(w_db).(users) -> w'.(w_batch).(bs_UserQuota) = w.(w_batch).(bs_UserQuota) ->
  wallet_shift u 0 w w'.
Proof. intros E1 E2 u'. unfold wallet, user_column, visible_user. rewrite E1, E2. case_decide; lia. Qed.

(** ** Predicates on the rest of the world *)

Definition cache_job (j : Job) : Prop := match j with JobRefund _ _ _ _ _ _ _ => False | _ => True end.

(** State predicates that no database, cache or queue write of the billing core
    can break: they look at the faults, or at the queued refunds. *)
Class EffectPred (I : World -> Prop) : Prop := {
  ep_fault e : preserves I (fault_point e);
  ep_db f w : I w -> I (set_w_db f w);
  ep_redis f w : I w -> I (set_w_redis f w);
  ep_batch f w : I w -> I (set_w_batch f w);
  ep_go j w : cache_job j -> I w -> I (set_w_jobs (fun js => js ++ [j]) w)
}.

Definition no_faults (w : World) : Prop := w.(w_faults) = [].
#[export] Instance no_faults_effect : EffectPred no_faults.
Proof. split; try done. intros e w Hw. unfold no_faults in *. unfold fault_point. by rewrite Hw. Qed.

Definition is_refund (j : Job) : bool := match j with JobRefund _ _ _ _ _ _ _ => true | _ => false end.
Definition queued_refunds (w : World) : list Job := filter (fun j => Is_true (is_refund j)) w.(w_jobs).
Definition refunds_are (l : list Job) (w : World) : Prop := queued_refunds w = l.
#[export] Instance refunds_are_effect l : EffectPred (refunds_are l).
Proof.
  split; try done.
  - intros e w Hw. unfold fault_point. by destruct (w_faults w).
  - intros j w Hj Hw. unfold refunds_are, queued_refunds in *. simpl. rewrite filter_app, Hw.
    rewrite filter_cons_False, filter_nil, app_nil_r; [done|]. destruct j; simpl in *; tauto.
Qed.

Section effect.
Context (I : World -> Prop) `{!EffectPred I}.

Lemma stmt_ep : preserves I stmt.
Proof using All. apply ep_fault. Qed.
Lemma redis_cmd_ep : preserves I redis_cmd.
Proof using All. apply ep_fault. Qed.
Lemma modify_db_ep f : preserves I (modify_db f).
Proof using All. intros w Hw. by apply ep_db. Qed.
Lemma modify_redis_ep f : preserves I (modify_redis f).
Proof using All. intros w Hw. by apply ep_redis. Qed.
Lemma cfg_ep {A} (f : Config -> A) : preserves I (cfg f).
Proof. by intros w Hw. Qed.
Lemma get_ep : preserves I (get (E:=error)).
Proof. by intros w Hw. Qed.
Lemma GetTimestamp_ep : preserves I GetTimestamp.
Proof. by intros w Hw. Qed.
Lemma go_ep j : cache_job j -> preserves I (go j).
Proof using All. intros Hj w Hw. by apply ep_go. Qed.
Lemma addNewRecord_ep t i v : preserves I (addNewRecord t i v).
Proof using All. intros w Hw. by apply ep_batch. Qed.
Lemma of_result_ep {A} (r : result error A) : preserves I (of_result r).
Proof. by intros w Hw. Qed.
#[local] Hint Resolve stmt_ep redis_cmd_ep modify_db_ep modify_redis_ep cfg_ep get_ep GetTimestamp_ep go_ep
  addNewRecord_ep of_result_ep : preserve.
#[local] Hint Extern 0 (cache_job _) => exact Logic.I : preserve.

Lemma Transaction_ep {A} (c : MW A) : preserves I c -> preserves I (Transaction c).
Proof using All.
  intros Hc w Hw. unfold Transaction. pose proof (stmt_ep w Hw) as H1. destruct (stmt w) as [[[]|] w1]; [|done].
  specialize (Hc w1 H1). destruct (c w1) as [[a|] w2]; [|by apply ep_db].
  pose proof (stmt_ep w2 Hc) as H3. destruct (stmt w2) as [[[]|] w3]; [done|by apply ep_db].
Qed.
#[local] Hint Extern 1 (preserves _ (Transaction _)) => (apply Transaction_ep; solve_preserves) : preserve.

Lemma update_user_ep id p f : preserves I (update_user id p f).
Proof using All. unfold update_user. solve_preserves. Qed.
Lemma update_token_ep id p f : preserves I (update_token id p f).
Proof using All. unfold update_token. solve_preserves. Qed.
Lemma first_user_ep id : preserves I (first_user id).
Proof using All. unfold first_user. solve_preserves. Qed.
Lemma count_user_ep id : preserves I (count_user id).
Proof using All. unfold count_user. solve_preserves. Qed.
#[local] Hint Resolve update_user_ep update_token_ep first_user_ep count_user_ep : preserve.

Lemma GetUserCache_ep id : preserves I (GetUserCache id).
Proof using All.
  unfold GetUserCache, cacheGetUserBase, GetUserById, getUserAuthVersionFloor, populateUserCache, writeUserCache.
  solve_preserves.
Qed.
Lemma GetTokenByKey_ep k b : preserves I (GetTokenByKey k b).
Proof using All. unfold GetTokenByKey, cacheGetTokenByKey, cacheInitToken. solve_preserves. Qed.
#[local] Hint Resolve GetUserCache_ep GetTokenByKey_ep : preserve.

Lemma GetUserQuota_ep id b : preserves I (GetUserQuota id b).
Proof using All. unfold GetUserQuota, getUserQuotaCache. solve_preserves. Qed.
Lemma TryReserveUserQuota_ep id q : preserves I (TryReserveUserQuota id q).
Proof using All.
  unfold TryReserveUserQuota, reserve_with_hydration, cacheTryReserveUserQuota, reserveUserQuotaDB, persistUserQuotaDelta,
    cacheApplyUserQuotaDelta. solve_preserves.
Qed.
Lemma IncreaseUserQuota_ep id q b : preserves I (IncreaseUserQuota id q b).
Proof using All. unfold IncreaseUserQuota, increaseUserQuota. solve_preserves. Qed.
Lemma DecreaseUserQuota_ep id q b : preserves I (DecreaseUserQuota id q b).
Proof using All. unfold DecreaseUserQuota, decreaseUserQuota. solve_preserves. Qed.
Lemma IncreaseTokenQuota_ep id k q : preserves I (IncreaseTokenQuota id k q).
Proof using All. unfold IncreaseTokenQuota, increaseTokenQuota. solve_preserves. Qed.
Lemma DecreaseTokenQuota_ep id k q : preserves I (DecreaseTokenQuota id k q).
Proof using All. unfold DecreaseTokenQuota, decreaseTokenQuota. solve_preserves. Qed.
#[local] Hint Resolve IncreaseTokenQuota_ep DecreaseTokenQuota_ep : preserve.
Lemma TryReserveTokenQuota_ep id k q u : preserves I (TryReserveTokenQuota id k q u).
Proof using All.
  unfold TryReserveTokenQuota, reserve_with_hydration, cacheTryReserveTokenQuota, reserveTokenQuotaDB, persistTokenQuotaDelta,
    cacheApplyTokenQuotaDelta, token_script. solve_preserves.
Qed.
#[local] Hint Resolve TryReserveTokenQuota_ep : preserve.
Lemma PreConsumeTokenQuota_ep ri q : preserves I (PreConsumeTokenQuota ri q).
Proof using All. unfold PreConsumeTokenQuota. solve_preserves. Qed.
Lemma adjust_token_ep ri d : preserves I (adjust_token ri d).
Proof using All. unfold adjust_token. solve_preserves. Qed.
Lemma PostConsume_ep id d : preserves I (PostConsumeUserSubscriptionDelta id d).
Proof using All.
  unfold PostConsumeUserSubscriptionDelta, post_consume_tx, first_sub, save_sub. solve_preserves.
Qed.
Lemma getSubscriptionPlanByIdTx_ep id : preserves I (getSubscriptionPlanByIdTx id).
Proof using All.
  unfold getSubscriptionPlanByIdTx, HybridCache_Get, HybridCache_Set, cache_access. solve_preserves.
Qed.
Lemma maybeReset_ep s p n : preserves I (maybeResetUserSubscriptionWithPlanTx s p n).
Proof using All. unfold maybeResetUserSubscriptionWithPlanTx, save_sub. solve_preserves. Qed.
#[local] Hint Resolve getSubscriptionPlanByIdTx_ep maybeReset_ep : preserve.
Lemma try_candidates_ep r u a n l : preserves I (try_candidates r u a n l).
Proof using All.
  induction l as [|s l IH]; simpl; unfold create_record, find_record, save_sub; solve_preserves.
Qed.
#[local] Hint Resolve try_candidates_ep : preserve.
Lemma PreConsumeUserSubscription_ep r u a : preserves I (PreConsumeUserSubscription r u a).
Proof using All.
  unfold PreConsumeUserSubscription, pre_consume_tx, GetDBTimestamp, find_record, first_sub, find_subs. solve_preserves.
Qed.
Lemma GetPlanInfo_ep id : preserves I (GetSubscriptionPlanInfoByUserSubscriptionId id).
Proof using All.
  unfold GetSubscriptionPlanInfoByUserSubscriptionId, HybridCache_Get, HybridCache_Set, cache_access, first_sub.
  solve_preserves.
Qed.
End effect.
#[export] Hint Resolve GetUserQuota_ep TryReserveUserQuota_ep IncreaseUserQuota_ep DecreaseUserQuota_ep
  IncreaseTokenQuota_ep DecreaseTokenQuota_ep TryReserveTokenQuota_ep PreConsumeTokenQuota_ep adjust_token_ep
  PostConsume_ep PreConsumeUserSubscription_ep GetPlanInfo_ep : preserve.
#[export] Hint Extern 0 (EffectPred _) => (typeclasses eauto) : preserve.

Lemma nf_run {A} (c : MW A) w r w' : preserves no_faults c -> c w = (r, w') -> w.(w_faults) = [] -> w'.(w_faults) = [].
Proof. intros H E Hw. specialize (H w Hw). by rewrite E in H. Qed.

(** ** At most one queued delta per call *)

Definition batch_is (b : BatchStores) (w : World) : Prop := w.(w_batch) = b.
#[export] Instance batch_is_ledger b : LedgerPred (batch_is b).
Proof. intros w w' [= _ H _]. unfold batch_is. by rewrite H. Qed.

Definition one_record (t : BatchUpdateType) (id k : Z) (w w' : World) : Prop :=
  w'.(w_batch) = w.(w_batch) \/ w'.(w_batch) = batch_set t (add_record id k) w.(w_batch).

Lemma batch_frame {A} (c : MW A) w r w' : preserves (batch_is w.(w_batch)) c -> c w = (r, w') -> w'.(w_batch) = w.(w_batch).
Proof. intros H E. specialize (H w eq_refl). by rewrite E in H. Qed.

Lemma update_user_batch b id p f : preserves (batch_is b) (update_user id p f).
Proof. unfold update_user. solve_preserves; by intros w Hw. Qed.
Lemma update_token_batch b id p f : preserves (batch_is b) (update_token id p f).
Proof. unfold update_token. solve_preserves; by intros w Hw. Qed.
#[export] Hint Resolve update_user_batch update_token_batch : preserve.

Lemma cacheTryReserveTokenQuota_batch b id k q : preserves (batch_is b) (cacheTryReserveTokenQuota id k q).
Proof. unfold cacheTryReserveTokenQuota. solve_preserves. Qed.
Lemma cacheApplyTokenQuotaDelta_batch b id k q : preserves (batch_is b) (cacheApplyTokenQuotaDelta id k q).
Proof. unfold cacheApplyTokenQuotaDelta. solve_preserves. Qed.
Lemma reserveTokenQuotaDB_batch b id q : preserves (batch_is b) (reserveTokenQuotaDB id q).
Proof. unfold reserveTokenQuotaDB. solve_preserves. Qed.
Lemma reserveUserQuotaDB_batch b id q : preserves (batch_is b) (reserveUserQuotaDB id q).
Proof. unfold reserveUserQuotaDB. solve_preserves. Qed.
#[export] Hint Resolve cacheTryReserveTokenQuota_batch cacheApplyTokenQuotaDelta_batch reserveTokenQuotaDB_batch
  reserveUserQuotaDB_batch : preserve.

(** Rewrites the batch store through the calls that leave it alone. *)
Ltac batch_steps :=
  repeat match goal with
  | H : addNewRecord _ _ _ _ = (_, _) |- _ => unfold addNewRecord, modify in H; inv_eq H
  | H : ?c ?w = (_, ?w') |- _ =>
      lazymatch type of w' with World => idtac end;
      apply batch_frame in H; [|solve [auto with preserve]]
  end; unfold one_record; simpl; try (left; congruence); try (right; congruence).

Lemma persistUserQuotaDelta_record id k w r w' :
  persistUserQuotaDelta id k w = (r, w') -> one_record BatchUpdateTypeUserQuota id k w w'.
Proof. intros H. unfold persistUserQuotaDelta in H. monad_cases; batch_steps. Qed.
Lemma persistTokenQuotaDelta_record id k w r w' :
  persistTokenQuotaDelta id k w = (r, w') -> one_record BatchUpdateTypeTokenQuota id k w w'.
Proof. intros H. unfold persistTokenQuotaDelta in H. monad_cases; batch_steps. Qed.
Lemma DecreaseTokenQuota_record id key q w r w' :
  DecreaseTokenQuota id key q w = (r, w') -> one_record BatchUpdateTypeTokenQuota id (wrap64 (- q)) w w'.
Proof. intros H. unfold DecreaseTokenQuota, decreaseTokenQuota in H. monad_cases; batch_steps. Qed.
Lemma DecreaseUserQuota_record id q b w r w' :
  DecreaseUserQuota id q b w = (r, w') -> one_record BatchUpdateTypeUserQuota id (wrap64 (- q)) w w'.
Proof. intros H. unfold DecreaseUserQuota, decreaseUserQuota in H. monad_cases; batch_steps. Qed.

Lemma one_record_same t id k w w1 w2 w3 :
  w1.(w_batch) = w.(w_batch) -> one_record t id k w1 w2 -> w3.(w_batch) = w2.(w_batch) -> one_record t id k w w3.
Proof. unfold one_record. by intros -> H ->. Qed.

Lemma TryReserveUserQuota_record id q w r w' :
  TryReserveUserQuota id q w = (r, w') -> one_record BatchUpdateTypeUserQuota id (wrap64 (- q)) w w'.
Proof.
  intros H. unfold TryReserveUserQuota in H. monad_cases; [batch_steps..| |batch_steps].
  apply batch_frame in Hc; [|auto with preserve]. destruct a as [[]|]; monad_cases; try solve [batch_steps].
  apply persistUserQuotaDelta_record in Hc0. eapply one_record_same; [exact Hc|exact Hc0|].
  destruct r0; monad_cases; [done|]. apply batch_frame in Hc1; [done|auto with preserve].
Qed.

Lemma TryReserveTokenQuota_record id key q u w r w' :
  TryReserveTokenQuota id key q u w = (r, w') -> one_record BatchUpdateTypeTokenQuota id (wrap64 (- q)) w w'.
Proof.
  intros H. unfold TryReserveTokenQuota in H. monad_cases.
  1,2: batch_steps.
  1: by eapply DecreaseTokenQuota_record. 1: by eapply DecreaseTokenQuota_record.
  1: batch_steps. 2: batch_steps.
  apply batch_frame in Hc; [|auto with preserve]. destruct a as [[]|]; monad_cases; try solve [batch_steps].
  apply persistTokenQuotaDelta_record in Hc0. eapply one_record_same; [exact Hc|exact Hc0|].
  destruct r0; monad_cases; [done|]. apply batch_frame in Hc1; [done|auto with preserve].
Qed.

(** After queueing [- q] there is room to queue [q] back. *)
Definition small (store : gmap Z Z) (id q : Z) : Prop := Z.abs (redis_int store id) + 2 * q <= MaxInt64 /\ 0 <= q.

Lemma small_room store id q : small store id q -> batch_room store id (- q) /\ batch_room store id q.
Proof. unfold small, batch_room, in_i64, MinInt64, MaxInt64. lia. Qed.

Lemma add_record_back id q store :
  small store id q -> batch_room (add_record id (wrap64 (- q)) store) id q.
Proof.
  intros Hs. assert (wrap64 (- q) = - q) as ->.
  { apply wrap64_id. unfold small, in_i64, MinInt64, MaxInt64 in *. lia. }
  destruct (small_room _ _ _ Hs) as [(H1 & H2 & H3) _]. unfold batch_room.
  rewrite add_record_lookup by done. rewrite decide_True by done.
  unfold small, in_i64, MinInt64, MaxInt64 in *. lia.
Qed.

Lemma one_record_token_room id q w w' :
  one_record BatchUpdateTypeTokenQuota id (wrap64 (- q)) w w' -> small w.(w_batch).(bs_TokenQuota) id q ->
  batch_room w'.(w_batch).(bs_TokenQuota) id q.
Proof. intros [->| ->] Hs; simpl; [by apply small_room|by apply add_record_back]. Qed.
Lemma one_record_user_room id q w w' :
  one_record BatchUpdateTypeUserQuota id (wrap64 (- q)) w w' -> small w.(w_batch).(bs_UserQuota) id q ->
  batch_room w'.(w_batch).(bs_UserQuota) id q.
Proof. intros [->| ->] Hs; simpl; [by apply small_room|by apply add_record_back]. Qed.

(** ** Rows stay *)

Definition token_there (id : Z) (w : World) : Prop := token_live w id.
#[export] Instance token_there_ledger id : LedgerPred (token_there id).
Proof. intros w w' H. apply token_live_ledger. by symmetry. Qed.
Definition user_there (id : Z) (w : World) : Prop := user_live w id.
#[export] Instance user_there_ledger id : LedgerPred (user_there id).
Proof. intros w w' H. apply user_live_ledger. by symmetry. Qed.

Lemma update_token_there id i p f : (forall t, (f t).(t_Deleted) = t.(t_Deleted)) -> preserves (token_there id) (update_token i p f).
Proof.
  intros Hf. unfold update_token. apply preserves_bind; [auto with preserve|intros _]. apply preserves_read. intros w Hw.
  destruct (visible_token (w_db w) i) as [t|] eqn:Ht; [|done]. destruct (p t); [|done].
  apply (token_live_insert w i t f); auto.
Qed.
Lemma update_user_there id i p f : (forall u, (f u).(u_Deleted) = u.(u_Deleted)) -> preserves (user_there id) (update_user i p f).
Proof.
  intros Hf. unfold update_user. apply preserves_bind; [auto with preserve|intros _]. apply preserves_read. intros w Hw.
  destruct (visible_user (w_db w) i) as [t|] eqn:Ht; [|done]. destruct (p t); [|done].
  apply (user_live_insert w i t f); auto.
Qed.
Lemma addNewRecord_token_there id t i v : preserves (token_there id) (addNewRecord t i v).
Proof. by intros w Hw. Qed.
Lemma addNewRecord_user_there id t i v : preserves (user_there id) (addNewRecord t i v).
Proof. by intros w Hw. Qed.
#[export] Hint Resolve update_token_there update_user_there addNewRecord_token_there addNewRecord_user_there : preserve.
#[export] Hint Extern 1 (forall t, t_Deleted _ = t_Deleted _) => reflexivity : preserve.
#[export] Hint Extern 1 (forall t, u_Deleted _ = u_Deleted _) => reflexivity : preserve.

Lemma TryReserveTokenQuota_there id i k q u : preserves (token_there id) (TryReserveTokenQuota i k q u).
Proof.
  unfold TryReserveTokenQuota, reserveTokenQuotaDB, persistTokenQuotaDelta, DecreaseTokenQuota, decreaseTokenQuota,
    cacheTryReserveTokenQuota, cacheApplyTokenQuotaDelta, reserve_with_hydration. solve_preserves.
Qed.
#[export] Hint Resolve TryReserveTokenQuota_there : preserve.
Lemma PreConsumeTokenQuota_there id ri q : preserves (token_there id) (PreConsumeTokenQuota ri q).
Proof. unfold PreConsumeTokenQuota. solve_preserves. Qed.

(** ** A fault-free increment succeeds *)

Lemma IncreaseTokenQuota_ok id key q w :
  w.(w_faults) = [] -> 0 <= q -> exists w', IncreaseTokenQuota id key q w = (Ok tt, w').
Proof.
  intros Hf Hq. unfold IncreaseTokenQuota. replace (q <? 0) with false by lia.
  unfold bind, cfg, gets. destruct (RedisEnabled _); simpl.
  all: destruct (BatchUpdateEnabled _); simpl; [by eexists|].
  all: unfold increaseTokenQuota, bind, GetTimestamp, gets; rewrite update_token_ff by done; simpl.
  all: destruct (visible_token _ _); by eexists.
Qed.
