(* ===== verification/BillingLaws.v ===== *)
(** * What a funding source promises, and what a session makes of it

    [FundingLaws] is the contract of the FundingSource interface; both
    implementations meet it, the sum of the two ([Funding]) too, and what a settlement
    charges follows from it. *)

From stdpp Require Import base tactics numbers list gmap strings.
From Stdlib Require Import ZArith Lia.
From S2P Require Import Prelude Float64 QuotaMath DecimalQ World UserCache QuotaStore Reserve SubscriptionTime Subscription SubscriptionInv SubscriptionUse Billing BillingFrame.
Open Scope Z_scope.

Class FundingLaws (F : Type) `{!FundingSource F} := {
  (** the source paid [k] (a negative [k] is a repayment) *)
  pays : F -> Z -> World -> World -> Prop;
  (** the account exists and has arithmetic room for [k] *)
  can_pay : F -> Z -> World -> Prop;
  pays_nothing f w w' : ledger w' = ledger w -> pays f 0 w w';
  (** token operations do not change what was paid *)
  pays_frame f k w w1 w2 :
    pays f k w w1 -> w2.(w_db).(users) = w1.(w_db).(users) -> w2.(w_batch).(bs_UserQuota) = w1.(w_batch).(bs_UserQuota) ->
    w2.(w_db).(subs) = w1.(w_db).(subs) -> pays f k w w2;
  Settle_law delta w f r w' f' :
    Funding_Settle delta (w, f) = (r, (w', f')) -> can_pay f delta w ->
    f' = f /\ match r with Ok _ => pays f delta w w' | Err _ => pays f 0 w w' end;
  (** settling does not touch tokens *)
  Settle_tokens delta w f r w' f' :
    Funding_Settle delta (w, f) = (r, (w', f')) ->
    w'.(w_db).(tokens) = w.(w_db).(tokens) /\ w'.(w_batch).(bs_TokenQuota) = w.(w_batch).(bs_TokenQuota)
}.

(** ** The wallet keeps the contract *)

Lemma lift_inv {S E A} (c : M World E A) w (s : S) r w' s' :
  lift c (w, s) = (r, (w', s')) -> c w = (r, w') /\ s' = s.
Proof. unfold lift. simpl. destruct (c w) as [r0 w0]. intros. by simplify_eq. Qed.

#[export] Program Instance Wallet_laws : FundingLaws WalletFunding := {
  pays f k w w' := wallet_shift f.(wf_userId) (- k) w w';
  can_pay f k w := batch_room w.(w_batch).(bs_UserQuota) f.(wf_userId) (- k) /\ user_live w f.(wf_userId)
}.
Next Obligation. intros f w w' H. by apply wallet_shift_0. Qed.
Next Obligation.
  cbv beta. intros f k w w1 w2 H E1 E2 _. pose proof (accounts_same_shift (wf_userId f) w1 w2 E1 E2) as H0.
  replace (- k) with (- k + 0) by lia. by eapply wallet_shift_trans.
Qed.
Next Obligation.
  cbv beta. intros delta w f r w' f' H [Hr Hl]. cbn in H. destruct (Z.eqb_spec delta 0) as [->|Hd].
  { injection H as <- <- <-. split; [done|]. by apply wallet_shift_0. }
  unfold bind, getS in H. cbn in H. destruct (Z.ltb_spec 0 delta); apply lift_inv in H as [H ->]; (split; [done|]).
  - apply DecreaseUserQuota_outcome in H; [|done..]. destruct r; simpl in H; [apply H|by apply wallet_shift_0].
  - rewrite (wrap64_opp _ _ _ Hr) in H. apply IncreaseUserQuota_outcome in H; [|done].
    destruct r; simpl in H; [apply H|by apply wallet_shift_0].
Qed.
Next Obligation.
  intros delta w f r w' f' H. cbn in H. destruct (delta =? 0); [by injection H as <- <- <-|].
  unfold bind, getS in H. cbn in H. destruct (0 <? delta); apply lift_inv in H as [H ->]; (eapply tokens_frame; [|exact H]);
    auto with preserve.
Qed.

(** ** A subscription keeps the contract *)

(** The used amount of one subscription moved by [k] (not below zero); the other
    subscriptions are untouched. *)
Definition sub_moved (id k : Z) (m m' : gmap Z UserSubscription) : Prop :=
  (k = 0 /\ m' = m) \/
  exists s s', m !! id = Some s /\ s.(s_AmountUsed) +! k = s.(s_AmountUsed) + k /\
    s'.(s_AmountUsed) = Z.max 0 (s.(s_AmountUsed) + k) /\ s'.(s_AmountTotal) = s.(s_AmountTotal) /\ m' = <[id := s']> m.

Lemma PostConsume_inv id delta w r w' :
  PostConsumeUserSubscriptionDelta id delta w = (r, w') ->
  (exists e, r = Err e /\ w'.(w_db) = w.(w_db)) \/
  (r = Ok tt /\ (delta = 0 /\ w'.(w_db) = w.(w_db) \/
     exists s s', w.(w_db).(subs) !! id = Some s /\ s'.(s_AmountUsed) = settled s delta /\
       s'.(s_AmountTotal) = s.(s_AmountTotal) /\ s'.(s_Id) = s.(s_Id) /\
       w'.(w_db) = set_subs (insert s.(s_Id) s') w.(w_db) /\
       (0 < s.(s_AmountTotal) -> s'.(s_AmountUsed) <= s.(s_AmountTotal)))).
Proof.
  intros H. unfold PostConsumeUserSubscriptionDelta in H.
  destruct (id <=? 0); [injection H as <- <-; left; eauto|].
  destruct (Z.eqb_spec delta 0); [injection H as <- <-; right; auto|].
  apply Transaction_inv in H as [(e & -> & E)|([] & w1 & w2 & -> & Ein & H & Eout)]; [left; eauto|].
  apply same_db in Ein, Eout. right. split; [done|]. right. unfold post_consume_tx in H.
  apply bind_Ok in H as (s & w3 & H3 & H). apply first_sub_inv in H3 as [E3 Hs]. specialize (Hs s eq_refl). rewrite Ein in Hs.
  fold (settled s delta) in H.
  destruct ((0 <? s_AmountTotal s) && (s_AmountTotal s <? settled s delta)) eqn:Hg; [done|].
  apply save_sub_inv in H as [(e & [=] & _)|[_ E4]]. rewrite E3, Ein in E4.
  eexists s, _. split; [done|]. rewrite Eout, E4. simpl. split_and!; [| | |reflexivity|]; [done..|].
  simpl. intros H0. replace (0 <? s_AmountTotal s) with true in Hg by lia. simpl in Hg. lia.
Qed.

#[export] Program Instance Subscription_laws : FundingLaws SubscriptionFunding := {
  pays f k w w' := sub_moved f.(sf_subscriptionId) k w.(w_db).(subs) w'.(w_db).(subs);
  can_pay f k w := forall s, w.(w_db).(subs) !! f.(sf_subscriptionId) = Some s ->
    s.(s_Id) = f.(sf_subscriptionId) /\ in_i64 (s.(s_AmountUsed) + k)
}.
Next Obligation. cbv beta. intros f w w' [= E _ _]. left. by rewrite E. Qed.
Next Obligation. cbv beta. intros f k w w1 w2 H _ _ E. by rewrite E. Qed.
Next Obligation.
  cbv beta. intros delta w f r w' f' H Hc. cbn in H. destruct (Z.eqb_spec delta 0) as [->|Hd].
  { injection H as <- <- <-. split; [done|]. by left. }
  unfold bind, getS in H. cbn in H. apply lift_inv in H as [H ->]. split; [done|].
  apply PostConsume_inv in H as [(e & -> & E)|[-> [[-> E]|(s & s' & Hs & Hu & Ht & Hi & E & _)]]].
  - left. by rewrite E.
  - left. by rewrite E.
  - right. destruct (Hc s Hs) as [Hid Hin]. exists s, s'. split; [done|].
    rewrite wrap64_id by done. split; [done|].
    split; [rewrite Hu; unfold settled; rewrite wrap64_id by done; lia|]. split; [done|]. rewrite E. simpl. by rewrite Hid.
Qed.
Next Obligation.
  intros delta w f r w' f' H. cbn in H. destruct (delta =? 0); [by injection H as <- <- <-|].
  unfold bind, getS in H. cbn in H. apply lift_inv in H as [H ->]. eapply tokens_frame; [|exact H]. auto with preserve.
Qed.

(** ** Dispatch keeps the contract *)

Lemma dispatch_wallet {A} (cw : M (World * WalletFunding) error A) cs w f r w' f' :
  dispatch cw cs (w, FWallet f) = (r, (w', f')) -> exists g, f' = FWallet g /\ cw (w, f) = (r, (w', g)).
Proof. unfold dispatch. simpl. destruct (cw (w, f)) as [r0 [w0 f0]]. intros. simplify_eq. eauto. Qed.
Lemma dispatch_subscription {A} cw (cs : M (World * SubscriptionFunding) error A) w f r w' f' :
  dispatch cw cs (w, FSubscription f) = (r, (w', f')) -> exists g, f' = FSubscription g /\ cs (w, f) = (r, (w', g)).
Proof. unfold dispatch. simpl. destruct (cs (w, f)) as [r0 [w0 f0]]. intros. simplify_eq. eauto. Qed.

Definition funding_pays (f : Funding) : Z -> World -> World -> Prop :=
  match f with FWallet f => pays f | FSubscription f => pays f end.
Definition funding_can_pay (f : Funding) : Z -> World -> Prop :=
  match f with FWallet f => can_pay f | FSubscription f => can_pay f end.

#[export] Program Instance Funding_laws : FundingLaws Funding := { pays := funding_pays; can_pay := funding_can_pay }.
Next Obligation. intros [f|f] w w' H; exact (pays_nothing f w w' H). Qed.
Next Obligation. intros [f|f] k w w1 w2 H E1 E2 E3; exact (pays_frame f k w w1 w2 H E1 E2 E3). Qed.
Next Obligation.
  intros delta w [f|f] r w' f' H Hc.
  - apply (dispatch_wallet _ (Funding_Settle delta)) in H as (g & -> & H).
    destruct (Settle_law _ _ _ _ _ _ H Hc) as [-> H']. done.
  - apply (dispatch_subscription (Funding_Settle delta)) in H as (g & -> & H).
    destruct (Settle_law _ _ _ _ _ _ H Hc) as [-> H']. done.
Qed.
Next Obligation.
  intros delta w [f|f] r w' f' H.
  - apply (dispatch_wallet _ (Funding_Settle delta)) in H as (g & -> & H). exact (Settle_tokens _ _ _ _ _ _ H).
  - apply (dispatch_subscription (Funding_Settle delta)) in H as (g & -> & H). exact (Settle_tokens _ _ _ _ _ _ H).
Qed.

(** ** Settlement *)

Lemma adjust_token_outcome ri d w r w' :
  adjust_token ri d w = (r, w') -> d <> 0 -> batch_room w.(w_batch).(bs_TokenQuota) ri.(ri_TokenId) (- d) ->
  token_live w ri.(ri_TokenId) -> write_outcome (moves_token ri.(ri_TokenId) (- d)) r w w'.
Proof.
  intros H Hd Hr Hl. unfold adjust_token in H. destruct (Z.ltb_spec 0 d).
  - by apply DecreaseTokenQuota_outcome in H.
  - rewrite (wrap64_opp _ _ _ Hr) in H. by apply IncreaseTokenQuota_outcome in H.
Qed.

(** What the token of the request still has to move. *)
Definition token_ready (ri : RelayInfo) (d : Z) (w : World) : Prop :=
  ri.(ri_IsPlayground) = true \/
  (batch_room w.(w_batch).(bs_TokenQuota) ri.(ri_TokenId) (- d) /\ token_live w ri.(ri_TokenId)).

Lemma on_funding_inv {E A} (c : M (World * Funding) E A) w ri s r w' ri' s' :
  on_funding c (w, (ri, s)) = (r, (w', (ri', s'))) ->
  exists f', c (w, s.(b_funding)) = (r, (w', f')) /\ ri' = ri /\ s' = set_b_funding (fun _ => f') s.
Proof. unfold on_funding. simpl. destruct (c _) as [r0 [w0 f0]]. intros. simplify_eq. eauto. Qed.

(** The token step of a settlement, after a step that left the tokens alone. *)
Lemma settle_token_step {S} ri d w0 w (s : S) r w' s' :
  attempt (E':=error) (if ri.(ri_IsPlayground) then ret tt else lift (adjust_token ri d)) (w, s) = (Ok r, (w', s')) ->
  d <> 0 -> token_ready ri d w0 ->
  w.(w_db).(tokens) = w0.(w_db).(tokens) -> w.(w_batch).(bs_TokenQuota) = w0.(w_batch).(bs_TokenQuota) ->
  s' = s /\ w'.(w_db).(users) = w.(w_db).(users) /\ w'.(w_batch).(bs_UserQuota) = w.(w_batch).(bs_UserQuota) /\
  w'.(w_db).(subs) = w.(w_db).(subs) /\
  token_shift ri.(ri_TokenId) (match r with Ok _ => if ri.(ri_IsPlayground) then 0 else - d | Err _ => 0 end) w0 w'.
Proof.
  intros H Hd Hr T1 T2. pose proof (tokens_same_shift ri.(ri_TokenId) w0 w T1 T2) as H0. unfold attempt in H.
  destruct (ri_IsPlayground ri) eqn:Hp.
  { injection H as <- <- <-. done. }
  destruct Hr as [Hr|[Hr Hl]]; [congruence|].
  destruct (lift (adjust_token ri d) (w, s)) as [r1 [w1 s1]] eqn:E. apply lift_inv in E as [E ->].
  injection H as -> <- <-. split; [done|].
  pose proof (accounts_frame _ _ _ _ (adjust_token_accounts _ _ _ ri d) E) as (E1 & E2 & E3).
  split_and!; [done..|].
  apply adjust_token_outcome in E; [|done|by rewrite T2|by unfold token_live, visible_token; rewrite T1].
  destruct r as [[]|e]; simpl in E.
  - replace (- d) with (0 + - d) by lia. eapply token_shift_trans; [exact H0|apply E].
  - eapply token_shift_ledger; [exact H0|done|done].
Qed.

Lemma Settle_outcome a w ri s r w' ri' s' :
  Settle a (w, (ri, s)) = (r, (w', (ri', s'))) ->
  s.(b_settled) = false -> s.(b_fundingSettled) = false ->
  let d := a - s.(b_preConsumedQuota) in
  in_i64 d -> can_pay s.(b_funding) d w -> token_ready ri d w ->
  let t := ri.(ri_TokenId) in
  match r with
  | Ok _ => s'.(b_settled) = true /\ pays s.(b_funding) d w w' /\
            token_shift t (if ri.(ri_IsPlayground) then 0 else - d) w w'
  | Err _ => (s'.(b_settled) = false /\ pays s.(b_funding) 0 w w' /\ token_shift t 0 w w') \/
             (s'.(b_settled) = true /\ pays s.(b_funding) d w w' /\ token_shift t 0 w w')
  end.
Proof.
  intros H Hs Hfs d Hd Hpay Htok t. unfold Settle in H. apply bind_inv in H as [(x & st & Hx & H)|(e & Hx & _)]; [|done].
  injection Hx as <- <-. apply bind_inv in H as [(y & st & Hy & H)|(e & Hy & _)]; [|done]. injection Hy as <- <-.
  cbn [id] in H. rewrite Hs in H. fold d in H. rewrite (wrap64_id d Hd) in H.
  destruct (Z.eqb_spec d 0) as [E0|Hne].
  { injection H as <- <- <- <-. split; [done|]. rewrite E0. split; [by apply pays_nothing|].
    replace (if ri_IsPlayground ri then 0 else - 0) with 0 by (by destruct (ri_IsPlayground ri)). by apply token_shift_0. }
  rewrite Hfs in H.
  apply bind_inv in H as [([] & [w2 [ri2 s2]] & H1 & H)|(e & H1 & ->)].
  2:{ apply bind_inv in H1 as [([] & [w2 [ri2 s2]] & H1 & H2)|(e' & H1 & [= <-])]; [done|].
      apply on_funding_inv in H1 as (f' & H1 & -> & ->). left.
      pose proof (Settle_tokens _ _ _ _ _ _ H1) as [T1 T2]. apply Settle_law in H1 as [-> H1]; [|done].
      split_and!; [done|done|by apply tokens_same_shift]. }
  apply bind_inv in H1 as [([] & [w3 [ri3 s3]] & H1 & H2)|(e' & H1 & [=])].
  apply on_funding_inv in H1 as (f' & H1 & -> & ->). injection H2 as <- <- <-.
  pose proof (Settle_tokens _ _ _ _ _ _ H1) as [T1 T2]. apply Settle_law in H1 as [-> H1]; [|done].
  apply bind_inv in H as [(tokenErr & [w4 [ri4 s4]] & H3 & H)|(e & H3 & _)].
  2:{ unfold attempt in H3. by destruct (_ (w3, _)) in H3. }
  apply settle_token_step with (w0 := w) in H3 as ([= -> ->] & E1 & E2 & E3 & Ht); [|done..].
  pose proof (pays_frame _ _ _ _ _ H1 E1 E2 E3) as Hpays.
  assert (r = tokenErr /\ w' = w4 /\ b_settled s' = true) as (-> & -> & ->).
  { unfold sess, getS, bind, ret in H. cbn in H. destruct (String.eqb _ _) in H; injection H as <- <- _ <-; done. }
  destruct tokenErr as [[]|e]; [done|]. right. done.
Qed.

(** What a session's funding source paid, in full.  A wallet: the balance moved by
    exactly [- d].  A subscription: no other subscription moved, and the amount used of
    this one moved by exactly [d], except that giving back more than it has used, which
    happens when a period was reset in between, stops at zero. *)
Definition charged (f : Funding) (d : Z) (w w' : World) : Prop :=
  match f with
  | FWallet f => wallet_shift f.(wf_userId) (- d) w w'
  | FSubscription f =>
      (forall i, i <> f.(sf_subscriptionId) -> w'.(w_db).(subs) !! i = w.(w_db).(subs) !! i) /\
      forall u, w.(w_db).(subs) !! f.(sf_subscriptionId) = Some u ->
        exists u', w'.(w_db).(subs) !! f.(sf_subscriptionId) = Some u' /\
          (0 <= u.(s_AmountUsed) + d -> u'.(s_AmountUsed) = u.(s_AmountUsed) + d) /\
          (d <> 0 -> u.(s_AmountUsed) + d < 0 -> u'.(s_AmountUsed) = 0)
  end.

Lemma pays_charged (f : Funding) d w w' : pays f d w w' -> charged f d w w'.
Proof.
  destruct f as [f|f]; [done|]. intros [[-> E]|(s & s' & Hs & _ & Hu & _ & E)]; simpl; rewrite E.
  - split; [done|]. intros u Hu. exists u. split_and!; [done|lia|done].
  - split; [intros i Hi; by rewrite lookup_insert_ne|]. intros u Hu'. rewrite Hs in Hu'. injection Hu' as <-.
    exists s'. rewrite lookup_insert_eq, Hu. split_and!; [done|lia|lia].
Qed.

(** C6. Settlement charges the actual cost, once.  A session that pre-consumed
    [p] and settles at [a] makes the source that funds it, the wallet or a
    subscription, pay [a - p] more (a wallet exactly; a subscription exactly unless it
    has used less than it is given back, then it stops at zero), and its token give up
    exactly [a - p] more (nothing for a playground request); if it reports an error,
    either nothing moved and it may be settled again, or the source was settled and
    only the token was not, and the session is closed. *)
Theorem Settle_charges_actual a w ri s r w' ri' s' :
  Settle a (w, (ri, s)) = (r, (w', (ri', s'))) ->
  s.(b_settled) = false -> s.(b_fundingSettled) = false ->
  let d := a - s.(b_preConsumedQuota) in
  in_i64 d -> can_pay s.(b_funding) d w -> token_ready ri d w ->
  let t := ri.(ri_TokenId) in
  match r with
  | Ok _ => s'.(b_settled) = true /\ charged s.(b_funding) d w w' /\
            token_shift t (if ri.(ri_IsPlayground) then 0 else - d) w w'
  | Err _ => (s'.(b_settled) = false /\ charged s.(b_funding) 0 w w' /\ token_shift t 0 w w') \/
             (s'.(b_settled) = true /\ charged s.(b_funding) d w w' /\ token_shift t 0 w w')
  end.
Proof.
  intros H Hs Hf d Hd Hp Ht t. pose proof (Settle_outcome a w ri s r w' ri' s' H Hs Hf Hd Hp Ht) as Ho.
  destruct r as [[]|e]; [|destruct Ho as [Ho|Ho]; [left|right]]; destruct Ho as (? & ?%pays_charged & ?); done.
Qed.
