(* ===== verification/BillingInv.v ===== *)
(** * The life of a wallet session (theorems on Billing)

    A session reserves from the wallet and the token together or not at all; what
    it settles in the end is the actual cost; what it refunds restores both
    balances; and it refunds at most once. *)

From stdpp Require Import base tactics numbers list gmap strings relations.
From Stdlib Require Import ZArith Lia.
From S2P Require Import Prelude Float64 QuotaMath DecimalQ World UserCache QuotaStore Reserve SubscriptionTime Subscription SubscriptionInv SubscriptionUse Billing BillingFrame BillingLaws.
Open Scope Z_scope.

(** ** The two reservations *)

(** What a request takes from its token for [q] units. *)
Definition token_share (ri : RelayInfo) (q : Z) : Z := if ri.(ri_IsPlayground) then 0 else q.

Definition token_ok (ri : RelayInfo) (q : Z) (w : World) : Prop :=
  ri.(ri_IsPlayground) = true \/ (small w.(w_batch).(bs_TokenQuota) ri.(ri_TokenId) q /\ token_live w ri.(ri_TokenId)).
Definition wallet_ok (ri : RelayInfo) (q : Z) (w : World) : Prop := small w.(w_batch).(bs_UserQuota) ri.(ri_UserId) q.

(** Both balances of a request. *)
Definition request_shift (ri : RelayInfo) (kw kt : Z) (w w' : World) : Prop :=
  wallet_shift ri.(ri_UserId) kw w w' /\ token_shift ri.(ri_TokenId) kt w w'.

Lemma request_shift_0 ri w w' : ledger w' = ledger w -> request_shift ri 0 0 w w'.
Proof. intros H. split; [by apply wallet_shift_0|by apply token_shift_0]. Qed.
Lemma request_shift_trans ri a b c d w1 w2 w3 :
  request_shift ri a b w1 w2 -> request_shift ri c d w2 w3 -> request_shift ri (a + c) (b + d) w1 w3.
Proof. intros [H1 H2] [H3 H4]. split; [by eapply wallet_shift_trans|by eapply token_shift_trans]. Qed.
Lemma moves_wallet_request ri k w w' : moves_wallet ri.(ri_UserId) k w w' -> request_shift ri k 0 w w'.
Proof. intros [H1 H2]. by split. Qed.
Lemma moves_token_request ri k w w' : moves_token ri.(ri_TokenId) k w w' -> request_shift ri 0 k w w'.
Proof. intros [H1 H2]. by split. Qed.

Lemma PreConsumeTokenQuota_outcome ri q w r w' :
  PreConsumeTokenQuota ri q w = (r, w') -> token_ok ri q w ->
  match r with
  | Ok _ => request_shift ri 0 (- token_share ri q) w w' /\
            (ri.(ri_IsPlayground) = true \/ one_record BatchUpdateTypeTokenQuota ri.(ri_TokenId) (wrap64 (- q)) w w')
  | Err _ => ledger w' = ledger w
  end.
Proof.
  intros H Hok. unfold PreConsumeTokenQuota, token_share in *. destruct (q <? 0); [by injection H as <- <-|].
  destruct (ri_IsPlayground ri) eqn:Hp.
  { injection H as <- <-. split; [by apply request_shift_0|by left]. }
  destruct Hok as [Hok|[Hs Hl]]; [congruence|]. destruct (small_room _ _ _ Hs) as [Hr _].
  apply bind_inv in H as [(b & w1 & H1 & H)|(e & H1 & ->)].
  - pose proof (TryReserveTokenQuota_record _ _ _ _ _ _ _ H1) as Hrec.
    apply TryReserveTokenQuota_moves in H1; [|done..]. destruct b; simpl in H, H1.
    + injection H as <- <-. split; [by apply moves_token_request|by right].
    + apply bind_inv in H as [(x & w2 & H2 & H)|(e & H2 & ->)].
      * injection H as <- <-. apply catch_inv in H2 as (r2 & _ & H2). quiet H2. congruence.
      * by apply catch_inv in H2 as (r2 & [=] & _).
  - by apply TryReserveTokenQuota_moves in H1.
Qed.

Lemma Wallet_PreConsume_outcome q w f r w' f' :
  PreConsume q (w, f) = (r, (w', f')) -> 0 <= q -> batch_room w.(w_batch).(bs_UserQuota) f.(wf_userId) (- q) ->
  match r with
  | Ok _ => moves_wallet f.(wf_userId) (- q) w w' /\ f' = (if 0 <? q then set_wf_consumed (fun _ => q) f else f)
  | Err _ => ledger w' = ledger w /\ f' = f
  end.
Proof.
  intros H Hq Hr. cbn in H. destruct (Z.leb_spec q 0) as [Hq0|Hq0].
  { injection H as <- <- <-. assert (q = 0) as -> by lia. split; [by apply moves_wallet_0|done]. }
  replace (0 <? q) with true by lia. unfold bind, getS in H. cbn in H.
  destruct (lift (TryReserveUserQuota (wf_userId f) q) (w, f)) as [r1 [w1 f1]] eqn:E. apply lift_inv in E as [E ->].
  apply TryReserveUserQuota_moves in E; [|done]. destruct r1 as [[]|e]; simpl in E, H; injection H as <- <- <-; done.
Qed.

Lemma on_funding_eq {E A} (c : M (World * Funding) E A) w ri s :
  on_funding c (w, (ri, s)) =
    let '(r, (w', f')) := c (w, s.(b_funding)) in (r, (w', (ri, set_b_funding (fun _ => f') s))).
Proof. done. Qed.

(** ** Pre-consumption *)

(** A session that holds [q] of the wallet and [q] of the token (nothing of the
    token for a playground request). *)
Definition holds (ri : RelayInfo) (q : Z) (s : BillingSession) : Prop :=
  s.(b_funding) = FWallet (mkWalletFunding ri.(ri_UserId) q) /\ s.(b_preConsumedQuota) = q /\ s.(b_tokenConsumed) = q /\
  s.(b_settled) = false /\ s.(b_fundingSettled) = false /\ s.(b_refunded) = false.

(** The fields of relayInfo the balances depend on. *)
Definition same_request (ri ri' : RelayInfo) : Prop :=
  ri'.(ri_UserId) = ri.(ri_UserId) /\ ri'.(ri_TokenId) = ri.(ri_TokenId) /\ ri'.(ri_TokenKey) = ri.(ri_TokenKey) /\
  ri'.(ri_IsPlayground) = ri.(ri_IsPlayground) /\ ri'.(ri_ImageRequest) = ri.(ri_ImageRequest) /\
  ri'.(ri_ImageRequestCount) = ri.(ri_ImageRequestCount) /\ ri'.(ri_TokenUnlimited) = ri.(ri_TokenUnlimited).

Lemma same_request_refl ri : same_request ri ri.
Proof. done. Qed.
Lemma sync_info_same s ri : same_request ri (sync_info s ri).
Proof. unfold sync_info. by destruct (b_funding s). Qed.

(** The reservation taken from the token before the wallet is tried. *)
Definition token_phase (ri : RelayInfo) (q : Z) : MB APIError unit :=
  if 0 <? q then
    or_error (lift (PreConsumeTokenQuota ri q)) (fun e => mkAPIError e ErrorCodePreConsumeTokenQuotaFailed) ;;
    set_sess (set_b_tokenConsumed (fun _ => q))
  else ret tt.

Lemma token_phase_outcome ri0 ri q w s r w' ri' s' :
  token_phase ri q (w, (ri0, s)) = (r, (w', (ri', s'))) -> 0 <= q -> token_ok ri q w -> s.(b_tokenConsumed) = 0 ->
  ri' = ri0 /\ w'.(w_db).(users) = w.(w_db).(users) /\ w'.(w_batch).(bs_UserQuota) = w.(w_batch).(bs_UserQuota) /\
  (w.(w_faults) = [] -> w'.(w_faults) = []) /\ (forall t, token_live w t -> token_live w' t) /\
  match r with
  | Ok _ => s' = set_b_tokenConsumed (fun _ => q) s /\ request_shift ri 0 (- token_share ri q) w w' /\
            (ri.(ri_IsPlayground) = true \/ q = 0 \/ one_record BatchUpdateTypeTokenQuota ri.(ri_TokenId) (wrap64 (- q)) w w')
  | Err _ => s' = s /\ ledger w' = ledger w
  end.
Proof.
  intros H Hq Hok Hs. unfold token_phase in H. destruct (Z.ltb_spec 0 q) as [Hq0|Hq0].
  2:{ injection H as <- <- <- <-. assert (q = 0) as -> by lia. split_and!; try done.
      - destruct s; simpl in *. by subst.
      - unfold token_share. replace (- (if ri_IsPlayground ri then 0 else 0)) with 0 by (by destruct (ri_IsPlayground ri)).
        by apply request_shift_0.
      - auto. }
  unfold or_error, bind, attempt in H.
  destruct (lift (PreConsumeTokenQuota ri q) (w, (ri0, s))) as [r1 [w1 p1]] eqn:E. apply lift_inv in E as [E ->].
  pose proof (accounts_frame _ _ _ _ (PreConsumeTokenQuota_accounts _ _ _ ri q) E) as (E1 & E2 & _).
  pose proof (nf_run _ _ _ _ (PreConsumeTokenQuota_ep no_faults ri q) E) as Hnf.
  assert (forall t, token_live w t -> token_live w1 t) as Hth.
  { intros t Ht. pose proof (PreConsumeTokenQuota_there t ri q w Ht) as Ht1. by rewrite E in Ht1. }
  apply PreConsumeTokenQuota_outcome in E; [|done].
  destruct r1 as [[]|e]; injection H as <- <- <- <-; [|done]. destruct E as [E3 E4].
  split_and!; try done. destruct E4; auto.
Qed.

(** Giving the token's reservation back after the wallet refused. *)
Lemma token_rollback ri q w w1 w2 :
  request_shift ri 0 (- token_share ri q) w w1 -> ledger w2 = ledger w1 -> w2.(w_faults) = [] -> 0 <= q ->
  ri.(ri_IsPlayground) = false -> batch_room w1.(w_batch).(bs_TokenQuota) ri.(ri_TokenId) q -> token_live w1 ri.(ri_TokenId) ->
  exists w3, IncreaseTokenQuota ri.(ri_TokenId) ri.(ri_TokenKey) q w2 = (Ok tt, w3) /\ request_shift ri 0 0 w w3.
Proof.
  intros H E Hf Hq Hp Hr Hl. destruct (IncreaseTokenQuota_ok ri.(ri_TokenId) ri.(ri_TokenKey) q w2 Hf Hq) as [w3 E3].
  exists w3. split; [done|]. apply IncreaseTokenQuota_outcome in E3; [|by eapply batch_room_token_ledger|by eapply token_live_ledger].
  simpl in E3. apply moves_token_request in E3. unfold token_share in H. rewrite Hp in H.
  replace 0 with (0 + 0) at 1 by lia. replace 0 with (- q + q) at 3 by lia.
  eapply request_shift_trans; [exact H|]. destruct E3 as [E4 E5].
  split; [by eapply wallet_shift_ledger|by eapply token_shift_ledger].
Qed.

Lemma request_shift_same_l ri a b w w1 w2 : request_shift ri a b w w1 -> ledger w2 = ledger w1 -> request_shift ri a b w w2.
Proof. intros [H1 H2] E. split; [by eapply wallet_shift_ledger|by eapply token_shift_ledger]. Qed.

Lemma funding_error_outcome ri e w p r w' p' :
  funding_error ri e (w, p) = (r, (w', p')) -> p' = p /\ ledger w' = ledger w /\ exists e', r = Err e'.
Proof.
  unfold funding_error. destruct (bool_decide _).
  - unfold bind, attempt. destruct (lift (GetUserQuota (ri_UserId ri) false) (w, p)) as [r1 [w1 p1]] eqn:E.
    apply lift_inv in E as [E ->]. quiet E. intros H. injection H as <- <- <-. eauto.
  - destruct (_ || _); intros H; injection H as <- <- <-; eauto.
Qed.

Lemma token_ok_le ri q q' w : token_ok ri q w -> 0 <= q' <= q -> token_ok ri q' w.
Proof. intros [H|[[H1 H2] H3]] Hq; [by left|right]. split; [unfold small; lia|done]. Qed.

(** The funding phase of a wallet session. *)
Lemma wallet_phase q w ri s uid c r st :
  s.(b_funding) = FWallet (mkWalletFunding uid c) ->
  attempt (E':=APIError) (on_funding (PreConsume q)) (w, (ri, s)) = (r, st) -> 0 <= q ->
  batch_room w.(w_batch).(bs_UserQuota) uid (- q) ->
  exists w' c', st = (w', (ri, set_b_funding (fun _ => FWallet (mkWalletFunding uid c')) s)) /\
    (w.(w_faults) = [] -> w'.(w_faults) = []) /\
    ((r = Ok (Ok tt) /\ moves_wallet uid (- q) w w' /\ c' = (if 0 <? q then q else c)) \/
     (exists e, r = Ok (Err e) /\ ledger w' = ledger w /\ c' = c)).
Proof.
  intros Hf H Hq Hr. unfold attempt in H. rewrite on_funding_eq, Hf in H.
  destruct (PreConsume q (w, FWallet (mkWalletFunding uid c))) as [r1 [w1 f1]] eqn:E.
  injection H as <- <-. apply (dispatch_wallet _ (PreConsume q)) in E as (g & -> & E).
  assert (w.(w_faults) = [] -> w1.(w_faults) = []) as Hnf.
  { intros Hw. cbn in E. destruct (q <=? 0); [by injection E as <- <- <-|]. unfold bind, getS in E. cbn in E.
    destruct (lift _ _) as [r2 [w2 f2]] eqn:E2. apply lift_inv in E2 as [E2 ->].
    apply nf_run in E2; [|auto with preserve|done]. destruct r2 as [[]|]; injection E as <- <- <-; done. }
  apply Wallet_PreConsume_outcome in E; [|done..]. destruct r1 as [[]|e]; destruct E as [E1 E2]; subst g.
  - exists w1, (if 0 <? q then q else c). split; [by destruct (0 <? q)|]. split; [done|]. by left.
  - exists w1, c. split; [done|]. split; [done|]. right. eauto.
Qed.

Definition wallet_session (ri : RelayInfo) : BillingSession := new_session (FWallet (mkWalletFunding ri.(ri_UserId) 0)).

(** The amount a session reserves: nothing for a trusted request. *)
Definition effective (c : Config) (ri : RelayInfo) (quota : Z) : Z :=
  if shouldTrust c ri (FWallet (mkWalletFunding ri.(ri_UserId) 0)) then 0 else quota.

Lemma preConsume_wallet quota w ri r w' ri' s' :
  preConsume quota (w, (ri, wallet_session ri)) = (r, (w', (ri', s'))) ->
  0 <= quota -> token_ok ri quota w -> wallet_ok ri quota w ->
  let q := effective w.(w_cfg) ri quota in
  same_request ri ri' /\
  match r with
  | Ok _ => holds ri q s' /\ request_shift ri (- q) (- token_share ri q) w w'
  | Err _ => w.(w_faults) = [] -> request_shift ri 0 0 w w'
  end.
Proof.
  intros H Hq Htok Hw q. unfold preConsume in H.
  do 3 (apply bind_inv in H as [(? & ? & Hx & H)|(? & Hx & _)]; [|done]; injection Hx as <- <-). cbn [id] in H.
  unfold effective in q. cbn [b_funding wallet_session new_session snd] in H. fold q in H.
  apply bind_inv in H as [([] & ? & Hx & H)|(? & Hx & _)]; [|done]. injection Hx as <-.
  assert (0 <= q <= quota) as Hqq by (unfold q; destruct (shouldTrust _ _ _); lia).
  pose proof (token_ok_le _ _ _ _ Htok Hqq) as Htq. clearbody q.
  fold (token_phase ri q) in H. cbn [fst snd] in H.
  apply bind_inv in H as [([] & [w1 [ri1 s1]] & H1 & H)|(e & H1 & ->)];
    apply token_phase_outcome in H1 as (-> & Eu & Eb & Hnf & Hlive & H1); try done; try lia.
  2:{ destruct H1 as [-> E]. split; [done|]. intros _. by apply request_shift_0. }
  destruct H1 as (-> & Hsh & Hrec).
  assert (batch_room w1.(w_batch).(bs_UserQuota) ri.(ri_UserId) (- q)) as Hr.
  { rewrite Eb. refine (proj1 (small_room _ _ q _)). unfold wallet_ok, small in *. lia. }
  apply bind_inv in H as [(x & st & H2 & H)|(e & H2 & _)].
  2:{ unfold attempt in H2. by destruct (on_funding _ _) in H2. }
  pose proof (fun Hf => wallet_phase q w1 ri _ (ri_UserId ri) 0 _ _ Hf H2 (proj1 Hqq) Hr) as Hwp.
  destruct (Hwp eq_refl) as (w2 & c' & -> & Hnf2 & Hc). clear Hwp.
  destruct Hc as [(Ex & Hm & ->)|(e & Ex & E2 & ->)]; injection Ex as ->.
  - cbn in H. injection H as <- <- <- <-. split; [apply sync_info_same|]. split.
    + assert ((if 0 <? q then q else 0) = q) as -> by (destruct (Z.ltb_spec 0 q); lia). done.
    + replace (- q) with (0 + - q) by lia. replace (- token_share ri q) with (- token_share ri q + 0) by lia.
      eapply request_shift_trans; [exact Hsh|]. by apply moves_wallet_request.
  - apply bind_inv in H as [(x & ? & Hx & H)|(? & Hx & _)]; [|done]. injection Hx as <- <-. cbn [id snd] in H.
    cbn [b_tokenConsumed set_b_funding set_b_tokenConsumed] in H.
    destruct ((0 <? q) && negb (ri_IsPlayground ri)) eqn:Hb.
    + apply andb_true_iff in Hb as [Hb1 Hb2]. apply negb_true_iff in Hb2.
      destruct Hrec as [Hrec|[Hrec|Hrec]]; [congruence|lia|].
      destruct Htq as [Htq|[Hsm Hlv]]; [congruence|].
      unfold bind, attempt in H.
      destruct (lift (IncreaseTokenQuota (ri_TokenId ri) (ri_TokenKey ri) q) (w2, _)) as [r3 [w3 p3]] eqn:E3.
      apply lift_inv in E3 as [E3 ->]. unfold set_sess, modifyS in H. cbn [fst snd] in H.
      apply funding_error_outcome in H as (Ep & E4 & e' & ->). injection Ep as -> _. split; [done|]. intros Hf.
      destruct (token_rollback ri q w w1 w2 Hsh E2 (Hnf2 (Hnf Hf)) (proj1 Hqq) Hb2) as (w5 & E5 & Hs5);
        [by eapply one_record_token_room|by apply Hlive|].
      rewrite E5 in E3. injection E3 as <- <-. by eapply request_shift_same_l.
    + apply bind_inv in H as [([] & ? & Hx & H)|(? & Hx & _)]; [|done]. injection Hx as <-.
      apply funding_error_outcome in H as (Ep & E4 & e' & ->). injection Ep as -> _. split; [done|]. intros _.
      apply andb_false_iff in Hb. unfold token_share in Hsh.
      assert (- (if ri_IsPlayground ri then 0 else q) = 0) as E0.
      { destruct (ri_IsPlayground ri); [done|]. destruct Hb as [Hb|Hb]; [lia|done]. }
      rewrite E0 in Hsh. eapply request_shift_same_l; [exact Hsh|]. congruence.
Qed.

Lemma start_session_inv f quota w ri r w' ri' :
  start_session f quota (w, ri) = (r, (w', ri')) ->
  exists r0 s', preConsume quota (w, (ri, new_session f)) = (r0, (w', (ri', s'))) /\
    r = match r0 with Ok _ => Ok s' | Err e => Err e end.
Proof. unfold start_session. simpl. destruct (preConsume _ _) as [r0 [w0 [ri0 s0]]]. intros. simplify_eq. eauto. Qed.

(** Opening a wallet session reserves from the wallet and from the token
    together or not at all: on success both gave up exactly the reserved amount
    (zero for a trusted request; nothing of the token for a playground request) and
    the session knows it; on failure, in a run without database or Redis faults,
    both balances are what they were. *)
Theorem wallet_session_reserves quota w ri r w' ri' :
  start_session (FWallet (mkWalletFunding ri.(ri_UserId) 0)) quota (w, ri) = (r, (w', ri')) ->
  0 <= quota -> token_ok ri quota w -> wallet_ok ri quota w ->
  let q := effective w.(w_cfg) ri quota in
  match r with
  | Ok s => holds ri q s /\ request_shift ri (- q) (- token_share ri q) w w'
  | Err _ => w.(w_faults) = [] -> request_shift ri 0 0 w w'
  end.
Proof.
  intros H Hq Ht Hw. apply start_session_inv in H as (r0 & s' & H & ->).
  apply preConsume_wallet in H as [_ H]; [|done..]. by destruct r0 as [[]|e].
Qed.

(** ** Sample requests *)

Definition sample_relay (image : bool) : RelayInfo :=
  mkRelayInfo 7 3 "k" false false false 0 "req-1" "wallet_only" 0 image 0 false 0 "" 0 0 0 0 0 0 "".
Definition billing_world : World :=
  with_token (sample_token 3 7 "k" 1000) (with_user (sample_user 7 1000) (empty_world (sample_config false false))).

Lemma wallet_session_reserves_witness :
  let c := start_session (FWallet (mkWalletFunding 7 0)) 100 in
  let w' := (exec c (billing_world, sample_relay false)).1 in
  wallet w' 7 = 900 /\ token_remain w' 3 = 900 /\
  request_shift (sample_relay false) (-100) (-100) billing_world w'.
Proof.
  intros c w'. do 2 (split; [vm_compute; reflexivity|]).
  assert (exists s, eval c (billing_world, sample_relay false) = Ok s) as [s E] by (vm_compute; eexists; reflexivity).
  pose proof (run_eq c (billing_world, sample_relay false)) as Hr. rewrite E in Hr. unfold w'.
  destruct (exec c (billing_world, sample_relay false)) as [w1 ri1].
  pose proof (wallet_session_reserves 100 billing_world (sample_relay false) (Ok s) w1 ri1 Hr ltac:(lia)) as H.
  apply H.
  - right. split; [unfold small; vm_compute; split; congruence|by eexists].
  - unfold wallet_ok, small. vm_compute. split; congruence.
Defined.

(** ** Reserve, then settle: the actual cost *)

(** C1. A wallet request costs what it used.  A session that reserved from the
    wallet and settles at [a] has, in total, taken exactly [a] from the wallet and
    [a] from the token (nothing from the token for a playground request), however
    much it had reserved. *)
Theorem wallet_request_costs_actual quota a w ri s w1 ri1 w2 ri2 s2 :
  start_session (FWallet (mkWalletFunding ri.(ri_UserId) 0)) quota (w, ri) = (Ok s, (w1, ri1)) ->
  Settle a (w1, (ri1, s)) = (Ok tt, (w2, (ri2, s2))) ->
  0 <= quota -> token_ok ri quota w -> wallet_ok ri quota w ->
  let d := a - s.(b_preConsumedQuota) in
  in_i64 d -> can_pay s.(b_funding) d w1 -> token_ready ri1 d w1 ->
  request_shift ri (- a) (- token_share ri a) w w2 /\ s2.(b_settled) = true.
Proof.
  intros H1 H2 Hq Ht Hw d Hd Hp Htr.
  apply start_session_inv in H1 as (r0 & s' & H1 & Hr0). apply preConsume_wallet in H1 as [Hsame H1]; [|done..].
  destruct r0 as [[]|e]; [|done]. injection Hr0 as <-. destruct H1 as [(Hf & Hpre & _ & Hst & Hfs & _) Hsh].
  pose proof (Settle_outcome _ _ _ _ _ _ _ _ H2 Hst Hfs Hd Hp Htr) as (Hset & Hpays & Htok).
  destruct Hsame as (Eu & Et & _ & Epl & _).
  rewrite Hf in Hpays. cbn in Hpays. rewrite Et, Epl in Htok.
  split; [|done]. set (q := effective _ _ _) in *.
  replace (- a) with (- q + - d) by (unfold d; lia).
  replace (- token_share ri a) with (- token_share ri q + (if ri_IsPlayground ri then 0 else - d))
    by (unfold token_share, d; destruct (ri_IsPlayground ri); lia).
  eapply request_shift_trans; [exact Hsh|]. split; [exact Hpays|exact Htok].
Qed.

Lemma run_eq2 {E A X Y} (c : M (X * Y) E A) s : c s = (eval c s, ((exec c s).1, (exec c s).2)).
Proof. unfold eval, exec. by destruct (c s) as [r [x y]]. Qed.
Lemma run_eq3 {E A X Y Z} (c : M (X * (Y * Z)) E A) s :
  c s = (eval c s, ((exec c s).1, ((exec c s).2.1, (exec c s).2.2))).
Proof. unfold eval, exec. by destruct (c s) as [r [x [y z]]]. Qed.

(** The sample request after reserving 100. *)
Definition opened (image : bool) : World * RelayInfo :=
  exec (start_session (FWallet (mkWalletFunding 7 0)) 100) (billing_world, sample_relay image).
Definition opened_session : BillingSession :=
  mkBillingSession (FWallet (mkWalletFunding 7 100)) 100 100 0 false false false false.

Lemma opened_ok :
  start_session (FWallet (mkWalletFunding 7 0)) 100 (billing_world, sample_relay false) =
    (Ok opened_session, ((opened false).1, (opened false).2)).
Proof.
  assert (eval (start_session (FWallet (mkWalletFunding 7 0)) 100) (billing_world, sample_relay false) = Ok opened_session)
    as E by (vm_compute; reflexivity).
  rewrite run_eq2, E. reflexivity.
Qed.

Lemma sample_token_ok q : 0 <= q <= 1000 -> token_ok (sample_relay false) q billing_world.
Proof. intros Hq. right. split; [|by eexists]. unfold small, MaxInt64. change (redis_int _ _) with 0. simpl. lia. Qed.
Lemma sample_wallet_ok q : 0 <= q <= 1000 -> wallet_ok (sample_relay false) q billing_world.
Proof. intros Hq. unfold wallet_ok, small, MaxInt64. change (redis_int _ _) with 0. simpl. lia. Qed.

Lemma wallet_request_costs_actual_witness :
  let w2 := (exec (Settle 130) ((opened false).1, ((opened false).2, opened_session))).1 in
  wallet w2 7 = 870 /\ request_shift (sample_relay false) (-130) (-130) billing_world w2.
Proof.
  intros w2. split; [vm_compute; reflexivity|].
  pose proof (run_eq3 (Settle 130) ((opened false).1, ((opened false).2, opened_session))) as Hr.
  assert (eval (Settle 130) ((opened false).1, ((opened false).2, opened_session)) = Ok tt) as E by (vm_compute; reflexivity).
  rewrite E in Hr.
  apply (wallet_request_costs_actual 100 130 billing_world (sample_relay false) opened_session _ _ _ _ _ opened_ok Hr).
  - lia.
  - apply sample_token_ok. lia.
  - apply sample_wallet_ok. lia.
  - unfold in_i64, MinInt64, MaxInt64. simpl. lia.
  - split; [vm_compute; repeat split; discriminate|eexists; vm_compute; reflexivity].
  - right. split; [vm_compute; repeat split; discriminate|eexists; vm_compute; reflexivity].
Defined.

Lemma Settle_charges_actual_witness :
  let w2 := (exec (Settle 130) ((opened false).1, ((opened false).2, opened_session))).1 in
  wallet w2 7 = 870 /\ charged (FWallet (mkWalletFunding 7 100)) 30 (opened false).1 w2.
Proof.
  intros w2. split; [vm_compute; reflexivity|].
  pose proof (run_eq3 (Settle 130) ((opened false).1, ((opened false).2, opened_session))) as Hr.
  assert (eval (Settle 130) ((opened false).1, ((opened false).2, opened_session)) = Ok tt) as E by (vm_compute; reflexivity).
  rewrite E in Hr. eapply Settle_charges_actual in Hr as (_ & H & _); [exact H|reflexivity|reflexivity| | |].
  - unfold in_i64, MinInt64, MaxInt64. simpl. lia.
  - split; [vm_compute; repeat split; discriminate|eexists; vm_compute; reflexivity].
  - right. split; [vm_compute; repeat split; discriminate|eexists; vm_compute; reflexivity].
Defined.
