(* ===== verification/BillingRefund.v ===== *)
(** * Refunds and the choice of the funding source (theorems on Billing) *)

From stdpp Require Import base tactics numbers list gmap strings relations.
From Stdlib Require Import ZArith Lia.
From S2P Require Import Prelude Float64 QuotaMath DecimalQ World UserCache QuotaStore Reserve SubscriptionTime Subscription SubscriptionInv SubscriptionUse Billing BillingFrame BillingLaws BillingInv.
Open Scope Z_scope.

(** ** The refund job *)

Lemma IncreaseUserQuota_ok id q b w :
  w.(w_faults) = [] -> 0 <= q <= MaxWalletQuota -> user_live w id -> user_column u_Quota w.(w_db) id + q <= MaxWalletQuota ->
  exists w', IncreaseUserQuota id q b w = (Ok tt, w').
Proof.
  intros Hf Hq [u Hu] Hc. unfold IncreaseUserQuota. replace (q <? 0) with false by lia.
  unfold ValidateWalletQuota. replace (MaxWalletQuota <? q) with false by lia.
  unfold bind, cfg, gets. destruct (negb b && BatchUpdateEnabled (w_cfg w)); [by eexists|].
  unfold increaseUserQuota, bind. rewrite update_user_ff, Hu by done.
  unfold user_column in Hc. rewrite Hu in Hc.
  rewrite wrap64_id by (unfold in_i64, MinInt64, MaxInt64, MaxWalletQuota in *; lia).
  replace (u_Quota u <=? MaxWalletQuota - q) with true by lia. by eexists.
Qed.

Lemma Refund_holds {E} ri ri0 q s w :
  holds ri q s -> 0 < q -> same_request ri ri0 ->
  exists w' s', Refund (E:=E) (w, (ri0, s)) = (Ok tt, (w', (ri0, s'))) /\ s'.(b_refunded) = true /\
    w' = set_w_jobs (fun js => js ++ [JobRefund (RefundWallet ri.(ri_UserId) q) s.(b_extraReserved) ri0.(ri_SubscriptionId)
                                        ri.(ri_TokenId) ri.(ri_TokenKey) q ri.(ri_IsPlayground)]) w.
Proof.
  intros (Hf & Hp & Ht & Hs & Hfs & Hr) Hq (Eu & Et & Ek & Epl & _). unfold Refund, sess, info, bind, getS, ret. cbn [id snd fst].
  unfold needsRefundLocked. rewrite Hs, Hr, Hfs, Ht. simpl. replace (0 <? q) with true by lia. simpl.
  eexists _, _. split_and!; [reflexivity|done|]. by rewrite Hf, Et, Ek, Epl.
Qed.

(** Running the job of a wallet session in a fault-free world gives both
    balances back. *)
Lemma run_refund_job ri q extra subId w :
  w.(w_faults) = [] -> 0 < q <= MaxWalletQuota -> user_live w ri.(ri_UserId) ->
  user_column u_Quota w.(w_db) ri.(ri_UserId) + q <= MaxWalletQuota ->
  batch_room w.(w_batch).(bs_UserQuota) ri.(ri_UserId) q ->
  (ri.(ri_IsPlayground) = true \/ (batch_room w.(w_batch).(bs_TokenQuota) ri.(ri_TokenId) q /\ token_live w ri.(ri_TokenId))) ->
  let (r, w') := run_job (JobRefund (RefundWallet ri.(ri_UserId) q) extra subId ri.(ri_TokenId) ri.(ri_TokenKey) q
                            ri.(ri_IsPlayground)) w in
  r = Ok tt /\ request_shift ri q (token_share ri q) w w'.
Proof.
  intros Hf Hq Hl Hc Hr Ht. destruct (IncreaseUserQuota_ok (ri_UserId ri) q false w Hf ltac:(lia) Hl Hc) as [w1 E1].
  cbn [run_job run_funding_refund]. replace (q <=? 0) with false by lia. unfold bind at 1 2, catch at 1. rewrite E1. cbn.
  pose proof (tokens_frame _ _ _ _ (IncreaseUserQuota_tokens _ _ _ _ _) E1) as [T1 T2].
  pose proof (nf_run _ _ _ _ (IncreaseUserQuota_ep no_faults _ _ _) E1 Hf) as Hf1.
  apply IncreaseUserQuota_outcome in E1; [|done]. simpl in E1. apply moves_wallet_request in E1.
  unfold bind, ret. replace (0 <? q) with true by lia. cbn [andb].
  unfold token_share. destruct (ri_IsPlayground ri) eqn:Hp; cbn [negb]; [done|].
  destruct Ht as [Ht|[Htr Htl]]; [congruence|].
  destruct (IncreaseTokenQuota_ok (ri_TokenId ri) (ri_TokenKey ri) q w1 Hf1 ltac:(lia)) as [w2 E2].
  unfold catch. rewrite E2. split; [done|].
  apply IncreaseTokenQuota_outcome in E2; [|by rewrite T2|by unfold token_live, visible_token; rewrite T1].
  simpl in E2. apply moves_token_request in E2.
  pose proof (request_shift_trans _ _ _ _ _ _ _ _ E1 E2) as E3. by rewrite Z.add_0_r, Z.add_0_l in E3.
Qed.

(** A failed request is made whole.  A wallet session that reserved [q > 0]
    and is refunded queues one job; when that job runs (with no faults, the account
    still there and below the wallet ceiling), the wallet and the token hold exactly
    what they held before the session was opened. *)
Theorem wallet_refund_restores quota w ri s w1 ri1 :
  start_session (FWallet (mkWalletFunding ri.(ri_UserId) 0)) quota (w, ri) = (Ok s, (w1, ri1)) ->
  w1.(w_faults) = [] -> 0 < effective w.(w_cfg) ri quota <= MaxWalletQuota -> 0 <= quota ->
  token_ok ri quota w -> wallet_ok ri quota w -> user_live w1 ri.(ri_UserId) ->
  let q := effective w.(w_cfg) ri quota in
  user_column u_Quota w1.(w_db) ri.(ri_UserId) + q <= MaxWalletQuota ->
  batch_room w1.(w_batch).(bs_UserQuota) ri.(ri_UserId) q ->
  (ri.(ri_IsPlayground) = true \/ (batch_room w1.(w_batch).(bs_TokenQuota) ri.(ri_TokenId) q /\ token_live w1 ri.(ri_TokenId))) ->
  exists w2 s2 j, Refund (E:=APIError) (w1, (ri1, s)) = (Ok tt, (w2, (ri1, s2))) /\
    w2.(w_jobs) = w1.(w_jobs) ++ [j] /\
    let (r, w3) := run_job j w2 in r = Ok tt /\ request_shift ri 0 0 w w3.
Proof.
  intros H Hf Hq Hq0 Ht Hw Hl q Hc Hr Htr. apply start_session_inv in H as (r0 & s' & H & Hr0).
  apply preConsume_wallet in H as [Hsame H]; [|done..]. destruct r0 as [[]|e]; [|done]. injection Hr0 as <-.
  destruct H as [Hh Hsh]. fold q in Hh, Hsh, Hq.
  destruct (Refund_holds (E:=APIError) ri ri1 q s w1 Hh (proj1 Hq) Hsame) as (w2 & s2 & E & _ & E2).
  eexists w2, s2, _. split; [exact E|]. rewrite E2. split; [reflexivity|].
  match goal with |- let (_, _) := run_job ?j ?w in _ => pose proof (run_refund_job ri q (b_extraReserved s) (ri_SubscriptionId ri1) w) as Hj end.
  specialize (Hj Hf ltac:(lia) Hl Hc Hr Htr). destruct (run_job _ _) as [r w3]. destruct Hj as [-> Hj]. split; [done|].
  pose proof (request_shift_trans _ _ _ _ _ _ _ _ Hsh Hj) as H3.
  by rewrite !Z.add_opp_diag_l in H3.
Qed.

Lemma wallet_refund_restores_witness :
  exists w2 s2 j, Refund (E:=APIError) ((opened false).1, ((opened false).2, opened_session)) = (Ok tt, (w2, ((opened false).2, s2))) /\
    let (r, w3) := run_job j w2 in r = Ok tt /\ request_shift (sample_relay false) 0 0 billing_world w3.
Proof.
  destruct (wallet_refund_restores 100 billing_world (sample_relay false) opened_session (opened false).1 (opened false).2)
    as (w2 & s2 & j & H1 & _ & H2).
  - exact opened_ok.
  - vm_compute. reflexivity.
  - vm_compute. split; congruence.
  - lia.
  - apply sample_token_ok. lia.
  - apply sample_wallet_ok. lia.
  - eexists. vm_compute. reflexivity.
  - vm_compute. congruence.
  - vm_compute. repeat split; discriminate.
  - right. split; [vm_compute; repeat split; discriminate|eexists; vm_compute; reflexivity].
  - exists w2, s2, j. split; [exact H1|exact H2].
Defined.


(** Runs the refund jobs in the queue. *)
Definition run_refunds : MW unit :=
  let! js := gets w_jobs in
  mapM_ (fun j => if is_refund j then run_job j else ret tt) js.

(** An image request whose reservation is topped up is not made whole: the
    top-up overwrites the amount the wallet remembers, so the refund returns only
    the top-up.  Here 100 are reserved, topped up to 150 and refunded; the token is
    restored to 1000 but the wallet stays 100 short.  The same sequence for any
    other request (not an image) restores both. *)
Theorem image_topup_refund_loses_reservation :
  let run image :=
    let st1 := exec (Reserve 150) ((opened image).1, ((opened image).2, opened_session)) in
    let w2 := (exec (Refund (E:=APIError)) st1).1 in
    let w3 := exec run_refunds w2 in (wallet st1.1 7, token_remain st1.1 3, wallet w3 7, token_remain w3 3) in
  run true = (850, 850, 900, 1000) /\ run false = (850, 850, 1000, 1000).
Proof. vm_compute. split; reflexivity. Qed.

(** ** At most one refund *)

Definition world_pred {X} (I : World -> Prop) (st : World * X) : Prop := I st.1.

(** No more refunds: refunded, settled, or half settled. *)
Definition closed (s : BillingSession) : bool := s.(b_settled) || s.(b_refunded) || s.(b_fundingSettled).

(** The flags of a session only go up. *)
Definition flags_le (s s' : BillingSession) : Prop := closed s = true -> closed s' = true.

(** The queued refunds, and whether the session is closed. *)
Definition refund_state (l : list Job) (b : bool) (st : World * (RelayInfo * BillingSession)) : Prop :=
  refunds_are l st.1 /\ (b = true -> closed st.2.2 = true).

Section refund_state.
Context (l : list Job) (b : bool).
Abbreviation RS := (refund_state l b).

Lemma lift_world {X E A} (I : World -> Prop) (c : M World E A) : preserves I c -> preserves (world_pred (X:=X) I) (lift c).
Proof. intros H [w x] Hw. specialize (H w Hw). unfold lift. simpl. by destruct (c w). Qed.
Lemma lift_RS {E A} (c : M World E A) : preserves (refunds_are l) c -> preserves RS (lift c).
Proof. intros H [w x] [Hw Hb]. specialize (H w Hw). unfold lift. simpl. by destruct (c w). Qed.
Lemma attempt_pres {S E E' A} (I : S -> Prop) (c : M S E A) : preserves I c -> preserves I (attempt (E':=E') c).
Proof. intros H s Hs. specialize (H s Hs). unfold attempt. by destruct (c s). Qed.
Lemma or_error_pres {S E E' A} (I : S -> Prop) (c : M S E A) (f : E -> E') : preserves I c -> preserves I (or_error c f).
Proof.
  intros H. unfold or_error. apply preserves_bind; [by apply attempt_pres|]. intros [a|e];
    [apply preserves_ret|apply preserves_throw].
Qed.
Lemma on_funding_RS {E A} (c : M (World * Funding) E A) :
  preserves (world_pred (refunds_are l)) c -> preserves RS (on_funding c).
Proof.
  intros H [w [ri s]] [Hw Hb]. specialize (H (w, s.(b_funding)) Hw). rewrite on_funding_eq.
  destruct (c _) as [r [w' f']]. by split.
Qed.
Lemma set_sess_RS {E} f : (forall s, flags_le s (f s)) -> preserves RS (set_sess (E:=E) f).
Proof. intros Hf [w [ri s]] [Hw Hb]. split; [done|]. intros Hb'. by apply Hf, Hb. Qed.
Lemma set_info_RS {E} f : preserves RS (set_info (E:=E) f).
Proof. by intros [w [ri s]] [Hw Hb]. Qed.
Lemma sess_RS {E A} (f : BillingSession -> A) : preserves RS (sess (E:=E) f).
Proof. by intros [w [ri s]] [Hw Hb]. Qed.
Lemma info_RS {E A} (f : RelayInfo -> A) : preserves RS (info (E:=E) f).
Proof. by intros [w [ri s]] [Hw Hb]. Qed.
Lemma of_result_RS {E A} (r : result E A) : preserves RS (of_result r).
Proof. by intros [w [ri s]] [Hw Hb]. Qed.
#[local] Hint Resolve lift_world lift_RS attempt_pres or_error_pres on_funding_RS set_sess_RS set_info_RS sess_RS info_RS
  of_result_RS : preserve.
#[local] Hint Extern 1 (forall s, flags_le s _) =>
  (intros s; unfold flags_le, closed; simpl; rewrite ?orb_true_r; auto) : preserve.

Lemma getS_world {X E} (I : World -> Prop) : preserves (world_pred I) (getS (S:=X) (E:=E)).
Proof. by intros [w x] Hw. Qed.
Lemma modifyS_world {X E} (I : World -> Prop) f : preserves (world_pred I) (modifyS (S:=X) (E:=E) f).
Proof. by intros [w x] Hw. Qed.
#[local] Hint Resolve getS_world modifyS_world : preserve.

Lemma dispatch_world {A} (I : World -> Prop) (cw : M (World * WalletFunding) error A) cs :
  preserves (world_pred I) cw -> preserves (world_pred I) cs -> preserves (world_pred I) (dispatch cw cs).
Proof.
  intros H1 H2 [w [f|f]] Hw; unfold dispatch; simpl.
  - specialize (H1 (w, f) Hw). by destruct (cw (w, f)) as [r [w' f']].
  - specialize (H2 (w, f) Hw). by destruct (cs (w, f)) as [r [w' f']].
Qed.

Lemma Funding_Settle_world I `{!EffectPred I} d : preserves (world_pred I) (Funding_Settle (F:=Funding) d).
Proof. apply dispatch_world; cbn; solve_preserves. Qed.
Lemma PreConsume_world I `{!EffectPred I} q : preserves (world_pred I) (PreConsume (F:=Funding) q).
Proof. apply dispatch_world; cbn; solve_preserves. Qed.
#[local] Hint Resolve Funding_Settle_world PreConsume_world : preserve.

Lemma Settle_RS a : preserves RS (Settle a).
Proof. unfold Settle. solve_preserves. apply attempt_pres. solve_preserves. Qed.
Lemma rollbackFundingReserve_RS {E} d : preserves RS (rollbackFundingReserve (E:=E) d).
Proof. unfold rollbackFundingReserve. solve_preserves. Qed.
Lemma reserveToken_RS d : preserves RS (reserveToken d).
Proof. unfold reserveToken. solve_preserves. Qed.
#[local] Hint Resolve rollbackFundingReserve_RS reserveToken_RS : preserve.

Lemma reserveFunding_RS d b' : preserves RS (reserveFunding d b').
Proof. unfold reserveFunding. solve_preserves. Qed.
#[local] Hint Resolve reserveFunding_RS : preserve.
Lemma Reserve_RS t : preserves RS (Reserve t).
Proof. unfold Reserve, syncRelayInfo. solve_preserves. Qed.
End refund_state.

(** One call on the session, or anything the rest of the program does that
    does not queue a refund for it. *)
Inductive session_step : World * (RelayInfo * BillingSession) -> World * (RelayInfo * BillingSession) -> Prop :=
| session_settle a st : session_step st (exec (Settle a) st)
| session_reserve t st : session_step st (exec (Reserve t) st)
| session_refund st : session_step st (exec (Refund (E:=APIError)) st)
| session_environment w w' p : queued_refunds w' = queued_refunds w -> session_step (w, p) (w', p).

Lemma Refund_cases w ri s :
  let '(w', (_, s')) := exec (Refund (E:=APIError)) (w, (ri, s)) in
  (w' = w /\ s' = s) \/
  (closed s = false /\ closed s' = true /\ exists j, queued_refunds w' = queued_refunds w ++ [j]).
Proof.
  unfold exec, Refund, sess, info, bind, getS, ret. cbn [id snd fst].
  destruct (b_settled s || b_refunded s || negb (needsRefundLocked s)) eqn:E; [by left|]. simpl. right.
  rewrite !orb_false_iff, negb_false_iff in E. destruct E as [[E1 E2] E3]. unfold needsRefundLocked in E3.
  rewrite E1, E2 in E3. simpl in E3. destruct (b_fundingSettled s) eqn:E4; [done|].
  unfold closed. simpl. rewrite E1, E2, E4. split_and!; try done.
  eexists. unfold queued_refunds. simpl. rewrite filter_app. f_equal.
Qed.

(** C5. A session is refunded at most once, and never after it was settled:
    whatever calls are made on it and however they interleave with the rest of the
    program, at most one refund job is ever queued for it, and none from the moment
    it is settled, its funding source is settled, or it was refunded. *)
Theorem session_refunds_at_most_once st st' :
  rtc session_step st st' ->
  exists l, queued_refunds st'.1 = queued_refunds st.1 ++ l /\ (length l <= 1)%nat /\ (closed st.2.2 = true -> l = []).
Proof.
  intros H. induction H as [[w [ri s]]|st st1 st' Hs _ IH].
  { exists []. rewrite app_nil_r. simpl. auto. }
  destruct IH as (l & Hl & Hlen & H1). destruct Hs as [a st|t st|[w [ri s]]|w w' p Hq].
  - destruct (Settle_RS (queued_refunds st.1) (closed st.2.2) a st (conj eq_refl (fun x => x))) as [E1 E2].
    exists l. unfold refunds_are in E1. unfold exec in *. rewrite E1 in Hl. auto.
  - destruct (Reserve_RS (queued_refunds st.1) (closed st.2.2) t st (conj eq_refl (fun x => x))) as [E1 E2].
    exists l. unfold refunds_are in E1. unfold exec in *. rewrite E1 in Hl. auto.
  - pose proof (Refund_cases w ri s) as Hc. destruct (exec Refund (w, (ri, s))) as [w1 [ri1 s1]]. simpl in *.
    destruct Hc as [[-> ->]|(E1 & E2 & j & Ej)]; [eauto|].
    specialize (H1 E2). subst l. exists [j]. rewrite app_nil_r in Hl. rewrite Hl, Ej. split_and!; [done|simpl; lia|congruence].
  - exists l. simpl in *. rewrite <- Hq. auto.
Qed.

Lemma session_refunds_at_most_once_witness :
  let st := ((opened false).1, ((opened false).2, opened_session)) in
  let st1 := exec (Refund (E:=APIError)) st in
  let st2 := exec (Refund (E:=APIError)) st1 in
  length (queued_refunds st2.1) = 1%nat /\
  exists l, queued_refunds st2.1 = queued_refunds st.1 ++ l /\ (length l <= 1)%nat.
Proof.
  intros st st1 st2. split; [vm_compute; reflexivity|].
  destruct (session_refunds_at_most_once st st2) as (l & H1 & H2 & _).
  - eapply rtc_l; [apply session_refund|]. eapply rtc_l; [apply session_refund|]. apply rtc_refl.
  - exists l. split; [exact H1|exact H2].
Defined.
