(* ===== verification/BillingChoice.v ===== *)
(** * Which account pays (theorems on NewBillingSession)

    The billing preference of the user decides between the wallet and the
    subscriptions; when subscriptions go first, one that forbids wallet overflow is
    not bypassed. *)

From stdpp Require Import base tactics numbers list gmap strings relations sorting.
From Stdlib Require Import ZArith Lia.
From S2P Require Import Prelude Float64 QuotaMath DecimalQ World UserCache QuotaStore Reserve SubscriptionTime Subscription SubscriptionInv SubscriptionUse SubscriptionOrders Billing BillingFrame BillingLaws BillingInv BillingRefund.
Open Scope Z_scope.

Definition is_wallet (f : Funding) : bool := match f with FWallet _ => true | FSubscription _ => false end.

(** ** What one attempt leaves alone *)

(** The subscriptions and the clock, which the choice looks at. *)
Definition choice_view (w : World) : gmap Z UserSubscription * Z := (w.(w_db).(subs), w.(w_clock)).
Definition view_is (v : gmap Z UserSubscription * Z) (w : World) : Prop := choice_view w = v.

Definition clock_is (c : Z) (w : World) : Prop := w.(w_clock) = c.
#[export] Instance clock_is_effect c : EffectPred (clock_is c).
Proof.
  split; try done. intros e w Hw. unfold fault_point. by destruct (w_faults w).
Qed.

Lemma view_split v (c : World) : view_is v c <-> subs_are v.1 c /\ clock_is v.2 c.
Proof. unfold view_is, choice_view, subs_are, clock_is. destruct v; simpl. split; [by intros [= -> ->]|by intros [-> ->]]. Qed.

Lemma view_frame {A} (c : MW A) v : preserves (subs_are v.1) c -> preserves (clock_is v.2) c -> preserves (view_is v) c.
Proof. intros H1 H2 w Hw. apply view_split in Hw as [Hw1 Hw2]. apply view_split. split; auto. Qed.

Lemma accounts_subs {A} (c : MW A) S : (forall U B, preserves (accounts_are U B S) c) -> preserves (subs_are S) c.
Proof. intros H w Hw. by destruct (H w.(w_db).(users) w.(w_batch).(bs_UserQuota) w (conj eq_refl (conj eq_refl Hw))) as (_ & _ & E). Qed.

Lemma update_user_subs S id p f : preserves (subs_are S) (update_user id p f).
Proof. unfold update_user. solve_preserves; by intros w Hw. Qed.
Lemma addNewRecord_subs S t i v : preserves (subs_are S) (addNewRecord t i v).
Proof. by intros w Hw. Qed.
#[export] Hint Resolve update_user_subs addNewRecord_subs : preserve.
Lemma TryReserveUserQuota_subs S id q : preserves (subs_are S) (TryReserveUserQuota id q).
Proof. unfold TryReserveUserQuota, reserveUserQuotaDB, persistUserQuotaDelta. solve_preserves. Qed.

Section view.
Context (v : gmap Z UserSubscription * Z).

Lemma PreConsumeTokenQuota_view ri q : preserves (view_is v) (PreConsumeTokenQuota ri q).
Proof. apply view_frame; [apply accounts_subs; auto with preserve|auto with preserve]. Qed.
Lemma IncreaseTokenQuota_view i k q : preserves (view_is v) (IncreaseTokenQuota i k q).
Proof. apply view_frame; [apply accounts_subs; auto with preserve|auto with preserve]. Qed.
Lemma GetUserQuota_view i b : preserves (view_is v) (GetUserQuota i b).
Proof. apply view_frame; auto with preserve. Qed.
Lemma TryReserveUserQuota_view i q : preserves (view_is v) (TryReserveUserQuota i q).
Proof. apply view_frame; [apply TryReserveUserQuota_subs|auto with preserve]. Qed.
Lemma PreConsumeUserSubscription_err req u a w e w' :
  PreConsumeUserSubscription req u a w = (Err e, w') -> view_is v w -> view_is v w'.
Proof.
  intros H Hw. assert (clock_is v.2 w') as Hc.
  { pose proof (PreConsumeUserSubscription_ep (clock_is v.2) req u a w) as Hp. rewrite H in Hp. apply Hp.
    by apply view_split in Hw as [_ Hw]. }
  apply view_split in Hw as [Hw _]. apply view_split. split; [|done]. unfold subs_are in *. rewrite <- Hw. f_equal.
  unfold PreConsumeUserSubscription in H. monad_cases; try done.
  - apply Transaction_inv in H as [(e' & _ & Edb)|(x & w1 & w2 & [=] & _)].
    quiet Hc0. apply ledger_db in Hc0. congruence.
  - quiet H. by apply ledger_db.
Qed.
End view.
#[export] Hint Resolve PreConsumeTokenQuota_view IncreaseTokenQuota_view GetUserQuota_view TryReserveUserQuota_view : preserve.

(** ** preConsume keeps the funding's kind; when it fails on a subscription, the
       subscriptions are as before; on a wallet they are in any case. *)

Definition kind_is (k : bool) (st : World * (RelayInfo * BillingSession)) : Prop := is_wallet st.2.2.(b_funding) = k.

Lemma kind_lift k {E A} (c : M World E A) : preserves (kind_is k) (lift c).
Proof. intros [w p] H. unfold lift. simpl. by destruct (c w). Qed.
Lemma kind_on_funding k {A} (c : M (World * Funding) error A) :
  (forall w f, is_wallet (c (w, f)).2.2 = is_wallet f) -> preserves (kind_is k) (on_funding c).
Proof.
  intros Hc [w [ri s]] H. rewrite on_funding_eq. specialize (Hc w s.(b_funding)).
  destruct (c _) as [r [w' f']]. unfold kind_is in *. simpl in *. congruence.
Qed.
Lemma PreConsume_kind q w f : is_wallet (PreConsume (F:=Funding) q (w, f)).2.2 = is_wallet f.
Proof.
  destruct f as [f|f].
  - destruct (PreConsume q (w, FWallet f)) as [r [w' f']] eqn:E.
    by apply (dispatch_wallet _ (PreConsume q)) in E as (g & -> & _).
  - destruct (PreConsume q (w, FSubscription f)) as [r [w' f']] eqn:E.
    by apply (dispatch_subscription (PreConsume q)) in E as (g & -> & _).
Qed.
Lemma kind_sess k {E} f : (forall s, is_wallet (b_funding (f s)) = is_wallet (b_funding s)) -> preserves (kind_is k) (set_sess (E:=E) f).
Proof. intros Hf [w [ri s]] H. unfold kind_is in *. simpl in *. by rewrite Hf. Qed.
Lemma kind_read k {E A} (c : MB E A) : (forall st, (c st).2 = st) -> preserves (kind_is k) c.
Proof. intros H st Hst. by rewrite H. Qed.

Lemma preConsume_kind k quota : preserves (kind_is k) (preConsume quota).
Proof.
  unfold preConsume, funding_error, syncRelayInfo.
  repeat match goal with
  | |- preserves _ (lift _) => apply kind_lift
  | |- preserves _ (set_sess _) => apply kind_sess; reflexivity
  | |- preserves _ (set_info _) => by intros [w [ri s]] H
  | |- preserves _ (or_error _ _) => apply or_error_pres
  | |- preserves _ (attempt _) => apply attempt_pres
  | |- preserves _ (on_funding _) => apply kind_on_funding; intros; apply PreConsume_kind
  | |- preserves _ (sess _) => by apply kind_read
  | |- preserves _ (info _) => by apply kind_read
  | |- preserves _ (fun ws => _) => by apply kind_read
  | _ => preserve_step
  end.
Qed.

(** The world after each attempt, seen by the choice. *)
Definition view_st (v : gmap Z UserSubscription * Z) (st : World * (RelayInfo * BillingSession)) : Prop := view_is v st.1.

Lemma view_lift v {E A} (c : M World E A) : preserves (view_is v) c -> preserves (view_st v) (lift c).
Proof. intros Hc [w p] H. specialize (Hc w H). unfold lift. simpl. by destruct (c w). Qed.
Lemma view_read v {E A} (c : MB E A) : (forall st, (c st).2.1 = st.1) -> preserves (view_st v) c.
Proof. intros H st Hst. unfold view_st. by rewrite H. Qed.

Lemma view_run v {E A} (c : MB E A) w p r w' p' :
  preserves (view_st v) c -> c (w, p) = (r, (w', p')) -> view_is v w -> view_is v w'.
Proof. intros Hc E0 Hw. specialize (Hc (w, p) Hw). by rewrite E0 in Hc. Qed.

(** Everything in preConsume but the funding's own reservation. *)
Ltac view_steps :=
  repeat match goal with
  | |- preserves (view_st _) (lift _) => apply view_lift; auto with preserve
  | |- preserves (view_st _) (set_sess _) => by apply view_read
  | |- preserves (view_st _) (set_info _) => by apply view_read
  | |- preserves (view_st _) (or_error _ _) => apply or_error_pres
  | |- preserves (view_st _) (attempt _) => apply attempt_pres
  | |- preserves (view_st _) (sess _) => by apply view_read
  | |- preserves (view_st _) (info _) => by apply view_read
  | |- preserves (view_st _) (fun ws => _) => by apply view_read
  | _ => preserve_step
  end.

Lemma attempt_no_err {S E E' A} (c : M S E A) s (e : E') s' : attempt c s = (Err e, s') -> False.
Proof. unfold attempt. by destruct (c s). Qed.

Lemma preConsume_sub_err v quota w ri f e w' ri' s' :
  preConsume quota (w, (ri, new_session (FSubscription f))) = (Err e, (w', (ri', s'))) -> view_is v w -> view_is v w'.
Proof.
  intros H Hw. unfold preConsume in H.
  do 3 (apply bind_inv in H as [(? & ? & Hx & H)|(? & Hx & _)]; [|done]; injection Hx as <- <-). cbn [id] in H.
  set (q := if shouldTrust _ _ _ then 0 else quota) in H.
  apply bind_inv in H as [([] & ? & Hx & H)|(? & Hx & _)]; [|done]. injection Hx as <-.
  apply bind_inv in H as [([] & [w1 [ri1 s1]] & Hx & H)|(e1 & Hx & [= <-])].
  2:{ eapply view_run; [|exact Hx|exact Hw]. view_steps. }
  assert (view_is v w1 /\ exists g, b_funding s1 = FSubscription g) as [Hw1 [g Hg]].
  { split.
    - eapply view_run; [|exact Hx|exact Hw]. view_steps.
    - destruct (0 <? q); [|injection Hx as <- <- <-; by eexists]. unfold or_error, bind, attempt in Hx.
      destruct (lift _ _) as [r2 [w2 f2]] eqn:E2. apply lift_inv in E2 as [E2 ->].
      destruct r2; [|done]. injection Hx as <- <- <-. by eexists. }
  apply bind_inv in H as [(r & [w2 [ri2 s2]] & Hx2 & H)|(e2 & Hx2 & _)].
  2:{ by apply attempt_no_err in Hx2. }
  destruct r as [[]|e0].
  { unfold syncRelayInfo, sess, bind, getS, ret, set_sess, set_info, modifyS in H. by destruct s2. }
  assert (view_is v w2) as Hw2.
  { unfold attempt in Hx2. rewrite on_funding_eq, Hg in Hx2.
    destruct (PreConsume q (w1, FSubscription g)) as [r2 [w3 f3]] eqn:E. injection Hx2 as -> <- _ _.
    apply (dispatch_subscription (PreConsume q)) in E as (g' & -> & E). cbn in E.
    unfold bind at 1, getS in E. cbn [fst snd] in E.
    apply bind_inv in E as [(x & [w4 f4] & Hx3 & E)|(e3 & Hx3 & _)].
    - apply bind_inv in E as [(y & [w5 f5] & Hx4 & E)|(? & Hx4 & _)].
      + by destruct y as [[? ?]|?].
      + by apply attempt_no_err in Hx4.
    - apply lift_inv in Hx3 as [Hx3 _]. by eapply PreConsumeUserSubscription_err. }
  eapply view_run; [|exact H|exact Hw2]. unfold funding_error. view_steps.
Qed.

(** ** The questions the choice asks *)

Lemma select_subs_pos p d :
  0 < Z.of_nat (length (select_subs p end_asc d)) <-> exists id sub, d.(subs) !! id = Some sub /\ p sub = true.
Proof.
  unfold select_subs. rewrite merge_sort_Permutation. split.
  - intros H. destruct (filter _ _) as [|s l] eqn:E; [simpl in H; lia|].
    assert (s ∈ s :: l) as Hin by set_solver. rewrite <- E in Hin. apply list_elem_of_filter in Hin as [Hp Hin].
    apply list_elem_of_fmap in Hin as ([id s'] & -> & Hin). apply elem_of_map_to_list in Hin. exists id, s'.
    split; [done|]. by apply Is_true_eq_true.
  - intros (id & sub & H & Hp). assert (sub ∈ filter (fun s => Is_true (p s)) (map_to_list d.(subs)).*2) as Hin.
    { apply list_elem_of_filter. split; [by rewrite Hp|]. apply list_elem_of_fmap. exists (id, sub). split; [done|].
      by apply elem_of_map_to_list. }
    destruct (filter _ _); [by apply elem_of_nil in Hin|]. simpl. lia.
Qed.

(** The user has an active subscription. *)
Definition active_sub (userId : Z) (v : gmap Z UserSubscription * Z) : Prop :=
  exists id sub, v.1 !! id = Some sub /\ active_at userId v.2 sub = true.

(** An active subscription of the user that forbids wallet overflow. *)
Definition strict_sub (userId : Z) (v : gmap Z UserSubscription * Z) : Prop :=
  exists id sub, v.1 !! id = Some sub /\ active_at userId v.2 sub = true /\ sub.(s_AllowWalletOverflow) = false.

Lemma count_subs_view v p : preserves (view_is v) (count_subs p).
Proof.
  apply view_frame; unfold count_subs; (apply preserves_bind; [|intros; apply preserves_gets]); [auto with preserve|].
  apply ep_fault.
Qed.

Lemma HasActive_view userId v w b w' :
  HasActiveUserSubscription userId w = (Ok b, w') -> view_is v w -> view_is v w' /\ (b = true <-> active_sub userId v).
Proof.
  unfold HasActiveUserSubscription. destruct (userId <=? 0); [done|].
  intros H <-. apply bind_inv in H as [(now & w0 & [= <- <-] & H)|(? & [=] & _)].
  apply bind_inv in H as [(n & w0 & Hc & H)|(? & _ & [=])]. injection H as <- <-.
  pose proof (count_subs_view (choice_view w) (active_at userId (w_clock w)) w eq_refl) as Hv. rewrite Hc in Hv.
  apply count_subs_inv in Hc as [_ ->]. split; [done|]. rewrite Z.ltb_lt. apply select_subs_pos.
Qed.
Lemma AllowOverflow_strict userId v w b w' :
  UserActiveSubscriptionsAllowWalletOverflow userId w = (Ok b, w') -> view_is v w -> strict_sub userId v -> b = false.
Proof.
  unfold UserActiveSubscriptionsAllowWalletOverflow. destruct (userId <=? 0); [done|].
  intros H <- (id & sub & H1 & H2 & H3). apply bind_inv in H as [(now & w0 & [= <- <-] & H)|(? & [=] & _)].
  apply bind_inv in H as [(n & w0 & Hc & H)|(? & _ & [=])]. injection H as <- <-.
  apply count_subs_inv in Hc as [_ ->]. apply Z.eqb_neq, not_eq_sym, Z.lt_neq, select_subs_pos.
  exists id, sub. simpl in *. by rewrite H2, H3.
Qed.

(** ** The choice *)

Lemma start_session_kind f quota w ri s st : start_session f quota (w, ri) = (Ok s, st) -> is_wallet s.(b_funding) = is_wallet f.
Proof.
  destruct st as [w' ri']. intros H. apply start_session_inv in H as (r0 & s' & H & Hr). destruct r0 as [[]|]; [|done].
  injection Hr as <-. pose proof (preConsume_kind (is_wallet f) quota (w, (ri, new_session f)) eq_refl) as Hk.
  by rewrite H in Hk.
Qed.

Lemma tryWallet_kind q st s st' : tryWallet q st = (Ok s, st') -> is_wallet s.(b_funding) = true.
Proof.
  destruct st as [w ri]. intros H. unfold tryWallet in H.
  apply bind_inv in H as [(x & ? & Hx & H)|(? & Hx & _)]; [|done]. injection Hx as <- <-.
  apply bind_inv in H as [(n & [w1 ri1] & Hx & H)|(? & _ & [=])].
  destruct (n <=? 0); [done|]. destruct (n -! q <? 0); [done|].
  apply bind_inv in H as [([] & [w2 ri2] & _ & H)|(? & _ & [=])]. by apply start_session_kind in H.
Qed.
Lemma trySubscription_kind q st s st' : trySubscription q st = (Ok s, st') -> is_wallet s.(b_funding) = false.
Proof.
  destruct st as [w ri]. intros H. unfold trySubscription in H.
  apply bind_inv in H as [(x & ? & Hx & H)|(? & Hx & _)]; [|done]. injection Hx as <- <-. by apply start_session_kind in H.
Qed.
Lemma trySubscription_err v q w ri e w' ri' :
  trySubscription q (w, ri) = (Err e, (w', ri')) -> view_is v w -> view_is v w'.
Proof.
  intros H Hw. unfold trySubscription in H.
  apply bind_inv in H as [(x & ? & Hx & H)|(? & Hx & _)]; [|done]. injection Hx as <- <-.
  apply start_session_inv in H as (r0 & s' & H & Hr). destruct r0 as [[]|]; [done|]. by eapply preConsume_sub_err.
Qed.

Lemma or_error_lift {A} (c : MW A) (f : error -> APIError) w (ri : RelayInfo) r st :
  or_error (lift c) f (w, ri) = (r, st) ->
  exists r0 w1, c w = (r0, w1) /\ st = (w1, ri) /\ r = match r0 with Ok a => Ok a | Err e => Err (f e) end.
Proof.
  unfold or_error, bind, attempt. destruct (lift c (w, ri)) as [r0 [w1 ri1]] eqn:E. apply lift_inv in E as [E ->].
  destruct r0; intros H; injection H as <- <-; eauto.
Qed.

Definition insufficient (e : APIError) : Prop := e.(ae_code) = ErrorCodeInsufficientUserQuota.

Lemma wallet_first_choice quota w ri s st :
  NewBillingSession quota (w, ri) = (Ok s, st) -> NormalizeBillingPreference ri.(ri_BillingPreference) = "wallet_first"%string ->
  match tryWallet quota (w, ri) with
  | (Ok s0, _) => s = s0 /\ is_wallet s.(b_funding) = true
  | (Err e, _) => insufficient e /\ is_wallet s.(b_funding) = false
  end.
Proof.
  intros H Hp. unfold NewBillingSession in H.
  apply bind_inv in H as [(x & ? & Hx & H)|(? & Hx & _)]; [|done]. injection Hx as <- <-. cbn [snd] in H.
  rewrite Hp in H. simpl in H. unfold bind, attempt in H. destruct (tryWallet quota (w, ri)) as [[s0|e] st0] eqn:E.
  - injection H as <- _. split; [done|]. by eapply tryWallet_kind.
  - destruct (bool_decide_reflect (ae_code e = ErrorCodeInsufficientUserQuota)); [|done].
    split; [done|]. by eapply trySubscription_kind.
Qed.

Lemma subscription_first_choice quota w ri s st :
  NewBillingSession quota (w, ri) = (Ok s, st) ->
  NormalizeBillingPreference ri.(ri_BillingPreference) = "subscription_first"%string ->
  let v := choice_view w in
  (active_sub ri.(ri_UserId) v /\ is_wallet s.(b_funding) = false) \/
  (~ active_sub ri.(ri_UserId) v /\ is_wallet s.(b_funding) = true) \/
  (active_sub ri.(ri_UserId) v /\ ~ strict_sub ri.(ri_UserId) v /\ is_wallet s.(b_funding) = true /\
     exists w1 e st1, choice_view w1 = v /\ trySubscription quota (w1, ri) = (Err e, st1) /\ insufficient e).
Proof.
  intros H Hp v. unfold NewBillingSession in H.
  apply bind_inv in H as [(x & ? & Hx & H)|(? & Hx & _)]; [|done]. injection Hx as <- <-. cbn [snd] in H.
  rewrite Hp in H. simpl in H. apply bind_inv in H as [(has & st1 & Hx & H)|(? & _ & [=])].
  apply or_error_lift in Hx as (r0 & w1 & Hx & -> & Hr). destruct r0 as [b|]; [|done]. injection Hr as ->.
  apply (HasActive_view _ v) in Hx as [Hv Hb]; [|done]. destruct b; simpl in H.
  2:{ right. left. split; [by intros Ha%Hb|]. by eapply tryWallet_kind. }
  assert (active_sub (ri_UserId ri) v) as Ha by by apply Hb.
  apply bind_inv in H as [(r & [w2 ri2] & Hx & H)|(? & _ & [=])]. unfold attempt in Hx.
  destruct (trySubscription quota (w1, ri)) as [r1 [w3 ri3]] eqn:E. injection Hx as <- <- <-. destruct r1 as [s1|e].
  { injection H as <- _. left. split; [done|]. by eapply trySubscription_kind. }
  pose proof (trySubscription_err _ _ _ _ _ _ _ E Hv) as Hv3.
  destruct (bool_decide_reflect (ae_code e = ErrorCodeInsufficientUserQuota)); [|done].
  apply bind_inv in H as [(allow & st1 & Hx & H)|(? & _ & [=])].
  apply or_error_lift in Hx as (r0 & w4 & Hx & -> & Hr). destruct r0 as [b|]; [|done]. injection Hr as ->.
  destruct b; [|done]. right. right. split_and!; [done| |by eapply tryWallet_kind|exists w1, e; eauto].
  intros Hs. by pose proof (AllowOverflow_strict _ _ _ _ _ Hx Hv3 Hs).
Qed.

(** C8. The billing preference is respected under every pattern of faults.  A session
    that is opened is paid,
    with wallet_only, by the wallet, and with subscription_only by a subscription;
    with wallet_first, by the wallet if the attempt on the wallet succeeds, and by a
    subscription only if that attempt failed for lack of quota;
    with subscription_first, which every unknown value means too: by the wallet if the
    user has no active subscription; if there is one, by a subscription, unless the
    attempt on the subscriptions failed for lack of quota and no active subscription
    forbids wallet overflow.  (The flag against overflow binds subscription_first only:
    the user who chose wallet_first or wallet_only pays from the wallet.) *)
Theorem billing_preference_respected quota w ri s st :
  NewBillingSession quota (w, ri) = (Ok s, st) ->
  let pref := NormalizeBillingPreference ri.(ri_BillingPreference) in
  let v := choice_view w in
  (pref = "wallet_only"%string -> is_wallet s.(b_funding) = true) /\
  (pref = "subscription_only"%string -> is_wallet s.(b_funding) = false) /\
  (pref = "wallet_first"%string ->
     match tryWallet quota (w, ri) with
     | (Ok s0, _) => s = s0 /\ is_wallet s.(b_funding) = true
     | (Err e, _) => insufficient e /\ is_wallet s.(b_funding) = false
     end) /\
  (pref = "subscription_first"%string ->
     (~ active_sub ri.(ri_UserId) v -> is_wallet s.(b_funding) = true) /\
     (strict_sub ri.(ri_UserId) v -> is_wallet s.(b_funding) = false) /\
     (active_sub ri.(ri_UserId) v -> is_wallet s.(b_funding) = true ->
        exists w1 e st1, choice_view w1 = v /\ trySubscription quota (w1, ri) = (Err e, st1) /\ insufficient e)).
Proof.
  intros H pref v. split_and!; intros Hp; [..|by apply (wallet_first_choice _ _ _ _ st)|].
  1,2: unfold NewBillingSession in H; apply bind_inv in H as [(x & ? & Hx & H)|(? & Hx & _)]; [|done];
    injection Hx as <- <-; cbn [snd] in H; fold pref in H; rewrite Hp in H; simpl in H;
    [by eapply tryWallet_kind || by eapply trySubscription_kind].
  assert (strict_sub (ri_UserId ri) v -> active_sub (ri_UserId ri) v) as Hsa
    by (intros (id & sub & H1 & H2 & _); by exists id, sub).
  destruct (subscription_first_choice _ _ _ _ _ H Hp) as [[Ha ->]|[[Ha ->]|(Ha & Hns & -> & He)]]; split_and!; try done; auto.
  intros Hs. by apply Hsa in Hs.
Qed.

(** A user with money in the wallet and a strict subscription of 100, 30 used. *)
Definition strict_sample : UserSubscription :=
  mkUserSubscription 5 7 1 100 30 1700000000 1800000000 "active" "order" 0 0 "" "" "" false 1700000000.
Definition strict_world : World :=
  with_token (sample_token 3 7 "k" 1000) (with_sub strict_sample (with_plan (sample_plan 1 100 "never")
    (with_user (sample_user 7 1000) (empty_world (sample_config false false))))).
Definition default_relay : RelayInfo :=
  mkRelayInfo 7 3 "k" false false false 0 "req-1" "" 0 false 0 false 0 "" 0 0 0 0 0 0 "".

Lemma billing_preference_respected_witness :
  exists s st, NewBillingSession 50 (strict_world, default_relay) = (Ok s, st) /\
    wallet st.1 7 = 1000 /\ is_wallet s.(b_funding) = false.
Proof.
  pose proof (run_eq (NewBillingSession 50) (strict_world, default_relay)) as Hr.
  assert (exists s, eval (NewBillingSession 50) (strict_world, default_relay) = Ok s) as [s E]
    by (eexists; vm_compute; reflexivity).
  rewrite E in Hr. exists s, (exec (NewBillingSession 50) (strict_world, default_relay)). split; [exact Hr|].
  split; [vm_compute; reflexivity|].
  destruct (billing_preference_respected _ _ _ _ _ Hr) as (_ & _ & _ & H). apply H; [reflexivity|].
  exists 5, strict_sample. split; [reflexivity|]. split; [vm_compute; reflexivity|reflexivity].
Defined.
