(* ===== verification/Credit.v ===== *)
(** * Crediting a wallet (model/topup.go)

    What top-up orders and redemption codes share: the conditional UPDATE that adds
    to a wallet under its ceiling, and the argument that a sequence of calls credits
    each key at most once. *)

From stdpp Require Import base tactics numbers list gmap strings.
From Stdlib Require Import ZArith Lia.
From S2P Require Import Prelude QuotaMath World UserCache QuotaStore Reserve.
Open Scope Z_scope.

(** [if err := c; err != nil { return e }] *)
Definition relabel {A} (c : MW A) (e : error) : MW A :=
  let! r := catch c in
  match r with Ok a => ret a | Err _ => throw e end.

(** ** Crediting a wallet *)

Definition topUpQuotaMaxCurrent (creditedQuota : Z) : result error Z :=
  if (creditedQuota <=? 0) || (MaxWalletQuota <? creditedQuota) then Err ErrInvalidTopUpQuota
  else Ok (MaxWalletQuota - creditedQuota).

Definition ValidateTopUpQuotaCapacity (userId creditedQuota : Z) : MW unit :=
  let! maxCurrentQuota := of_result (topUpQuotaMaxCurrent creditedQuota) in
  let! user := first_user userId in
  if maxCurrentQuota <? user.(u_Quota) then throw ErrTopUpQuotaLimitExceeded else ret tt.

(** [updates]: the other columns the same UPDATE writes. *)
Definition creditTopUpQuota (userId creditedQuota : Z) (updates : User -> User) : MW unit :=
  let! maxCurrentQuota := of_result (topUpQuotaMaxCurrent creditedQuota) in
  let! n := update_user userId (fun u => u.(u_Quota) <=? maxCurrentQuota)
              (fun u => updates (set_u_Quota (fun q => q + creditedQuota) u)) in
  if n =? 1 then ret tt
  else
    let! count := count_user userId in
    if count =? 0 then throw ErrRecordNotFound else throw ErrTopUpQuotaLimitExceeded.

Lemma relabel_Ok {A} (c : MW A) e w a w' : relabel c e w = (Ok a, w') -> c w = (Ok a, w').
Proof. unfold relabel, bind, catch. destruct (c w) as [[x|] w1]; intros H; [by simplify_eq/=|done]. Qed.
Lemma relabel_Err {A} (c : MW A) e w e' w' : relabel c e w = (Err e', w') -> exists e0, c w = (Err e0, w').
Proof. unfold relabel, bind, catch. destruct (c w) as [[x|] w1]; intros H; [done|]. injection H as _ <-. eauto. Qed.

(** Same tables, same configuration. *)
Definition still (w w' : World) : Prop := w'.(w_db) = w.(w_db) /\ w'.(w_cfg) = w.(w_cfg).

Lemma same_still w w' : same_but_faults w w' -> still w w'.
Proof. by intros [fs ->]. Qed.
Lemma stmt_still w r w' : stmt w = (r, w') -> still w w'.
Proof. intros H. by apply stmt_same, same_still in H. Qed.
Lemma ledger_still w w' : ledger w' = ledger w -> still w w'.
Proof. unfold ledger, still. by intros [= -> _ ->]. Qed.
Lemma still_refl w : still w w.
Proof. done. Qed.
Lemma still_trans w1 w2 w3 : still w1 w2 -> still w2 w3 -> still w1 w3.
Proof. unfold still. intuition congruence. Qed.

Lemma creditTopUpQuota_Ok id q f w w' :
  creditTopUpQuota id q f w = (Ok tt, w') ->
  w'.(w_cfg) = w.(w_cfg) /\ 0 < q /\ exists u, visible_user w.(w_db) id = Some u /\ u.(u_Quota) + q <= MaxWalletQuota /\
    w'.(w_db) = set_users (insert id (f (set_u_Quota (fun x => x + q) u))) w.(w_db).
Proof.
  unfold creditTopUpQuota, topUpQuotaMaxCurrent. intros H.
  destruct ((q <=? 0) || (MaxWalletQuota <? q)) eqn:Hq; [done|]. apply orb_false_iff in Hq as [Hq _].
  apply bind_Ok in H as (max & w0 & Hm & H). injection Hm as <- <-. apply bind_Ok in H as (n & w1 & H1 & H).
  unfold update_user, bind, gets in H1.
  destruct (stmt w) as [[[]|e] w2] eqn:H2; apply stmt_still in H2 as [E1 E2]; [|done]. rewrite E1 in H1.
  destruct (visible_user (w_db w) id) as [u|] eqn:Hu.
  - destruct (Z.leb_spec (u_Quota u) (MaxWalletQuota - q)) as [Hle|Hgt].
    + unfold modify_db, modify, ret in H1. injection H1 as <- <-. injection H as <-. simpl. rewrite E1.
      split; [done|]. split; [lia|]. exists u. split_and!; [done|lia|done].
    + injection H1 as <- <-. monad_cases; done.
  - injection H1 as <- <-. monad_cases; done.
Qed.

(** Writing other columns keeps the balance. *)
Definition keeps_account (f : User -> User) : Prop :=
  forall u, (f u).(u_Quota) = u.(u_Quota) /\ (f u).(u_Deleted) = u.(u_Deleted).

Record Credit := mkCredit { cr_Key : string; cr_UserId : Z; cr_Quota : Z }.

Definition credited_to (id : Z) (cs : list Credit) : Z :=
  foldr (fun c z => (if c.(cr_UserId) =? id then c.(cr_Quota) else 0) + z) 0 cs.

Definition quota_of (d : DB) (id : Z) : Z := user_column u_Quota d id.


(** ** Sequences of calls *)

(** One wallet grew by the credit, under its ceiling. *)
Definition users_credited (c : Credit) (d d' : DB) : Prop :=
  forall id, quota_of d' id = quota_of d id + (if c.(cr_UserId) =? id then c.(cr_Quota) else 0) /\
    (quota_of d id <= MaxWalletQuota -> quota_of d' id <= MaxWalletQuota).

Lemma users_credited_update id u q f d d0 :
  visible_user d id = Some u -> u.(u_Quota) + q <= MaxWalletQuota -> keeps_account f -> d0.(users) = d.(users) ->
  forall key, users_credited (mkCredit key id q) d (set_users (insert id (f (set_u_Quota (fun x => x + q) u))) d0).
Proof.
  intros Hu Hle Hf Ed0 key id'. destruct (Hf (set_u_Quota (fun x => x + q) u)) as [Eq Ed]. simpl in Eq, Ed. simpl.
  assert (forall i, visible_user d0 i = visible_user d i) as Ev by (intros i; unfold visible_user; by rewrite Ed0).
  unfold quota_of, user_column.
  rewrite (visible_user_insert d0 id u (fun u => f (set_u_Quota (fun x => x + q) u))) by (by rewrite ?Ev).
  rewrite Ev. case_decide as E.
  - rewrite E in *. rewrite Z.eqb_refl, Hu, Eq. lia.
  - destruct (Z.eqb_spec id id'); [done|]. rewrite Z.add_0_r. done.
Qed.

Section at_most_once.
Context {C : Type} (run : C -> MW unit) (ok : C -> Prop) (wf : World -> Prop) (due : World -> Credit -> Prop).

Definition run_all (calls : list C) (w : World) : World := foldl (fun w c => exec (run c) w) w calls.

(** A call credits one key that was due and is not any more, or nothing; it never
    makes another key due. *)
Definition call_effect (w w' : World) : Prop :=
  (exists c, due w c /\ users_credited c w.(w_db) w'.(w_db) /\ forall c', due w' c' -> due w c' /\ c'.(cr_Key) <> c.(cr_Key)) \/
  (w'.(w_db).(users) = w.(w_db).(users) /\ forall c', due w' c' -> due w c').

Context (run_ok : forall c w r w', ok c -> wf w -> run c w = (r, w') -> wf w' /\ call_effect w w').

Lemma credited_at_most_once calls w :
  Forall ok calls -> wf w ->
  let w' := run_all calls w in
  exists cs, NoDup (cr_Key <$> cs) /\ Forall (due w) cs /\
    (forall id, quota_of w'.(w_db) id = quota_of w.(w_db) id + credited_to id cs) /\
    (forall id, quota_of w.(w_db) id <= MaxWalletQuota -> quota_of w'.(w_db) id <= MaxWalletQuota).
Proof using All.
  revert w. induction calls as [|c calls IH]; intros w Hok Hwf; simpl.
  { exists []. simpl. split_and!; [constructor|constructor|intros; lia|done]. }
  apply Forall_cons in Hok as [Hc Hok]. destruct (run c w) as [r w1] eqn:E. rewrite (exec_eq _ _ _ _ E).
  destruct (run_ok _ _ _ _ Hc Hwf E) as [Hwf1 [(x & Hx & Hq & Hb)|[Hq Hb]]];
    destruct (IH w1 Hok Hwf1) as (cs & H1 & H2 & H3 & H4).
  - exists (x :: cs). simpl. split_and!.
    + constructor; [|done]. intros Hin. apply list_elem_of_fmap in Hin as (y & Ey & Hy).
      rewrite Forall_forall in H2. apply H2, Hb in Hy as [_ Hy]. congruence.
    + constructor; [done|]. eapply Forall_impl; [exact H2|]. intros y Hy. by apply Hb.
    + intros id. rewrite H3. destruct (Hq id) as [-> _]. lia.
    + intros id Hid. apply H4. by apply Hq.
  - assert (forall id, quota_of (w_db w1) id = quota_of (w_db w) id) as Eq
      by (intros id; unfold quota_of, user_column, visible_user; by rewrite Hq).
    exists cs. split_and!; [done| |intros id; by rewrite H3, Eq|intros id; rewrite <- Eq; apply H4].
    eapply Forall_impl; [exact H2|]. intros y. apply Hb.
Qed.
End at_most_once.
