(* ===== verification/TopUp.v ===== *)
(** * Top-up orders (model/topup.go)

    A top-up order is created before the customer pays; the payment provider's
    callback (or an administrator) completes it, in one database transaction that
    marks the order paid and credits the wallet.  Callbacks arrive duplicated,
    reordered and concurrently; the order row is locked, so the transactions on one
    order are serialised and the model runs calls one after the other. *)

From stdpp Require Import base tactics numbers list gmap strings.
From Stdlib Require Import ZArith Lia.
From S2P Require Import Prelude Float64 QuotaMath DecimalQ World UserCache QuotaStore Reserve Subscription Credit.
Open Scope Z_scope.

Definition PaymentProviderEpay : string := "epay".
Definition PaymentProviderStripe : string := "stripe".
Definition PaymentProviderCreem : string := "creem".
Definition PaymentProviderWaffo : string := "waffo".
Definition PaymentProviderWaffoPancake : string := "waffo_pancake".

Definition missing_trade_no : error := ErrMsg "未提供支付单号".
Definition order_missing : error := ErrMsg "充值订单不存在".
Definition order_status_wrong : error := ErrMsg "充值订单状态错误".
Definition recharge_failed : error := ErrMsg "充值失败，请稍后重试".

(** ** Orders *)

(** [DB.Create(topUp)]: the trade number is unique. *)
Definition TopUp_Insert (topUp : TopUp) : MW unit :=
  stmt ;;
  let! row := gets (fun w => w.(w_db).(topups) !! topUp.(tu_TradeNo)) in
  match row with
  | Some _ => throw ErrDB
  | None => modify_db (set_topups (insert topUp.(tu_TradeNo) topUp))
  end.
Definition TopUp_Update (topUp : TopUp) : MW unit := save_topup topUp.

Definition GetTopUpByTradeNo (tradeNo : string) : MW (option TopUp) :=
  let! r := catch (first_topup tradeNo) in
  ret (match r with Ok t => Some t | Err _ => None end).

Definition UpdatePendingTopUpStatus (tradeNo expectedPaymentProvider targetStatus : string) : MW unit :=
  if String.eqb tradeNo "" then throw missing_trade_no
  else
    Transaction (
      let! topUp := relabel (first_topup tradeNo) ErrTopUpNotFound in
      if negb (String.eqb expectedPaymentProvider "") && negb (String.eqb topUp.(tu_PaymentProvider) expectedPaymentProvider)
      then throw ErrPaymentMethodMismatch
      else if negb (String.eqb topUp.(tu_Status) TopUpStatusPending) then throw ErrTopUpStatusInvalid
      else save_topup (set_tu_Status (fun _ => targetStatus) topUp)).

(** [topUp.CompleteTime = now; topUp.Status = success; tx.Save(topUp)] *)
Definition mark_success (topUp : TopUp) : MW unit :=
  let! now := GetTimestamp in
  save_topup (set_tu_Status (fun _ => TopUpStatusSuccess) (set_tu_CompleteTime (fun _ => now) topUp)).

Section recharge.
Context {D : Decimal}.

(** The three ways the code turns an order into quota. *)
Definition usd_quota (unit : float64) (t : TopUp) : result QuotaClamp Z :=
  WalletQuotaFromDecimalStrict (d_Mul (NewFromInt t.(tu_Amount)) (NewFromFloat unit)).
Definition money_quota (unit : float64) (t : TopUp) : result QuotaClamp Z :=
  WalletQuotaFromDecimalStrict (d_Mul (NewFromFloat t.(tu_Money)) (NewFromFloat unit)).
Definition raw_quota (t : TopUp) : result QuotaClamp Z :=
  WalletQuotaFromDecimalStrict (NewFromInt t.(tu_Amount)).

(** [if err != nil || quota <= 0 { return ErrInvalidTopUpQuota }] *)
Definition positive_quota (r : result QuotaClamp Z) : MW Z :=
  match r with
  | Ok q => if q <=? 0 then throw ErrInvalidTopUpQuota else ret q
  | Err _ => throw ErrInvalidTopUpQuota
  end.

(** The body of the transaction; [None]: the order was completed before. *)
Definition recharge_epay_tx (tradeNo actualPaymentMethod : string) : MW (option (Z * Z)) :=
  let! topUp := relabel (first_topup tradeNo) ErrTopUpNotFound in
  if negb (String.eqb topUp.(tu_PaymentProvider) PaymentProviderEpay) then throw ErrPaymentMethodMismatch
  else if String.eqb topUp.(tu_Status) TopUpStatusSuccess then ret None
  else if negb (String.eqb topUp.(tu_Status) TopUpStatusPending) then throw ErrTopUpStatusInvalid
  else
    let topUp :=
      if negb (String.eqb actualPaymentMethod "") && negb (String.eqb topUp.(tu_PaymentMethod) actualPaymentMethod)
      then set_tu_PaymentMethod (fun _ => actualPaymentMethod) topUp else topUp in
    let! unit := cfg QuotaPerUnit in
    let! quotaToAdd := positive_quota (usd_quota unit topUp) in
    mark_success topUp ;;
    creditTopUpQuota topUp.(tu_UserId) quotaToAdd id ;;
    ret (Some (topUp.(tu_UserId), quotaToAdd)).

(** The steps after a commit. *)
Definition after_credit (userId quota : Z) : MW unit :=
  syncCreditUserQuotaCache userId quota ;;
  RecordLog userId LogTypeTopup quota.

Definition RechargeEpay (tradeNo actualPaymentMethod : string) : MW bool :=
  if String.eqb tradeNo "" then throw missing_trade_no
  else
    let! r := Transaction (recharge_epay_tx tradeNo actualPaymentMethod) in
    match r with
    | None => ret true
    | Some (userId, quotaToAdd) => after_credit userId quotaToAdd ;; ret false
    end.

Definition recharge_stripe_tx (referenceId customerId : string) : MW (Z * Z) :=
  let! topUp := relabel (first_topup referenceId) order_missing in
  if negb (String.eqb topUp.(tu_PaymentProvider) PaymentProviderStripe) then throw ErrPaymentMethodMismatch
  else if negb (String.eqb topUp.(tu_Status) TopUpStatusPending) then throw order_status_wrong
  else
    mark_success topUp ;;
    let! unit := cfg QuotaPerUnit in
    let! quota := positive_quota (money_quota unit topUp) in
    creditTopUpQuota topUp.(tu_UserId) quota (set_u_StripeCustomer (fun _ => customerId)) ;;
    ret (topUp.(tu_UserId), quota).

(** model.Recharge *)
Definition Recharge (referenceId customerId : string) : MW unit :=
  if String.eqb referenceId "" then throw missing_trade_no
  else
    let! r := relabel (Transaction (recharge_stripe_tx referenceId customerId)) recharge_failed in
    after_credit r.1 r.2.

Definition recharge_creem_tx (referenceId customerEmail : string) : MW (Z * Z) :=
  let! topUp := relabel (first_topup referenceId) order_missing in
  if negb (String.eqb topUp.(tu_PaymentProvider) PaymentProviderCreem) then throw ErrPaymentMethodMismatch
  else if negb (String.eqb topUp.(tu_Status) TopUpStatusPending) then throw order_status_wrong
  else
    mark_success topUp ;;
    let! quota := positive_quota (raw_quota topUp) in
    let! updates :=
      (if String.eqb customerEmail "" then ret id
       else
         let! user := first_user topUp.(tu_UserId) in
         ret (if String.eqb user.(u_Email) "" then set_u_Email (fun _ => customerEmail) else id)) in
    creditTopUpQuota topUp.(tu_UserId) quota updates ;;
    ret (topUp.(tu_UserId), quota).

Definition RechargeCreem (referenceId customerEmail : string) : MW unit :=
  if String.eqb referenceId "" then throw missing_trade_no
  else
    let! r := relabel (Transaction (recharge_creem_tx referenceId customerEmail)) recharge_failed in
    after_credit r.1 r.2.

(** RechargeWaffo and RechargeWaffoPancake differ in the provider only. *)
Definition recharge_waffo_tx (provider tradeNo : string) : MW (Z * Z) :=
  let! topUp := relabel (first_topup tradeNo) order_missing in
  if negb (String.eqb topUp.(tu_PaymentProvider) provider) then throw ErrPaymentMethodMismatch
  else if String.eqb topUp.(tu_Status) TopUpStatusSuccess then ret (topUp.(tu_UserId), 0)
  else if negb (String.eqb topUp.(tu_Status) TopUpStatusPending) then throw order_status_wrong
  else
    let! unit := cfg QuotaPerUnit in
    let! quotaToAdd := positive_quota (usd_quota unit topUp) in
    mark_success topUp ;;
    creditTopUpQuota topUp.(tu_UserId) quotaToAdd id ;;
    ret (topUp.(tu_UserId), quotaToAdd).

Definition RechargeWaffo (tradeNo : string) : MW unit :=
  if String.eqb tradeNo "" then throw missing_trade_no
  else
    let! r := relabel (Transaction (recharge_waffo_tx PaymentProviderWaffo tradeNo)) recharge_failed in
    syncCreditUserQuotaCache r.1 r.2 ;;
    if 0 <? r.2 then RecordLog r.1 LogTypeTopup r.2 else ret tt.

Definition RechargeWaffoPancake (tradeNo : string) : MW unit :=
  if String.eqb tradeNo "" then throw missing_trade_no
  else
    let! r := relabel (Transaction (recharge_waffo_tx PaymentProviderWaffoPancake tradeNo)) recharge_failed in
    syncCreditUserQuotaCache r.1 r.2 ;;
    if 0 <? r.2 then RecordLog r.1 LogTypeTopup r.2 else ret tt.

(** An order that is already paid leaves [userId] and [quotaToAdd] zero. *)
Definition manual_complete_tx (tradeNo : string) : MW (Z * Z) :=
  let! topUp := relabel (first_topup tradeNo) order_missing in
  if String.eqb topUp.(tu_Status) TopUpStatusSuccess then ret (0, 0)
  else if negb (String.eqb topUp.(tu_Status) TopUpStatusPending) then throw (ErrMsg "订单状态不是待支付，无法补单")
  else
    let! unit := cfg QuotaPerUnit in
    let! quotaToAdd :=
      positive_quota (if String.eqb topUp.(tu_PaymentProvider) PaymentProviderStripe
                      then money_quota unit topUp else usd_quota unit topUp) in
    mark_success topUp ;;
    creditTopUpQuota topUp.(tu_UserId) quotaToAdd id ;;
    ret (topUp.(tu_UserId), quotaToAdd).

Definition ManualCompleteTopUp (tradeNo : string) : MW unit :=
  if String.eqb tradeNo "" then throw (ErrMsg "未提供订单号")
  else
    let! r := Transaction (manual_complete_tx tradeNo) in
    after_credit r.1 r.2.
End recharge.

(** ** What one call does to the tables *)

Lemma first_topup_Ok t w o w' :
  first_topup t w = (Ok o, w') -> still w w' /\ w.(w_db).(topups) !! t = Some o.
Proof.
  unfold first_topup, bind, gets. destruct (stmt w) as [[[]|e] w1] eqn:H1; apply stmt_still in H1 as [E1 E2]; [|done].
  rewrite E1. destruct (topups (w_db w) !! t) as [o'|]; [|done]. intros H. injection H as <- <-. done.
Qed.

Lemma save_topup_Ok t w w' :
  save_topup t w = (Ok tt, w') -> w'.(w_db) = set_topups (insert t.(tu_TradeNo) t) w.(w_db) /\ w'.(w_cfg) = w.(w_cfg).
Proof.
  unfold save_topup, bind, modify_db, modify. destruct (stmt w) as [[[]|e] w1] eqn:H1; apply stmt_still in H1 as [E1 E2]; [|done].
  intros H. injection H as <-. simpl. by rewrite E1.
Qed.

Lemma mark_success_Ok t w w' :
  mark_success t w = (Ok tt, w') ->
  w'.(w_cfg) = w.(w_cfg) /\ exists t', w'.(w_db) = set_topups (insert t.(tu_TradeNo) t') w.(w_db) /\
    t'.(tu_TradeNo) = t.(tu_TradeNo) /\ t'.(tu_Status) = TopUpStatusSuccess /\ t'.(tu_UserId) = t.(tu_UserId).
Proof. unfold mark_success, GetTimestamp, gets, bind. intros H. apply save_topup_Ok in H as [-> ->]. split; [done|]. by eexists. Qed.

(** Each row is stored under its own trade number (the column is unique). *)
Definition topups_wf (d : DB) : Prop := forall t o, d.(topups) !! t = Some o -> o.(tu_TradeNo) = t.

Section outcome.
Context {D : Decimal}.

(** The quota an order is worth: a Stripe order its money, a Creem order the quota
    it names, any other order its amount of dollars.  An administrator who completes
    a Creem order by hand has its amount taken for dollars. *)
Definition order_worth (by_hand : bool) (unit : float64) (o : TopUp) : result QuotaClamp Z :=
  if String.eqb o.(tu_PaymentProvider) PaymentProviderStripe then money_quota unit o
  else if String.eqb o.(tu_PaymentProvider) PaymentProviderCreem && negb by_hand then raw_quota o
  else usd_quota unit o.

(** One wallet is credited [q] for the pending order [t], which becomes paid; no
    other row changes; the wallet stays under its ceiling. *)
Definition credits (by_hand : bool) (unit : float64) (t : string) (uid q : Z) (d d' : DB) : Prop :=
  exists o o' u f,
    d.(topups) !! t = Some o /\ o.(tu_Status) = TopUpStatusPending /\ o.(tu_UserId) = uid /\ order_worth by_hand unit o = Ok q /\ 0 < q /\
    visible_user d uid = Some u /\ u.(u_Quota) + q <= MaxWalletQuota /\ keeps_account f /\
    o'.(tu_TradeNo) = t /\ o'.(tu_Status) = TopUpStatusSuccess /\
    d' = set_users (insert uid (f (set_u_Quota (fun x => x + q) u))) (set_topups (insert t o') d).

Lemma positive_quota_Ok r w q w' : positive_quota r w = (Ok q, w') -> w' = w /\ r = Ok q.
Proof. unfold positive_quota. destruct r as [z|]; [|done]. destruct (z <=? 0); [done|]. intros H. by injection H as <- <-. Qed.

(** The last two steps of every completion. *)
Lemma mark_credit_Ok b unit t o o0 q f w w1 w2 w3 :
  w.(w_db).(topups) !! t = Some o -> o.(tu_Status) = TopUpStatusPending -> order_worth b unit o = Ok q ->
  o0.(tu_UserId) = o.(tu_UserId) -> o0.(tu_TradeNo) = t -> keeps_account f ->
  mark_success o0 w = (Ok tt, w1) -> still w1 w2 -> creditTopUpQuota o0.(tu_UserId) q f w2 = (Ok tt, w3) ->
  credits b unit t o.(tu_UserId) q w.(w_db) w3.(w_db).
Proof using All.
  intros Ho Hs Hw Eu Et Hf H1 [E1 _] H2. apply mark_success_Ok in H1 as (_ & o' & Ed & Et' & Es & _).
  rewrite Eu in H2. apply creditTopUpQuota_Ok in H2 as (_ & Hq & u & Hu & Hle & Ed').
  rewrite E1, Ed in Hu, Ed'. rewrite Et in *. exists o, o', u, f. split_and!; done.
Qed.

Lemma recharge_epay_tx_Ok t m w r w' :
  recharge_epay_tx t m w = (Ok r, w') -> topups_wf w.(w_db) ->
  match r with
  | None => w'.(w_db) = w.(w_db)
  | Some (uid, q) => credits false w.(w_cfg).(QuotaPerUnit) t uid q w.(w_db) w'.(w_db)
  end.
Proof using All.
  intros H Hwf. unfold recharge_epay_tx in H. apply bind_Ok in H as (o & w1 & H1 & H).
  apply relabel_Ok, first_topup_Ok in H1 as [[E1 E2] Ho].
  destruct (String.eqb_spec (tu_PaymentProvider o) PaymentProviderEpay) as [Hp|]; simpl in H; [|done].
  destruct (String.eqb (tu_Status o) TopUpStatusSuccess); [by injection H as <- <-|].
  destruct (String.eqb_spec (tu_Status o) TopUpStatusPending) as [Hs|]; simpl in H; [|done].
  set (o0 := if _ && _ then _ else o) in H.
  assert (tu_UserId o0 = tu_UserId o /\ tu_TradeNo o0 = tu_TradeNo o /\ tu_Amount o0 = tu_Amount o) as (F1 & F2 & F3)
    by (unfold o0; by destruct (_ && _)).
  apply bind_Ok in H as (un & w2 & H2 & H). injection H2 as <- <-. rewrite E2 in H.
  apply bind_Ok in H as (q & w2 & H2 & H). apply positive_quota_Ok in H2 as [-> Hq].
  apply bind_Ok in H as ([] & w3 & H3 & H). apply bind_Ok in H as ([] & w4 & H4 & H). injection H as <- <-.
  rewrite F1, <- E1. eapply mark_credit_Ok; [by rewrite E1|done| |done| | |exact H3|apply still_refl|exact H4].
  - unfold order_worth. rewrite Hp. simpl. unfold usd_quota in *. by rewrite <- F3.
  - rewrite F2. by apply Hwf in Ho.
  - done.
Qed.

(** Reads the locked order of a completion. *)
Ltac read_order H o w1 E1 E2 Ho :=
  apply bind_Ok in H as (o & w1 & ?H & H);
  match goal with H1 : relabel _ _ _ = _ |- _ => apply relabel_Ok, first_topup_Ok in H1 as [[E1 E2] Ho] end.

Lemma recharge_stripe_tx_Ok t cu w uid q w' :
  recharge_stripe_tx t cu w = (Ok (uid, q), w') -> topups_wf w.(w_db) ->
  credits false w.(w_cfg).(QuotaPerUnit) t uid q w.(w_db) w'.(w_db).
Proof using All.
  intros H Hwf. unfold recharge_stripe_tx in H. read_order H o w1 E1 E2 Ho.
  destruct (String.eqb_spec (tu_PaymentProvider o) PaymentProviderStripe) as [Hp|]; simpl in H; [|done].
  destruct (String.eqb_spec (tu_Status o) TopUpStatusPending) as [Hs|]; simpl in H; [|done].
  apply bind_Ok in H as ([] & w2 & H2 & H). apply bind_Ok in H as (un & w3 & H3 & H). injection H3 as <- <-.
  pose proof (mark_success_Ok _ _ _ H2) as [E3 _]. rewrite E3, E2 in H.
  apply bind_Ok in H as (q' & w3 & H3 & H). apply positive_quota_Ok in H3 as [-> Hq].
  apply bind_Ok in H as ([] & w4 & H4 & H). injection H as <- <- <-.
  rewrite <- E1. eapply mark_credit_Ok; [by rewrite E1|done| |done|by apply Hwf in Ho| |exact H2|apply still_refl|exact H4].
  - unfold order_worth. by rewrite Hp.
  - done.
Qed.

Lemma recharge_creem_tx_Ok t em w uid q w' :
  recharge_creem_tx t em w = (Ok (uid, q), w') -> topups_wf w.(w_db) ->
  credits false w.(w_cfg).(QuotaPerUnit) t uid q w.(w_db) w'.(w_db).
Proof using All.
  intros H Hwf. unfold recharge_creem_tx in H. read_order H o w1 E1 E2 Ho.
  destruct (String.eqb_spec (tu_PaymentProvider o) PaymentProviderCreem) as [Hp|]; simpl in H; [|done].
  destruct (String.eqb_spec (tu_Status o) TopUpStatusPending) as [Hs|]; simpl in H; [|done].
  apply bind_Ok in H as ([] & w2 & H2 & H). apply bind_Ok in H as (q' & w3 & H3 & H). apply positive_quota_Ok in H3 as [-> Hq].
  apply bind_Ok in H as (f & w3 & H3 & H). apply bind_Ok in H as ([] & w4 & H4 & H). injection H as <- <- <-.
  assert (still w2 w3 /\ keeps_account f) as [Hst Hf].
  { destruct (String.eqb em ""); [by injection H3 as <- <-|]. apply bind_Ok in H3 as (u & w5 & H5 & H3).
    quiet H5. injection H3 as <- <-. split; [by apply ledger_still|]. by destruct (String.eqb (u_Email u) ""). }
  rewrite <- E1. eapply mark_credit_Ok; [by rewrite E1|done| |done|by apply Hwf in Ho|exact Hf|exact H2|exact Hst|exact H4].
  unfold order_worth. by rewrite Hp.
Qed.

Lemma recharge_waffo_tx_Ok p t w uid q w' :
  recharge_waffo_tx p t w = (Ok (uid, q), w') -> topups_wf w.(w_db) -> p <> PaymentProviderStripe -> p <> PaymentProviderCreem ->
  w'.(w_db) = w.(w_db) \/ credits false w.(w_cfg).(QuotaPerUnit) t uid q w.(w_db) w'.(w_db).
Proof using All.
  intros H Hwf Hne Hnc. unfold recharge_waffo_tx in H. read_order H o w1 E1 E2 Ho.
  destruct (String.eqb_spec (tu_PaymentProvider o) p) as [Hp|]; simpl in H; [|done].
  destruct (String.eqb (tu_Status o) TopUpStatusSuccess); [injection H as <- <- <-; by left|].
  destruct (String.eqb_spec (tu_Status o) TopUpStatusPending) as [Hs|]; simpl in H; [|done]. right.
  apply bind_Ok in H as (un & w2 & H2 & H). injection H2 as <- <-. rewrite E2 in H.
  apply bind_Ok in H as (q' & w2 & H2 & H). apply positive_quota_Ok in H2 as [-> Hq].
  apply bind_Ok in H as ([] & w3 & H3 & H). apply bind_Ok in H as ([] & w4 & H4 & H). injection H as <- <- <-.
  rewrite <- E1. eapply mark_credit_Ok; [by rewrite E1|done| |done|by apply Hwf in Ho| |exact H3|apply still_refl|exact H4].
  - unfold order_worth. rewrite Hp. destruct (String.eqb_spec p PaymentProviderStripe); [done|].
    by destruct (String.eqb_spec p PaymentProviderCreem).
  - done.
Qed.

Lemma manual_complete_tx_Ok t w uid q w' :
  manual_complete_tx t w = (Ok (uid, q), w') -> topups_wf w.(w_db) ->
  w'.(w_db) = w.(w_db) \/ credits true w.(w_cfg).(QuotaPerUnit) t uid q w.(w_db) w'.(w_db).
Proof using All.
  intros H Hwf. unfold manual_complete_tx in H. read_order H o w1 E1 E2 Ho.
  destruct (String.eqb (tu_Status o) TopUpStatusSuccess); [injection H as <- <- <-; by left|].
  destruct (String.eqb_spec (tu_Status o) TopUpStatusPending) as [Hs|]; simpl in H; [|done]. right.
  apply bind_Ok in H as (un & w2 & H2 & H). injection H2 as <- <-. rewrite E2 in H.
  apply bind_Ok in H as (q' & w2 & H2 & H). apply positive_quota_Ok in H2 as [-> Hq].
  apply bind_Ok in H as ([] & w3 & H3 & H). apply bind_Ok in H as ([] & w4 & H4 & H). injection H as <- <- <-.
  rewrite <- E1. eapply mark_credit_Ok; [by rewrite E1|done| |done|by apply Hwf in Ho| |exact H3|apply still_refl|exact H4].
  - unfold order_worth. rewrite andb_false_r. by destruct (String.eqb _ _).
  - done.
Qed.

(** ** The calls a payment can receive *)

Inductive PaymentCall :=
| CallEpay (tradeNo actualPaymentMethod : string)
| CallStripe (referenceId customerId : string)
| CallCreem (referenceId customerEmail : string)
| CallWaffo (tradeNo : string)
| CallWaffoPancake (tradeNo : string)
| CallManual (tradeNo : string)
| CallUpdateStatus (tradeNo expectedPaymentProvider targetStatus : string).

Definition run_payment (c : PaymentCall) : MW unit :=
  match c with
  | CallEpay t m => RechargeEpay t m ;; ret tt
  | CallStripe t cu => Recharge t cu
  | CallCreem t em => RechargeCreem t em
  | CallWaffo t => RechargeWaffo t
  | CallWaffoPancake t => RechargeWaffoPancake t
  | CallManual t => ManualCompleteTopUp t
  | CallUpdateStatus t p s => UpdatePendingTopUpStatus t p s
  end.

(** A pending order gets another status, nothing else happens. *)
Definition closes (t : string) (d d' : DB) : Prop :=
  exists o o', d.(topups) !! t = Some o /\ o.(tu_Status) = TopUpStatusPending /\ o'.(tu_TradeNo) = t /\
    o'.(tu_UserId) = o.(tu_UserId) /\ o'.(tu_Amount) = o.(tu_Amount) /\ o'.(tu_Money) = o.(tu_Money) /\
    o'.(tu_PaymentProvider) = o.(tu_PaymentProvider) /\ d' = set_topups (insert t o') d.

(** [hand t]: the order [t] was completed by an administrator. *)
Definition payment_effect (hand : string -> Prop) (unit : float64) (d d' : DB) : Prop :=
  d' = d \/ (exists t, closes t d d') \/
  (exists b t uid q, credits b unit t uid q d d' /\ (b = true -> hand t)).

Lemma after_credit_still uid q w r w' : after_credit uid q w = (r, w') -> still w w'.
Proof. intros H. apply ledger_still. unfold after_credit in H. apply quiet_ledger in H; [done|]. solve_preserves. Qed.
Lemma waffo_tail_still (r0 : Z * Z) w r w' :
  (syncCreditUserQuotaCache r0.1 r0.2 ;; if 0 <? r0.2 then RecordLog r0.1 LogTypeTopup r0.2 else ret tt) w = (r, w') -> still w w'.
Proof. intros H. apply ledger_still. apply quiet_ledger in H; [done|]. solve_preserves. Qed.

Lemma tx_effect {A} hand (tx : MW A) w r w' :
  Transaction tx w = (r, w') -> topups_wf w.(w_db) ->
  (forall w1 a w2, tx w1 = (Ok a, w2) -> topups_wf w1.(w_db) -> payment_effect hand w1.(w_cfg).(QuotaPerUnit) w1.(w_db) w2.(w_db)) ->
  payment_effect hand w.(w_cfg).(QuotaPerUnit) w.(w_db) w'.(w_db).
Proof using All.
  intros H Hwf Htx. apply Transaction_inv in H as [(e & _ & ->)|(a & w1 & w2 & _ & H1 & H2 & H3)]; [by left|].
  apply same_still in H1 as [E1 E2]. apply same_still in H3 as [E3 _]. rewrite E3, <- E1, <- E2. eapply Htx; [done|]. by rewrite E1.
Qed.

(** A completion that reports failures under another name. *)
Lemma relabel_effect hand (tx : MW (Z * Z)) (tail : Z * Z -> MW unit) w r w' :
  (let! x := relabel (Transaction tx) recharge_failed in tail x) w = (r, w') -> topups_wf w.(w_db) ->
  (forall x w1 r1 w2, tail x w1 = (r1, w2) -> still w1 w2) ->
  (forall w1 a w2, tx w1 = (Ok a, w2) -> topups_wf w1.(w_db) -> payment_effect hand w1.(w_cfg).(QuotaPerUnit) w1.(w_db) w2.(w_db)) ->
  payment_effect hand w.(w_cfg).(QuotaPerUnit) w.(w_db) w'.(w_db).
Proof using All.
  intros H Hwf Htail Htx. apply bind_inv in H as [(x & w1 & H1 & H)|(e & H1 & _)].
  - apply relabel_Ok in H1. apply Htail in H as [-> _]. by eapply tx_effect.
  - apply relabel_Err in H1 as [e0 H1]. by eapply tx_effect.
Qed.

Lemma RechargeEpay_effect hand t m w r w' :
  RechargeEpay t m w = (r, w') -> topups_wf w.(w_db) -> payment_effect hand w.(w_cfg).(QuotaPerUnit) w.(w_db) w'.(w_db).
Proof using All.
  intros H Hwf. unfold RechargeEpay in H. destruct (String.eqb t ""); [injection H as _ <-; by left|].
  assert (forall w1 a w2, recharge_epay_tx t m w1 = (Ok a, w2) -> topups_wf (w_db w1) ->
    payment_effect hand (QuotaPerUnit (w_cfg w1)) (w_db w1) (w_db w2)) as Htx.
  { intros w1 a w2 H1 Hwf1. apply recharge_epay_tx_Ok in H1; [|done]. destruct a as [[uid q]|]; [|by left].
    right. right. exists false. naive_solver. }
  apply bind_inv in H as [(x & w1 & H1 & H)|(e & H1 & _)]; [|by eapply tx_effect].
  assert (still w1 w') as [-> _]; [|by eapply tx_effect].
  destruct x as [[uid q]|]; [|by injection H as _ <-].
  apply bind_inv in H as [([] & w2 & H2 & H)|(e & H2 & _)]; [injection H as _ <-|]; by apply after_credit_still in H2.
Qed.

Lemma UpdatePending_effect hand t p s w r w' :
  UpdatePendingTopUpStatus t p s w = (r, w') -> topups_wf w.(w_db) ->
  payment_effect hand w.(w_cfg).(QuotaPerUnit) w.(w_db) w'.(w_db).
Proof using All.
  intros H Hwf. unfold UpdatePendingTopUpStatus in H. destruct (String.eqb t ""); [injection H as _ <-; by left|].
  eapply tx_effect; [exact H|done|]. intros w1 [] w2 H1 Hwf1. read_order H1 o w3 E1 E2 Ho.
  destruct (_ && _); [done|]. destruct (String.eqb_spec (tu_Status o) TopUpStatusPending) as [Hs|]; simpl in H1; [|done].
  apply save_topup_Ok in H1 as [Ed _]. pose proof (Hwf1 _ _ Ho) as Et. simpl in Ed. rewrite Et, E1 in Ed.
  right. left. exists t. unfold closes. eexists o, _. split_and!; [done|done|..|exact Ed]; simpl; done.
Qed.

(** Only completing by hand counts as such. *)
Lemma run_payment_effect c w r w' :
  run_payment c w = (r, w') -> topups_wf w.(w_db) ->
  payment_effect (fun t => c = CallManual t) w.(w_cfg).(QuotaPerUnit) w.(w_db) w'.(w_db).
Proof using All.
  intros H Hwf. destruct c as [t m|t cu|t em|t|t|t|t p s]; simpl in H.
  - apply bind_inv in H as [(b & w1 & H1 & H)|(e & H1 & _)]; [injection H as _ <-|]; by eapply RechargeEpay_effect.
  - unfold Recharge in H. destruct (String.eqb t ""); [injection H as _ <-; by left|].
    eapply relabel_effect; [exact H|done|intros x; apply after_credit_still|].
    intros w1 [uid q] w2 H1 Hwf1. apply recharge_stripe_tx_Ok in H1; [|done]. right. right. exists false. naive_solver.
  - unfold RechargeCreem in H. destruct (String.eqb t ""); [injection H as _ <-; by left|].
    eapply relabel_effect; [exact H|done|intros x; apply after_credit_still|].
    intros w1 [uid q] w2 H1 Hwf1. apply recharge_creem_tx_Ok in H1; [|done]. right. right. exists false. naive_solver.
  - unfold RechargeWaffo in H. destruct (String.eqb t ""); [injection H as _ <-; by left|].
    eapply relabel_effect; [exact H|done|intros x; apply waffo_tail_still|].
    intros w1 [uid q] w2 H1 Hwf1. apply recharge_waffo_tx_Ok in H1 as [->|H1]; [by left| |done|done|done]. right. right. exists false. naive_solver.
  - unfold RechargeWaffoPancake in H. destruct (String.eqb t ""); [injection H as _ <-; by left|].
    eapply relabel_effect; [exact H|done|intros x; apply waffo_tail_still|].
    intros w1 [uid q] w2 H1 Hwf1. apply recharge_waffo_tx_Ok in H1 as [->|H1]; [by left| |done|done|done]. right. right. exists false. naive_solver.
  - unfold ManualCompleteTopUp in H. destruct (String.eqb t ""); [injection H as _ <-; by left|].
    assert (forall w1 a w2, manual_complete_tx t w1 = (Ok a, w2) -> topups_wf (w_db w1) ->
      payment_effect (fun t' => CallManual t = CallManual t') (QuotaPerUnit (w_cfg w1)) (w_db w1) (w_db w2)) as Htx.
    { intros w1 [uid q] w2 H1 Hwf1. apply manual_complete_tx_Ok in H1 as [->|H1]; [by left| |done]. right. right. exists true. naive_solver. }
    apply bind_inv in H as [(x & w1 & H1 & H)|(e & H1 & _)]; [|by eapply tx_effect].
    apply after_credit_still in H as [-> _]. by eapply tx_effect.
  - by eapply UpdatePending_effect.
Qed.

Lemma run_payment_cfg c w r w' : run_payment c w = (r, w') -> w'.(w_cfg) = w.(w_cfg).
Proof using All.
  intros H. assert (preserves (cfg_is (w_cfg w)) (run_payment c)) as Hp.
  { destruct c; simpl; unfold RechargeEpay, Recharge, RechargeCreem, RechargeWaffo, RechargeWaffoPancake, ManualCompleteTopUp,
      UpdatePendingTopUpStatus, recharge_epay_tx, recharge_stripe_tx, recharge_creem_tx, recharge_waffo_tx, manual_complete_tx,
      after_credit, relabel, mark_success, creditTopUpQuota, positive_quota, first_topup, save_topup, of_result; solve_preserves; done. }
  specialize (Hp w eq_refl). rewrite H in Hp. done.
Qed.
End outcome.

(** ** Sequences of calls *)

Section trace.
Context {D : Decimal}.

Definition run_payments : list PaymentCall -> World -> World := run_all run_payment.

(** A credit for an order that is pending, of what the order is worth; by hand only
    if an administrator's completion of this order is among the calls. *)
Definition due (calls : list PaymentCall) (w : World) (c : Credit) : Prop :=
  exists o, w.(w_db).(topups) !! c.(cr_Key) = Some o /\ o.(tu_Status) = TopUpStatusPending /\
    o.(tu_UserId) = c.(cr_UserId) /\ 0 < c.(cr_Quota) /\
    exists b, order_worth b w.(w_cfg).(QuotaPerUnit) o = Ok c.(cr_Quota) /\ (b = true -> CallManual c.(cr_Key) ∈ calls).

Lemma insert_wf t o d d' :
  d'.(topups) = <[t := o]> d.(topups) -> o.(tu_TradeNo) = t -> topups_wf d -> topups_wf d'.
Proof.
  intros E Et Hwf t' x. rewrite E. destruct (decide (t' = t)) as [->|Hne]; [rewrite lookup_insert_eq; congruence|].
  rewrite lookup_insert_ne by done. apply Hwf.
Qed.

(** A rewritten order is due only if it still is pending, and worth the same. *)
Lemma due_back calls t o o' w w' c :
  w.(w_db).(topups) !! t = Some o -> w'.(w_db).(topups) = <[t := o']> w.(w_db).(topups) -> w'.(w_cfg) = w.(w_cfg) ->
  due calls w' c -> (c.(cr_Key) <> t /\ due calls w c) \/ (c.(cr_Key) = t /\ o'.(tu_Status) = TopUpStatusPending /\
    o'.(tu_UserId) = c.(cr_UserId) /\ 0 < c.(cr_Quota) /\
    exists b, order_worth b w.(w_cfg).(QuotaPerUnit) o' = Ok c.(cr_Quota) /\ (b = true -> CallManual c.(cr_Key) ∈ calls)).
Proof.
  intros Ho E Ec (x & Hx & Hr). rewrite E in Hx. rewrite Ec in Hr.
  destruct (decide (cr_Key c = t)) as [Heq|Hne].
  - rewrite Heq, lookup_insert_eq in Hx. injection Hx as <-. auto.
  - rewrite lookup_insert_ne in Hx by done. left. split; [done|]. by exists x.
Qed.

Lemma run_payment_credits calls c w r w' :
  c ∈ calls -> topups_wf w.(w_db) -> run_payment c w = (r, w') -> topups_wf w'.(w_db) /\ call_effect (due calls) w w'.
Proof using All.
  intros Hc Hwf E. pose proof (run_payment_cfg _ _ _ _ E) as Ec.
  apply run_payment_effect in E as [Ed|[(t & o & o' & Ho & Hs & Et & Eu & Ea & Em & Ep & Ed)|
    (b & t & uid & q & (o & o' & u & f & Ho & Hs & Eu & Hw & Hq & Hu & Hle & Hf & Et & Es & Ed) & Hb)]]; [..|done].
  - split; [by rewrite Ed|]. right. split; [by rewrite Ed|]. intros x. unfold due. by rewrite Ed, Ec.
  - assert (topups (w_db w') = <[t := o']> (topups (w_db w))) as E by by rewrite Ed.
    split; [by eapply insert_wf|]. right. split; [by rewrite Ed|]. intros x Hx.
    destruct (due_back _ _ _ _ _ _ _ Ho E Ec Hx) as [[_ Hd]|(Hk & _ & Hux & Hq & b & Hw & Hb)]; [done|].
    exists o. rewrite Hk in *. split_and!; [done|done|congruence|done|]. exists b. split; [|done].
    unfold order_worth, usd_quota, money_quota, raw_quota in *. by rewrite Ea, Em, Ep in Hw.
  - assert (topups (w_db w') = <[t := o']> (topups (w_db w))) as E by by rewrite Ed.
    split; [by eapply insert_wf|]. left. exists (mkCredit t uid q). split.
    { exists o. simpl. split_and!; [done..|]. exists b. split; [done|]. intros ->. by rewrite <- (Hb eq_refl). }
    split.
    + rewrite Ed. by apply users_credited_update.
    + intros x Hx. destruct (due_back _ _ _ _ _ _ _ Ho E Ec Hx) as [[Hne Hd]|(_ & Hs' & _)]; [done|by rewrite Es in Hs'].
Qed.

(** C2. A top-up order is credited at most once.  Whatever callbacks and
    administrator actions arrive, duplicated and in any order, and whatever
    database or cache calls fail on the way, there is a list of credits without two
    for one order such that every wallet balance grew by exactly the credits to its
    user; each credit belongs to an order that was pending, goes to that order's
    user and is exactly what the order is worth: a Stripe order its money times the
    quota of one unit, a Creem order the quota it names, any other order its amount
    times the quota of one unit (a Creem order an administrator's completion is
    among the calls of: possibly its amount times that quota, see below); and no
    wallet passes the ceiling. *)
Theorem topups_credited_at_most_once calls w :
  topups_wf w.(w_db) ->
  let w' := run_payments calls w in
  exists cs, NoDup (cr_Key <$> cs) /\ Forall (due calls w) cs /\
    (forall id, quota_of w'.(w_db) id = quota_of w.(w_db) id + credited_to id cs) /\
    (forall id, quota_of w.(w_db) id <= MaxWalletQuota -> quota_of w'.(w_db) id <= MaxWalletQuota).
Proof using All.
  apply (credited_at_most_once run_payment (fun c => c ∈ calls) (fun w => topups_wf w.(w_db)) (due calls)).
  - intros c w0 r w' Hc Hwf E. by eapply run_payment_credits.
  - by apply Forall_forall.
Qed.
End trace.

(** ** A completed payment arrives *)

Lemma bind_at {A B} (c : MW A) (f : A -> MW B) w a w' r : c w = (Ok a, w') -> f a w' = r -> bind c f w = r.
Proof. intros H1 H2. unfold bind. by rewrite H1. Qed.

Lemma Transaction_commits {A} (c : MW A) w a w' :
  w.(w_faults) = [] -> c w = (Ok a, w') -> w'.(w_faults) = [] -> Transaction c w = (Ok a, w').
Proof. intros Hw Hc Hw'. unfold Transaction. rewrite (stmt_ff w Hw), Hc, (stmt_ff w' Hw'). done. Qed.

Lemma first_topup_ff t o w : w.(w_faults) = [] -> w.(w_db).(topups) !! t = Some o -> first_topup t w = (Ok o, w).
Proof. intros Hw Ho. unfold first_topup, bind, gets. rewrite (stmt_ff w Hw). by rewrite Ho. Qed.

Lemma relabel_ok {A} (c : MW A) e w a w' : c w = (Ok a, w') -> relabel c e w = (Ok a, w').
Proof. intros H. unfold relabel, bind, catch. by rewrite H. Qed.

Lemma creditTopUpQuota_ff id q f u w :
  w.(w_faults) = [] -> visible_user w.(w_db) id = Some u -> 0 < q <= MaxWalletQuota -> u.(u_Quota) + q <= MaxWalletQuota ->
  creditTopUpQuota id q f w = (Ok tt, set_w_db (set_users (insert id (f (set_u_Quota (fun x => x + q) u)))) w).
Proof.
  intros Hw Hu Hq Hle. unfold creditTopUpQuota, topUpQuotaMaxCurrent.
  replace ((q <=? 0) || (MaxWalletQuota <? q)) with false by lia.
  eapply bind_at; [done|]. eapply (bind_at _ _ _ 1); [|reflexivity].
  rewrite (update_user_ff _ _ _ _ Hw), Hu. replace (u_Quota u <=? MaxWalletQuota - q) with true by lia. reflexivity.
Qed.

Lemma after_credit_ok uid q w : exists w', after_credit uid q w = (Ok tt, w').
Proof.
  unfold after_credit, syncCreditUserQuotaCache. destruct (q <=? 0); [by eexists|].
  unfold bind, catch. destruct (cacheIncrUserQuota uid q w) as [r w1]. by eexists.
Qed.

(** The callback of a paid order is honoured: when no call fails, an epay
    callback for a pending order whose worth fits under the wallet ceiling reports a
    fresh completion, adds exactly the worth to the wallet of the order's user and
    leaves the order paid. *)
Theorem RechargeEpay_credits {D : Decimal} t m o q u w :
  w.(w_faults) = [] -> t <> ""%string -> w.(w_db).(topups) !! t = Some o -> o.(tu_TradeNo) = t ->
  o.(tu_PaymentProvider) = PaymentProviderEpay -> o.(tu_Status) = TopUpStatusPending ->
  usd_quota w.(w_cfg).(QuotaPerUnit) o = Ok q -> 0 < q <= MaxWalletQuota ->
  visible_user w.(w_db) o.(tu_UserId) = Some u -> u.(u_Quota) + q <= MaxWalletQuota ->
  exists w', RechargeEpay t m w = (Ok false, w') /\
    quota_of w'.(w_db) o.(tu_UserId) = quota_of w.(w_db) o.(tu_UserId) + q /\
    (tu_Status <$> w'.(w_db).(topups) !! t) = Some TopUpStatusSuccess.
Proof.
  intros Hf Ht Ho Hk Hp Hs Hworth Hq Hu Hle.
  set (o0 := if negb (String.eqb m "") && negb (String.eqb o.(tu_PaymentMethod) m) then set_tu_PaymentMethod (fun _ => m) o else o).
  assert (tu_UserId o0 = tu_UserId o /\ tu_TradeNo o0 = t /\ tu_Amount o0 = tu_Amount o) as (F1 & F2 & F3)
    by (unfold o0; by destruct (_ && _)).
  set (o1 := set_tu_Status (fun _ => TopUpStatusSuccess) (set_tu_CompleteTime (fun _ => w.(w_clock)) o0)).
  set (w1 := set_w_db (set_topups (insert t o1)) w).
  set (w2 := set_w_db (set_users (insert o.(tu_UserId) (set_u_Quota (fun x => x + q) u))) w1).
  assert (recharge_epay_tx t m w = (Ok (Some (tu_UserId o, q)), w2)) as Htx.
  { unfold recharge_epay_tx. eapply bind_at; [apply relabel_ok, first_topup_ff; done|].
    rewrite Hp, Hs. cbn [negb String.eqb]. fold o0. simpl.
    eapply bind_at; [done|]. eapply bind_at.
    { unfold usd_quota. rewrite F3. fold (usd_quota (QuotaPerUnit (w_cfg w)) o). rewrite Hworth. simpl.
      replace (q <=? 0) with false by lia. done. }
    eapply bind_at.
    { unfold mark_success, GetTimestamp. eapply bind_at; [done|]. unfold save_topup. eapply bind_at; [by apply stmt_ff|].
      simpl. rewrite F2. unfold modify_db, modify. fold o1 w1. done. }
    rewrite F1. eapply bind_at; [by apply (creditTopUpQuota_ff _ q id u)|]. done. }
  destruct (after_credit_ok (tu_UserId o) q w2) as [w3 E3]. exists w3. split.
  - unfold RechargeEpay. destruct (String.eqb_spec t ""); [done|]. eapply bind_at; [by apply Transaction_commits|].
    simpl. eapply bind_at; [exact E3|done].
  - apply after_credit_still in E3 as [E3 _]. rewrite E3. unfold w2, w1. simpl. split.
    + destruct (users_credited_update (tu_UserId o) u q id w.(w_db) (set_topups (insert t o1) w.(w_db)) Hu Hle
        ltac:(done) eq_refl t (tu_UserId o)) as [E _]. simpl in E. rewrite Z.eqb_refl in E. exact E.
    + by rewrite lookup_insert_eq.
Qed.

(** Two epay orders of one dollar for user 7, and one by Creem for 500000. *)
Definition sample_topup (t provider : string) (amount : Z) : TopUp :=
  mkTopUp 7 amount (float64_of_int 1) t "alipay" provider 1700000000 0 TopUpStatusPending.
Definition topup_world : World :=
  set_w_db (set_topups (fun _ => <["A"%string := sample_topup "A" "epay" 1]> (<["C"%string := sample_topup "C" "creem" 500000]> ∅)))
    (with_user (sample_user 7 1000) (empty_world (sample_config false false))).

Lemma topup_world_wf : topups_wf topup_world.(w_db).
Proof.
  intros t o H. simpl in H. rewrite !lookup_insert in H. repeat case_decide; simplify_eq; try done.
Qed.

(** A duplicated callback, an administrator's completion of the same order, and a
    failed database call. *)
Lemma topups_credited_at_most_once_witness :
  let calls := [CallEpay "A" ""; CallEpay "A" ""; CallManual "A"; CallWaffo "A"] in
  let w := set_w_faults (fun _ => [false; true]) topup_world in
  quota_of (run_payments calls w).(w_db) 7 = 501000 /\
  exists cs, NoDup (cr_Key <$> cs) /\ quota_of (run_payments calls w).(w_db) 7 = quota_of w.(w_db) 7 + credited_to 7 cs.
Proof.
  intros calls w. split; [vm_compute; reflexivity|].
  destruct (topups_credited_at_most_once calls w topup_world_wf) as (cs & H1 & _ & H3 & _).
  exists cs. split; [exact H1|apply H3].
Defined.

(** ** Finding: administrators over-credit Creem orders *)

(** The callback of a Creem order credits the quota the product names, but
    completing the very same order by hand multiplies it by the quota of one dollar:
    the order of 500000 quota below is credited 500000 times over. *)
Theorem manual_completion_overcredits_creem :
  let paid := exec (RechargeCreem "C" "") topup_world in
  let manual := exec (ManualCompleteTopUp "C") topup_world in
  quota_of paid.(w_db) 7 = 1000 + 500000 /\ quota_of manual.(w_db) 7 = 1000 + 500000 * 500000.
Proof. split; vm_compute; reflexivity. Qed.

Lemma RechargeEpay_credits_witness :
  exists w', RechargeEpay "A" "" topup_world = (Ok false, w') /\ quota_of w'.(w_db) 7 = 1000 + 500000.
Proof.
  assert (usd_quota topup_world.(w_cfg).(QuotaPerUnit) (sample_topup "A" "epay" 1) = Ok 500000) as Hworth by (vm_compute; reflexivity).
  destruct (RechargeEpay_credits "A" "" (sample_topup "A" "epay" 1) 500000 (sample_user 7 1000) topup_world
    eq_refl ltac:(discriminate) eq_refl eq_refl eq_refl eq_refl Hworth) as (w' & H1 & H2 & _).
  - unfold MaxWalletQuota. lia.
  - reflexivity.
  - unfold MaxWalletQuota. simpl. lia.
  - exists w'. split; [exact H1|exact H2].
Defined.
