(* ===== verification/Redemption.v ===== *)
(** * Redemption codes (model/redemption.go)

    A code is enabled, disabled or used; redeeming it flips it to used and credits
    the redeemer, in one transaction guarded by a compare-and-swap on the status. *)

From stdpp Require Import base tactics numbers list gmap fin_maps strings.
From Stdlib Require Import ZArith Lia.
From S2P Require Import Prelude Float64 QuotaMath World UserCache QuotaStore Reserve Credit.
Open Scope Z_scope.

Definition RedemptionCodeStatusEnabled : Z := 1.
Definition RedemptionCodeStatusDisabled : Z := 2.
Definition RedemptionCodeStatusUsed : Z := 3.

(** ** Statements on the table; soft-deleted rows are filtered by gorm. *)

Definition visible_redemption (d : DB) (key : string) : option Redemption :=
  match d.(redemptions) !! key with
  | Some r => if r.(rd_Deleted) then None else Some r
  | None => None
  end.

Definition first_redemption (key : string) : MW Redemption :=
  stmt ;;
  let! row := gets (fun w => visible_redemption w.(w_db) key) in
  match row with Some r => ret r | None => throw ErrRecordNotFound end.

(** [UPDATE redemptions SET f WHERE p AND deleted_at IS NULL] *)
Definition matching (p : Redemption -> bool) (r : Redemption) : bool := negb r.(rd_Deleted) && p r.
Definition update_redemptions (p : Redemption -> bool) (f : Redemption -> Redemption) : MW Z :=
  stmt ;;
  let! d := gets w_db in
  modify_db (set_redemptions (fmap (fun r => if matching p r then f r else r))) ;;
  ret (Z.of_nat (size (filter (fun kv => matching p kv.2 = true) d.(redemptions)))).

Definition by_id (id : Z) (r : Redemption) : bool := r.(rd_Id) =? id.

Definition first_redemption_by_id (id : Z) : MW Redemption :=
  stmt ;;
  let! d := gets w_db in
  match filter (fun r => matching (by_id id) r = true) (map_to_list d.(redemptions)).*2 with
  | r :: _ => ret r
  | [] => throw ErrRecordNotFound
  end.

(** The next auto-increment value: rows are never removed, only soft-deleted. *)
Definition next_redemption_id (d : DB) : Z :=
  1 + map_fold (fun _ r m => Z.max r.(rd_Id) m) 0 d.(redemptions).

(** ** Operations *)

Definition GetRedemptionById (id : Z) : MW Redemption :=
  if id =? 0 then throw (ErrMsg "id 为空！") else first_redemption_by_id id.

(** The transaction; it hands back the quota and the id of the code. *)
Definition redeem_tx (key : string) (userId : Z) : MW (Z * Z) :=
  let! redemption := relabel (first_redemption key) (ErrMsg "无效的兑换码") in
  if negb (redemption.(rd_Status) =? RedemptionCodeStatusEnabled) then throw (ErrMsg "该兑换码已被使用")
  else
    let! now := GetTimestamp in
    if negb (redemption.(rd_ExpiredTime) =? 0) && (redemption.(rd_ExpiredTime) <? now)
    then throw (ErrMsg "该兑换码已过期")
    else
      let! n := update_redemptions
                  (fun r => by_id redemption.(rd_Id) r && (r.(rd_Status) =? RedemptionCodeStatusEnabled))
                  (fun r => set_rd_UsedUserId (fun _ => userId) (set_rd_Status (fun _ => RedemptionCodeStatusUsed)
                              (set_rd_RedeemedTime (fun _ => now) r))) in
      if n =? 0 then throw (ErrMsg "该兑换码已被使用")
      else
        creditTopUpQuota userId redemption.(rd_Quota) id ;;
        ret (redemption.(rd_Quota), redemption.(rd_Id)).

Definition Redeem (key : string) (userId : Z) : MW Z :=
  if String.eqb key "" then throw (ErrMsg "未提供兑换码")
  else if userId =? 0 then throw (ErrMsg "无效的 user id")
  else
    let! r := relabel (Transaction (redeem_tx key userId)) ErrRedeemFailed in
    syncCreditUserQuotaCache userId r.1 ;;
    RecordLog userId LogTypeTopup r.1 ;;
    ret r.1.

Definition validate_redemption (quota : Z) : MW unit :=
  if quota <=? 0 then throw (ErrMsg "redemption quota must be positive")
  else match ValidateWalletQuota quota with Err s => throw (ErrMsg s) | Ok _ => ret tt end.

(** [DB.Create]: the key is unique. *)
Definition Redemption_Insert (r : Redemption) : MW unit :=
  validate_redemption r.(rd_Quota) ;;
  stmt ;;
  let! d := gets w_db in
  match d.(redemptions) !! r.(rd_Key) with
  | Some _ => throw ErrDB
  | None =>
      modify_db (set_redemptions (insert r.(rd_Key)
        (mkRedemption (next_redemption_id d) r.(rd_UserId) r.(rd_Key) r.(rd_Status) r.(rd_Name) r.(rd_Quota)
           r.(rd_CreatedTime) r.(rd_RedeemedTime) r.(rd_UsedUserId) false r.(rd_ExpiredTime))))
  end.

Definition Redemption_SelectUpdate (r : Redemption) : MW unit :=
  update_redemptions (by_id r.(rd_Id))
    (fun x => set_rd_Status (fun _ => r.(rd_Status)) (set_rd_RedeemedTime (fun _ => r.(rd_RedeemedTime)) x)) ;; ret tt.

Definition Redemption_Update (r : Redemption) : MW unit :=
  validate_redemption r.(rd_Quota) ;;
  update_redemptions (by_id r.(rd_Id))
    (fun x => set_rd_Name (fun _ => r.(rd_Name)) (set_rd_Status (fun _ => r.(rd_Status)) (set_rd_Quota (fun _ => r.(rd_Quota))
      (set_rd_RedeemedTime (fun _ => r.(rd_RedeemedTime)) (set_rd_ExpiredTime (fun _ => r.(rd_ExpiredTime)) x))))) ;; ret tt.

(** [DB.Where(p).Delete(&Redemption{})] *)
Definition soft_delete (p : Redemption -> bool) : MW Z := update_redemptions p (set_rd_Deleted (fun _ => true)).

Definition Redemption_Delete (r : Redemption) : MW unit := soft_delete (by_id r.(rd_Id)) ;; ret tt.

Definition DeleteRedemptionById (id : Z) : MW unit :=
  if id =? 0 then throw (ErrMsg "id 为空！")
  else let! r := first_redemption_by_id id in Redemption_Delete r.

Definition invalid_at (now : Z) (r : Redemption) : bool :=
  (r.(rd_Status) =? RedemptionCodeStatusUsed) || (r.(rd_Status) =? RedemptionCodeStatusDisabled)
  || ((r.(rd_Status) =? RedemptionCodeStatusEnabled) && negb (r.(rd_ExpiredTime) =? 0) && (r.(rd_ExpiredTime) <? now)).
Definition DeleteInvalidRedemptions : MW Z :=
  let! now := GetTimestamp in
  soft_delete (invalid_at now).

Definition BatchDeleteRedemptions (ids : list Z) : MW Z :=
  if bool_decide (length ids = 0%nat) || (1000 <? Z.of_nat (length ids))
  then throw (ErrMsg "select between 1 and 1000 redemption codes")
  else if existsb (fun id => id <=? 0) ids then throw (ErrMsg "redemption IDs must be positive")
  else soft_delete (fun r => existsb (fun id => by_id id r) ids).

(** ** One redemption *)

Definition enabled (r : Redemption) : Prop := r.(rd_Status) = RedemptionCodeStatusEnabled.

Lemma same_trans w1 w2 w3 : same_but_faults w1 w2 -> same_but_faults w2 w3 -> same_but_faults w1 w3.
Proof. intros [f1 ->] [f2 ->]. by eexists. Qed.

Lemma first_redemption_Ok key w r w' :
  first_redemption key w = (Ok r, w') -> same_but_faults w w' /\ visible_redemption w.(w_db) key = Some r.
Proof.
  unfold first_redemption, bind, gets. destruct (stmt w) as [[[]|e] w1] eqn:H1; apply stmt_same in H1; [|done].
  destruct H1 as [fs ->]. simpl. destruct (visible_redemption (w_db w) key) as [r'|]; [|done].
  intros H. injection H as <- <-. split; [by eexists|done].
Qed.

Lemma update_redemptions_Ok p f w n w' :
  update_redemptions p f w = (Ok n, w') ->
  w'.(w_db) = set_redemptions (fmap (fun r => if matching p r then f r else r)) w.(w_db).
Proof.
  unfold update_redemptions, bind, gets, modify_db, modify. destruct (stmt w) as [[[]|e] w1] eqn:H1; apply stmt_same in H1; [|done].
  destruct H1 as [fs ->]. intros H. by injection H as _ <-.
Qed.

Lemma visible_update p f d key :
  visible_redemption (set_redemptions (fmap (fun r => if matching p r then f r else r)) d) key =
    match visible_redemption d key with
    | Some r => let r' := if p r then f r else r in if r'.(rd_Deleted) then None else Some r'
    | None => None
    end.
Proof.
  unfold visible_redemption. simpl. rewrite lookup_fmap. destruct (redemptions d !! key) as [r|]; [|done]. simpl.
  unfold matching. destruct (rd_Deleted r) eqn:E; simpl; [by rewrite E|]. done.
Qed.

Lemma redeem_tx_Ok key userId w x w' :
  redeem_tx key userId w = (Ok x, w') ->
  exists c, visible_redemption w.(w_db) key = Some c /\ enabled c /\ (c.(rd_ExpiredTime) = 0 \/ w.(w_clock) <= c.(rd_ExpiredTime)) /\
    x.1 = c.(rd_Quota) /\ 0 < x.1 /\ users_credited (mkCredit key userId x.1) w.(w_db) w'.(w_db) /\
    (forall k r', visible_redemption w'.(w_db) k = Some r' -> enabled r' -> visible_redemption w.(w_db) k = Some r') /\
    (exists c', visible_redemption w'.(w_db) key = Some c' /\ c'.(rd_Status) = RedemptionCodeStatusUsed /\ c'.(rd_UsedUserId) = userId).
Proof.
  intros H. unfold redeem_tx in H. apply bind_Ok in H as (c & w1 & H1 & H).
  apply relabel_Ok, first_redemption_Ok in H1 as [[fs ->] Hc].
  destruct (Z.eqb_spec (rd_Status c) RedemptionCodeStatusEnabled) as [Hen|]; simpl in H; [|done].
  apply bind_Ok in H as (now & w2 & H2 & H). injection H2 as <- <-. simpl in H.
  destruct (negb (rd_ExpiredTime c =? 0) && (rd_ExpiredTime c <? w_clock w)) eqn:Hexp; [done|].
  apply bind_Ok in H as (n & w2 & H2 & H). apply update_redemptions_Ok in H2. simpl in H2.
  destruct (n =? 0); [done|]. apply bind_Ok in H as ([] & w3 & H3 & H). injection H as <- <-.
  apply creditTopUpQuota_Ok in H3 as (_ & Hq & u & Hu & Hle & Ed). rewrite H2 in Hu, Ed. simpl.
  exists c. split_and!; try done.
  - apply andb_false_iff in Hexp as [Hexp|Hexp]; [left|right]; [|lia]. apply negb_false_iff in Hexp. lia.
  - rewrite Ed. apply (users_credited_update userId u (rd_Quota c) id); done.
  - intros k r' Hr' Hen'. rewrite Ed in Hr'. change (visible_redemption (set_users _ ?d) k) with (visible_redemption d k) in Hr'.
    rewrite visible_update in Hr'. destruct (visible_redemption (w_db w) k) as [r0|]; [|done]. cbv zeta in Hr'.
    destruct (by_id (rd_Id c) r0 && _); simpl in Hr'; [|destruct (rd_Deleted r0); [done|by simplify_eq]].
    destruct (rd_Deleted r0); [done|]. injection Hr' as <-. done.
  - rewrite Ed. change (visible_redemption (set_users _ ?d) key) with (visible_redemption d key).
    rewrite visible_update, Hc. unfold by_id. cbv zeta. rewrite Z.eqb_refl, Hen. simpl.
    unfold visible_redemption in Hc. destruct (redemptions (w_db w) !! key) as [c0|]; [|done].
    destruct (rd_Deleted c0) eqn:E; [done|]. injection Hc as ->. rewrite E. by eexists.
Qed.

(** The redemption itself, and the steps after its commit. *)
Lemma Redeem_inv key userId w r w' :
  Redeem key userId w = (r, w') ->
  match r with
  | Ok q => exists w1 w2 x, same_but_faults w w1 /\ redeem_tx key userId w1 = (Ok x, w2) /\ w'.(w_db) = w2.(w_db) /\ q = x.1
  | Err _ => w'.(w_db) = w.(w_db)
  end.
Proof.
  intros H. unfold Redeem in H. destruct (String.eqb key ""); [by injection H as <- <-|].
  destruct (userId =? 0); [by injection H as <- <-|]. apply bind_inv in H as [(x & w1 & H1 & H)|(e & H1 & ->)].
  - apply relabel_Ok, Transaction_inv in H1 as [(e & [=] & _)|(a & w2 & w3 & [= <-] & E1 & H1 & E3)].
    assert (r = Ok x.1 /\ w_db w' = w_db w1) as [-> Ed].
    { unfold syncCreditUserQuotaCache, RecordLog in H. destruct (x.1 <=? 0); [by injection H as <- <-|].
      unfold bind, catch in H. destruct (cacheIncrUserQuota userId x.1 w1) as [r2 w4] eqn:E4. quiet E4.
      injection H as <- <-. split; [done|]. simpl. by injection E4 as -> _ _. }
    exists w2, w3, x. split_and!; [done|done| |done]. rewrite Ed. by destruct E3 as [fs ->].
  - apply relabel_Err in H1 as [e0 H1]. by apply Transaction_inv in H1 as [(e' & _ & E)|(a & w2 & w3 & [=] & _)].
Qed.

(** Redeeming is atomic, whatever fails.  A call that reports an error changed
    no table; a call that succeeds found the code enabled and not expired, added
    exactly the code's quota to the redeemer's wallet and to no other, kept it under
    the ceiling, and left the code marked used by the redeemer. *)
Theorem Redeem_atomic key userId w r w' :
  Redeem key userId w = (r, w') ->
  match r with
  | Ok q => exists c, visible_redemption w.(w_db) key = Some c /\ enabled c /\
      (c.(rd_ExpiredTime) = 0 \/ w.(w_clock) <= c.(rd_ExpiredTime)) /\ q = c.(rd_Quota) /\ 0 < q /\
      users_credited (mkCredit key userId q) w.(w_db) w'.(w_db) /\
      exists c', visible_redemption w'.(w_db) key = Some c' /\ c'.(rd_Status) = RedemptionCodeStatusUsed /\
        c'.(rd_UsedUserId) = userId
  | Err _ => w'.(w_db) = w.(w_db)
  end.
Proof.
  intros H. apply Redeem_inv in H. destruct r as [q|e]; [|done]. destruct H as (w1 & w2 & x & [fs ->] & H & -> & ->).
  apply redeem_tx_Ok in H as (c & H1 & H2 & H3 & H4 & H5 & H6 & _ & H8). exists c. split_and!; done.
Qed.

(** ** Sequences of calls *)

Inductive RedemptionCall :=
| CallRedeem (key : string) (userId : Z)
| CallDeleteById (id : Z)
| CallDeleteInvalid
| CallBatchDelete (ids : list Z).

Definition run_redemption (c : RedemptionCall) : MW unit :=
  match c with
  | CallRedeem key userId => Redeem key userId ;; ret tt
  | CallDeleteById id => DeleteRedemptionById id
  | CallDeleteInvalid => DeleteInvalidRedemptions ;; ret tt
  | CallBatchDelete ids => BatchDeleteRedemptions ids ;; ret tt
  end.

(** A code that can still be redeemed, whoever redeems it. *)
Definition redeemable (w : World) (c : Credit) : Prop :=
  exists r, visible_redemption w.(w_db) c.(cr_Key) = Some r /\ enabled r /\ r.(rd_Quota) = c.(cr_Quota) /\ 0 < c.(cr_Quota).

(** Deleting only hides codes. *)
Definition only_hides (d d' : DB) : Prop :=
  d'.(users) = d.(users) /\ forall k r, visible_redemption d' k = Some r -> visible_redemption d k = Some r.
Definition hides (d0 : DB) (w : World) : Prop := only_hides d0 w.(w_db).
#[export] Instance hides_ledger d0 : LedgerPred (hides d0).
Proof. intros w w' [= E _ _]. unfold hides. by rewrite E. Qed.

Lemma soft_delete_hides d0 p : preserves (hides d0) (soft_delete p).
Proof.
  unfold soft_delete, update_redemptions. apply preserves_bind; [auto with preserve|intros _]. apply preserves_read.
  intros w [H1 H2]. split; [done|]. intros k r Hr. apply H2. simpl in Hr. rewrite visible_update in Hr.
  destruct (visible_redemption (w_db w) k) as [r0|] eqn:E; [|done]. simpl in Hr.
  destruct (p r0); [done|]. destruct (rd_Deleted r0); [done|]. done.
Qed.
Lemma first_by_id_hides d0 id : preserves (hides d0) (first_redemption_by_id id).
Proof.
  unfold first_redemption_by_id. apply preserves_bind; [auto with preserve|intros _]. apply preserves_read.
  intros w Hw. by destruct (filter _ _).
Qed.
#[export] Hint Resolve soft_delete_hides first_by_id_hides : preserve.

Lemma hides_effect {A} (c : MW A) w r w' : preserves (hides w.(w_db)) c -> c w = (r, w') -> call_effect redeemable w w'.
Proof.
  intros Hc E. specialize (Hc w (conj eq_refl (fun k r E => E))). rewrite E in Hc. destruct Hc as [H1 H2]. right.
  split; [done|]. intros x (rd & Hr & Hx). exists rd. auto.
Qed.

Lemma run_redemption_effect c w r w' : run_redemption c w = (r, w') -> call_effect redeemable w w'.
Proof.
  destruct c as [key userId|id| |ids]; simpl.
  2-4: apply hides_effect; unfold DeleteRedemptionById, Redemption_Delete, DeleteInvalidRedemptions, BatchDeleteRedemptions;
    solve_preserves.
  intros H. apply bind_inv in H as [(q & w1 & H1 & H)|(e & H1 & _)]; [injection H as _ <-|].
  - apply Redeem_inv in H1 as (w2 & w3 & x & [fs ->] & Hx & Ed & ->).
    apply redeem_tx_Ok in Hx as (rc & Hv & Hen & _ & Hq & Hpos & Hcr & Hback & (c' & Hc' & Hu & _)). left.
    exists (mkCredit key userId x.1). split; [by exists rc|]. split; [by rewrite Ed|].
    intros y (rd & Hr & He & Hy). rewrite Ed in Hr. split.
    + exists rd. split_and!; [by apply Hback|done|by apply Hy|by apply Hy].
    + simpl. intros Ek. rewrite Ek, Hc' in Hr. injection Hr as <-. unfold enabled in He. by rewrite Hu in He.
  - apply Redeem_inv in H1. right. rewrite H1. split; [done|]. intros y. unfold redeemable. by rewrite H1.
Qed.

(** A redemption code pays at most once.  Whatever redemptions and deletions
    arrive, by whatever users, in any order and with any failures, there is a list of
    credits without two for one code such that every wallet grew by exactly the
    credits to its user; every credited code was enabled and not deleted, and was
    worth the quota it stands for; and no wallet passes the ceiling. *)
Theorem codes_redeemed_at_most_once calls w :
  let w' := run_all run_redemption calls w in
  exists cs, NoDup (cr_Key <$> cs) /\ Forall (redeemable w) cs /\
    (forall id, quota_of w'.(w_db) id = quota_of w.(w_db) id + credited_to id cs) /\
    (forall id, quota_of w.(w_db) id <= MaxWalletQuota -> quota_of w'.(w_db) id <= MaxWalletQuota).
Proof.
  apply (credited_at_most_once run_redemption (fun _ => True) (fun _ => True) redeemable); [|by apply Forall_true|done].
  intros c w0 r w' _ _ E. split; [done|]. by eapply run_redemption_effect.
Qed.

Definition sample_code : Redemption := mkRedemption 1 1 "CODE" RedemptionCodeStatusEnabled "gift" 300 1700000000 0 0 false 0.
Definition code_world : World :=
  set_w_db (set_redemptions (insert "CODE"%string sample_code))
    (with_user (sample_user 8 0) (with_user (sample_user 7 1000) (empty_world (sample_config false false)))).

Lemma Redeem_atomic_witness :
  exists w', Redeem "CODE" 7 code_world = (Ok 300, w') /\ quota_of w'.(w_db) 7 = 1300 /\
    users_credited (mkCredit "CODE" 7 300) code_world.(w_db) w'.(w_db).
Proof.
  pose proof (run_eq (Redeem "CODE" 7) code_world) as Hr.
  assert (eval (Redeem "CODE" 7) code_world = Ok 300) as E by (vm_compute; reflexivity). rewrite E in Hr.
  exists (exec (Redeem "CODE" 7) code_world). split; [exact Hr|]. split; [vm_compute; reflexivity|].
  destruct (Redeem_atomic _ _ _ _ _ Hr) as (c & _ & _ & _ & _ & _ & H & _). exact H.
Defined.

(** Two users race for the code. *)
Lemma codes_redeemed_at_most_once_example :
  let w' := run_all run_redemption [CallRedeem "CODE" 8; CallRedeem "CODE" 7; CallDeleteInvalid] code_world in
  quota_of w'.(w_db) 8 = 300 /\ quota_of w'.(w_db) 7 = 1000.
Proof. split; vm_compute; reflexivity. Qed.
