(* ===== verification/Grants.v ===== *)
(** * Check-ins, manual adjustments and invitation rewards

    The other ways quota enters a wallet: the daily check-in (model/checkin.go), an
    administrator's adjustment (model/user_quota_adjustment.go), and the transfer of
    invitation rewards (model/user.go). *)

From stdpp Require Import base tactics numbers list gmap strings pretty.
From Stdlib Require Import ZArith Lia.
From S2P Require Import Prelude Float64 QuotaMath DecimalQ Calendar World UserCache QuotaStore Reserve Credit.
Open Scope Z_scope.

(** ** Check-in *)

Record CheckinSetting := mkCheckinSetting { cs_Enabled : bool; cs_MinQuota : Z; cs_MaxQuota : Z }.

(** [time.Now().Format("2006-01-02")] *)
Definition pad (width : nat) (n : Z) : string :=
  let s := pretty n in
  String.concat "" (repeat "0"%string (width - String.length s)) +:+ s.
Definition format_date (off u : Z) : string :=
  pad 4 (Year off u) +:+ "-" +:+ pad 2 (Month off u) +:+ "-" +:+ pad 2 (Day off u).
Definition today : MW string :=
  let! off := cfg tz_offset in
  let! now := GetTimestamp in
  ret (format_date off now).

Definition HasCheckedInToday (userId : Z) : MW bool :=
  let! day := today in
  stmt ;;
  gets (fun w => bool_decide (is_Some (w.(w_db).(checkins) !! (userId, day)))).

(** [DB.Create(checkin)]: (user_id, checkin_date) is unique. *)
Definition create_checkin (c : Checkin) : MW unit :=
  stmt ;;
  let! d := gets w_db in
  match d.(checkins) !! (c.(ck_UserId), c.(ck_CheckinDate)) with
  | Some _ => throw ErrDB
  | None => modify_db (set_checkins (insert (c.(ck_UserId), c.(ck_CheckinDate)) c))
  end.

Definition checkin_failed : error := ErrMsg "签到失败，请稍后重试".
Definition checkin_quota_failed : error := ErrMsg "签到失败：更新额度出错".

Definition userCheckinWithTransaction (checkin : Checkin) (userId quotaAwarded : Z) : MW Checkin :=
  Transaction (
    relabel (create_checkin checkin) checkin_failed ;;
    relabel (update_user userId (fun _ => true) (set_u_Quota (fun q => q + quotaAwarded))) checkin_quota_failed) ;;
  go (JobCacheUserQuota userId quotaAwarded) ;;
  ret checkin.

(** [DB.Delete(checkin)], its error ignored *)
Definition delete_checkin (c : Checkin) : MW unit :=
  catch (stmt ;; modify_db (set_checkins (delete (c.(ck_UserId), c.(ck_CheckinDate))))) ;; ret tt.

Definition userCheckinWithoutTransaction (checkin : Checkin) (userId quotaAwarded : Z) : MW Checkin :=
  relabel (create_checkin checkin) checkin_failed ;;
  let! r := catch (IncreaseUserQuota userId quotaAwarded true) in
  match r with
  | Err _ => delete_checkin checkin ;; throw checkin_quota_failed
  | Ok _ => ret checkin
  end.

Section checkin.
(** [rand.Intn], and whether the main database is SQLite. *)
Context (Intn : Z -> Z) (sqlite : bool).

Definition quota_awarded (s : CheckinSetting) : Z :=
  if s.(cs_MinQuota) <? s.(cs_MaxQuota)
  then s.(cs_MinQuota) +! Intn (s.(cs_MaxQuota) -! s.(cs_MinQuota) +! 1)
  else s.(cs_MinQuota).

Definition UserCheckin (setting : CheckinSetting) (userId : Z) : MW Checkin :=
  if negb setting.(cs_Enabled) then throw (ErrMsg "签到功能未启用")
  else
    let! hasChecked := HasCheckedInToday userId in
    if hasChecked : bool then throw (ErrMsg "今日已签到")
    else
      let quotaAwarded := quota_awarded setting in
      let! day := today in
      let! now := GetTimestamp in
      let checkin := mkCheckin userId day quotaAwarded now in
      if sqlite then userCheckinWithoutTransaction checkin userId quotaAwarded
      else userCheckinWithTransaction checkin userId quotaAwarded.
End checkin.

(** ** Manual adjustment *)

Definition RoleRootUser : Z := 100.

Record UserQuotaAdjustment := mkAdjustment { adj_UserID : Z; adj_Username : string; adj_Before : Z; adj_After : Z }.

Section adjust.
Context {D : Decimal}.

Definition adjust_tx (userID operatorRole : Z) (mode : string) (value : Z) : MW UserQuotaAdjustment :=
  let! user := first_user userID in
  if negb (operatorRole =? RoleRootUser) && (operatorRole <=? user.(u_Role)) then throw ErrUserQuotaPermission
  else if (MaxWalletQuota <? user.(u_Quota)) || (user.(u_Quota) <? - MaxWalletQuota) then throw ErrWalletQuotaLimitExceeded
  else
    let quota :=
      if String.eqb mode "add" then d_Add (NewFromInt user.(u_Quota)) (NewFromInt value)
      else if String.eqb mode "subtract" then d_Sub (NewFromInt user.(u_Quota)) (NewFromInt value)
      else NewFromInt value in
    match WalletQuotaFromDecimalStrict quota with
    | Err _ => throw ErrWalletQuotaLimitExceeded
    | Ok after =>
        (if after =? user.(u_Quota) then ret tt
         else
           let! n := update_user userID (fun _ => true) (set_u_Quota (fun _ => after)) in
           if negb (n =? 1) then throw ErrRecordNotFound else ret tt) ;;
        ret (mkAdjustment user.(u_Id) user.(u_Username) user.(u_Quota) after)
    end.

Definition AdjustUserQuota (userID operatorRole : Z) (mode : string) (value : Z) : MW UserQuotaAdjustment :=
  if (userID <=? 0) || (negb (String.eqb mode "add") && negb (String.eqb mode "subtract") && negb (String.eqb mode "override"))
  then throw ErrInvalidUserQuotaAdjustment
  else if negb (String.eqb mode "override") && (value <=? 0) then throw ErrInvalidUserQuotaAdjustment
  else if (MaxWalletQuota <? value) || (value <? - MaxWalletQuota) then throw ErrWalletQuotaLimitExceeded
  else
    let! adjustment := Transaction (adjust_tx userID operatorRole mode value) in
    let delta := adjustment.(adj_After) - adjustment.(adj_Before) in
    (if delta =? 0 then ret tt else catch (cacheIncrUserQuota userID delta) ;; ret tt) ;;
    ret adjustment.
End adjust.

(** ** Invitation rewards *)

(** [QuotaForInviter] is a setting. *)
Definition inviteUser (quotaForInviter inviterId : Z) : MW unit :=
  let! n := update_user inviterId (fun _ => true)
    (fun u => set_u_AffCount (fun c => c + 1) (set_u_AffQuota (fun q => q + quotaForInviter)
                (set_u_AffHistoryQuota (fun q => q + quotaForInviter) u))) in
  if n =? 0 then throw ErrRecordNotFound else ret tt.

(** [tx.Save(user)] of the row read under the lock *)
Definition save_user (u : User) : MW unit := stmt ;; modify_db (set_users (insert u.(u_Id) u)).

Definition TransferAffQuotaToQuota (userId quota : Z) : MW unit :=
  let! unit := cfg QuotaPerUnit in
  if f_lt (float64_of_int quota) unit then throw (ErrMsg "转移额度最小为")
  else
    Transaction (
      let! user := first_user userId in
      if user.(u_AffQuota) <? quota then throw (ErrMsg "邀请额度不足！")
      else save_user (set_u_Quota (fun q => q +! quota) (set_u_AffQuota (fun q => q -! quota) user))).

(** ** Theorems: check-in *)

(** The balance of one user moved by [k], no other balance moved. *)
Definition quota_moved (userId k : Z) (d d' : DB) : Prop :=
  forall id, quota_of d' id = quota_of d id + (if userId =? id then k else 0).

Lemma quota_moved_update userId k u d d0 :
  visible_user d userId = Some u -> d0.(users) = d.(users) ->
  quota_moved userId k d (set_users (insert userId (set_u_Quota (fun x => x + k) u)) d0).
Proof.
  intros Hu E id. assert (forall i, visible_user d0 i = visible_user d i) as Ev by (intros i; unfold visible_user; by rewrite E).
  unfold quota_of, user_column. rewrite (visible_user_insert d0 userId u (set_u_Quota (fun x => x + k))) by (by rewrite ?Ev).
  rewrite Ev. case_decide as Ei.
  - rewrite Ei in *. by rewrite Z.eqb_refl, Hu.
  - destruct (Z.eqb_spec userId id); [done|]. lia.
Qed.

Lemma quota_of_users d d' id : d'.(users) = d.(users) -> quota_of d' id = quota_of d id.
Proof. unfold quota_of, user_column, visible_user. by intros ->. Qed.

(** [UPDATE users SET quota = quota + k WHERE id = ?], rows affected not checked *)
Lemma update_quota_inv userId k w r w' :
  update_user userId (fun _ => true) (set_u_Quota (fun q => q + k)) w = (r, w') ->
  w'.(w_db).(checkins) = w.(w_db).(checkins) /\
  match r with
  | Ok _ => quota_moved userId (if bool_decide (is_Some (visible_user w.(w_db) userId)) then k else 0) w.(w_db) w'.(w_db)
  | Err _ => w'.(w_db) = w.(w_db)
  end.
Proof.
  unfold update_user, bind, gets. destruct (stmt w) as [[[]|e] w1] eqn:H1; apply stmt_same in H1 as [fs ->]; simpl.
  2:{ intros H. by injection H as <- <-. }
  destruct (visible_user (w_db w) userId) as [u|] eqn:Hu; intros H; injection H as <- <-; (split; [done|]); simpl.
  - by apply quota_moved_update.
  - intros id. by destruct (_ =? _); rewrite Z.add_0_r.
Qed.

Lemma IncreaseUserQuota_db_inv id q w r w' :
  IncreaseUserQuota id q true w = (r, w') ->
  match r with
  | Ok _ => exists u, visible_user w.(w_db) id = Some u /\ w'.(w_db) = set_users (insert id (set_u_Quota (fun x => x + q) u)) w.(w_db)
  | Err _ => w'.(w_db) = w.(w_db)
  end.
Proof.
  intros H. unfold IncreaseUserQuota in H. destruct (q <? 0); [by injection H as <- <-|].
  destruct (ValidateWalletQuota q); [|by injection H as <- <-].
  apply bind_inv in H as [(b & w1 & H1 & H)|(e & [=] & _)]. injection H1 as <- <-. simpl in H.
  apply bind_inv in H as [([] & w1 & H1 & H)|(e & H1 & ->)].
  - injection H as <- <-. unfold increaseUserQuota, update_user, bind, gets in H1.
    destruct (stmt w) as [[[]|e] w2] eqn:H2; apply stmt_same in H2 as [fs ->]; [|done]. simpl in H1.
    destruct (visible_user (w_db w) id) as [u|] eqn:Hu.
    + destruct (_ <=? _).
      * injection H1 as <-. exists u. done.
      * simpl in H1. destruct (count_user id _) as [[n|] w2] eqn:E; [|done]. by destruct (n =? 0).
    + simpl in H1. destruct (count_user id _) as [[n|] w2] eqn:E; [|done]. by destruct (n =? 0).
  - unfold increaseUserQuota, update_user, bind, gets in H1.
    destruct (stmt w) as [[[]|e1] w2] eqn:H2; apply stmt_same in H2 as [fs ->]; [|by injection H1 as _ <-]. simpl in H1.
    destruct (visible_user (w_db w) id) as [u|] eqn:Hu; [destruct (_ <=? _); [done|]|]; simpl in H1;
      (destruct (count_user id _) as [[n|] w2] eqn:E; quiet E; [destruct (n =? 0)|]; injection H1 as _ <-; by injection E).
Qed.

Lemma create_checkin_inv c w r w' :
  create_checkin c w = (r, w') ->
  match r with
  | Ok _ => w.(w_db).(checkins) !! (c.(ck_UserId), c.(ck_CheckinDate)) = None /\
            w'.(w_db) = set_checkins (insert (c.(ck_UserId), c.(ck_CheckinDate)) c) w.(w_db)
  | Err _ => w'.(w_db) = w.(w_db)
  end.
Proof.
  unfold create_checkin, bind, gets. destruct (stmt w) as [[[]|e] w1] eqn:H1; apply stmt_same in H1 as [fs ->]; simpl.
  2:{ intros H. by injection H as <- <-. }
  destruct (checkins (w_db w) !! _) eqn:E; intros H; injection H as <- <-; done.
Qed.

(** What a check-in does: one row for the day, which was not there, and the award;
    or no award. *)
Definition checked_in (userId : Z) (c : Checkin) (d d' : DB) : Prop :=
  d.(checkins) !! (userId, c.(ck_CheckinDate)) = None /\
  d'.(checkins) = <[(userId, c.(ck_CheckinDate)) := c]> d.(checkins) /\
  (is_Some (visible_user d userId) -> quota_moved userId c.(ck_QuotaAwarded) d d').

Lemma checkin_with_tx userId day q now w r w' :
  userCheckinWithTransaction (mkCheckin userId day q now) userId q w = (r, w') ->
  match r with
  | Ok c => c = mkCheckin userId day q now /\ checked_in userId c w.(w_db) w'.(w_db)
  | Err _ => w'.(w_db) = w.(w_db)
  end.
Proof.
  intros H. unfold userCheckinWithTransaction in H. apply bind_inv in H as [(n & w1 & H1 & H)|(e & H1 & ->)].
  - injection H as <- <-. simpl.
    apply Transaction_inv in H1 as [(e & [=] & _)|(a & w2 & w3 & _ & [fs ->] & H1 & [fs' ->])]. simpl.
    apply bind_Ok in H1 as ([] & w4 & H4 & H1). apply relabel_Ok, create_checkin_inv in H4 as [H4 E4]. simpl in H4, E4.
    apply relabel_Ok, update_quota_inv in H1 as [E1 H1]. split; [done|]. split_and!; [done|by rewrite E1, E4|].
    intros Hu. rewrite E4 in H1. simpl in H1.
    change (visible_user (set_checkins _ ?d) userId) with (visible_user d userId) in H1. rewrite bool_decide_true in H1 by done.
    intros id. rewrite H1. f_equal.
  - apply Transaction_inv in H1 as [(e' & _ & E)|(a & w2 & w3 & [=] & _)]. done.
Qed.

Lemma checkin_without_tx userId day q now w r w' :
  userCheckinWithoutTransaction (mkCheckin userId day q now) userId q w = (r, w') ->
  match r with
  | Ok c => c = mkCheckin userId day q now /\ checked_in userId c w.(w_db) w'.(w_db)
  | Err _ => w'.(w_db).(users) = w.(w_db).(users)
  end.
Proof.
  intros H. unfold userCheckinWithoutTransaction in H. apply bind_inv in H as [([] & w1 & H1 & H)|(e & H1 & ->)].
  - apply relabel_Ok, create_checkin_inv in H1 as [H1 E1]. simpl in H1, E1.
    apply bind_inv in H as [(x & w2 & H2 & H)|(e & H2 & _)]; [|by apply catch_inv in H2 as (? & [=] & _)].
    apply catch_inv in H2 as (r0 & [= ->] & H2). apply IncreaseUserQuota_db_inv in H2. destruct r0 as [[]|e].
    + injection H as <- <-. destruct H2 as (u & Hu & E2). rewrite E1 in Hu, E2. split; [done|].
      split_and!; [done|by rewrite E2|]. intros _. rewrite E2. by apply quota_moved_update.
    + unfold delete_checkin, bind, catch in H. destruct (stmt w2) as [[[]|e2] w3] eqn:E3; apply stmt_same in E3 as [fs ->];
        injection H as <- <-; simpl; by rewrite H2, E1.
  - apply relabel_Err in H1 as [e0 H1]. apply create_checkin_inv in H1. by rewrite H1.
Qed.

Section checkin_props.
(** math/rand: Intn draws from [0, n). *)
Context (Intn : Z -> Z) (Intn_range : forall n, 0 < n -> 0 <= Intn n < n).

Lemma quota_awarded_range s :
  in_i64 s.(cs_MinQuota) -> in_i64 s.(cs_MaxQuota) -> in_i64 (s.(cs_MaxQuota) - s.(cs_MinQuota) + 1) ->
  s.(cs_MinQuota) <= quota_awarded Intn s <= Z.max s.(cs_MinQuota) s.(cs_MaxQuota).
Proof using All.
  intros H1 H2 H3. unfold quota_awarded. destruct (Z.ltb_spec (cs_MinQuota s) (cs_MaxQuota s)); [|lia].
  rewrite (wrap64_id (cs_MaxQuota s - cs_MinQuota s)) by (unfold in_i64, MinInt64, MaxInt64 in *; lia).
  rewrite (wrap64_id (_ + 1)) by done.
  pose proof (Intn_range (cs_MaxQuota s - cs_MinQuota s + 1)). rewrite wrap64_id; [lia|].
  unfold in_i64 in *. lia.
Qed.

(** A user checks in at most once a day, under any failures and on every kind
    of database: a check-in that succeeds recorded a row for (user, day) that was
    not there -- so the next one that day fails -- and added an award between the
    configured bounds to that user's balance and to no other; one that fails changed
    no balance, and on MySQL and PostgreSQL no table at all. *)
Theorem UserCheckin_once sqlite s userId w r w' :
  UserCheckin Intn sqlite s userId w = (r, w') ->
  in_i64 s.(cs_MinQuota) -> in_i64 s.(cs_MaxQuota) -> in_i64 (s.(cs_MaxQuota) - s.(cs_MinQuota) + 1) ->
  match r with
  | Ok c => checked_in userId c w.(w_db) w'.(w_db) /\ c.(ck_CheckinDate) = format_date w.(w_cfg).(tz_offset) w.(w_clock) /\
            s.(cs_MinQuota) <= c.(ck_QuotaAwarded) <= Z.max s.(cs_MinQuota) s.(cs_MaxQuota)
  | Err _ => (forall id, quota_of w'.(w_db) id = quota_of w.(w_db) id) /\ (sqlite = false -> w'.(w_db) = w.(w_db))
  end.
Proof using All.
  intros H Hmin Hmax Hd. unfold UserCheckin in H. destruct (cs_Enabled s); [simpl in H|by injection H as <- <-].
  apply bind_inv in H as [(has & w1 & H1 & H)|(e & H1 & ->)].
  2:{ unfold HasCheckedInToday, today, cfg, GetTimestamp, bind, gets, ret in H1. simpl in H1.
      destruct (stmt w) as [[[]|e1] w2] eqn:E; apply stmt_same in E as [fs ->]; [done|]. by injection H1 as _ <-. }
  assert (same_but_faults w w1) as [fs ->].
  { unfold HasCheckedInToday, today, cfg, GetTimestamp, bind, gets, ret in H1. simpl in H1.
    destruct (stmt w) as [[[]|e1] w2] eqn:E; apply stmt_same in E; [|done]. by injection H1 as _ <-. }
  destruct has; [by injection H as <- <-|]. unfold today, cfg, GetTimestamp, bind, gets, ret in H. simpl in H.
  pose proof (quota_awarded_range s Hmin Hmax Hd) as Hr. destruct sqlite.
  - apply checkin_without_tx in H. destruct r as [c|e]; simpl in H.
    + destruct H as [-> H]. done.
    + split; [|done]. intros id. by apply quota_of_users.
  - apply checkin_with_tx in H. destruct r as [c|e]; simpl in H.
    + destruct H as [-> H]. done.
    + by rewrite H.
Qed.
End checkin_props.

Lemma UserCheckin_once_witness :
  let w := with_user (sample_user 7 1000) (empty_world (sample_config false false)) in
  let s := mkCheckinSetting true 10 20 in
  exists c w', UserCheckin (fun n => n - 1) false s 7 w = (Ok c, w') /\ quota_of w'.(w_db) 7 = 1020 /\
    checked_in 7 c w.(w_db) w'.(w_db) /\ ck_CheckinDate c = "2023-11-14"%string.
Proof.
  intros w s. pose proof (run_eq (UserCheckin (fun n => n - 1) false s 7) w) as Hr.
  assert (eval (UserCheckin (fun n => n - 1) false s 7) w = Ok (mkCheckin 7 "2023-11-14" 20 1700000000)) as E by (vm_compute; reflexivity).
  rewrite E in Hr. eexists _, _. split; [exact Hr|]. split; [vm_compute; reflexivity|]. split; [|reflexivity].
  assert (forall n, 0 < n -> 0 <= n - 1 < n) as Hi by (intros; lia).
  apply (UserCheckin_once (fun n => n - 1) Hi false s 7 w _ _ Hr); unfold in_i64, MinInt64, MaxInt64; simpl; lia.
Defined.

(** ** Theorems: adjustments *)

(** The balance an adjustment asks for. *)
Definition adjusted (mode : string) (before value : Z) : Z :=
  if String.eqb mode "add" then before + value
  else if String.eqb mode "subtract" then before - value
  else value.

Lemma first_user_inv id w r w' :
  first_user id w = (r, w') -> same_but_faults w w' /\ (forall u, r = Ok u -> visible_user w.(w_db) id = Some u).
Proof.
  unfold first_user, bind, gets. destruct (stmt w) as [[[]|e] w1] eqn:H1; apply stmt_same in H1; destruct H1 as [fs ->]; simpl.
  - destruct (visible_user (w_db w) id) as [u|]; intros H; injection H as <- <-; (split; [by eexists|]); [by intros ? [= ->]|done].
  - intros H. injection H as <- <-. split; [by eexists|done].
Qed.

Section adjust_props.
Context {D : Decimal} {L : DecimalLaws D}.

Lemma adjust_tx_Ok userID role mode value w a w' :
  adjust_tx userID role mode value w = (Ok a, w') ->
  exists u, visible_user w.(w_db) userID = Some u /\ (role = RoleRootUser \/ u.(u_Role) < role) /\
    a.(adj_Before) = u.(u_Quota) /\ a.(adj_After) = adjusted mode u.(u_Quota) value /\
    - MaxWalletQuota <= a.(adj_After) <= MaxWalletQuota /\
    quota_moved userID (a.(adj_After) - a.(adj_Before)) w.(w_db) w'.(w_db).
Proof using All.
  intros H. unfold adjust_tx in H. apply bind_Ok in H as (u & w1 & H1 & H). apply first_user_inv in H1 as [[fs ->] Hu].
  specialize (Hu u eq_refl). exists u. split; [done|].
  destruct (negb (role =? RoleRootUser) && (role <=? u_Role u)) eqn:Hrole; [done|].
  destruct (_ || _); [done|]. set (d := if String.eqb mode "add" then _ else _) in H.
  assert (denotes (d_Round0 d) (adjusted mode (u_Quota u) value)) as Hd.
  { apply d_Round0_denotes. unfold d, adjusted. destruct (String.eqb mode "add"); [apply d_Add_denotes; apply NewFromInt_denotes|].
    destruct (String.eqb mode "subtract"); [apply d_Sub_denotes; apply NewFromInt_denotes|apply NewFromInt_denotes]. }
  pose proof (WalletQuotaFromDecimalStrict_range d) as Hrange.
  destruct (WalletQuotaFromDecimalStrict d) as [after|] eqn:Hafter; [|done]. specialize (Hrange after eq_refl).
  assert (after = adjusted mode (u_Quota u) value) as Ha.
  { destruct (WalletQuotaFromDecimalStrict_denotes d _ Hd) as [Hin Hout].
    destruct (decide (- MaxWalletQuota <= adjusted mode (u_Quota u) value <= MaxWalletQuota)) as [Hr|Hr].
    - rewrite Hin in Hafter by done. by injection Hafter.
    - destruct (Hout Hr) as [c Hc]. congruence. }
  split. { apply andb_false_iff in Hrole as [Hr|Hr]; [left|right; by apply Z.leb_gt]. apply negb_false_iff in Hr. lia. }
  apply bind_Ok in H as ([] & w2 & H2 & H). injection H as <- <-. simpl. split; [done|]. split; [done|]. split; [done|].
  destruct (Z.eqb_spec after (u_Quota u)) as [E|E].
  - injection H2 as <-. simpl. intros id. rewrite E. destruct (userID =? id); lia.
  - apply bind_Ok in H2 as (n & w3 & H3 & H2).
    assert (w3 = w2) as -> by (by destruct (negb (n =? 1)); [|injection H2]).
    unfold update_user, bind, gets in H3. destruct (stmt _) as [[[]|e] w4] eqn:E4; apply stmt_same in E4 as [fs' ->]; [|done].
    simpl in H3. rewrite Hu in H3. injection H3 as <- <-. simpl.
    pose proof (quota_moved_update userID (after - u_Quota u) u (w_db w) (w_db w) Hu eq_refl) as Hm.
    replace (set_u_Quota (fun _ => after) u) with (set_u_Quota (fun x => x + (after - u_Quota u)) u); [exact Hm|].
    unfold set_u_Quota. f_equal. lia.
Qed.

(** A manual adjustment is exact and authorised, whatever fails: one that
    succeeds was made by a root user or by someone above the target's role, set the
    balance to exactly the old one plus, minus or replaced by the value, inside the
    wallet bounds, and moved no other balance; one that fails changed no table. *)
Theorem AdjustUserQuota_exact userID role mode value w r w' :
  AdjustUserQuota userID role mode value w = (r, w') ->
  match r with
  | Ok a => exists u, visible_user w.(w_db) userID = Some u /\ (role = RoleRootUser \/ u.(u_Role) < role) /\
      a.(adj_Before) = u.(u_Quota) /\ a.(adj_After) = adjusted mode u.(u_Quota) value /\
      - MaxWalletQuota <= a.(adj_After) <= MaxWalletQuota /\
      quota_moved userID (a.(adj_After) - a.(adj_Before)) w.(w_db) w'.(w_db)
  | Err _ => w'.(w_db) = w.(w_db)
  end.
Proof using All.
  intros H. unfold AdjustUserQuota in H. destruct (_ || _); [by injection H as <- <-|].
  destruct (_ && _); [by injection H as <- <-|]. destruct (_ || _); [by injection H as <- <-|].
  apply bind_inv in H as [(a & w1 & H1 & H)|(e & H1 & ->)].
  - apply Transaction_inv in H1 as [(e & [=] & _)|(a' & w2 & w3 & [= <-] & [fs ->] & H1 & [fs' ->])].
    assert (r = Ok a /\ w_db w' = w_db w3) as [-> ->].
    { unfold bind, catch in H. destruct (_ =? 0); [by injection H as <- <-|].
      destruct (cacheIncrUserQuota _ _ _) as [r2 w4] eqn:E4. quiet E4. injection H as <- <-. split; [done|]. by injection E4. }
    apply adjust_tx_Ok in H1. exact H1.
  - apply Transaction_inv in H1 as [(e' & _ & E)|(a' & w2 & w3 & [=] & _)]. done.
Qed.
End adjust_props.

Lemma AdjustUserQuota_exact_witness :
  let w := with_user (sample_user 7 1000) (empty_world (sample_config false false)) in
  exists a w', AdjustUserQuota 7 10 "subtract" 300 w = (Ok a, w') /\ quota_of w'.(w_db) 7 = 700 /\ a.(adj_After) = 700 /\
    quota_moved 7 (a.(adj_After) - a.(adj_Before)) w.(w_db) w'.(w_db).
Proof.
  intros w. pose proof (run_eq (AdjustUserQuota 7 10 "subtract" 300) w) as Hr.
  assert (eval (AdjustUserQuota 7 10 "subtract" 300) w = Ok (mkAdjustment 7 "alice" 1000 700)) as E by (vm_compute; reflexivity).
  rewrite E in Hr. eexists _, _. split; [exact Hr|]. split; [vm_compute; reflexivity|]. split; [reflexivity|].
  destruct (AdjustUserQuota_exact _ _ _ _ _ _ _ Hr) as (u & _ & _ & _ & _ & _ & H). exact H.
Defined.

(** ** Theorems: invitation rewards *)

(** Transferring invitation rewards conserves them: a transfer that succeeds
    moved exactly the amount from the reward balance to the wallet of that user,
    never more than the rewards there were, and touched no other row; one that fails
    changed no table. *)
Theorem TransferAffQuotaToQuota_conserves userId quota w r w' :
  TransferAffQuotaToQuota userId quota w = (r, w') ->
  (forall u, visible_user w.(w_db) userId = Some u ->
     u.(u_Id) = userId /\ in_i64 (u.(u_AffQuota) - quota) /\ in_i64 (u.(u_Quota) + quota)) ->
  match r with
  | Ok _ => exists u u', visible_user w.(w_db) userId = Some u /\ w'.(w_db) = set_users (insert userId u') w.(w_db) /\
      u'.(u_AffQuota) = u.(u_AffQuota) - quota /\ u'.(u_Quota) = u.(u_Quota) + quota /\ 0 <= u'.(u_AffQuota) /\
      f_lt (float64_of_int quota) w.(w_cfg).(QuotaPerUnit) = false
  | Err _ => w'.(w_db) = w.(w_db)
  end.
Proof.
  intros H Hok. unfold TransferAffQuotaToQuota in H. apply bind_inv in H as [(un & w0 & H0 & H)|(e & [=] & _)].
  injection H0 as <- <-. destruct (f_lt _ _) eqn:Hmin; [by injection H as <- <-|].
  apply Transaction_inv in H as [(e & -> & ->)|(a & w2 & w3 & -> & [fs ->] & H1 & [fs' ->])]; [done|].
  apply bind_Ok in H1 as (u & w4 & H4 & H1). apply first_user_inv in H4 as [[fs4 ->] Hu]. specialize (Hu u eq_refl). simpl in Hu.
  destruct (Hok u Hu) as (Eid & Ha & Hq). destruct (Z.ltb_spec (u_AffQuota u) quota); [done|].
  unfold save_user, bind in H1. destruct (stmt _) as [[[]|e] w5] eqn:E5; apply stmt_same in E5 as [fs5 ->]; [|done].
  injection H1 as _ <-. simpl. rewrite Eid.
  eexists u, _. split; [done|]. split; [reflexivity|]. simpl. rewrite !wrap64_id by done. split_and!; [done|done|lia|done].
Qed.

Lemma TransferAffQuotaToQuota_conserves_witness :
  let u := set_u_AffQuota (fun _ => 600000) (sample_user 7 1000) in
  let w := with_user u (empty_world (sample_config false false)) in
  exists w', TransferAffQuotaToQuota 7 500000 w = (Ok tt, w') /\ quota_of w'.(w_db) 7 = 501000 /\
    exists u u', visible_user w.(w_db) 7 = Some u /\ w'.(w_db) = set_users (insert 7 u') w.(w_db) /\ u'.(u_AffQuota) = u.(u_AffQuota) - 500000.
Proof.
  intros u w. pose proof (run_eq (TransferAffQuotaToQuota 7 500000) w) as Hr.
  assert (eval (TransferAffQuotaToQuota 7 500000) w = Ok tt) as E by (vm_compute; reflexivity).
  rewrite E in Hr. eexists _. split; [exact Hr|]. split; [vm_compute; reflexivity|].
  destruct (TransferAffQuotaToQuota_conserves _ _ _ _ _ Hr) as (u1 & u2 & H1 & H2 & H3 & _).
  - intros u0 Hu0. vm_compute in Hu0. injection Hu0 as <-. unfold in_i64, MinInt64, MaxInt64. simpl. lia.
  - exists u1, u2. split; [exact H1|]. split; [exact H2|exact H3].
Defined.
