(* ===== verification/StatusCodes.v ===== *)
(** * Retry and disable rules (setting/operation_setting/status_code_ranges.go)

    An administrator writes HTTP status codes and ranges, such as "401,500-503"; the
    rule is kept as sorted, disjoint ranges, decides whether a failed request is
    retried or its channel disabled, and is printed back for the settings page. *)

From stdpp Require Import base tactics numbers list strings pretty sorting.
From Stdlib Require Import ZArith Lia Ascii String.
From S2P Require Import Prelude.
Open Scope Z_scope.

Record StatusCodeRange := mkRange { Start : Z; End_ : Z }.

#[export] Instance StatusCodeRange_eq_dec : EqDecision StatusCodeRange.
Proof. solve_decision. Defined.

(** ** Strings *)

Definition comma : ascii := ","%char.
Definition dash : ascii := "-"%char.
Definition space : ascii := " "%char.

(** [strings.Join(parts, sep)] *)
Fixpoint Join (sep : ascii) (parts : list string) : string :=
  match parts with
  | [] => EmptyString
  | [p] => p
  | p :: ps => p +:+ String sep (Join sep ps)
  end.

(** [strings.ReplaceAll(s, " ", "")] *)
Fixpoint remove_char (x : ascii) (s : string) : string :=
  match s with
  | EmptyString => EmptyString
  | String c s' => if bool_decide (c = x) then remove_char x s' else String c (remove_char x s')
  end.

(** The replacer of the full-width comma, three bytes in UTF-8, by a comma *)
Definition fw0 : ascii := Ascii.ascii_of_nat 239.
Definition fw1 : ascii := Ascii.ascii_of_nat 188.
Definition fw2 : ascii := Ascii.ascii_of_nat 140.
Fixpoint replace_fullwidth (s : string) : string :=
  match s with
  | String a (String b (String c rest) as t) =>
      if bool_decide (a = fw0) && bool_decide (b = fw1) && bool_decide (c = fw2)
      then String comma (replace_fullwidth rest) else String a (replace_fullwidth t)
  | String a t => String a (replace_fullwidth t)
  | EmptyString => EmptyString
  end.

Fixpoint contains_char (x : ascii) (s : string) : bool :=
  match s with
  | EmptyString => false
  | String c s' => bool_decide (c = x) || contains_char x s'
  end.

(** [strconv.Atoi]: an optional sign, at least one digit, in the range of int *)
Definition digit (c : ascii) : option Z :=
  let n := Z.of_nat (Ascii.nat_of_ascii c) in
  if (48 <=? n) && (n <=? 57) then Some (n - 48) else None.
Fixpoint digits (s : string) (acc : Z) : option Z :=
  match s with
  | EmptyString => Some acc
  | String c s' => match digit c with Some d => digits s' (10 * acc + d) | None => None end
  end.
Definition unsigned (s : string) : option Z := match s with EmptyString => None | _ => digits s 0 end.
Definition Atoi (s : string) : option Z :=
  let n := match s with
           | String "-"%char s' => Z.opp <$> unsigned s'
           | String "+"%char s' => unsigned s'
           | _ => unsigned s
           end in
  match n with
  | Some z => if (MinInt64 <=? z) && (z <=? MaxInt64) then Some z else None
  | None => None
  end.

(** [strconv.Itoa] *)
Definition Itoa (z : Z) : string := pretty z.

(** ** Parsing *)

Definition parseHTTPStatusCodeToken (token : string) : option StatusCodeRange :=
  let token := remove_char space (TrimSpace token) in
  if String.eqb token "" then None
  else if contains_char dash token then
    match Split dash token with
    | [a; b] =>
        if String.eqb a "" || String.eqb b "" then None
        else match Atoi a, Atoi b with
             | Some s, Some e =>
                 if (e <? s) || (s <? 100) || (599 <? e) then None else Some (mkRange s e)
             | _, _ => None
             end
    | _ => None
    end
  else match Atoi token with
       | Some code => if (code <? 100) || (599 <? code) then None else Some (mkRange code code)
       | None => None
       end.

(** The loop over the segments: the ranges and the invalid segments, in order. *)
Fixpoint parse_segments (segs : list string) : list StatusCodeRange * list string :=
  match segs with
  | [] => ([], [])
  | seg :: rest =>
      let seg := TrimSpace seg in
      let '(ranges, invalid) := parse_segments rest in
      if String.eqb seg "" then (ranges, invalid)
      else match parseHTTPStatusCodeToken seg with
           | Some r => (r :: ranges, invalid)
           | None => (ranges, seg :: invalid)
           end
  end.

Definition range_le (a b : StatusCodeRange) : Prop :=
  if a.(Start) =? b.(Start) then a.(End_) <= b.(End_) else a.(Start) <= b.(Start).
#[export] Instance range_le_dec a b : Decision (range_le a b).
Proof. unfold range_le. destruct (_ =? _); apply _. Defined.

(** The merging loop, [last] being the last range of [merged]. *)
Fixpoint merge_ranges (last : StatusCodeRange) (ranges : list StatusCodeRange) : list StatusCodeRange :=
  match ranges with
  | [] => [last]
  | r :: rest =>
      if r.(Start) <=? last.(End_) + 1
      then merge_ranges (if last.(End_) <? r.(End_) then mkRange last.(Start) r.(End_) else last) rest
      else last :: merge_ranges r rest
  end.

(** [Err]: the invalid segments. *)
Definition ParseHTTPStatusCodeRanges (input : string) : result (list string) (list StatusCodeRange) :=
  let input := TrimSpace input in
  if String.eqb input "" then Ok []
  else
    let (ranges, invalid) := parse_segments (Split comma (replace_fullwidth input)) in
    match invalid with
    | [] =>
        match merge_sort range_le ranges with
        | [] => Ok []
        | r :: rest => Ok (merge_ranges r rest)
        end
    | _ => Err invalid
    end.

(** ** Printing and matching *)

Definition range_to_string (r : StatusCodeRange) : string :=
  if r.(Start) =? r.(End_) then Itoa r.(Start) else Itoa r.(Start) +:+ String dash (Itoa r.(End_)).
Definition statusCodeRangesToString (ranges : list StatusCodeRange) : string :=
  Join comma (range_to_string <$> ranges).

Fixpoint match_loop (ranges : list StatusCodeRange) (code : Z) : bool :=
  match ranges with
  | [] => false
  | r :: rest =>
      if code <? r.(Start) then false
      else if code <=? r.(End_) then true
      else match_loop rest code
  end.
Definition shouldMatchStatusCodeRanges (ranges : list StatusCodeRange) (code : Z) : bool :=
  if (code <? 100) || (599 <? code) then false else match_loop ranges code.

(** The two settings. *)
Record StatusRules := mkRules { AutomaticDisableStatusCodeRanges : list StatusCodeRange;
                                AutomaticRetryStatusCodeRanges : list StatusCodeRange }.
Definition default_rules : StatusRules :=
  mkRules [mkRange 401 401]
    [mkRange 100 199; mkRange 300 399; mkRange 401 407; mkRange 409 499; mkRange 500 503; mkRange 505 523; mkRange 525 599].

Definition AutomaticDisableStatusCodesFromString (s : string) : M StatusRules (list string) unit :=
  let! ranges := of_result (ParseHTTPStatusCodeRanges s) in
  modify (fun r => mkRules ranges r.(AutomaticRetryStatusCodeRanges)).
Definition AutomaticRetryStatusCodesFromString (s : string) : M StatusRules (list string) unit :=
  let! ranges := of_result (ParseHTTPStatusCodeRanges s) in
  modify (fun r => mkRules r.(AutomaticDisableStatusCodeRanges) ranges).
Definition AutomaticDisableStatusCodesToString (r : StatusRules) : string :=
  statusCodeRangesToString r.(AutomaticDisableStatusCodeRanges).
Definition AutomaticRetryStatusCodesToString (r : StatusRules) : string :=
  statusCodeRangesToString r.(AutomaticRetryStatusCodeRanges).
Definition ShouldDisableByStatusCode (r : StatusRules) (code : Z) : bool :=
  shouldMatchStatusCodeRanges r.(AutomaticDisableStatusCodeRanges) code.
Definition IsAlwaysSkipRetryStatusCode (code : Z) : bool := (code =? 504) || (code =? 524).
(** [types.ErrorCode] is a string; the code of [types.ErrorCodeBadResponseBody]. *)
Definition IsAlwaysSkipRetryCode (errorCode : string) : bool := String.eqb errorCode "bad_response_body".
Definition ShouldRetryByStatusCode (r : StatusRules) (code : Z) : bool :=
  if IsAlwaysSkipRetryStatusCode code then false
  else shouldMatchStatusCodeRanges r.(AutomaticRetryStatusCodeRanges) code.

(** ** The normal form *)

Definition valid_range (r : StatusCodeRange) : Prop := 100 <= r.(Start) <= r.(End_) /\ r.(End_) <= 599.

(** Sorted, with a gap between neighbours. *)
Fixpoint normal (ranges : list StatusCodeRange) : Prop :=
  match ranges with
  | [] => True
  | r :: rest => valid_range r /\ match rest with [] => True | r' :: _ => r.(End_) + 1 < r'.(Start) end /\ normal rest
  end.

Definition covers (r : StatusCodeRange) (code : Z) : Prop := r.(Start) <= code <= r.(End_).
Definition covered (ranges : list StatusCodeRange) (code : Z) : Prop := Exists (fun r => covers r code) ranges.

Lemma normal_head_least r rest code : normal (r :: rest) -> covered rest code -> r.(End_) < code.
Proof.
  revert r. induction rest as [|r' rest IH]; intros r (Hv & Hgap & Hn) Hc; [by apply Exists_nil in Hc|].
  apply Exists_cons in Hc as [Hc|Hc].
  - unfold covers in Hc. lia.
  - specialize (IH r' Hn Hc). destruct Hn as (Hv' & _). unfold valid_range in *. lia.
Qed.

Lemma match_loop_covered ranges code : normal ranges -> (match_loop ranges code = true <-> covered ranges code).
Proof.
  induction ranges as [|r rest IH]; intros Hn; simpl.
  { split; [done|]. intros H. by apply Exists_nil in H. }
  destruct Hn as (Hv & Hgap & Hn). unfold covered. rewrite Exists_cons. fold (covered rest code).
  destruct (Z.ltb_spec code r.(Start)).
  - split; [done|]. intros [H1|H1]; [unfold covers in H1; lia|].
    pose proof (normal_head_least r rest code (conj Hv (conj Hgap Hn)) H1). unfold valid_range in Hv. lia.
  - destruct (Z.leb_spec code r.(End_)).
    + split; [|done]. intros _. left. unfold covers. lia.
    + rewrite IH by done. split; [by right|]. intros [H1|H1]; [unfold covers in H1; lia|done].
Qed.

Lemma covered_bounds ranges code : Forall valid_range ranges -> covered ranges code -> 100 <= code <= 599.
Proof.
  intros Hv Hc. apply Exists_exists in Hc as (r & Hr & Hc). rewrite Forall_forall in Hv. specialize (Hv r Hr).
  unfold valid_range, covers in *. lia.
Qed.

Lemma normal_valid ranges : normal ranges -> Forall valid_range ranges.
Proof. induction ranges as [|r rest IH]; [done|]. intros (H1 & _ & H2). constructor; auto. Qed.

Lemma shouldMatch_covered ranges code : normal ranges -> (shouldMatchStatusCodeRanges ranges code = true <-> covered ranges code).
Proof.
  intros Hn. unfold shouldMatchStatusCodeRanges. destruct ((code <? 100) || (599 <? code)) eqn:E.
  - split; [done|]. intros Hc. apply covered_bounds in Hc; [|by apply normal_valid]. lia.
  - by apply match_loop_covered.
Qed.

(** ** Merging *)

Definition starts_after (x : Z) (ranges : list StatusCodeRange) : Prop := Forall (fun r => x <= r.(Start)) ranges.

Lemma sorted_starts r rest : StronglySorted range_le (r :: rest) -> starts_after r.(Start) rest.
Proof.
  intros H. apply StronglySorted_inv in H as [_ H]. eapply Forall_impl; [exact H|]. intros x Hx. unfold range_le in Hx.
  destruct (Z.eqb_spec (Start r) (Start x)); lia.
Qed.

Lemma merge_ranges_spec ranges last :
  valid_range last -> Forall valid_range ranges -> StronglySorted range_le ranges -> starts_after last.(Start) ranges ->
  normal (merge_ranges last ranges) /\ (exists r rest, merge_ranges last ranges = r :: rest /\ r.(Start) = last.(Start)) /\
  forall code, covered (merge_ranges last ranges) code <-> covered (last :: ranges) code.
Proof.
  revert last. induction ranges as [|r rest IH]; intros last Hl Hv Hs Ha; simpl.
  { split; [done|]. split; [by eexists _, _|done]. }
  apply Forall_cons in Hv as [Hr Hv]. apply Forall_cons in Ha as [Har Ha].
  pose proof (sorted_starts _ _ Hs) as Hrest. apply StronglySorted_inv in Hs as [Hs _].
  destruct (Z.leb_spec r.(Start) (last.(End_) + 1)) as [Hle|Hgt].
  - set (last' := if _ <? _ then _ else _).
    assert (valid_range last' /\ Start last' = Start last /\ End_ last' = Z.max (End_ last) (End_ r)) as (Hl' & Es & Ee).
    { unfold last', valid_range in *. destruct (Z.ltb_spec (End_ last) (End_ r)); simpl; lia. }
    destruct (IH last' Hl' Hv Hs) as (H1 & H2 & H3); [by rewrite Es|].
    split; [done|]. rewrite Es in H2. split; [done|]. intros code. rewrite H3. unfold covered. rewrite !Exists_cons.
    unfold covers, valid_range in *. rewrite Es, Ee. split; [intros [H|H]|intros [H|[H|H]]]; auto; [|left; lia..].
    destruct (decide (code <= End_ last)); [left; lia|right; left; lia].
  - destruct (IH r Hr Hv Hs Hrest) as (H1 & (x & xs & E & Ex) & H3). split_and!.
    + rewrite E in *. simpl in *. split; [done|]. split; [lia|done].
    + by eexists _, _.
    + intros code. unfold covered in *. rewrite Exists_cons, H3, !Exists_cons. done.
Qed.

(** ** Tokens *)

Lemma token_valid s r : parseHTTPStatusCodeToken s = Some r -> valid_range r.
Proof.
  unfold parseHTTPStatusCodeToken. intros H. repeat case_match; simplify_eq; unfold valid_range; simpl; lia.
Qed.

(** The tokens an input consists of. *)
Definition tokens_of (input : string) : list string :=
  filter (fun s => s <> EmptyString) (TrimSpace <$> Split comma (replace_fullwidth (TrimSpace input))).

Lemma parse_segments_spec segs :
  let '(ranges, invalid) := parse_segments segs in
  let tokens := filter (fun s => s <> EmptyString) (TrimSpace <$> segs) in
  ranges = omap parseHTTPStatusCodeToken tokens /\ invalid = filter (fun t => parseHTTPStatusCodeToken t = None) tokens.
Proof.
  induction segs as [|seg segs IH]; simpl; [done|]. destruct (parse_segments segs) as [ranges invalid]. destruct IH as [-> ->].
  rewrite filter_cons. destruct (String.eqb_spec (TrimSpace seg) "") as [E|E].
  - rewrite decide_False by (rewrite E; auto). done.
  - rewrite decide_True by done. simpl. rewrite filter_cons.
    destruct (parseHTTPStatusCodeToken (TrimSpace seg)); case_decide; done.
Qed.

Lemma omap_covered tokens code :
  covered (omap parseHTTPStatusCodeToken tokens) code <->
  exists t r, t ∈ tokens /\ parseHTTPStatusCodeToken t = Some r /\ covers r code.
Proof.
  unfold covered. rewrite Exists_exists. setoid_rewrite list_elem_of_omap.
  split; [intros (r & (t & H1 & H2) & H3)|intros (t & r & H1 & H2 & H3)]; eauto.
Qed.

Lemma omap_valid tokens : Forall valid_range (omap parseHTTPStatusCodeToken tokens).
Proof. apply Forall_forall. intros r Hr. apply list_elem_of_omap in Hr as (t & _ & Ht). by eapply token_valid. Qed.

#[export] Instance range_le_trans : Transitive range_le.
Proof. intros a b c. unfold range_le. repeat case_match; lia. Qed.
#[export] Instance range_le_total : Total range_le.
Proof. intros a b. unfold range_le. repeat case_match; lia. Qed.

Lemma sort_merge ranges :
  Forall valid_range ranges ->
  let merged := match merge_sort range_le ranges with [] => [] | r :: rest => merge_ranges r rest end in
  normal merged /\ forall code, covered merged code <-> covered ranges code.
Proof.
  intros Hv. pose proof (merge_sort_Permutation range_le ranges) as Hp. pose proof (StronglySorted_merge_sort range_le ranges) as Hs.
  rewrite <- Hp in Hv. assert (forall code, covered (merge_sort range_le ranges) code <-> covered ranges code) as Hc.
  { intros code. unfold covered. by rewrite Hp. }
  destruct (merge_sort range_le ranges) as [|r rest]; [by split|]. apply Forall_cons in Hv as [Hr Hv].
  pose proof (sorted_starts _ _ Hs) as Ha. apply StronglySorted_inv in Hs as [Hs _].
  destruct (merge_ranges_spec rest r Hr Hv Hs Ha) as (H1 & _ & H3). split; [done|]. intros code. by rewrite H3, Hc.
Qed.

(** A parsed rule means what was written: an input with an invalid token is
    refused with exactly its invalid tokens, and from any other input the parser
    builds sorted ranges with gaps between them, inside 100 to 599, which match a
    status code exactly when one of the written tokens covers it. *)
Theorem parsed_rule_matches input :
  match ParseHTTPStatusCodeRanges input with
  | Ok ranges =>
      normal ranges /\
      forall code, shouldMatchStatusCodeRanges ranges code = true <->
        exists t r, t ∈ tokens_of input /\ parseHTTPStatusCodeToken t = Some r /\ covers r code
  | Err invalid => invalid <> [] /\ invalid = filter (fun t => parseHTTPStatusCodeToken t = None) (tokens_of input)
  end.
Proof.
  unfold ParseHTTPStatusCodeRanges, tokens_of. destruct (String.eqb_spec (TrimSpace input) "") as [E|E].
  { split; [done|]. intros code. rewrite shouldMatch_covered by done. rewrite E. simpl. unfold covered. rewrite Exists_nil.
    split; [done|]. intros (t & r & Ht & _). by apply elem_of_nil in Ht. }
  pose proof (parse_segments_spec (Split comma (replace_fullwidth (TrimSpace input)))) as H.
  destruct (parse_segments _) as [ranges invalid]. destruct H as [-> Hi]. destruct invalid as [|i rest]; [|done].
  destruct (sort_merge _ (omap_valid (filter (fun s => s <> EmptyString) (TrimSpace <$> Split comma (replace_fullwidth (TrimSpace input))))))
    as [Hn Hc].
  destruct (merge_sort _ _) as [|r rest]; (split; [done|]); intros code; rewrite shouldMatch_covered by done;
    rewrite Hc; apply omap_covered.
Qed.

(** ** Printing and parsing back *)

(** [all p s]: every character of [s] satisfies [p]. *)
Fixpoint all (p : ascii -> bool) (s : string) : bool :=
  match s with EmptyString => true | String c s' => p c && all p s' end.

Lemma all_app p a b : all p (a +:+ b) = all p a && all p b.
Proof. induction a as [|c a IH]; simpl; [done|]. by rewrite IH, andb_assoc. Qed.
Lemma all_impl (p q : ascii -> bool) s : (forall c, p c = true -> q c = true) -> all p s = true -> all q s = true.
Proof.
  intros H. induction s as [|c s IH]; simpl; [done|]. rewrite !andb_true_iff. intros [H1 H2]. auto.
Qed.

(** The characters a printed rule is made of. *)
Definition printed_char (c : ascii) : bool :=
  bool_decide (is_Some (digit c)) || bool_decide (c = dash) || bool_decide (c = comma).

Lemma all_chars_spec (p : ascii -> bool) : forallb p (Ascii.ascii_of_nat <$> seq 0 256) = true -> forall c, p c = true.
Proof.
  rewrite forallb_forall. intros H c. apply H. rewrite <- (Ascii.ascii_nat_embedding c). apply list_elem_of_In.
  apply list_elem_of_fmap. eexists. split; [done|]. apply elem_of_seq. pose proof (Ascii.nat_ascii_bounded c). lia.
Qed.
Lemma printed_char_plain c : printed_char c = true -> is_space c = false /\ c <> space /\ c <> fw0.
Proof.
  assert (implb (printed_char c) (negb (is_space c) && negb (bool_decide (c = space)) && negb (bool_decide (c = fw0))) = true) as H.
  { revert c. apply all_chars_spec. vm_compute. reflexivity. }
  intros Hc. rewrite Hc in H. simpl in H. rewrite !andb_true_iff, !negb_true_iff, !bool_decide_eq_false in H. tauto.
Qed.

Lemma trim_left_id s : all (fun c => negb (is_space c)) s = true -> trim_left s = s.
Proof. destruct s as [|c s]; simpl; [done|]. rewrite andb_true_iff, negb_true_iff. by intros [-> _]. Qed.
Lemma all_list p s : all p s = forallb p (String.list_ascii_of_string s).
Proof. induction s as [|c s IH]; simpl; [done|]. by rewrite IH. Qed.
Lemma TrimSpace_id s : all (fun c => negb (is_space c)) s = true -> TrimSpace s = s.
Proof.
  intros H. unfold TrimSpace. rewrite (trim_left_id s) by done. unfold string_rev.
  rewrite trim_left_id.
  - rewrite String.list_ascii_of_string_of_list_ascii, rev_involutive. apply String.string_of_list_ascii_of_string.
  - rewrite all_list, String.list_ascii_of_string_of_list_ascii. rewrite all_list, forallb_forall in H. apply forallb_forall.
    intros c Hc. apply H. by apply in_rev.
Qed.
Lemma remove_char_id x s : all (fun c => negb (bool_decide (c = x))) s = true -> remove_char x s = s.
Proof.
  induction s as [|c s IH]; simpl; [done|]. rewrite andb_true_iff, negb_true_iff. intros [-> H]. by rewrite IH.
Qed.
Lemma replace_fullwidth_id s : all (fun c => negb (bool_decide (c = fw0))) s = true -> replace_fullwidth s = s.
Proof.
  induction s as [|a s IH]; [done|]. simpl. rewrite andb_true_iff, negb_true_iff. intros [Ha Hs]. rewrite IH by done.
  destruct s as [|b [|c s]]; try done. by rewrite Ha.
Qed.
Lemma Split_none sep s : all (fun c => negb (bool_decide (c = sep))) s = true -> Split sep s = [s].
Proof.
  induction s as [|c s IH]; simpl; [done|]. rewrite andb_true_iff, negb_true_iff. intros [-> H]. by rewrite IH.
Qed.
Lemma Split_app sep a s : all (fun c => negb (bool_decide (c = sep))) a = true -> Split sep (a +:+ String sep s) = a :: Split sep s.
Proof.
  induction a as [|c a IH]; simpl; [intros _; by rewrite bool_decide_true|].
  rewrite andb_true_iff, negb_true_iff. intros [-> H]. by rewrite IH.
Qed.
Lemma Split_Join sep ps :
  ps <> [] -> Forall (fun p => all (fun c => negb (bool_decide (c = sep))) p = true) ps -> Split sep (Join sep ps) = ps.
Proof.
  induction ps as [|p [|p' ps] IH]; intros Hne H; [done|..]; apply Forall_cons in H as [Hp H].
  - by apply Split_none.
  - change (Join sep (p :: p' :: ps)) with (p +:+ String sep (Join sep (p' :: ps))). rewrite Split_app, IH by done. done.
Qed.

(** ** Numbers *)

Definition code_text_ok (z : Z) : bool :=
  let s := Itoa z in
  all (fun c => bool_decide (is_Some (digit c))) s && negb (String.eqb s "") && bool_decide (Atoi s = Some z).
Lemma code_text z : 100 <= z <= 599 ->
  all (fun c => bool_decide (is_Some (digit c))) (Itoa z) = true /\ Itoa z <> EmptyString /\ Atoi (Itoa z) = Some z.
Proof.
  intros Hz. assert (forallb code_text_ok (seqZ 100 500) = true) as H by (vm_compute; reflexivity).
  rewrite forallb_forall in H. specialize (H z ltac:(apply list_elem_of_In, elem_of_seqZ; lia)). unfold code_text_ok in H.
  rewrite !andb_true_iff, negb_true_iff, String.eqb_neq, bool_decide_eq_true in H. tauto.
Qed.

Lemma digit_char c : bool_decide (is_Some (digit c)) = true ->
  printed_char c = true /\ negb (bool_decide (c = comma)) = true /\ negb (bool_decide (c = dash)) = true.
Proof.
  assert (implb (bool_decide (is_Some (digit c)))
    (printed_char c && negb (bool_decide (c = comma)) && negb (bool_decide (c = dash))) = true) as H.
  { revert c. apply all_chars_spec. vm_compute. reflexivity. }
  intros Hc. rewrite Hc in H. simpl in H. rewrite !andb_true_iff in H. tauto.
Qed.

(** A printed range is a token without separators, and reads back as the range. *)
Lemma printed_token r :
  valid_range r ->
  all (fun c => printed_char c && negb (bool_decide (c = comma))) (range_to_string r) = true /\
  range_to_string r <> EmptyString /\ contains_char dash (Itoa (Start r)) = false /\
  all (fun c => negb (bool_decide (c = dash))) (Itoa (Start r)) = true /\
  all (fun c => negb (bool_decide (c = dash))) (Itoa (End_ r)) = true.
Proof.
  intros Hv. unfold valid_range in Hv.
  destruct (code_text (Start r)) as (D1 & N1 & _); [lia|]. destruct (code_text (End_ r)) as (D2 & N2 & _); [lia|].
  assert (forall s, all (fun c => bool_decide (is_Some (digit c))) s = true ->
    all (fun c => printed_char c && negb (bool_decide (c = comma))) s = true /\ all (fun c => negb (bool_decide (c = dash))) s = true) as H.
  { intros s Hs. split; (eapply all_impl; [|exact Hs]); intros c Hc; apply digit_char in Hc as (H1 & H2 & H3); [|done].
    by rewrite H1, H2. }
  destruct (H _ D1) as [P1 Q1]. destruct (H _ D2) as [P2 Q2]. split_and!; [| | |done|done].
  - unfold range_to_string. destruct (_ =? _); [done|]. rewrite all_app, P1. simpl. by rewrite P2.
  - unfold range_to_string. destruct (_ =? _); [done|]. by destruct (Itoa (Start r)).
  - clear -Q1. induction (Itoa (Start r)) as [|c s IH]; simpl in *; [done|]. rewrite andb_true_iff, negb_true_iff in Q1.
    destruct Q1 as [-> Q1]. auto.
Qed.

Lemma plain_token s :
  all (fun c => printed_char c && negb (bool_decide (c = comma))) s = true ->
  TrimSpace s = s /\ remove_char space s = s /\ all printed_char s = true /\ all (fun c => negb (bool_decide (c = comma))) s = true.
Proof.
  intros H. assert (all printed_char s = true) as Hp.
  { eapply all_impl; [|exact H]. intros c Hc. by apply andb_true_iff in Hc as [Hc _]. }
  split_and!; [apply TrimSpace_id|apply remove_char_id|done|].
  1-2: eapply all_impl; [|exact Hp]; intros c Hc; apply printed_char_plain in Hc as (H1 & H2 & H3).
  - by rewrite H1.
  - by rewrite bool_decide_false.
  - eapply all_impl; [|exact H]. intros c Hc. by apply andb_true_iff in Hc as [_ Hc].
Qed.

Lemma contains_app x a b : contains_char x (a +:+ String x b) = true.
Proof. induction a as [|c a IH]; simpl; [by rewrite bool_decide_true|]. by rewrite IH, orb_true_r. Qed.

Lemma token_roundtrip r : valid_range r -> parseHTTPStatusCodeToken (range_to_string r) = Some r.
Proof.
  intros Hv. destruct (printed_token r Hv) as (P & N & C & D1 & D2). destruct (plain_token _ P) as (T & R & _ & _).
  unfold parseHTTPStatusCodeToken. rewrite T, R. destruct (String.eqb_spec (range_to_string r) ""); [done|].
  unfold valid_range in Hv. destruct (code_text (Start r)) as (_ & N1 & A1); [lia|]. destruct (code_text (End_ r)) as (_ & N2 & A2); [lia|].
  unfold range_to_string. destruct (Z.eqb_spec (Start r) (End_ r)) as [E|E].
  - rewrite C, A1. destruct r as [a b]. simpl in *. replace ((a <? 100) || (599 <? a)) with false by lia. by subst.
  - rewrite contains_app, (Split_app dash _ _ D1), (Split_none dash _ D2), A1, A2.
    destruct (String.eqb_spec (Itoa (Start r)) ""); [done|]. destruct (String.eqb_spec (Itoa (End_ r)) ""); [done|]. simpl.
    replace ((End_ r <? Start r) || (Start r <? 100) || (599 <? End_ r)) with false by lia. by destruct r.
Qed.

Lemma segments_roundtrip ranges : Forall valid_range ranges -> parse_segments (range_to_string <$> ranges) = (ranges, []).
Proof.
  induction ranges as [|r ranges IH]; [done|]. intros H. apply Forall_cons in H as [Hr H].
  rewrite fmap_cons. cbn [parse_segments]. rewrite IH by done.
  destruct (printed_token r Hr) as (P & N & _). destruct (plain_token _ P) as (T & _). rewrite T.
  destruct (String.eqb_spec (range_to_string r) ""); [done|]. by rewrite token_roundtrip.
Qed.

Lemma normal_sorted ranges : normal ranges -> StronglySorted range_le ranges.
Proof.
  induction ranges as [|r rest IH]; [constructor|]. intros Hn. pose proof Hn as (Hv & Hgap & Hn'). constructor; [auto|].
  apply Forall_forall. intros x Hx. assert (covered rest (Start x)) as Hc.
  { apply Exists_exists. exists x. split; [done|]. apply normal_valid in Hn'. rewrite Forall_forall in Hn'.
    specialize (Hn' x Hx). unfold covers, valid_range in *. lia. }
  pose proof (normal_head_least _ _ _ Hn Hc). unfold range_le, valid_range in *. destruct (Z.eqb_spec (Start r) (Start x)); lia.
Qed.

#[export] Instance range_le_antisymm : AntiSymm (=) range_le.
Proof.
  intros [a b] [c d]. unfold range_le. simpl. intros H1 H2. destruct (Z.eqb_spec a c), (Z.eqb_spec c a); try lia. f_equal; lia.
Qed.

Lemma merge_sort_normal ranges : normal ranges -> merge_sort range_le ranges = ranges.
Proof.
  intros H. apply (StronglySorted_unique range_le).
  - apply (StronglySorted_merge_sort range_le).
  - by apply normal_sorted.
  - apply merge_sort_Permutation.
Qed.

Lemma merge_ranges_normal r rest : normal (r :: rest) -> merge_ranges r rest = r :: rest.
Proof.
  revert r. induction rest as [|r' rest IH]; intros r (Hv & Hgap & Hn); simpl; [done|].
  destruct (Z.leb_spec (Start r') (End_ r + 1)); [lia|]. by rewrite IH.
Qed.

Lemma printed_rule_chars ranges : Forall valid_range ranges -> all printed_char (statusCodeRangesToString ranges) = true.
Proof.
  unfold statusCodeRangesToString. induction ranges as [|r [|r' ranges] IH]; intros H; [done|..]; apply Forall_cons in H as [Hr H];
    destruct (printed_token r Hr) as (P & _); destruct (plain_token _ P) as (_ & _ & Q & _); [done|].
  specialize (IH H). change (Join comma (range_to_string <$> r :: r' :: ranges))
    with (range_to_string r +:+ String comma (Join comma (range_to_string <$> r' :: ranges))).
  rewrite all_app, Q. simpl. exact IH.
Qed.

(** Printing and parsing are inverse: the text the settings page shows for a
    stored rule parses back to that very rule. *)
Theorem status_codes_roundtrip ranges :
  normal ranges -> ParseHTTPStatusCodeRanges (statusCodeRangesToString ranges) = Ok ranges.
Proof.
  intros Hn. pose proof (normal_valid _ Hn) as Hv. unfold ParseHTTPStatusCodeRanges.
  destruct ranges as [|r rest]; [done|]. set (rs := r :: rest) in *.
  pose proof (printed_rule_chars rs Hv) as Hc.
  rewrite TrimSpace_id by (eapply all_impl; [|exact Hc]; intros c H; apply printed_char_plain in H as (H & _); by rewrite H).
  rewrite replace_fullwidth_id by (eapply all_impl; [|exact Hc]; intros c H; apply printed_char_plain in H as (_ & _ & H);
    by rewrite bool_decide_false).
  destruct (String.eqb_spec (statusCodeRangesToString rs) "") as [E|_].
  { apply Forall_cons in Hv as [Hr _]. destruct (printed_token r Hr) as (_ & N & _). exfalso. unfold statusCodeRangesToString, rs in E.
    rewrite fmap_cons in E. destruct (range_to_string r); [done|]. by destruct rest. }
  unfold statusCodeRangesToString. rewrite Split_Join; [|done|].
  - rewrite segments_roundtrip, merge_sort_normal by done. unfold rs. by rewrite merge_ranges_normal.
  - apply Forall_fmap. eapply Forall_impl; [exact Hv|]. intros x Hx. destruct (printed_token x Hx) as (P & _).
    by destruct (plain_token _ P) as (_ & _ & _ & H).
Qed.

Lemma status_codes_roundtrip_witness :
  let ranges := [mkRange 401 401; mkRange 500 503] in
  statusCodeRangesToString ranges = "401,500-503"%string /\ ParseHTTPStatusCodeRanges "401,500-503" = Ok ranges.
Proof.
  intros ranges. assert (statusCodeRangesToString ranges = "401,500-503"%string) as E by (vm_compute; reflexivity).
  split; [exact E|]. rewrite <- E. apply (status_codes_roundtrip ranges).
  simpl. unfold valid_range. simpl. lia.
Defined.
