(* ===== verification/RateLimit.v ===== *)
(** * The in-memory rate limiter (common/rate-limit.go)

    A sliding window per key: the times of the last accepted requests, oldest
    first.  Requests of many keys and the periodic clearing of idle keys interleave
    under the mutex. *)

From stdpp Require Import base tactics numbers list gmap strings sorting.
From Stdlib Require Import ZArith Lia.
From S2P Require Import Prelude.
Open Scope Z_scope.

Abbreviation Store := (gmap string (list Z)).

(** [Request]; [None] stands for a run-time panic (a negative capacity for the new
    queue, an index into an empty one). *)
Definition Request (key : string) (maxRequestNum duration now : Z) (store : Store) : option (bool * Store) :=
  match store !! key with
  | Some queue =>
      if Z.of_nat (length queue) <? maxRequestNum then Some (true, <[key := queue ++ [now]]> store)
      else match queue with
           | [] => None
           | oldest :: rest =>
               if duration <=? now -! oldest then Some (true, <[key := rest ++ [now]]> store)
               else Some (false, store)
           end
  | None => if maxRequestNum <? 0 then None else Some (true, <[key := [now]]> store)
  end.

(** One round of [clearExpiredItems]; [expiration] is the configured duration in
    seconds. *)
Definition stale (expiration now : Z) (queue : list Z) : bool :=
  match last queue with
  | None => true
  | Some newest => expiration <? now -! newest
  end.
Definition clear_round (expiration now : Z) (store : Store) : Store :=
  filter (fun kv => stale expiration now kv.2 = false) store.

(** ** Runs *)

Section window.
Context (key : string) (max : nat) (duration expiration : Z).

(** [run store acc now]: the limiter reached [store] at time [now] having accepted
    the requests of [key] at the times [acc], newest first.  The clock does not go
    backwards; other keys are used with whatever limits. *)
Inductive run : Store -> list Z -> Z -> Prop :=
| run_start now : 0 <= now <= MaxInt64 -> run ∅ [] now
| run_request store acc now now' b store' :
    run store acc now -> now <= now' <= MaxInt64 ->
    Request key (Z.of_nat max) duration now' store = Some (b, store') ->
    run store' (if b then now' :: acc else acc) now'
| run_other store acc now now' key' m d b store' :
    run store acc now -> now <= now' <= MaxInt64 -> key' <> key ->
    Request key' m d now' store = Some (b, store') ->
    run store' acc now'
| run_clear store acc now now' :
    run store acc now -> now <= now' <= MaxInt64 ->
    run (clear_round expiration now' store) acc now'.

(** Any two accepted requests with [max - 1] accepted ones between them are at
    least [duration] apart. *)
Definition spaced (acc : list Z) : Prop :=
  forall i a b, acc !! i = Some a -> acc !! (i + max)%nat = Some b -> duration <= a - b.

Definition old_enough (now : Z) (acc : list Z) : Prop := Forall (fun a => duration <= now - a) acc.

(** The queue holds the newest accepted times; what it has dropped is old. *)
Definition window_inv (store : Store) (acc : list Z) (now : Z) : Prop :=
  0 <= now <= MaxInt64 /\ spaced acc /\ Forall (fun a => 0 <= a <= now) acc /\ StronglySorted Z.ge acc /\
  match store !! key with
  | None => old_enough now acc
  | Some queue => exists old, acc = rev queue ++ old /\ queue <> [] /\ (length queue <= max)%nat /\
      ((length queue < max)%nat -> old_enough now old)
  end.

Lemma old_enough_mono now now' acc : now <= now' -> old_enough now acc -> old_enough now' acc.
Proof. intros H Ha. eapply Forall_impl; [exact Ha|]. intros a. simpl. lia. Qed.

Lemma old_enough_lookup now acc i b : old_enough now acc -> acc !! i = Some b -> duration <= now - b.
Proof. intros H Hb. unfold old_enough in H. rewrite Forall_forall in H. apply H. by eapply list_elem_of_lookup_2. Qed.

Context (Hmax : (0 < max)%nat) (Hexp : duration <= expiration).

Lemma spaced_cons now acc :
  spaced acc -> (forall b, acc !! (max - 1)%nat = Some b -> duration <= now - b) -> spaced (now :: acc).
Proof using Hmax.
  intros Hs Hb [|i] x y Hx Hy; simpl in *.
  - injection Hx as <-. apply Hb. by replace max with (S (max - 1)) in Hy by lia.
  - by apply (Hs i).
Qed.

(** What every accepted request keeps. *)
Lemma accept_common now now' acc :
  now <= now' -> Forall (fun a => 0 <= a <= now) acc -> StronglySorted Z.ge acc -> 0 <= now ->
  Forall (fun a => 0 <= a <= now') (now' :: acc) /\ StronglySorted Z.ge (now' :: acc).
Proof.
  intros Hn Ha Hs H0. split; constructor; [lia| |done|]; (eapply Forall_impl; [exact Ha|]; intros a; simpl; lia).
Qed.

Lemma window_time store acc now now' : now <= now' <= MaxInt64 -> window_inv store acc now -> window_inv store acc now'.
Proof.
  intros Hn (H0 & H1 & H2 & H3 & H4). split_and!; [lia..|done| |done|].
  - eapply Forall_impl; [exact H2|]. intros a. simpl. lia.
  - destruct (store !! key) as [queue|].
    + destruct H4 as (old & E & Hq & Hl & Ho). exists old. split_and!; try done. intros Hlt. eapply old_enough_mono; [|by apply Ho]. lia.
    + eapply old_enough_mono; [|done]. lia.
Qed.

Lemma no_wrap a b : 0 <= b <= a -> a <= MaxInt64 -> a -! b = a - b.
Proof. intros H1 H2. apply wrap64_id. unfold in_i64, MinInt64, MaxInt64 in *. lia. Qed.

Lemma window_request store acc now b store' :
  window_inv store acc now -> Request key (Z.of_nat max) duration now store = Some (b, store') ->
  window_inv store' (if b then now :: acc else acc) now /\
  (b = false -> (max <= length acc)%nat /\ forall i a, (i < max)%nat -> acc !! i = Some a -> now - a < duration).
Proof using All.
  intros Hinv H. pose proof Hinv as (H0 & Hs & Hb & Hsort & Hq). unfold Request in H.
  destruct (store !! key) as [queue|] eqn:E.
  - destruct Hq as (old & -> & Hne & Hlen & Hold). destruct (Z.ltb_spec (Z.of_nat (length queue)) (Z.of_nat max)) as [Hlt|Hge].
    + injection H as <- <-. split; [|done]. destruct (accept_common now now _ ltac:(lia) Hb Hsort ltac:(lia)) as [Hb' Hs'].
      split_and!; [lia..| |done|done|].
      * apply spaced_cons; [done|]. intros y Hy. rewrite lookup_app_r in Hy by (rewrite length_rev; lia).
        eapply old_enough_lookup; [apply Hold; lia|exact Hy].
      * rewrite lookup_insert_eq. exists old. rewrite rev_app_distr. simpl. split_and!; [done|by destruct queue|rewrite length_app; simpl; lia|].
        intros _. apply Hold. lia.
    + destruct queue as [|oldest rest]; [done|]. simpl in Hlen, Hge.
      assert (0 <= oldest <= now) as Ho.
      { rewrite Forall_forall in Hb. apply Hb. simpl. set_solver. }
      rewrite no_wrap in H by lia. destruct (Z.leb_spec duration (now - oldest)) as [Hd|Hd].
      * injection H as <- <-. split; [|done]. destruct (accept_common now now _ ltac:(lia) Hb Hsort ltac:(lia)) as [Hb' Hs'].
        split_and!; [lia..| |done|done|].
        -- apply spaced_cons; [done|]. intros y Hy. simpl in Hy. rewrite <- app_assoc in Hy.
           rewrite lookup_app_r in Hy by (rewrite length_rev; lia). rewrite length_rev in Hy.
           replace (max - 1 - length rest)%nat with 0%nat in Hy by lia. by injection Hy as <-.
        -- rewrite lookup_insert_eq. exists (oldest :: old). rewrite rev_app_distr. simpl. rewrite <- app_assoc.
           split_and!; [done|by destruct rest|rewrite length_app; simpl; lia|rewrite length_app; simpl; lia].
      * injection H as <- <-. split; [done|]. intros _. rewrite length_app, length_rev. simpl. split; [lia|].
        intros i a Hi Ha. assert (oldest <= a); [|lia].
        rewrite lookup_app_l in Ha by (rewrite length_app, length_rev; simpl; lia).
        assert (StronglySorted Z.ge (rev rest ++ [oldest])) as Hq by (by apply StronglySorted_app_1_l in Hsort).
        destruct (decide (i = length rest)) as [->|Hne'].
        { rewrite lookup_app_r in Ha by (rewrite length_rev; lia). rewrite length_rev, Nat.sub_diag in Ha. by injection Ha as <-. }
        rewrite lookup_app_l in Ha by (rewrite length_rev; lia).
        apply StronglySorted_app in Hq as (Hq & _ & _). specialize (Hq a oldest). apply Z.ge_le. apply Hq; [|set_solver].
        by eapply list_elem_of_lookup_2.
  - destruct (Z.ltb_spec (Z.of_nat max) 0); [lia|]. injection H as <- <-. split; [|done].
    destruct (accept_common now now _ ltac:(lia) Hb Hsort ltac:(lia)) as [Hb' Hs'].
    split_and!; [lia..| |done|done|].
    + apply spaced_cons; [done|]. intros y Hy. by eapply old_enough_lookup.
    + rewrite lookup_insert_eq. exists acc. split_and!; [done|done|simpl; lia|done].
Qed.

(** Other keys do not touch the queue. *)
Lemma other_request key' m d now store b store' :
  key' <> key -> Request key' m d now store = Some (b, store') -> store' !! key = store !! key.
Proof. intros Hne. unfold Request. repeat case_match; intros; simplify_eq; try done; by rewrite lookup_insert_ne. Qed.

Lemma window_clear store acc now : window_inv store acc now -> window_inv (clear_round expiration now store) acc now.
Proof using All.
  intros (H0 & Hs & Hb & Hsort & Hq). split_and!; [lia..|done|done|done|]. unfold clear_round. rewrite map_lookup_filter.
  destruct (store !! key) as [queue|]; simpl; [|done]. destruct Hq as (old & -> & Hne & Hlen & Hold).
  destruct (stale expiration now queue) eqn:Hst.
  2:{ case_guard; [|done]. simpl. by exists old. }
  case_guard; [done|]. simpl. unfold stale in Hst.
  destruct (exists_last Hne) as (front & newest & ->). rewrite last_snoc in Hst. rewrite rev_app_distr in *. simpl in *.
  apply Forall_cons in Hb as [Hn Hb]. rewrite no_wrap in Hst by lia. apply StronglySorted_inv in Hsort as [_ Hsort].
  constructor; [lia|]. eapply Forall_impl; [exact Hsort|]. intros a. simpl. lia.
Qed.

Lemma run_window store acc now : run store acc now -> window_inv store acc now.
Proof using All.
  induction 1 as [now Hn|store acc now now' b store' _ IH Hn Hr|store acc now now' key' m d b store' _ IH Hn Hne Hr|store acc now now' _ IH Hn].
  - split_and!; [lia..|intros i a b Ha; by rewrite lookup_nil in Ha|constructor|constructor|]. rewrite lookup_empty. constructor.
  - apply (window_time _ _ _ now') in IH; [|done]. by apply (window_request _ _ _ _ _ IH) in Hr as [Hr _].
  - apply (window_time _ _ _ now') in IH; [|done]. unfold window_inv. by rewrite (other_request _ _ _ _ _ _ _ Hne Hr).
  - apply (window_time _ _ _ now') in IH; [|done]. by apply window_clear.
Qed.

(** C29. The limiter is a sliding window, exactly, for a limit of at least one request and
    a window that is not longer than idle keys are kept.  However the requests of a key
    interleave with other keys and with the clearing of idle ones, accepted requests [max]
    apart are at least one window apart, so no window ever holds more than [max] of them;
    the next request never panics, and it is refused only when the last [max] accepted
    ones all lie within the window.  (A longer window is cut short by the clearing, see
    [long_window_cut_short].) *)
Theorem limiter_sliding_window store acc now now' :
  run store acc now -> now <= now' <= MaxInt64 ->
  spaced acc /\
  exists b store', Request key (Z.of_nat max) duration now' store = Some (b, store') /\
    (b = false -> (max <= length acc)%nat /\ forall i a, (i < max)%nat -> acc !! i = Some a -> now' - a < duration).
Proof using All.
  intros H Hn. apply run_window in H. split; [apply H|]. apply (window_time _ _ _ now') in H; [|done].
  assert (exists b store', Request key (Z.of_nat max) duration now' store = Some (b, store')) as (b & store' & E).
  { destruct H as (_ & _ & _ & _ & Hq). unfold Request. destruct (store !! key) as [[|x q]|].
    - by destruct Hq as (old & _ & Hne & _).
    - destruct (_ <? _); [by eauto|]. destruct (_ <=? _); eauto.
    - destruct (Z.ltb_spec (Z.of_nat max) 0); [lia|]. eauto. }
  exists b, store'. split; [done|]. by apply (window_request _ _ _ _ _ H) in E as [_ E].
Qed.
End window.

(** One request per hour, but idle keys are kept for 20 minutes: refused after 1201 seconds,
    accepted once the idle key is cleared. *)
Example long_window_cut_short :
  let st := <["k"%string := [0]]> ∅ : Store in
  Request "k" 1 3600 1201 st = Some (false, st) /\
  Request "k" 1 3600 1201 (clear_round 1200 1201 st) = Some (true, <["k"%string := [1201]]> ∅).
Proof. split; vm_compute; reflexivity. Qed.

(** Two requests per ten seconds: at 0 and 3 accepted, at 5 refused, at 10 accepted. *)
Definition after_two : Store := <["k"%string := [0; 3]]> ∅.
Lemma after_two_run : run "k" 2 10 60 after_two [3; 0] 3.
Proof.
  replace after_two with (<["k"%string := [0] ++ [3]]> (<["k"%string := [0]]> ∅) : Store) by (vm_compute; reflexivity).
  apply (run_request "k" 2 10 60 (<["k"%string := [0]]> ∅) [0] 0 3 true).
  - apply (run_request "k" 2 10 60 ∅ [] 0 0 true); [constructor; unfold MaxInt64; lia|unfold MaxInt64; lia|reflexivity].
  - unfold MaxInt64. lia.
  - reflexivity.
Qed.

Lemma limiter_sliding_window_witness :
  Request "k" 2 10 5 after_two = Some (false, after_two) /\ spaced 2 10 [3; 0] /\
  exists b store', Request "k" 2 10 10 after_two = Some (b, store') /\ b = true.
Proof.
  destruct (limiter_sliding_window "k" 2 10 60 ltac:(lia) ltac:(lia) after_two [3; 0] 3 10 after_two_run) as (Hs & b & st & E & Hb).
  - unfold MaxInt64. lia.
  - split; [vm_compute; reflexivity|]. split; [exact Hs|]. exists b, st. split; [exact E|].
    destruct b; [reflexivity|]. destruct (Hb eq_refl) as [_ H]. specialize (H 1%nat 0 ltac:(lia) eq_refl). exfalso. lia.
Defined.
