(* ===== verification/Task.v ===== *)
(** * Asynchronous tasks: storage and billing (model/task.go, service/task_billing.go)

    A task is charged when it is submitted; when it finishes, the polling workers
    settle the difference or refund it.  [task.Quota] is what the user has paid. *)

From stdpp Require Import base tactics numbers list gmap strings sorting.
From Stdlib Require Import ZArith Lia SpecFloat.
From S2P Require Import Prelude Float64 QuotaMath DecimalQ Calendar World UserCache QuotaStore SubscriptionTime Subscription Billing.
Open Scope Z_scope.

(** ** Statuses *)

Definition TaskStatusNotStart : string := "NOT_START".
Definition TaskStatusSubmitted : string := "SUBMITTED".
Definition TaskStatusQueued : string := "QUEUED".
Definition TaskStatusInProgress : string := "IN_PROGRESS".
Definition TaskStatusFailure : string := "FAILURE".
Definition TaskStatusSuccess : string := "SUCCESS".
Definition TaskStatusUnknown : string := "UNKNOWN".
Definition TaskRefundLegacyCutoff : Z := 1771718400.

Definition is_done (status : string) : bool :=
  String.eqb status TaskStatusSuccess || String.eqb status TaskStatusFailure.

(** ** The table *)

Definition GetUpstreamTaskID (t : Task) : string :=
  if String.eqb t.(tk_PrivateData).(tp_UpstreamTaskID) "" then t.(tk_TaskID)
  else t.(tk_PrivateData).(tp_UpstreamTaskID).

(** [UPDATE tasks SET ... WHERE id = ? AND p]: the number of rows changed. *)
Definition update_task (id : Z) (p : Task -> bool) (f : Task -> Task) : MW Z :=
  stmt ;;
  let! row := gets (fun w => w.(w_db).(tasks) !! id) in
  match row with
  | Some t => if p t then modify_db (set_tasks (insert id (f t))) ;; ret 1 else ret 0
  | None => ret 0
  end.

Definition UpdateQuota (t : Task) : MW unit :=
  let! now := GetTimestamp in
  update_task t.(tk_ID) (fun _ => true)
    (fun row => set_tk_UpdatedAt (fun _ => now) (set_tk_Quota (fun _ => t.(tk_Quota)) row)) ;;
  ret tt.

(** Every column of the row is replaced, if its status still is [fromStatus]. *)
Definition UpdateWithStatus (t : Task) (fromStatus : string) : MW bool :=
  let! now := GetTimestamp in
  let! n := update_task t.(tk_ID) (fun row => String.eqb row.(tk_Status) fromStatus)
              (fun _ => set_tk_UpdatedAt (fun _ => now) t) in
  ret (0 <? n).

(** [f] is the assignment of the parameters. *)
Definition TaskBulkUpdateByID (ids : list Z) (f : Task -> Task) : MW unit :=
  match ids with
  | [] => ret tt
  | _ =>
      let! now := GetTimestamp in
      stmt ;;
      modify_db (set_tasks (map_imap (fun id row =>
        Some (if bool_decide (id ∈ ids) then set_tk_UpdatedAt (fun _ => now) (f row) else row))))
  end.

(** The rows matching a condition, by id; [Limit(limit)] keeps all for a negative limit. *)
Definition limited {A} (limit : Z) (l : list A) : list A := if limit <? 0 then l else take (Z.to_nat limit) l.
Definition id_le (a b : Task) : Prop := a.(tk_ID) <= b.(tk_ID).
Definition submit_le (a b : Task) : Prop := a.(tk_SubmitTime) <= b.(tk_SubmitTime).
#[export] Instance id_le_dec a b : Decision (id_le a b).
Proof. unfold id_le. apply _. Defined.
#[export] Instance submit_le_dec a b : Decision (submit_le a b).
Proof. unfold submit_le. apply _. Defined.

Definition unfinished (t : Task) : bool := negb (String.eqb t.(tk_Progress) "100%") && negb (is_done t.(tk_Status)).
Definition task_rows (p : Task -> bool) (d : DB) : list Task :=
  merge_sort id_le (filter (fun t => Is_true (p t)) (map_to_list d.(tasks)).*2).

(** A failed query lists nothing. *)
Definition GetAllUnFinishSyncTasks (limit : Z) : MW (list Task) :=
  let! r := catch (stmt ;; gets (fun w => limited limit (task_rows unfinished w.(w_db)))) in
  match r with Ok l => ret l | Err _ => ret [] end.
Definition GetTimedOutUnfinishedTasks (cutoffUnix limit : Z) : MW (list Task) :=
  let! r := catch (stmt ;; gets (fun w => limited limit (merge_sort submit_le
              (task_rows (fun t => unfinished t && (t.(tk_SubmitTime) <? cutoffUnix)) w.(w_db))))) in
  match r with Ok l => ret l | Err _ => ret [] end.

(** ** Settings and engines *)

Record TaskEnv := mkTaskEnv {
  LogConsumeEnabled : bool;
  TaskTimeoutMinutes : Z;
  TaskPollMaxFailures : Z;
  ServerAddress : string;
  SelfUseModeEnabled : bool;
  modelRatioMap : gmap string float64;
  groupRatioMap : gmap string float64;
  groupGroupRatioMap : gmap string (gmap string float64)
}.

(** What an upstream reports of a task (relay/common/relay_info.go). *)
Record TaskInfo := mkTaskInfo {
  ti_Status : string;
  ti_Reason : string;
  ti_Url : string;
  ti_Progress : string;
  ti_CompletionTokens : Z;
  ti_TotalTokens : Z;
  ti_UsageFacts : gmap string string;
  ti_PluginState : string
}.
Definition FailTaskInfo (reason : string) : TaskInfo :=
  mkTaskInfo "FAILURE" reason "" "" 0 0 ∅ "".

(** The interface of a provider adaptor towards billing. *)
Class TaskPollingAdaptor := AdjustBillingOnComplete : Task -> TaskInfo -> Z.

(** The expression engine (package expr-lang/expr): the cost and the matched tier of
    an expression on the usage facts of a task, or an error. *)
Class ExprEngine := {
  run_expr : string -> gmap string string -> result string (float64 * string);
  uses_fixed : string -> bool
}.

(** ** Ratios (setting/ratio_setting) *)

Definition handleThinkingBudgetModel (name prefix wildcard : string) : string :=
  if HasPrefix name prefix && Contains name "-thinking-" then wildcard else name.
Definition FormatMatchingModelName (name : string) : string :=
  let name :=
    if HasPrefix name "gemini-2.5-flash-lite" then
      handleThinkingBudgetModel name "gemini-2.5-flash-lite" "gemini-2.5-flash-lite-thinking-*"
    else if HasPrefix name "gemini-2.5-flash" then
      handleThinkingBudgetModel name "gemini-2.5-flash" "gemini-2.5-flash-thinking-*"
    else if HasPrefix name "gemini-2.5-pro" then
      handleThinkingBudgetModel name "gemini-2.5-pro" "gemini-2.5-pro-thinking-*"
    else name in
  let name := if HasPrefix name "gpt-4-gizmo" then "gpt-4-gizmo-*" else name in
  if HasPrefix name "gpt-4o-gizmo" then "gpt-4o-gizmo-*" else name.

Definition f_mul (x y : float64) : float64 := SFmul 53 1024 x y.
Definition f_div (x y : float64) : float64 := SFdiv 53 1024 x y.
Definition f_one : float64 := float64_of_int 1.
Definition f_zero : float64 := float64_of_int 0.
Definition f_thirty_seven_and_half : float64 := f_div (float64_of_int 75) (float64_of_int 2).

(** The ratio and whether one is configured. *)
Definition GetModelRatio (env : TaskEnv) (name : string) : float64 * bool :=
  match env.(modelRatioMap) !! FormatMatchingModelName name with
  | Some ratio => (ratio, true)
  | None => (f_thirty_seven_and_half, env.(SelfUseModeEnabled))
  end.
Definition GetGroupRatio (env : TaskEnv) (name : string) : float64 :=
  default f_one (env.(groupRatioMap) !! name).
Definition GetGroupGroupRatio (env : TaskEnv) (userGroup usingGroup : string) : option float64 :=
  env.(groupGroupRatioMap) !! userGroup ≫= fun gp => gp !! usingGroup.

(** types/price_data.go *)
Definition isValidOtherRatio (ratio : float64) : bool :=
  f_gt ratio f_zero && match ratio with S754_infinity false => false | _ => true end.
Definition ReplaceOtherRatios (ratios : list (string * float64)) : list (string * float64) :=
  filter (fun kr => Is_true (isValidOtherRatio kr.2)) ratios.
Definition OtherRatioMultiplier (ratios : list (string * float64)) : float64 :=
  foldl (fun acc kr => if isValidOtherRatio kr.2 && negb (SFeqb kr.2 f_one) then f_mul acc kr.2 else acc) f_one ratios.
Definition taskBillingContextPriceData (bc : option TaskBillingContext) : option (list (string * float64)) :=
  match bc with
  | Some c => match ReplaceOtherRatios c.(bc_OtherRatios) with [] => None | l => Some l end
  | None => None
  end.

(** ** Moving the quota of a task *)

Definition GetTokenById (id : Z) : MW Token :=
  if id =? 0 then throw (ErrMsg "id 为空！")
  else
    stmt ;;
    let! d := gets w_db in
    match visible_token d id with Some t => ret t | None => throw ErrRecordNotFound end.

Definition resolveTokenKey (tokenId : Z) : MW string :=
  let! r := catch (GetTokenById tokenId) in
  match r with Ok t => ret t.(t_Key) | Err _ => ret EmptyString end.

Definition taskIsSubscription (t : Task) : bool :=
  String.eqb t.(tk_PrivateData).(tp_BillingSource) BillingSourceSubscription && (0 <? t.(tk_PrivateData).(tp_SubscriptionId)).

Definition taskAdjustFunding (t : Task) (delta : Z) : MW unit :=
  if taskIsSubscription t then PostConsumeUserSubscriptionDelta t.(tk_PrivateData).(tp_SubscriptionId) delta
  else if 0 <? delta then DecreaseUserQuota t.(tk_UserId) delta false
  else IncreaseUserQuota t.(tk_UserId) (wrap64 (- delta)) false.

Definition taskAdjustTokenQuota (t : Task) (delta : Z) : MW unit :=
  let tokenId := t.(tk_PrivateData).(tp_TokenId) in
  if (tokenId <=? 0) || (delta =? 0) then ret tt
  else
    let! tokenKey := resolveTokenKey tokenId in
    if String.eqb tokenKey "" then ret tt
    else
      catch (if 0 <? delta then DecreaseTokenQuota tokenId tokenKey delta
             else IncreaseTokenQuota tokenId tokenKey (wrap64 (- delta))) ;;
      ret tt.

Definition taskModelName (t : Task) : string :=
  match t.(tk_PrivateData).(tp_BillingContext) with
  | Some bc => if String.eqb bc.(bc_OriginModelName) "" then t.(tk_OriginModelName) else bc.(bc_OriginModelName)
  | None => t.(tk_OriginModelName)
  end.

Definition RecordTaskBillingLog (env : TaskEnv) (userId logType quota : Z) : MW unit :=
  if (logType =? LogTypeConsume) && negb env.(LogConsumeEnabled) then ret tt else RecordLog userId logType quota.

(** The statistics of a submission; the charge itself is that of the billing session. *)
Definition LogTaskConsumption (env : TaskEnv) (userId channelId quota : Z) : MW unit :=
  (if env.(LogConsumeEnabled) then RecordLog userId LogTypeConsume quota else ret tt) ;;
  UpdateUserUsedQuotaAndRequestCount userId quota ;;
  UpdateChannelUsedQuota channelId quota.

(** The result says whether the funding source was refunded; the task as it is afterwards. *)
Definition RefundTaskQuota (env : TaskEnv) (task : Task) : MW (bool * Task) :=
  let quota := task.(tk_Quota) in
  if quota =? 0 then ret (true, task)
  else
    let! r := catch (taskAdjustFunding task (wrap64 (- quota))) in
    match r with
    | Err _ => ret (false, task)
    | Ok _ =>
        taskAdjustTokenQuota task (wrap64 (- quota)) ;;
        UpdateUserUsedQuota task.(tk_UserId) (wrap64 (- quota)) ;;
        UpdateChannelUsedQuota task.(tk_ChannelId) (wrap64 (- quota)) ;;
        RecordTaskBillingLog env task.(tk_UserId) LogTypeRefund quota ;;
        let task := set_tk_Quota (fun _ => 0) task in
        catch (UpdateQuota task) ;;
        ret (true, task)
    end.

Definition RecalculateTaskQuota (env : TaskEnv) (task : Task) (actualQuota : Z) : MW Task :=
  if actualQuota <? 0 then ret task
  else
    let quotaDelta := actualQuota -! task.(tk_Quota) in
    if quotaDelta =? 0 then ret task
    else
      let! r := catch (taskAdjustFunding task quotaDelta) in
      match r with
      | Err _ => ret task
      | Ok _ =>
          taskAdjustTokenQuota task quotaDelta ;;
          let task := set_tk_Quota (fun _ => actualQuota) task in
          catch (UpdateQuota task) ;;
          UpdateUserUsedQuota task.(tk_UserId) quotaDelta ;;
          UpdateChannelUsedQuota task.(tk_ChannelId) quotaDelta ;;
          (if 0 <? quotaDelta then RecordTaskBillingLog env task.(tk_UserId) LogTypeConsume quotaDelta
           else RecordTaskBillingLog env task.(tk_UserId) LogTypeRefund (wrap64 (- quotaDelta))) ;;
          ret task
      end.

(** The group a task is billed in. *)
Definition task_group (task : Task) : MW string :=
  if String.eqb task.(tk_Group) "" then
    let! r := catch (GetUserById task.(tk_UserId)) in
    match r with Ok u => ret u.(u_Group) | Err _ => ret EmptyString end
  else ret task.(tk_Group).

Definition RecalculateTaskQuotaByTokens (env : TaskEnv) (task : Task) (totalTokens : Z) : MW (bool * Task) :=
  if totalTokens <=? 0 then ret (false, task)
  else
    let '(modelRatio, hasRatioSetting) := GetModelRatio env (taskModelName task) in
    if negb hasRatioSetting || f_le modelRatio f_zero then ret (false, task)
    else
      let! group := task_group task in
      if String.eqb group "" then ret (false, task)
      else
        let finalGroupRatio := default (GetGroupRatio env group) (GetGroupGroupRatio env group group) in
        let otherMultiplier :=
          match taskBillingContextPriceData task.(tk_PrivateData).(tp_BillingContext) with
          | Some l => OtherRatioMultiplier l
          | None => f_one
          end in
        let actualQuota := QuotaFromFloat
          (f_mul (f_mul (f_mul (float64_of_int totalTokens) modelRatio) finalGroupRatio) otherMultiplier) in
        let! task := RecalculateTaskQuota env task actualQuota in
        ret (true, task).

(** ** Settlement by expression (pkg/billingexpr/settle.go) *)

Section settle.
Context `{!ExprEngine, !TaskPollingAdaptor} (env : TaskEnv).

Definition quotaConversion (exprOutput : float64) (snap : BillingSnapshot) : float64 :=
  if snap.(sn_TaskUsageBilling) then f_mul exprOutput snap.(sn_QuotaPerUnit)
  else f_mul (f_div exprOutput (float64_of_int 1000000)) snap.(sn_QuotaPerUnit).

(** The quota before the group ratio, after it, and the matched tier. *)
Definition ComputeTieredQuotaWithRequest (snap : BillingSnapshot) (usage : gmap string string)
    : result string (float64 * Z * string) :=
  if snap.(sn_TaskUsageBilling) && uses_fixed snap.(sn_ExprString)
  then Err "fixed pricing is not supported for task usage expressions"%string
  else match run_expr snap.(sn_ExprString) usage with
       | Err e => Err e
       | Ok (cost, tier) =>
           let quotaBeforeGroup := quotaConversion cost snap in
           Ok (quotaBeforeGroup, QuotaRound (f_mul quotaBeforeGroup snap.(sn_GroupRatio)), tier)
       end.

(** The result and the usage it was computed on: the reported facts override the
    frozen ones. *)
Definition EvaluateTaskCompletionUsage (snap : BillingSnapshot) (facts : gmap string string)
    : result string (Z * string * gmap string string) :=
  let usage := facts ∪ snap.(sn_UsageFacts) in
  match ComputeTieredQuotaWithRequest snap usage with
  | Err e => Err e
  | Ok (before, after, tier) =>
      if f_lt before f_zero || IsNaN before
      then Err "task completion expression produced an invalid cost"%string else Ok (after, tier, usage)
  end.

(** [bc.TieredSnapshot.UsageFacts = ...; bc.TieredSnapshot.EstimatedTier = ...] *)
Definition note_usage (bc : TaskBillingContext) (snap : BillingSnapshot) (facts : gmap string string) (tier : string) (task : Task) : Task :=
  let snap := mkSnapshot snap.(sn_ExprString) snap.(sn_ExprHash) snap.(sn_GroupRatio) tier snap.(sn_QuotaPerUnit)
                snap.(sn_ExprVersion) snap.(sn_TaskUsageBilling) facts in
  set_tk_PrivateData (set_tp_BillingContext (fun _ => Some (set_bc_TieredSnapshot (fun _ => Some snap) bc))) task.

(** Whether settlement has decided the final quota, and the task afterwards. *)
Definition settleTaskBillingOnComplete (task : Task) (taskResult : TaskInfo) : MW (bool * Task) :=
  let rest :=
    let actualQuota := AdjustBillingOnComplete task taskResult in
    if 0 <? actualQuota then
      let! task := RecalculateTaskQuota env task actualQuota in ret (true, task)
    else
      let tokens := if (taskResult.(ti_TotalTokens) =? 0) && (0 <? taskResult.(ti_CompletionTokens))
                    then taskResult.(ti_CompletionTokens) else taskResult.(ti_TotalTokens) in
      if 0 <? tokens then RecalculateTaskQuotaByTokens env task tokens else ret (false, task) in
  match task.(tk_PrivateData).(tp_BillingContext) with
  | Some bc =>
      match bc.(bc_TieredSnapshot) with
      | Some snap =>
          if String.eqb task.(tk_Status) TaskStatusFailure then ret (false, task)
          else
            match EvaluateTaskCompletionUsage snap taskResult.(ti_UsageFacts) with
            | Err _ => ret (true, task)
            | Ok (actual, tier, usage) =>
                let! task := RecalculateTaskQuota env (note_usage bc snap usage tier task) actual in
                ret (true, task)
            end
      | None => if bc.(bc_PerCallBilling) then ret (false, task) else rest
      end
  | None => rest
  end.
End settle.
