(* ===== verification/TaskPolling.v ===== *)
(** * Polling of asynchronous tasks (service/task_polling.go)

    Workers on several nodes list the unfinished tasks, ask the provider about each,
    write the new status with a compare-and-swap on the old one, and bill a task that
    has finished.  Each operation is given as its transition, which ends with the
    compare-and-swap and says what billing is due, followed by that billing: other
    workers run between the two. *)

From stdpp Require Import base tactics numbers list gmap strings pretty.
From Stdlib Require Import ZArith Lia.
From S2P Require Import Prelude Float64 World UserCache QuotaStore Task.
Open Scope Z_scope.

(** ** Classification *)

Definition pollClassOK : string := "ok".
Definition pollClassOtherClient : string := "other_client".
Definition pollClassNotFound : string := "not_found".
Definition pollClassAuth : string := "auth".
Definition pollClassTransient : string := "transient".
Definition pollClassUnrecognized : string := "unrecognized".
Definition pollClassHookError : string := "hook_error".
Definition pollClassTransport : string := "transport_error".

Definition classifyPollHTTP (statusCode : Z) : string :=
  if (200 <=? statusCode) && (statusCode <? 300) then pollClassOK
  else if (statusCode =? 404) || (statusCode =? 410) then pollClassNotFound
  else if (statusCode =? 401) || (statusCode =? 403) then pollClassAuth
  else if (statusCode =? 429) || (500 <=? statusCode) then pollClassTransient
  else if (400 <=? statusCode) && (statusCode <? 500) then pollClassOtherClient
  else pollClassTransient.

Definition isNonTerminalPollStatus (status : string) : bool :=
  String.eqb status TaskStatusNotStart || String.eqb status TaskStatusSubmitted
  || String.eqb status TaskStatusQueued || String.eqb status TaskStatusInProgress.
Definition knownPollStatus (status : string) : bool :=
  isNonTerminalPollStatus status || String.eqb status TaskStatusSuccess || String.eqb status TaskStatusFailure.

Definition pollFailureReason (class : string) (statusCode : Z) (detail : string) : string :=
  let reason := if 0 <? statusCode then "poll failed: " +:+ class +:+ " (HTTP " +:+ pretty statusCode +:+ ")"
                else "poll failed: " +:+ class in
  if String.eqb detail "" then reason else reason +:+ ": " +:+ detail.

(** [body] is the redacted body. *)
Definition unrecognizedPollDetail (reason body : string) : string :=
  let redacted := if 512 <? Z.of_nat (String.length body) then String.substring 0 512 body +:+ "…" else body in
  if String.eqb (TrimSpace reason) "" then "body=" +:+ redacted else reason +:+ "; body=" +:+ redacted.

Definition BuildProxyURL (env : TaskEnv) (taskID : string) : string :=
  env.(ServerAddress) +:+ "/v1/videos/" +:+ taskID +:+ "/content".

(** ** Snapshots (model/task.go) *)

Record taskSnapshot := mkTaskSnapshot {
  ts_Status : string; ts_Progress : string; ts_StartTime : Z; ts_FinishTime : Z; ts_FailReason : string;
  ts_ResultURL : string; ts_Data : string; ts_PluginState : string; ts_PollFailures : Z
}.
#[export] Instance taskSnapshot_eq_dec : EqDecision taskSnapshot.
Proof. solve_decision. Defined.
Definition Snapshot (t : Task) : taskSnapshot :=
  mkTaskSnapshot t.(tk_Status) t.(tk_Progress) t.(tk_StartTime) t.(tk_FinishTime) t.(tk_FailReason)
    t.(tk_PrivateData).(tp_ResultURL) t.(tk_Data) t.(tk_PrivateData).(tp_PluginState) t.(tk_PrivateData).(tp_PollFailures).

(** ** Billing that is due *)

(** After a finished task was stored: settle, and refund a failure that settlement
    did not decide.  After a timeout: refund. *)
Inductive Pending :=
| PendComplete (task : Task) (taskResult : TaskInfo)
| PendRefund (task : Task).
Definition pend_task (p : Pending) : Task := match p with PendComplete t _ | PendRefund t => t end.

Section polling.
Context `{!ExprEngine, !TaskPollingAdaptor} (env : TaskEnv).

Definition run_pending (p : Pending) : MW unit :=
  match p with
  | PendComplete task taskResult =>
      let! x := settleTaskBillingOnComplete env task taskResult in
      let '(billingSettled, task) := x in
      if String.eqb task.(tk_Status) TaskStatusFailure && negb billingSettled && negb (task.(tk_Quota) =? 0)
      then RefundTaskQuota env task ;; ret tt else ret tt
  | PendRefund task => if negb (task.(tk_Quota) =? 0) then RefundTaskQuota env task ;; ret tt else ret tt
  end.
Definition bill (o : option Pending) : MW unit := match o with Some p => run_pending p | None => ret tt end.

(** ** Failures of polling *)

Definition if_zero (now : Z) (x : Z) : Z := if x =? 0 then now else x.

Definition fail_transition (task : Task) (fromStatus reason : string) : MW (option Pending) :=
  let! now := GetTimestamp in
  let task := set_tk_FailReason (fun _ => reason) (set_tk_FinishTime (if_zero now)
                (set_tk_Progress (fun _ => "100%"%string) (set_tk_Status (fun _ => TaskStatusFailure) task))) in
  let! won := UpdateWithStatus task fromStatus in
  if negb won then ret None else ret (Some (PendComplete task (FailTaskInfo reason))).
Definition failTaskFromPoll (task : Task) (fromStatus reason : string) : MW unit :=
  let! o := fail_transition task fromStatus reason in bill o.

Definition record_failure_transition (task : Task) (fromStatus class : string) (statusCode : Z) (detail : string)
    : MW (option Pending) :=
  let task := set_tk_PrivateData (set_tp_PollFailures (fun n => n +! 1)) task in
  if (0 <? env.(TaskPollMaxFailures)) && (env.(TaskPollMaxFailures) <=? task.(tk_PrivateData).(tp_PollFailures))
  then fail_transition task fromStatus (pollFailureReason class statusCode detail)
  else UpdateWithStatus task fromStatus ;; ret None.
Definition recordPollFailure (task : Task) (fromStatus class : string) (statusCode : Z) (detail : string) : MW unit :=
  let! o := record_failure_transition task fromStatus class statusCode detail in bill o.

(** ** One task *)

(** What became of the request to the provider: [rp_Result] is the reply in this
    program's own format if it is one, else what the adaptor makes of it. *)
Inductive PollReply :=
| FetchError (msg : string)
| ReadError (statusCode : Z) (msg : string)
| Reply (statusCode : Z) (redactedBody : string) (result : result string TaskInfo).

(** The columns by status, and whether the task is to be billed. *)
Definition video_columns (now : Z) (taskResult : TaskInfo) (task : Task) : Task * bool :=
  let status := taskResult.(ti_Status) in
  let task := set_tk_Status (fun _ => status) task in
  let progress p := set_tk_Progress (fun _ => p) in
  if String.eqb status TaskStatusSubmitted then (progress "10%"%string task, false)
  else if String.eqb status TaskStatusQueued then (progress "20%"%string task, false)
  else if String.eqb status TaskStatusInProgress then
    (set_tk_StartTime (if_zero now) (progress "30%"%string task), false)
  else if String.eqb status TaskStatusSuccess then
    let url := taskResult.(ti_Url) in
    (set_tk_PrivateData (set_tp_ResultURL (fun _ =>
       if HasPrefix url "data:" || String.eqb url "" then BuildProxyURL env task.(tk_TaskID) else url))
       (set_tk_FinishTime (if_zero now) (progress "100%"%string task)), true)
  else if String.eqb status TaskStatusFailure then
    (set_tk_FailReason (fun _ => taskResult.(ti_Reason)) (set_tk_FinishTime (if_zero now) (progress "100%"%string task)), true)
  else (task, false).

(** The reported progress wins, but for a failure, which is complete. *)
Definition reported_progress (taskResult : TaskInfo) : string :=
  if String.eqb taskResult.(ti_Status) TaskStatusFailure then "100%"%string else taskResult.(ti_Progress).

Definition video_parsed (snap : taskSnapshot) (body : string) (taskResult : TaskInfo) (task : Task) : MW (option Pending) :=
  let status := taskResult.(ti_Status) in
  let task := set_tk_Data (fun _ => body) task in
  let task := if String.eqb taskResult.(ti_PluginState) "" then task
              else set_tk_PrivateData (set_tp_PluginState (fun _ => taskResult.(ti_PluginState))) task in
  let task := if isNonTerminalPollStatus status then set_tk_PrivateData (set_tp_PollFailures (fun _ => 0)) task else task in
  let! now := GetTimestamp in
  let '(task, shouldFinalizeBilling) := video_columns now taskResult task in
  let progress := reported_progress taskResult in
  let task := if String.eqb progress "" then task else set_tk_Progress (fun _ => progress) task in
  let! finalize :=
    if is_done task.(tk_Status) && negb (String.eqb snap.(ts_Status) task.(tk_Status)) then
      let! r := catch (UpdateWithStatus task snap.(ts_Status)) in
      match r with Ok won => ret (shouldFinalizeBilling && won) | Err _ => ret false end
    else if negb (bool_decide (snap = Snapshot task)) then
      catch (UpdateWithStatus task snap.(ts_Status)) ;; ret shouldFinalizeBilling
    else ret shouldFinalizeBilling in
  if finalize : bool then ret (Some (PendComplete task taskResult)) else ret None.

Definition video_transition (reply : PollReply) (task : Task) : MW (option Pending) :=
  let snap := Snapshot task in
  let failure := record_failure_transition task snap.(ts_Status) in
  match reply with
  | FetchError msg => failure pollClassTransport 0 msg
  | ReadError statusCode msg => failure pollClassTransport statusCode msg
  | Reply statusCode body result =>
      let class := classifyPollHTTP statusCode in
      if String.eqb class pollClassNotFound then
        fail_transition task snap.(ts_Status) ("upstream task not found (HTTP " +:+ pretty statusCode +:+ ")")
      else if String.eqb class pollClassAuth then failure pollClassAuth statusCode ""%string
      else if String.eqb class pollClassTransient then failure pollClassTransient statusCode ""%string
      else
        match result with
        | Err e => failure pollClassHookError statusCode e
        | Ok taskResult =>
            let status := taskResult.(ti_Status) in
            if String.eqb status TaskStatusUnknown || String.eqb status "" || negb (knownPollStatus status) then
              failure pollClassUnrecognized statusCode (unrecognizedPollDetail taskResult.(ti_Reason) body)
            else if String.eqb class pollClassOtherClient && isNonTerminalPollStatus status then
              failure pollClassUnrecognized statusCode (unrecognizedPollDetail taskResult.(ti_Reason) body)
            else video_parsed snap body taskResult task
        end
  end.
Definition updateVideoSingleTask (reply : PollReply) (task : Task) : MW unit :=
  let! o := video_transition reply task in bill o.

(** ** A batch of tasks *)

Record BatchTaskResult := mkBatchResult {
  br_TaskInfo : TaskInfo;
  br_SubmitTime : Z;
  br_StartTime : Z;
  br_FinishTime : Z;
  br_Data : option string
}.

Definition nonzero_or (x y : Z) : Z := if x =? 0 then y else x.
Definition nonempty_or (x y : string) : string := if String.eqb x "" then y else x.

Definition batch_columns (item : BatchTaskResult) (task : Task) : Task :=
  let info := item.(br_TaskInfo) in
  let task := if isNonTerminalPollStatus info.(ti_Status)
              then set_tk_PrivateData (set_tp_PollFailures (fun _ => 0)) task else task in
  let task := if String.eqb info.(ti_PluginState) "" then task
              else set_tk_PrivateData (set_tp_PluginState (fun _ => info.(ti_PluginState))) task in
  let task := set_tk_FinishTime (nonzero_or item.(br_FinishTime))
                (set_tk_StartTime (nonzero_or item.(br_StartTime))
                (set_tk_SubmitTime (nonzero_or item.(br_SubmitTime))
                (set_tk_FailReason (nonempty_or info.(ti_Reason)) (set_tk_Status (nonempty_or info.(ti_Status)) task)))) in
  let task := set_tk_Progress (nonempty_or info.(ti_Progress)) task in
  let task := if negb (String.eqb info.(ti_Reason) "") || String.eqb task.(tk_Status) TaskStatusFailure
              then set_tk_Progress (fun _ => "100%"%string) (set_tk_Status (fun _ => TaskStatusFailure) task) else task in
  let task := if String.eqb info.(ti_Status) TaskStatusSuccess then set_tk_Progress (fun _ => "100%"%string) task else task in
  let task := match item.(br_Data) with Some d => set_tk_Data (fun _ => d) task | None => task end in
  if String.eqb info.(ti_Url) "" then task
  else set_tk_PrivateData (set_tp_ResultURL (fun _ => info.(ti_Url))) task.

Definition batch_item_transition (statusCode : Z) (item : BatchTaskResult) (task : Task) : MW (option Pending) :=
  let snap := Snapshot task in
  let info := item.(br_TaskInfo) in
  let failure :=
    let! r := catch (record_failure_transition task snap.(ts_Status) pollClassUnrecognized statusCode info.(ti_Reason)) in
    match r with Ok o => ret o | Err _ => ret None end in
  if String.eqb info.(ti_Status) TaskStatusUnknown || String.eqb info.(ti_Status) "" || negb (knownPollStatus info.(ti_Status))
  then failure
  else if String.eqb (classifyPollHTTP statusCode) pollClassOtherClient && isNonTerminalPollStatus info.(ti_Status) then failure
  else
    let task := batch_columns item task in
    let terminalTransition := is_done task.(tk_Status) && negb (String.eqb snap.(ts_Status) task.(tk_Status)) in
    let! r := catch (UpdateWithStatus task snap.(ts_Status)) in
    match r with
    | Ok true => if terminalTransition then ret (Some (PendComplete task info)) else ret None
    | _ => ret None
    end.
Definition batch_item (statusCode : Z) (item : BatchTaskResult) (task : Task) : MW unit :=
  let! o := batch_item_transition statusCode item task in bill o.

(** [recordPollFailureForTasks], [failTasksFromPoll]: every task is tried, the first
    error is returned. *)
Fixpoint first_error {A} (f : A -> MW unit) (l : list A) : MW unit :=
  match l with
  | [] => ret tt
  | x :: rest =>
      let! r := catch (f x) in
      let! r' := catch (first_error f rest) in
      match r with Err e => throw e | Ok _ => of_result r' end
  end.
Definition recordPollFailureForTasks (class : string) (statusCode : Z) (detail : string) (l : list Task) : MW unit :=
  first_error (fun t => recordPollFailure t t.(tk_Status) class statusCode detail) l.
Definition failTasksFromPoll (reason : string) (l : list Task) : MW unit :=
  first_error (fun t => failTaskFromPoll t t.(tk_Status) reason) l.

Inductive BatchReply :=
| BatchFetchError (msg : string)
| BatchReadError (statusCode : Z) (msg : string)
| BatchReplies (statusCode : Z) (items : result string (list (string * BatchTaskResult))).

(** The tasks of a channel; [items] is in the order the reply map is iterated. *)
Definition updateBatchTasks (channelFound : bool) (channelMissing : string) (reply : BatchReply) (taskIds : list string)
    (taskM : gmap string Task) : MW unit :=
  let tasks := omap (fun id => taskM !! id) taskIds in
  match taskIds with
  | [] => ret tt
  | _ =>
      if negb channelFound then
        TaskBulkUpdateByID (tk_ID <$> tasks) (fun t => set_tk_Progress (fun _ => "100%"%string)
          (set_tk_Status (fun _ => TaskStatusFailure) (set_tk_FailReason (fun _ => channelMissing) t)))
      else
        match reply with
        | BatchFetchError msg => recordPollFailureForTasks pollClassTransport 0 msg tasks
        | BatchReadError statusCode msg => recordPollFailureForTasks pollClassTransport statusCode msg tasks
        | BatchReplies statusCode items =>
            let class := classifyPollHTTP statusCode in
            if String.eqb class pollClassNotFound then
              failTasksFromPoll ("upstream task not found (HTTP " +:+ pretty statusCode +:+ ")") tasks
            else if String.eqb class pollClassAuth then recordPollFailureForTasks pollClassAuth statusCode ""%string tasks
            else if String.eqb class pollClassTransient then recordPollFailureForTasks pollClassTransient statusCode ""%string tasks
            else
              match items with
              | Err e => recordPollFailureForTasks pollClassHookError statusCode e tasks
              | Ok l => mapM_ (fun '(id, item) => match taskM !! id with
                                                  | Some t => batch_item statusCode item t
                                                  | None => ret tt
                                                  end) l
              end
        end
  end.

(** ** Timeouts *)

Definition is_legacy (task : Task) : bool := (0 <? task.(tk_SubmitTime)) && (task.(tk_SubmitTime) <? TaskRefundLegacyCutoff).
Definition timeout_reason : string := "任务超时（" +:+ pretty env.(TaskTimeoutMinutes) +:+ "分钟）".
Definition legacy_reason : string := "任务超时（旧系统遗留任务，不进行退款，请联系管理员）".

Definition sweep_transition (now : Z) (task : Task) : MW (option Pending) :=
  let isLegacy := is_legacy task in
  let oldStatus := task.(tk_Status) in
  let task := set_tk_FinishTime (fun _ => now)
                (set_tk_Progress (fun _ => "100%"%string) (set_tk_Status (fun _ => TaskStatusFailure) task)) in
  let task := if isLegacy then set_tk_Quota (fun _ => 0) (set_tk_FailReason (fun _ => legacy_reason) task)
              else set_tk_FailReason (fun _ => timeout_reason) task in
  let! r := catch (UpdateWithStatus task oldStatus) in
  match r with
  | Ok true => if negb isLegacy then ret (Some (PendRefund task)) else ret None
  | _ => ret None
  end.
Definition sweepTimedOutTasks : MW unit :=
  if env.(TaskTimeoutMinutes) <=? 0 then ret tt
  else
    let! now := GetTimestamp in
    let! l := GetTimedOutUnfinishedTasks (now -! (env.(TaskTimeoutMinutes) *! 60)) 100 in
    mapM_ (fun t => let! o := sweep_transition now t in bill o) l.

(** ** A user asks for the task (relay/relay_task.go, Gemini and Vertex channels) *)

(** The update of the row from what the adaptor parsed. *)
Definition realtime_update (ti : TaskInfo) (task : Task) : MW unit :=
  let snap := Snapshot task in
  let task := if String.eqb ti.(ti_Status) "" then task else set_tk_Status (fun _ => ti.(ti_Status)) task in
  let task := if String.eqb ti.(ti_Progress) "" then task else set_tk_Progress (fun _ => ti.(ti_Progress)) task in
  let result_url u := set_tk_PrivateData (set_tp_ResultURL (fun _ => u)) task in
  let task := if HasPrefix ti.(ti_Url) "data:" then task
              else if negb (String.eqb ti.(ti_Url) "") then result_url ti.(ti_Url)
              else if String.eqb task.(tk_Status) TaskStatusSuccess then result_url (BuildProxyURL env task.(tk_TaskID))
              else task in
  if bool_decide (snap = Snapshot task) then ret tt else catch (UpdateWithStatus task snap.(ts_Status)) ;; ret tt.
End polling.
