(* ===== verification/TaskLaws.v ===== *)
(** * What a task costs (theorems on Task)

    Settlement and refund of a task move its funding source and its token by exactly
    the change of [task.Quota], or leave them alone, whatever fails. *)

From stdpp Require Import base tactics numbers list gmap strings.
From Stdlib Require Import ZArith Lia.
From S2P Require Import Prelude Float64 QuotaMath DecimalQ World UserCache QuotaStore Reserve SubscriptionTime Subscription SubscriptionInv SubscriptionUse Billing BillingFrame BillingLaws Task.
Open Scope Z_scope.

(** ** The funding source of a task *)

Definition task_source (t : Task) : Funding :=
  if taskIsSubscription t
  then FSubscription (mkSubscriptionFunding "" t.(tk_UserId) 0 t.(tk_PrivateData).(tp_SubscriptionId) 0 0 0 0 "")
  else FWallet (mkWalletFunding t.(tk_UserId) 0).

(** A task moves its source the way a billing session does. *)
Lemma taskAdjustFunding_Settle t delta w r w' :
  taskAdjustFunding t delta w = (r, w') -> delta <> 0 -> Funding_Settle delta (w, task_source t) = (r, (w', task_source t)).
Proof.
  intros H Hd. unfold taskAdjustFunding in H. unfold task_source. destruct (taskIsSubscription t); cbn.
  all: replace (delta =? 0) with false by lia; unfold dispatch, bind, getS, lift; cbn.
  - by rewrite H.
  - destruct (0 <? delta); cbn; by rewrite H.
Qed.

(** ** Writes that move no balance *)

Definition same_money (w w' : World) : Prop :=
  (forall id, wallet w' id = wallet w id) /\ (forall id, token_remain w' id = token_remain w id) /\
  w'.(w_db).(subs) = w.(w_db).(subs).

#[export] Instance same_money_refl : Reflexive same_money.
Proof. done. Qed.
#[export] Instance same_money_ledger w : LedgerPred (same_money w).
Proof.
  intros w1 w2 E (H1 & H2 & H3). injection E as E1 E2 _. unfold same_money, wallet, token_remain. rewrite <- E1, <- E2. done.
Qed.

Lemma pays_same f k w w1 w2 : funding_pays f k w w1 -> same_money w1 w2 -> funding_pays f k w w2.
Proof.
  intros H (E1 & _ & E3). destruct f; simpl in *.
  - intros u. rewrite E1. apply H.
  - by rewrite E3.
Qed.
Lemma token_shift_same t k w w1 w2 : token_shift t k w w1 -> same_money w1 w2 -> token_shift t k w w2.
Proof. intros H (_ & E & _) id. rewrite E. apply H. Qed.

Section same_money.
Context (w0 : World).
Abbreviation SM := (same_money w0).

Lemma update_task_same id p f : preserves SM (update_task id p f).
Proof.
  unfold update_task. apply preserves_bind; [auto with preserve|intros _]. apply preserves_read. intros w Hw.
  destruct (tasks _ !! id); [|done]. by destruct (p _).
Qed.
Lemma update_used_same id k : preserves SM (update_user id (fun _ => true) (set_u_UsedQuota (fun x => x + k))).
Proof.
  intros w Hw. destruct (update_user id _ _ w) as [r w'] eqn:H. simpl.
  apply update_user_cases in H as [(_ & E)|[(_ & E & _)|(_ & u & Hu & _ & E)]];
    [by eapply same_money_ledger; [symmetry; exact E|]..|].
  destruct Hw as (H1 & H2 & H3).
  destruct (set_users_shift id u (set_u_UsedQuota (fun x => x + k) u) 0 w w' Hu eq_refl ltac:(simpl; lia) E) as [Hs Ht].
  split_and!.
  - intros id'. rewrite Hs, H1. case_decide; lia.
  - intros id'. rewrite (Ht 0), H2. case_decide; lia.
  - injection E as -> _ _. done.
Qed.
Lemma channel_used_same id k : preserves SM (updateChannelUsedQuota id k).
Proof. unfold updateChannelUsedQuota. solve_preserves. Qed.
Lemma addNewRecord_stats_same t id k :
  t = BatchUpdateTypeUsedQuota \/ t = BatchUpdateTypeChannelUsedQuota -> preserves SM (addNewRecord t id k).
Proof. by intros [-> | ->] w Hw. Qed.
#[local] Hint Resolve update_task_same update_used_same channel_used_same : preserve.
#[local] Hint Extern 1 (preserves _ (addNewRecord _ _ _)) => (apply addNewRecord_stats_same; auto) : preserve.

Lemma UpdateQuota_same t : preserves SM (UpdateQuota t).
Proof. unfold UpdateQuota. solve_preserves. Qed.
Lemma UpdateUserUsedQuota_same id k : preserves SM (UpdateUserUsedQuota id k).
Proof. unfold UpdateUserUsedQuota. solve_preserves. Qed.
Lemma UpdateChannelUsedQuota_same id k : preserves SM (UpdateChannelUsedQuota id k).
Proof. unfold UpdateChannelUsedQuota. solve_preserves. Qed.
Lemma RecordTaskBillingLog_same env u l q : preserves SM (RecordTaskBillingLog env u l q).
Proof. unfold RecordTaskBillingLog. solve_preserves. Qed.
End same_money.
#[export] Hint Resolve UpdateQuota_same UpdateUserUsedQuota_same UpdateChannelUsedQuota_same RecordTaskBillingLog_same : preserve.

(** ** The token of a task *)

Lemma GetTokenById_inv id w r w' :
  GetTokenById id w = (r, w') -> ledger w' = ledger w /\ (forall t, r = Ok t -> visible_token w.(w_db) id = Some t) /\
  (no_faults w -> id <> 0 -> forall t, visible_token w.(w_db) id = Some t -> r = Ok t /\ no_faults w').
Proof.
  unfold GetTokenById, no_faults, stmt, fault_point, bind, gets, throw, ret. intros H.
  destruct (Z.eqb_spec id 0); [by injection H as <- <-|].
  destruct (w_faults w) as [|[] fs] eqn:Hf; simpl in H.
  - destruct (visible_token _ _); injection H as <- <-; split_and!; try done; intros; simplify_eq; done.
  - injection H as <- <-. done.
  - destruct (visible_token _ _); injection H as <- <-; split_and!; try done; intros; simplify_eq; done.
Qed.

Lemma resolveTokenKey_inv id w r w' :
  resolveTokenKey id w = (r, w') -> ledger w' = ledger w /\
  exists key, r = Ok key /\ (key <> EmptyString -> token_live w id) /\
  (no_faults w -> id <> 0 -> forall t, visible_token w.(w_db) id = Some t -> key = t.(t_Key) /\ no_faults w').
Proof.
  unfold resolveTokenKey, bind, catch, ret. intros H. destruct (GetTokenById id w) as [r1 w1] eqn:E.
  apply GetTokenById_inv in E as (E1 & E2 & E3). destruct r1 as [t|e]; injection H as <- <-; (split; [done|]).
  - exists t.(t_Key). split_and!; [done|by intros _; exists t; apply E2|].
    intros Hf Hi t' Ht. by destruct (E3 Hf Hi t' Ht) as [[= ->] ?].
  - exists EmptyString. split_and!; [done..|]. intros Hf Hi t' Ht. by destruct (E3 Hf Hi t' Ht) as [[=] _].
Qed.

(** The accounts are untouched; the token moved by the difference or not at all. *)
Definition token_part (t : Task) (delta : Z) (w w' : World) : Prop :=
  (forall u, wallet_shift u 0 w w') /\ w'.(w_db).(subs) = w.(w_db).(subs) /\
  exists k, (k = 0 \/ k = delta) /\ token_shift t.(tk_PrivateData).(tp_TokenId) (- k) w w'.

(** The token can be charged: it is live and has a key. *)
Definition chargeable (id : Z) (w : World) : Prop :=
  0 < id /\ exists t, visible_token w.(w_db) id = Some t /\ t.(t_Key) <> EmptyString.

Lemma token_part_ledger t d w w' : ledger w' = ledger w -> token_part t d w w'.
Proof.
  intros E. split_and!; [intros; by apply wallet_shift_0|by injection E as -> _ _|].
  exists 0. split; [by left|]. by apply token_shift_0.
Qed.

Lemma move_token_outcome id key delta w r w' :
  (if 0 <? delta then DecreaseTokenQuota id key delta else IncreaseTokenQuota id key (wrap64 (- delta))) w = (r, w') ->
  batch_room w.(w_batch).(bs_TokenQuota) id (- delta) -> token_live w id ->
  write_outcome (moves_token id (- delta)) r w w' /\ w'.(w_db).(subs) = w.(w_db).(subs).
Proof.
  intros H Hr Hl. destruct (0 <? delta).
  - split; [by eapply DecreaseTokenQuota_outcome|].
    eapply (accounts_frame (DecreaseTokenQuota id key delta)); [auto with preserve|exact H].
  - rewrite (wrap64_opp _ _ _ Hr) in H. split; [by eapply IncreaseTokenQuota_outcome|].
    eapply (accounts_frame (IncreaseTokenQuota id key (- delta))); [auto with preserve|exact H].
Qed.

Lemma move_token_ok id key delta w :
  no_faults w -> in_i64 (- delta) ->
  exists w', (if 0 <? delta then DecreaseTokenQuota id key delta else IncreaseTokenQuota id key (wrap64 (- delta))) w = (Ok tt, w').
Proof.
  intros Hf Hi. destruct (Z.ltb_spec 0 delta).
  - unfold DecreaseTokenQuota. replace (delta <? 0) with false by lia.
    unfold bind, cfg, gets. destruct (RedisEnabled _); simpl.
    all: destruct (BatchUpdateEnabled _); simpl; [by eexists|].
    all: unfold decreaseTokenQuota, bind, GetTimestamp, gets; rewrite update_token_ff by done; simpl.
    all: destruct (visible_token _ _); by eexists.
  - rewrite wrap64_id by done. apply IncreaseTokenQuota_ok; [done|lia].
Qed.

Lemma taskAdjustTokenQuota_part t delta w :
  delta <> 0 -> batch_room w.(w_batch).(bs_TokenQuota) t.(tk_PrivateData).(tp_TokenId) (- delta) ->
  exists w', taskAdjustTokenQuota t delta w = (Ok tt, w') /\ token_part t delta w w' /\
    (no_faults w -> chargeable t.(tk_PrivateData).(tp_TokenId) w -> token_shift t.(tk_PrivateData).(tp_TokenId) (- delta) w w').
Proof.
  intros Hd Hr. unfold taskAdjustTokenQuota. set (id := tp_TokenId _) in *.
  destruct (Z.leb_spec id 0); simpl.
  { eexists. split; [done|]. split; [by apply token_part_ledger|]. intros _ [? _]. lia. }
  replace (delta =? 0) with false by lia. unfold bind at 1. destruct (resolveTokenKey id w) as [r1 w1] eqn:E.
  apply resolveTokenKey_inv in E as (E1 & key & -> & Hl & Hff).
  destruct (String.eqb_spec key "") as [->|Hk].
  { eexists. split; [done|]. split; [by apply token_part_ledger|].
    intros Hf (_ & tk & Ht & Hk). destruct (Hff Hf ltac:(lia) tk Ht) as [E _]. congruence. }
  set (mv := if 0 <? delta then DecreaseTokenQuota id key delta else IncreaseTokenQuota id key (wrap64 (- delta))).
  unfold bind, catch. destruct (mv w1) as [r2 w2] eqn:E2. unfold mv in E2.
  pose proof E2 as Hm. apply move_token_outcome in Hm as [Hm Hs];
    [|by eapply batch_room_token_ledger|by eapply token_live_ledger; [|apply Hl]].
  exists w2. split; [by destruct r2|]. assert (subs (w_db w1) = subs (w_db w)) as Es by (by injection E1 as -> _ _).
  split.
  - destruct r2; simpl in Hm; [|apply token_part_ledger; congruence].
    eapply moves_token_ledger in Hm as [H1 H2]; [|symmetry; exact E1|reflexivity].
    split_and!; [exact H2|congruence|]. exists delta. eauto.
  - intros Hf (_ & tk & Ht & _). destruct (Hff Hf ltac:(lia) tk Ht) as [_ Hf1].
    destruct (move_token_ok id key delta w1 Hf1) as [w3 E3]; [apply Hr|]. rewrite E3 in E2. injection E2 as <- <-.
    simpl in Hm. by eapply moves_token_ledger in Hm as [H1 _]; [|symmetry; exact E1|reflexivity].
Qed.

(** ** The table of tasks *)

Definition on_tasks (I : gmap Z Task -> Prop) (w : World) : Prop := I w.(w_db).(tasks).
#[export] Instance on_tasks_ledger I : LedgerPred (on_tasks I).
Proof. intros w w' [= E _ _]. unfold on_tasks. by rewrite E. Qed.
#[export] Instance on_tasks_rollback I : RollbackPred (on_tasks I).
Proof. by intros w w' H1 H2. Qed.

Section tasks_frame.
Context (I : gmap Z Task -> Prop).
Abbreviation TI := (on_tasks I).

Lemma update_user_tasks id p f : preserves TI (update_user id p f).
Proof.
  unfold update_user. apply preserves_bind; [auto with preserve|intros _]. apply preserves_read. intros w Hw.
  destruct (visible_user _ _); [|done]. by destruct (p _).
Qed.
Lemma update_token_tasks id p f : preserves TI (update_token id p f).
Proof.
  unfold update_token. apply preserves_bind; [auto with preserve|intros _]. apply preserves_read. intros w Hw.
  destruct (visible_token _ _); [|done]. by destruct (p _).
Qed.
Lemma addNewRecord_tasks t id v : preserves TI (addNewRecord t id v).
Proof. by intros w Hw. Qed.
Lemma save_sub_tasks s : preserves TI (save_sub s).
Proof. unfold save_sub. solve_preserves; by intros w Hw. Qed.
#[local] Hint Resolve update_user_tasks update_token_tasks addNewRecord_tasks save_sub_tasks : preserve.

Lemma taskAdjustFunding_tasks t d : preserves TI (taskAdjustFunding t d).
Proof.
  unfold taskAdjustFunding, PostConsumeUserSubscriptionDelta, post_consume_tx, DecreaseUserQuota, IncreaseUserQuota,
    decreaseUserQuota, increaseUserQuota.
  solve_preserves.
Qed.
Lemma taskAdjustTokenQuota_tasks t d : preserves TI (taskAdjustTokenQuota t d).
Proof.
  unfold taskAdjustTokenQuota, resolveTokenKey, GetTokenById, DecreaseTokenQuota, IncreaseTokenQuota, decreaseTokenQuota,
    increaseTokenQuota.
  solve_preserves.
Qed.
Lemma channel_used_tasks id k : preserves TI (updateChannelUsedQuota id k).
Proof. unfold updateChannelUsedQuota. solve_preserves. Qed.
#[local] Hint Resolve channel_used_tasks : preserve.
Lemma UpdateUserUsedQuota_tasks id k : preserves TI (UpdateUserUsedQuota id k).
Proof. unfold UpdateUserUsedQuota. solve_preserves. Qed.
Lemma UpdateChannelUsedQuota_tasks id k : preserves TI (UpdateChannelUsedQuota id k).
Proof. unfold UpdateChannelUsedQuota. solve_preserves. Qed.
Lemma RecordTaskBillingLog_tasks env u l q : preserves TI (RecordTaskBillingLog env u l q).
Proof. unfold RecordTaskBillingLog. solve_preserves. Qed.
End tasks_frame.
#[export] Hint Resolve taskAdjustFunding_tasks taskAdjustTokenQuota_tasks UpdateUserUsedQuota_tasks
  UpdateChannelUsedQuota_tasks RecordTaskBillingLog_tasks : preserve.

(** ** Settlement *)

Lemma taskAdjustFunding_outcome t delta w r w' :
  taskAdjustFunding t delta w = (r, w') -> delta <> 0 -> funding_can_pay (task_source t) delta w ->
  funding_pays (task_source t) (match r with Ok _ => delta | Err _ => 0 end) w w' /\ forall id, token_shift id 0 w w'.
Proof.
  intros H Hd Hc. apply taskAdjustFunding_Settle in H; [|done]. split.
  - destruct (task_source t) as [f|f].
    + apply (dispatch_wallet _ (Funding_Settle delta)) in H as (g & _ & H).
      destruct (Settle_law _ _ _ _ _ _ H Hc) as [_ Hp]. by destruct r.
    + apply (dispatch_subscription (Funding_Settle delta)) in H as (g & _ & H).
      destruct (Settle_law _ _ _ _ _ _ H Hc) as [_ Hp]. by destruct r.
  - intros id. destruct (Settle_tokens _ _ _ _ _ _ H). by apply tokens_same_shift.
Qed.

(** Both movements of a change of [task.Quota] by [delta]. *)
Definition task_moved (t : Task) (delta : Z) (w w' : World) : Prop :=
  funding_pays (task_source t) delta w w' /\
  exists k, (k = 0 \/ k = delta) /\ token_shift t.(tk_PrivateData).(tp_TokenId) (- k) w w'.

(** The accounts of a task can take a change by [delta]. *)
Definition task_room (t : Task) (delta : Z) (w : World) : Prop :=
  funding_can_pay (task_source t) delta w /\ batch_room w.(w_batch).(bs_TokenQuota) t.(tk_PrivateData).(tp_TokenId) (- delta) /\
  in_i64 delta.

Lemma task_moved_same t d w w1 w2 : task_moved t d w w1 -> same_money w1 w2 -> task_moved t d w w2.
Proof.
  intros [H (k & Hk & Ht)] Hs. split; [by eapply pays_same|]. exists k. split; [done|]. by eapply token_shift_same.
Qed.

Lemma taskAdjust_moved t delta w :
  delta <> 0 -> task_room t delta w ->
  match taskAdjustFunding t delta w with
  | (Err _, w1) => task_moved t 0 w w1
  | (Ok _, w1) => exists w2, taskAdjustTokenQuota t delta w1 = (Ok tt, w2) /\ task_moved t delta w w2 /\
      (no_faults w1 -> chargeable t.(tk_PrivateData).(tp_TokenId) w1 -> token_shift t.(tk_PrivateData).(tp_TokenId) (- delta) w w2)
  end.
Proof.
  intros Hd (Hc & Hr & Hi). destruct (taskAdjustFunding t delta w) as [r w1] eqn:E.
  pose proof (taskAdjustFunding_outcome _ _ _ _ _ E Hd Hc) as [Hp Ht].
  destruct r as [[]|]; [|by split; [exact Hp|exists 0; split; [by left|apply Ht]]].
  destruct (Settle_tokens _ _ _ _ _ _ (taskAdjustFunding_Settle _ _ _ _ _ E Hd)) as [_ Eb].
  destruct (taskAdjustTokenQuota_part t delta w1 Hd) as (w2 & E2 & (Hw & Hs & k & Hk & Hts) & Hff); [by rewrite Eb|].
  assert (forall k, token_shift (tp_TokenId (tk_PrivateData t)) (- k) w1 w2 ->
                    token_shift (tp_TokenId (tk_PrivateData t)) (- k) w w2) as Htrans.
  { intros k' H. replace (- k') with (0 + - k') by lia. by eapply token_shift_trans. }
  exists w2. split; [done|]. split; [|auto]. split; [|exists k; auto].
  destruct (task_source t); simpl in *.
  - replace (- delta) with (- delta + 0) by lia. by eapply wallet_shift_trans.
  - by rewrite Hs.
Qed.

Lemma quiet_same {A} (c : MW A) w r w' : (forall w0, preserves (same_money w0) c) -> c w = (r, w') -> same_money w w'.
Proof. intros H E. specialize (H w w (reflexivity w)). by rewrite E in H. Qed.

(** ** Without faults *)

Lemma stmt_no_faults : preserves no_faults stmt.
Proof. apply stmt_ep. apply _. Qed.
Lemma update_task_ff id p f w :
  no_faults w -> update_task id p f w =
    match w.(w_db).(tasks) !! id with
    | Some t => if p t then (Ok 1, set_w_db (set_tasks (insert id (f t))) w) else (Ok 0, w)
    | None => (Ok 0, w)
    end.
Proof.
  unfold no_faults. intros Hf. unfold update_task, bind, stmt, fault_point, gets, modify_db, modify, ret. rewrite Hf. simpl.
  destruct (_ !! id); [|done]. by destruct (p _).
Qed.
Lemma taskAdjustFunding_no_faults t d : preserves no_faults (taskAdjustFunding t d).
Proof. unfold taskAdjustFunding. solve_preserves. Qed.
Lemma taskAdjustTokenQuota_no_faults t d : preserves no_faults (taskAdjustTokenQuota t d).
Proof.
  pose proof stmt_no_faults. unfold taskAdjustTokenQuota, resolveTokenKey, GetTokenById.
  solve_preserves.
Qed.

(** The quota is stored, in a run without faults. *)
Definition stores_quota (t : Task) (w w' : World) : Prop :=
  forall row, w.(w_db).(tasks) !! t.(tk_ID) = Some row ->
  exists row', w'.(w_db).(tasks) !! t.(tk_ID) = Some row' /\ row'.(tk_Quota) = t.(tk_Quota).

Lemma UpdateQuota_stores t w w' r : UpdateQuota t w = (r, w') -> no_faults w -> stores_quota t w w'.
Proof.
  intros H Hf row Hrow. unfold UpdateQuota, GetTimestamp, bind, gets in H. rewrite update_task_ff, Hrow in H by done.
  injection H as <- <-. simpl. rewrite lookup_insert_eq. eauto.
Qed.

Lemma tasks_same {A} (c : MW A) w r w' : (forall I, preserves (on_tasks I) c) -> c w = (r, w') -> w'.(w_db).(tasks) = w.(w_db).(tasks).
Proof. intros H E. specialize (H (eq w.(w_db).(tasks)) w eq_refl). rewrite E in H. by symmetry. Qed.

(** Bookkeeping always returns. *)
Lemma UpdateUserUsedQuota_ok id k w : exists w', UpdateUserUsedQuota id k w = (Ok tt, w').
Proof.
  unfold UpdateUserUsedQuota, bind, cfg, gets. destruct (BatchUpdateEnabled _); [by eexists|].
  unfold bind, catch. destruct (update_user _ _ _ w) as [[] ?]; by eexists.
Qed.
Lemma UpdateChannelUsedQuota_ok id k w : exists w', UpdateChannelUsedQuota id k w = (Ok tt, w').
Proof.
  unfold UpdateChannelUsedQuota, bind, cfg, gets. destruct (BatchUpdateEnabled _); [by eexists|].
  unfold updateChannelUsedQuota, bind, catch. destruct (stmt w) as [[] ?]; by eexists.
Qed.
Lemma RecordTaskBillingLog_ok env u l q w : exists w', RecordTaskBillingLog env u l q w = (Ok tt, w').
Proof. unfold RecordTaskBillingLog. case_match; by eexists. Qed.

Lemma UpdateUserUsedQuota_no_faults id k : preserves no_faults (UpdateUserUsedQuota id k).
Proof. unfold UpdateUserUsedQuota. solve_preserves; (apply addNewRecord_ep || apply update_user_ep); apply _. Qed.
Lemma UpdateChannelUsedQuota_no_faults id k : preserves no_faults (UpdateChannelUsedQuota id k).
Proof.
  pose proof stmt_no_faults. unfold UpdateChannelUsedQuota, updateChannelUsedQuota. solve_preserves.
Qed.
Lemma RecordTaskBillingLog_no_faults env u l q : preserves no_faults (RecordTaskBillingLog env u l q).
Proof. unfold RecordTaskBillingLog. by case_match; intros w Hw. Qed.
#[export] Hint Resolve UpdateUserUsedQuota_no_faults UpdateChannelUsedQuota_no_faults RecordTaskBillingLog_no_faults : preserve.

(** A computation of the bookkeeping: it returns, moves no balance and keeps the table. *)
Definition bookkeeping (c : MW unit) : Prop :=
  (forall w, exists w', c w = (Ok tt, w')) /\ (forall w0, preserves (same_money w0) c) /\ (forall I, preserves (on_tasks I) c) /\
  preserves no_faults c.
Lemma bookkeeping_used id k : bookkeeping (UpdateUserUsedQuota id k).
Proof. split_and!; intros; [apply UpdateUserUsedQuota_ok|auto with preserve..]. Qed.
Lemma bookkeeping_channel id k : bookkeeping (UpdateChannelUsedQuota id k).
Proof. split_and!; intros; [apply UpdateChannelUsedQuota_ok|auto with preserve..]. Qed.
Lemma bookkeeping_log env u l q : bookkeeping (RecordTaskBillingLog env u l q).
Proof. split_and!; intros; [apply RecordTaskBillingLog_ok|auto with preserve..]. Qed.

Lemma bookkeeping_step {B} c (k : MW B) w :
  bookkeeping c -> exists w1, bind c (fun _ => k) w = k w1 /\ same_money w w1 /\
    (w1.(w_db).(tasks) = w.(w_db).(tasks) /\ (no_faults w -> no_faults w1)).
Proof.
  intros (H1 & H2 & H3 & H4). destruct (H1 w) as [w1 E]. exists w1. specialize (H4 w). unfold bind. rewrite E in *.
  split_and!; [done|by eapply quiet_same|by eapply tasks_same|auto].
Qed.

Lemma store_step {B} t (k : MW B) w :
  exists w1, bind (catch (UpdateQuota t)) (fun _ => k) w = k w1 /\ same_money w w1 /\ (no_faults w -> stores_quota t w w1).
Proof.
  unfold bind at 1, catch. destruct (UpdateQuota t w) as [r w1] eqn:E. exists w1. split; [done|]. split.
  - eapply quiet_same; [|exact E]. auto with preserve.
  - by eapply UpdateQuota_stores.
Qed.

(** The funding source and the token after a change of the quota from that of [t] to that of [t']. *)
Definition task_paid (t t' : Task) (w w' : World) : Prop :=
  let delta := t'.(tk_Quota) - t.(tk_Quota) in
  task_moved t delta w w' /\
  (no_faults w -> chargeable t.(tk_PrivateData).(tp_TokenId) w -> token_shift t.(tk_PrivateData).(tp_TokenId) (- delta) w w').

Lemma task_moved_0 t w : task_moved t 0 w w.
Proof.
  split; [|exists 0; split; [by left|by apply token_shift_0]].
  destruct (task_source t); [by apply wallet_shift_0|by left].
Qed.
Lemma task_paid_refl t w : task_paid t t w w.
Proof.
  unfold task_paid. rewrite Z.sub_diag. split; [apply task_moved_0|]. intros _ _. by apply token_shift_0.
Qed.
Lemma task_paid_same t t' w w1 w2 : task_paid t t' w w1 -> same_money w1 w2 -> task_paid t t' w w2.
Proof. intros [H1 H2] Hs. split; [by eapply task_moved_same|]. intros. eapply token_shift_same; [auto|done]. Qed.
Lemma same_money_trans w1 w2 w3 : same_money w1 w2 -> same_money w2 w3 -> same_money w1 w3.
Proof. intros (A1 & A2 & A3) (B1 & B2 & B3). split_and!; [intros; by rewrite B1|intros; by rewrite B2|congruence]. Qed.

(** The two adjustments of [taskAdjust...] when they succeed, and when the first fails. *)
Lemma taskAdjust_paid t q w :
  q - t.(tk_Quota) <> 0 -> task_room t (q - t.(tk_Quota)) w ->
  let delta := q - t.(tk_Quota) in
  match taskAdjustFunding t delta w with
  | (Err _, w1) => task_paid t t w w1
  | (Ok _, w1) => exists w2, taskAdjustTokenQuota t delta w1 = (Ok tt, w2) /\
      task_paid t (set_tk_Quota (fun _ => q) t) w w2 /\ w2.(w_db).(tasks) = w.(w_db).(tasks) /\ (no_faults w -> no_faults w2)
  end.
Proof.
  intros Hd Hr delta. pose proof (taskAdjust_moved t delta w Hd Hr) as H.
  pose proof (taskAdjustFunding_no_faults t delta w) as Hf. destruct (taskAdjustFunding t delta w) as [[[]|e] w1] eqn:E.
  - destruct H as (w2 & E2 & Hm & Hts). pose proof (taskAdjustTokenQuota_no_faults t delta w1) as Hf2. rewrite E2 in Hf2.
    exists w2. split_and!; [done| | |auto].
    + split; [done|]. intros H1 (Hp & tk & Ht & Hk). apply Hts; [by apply Hf|]. split; [done|]. exists tk. split; [|done].
      apply taskAdjustFunding_Settle in E as E'; [|done]. destruct (Settle_tokens _ _ _ _ _ _ E') as [Et _].
      unfold visible_token in *. by rewrite Et.
    + apply tasks_same in E, E2; [congruence|auto with preserve..].
  - unfold task_paid. rewrite Z.sub_diag. split; [done|]. intros _ _.
    destruct Hr as (Hc & _). apply taskAdjustFunding_outcome in E as [_ E]; [apply E|done..].
Qed.

(** Runs one step of the bookkeeping, or the write of the quota, in a goal. *)
Ltac keep_books w w' S T :=
  match goal with |- context [bind ?c (fun _ => ?k) w] =>
    destruct (bookkeeping_step c k w) as (w' & -> & S & T & ?);
      [repeat case_match; first [apply bookkeeping_used|apply bookkeeping_channel|apply bookkeeping_log]|] end.
Ltac store w w' S St :=
  match goal with |- context [bind (catch (UpdateQuota ?t)) (fun _ => ?k) w] =>
    destruct (store_step t k w) as (w' & -> & S & St) end.

(** The source of a task can take the change: a wallet stays under its ceiling, a subscription exists and stays within its total. *)
Definition adjustable (t : Task) (delta : Z) (w : World) : Prop :=
  if taskIsSubscription t
  then exists s, w.(w_db).(subs) !! t.(tk_PrivateData).(tp_SubscriptionId) = Some s /\
         (0 < s.(s_AmountTotal) -> Z.max 0 (s.(s_AmountUsed) + delta) <= s.(s_AmountTotal))
  else forall u, visible_user w.(w_db) t.(tk_UserId) = Some u -> Z.max 0 u.(u_Quota) - delta <= MaxWalletQuota.

Lemma post_consume_ok id delta s w :
  no_faults w -> 0 < id -> w.(w_db).(subs) !! id = Some s -> in_i64 (s.(s_AmountUsed) + delta) ->
  (0 < s.(s_AmountTotal) -> Z.max 0 (s.(s_AmountUsed) + delta) <= s.(s_AmountTotal)) ->
  exists w', PostConsumeUserSubscriptionDelta id delta w = (Ok tt, w').
Proof.
  unfold no_faults. intros Hf Hid Hs Hi Ht. unfold PostConsumeUserSubscriptionDelta. replace (id <=? 0) with false by lia.
  destruct (delta =? 0); [by eexists|]. unfold Transaction. rewrite stmt_ff by done.
  unfold post_consume_tx, first_sub, bind. rewrite stmt_ff by done. unfold gets. rewrite Hs. unfold ret.
  rewrite wrap64_id by done.
  replace ((0 <? s_AmountTotal s) && (s_AmountTotal s <? Z.max (s_AmountUsed s + delta) 0)) with false.
  2:{ symmetry. apply andb_false_iff. rewrite !Z.ltb_ge. destruct (Z.lt_ge_cases 0 (s_AmountTotal s)); [right|left]; lia. }
  unfold save_sub, GetTimestamp, gets, bind. rewrite stmt_ff by done. cbn -[stmt]. rewrite stmt_ff by done. by eexists.
Qed.

(** Without faults a wallet takes any change that leaves it under its ceiling. *)
Lemma wallet_adjust_ok id delta w :
  no_faults w -> batch_room w.(w_batch).(bs_UserQuota) id (- delta) -> user_live w id ->
  (forall u, visible_user w.(w_db) id = Some u -> Z.max 0 u.(u_Quota) - delta <= MaxWalletQuota) ->
  exists w', (if 0 <? delta then DecreaseUserQuota id delta false else IncreaseUserQuota id (wrap64 (- delta)) false) w = (Ok tt, w').
Proof.
  intros Hf Hr Hl Ha. destruct (Z.ltb_spec 0 delta).
  - unfold DecreaseUserQuota. replace (delta <? 0) with false by lia. unfold bind, go, cfg, gets, modify.
    simpl. destruct (BatchUpdateEnabled _); simpl; [by eexists|].
    unfold decreaseUserQuota, bind. rewrite update_user_ff by done. simpl. destruct (visible_user _ _); by eexists.
  - rewrite (wrap64_opp _ _ _ Hr). unfold IncreaseUserQuota. replace (- delta <? 0) with false by lia.
    destruct Hl as [u Hu]. specialize (Ha u Hu). unfold ValidateWalletQuota.
    replace (MaxWalletQuota <? - delta) with false by lia. unfold bind, cfg, gets.
    destruct (BatchUpdateEnabled _); simpl; [by eexists|].
    unfold increaseUserQuota, bind. rewrite update_user_ff, Hu by done.
    rewrite wrap64_id by (unfold in_i64, MinInt64, MaxInt64, MaxWalletQuota in *; lia).
    replace (u_Quota u <=? MaxWalletQuota - - delta) with true by lia. by eexists.
Qed.

Lemma taskAdjustFunding_ok t delta w :
  no_faults w -> delta <> 0 -> task_room t delta w -> adjustable t delta w ->
  exists w', taskAdjustFunding t delta w = (Ok tt, w').
Proof.
  intros Hf Hd (Hc & _ & _) Ha. unfold adjustable in Ha. unfold taskAdjustFunding. unfold task_source in Hc.
  destruct (taskIsSubscription t) eqn:Hsub.
  - destruct Ha as (s & Hs & Ht). destruct (Hc s Hs) as [_ Hi]. apply (post_consume_ok _ _ s); [done| |done..].
    unfold taskIsSubscription in Hsub. lia.
  - destruct Hc as [Hr Hl]. by apply wallet_adjust_ok.
Qed.

(** The quota of the task is the new one, or the funding source refused. *)
Definition requoted (task t' : Task) (q : Z) (w : World) : Prop :=
  t' = set_tk_Quota (fun _ => q) task \/
  (t' = task /\ exists e, (taskAdjustFunding task (q - task.(tk_Quota)) w).1 = Err e).

Lemma requote_same task : set_tk_Quota (fun _ => task.(tk_Quota)) task = task.
Proof. by destruct task. Qed.

(** Settling a task at an actual cost: the copy carries the new quota unless the funding
    source refused, the funding source and the token paid exactly the difference, and
    without faults it does not refuse and the row carries the quota too. *)
Lemma RecalculateTaskQuota_paid env task actual w :
  task_room task (actual - task.(tk_Quota)) w ->
  exists t' w', RecalculateTaskQuota env task actual w = (Ok t', w') /\
    (if actual <? 0 then t' = task else requoted task t' actual w) /\ task_paid task t' w w' /\
    (no_faults w -> 0 <= actual -> actual <> task.(tk_Quota) -> adjustable task (actual - task.(tk_Quota)) w ->
       t' = set_tk_Quota (fun _ => actual) task /\ stores_quota t' w w').
Proof.
  intros Hr. unfold RecalculateTaskQuota. destruct (Z.ltb_spec actual 0) as [|Ha].
  { eexists _, _. split_and!; [done|done|apply task_paid_refl|lia]. }
  rewrite wrap64_id by apply Hr. destruct (Z.eqb_spec (actual - tk_Quota task) 0) as [Hz|Hd].
  { eexists _, _. split_and!; [done| |apply task_paid_refl|lia]. left. replace actual with (tk_Quota task) by lia.
    by rewrite requote_same. }
  pose proof (taskAdjust_paid task actual w Hd Hr) as H. pose proof (taskAdjustFunding_ok task (actual - tk_Quota task) w) as Hok.
  unfold requoted. cbv zeta in H. unfold bind at 1, catch at 1.
  destruct (taskAdjustFunding task _ w) as [[[]|e] w1].
  2:{ eexists _, _. split_and!; [done|by eauto|done|]. intros Hnf _ _ Hadj. by destruct (Hok Hnf Hd Hr Hadj). }
  destruct H as (w2 & E2 & Hp & Et & Hf). unfold bind at 1. rewrite E2. cbv zeta. set (t' := set_tk_Quota _ task) in *.
  store w2 w3 S3 St. keep_books w3 w4 S4 T4. keep_books w4 w5 S5 T5. keep_books w5 w6 S6 T6.
  exists t', w6. split_and!; [done|auto| |].
  - eapply task_paid_same; [exact Hp|]. by repeat (eapply same_money_trans; [eassumption|]).
  - intros Hnf _ _ _. split; [done|]. intros row Hrow. rewrite T6, T5, T4. apply (St (Hf Hnf) row). by rewrite Et.
Qed.

(** A refund of a task, likewise: all of its quota came back, or the source refused. *)
Lemma RefundTaskQuota_paid env task w :
  task_room task (0 - task.(tk_Quota)) w ->
  exists b t' w', RefundTaskQuota env task w = (Ok (b, t'), w') /\
    (b = true -> t' = set_tk_Quota (fun _ => 0) task) /\
    (b = false -> t' = task /\ exists e, (taskAdjustFunding task (0 - task.(tk_Quota)) w).1 = Err e) /\
    task_paid task t' w w' /\
    (no_faults w -> task.(tk_Quota) <> 0 -> adjustable task (0 - task.(tk_Quota)) w -> b = true /\ stores_quota t' w w').
Proof.
  intros Hr. unfold RefundTaskQuota. destruct (Z.eqb_spec (tk_Quota task) 0) as [E0|Hd].
  { exists true, task, w. split_and!; [done|intros _|done|apply task_paid_refl|done].
    pose proof (requote_same task) as E. by rewrite E0 in E. }
  assert (wrap64 (- tk_Quota task) = 0 - tk_Quota task) as Ew.
  { replace (- tk_Quota task) with (0 - tk_Quota task) by lia. apply wrap64_id, Hr. }
  rewrite Ew. pose proof (taskAdjust_paid task 0 w ltac:(lia) Hr) as H. pose proof (taskAdjustFunding_ok task (0 - tk_Quota task) w) as Hok.
  cbv zeta in H. unfold bind at 1, catch at 1.
  destruct (taskAdjustFunding task _ w) as [[[]|e] w1].
  2:{ exists false, task, w1. split_and!; [done|done|by eauto|done|].
      intros Hnf _ Hadj. by destruct (Hok Hnf ltac:(lia) Hr Hadj). }
  destruct H as (w2 & E2 & Hp & Et & Hf). unfold bind at 1. rewrite E2. cbv zeta. set (t' := set_tk_Quota _ task) in *.
  keep_books w2 w3 S3 T3. keep_books w3 w4 S4 T4. keep_books w4 w5 S5 T5. store w5 w6 S6 St.
  exists true, t', w6. split_and!; [done|done|done| |].
  - eapply task_paid_same; [exact Hp|]. by repeat (eapply same_money_trans; [eassumption|]).
  - intros Hnf _ _. split; [done|]. intros row Hrow. apply (St ltac:(auto) row). by rewrite T5, T4, T3, Et.
Qed.

(** ** A sample *)

Definition sample_private (tokenId : Z) : TaskPrivateData := mkPrivateData "" "up" "" "wallet" 0 tokenId "" None "" 0.
Definition sample_task (id userId tokenId quota : Z) (status : string) : Task :=
  mkTask id 0 0 "task_1" "suno" userId "default" 7 quota "generate" status "" TaskRefundLegacyCutoff 0 0 "10%" "m"
    (sample_private tokenId) "".
Definition sample_env : TaskEnv := mkTaskEnv true 1440 20 "https://host" false ∅ ∅ ∅.
(** A user with 100 and a token with 50 who paid 40 for task 5. *)
Definition task_world : World :=
  set_w_db (set_tasks (insert 5 (sample_task 5 1 2 40 TaskStatusInProgress)))
    (with_token (sample_token 2 1 "k" 50) (with_user (sample_user 1 100) (empty_world (sample_config false false)))).

(** C9. Settling or refunding a task moves its funding source (wallet or subscription)
    by exactly the change of the task's quota and its token by that change or not at
    all, under any failures.  The quota becomes the actual cost, or zero after a refund,
    unless the funding source reported an error (or the cost is negative, which is
    ignored), and then nothing moved.  Without failures, and when the source can take
    the change (a wallet stays under its ceiling, a subscription exists and stays within its
    total), it is taken, a token
    that exists is charged too and the row carries the new quota.  (The amount used of a
    subscription never goes below zero: a refund after its period was reset stops
    there.) *)
Theorem task_billing_exact env task w :
  (forall actual, task_room task (actual - task.(tk_Quota)) w ->
     exists t' w', RecalculateTaskQuota env task actual w = (Ok t', w') /\
       (if actual <? 0 then t' = task else requoted task t' actual w) /\ task_paid task t' w w' /\
       (no_faults w -> 0 <= actual -> actual <> task.(tk_Quota) -> adjustable task (actual - task.(tk_Quota)) w ->
          t' = set_tk_Quota (fun _ => actual) task /\ stores_quota t' w w')) /\
  (task_room task (0 - task.(tk_Quota)) w ->
     exists b t' w', RefundTaskQuota env task w = (Ok (b, t'), w') /\
       (b = true -> t' = set_tk_Quota (fun _ => 0) task) /\
       (b = false -> t' = task /\ exists e, (taskAdjustFunding task (0 - task.(tk_Quota)) w).1 = Err e) /\
       task_paid task t' w w' /\
       (no_faults w -> task.(tk_Quota) <> 0 -> adjustable task (0 - task.(tk_Quota)) w -> b = true /\ stores_quota t' w w')).
Proof. split; [intros actual; apply RecalculateTaskQuota_paid|apply RefundTaskQuota_paid]. Qed.

Lemma sample_room d : in_i64 d -> in_i64 (- d) -> task_room (sample_task 5 1 2 40 TaskStatusInProgress) d task_world.
Proof.
  intros H1 H2. assert (in_i64 0) by (unfold in_i64, MinInt64, MaxInt64; lia).
  split_and!; [split; [|by eexists]|..|done]; split_and!; try done; change (in_i64 (0 + - d)); by rewrite Z.add_0_l.
Qed.

Lemma task_billing_exact_witness :
  let t := sample_task 5 1 2 40 TaskStatusInProgress in
  exists t' w', RecalculateTaskQuota sample_env t 70 task_world = (Ok t', w') /\
    task_paid t t' task_world w' /\ t'.(tk_Quota) = 70 /\ wallet w' 1 = 70 /\ token_remain w' 2 = 20.
Proof.
  intros t. destruct (task_billing_exact sample_env t task_world) as [H _].
  destruct (H 70) as (t' & w' & E & _ & Hp & _).
  - apply sample_room; split; vm_compute; discriminate.
  - exists t', w'. split; [exact E|]. split; [exact Hp|]. vm_compute in E. injection E as <- <-. split; [reflexivity|].
    split; reflexivity.
Defined.
