(* ===== verification/TaskOnce.v ===== *)
(** * A task is billed at most once (theorems on TaskPolling)

    Any number of workers list unfinished tasks, poll them, write the outcome and
    bill it, interleaved with each other and with the rest of the program. *)

From stdpp Require Import base tactics numbers list gmap strings sorting.
From Stdlib Require Import ZArith Lia.
From S2P Require Import Prelude Float64 QuotaMath DecimalQ World UserCache QuotaStore Reserve SubscriptionTime Subscription SubscriptionInv SubscriptionUse Billing BillingFrame BillingLaws Task TaskPolling TaskLaws.
Open Scope Z_scope.

(** ** The compare-and-swap *)

Lemma UpdateWithStatus_inv t from w r w' :
  UpdateWithStatus t from w = (r, w') ->
  (w'.(w_db).(tasks) = w.(w_db).(tasks) /\ r <> Ok true) \/
  (r = Ok true /\ exists row, w.(w_db).(tasks) !! t.(tk_ID) = Some row /\ row.(tk_Status) = from /\
     w'.(w_db).(tasks) = <[t.(tk_ID) := set_tk_UpdatedAt (fun _ => w.(w_clock)) t]> w.(w_db).(tasks)).
Proof.
  unfold UpdateWithStatus, update_task, GetTimestamp, bind, stmt, fault_point, gets, modify_db, modify, ret. intros H.
  destruct (w_faults w) as [|[] fs]; simpl in H.
  2: { injection H as <- <-. by left. }
  all: destruct (tasks (w_db w) !! tk_ID t) as [row|] eqn:Hrow; [|by injection H as <- <-; left].
  all: destruct (String.eqb_spec (tk_Status row) from); injection H as <- <-; [|by left].
  all: right; split; [done|]; exists row; done.
Qed.

(** What a transition may do: nothing; or replace the row of the task, whose status
    still was that of the copy.  Billing is due only if it made the row final. *)
Definition transition_ok (t : Task) (w : World) (r : result error (option Pending)) (w' : World) : Prop :=
  (w'.(w_db).(tasks) = w.(w_db).(tasks) /\ forall p, r <> Ok (Some p)) \/
  exists row t', w.(w_db).(tasks) !! t.(tk_ID) = Some row /\ row.(tk_Status) = t.(tk_Status) /\ t'.(tk_ID) = t.(tk_ID) /\
    w'.(w_db).(tasks) = <[t.(tk_ID) := t']> w.(w_db).(tasks) /\
    forall p, r = Ok (Some p) -> (pend_task p).(tk_ID) = t.(tk_ID) /\ is_done t'.(tk_Status) = true.

(** The common shape: write the copy [t'], and bill it with [p] if that succeeded. *)
Lemma cas_transition t t' p w r w' :
  (let! won := UpdateWithStatus t' t.(tk_Status) in if negb won then ret None else ret (Some p)) w = (r, w') ->
  t'.(tk_ID) = t.(tk_ID) -> (pend_task p).(tk_ID) = t.(tk_ID) -> is_done t'.(tk_Status) = true -> transition_ok t w r w'.
Proof.
  intros H Hi Hp Hd. unfold bind in H. destruct (UpdateWithStatus t' _ w) as [r1 w1] eqn:E.
  apply UpdateWithStatus_inv in E as [[E Hr]|(-> & row & Hrow & Hst & E)].
  - left. destruct r1 as [[]|]; [done|..]; injection H as <- <-; (split; [done|]); by intros p'.
  - injection H as <- <-. right. exists row, (set_tk_UpdatedAt (fun _ => w.(w_clock)) t'). rewrite Hi in *. split_and!; try done.
    intros p' [= <-]. split; [done|]. by destruct t'.
Qed.

(** A write after which nothing is due, whatever it returned. *)
Lemma quiet_transition t t' w r1 w' r :
  UpdateWithStatus t' t.(tk_Status) w = (r1, w') -> t'.(tk_ID) = t.(tk_ID) -> (forall p, r <> Ok (Some p)) -> transition_ok t w r w'.
Proof.
  intros E Hi Hr. apply UpdateWithStatus_inv in E as [[E _]|(-> & row & Hrow & Hst & E)]; [by left|].
  right. exists row, (set_tk_UpdatedAt (fun _ => w.(w_clock)) t'). rewrite Hi in *. split_and!; try done.
  intros p Hp. by destruct (Hr p).
Qed.

Section transitions.
Context {EE : ExprEngine} {AD : TaskPollingAdaptor} (env : TaskEnv).

(** [t1] is the copy with its failure counter touched. *)
Lemma fail_transition_ok t t1 reason w r w' :
  fail_transition t1 t.(tk_Status) reason w = (r, w') -> t1.(tk_ID) = t.(tk_ID) -> transition_ok t w r w'.
Proof.
  unfold fail_transition, GetTimestamp, bind at 1, gets. intros H Hi. eapply cas_transition; [exact H|done..].
Qed.

Lemma record_failure_ok t class code detail w r w' :
  record_failure_transition env t t.(tk_Status) class code detail w = (r, w') -> transition_ok t w r w'.
Proof.
  unfold record_failure_transition. intros H. case_match; [by eapply fail_transition_ok|].
  unfold bind in H. destruct (UpdateWithStatus _ _ w) as [r1 w1] eqn:E.
  destruct r1; injection H as <- <-; (eapply quiet_transition; [exact E|done|done]).
Qed.

Lemma sweep_transition_ok now t w r w' : sweep_transition env now t w = (r, w') -> transition_ok t w r w'.
Proof.
  unfold sweep_transition. set (t' := if is_legacy t then _ else _). intros H.
  assert (tk_ID t' = tk_ID t /\ is_done (tk_Status t') = true) as [Hi Hd] by (unfold t'; by destruct (is_legacy t)).
  unfold bind, catch in H. destruct (UpdateWithStatus t' _ w) as [r1 w1] eqn:E.
  apply UpdateWithStatus_inv in E as [[E Hr]|(-> & row & Hrow & Hst & E)].
  - left. destruct r1 as [[]|]; [done|..]; injection H as <- <-; (split; [done|]); by intros p.
  - right. exists row, (set_tk_UpdatedAt (fun _ => w.(w_clock)) t'). rewrite Hi in *.
    destruct (is_legacy t) eqn:El; injection H as <- <-; split_and!; try done.
    intros p [= <-]. done.
Qed.

Lemma video_columns_spec now info t t' b :
  video_columns env now info t = (t', b) ->
  t'.(tk_ID) = t.(tk_ID) /\ t'.(tk_Status) = info.(ti_Status) /\ (b = true -> is_done info.(ti_Status) = true).
Proof.
  unfold video_columns. intros H. repeat case_match; simplify_eq; split_and!; try done; unfold is_done;
    repeat match goal with H : String.eqb _ _ = true |- _ => apply String.eqb_eq in H as -> end; done.
Qed.

(** The end of a poll: [t'] is the copy with the reported columns. *)
Lemma finalize_ok t t' (due : bool) info w r w' :
  (let! finalize :=
     if is_done t'.(tk_Status) && negb (String.eqb t.(tk_Status) t'.(tk_Status)) then
       let! r := catch (UpdateWithStatus t' t.(tk_Status)) in
       match r with Ok won => ret (due && won) | Err _ => ret false end
     else if negb (bool_decide (Snapshot t = Snapshot t')) then
       catch (UpdateWithStatus t' t.(tk_Status)) ;; ret due
     else ret due in
   if finalize : bool then ret (Some (PendComplete t' info)) else ret None) w = (r, w') ->
  t'.(tk_ID) = t.(tk_ID) -> is_done t.(tk_Status) = false -> (due = true -> is_done t'.(tk_Status) = true) ->
  transition_ok t w r w'.
Proof.
  intros H Hi Hn Hdue. destruct (is_done t'.(tk_Status)) eqn:Hd; simpl in H.
  - destruct (String.eqb_spec (tk_Status t) (tk_Status t')) as [E|_]; [congruence|]. simpl in H. unfold bind, catch in H.
    destruct (UpdateWithStatus t' _ w) as [r1 w1] eqn:E.
    apply UpdateWithStatus_inv in E as [[E Hr]|(-> & row & Hrow & Hst & E)].
    + left. destruct r1 as [[]|]; [done| |]; rewrite ?andb_false_r in H; injection H as <- <-; (split; [done|]); by intros p.
    + right. exists row, (set_tk_UpdatedAt (fun _ => w.(w_clock)) t'). rewrite Hi in *.
      destruct due; injection H as <- <-; split_and!; try done. by intros p [= <-].
  - destruct due; [by specialize (Hdue eq_refl)|]. destruct (negb _).
    + unfold bind, catch in H. destruct (UpdateWithStatus t' _ w) as [r1 w1] eqn:E. injection H as <- <-.
      by eapply quiet_transition.
    + injection H as <- <-. by left.
Qed.

Lemma video_parsed_ok t body info w r w' :
  video_parsed env (Snapshot t) body info t w = (r, w') -> is_done t.(tk_Status) = false -> transition_ok t w r w'.
Proof.
  unfold video_parsed. set (t0 := if isNonTerminalPollStatus _ then _ else _). intros H Hn.
  assert (tk_ID t0 = tk_ID t) as Hi by (unfold t0; by repeat case_match).
  unfold bind at 1, GetTimestamp, gets in H. destruct (video_columns _ _ _ _) as [t1 due] eqn:E.
  apply video_columns_spec in E as (Hi1 & Hst & Hdue).
  set (t2 := if String.eqb (reported_progress info) "" then t1 else _) in H.
  assert (tk_ID t2 = tk_ID t /\ tk_Status t2 = tk_Status t1) as [Hi2 Hs2] by (unfold t2; destruct (String.eqb (reported_progress info) ""); simpl; rewrite ?Hi1, ?Hi; done).
  apply (finalize_ok t t2 due info) in H; [done|done|done|]. intros Hb. rewrite Hs2, Hst. auto.
Qed.

Lemma video_transition_ok reply t w r w' :
  video_transition env reply t w = (r, w') -> is_done t.(tk_Status) = false -> transition_ok t w r w'.
Proof.
  unfold video_transition. intros H Hn.
  repeat case_match; first [by eapply record_failure_ok|by eapply fail_transition_ok|by eapply video_parsed_ok].
Qed.

Lemma batch_item_transition_ok code item t w r w' :
  batch_item_transition env code item t w = (r, w') -> transition_ok t w r w'.
Proof.
  unfold batch_item_transition. set (failure := bind (catch _) _). set (t' := batch_columns item t). intros H.
  assert (failure w = (r, w') -> transition_ok t w r w') as Hf.
  { unfold failure, bind, catch. clear H. intros H.
    destruct (record_failure_transition _ _ _ _ _ _ w) as [r1 w1] eqn:E. apply record_failure_ok in E.
    destruct r1; injection H as <- <-; [done|]. destruct E as [[E _]|(row & t1 & ? & ? & ? & ? & _)]; [by left|].
    right. exists row, t1. by split_and!. }
  case_match; [by apply Hf|]. case_match; [by apply Hf|].
  assert (tk_ID t' = tk_ID t) as Hi by (unfold t', batch_columns; by repeat case_match).
  unfold bind, catch in H. destruct (UpdateWithStatus t' _ w) as [r1 w1] eqn:E. simpl in E.
  destruct (is_done (tk_Status t')) eqn:Hd; simpl in H.
  2: { destruct r1 as [[]|]; injection H as <- <-; by eapply quiet_transition. }
  apply UpdateWithStatus_inv in E as [[E Hr]|(-> & row & Hrow & Hst & E)].
  - left. destruct r1 as [[]|]; [done|..]; injection H as <- <-; (split; [done|]); by intros p.
  - right. exists row, (set_tk_UpdatedAt (fun _ => w.(w_clock)) t'). rewrite Hi in *.
    match type of H with context [negb ?b] => destruct b end; injection H as <- <-; split_and!; try done. by intros p [= <-].
Qed.
End transitions.

(** ** Billing keeps every status *)

Definition status_view (m : gmap Z Task) : gmap Z (Z * string) := (fun t => (t.(tk_ID), t.(tk_Status))) <$> m.
Definition view_is (v : gmap Z (Z * string)) : World -> Prop := on_tasks (fun m => status_view m = v).

Lemma UpdateQuota_view v t : preserves (view_is v) (UpdateQuota t).
Proof.
  unfold UpdateQuota, update_task. apply preserves_bind; [auto with preserve|intros now].
  apply preserves_bind; [|intros; auto with preserve].
  apply preserves_bind; [auto with preserve|intros _]. apply preserves_read. intros w Hw.
  destruct (_ !! _) as [row|] eqn:E; [|done]. unfold view_is, on_tasks, status_view in *. simpl. rewrite fmap_insert, <- Hw.
  apply insert_id. rewrite lookup_fmap, E. done.
Qed.
#[export] Hint Resolve UpdateQuota_view : preserve.

Section billing_view.
Context {EE : ExprEngine} {AD : TaskPollingAdaptor} (env : TaskEnv) (v : gmap Z (Z * string)).

#[local] Hint Extern 1 (preserves (view_is _) _) => (unfold view_is; solve [eauto with preserve nocore]) : preserve.
Lemma RefundTaskQuota_view t : preserves (view_is v) (RefundTaskQuota env t).
Proof. unfold RefundTaskQuota. solve_preserves. Qed.
Lemma RecalculateTaskQuota_view t q : preserves (view_is v) (RecalculateTaskQuota env t q).
Proof. unfold RecalculateTaskQuota. solve_preserves. Qed.
#[local] Hint Resolve RefundTaskQuota_view RecalculateTaskQuota_view : preserve.
Lemma RecalculateTaskQuotaByTokens_view t n : preserves (view_is v) (RecalculateTaskQuotaByTokens env t n).
Proof. unfold RecalculateTaskQuotaByTokens, task_group, GetUserById. solve_preserves. Qed.
#[local] Hint Resolve RecalculateTaskQuotaByTokens_view : preserve.
Lemma settleTaskBillingOnComplete_view t info : preserves (view_is v) (settleTaskBillingOnComplete env t info).
Proof. unfold settleTaskBillingOnComplete. solve_preserves. Qed.
#[local] Hint Resolve settleTaskBillingOnComplete_view : preserve.
Lemma run_pending_view p : preserves (view_is v) (run_pending env p).
Proof. destruct p; simpl; solve_preserves. Qed.
End billing_view.

(** ** The workers *)

(** The copies listed and not yet polled, the billing due and not yet done, and the
    ids of the tasks billed so far. *)
Record Workers := mkWorkers {
  k_world : World;
  k_copies : list Task;
  k_due : list Pending;
  k_billed : list Z
}.
Definition busy (k : Workers) : list Z := ((fun p => (pend_task p).(tk_ID)) <$> k.(k_due)) ++ k.(k_billed).

Inductive PollOp :=
| PollVideo (reply : PollReply)
| PollBatch (statusCode : Z) (item : BatchTaskResult)
| PollFail (reason : string)
| PollRecord (class : string) (statusCode : Z) (detail : string)
| PollSweep (now : Z).

Section workers.
Context {EE : ExprEngine} {AD : TaskPollingAdaptor} (env : TaskEnv).

Definition run_op (op : PollOp) (t : Task) : MW (option Pending) :=
  match op with
  | PollVideo reply => video_transition env reply t
  | PollBatch statusCode item => batch_item_transition env statusCode item t
  | PollFail reason => fail_transition t t.(tk_Status) reason
  | PollRecord class statusCode detail => record_failure_transition env t t.(tk_Status) class statusCode detail
  | PollSweep now => sweep_transition env now t
  end.
Definition due_of (r : result error (option Pending)) : list Pending := match r with Ok (Some p) => [p] | _ => [] end.

Inductive work : Workers -> Workers -> Prop :=
(** a worker lists an unfinished row *)
| work_list w cs due b t :
    w.(w_db).(tasks) !! t.(tk_ID) = Some t -> is_done t.(tk_Status) = false ->
    work (mkWorkers w cs due b) (mkWorkers w (t :: cs) due b)
(** it polls the copy and writes the outcome *)
| work_poll w w' cs1 cs2 t op r due b :
    run_op op t w = (r, w') ->
    work (mkWorkers w (cs1 ++ t :: cs2) due b) (mkWorkers w' (cs1 ++ cs2) (due_of r ++ due) b)
(** it bills a task whose outcome it wrote *)
| work_bill w w' cs due1 due2 p r b :
    run_pending env p w = (r, w') ->
    work (mkWorkers w cs (due1 ++ p :: due2) b) (mkWorkers w' cs (due1 ++ due2) ((pend_task p).(tk_ID) :: b))
(** tasks without a channel are failed in bulk *)
| work_bulk w w' cs due b ids f r :
    (forall t, (f t).(tk_ID) = t.(tk_ID) /\ (f t).(tk_Status) = TaskStatusFailure) -> TaskBulkUpdateByID ids f w = (r, w') ->
    work (mkWorkers w cs due b) (mkWorkers w' cs due b)
(** a task is submitted *)
| work_submit w cs due b t :
    w.(w_db).(tasks) !! t.(tk_ID) = None ->
    work (mkWorkers w cs due b) (mkWorkers (set_w_db (set_tasks (insert t.(tk_ID) t)) w) cs due b)
(** anything else of the program, which leaves the tasks alone *)
| work_rest w w' cs due b :
    w'.(w_db).(tasks) = w.(w_db).(tasks) -> work (mkWorkers w cs due b) (mkWorkers w' cs due b).

Definition final_in (v : gmap Z (Z * string)) (id : Z) : Prop := exists st, v !! id = Some (id, st) /\ is_done st = true.
Definition work_inv (k : Workers) : Prop :=
  let v := status_view k.(k_world).(w_db).(tasks) in
  (forall id x, v !! id = Some x -> x.1 = id) /\ Forall (fun t => is_done t.(tk_Status) = false) k.(k_copies) /\
  NoDup (busy k) /\ Forall (final_in v) (busy k).

Lemma run_op_ok op t w r w' : run_op op t w = (r, w') -> is_done t.(tk_Status) = false -> transition_ok t w r w'.
Proof.
  destruct op; simpl; intros H Hn; eauto using video_transition_ok, batch_item_transition_ok, fail_transition_ok,
    record_failure_ok, sweep_transition_ok.
Qed.

Lemma final_insert v id id' x : final_in v id' -> id <> id' -> final_in (<[id := x]> v) id'.
Proof. intros (st & H & Hd) Hn. exists st. by rewrite lookup_insert_ne. Qed.

Lemma poll_inv w w' cs1 cs2 t r due b :
  transition_ok t w r w' -> work_inv (mkWorkers w (cs1 ++ t :: cs2) due b) -> work_inv (mkWorkers w' (cs1 ++ cs2) (due_of r ++ due) b).
Proof.
  intros Ht (Hk & Hc & Hn & Hf). simpl in *. unfold busy in *. simpl in *.
  apply Forall_app in Hc as [Hc1 Hc2]. apply Forall_cons in Hc2 as [Hnd Hc2].
  assert (Forall (fun t => is_done t.(tk_Status) = false) (cs1 ++ cs2)) as Hc by (by apply Forall_app).
  destruct Ht as [[E Hr]|(row & t' & Hrow & Hst & Hid & E & Hp)]; simpl.
  { replace (due_of r) with (@nil Pending) by (destruct r as [[p|]|]; [by destruct (Hr p)|done..]).
    unfold work_inv, busy; simpl. rewrite E. done. }
  set (v := status_view (tasks (w_db w))) in *.
  assert (v !! tk_ID t = Some (tk_ID row, tk_Status row)) as Hv by (unfold v, status_view; by rewrite lookup_fmap, Hrow).
  assert (status_view (tasks (w_db w')) = <[tk_ID t := (tk_ID t, tk_Status t')]> v) as Ev
    by (unfold v, status_view; by rewrite E, fmap_insert, Hid).
  assert (tk_ID t ∉ ((fun p => tk_ID (pend_task p)) <$> due) ++ b) as Hfresh.
  { intros Hin. rewrite Forall_forall in Hf. destruct (Hf _ Hin) as (st & Hl & Hd). rewrite Hv in Hl. congruence. }
  unfold work_inv, busy. simpl. rewrite Ev. split_and!; [|done| |].
  - intros id x. rewrite lookup_insert. case_decide; [intros [= <-]; done|apply Hk].
  - destruct r as [[p|]|]; simpl; [|done..]. destruct (Hp p eq_refl) as [-> _]. by constructor.
  - assert (Forall (final_in (<[tk_ID t := (tk_ID t, tk_Status t')]> v)) (((fun p => tk_ID (pend_task p)) <$> due) ++ b)) as Hf'.
    { rewrite Forall_forall in *. intros id Hin. apply final_insert; [by apply Hf|]. intros He. by rewrite <- He in Hin. }
    destruct r as [[p|]|]; simpl; [|done..]. destruct (Hp p eq_refl) as [-> Hd]. constructor; [|done].
    exists (tk_Status t'). by rewrite lookup_insert_eq.
Qed.

Lemma bulk_view ids f w r w' :
  (forall t, (f t).(tk_ID) = t.(tk_ID) /\ (f t).(tk_Status) = TaskStatusFailure) -> TaskBulkUpdateByID ids f w = (r, w') ->
  forall id, match status_view w.(w_db).(tasks) !! id with
             | Some (i, st) => exists st', status_view w'.(w_db).(tasks) !! id = Some (i, st') /\ (st' = st \/ is_done st' = true)
             | None => status_view w'.(w_db).(tasks) !! id = None
             end.
Proof.
  intros Hf H id. assert (w_db w' = w_db w \/ exists now, tasks (w_db w') = map_imap (fun id row =>
        Some (if bool_decide (id ∈ ids) then set_tk_UpdatedAt (fun _ => now) (f row) else row)) (tasks (w_db w))) as [E|[now E]].
  { unfold TaskBulkUpdateByID, bind, GetTimestamp, stmt, fault_point, gets, modify_db, modify in H.
    destruct ids; [injection H as <- <-; by left|]. destruct (w_faults w) as [|[] fs]; injection H as <- <-; simpl; eauto. }
  - rewrite E. destruct (status_view _ !! id) as [[i st]|]; eauto.
  - unfold status_view. rewrite E, !lookup_fmap, map_lookup_imap. destruct (_ !! id) as [row|]; simpl; [|done].
    case_bool_decide; [|by eauto]. destruct (Hf row) as [E1 E2]. exists TaskStatusFailure. simpl. rewrite E1, E2. auto.
Qed.

Lemma work_inv_step k k' : work k k' -> work_inv k -> work_inv k'.
Proof.
  intros Hs (Hk & Hc & Hn & Hf). destruct Hs; simpl in *.
  - split_and!; simpl; try done. by constructor.
  - eapply poll_inv; [eapply run_op_ok; [eassumption|]|by split_and!].
    apply Forall_app in Hc as [_ Hc]. by apply Forall_cons in Hc as [Hc _].
  - pose proof (run_pending_view env _ p w eq_refl) as Hv. rewrite H in Hv. unfold view_is, on_tasks in Hv. simpl in Hv.
    assert (((fun p => tk_ID (pend_task p)) <$> due1 ++ due2) ++ tk_ID (pend_task p) :: b ≡ₚ
            ((fun p => tk_ID (pend_task p)) <$> due1 ++ p :: due2) ++ b) as Hp
      by (rewrite !fmap_app, fmap_cons, <- !(assoc_L app); simpl; solve_Permutation).
    unfold work_inv, busy in *. simpl in *. rewrite Hv, Hp. done.
  - pose proof (bulk_view _ _ _ _ _ H H0) as Hv. split_and!; simpl; [|done|done|].
    + intros id x Hx. specialize (Hv id). specialize (Hk id). destruct (status_view (tasks (w_db w)) !! id) as [[i st]|].
      * destruct Hv as (st' & E & _). rewrite E in Hx. injection Hx as <-. by apply (Hk (i, st)).
      * congruence.
    + eapply Forall_impl; [exact Hf|]. intros id (st & E & Hd). specialize (Hv id). rewrite E in Hv.
      destruct Hv as (st' & E' & [->|Hd']); eexists; eauto.
  - unfold work_inv. simpl. unfold status_view in *. rewrite fmap_insert. split_and!; [|done|done|].
    + intros id x. rewrite lookup_insert. case_decide; [intros [= <-]; done|apply Hk].
    + eapply Forall_impl; [exact Hf|]. intros id Hid. apply final_insert; [done|]. intros He.
      destruct Hid as (st & E & _). by rewrite <- He, lookup_fmap, H in E.
  - unfold work_inv. simpl. rewrite H. done.
Qed.

(** C10. However workers interleave with each other, with bulk failures, submissions and
    the rest of the program, and whatever fails, every task is billed at most once: at
    most one worker has its billing due or done, and only after the row became final. *)
Theorem tasks_billed_at_most_once w0 k :
  (forall id t, w0.(w_db).(tasks) !! id = Some t -> t.(tk_ID) = id) -> rtc work (mkWorkers w0 [] [] []) k ->
  NoDup (busy k) /\ Forall (final_in (status_view k.(k_world).(w_db).(tasks))) (busy k).
Proof.
  intros Hk Hr. assert (work_inv k) as (_ & _ & Hn & Hf); [|done].
  assert (forall x, rtc work x k -> work_inv x -> work_inv k) as Hinv by (induction 1; eauto using work_inv_step).
  apply (Hinv _ Hr). split_and!; simpl; [|by constructor..]. intros id x. unfold status_view. rewrite lookup_fmap.
  destruct (_ !! id) as [t|] eqn:E; simpl; [intros [= <-]; by apply Hk|done].
Qed.
End workers.

(** ** Listing *)

Lemma task_rows_elem p d t : t ∈ task_rows p d <-> p t = true /\ exists id, d.(tasks) !! id = Some t.
Proof.
  unfold task_rows. rewrite merge_sort_Permutation, list_elem_of_filter, list_elem_of_fmap. split.
  - intros [Hp ((id & t') & -> & H)]. apply elem_of_map_to_list in H. split; [by apply Is_true_true|eauto].
  - intros [Hp (id & H)]. split; [by apply Is_true_true|]. exists (id, t). split; [done|]. by apply elem_of_map_to_list.
Qed.
Lemma limited_sub {A} n (l : list A) x : x ∈ limited n l -> x ∈ l.
Proof. unfold limited. case_match; [done|]. intros H1. apply (subseteq_take (Z.to_nat n) l), H1. Qed.

(** The queries return unfinished rows only, which is what a worker may list. *)
Lemma unfinished_listed limit w r w' t :
  GetAllUnFinishSyncTasks limit w = (Ok r, w') -> t ∈ r ->
  is_done t.(tk_Status) = false /\ exists id, w.(w_db).(tasks) !! id = Some t.
Proof.
  unfold GetAllUnFinishSyncTasks, bind, catch, stmt, fault_point, gets, ret. intros H Ht.
  assert (t ∈ task_rows unfinished w.(w_db)) as Hr.
  { destruct (w_faults w) as [|[] fs]; injection H as <- <-; [|by apply elem_of_nil in Ht|]; by apply limited_sub in Ht. }
  apply task_rows_elem in Hr as [Hu Hr]. split; [|done]. unfold unfinished in Hu. by destruct (is_done _); [rewrite andb_false_r in Hu|].
Qed.
Lemma timed_out_listed cutoff limit w r w' t :
  GetTimedOutUnfinishedTasks cutoff limit w = (Ok r, w') -> t ∈ r ->
  is_done t.(tk_Status) = false /\ exists id, w.(w_db).(tasks) !! id = Some t.
Proof.
  unfold GetTimedOutUnfinishedTasks, bind, catch, stmt, fault_point, gets, ret. intros H Ht.
  assert (t ∈ task_rows (fun t => unfinished t && (t.(tk_SubmitTime) <? cutoff)) w.(w_db)) as Hr.
  { destruct (w_faults w) as [|[] fs]; injection H as <- <-; [|by apply elem_of_nil in Ht|]; apply limited_sub in Ht;
      by rewrite merge_sort_Permutation in Ht. }
  apply task_rows_elem in Hr as [Hu Hr]. split; [|done]. apply andb_prop in Hu as [Hu _]. unfold unfinished in Hu.
  by destruct (is_done _); [rewrite andb_false_r in Hu|].
Qed.

(** ** The update by a user's request *)

(** When a user asks for a Gemini or Vertex task that has failed upstream, the row is
    marked failed with the quota still charged, no balance moves, and neither the
    poller nor the timeout sweep lists the task any more: the refund is lost. *)
Theorem realtime_fetch_forfeits_refund env ti task w :
  no_faults w -> w.(w_db).(tasks) !! task.(tk_ID) = Some task -> is_done task.(tk_Status) = false ->
  ti.(ti_Status) = TaskStatusFailure ->
  exists w' row, realtime_update env ti task w = (Ok tt, w') /\ same_money w w' /\
    w'.(w_db).(tasks) !! task.(tk_ID) = Some row /\ row.(tk_Status) = TaskStatusFailure /\ row.(tk_Quota) = task.(tk_Quota) /\
    (forall limit rows w'', GetAllUnFinishSyncTasks limit w' = (Ok rows, w'') -> row ∉ rows) /\
    (forall cutoff limit rows w'', GetTimedOutUnfinishedTasks cutoff limit w' = (Ok rows, w'') -> row ∉ rows).
Proof.
  intros Hf Hrow Hn Hti. unfold realtime_update. rewrite Hti. simpl. set (t1 := set_tk_Status _ task).
  set (t2 := if String.eqb (ti_Progress ti) "" then t1 else _). set (t3 := if HasPrefix _ _ then t2 else _).
  assert (tk_ID t3 = tk_ID task /\ tk_Status t3 = TaskStatusFailure /\ tk_Quota t3 = tk_Quota task) as (Hi & Hs & Hq).
  { unfold t3, t2. by repeat case_match. }
  rewrite bool_decide_false.
  2: { intros E. apply (f_equal ts_Status) in E. simpl in E. rewrite Hs in E. by rewrite E in Hn. }
  unfold bind, catch. destruct (UpdateWithStatus t3 _ w) as [r w'] eqn:E. exists w'.
  assert (same_money w w') as Hm.
  { eapply quiet_same; [|exact E]. intros w0. unfold UpdateWithStatus.
    apply preserves_bind; [auto with preserve|intros now]. apply preserves_bind; [apply update_task_same|auto with preserve]. }
  unfold UpdateWithStatus, GetTimestamp, bind, gets in E. rewrite update_task_ff, Hi, Hrow, String.eqb_refl in E by done.
  injection E as <- <-. exists (set_tk_UpdatedAt (fun _ => w_clock w) t3). simpl. rewrite lookup_insert_eq.
  split_and!; [done|done|done|done|done|..].
  - intros limit rows w'' Hl Hin. eapply unfinished_listed in Hl as [Hd _]; [|exact Hin]. simpl in Hd. by rewrite Hs in Hd.
  - intros cutoff limit rows w'' Hl Hin. eapply timed_out_listed in Hl as [Hd _]; [|exact Hin]. simpl in Hd. by rewrite Hs in Hd.
Qed.

Definition sample_failure : TaskInfo := FailTaskInfo "upstream error".

Lemma realtime_fetch_forfeits_refund_witness :
  let t := sample_task 5 1 2 40 TaskStatusInProgress in
  exists w' row, realtime_update sample_env sample_failure t task_world = (Ok tt, w') /\
    w'.(w_db).(tasks) !! 5 = Some row /\ row.(tk_Quota) = 40 /\ wallet w' 1 = 100.
Proof.
  intros t. destruct (realtime_fetch_forfeits_refund sample_env sample_failure t task_world) as (w' & row & E & Hm & Hr & _ & Hq & _);
    [reflexivity..|]. exists w', row. split; [exact E|]. split; [exact Hr|]. split; [exact Hq|].
  destruct Hm as [Hw _]. rewrite Hw. reflexivity.
Defined.

(** ** Two workers, one failure *)

#[local] Instance sample_engine : ExprEngine := {| run_expr _ _ := Err "none"%string; uses_fixed _ := false |}.
#[local] Instance sample_adaptor : TaskPollingAdaptor := fun _ _ => 0.

(** Both list task 5 and see it fail; the first one wins and refunds. *)
Lemma tasks_billed_at_most_once_witness :
  let t := sample_task 5 1 2 40 TaskStatusInProgress in
  let op := PollVideo (Reply 200 "{}" (Ok sample_failure)) in
  exists k, rtc (work sample_env) (mkWorkers task_world [] [] []) k /\ k.(k_billed) = [5] /\ k.(k_due) = [] /\
    wallet k.(k_world) 1 = 140 /\ NoDup (busy k).
Proof.
  intros t op.
  destruct (run_op sample_env op t task_world) as [r1 w1] eqn:E1.
  destruct (run_op sample_env op t w1) as [r2 w2] eqn:E2.
  pose proof E1 as V1. vm_compute in V1. injection V1 as <- <-.
  pose proof E2 as V2. vm_compute in V2. injection V2 as <- <-.
  match type of E1 with _ = (Ok (Some ?x), _) => set (p := x) in * end.
  match type of E2 with _ = (_, ?w) => destruct (run_pending sample_env p w) as [r3 w3] eqn:E3 end.
  pose proof E3 as V3. vm_compute in V3. injection V3 as <- <-.
  match type of E3 with _ = (_, ?w) => set (kend := mkWorkers w [] [] [5]) end.
  assert (rtc (work sample_env) (mkWorkers task_world [] [] []) kend) as Hr.
  { eapply rtc_l; [apply (work_list sample_env task_world [] [] [] t); reflexivity|].
    eapply rtc_l; [apply (work_list sample_env task_world [t] [] [] t); reflexivity|].
    eapply rtc_l; [apply (work_poll sample_env _ _ [t] [] t op _ [] [] E1)|].
    eapply rtc_l; [apply (work_poll sample_env _ _ [] [] t op _ _ [] E2)|].
    eapply rtc_l; [apply (work_bill sample_env _ _ [] [] [] p _ [] E3)|]. apply rtc_refl. }
  exists kend. split; [exact Hr|]. split; [reflexivity|]. split; [reflexivity|]. split; [reflexivity|].
  apply (tasks_billed_at_most_once sample_env task_world kend); [|exact Hr].
  intros id t'. unfold task_world. simpl. rewrite lookup_insert. case_decide; [intros [= <-]; done|done].
Defined.
