(* ===== verification/Channel.v ===== *)
(** * Channels and abilities (model/channel.go, model/ability.go)

    A channel is an account at a provider: its keys, the models and groups it serves,
    its status.  The table of abilities holds one row per group, model and channel and
    is what routing without the memory cache reads.  The state is that of routing: the
    two tables, the memory cache, and a fault script as in World. *)

From stdpp Require Import base tactics numbers list gmap strings pretty sorting.
From Stdlib Require Import ZArith Lia.
From S2P Require Import Prelude.
Open Scope Z_scope.

(** ** Data *)

(** A nil map reads as an empty one in every operation. *)
Record ChannelInfo := mkChannelInfo {
  IsMultiKey : bool;
  MultiKeySize : Z;
  MultiKeyStatusList : gmap Z Z;
  MultiKeyDisabledReason : gmap Z string;
  MultiKeyDisabledTime : gmap Z Z;
  MultiKeyPriority : gmap Z Z;
  MultiKeyPollingIndex : Z;
  MultiKeyMode : string
}.
Definition set_IsMultiKey (f : bool -> bool) (r : ChannelInfo) : ChannelInfo :=
  mkChannelInfo (f r.(IsMultiKey)) r.(MultiKeySize) r.(MultiKeyStatusList)
    r.(MultiKeyDisabledReason) r.(MultiKeyDisabledTime) r.(MultiKeyPriority)
    r.(MultiKeyPollingIndex) r.(MultiKeyMode).
Definition set_MultiKeySize (f : Z -> Z) (r : ChannelInfo) : ChannelInfo :=
  mkChannelInfo r.(IsMultiKey) (f r.(MultiKeySize)) r.(MultiKeyStatusList)
    r.(MultiKeyDisabledReason) r.(MultiKeyDisabledTime) r.(MultiKeyPriority)
    r.(MultiKeyPollingIndex) r.(MultiKeyMode).
Definition set_MultiKeyStatusList (f : gmap Z Z -> gmap Z Z) (r : ChannelInfo) : ChannelInfo :=
  mkChannelInfo r.(IsMultiKey) r.(MultiKeySize) (f r.(MultiKeyStatusList))
    r.(MultiKeyDisabledReason) r.(MultiKeyDisabledTime) r.(MultiKeyPriority)
    r.(MultiKeyPollingIndex) r.(MultiKeyMode).
Definition set_MultiKeyDisabledReason (f : gmap Z string -> gmap Z string) (r : ChannelInfo) : ChannelInfo :=
  mkChannelInfo r.(IsMultiKey) r.(MultiKeySize) r.(MultiKeyStatusList)
    (f r.(MultiKeyDisabledReason)) r.(MultiKeyDisabledTime) r.(MultiKeyPriority)
    r.(MultiKeyPollingIndex) r.(MultiKeyMode).
Definition set_MultiKeyDisabledTime (f : gmap Z Z -> gmap Z Z) (r : ChannelInfo) : ChannelInfo :=
  mkChannelInfo r.(IsMultiKey) r.(MultiKeySize) r.(MultiKeyStatusList) r.(MultiKeyDisabledReason)
    (f r.(MultiKeyDisabledTime)) r.(MultiKeyPriority) r.(MultiKeyPollingIndex) r.(MultiKeyMode).
Definition set_MultiKeyPriority (f : gmap Z Z -> gmap Z Z) (r : ChannelInfo) : ChannelInfo :=
  mkChannelInfo r.(IsMultiKey) r.(MultiKeySize) r.(MultiKeyStatusList) r.(MultiKeyDisabledReason)
    r.(MultiKeyDisabledTime) (f r.(MultiKeyPriority)) r.(MultiKeyPollingIndex) r.(MultiKeyMode).
Definition set_MultiKeyPollingIndex (f : Z -> Z) (r : ChannelInfo) : ChannelInfo :=
  mkChannelInfo r.(IsMultiKey) r.(MultiKeySize) r.(MultiKeyStatusList) r.(MultiKeyDisabledReason)
    r.(MultiKeyDisabledTime) r.(MultiKeyPriority) (f r.(MultiKeyPollingIndex)) r.(MultiKeyMode).
Definition set_MultiKeyMode (f : string -> string) (r : ChannelInfo) : ChannelInfo :=
  mkChannelInfo r.(IsMultiKey) r.(MultiKeySize) r.(MultiKeyStatusList) r.(MultiKeyDisabledReason)
    r.(MultiKeyDisabledTime) r.(MultiKeyPriority) r.(MultiKeyPollingIndex) (f r.(MultiKeyMode)).

#[export] Instance ChannelInfo_eq_dec : EqDecision ChannelInfo.
Proof. solve_decision. Defined.
Definition zero_info : ChannelInfo := mkChannelInfo false 0 ∅ ∅ ∅ ∅ 0 "".

(** The columns routing and administration use.  [c_OtherInfo] is the parsed JSON object
    and [c_Keys] the list of keys a cached channel carries. *)
Record Channel := mkChannel {
  c_Id : Z;
  c_Type : Z;
  c_Key : string;
  c_Status : Z;
  c_Name : string;
  c_Weight : option Z;
  c_Models : string;
  c_Group : string;
  c_ModelMapping : option string;
  c_Priority : option Z;
  c_OtherInfo : gmap string string;
  c_Tag : option string;
  c_Setting : option string;
  c_ParamOverride : option string;
  c_HeaderOverride : option string;
  c_Info : ChannelInfo;
  c_OtherSettings : string;
  c_Keys : list string
}.
Definition set_c_Status (f : Z -> Z) (r : Channel) : Channel :=
  mkChannel r.(c_Id) r.(c_Type) r.(c_Key) (f r.(c_Status)) r.(c_Name) r.(c_Weight) r.(c_Models)
    r.(c_Group) r.(c_ModelMapping) r.(c_Priority) r.(c_OtherInfo) r.(c_Tag) r.(c_Setting)
    r.(c_ParamOverride) r.(c_HeaderOverride) r.(c_Info) r.(c_OtherSettings) r.(c_Keys).
Definition set_c_Weight (f : option Z -> option Z) (r : Channel) : Channel :=
  mkChannel r.(c_Id) r.(c_Type) r.(c_Key) r.(c_Status) r.(c_Name) (f r.(c_Weight)) r.(c_Models)
    r.(c_Group) r.(c_ModelMapping) r.(c_Priority) r.(c_OtherInfo) r.(c_Tag) r.(c_Setting)
    r.(c_ParamOverride) r.(c_HeaderOverride) r.(c_Info) r.(c_OtherSettings) r.(c_Keys).
Definition set_c_Models (f : string -> string) (r : Channel) : Channel :=
  mkChannel r.(c_Id) r.(c_Type) r.(c_Key) r.(c_Status) r.(c_Name) r.(c_Weight) (f r.(c_Models))
    r.(c_Group) r.(c_ModelMapping) r.(c_Priority) r.(c_OtherInfo) r.(c_Tag) r.(c_Setting)
    r.(c_ParamOverride) r.(c_HeaderOverride) r.(c_Info) r.(c_OtherSettings) r.(c_Keys).
Definition set_c_Group (f : string -> string) (r : Channel) : Channel :=
  mkChannel r.(c_Id) r.(c_Type) r.(c_Key) r.(c_Status) r.(c_Name) r.(c_Weight) r.(c_Models)
    (f r.(c_Group)) r.(c_ModelMapping) r.(c_Priority) r.(c_OtherInfo) r.(c_Tag) r.(c_Setting)
    r.(c_ParamOverride) r.(c_HeaderOverride) r.(c_Info) r.(c_OtherSettings) r.(c_Keys).
Definition set_c_ModelMapping (f : option string -> option string) (r : Channel) : Channel :=
  mkChannel r.(c_Id) r.(c_Type) r.(c_Key) r.(c_Status) r.(c_Name) r.(c_Weight) r.(c_Models)
    r.(c_Group) (f r.(c_ModelMapping)) r.(c_Priority) r.(c_OtherInfo) r.(c_Tag) r.(c_Setting)
    r.(c_ParamOverride) r.(c_HeaderOverride) r.(c_Info) r.(c_OtherSettings) r.(c_Keys).
Definition set_c_Priority (f : option Z -> option Z) (r : Channel) : Channel :=
  mkChannel r.(c_Id) r.(c_Type) r.(c_Key) r.(c_Status) r.(c_Name) r.(c_Weight) r.(c_Models)
    r.(c_Group) r.(c_ModelMapping) (f r.(c_Priority)) r.(c_OtherInfo) r.(c_Tag) r.(c_Setting)
    r.(c_ParamOverride) r.(c_HeaderOverride) r.(c_Info) r.(c_OtherSettings) r.(c_Keys).
Definition set_c_OtherInfo (f : gmap string string -> gmap string string) (r : Channel) : Channel :=
  mkChannel r.(c_Id) r.(c_Type) r.(c_Key) r.(c_Status) r.(c_Name) r.(c_Weight) r.(c_Models)
    r.(c_Group) r.(c_ModelMapping) r.(c_Priority) (f r.(c_OtherInfo)) r.(c_Tag) r.(c_Setting)
    r.(c_ParamOverride) r.(c_HeaderOverride) r.(c_Info) r.(c_OtherSettings) r.(c_Keys).
Definition set_c_Tag (f : option string -> option string) (r : Channel) : Channel :=
  mkChannel r.(c_Id) r.(c_Type) r.(c_Key) r.(c_Status) r.(c_Name) r.(c_Weight) r.(c_Models)
    r.(c_Group) r.(c_ModelMapping) r.(c_Priority) r.(c_OtherInfo) (f r.(c_Tag)) r.(c_Setting)
    r.(c_ParamOverride) r.(c_HeaderOverride) r.(c_Info) r.(c_OtherSettings) r.(c_Keys).
Definition set_c_ParamOverride (f : option string -> option string) (r : Channel) : Channel :=
  mkChannel r.(c_Id) r.(c_Type) r.(c_Key) r.(c_Status) r.(c_Name) r.(c_Weight) r.(c_Models)
    r.(c_Group) r.(c_ModelMapping) r.(c_Priority) r.(c_OtherInfo) r.(c_Tag) r.(c_Setting)
    (f r.(c_ParamOverride)) r.(c_HeaderOverride) r.(c_Info) r.(c_OtherSettings) r.(c_Keys).
Definition set_c_HeaderOverride (f : option string -> option string) (r : Channel) : Channel :=
  mkChannel r.(c_Id) r.(c_Type) r.(c_Key) r.(c_Status) r.(c_Name) r.(c_Weight) r.(c_Models)
    r.(c_Group) r.(c_ModelMapping) r.(c_Priority) r.(c_OtherInfo) r.(c_Tag) r.(c_Setting)
    r.(c_ParamOverride) (f r.(c_HeaderOverride)) r.(c_Info) r.(c_OtherSettings) r.(c_Keys).
Definition set_c_Info (f : ChannelInfo -> ChannelInfo) (r : Channel) : Channel :=
  mkChannel r.(c_Id) r.(c_Type) r.(c_Key) r.(c_Status) r.(c_Name) r.(c_Weight) r.(c_Models)
    r.(c_Group) r.(c_ModelMapping) r.(c_Priority) r.(c_OtherInfo) r.(c_Tag) r.(c_Setting)
    r.(c_ParamOverride) r.(c_HeaderOverride) (f r.(c_Info)) r.(c_OtherSettings) r.(c_Keys).
Definition set_c_Keys (f : list string -> list string) (r : Channel) : Channel :=
  mkChannel r.(c_Id) r.(c_Type) r.(c_Key) r.(c_Status) r.(c_Name) r.(c_Weight) r.(c_Models)
    r.(c_Group) r.(c_ModelMapping) r.(c_Priority) r.(c_OtherInfo) r.(c_Tag) r.(c_Setting)
    r.(c_ParamOverride) r.(c_HeaderOverride) r.(c_Info) r.(c_OtherSettings) (f r.(c_Keys)).

Record Ability := mkAbility {
  a_Group : string;
  a_Model : string;
  a_ChannelId : Z;
  a_Enabled : bool;
  a_Priority : option Z;
  a_Weight : Z;
  a_Tag : option string
}.
Definition set_a_Enabled (f : bool -> bool) (r : Ability) : Ability :=
  mkAbility r.(a_Group) r.(a_Model) r.(a_ChannelId) (f r.(a_Enabled)) r.(a_Priority) r.(a_Weight)
    r.(a_Tag).
Definition set_a_Priority (f : option Z -> option Z) (r : Ability) : Ability :=
  mkAbility r.(a_Group) r.(a_Model) r.(a_ChannelId) r.(a_Enabled) (f r.(a_Priority)) r.(a_Weight)
    r.(a_Tag).
Definition set_a_Weight (f : Z -> Z) (r : Ability) : Ability :=
  mkAbility r.(a_Group) r.(a_Model) r.(a_ChannelId) r.(a_Enabled) r.(a_Priority) (f r.(a_Weight))
    r.(a_Tag).
Definition set_a_Tag (f : option string -> option string) (r : Ability) : Ability :=
  mkAbility r.(a_Group) r.(a_Model) r.(a_ChannelId) r.(a_Enabled) r.(a_Priority) r.(a_Weight)
    (f r.(a_Tag)).

Definition ability_key (a : Ability) : string * string * Z := (a.(a_Group), a.(a_Model), a.(a_ChannelId)).

Definition ChannelStatusEnabled : Z := 1.
Definition ChannelStatusManuallyDisabled : Z := 2.
Definition ChannelStatusAutoDisabled : Z := 3.
Definition MultiKeyModeRandom : string := "random".
Definition MultiKeyModePolling : string := "polling".

Record RState := mkRState {
  MemoryCacheEnabled : bool;
  channels : gmap Z Channel;
  abilities : gmap (string * string * Z) Ability;
  group2model2channels : gmap string (gmap string (list Z));
  channelsIDM : gmap Z Channel;
  r_clock : Z;
  r_faults : list bool
}.
Definition set_channels (f : gmap Z Channel -> gmap Z Channel) (r : RState) : RState :=
  mkRState r.(MemoryCacheEnabled) (f r.(channels)) r.(abilities) r.(group2model2channels)
    r.(channelsIDM) r.(r_clock) r.(r_faults).
Definition set_abilities (f : gmap (string * string * Z) Ability -> gmap (string * string * Z) Ability) (r : RState) : RState :=
  mkRState r.(MemoryCacheEnabled) r.(channels) (f r.(abilities)) r.(group2model2channels)
    r.(channelsIDM) r.(r_clock) r.(r_faults).
Definition set_group2model2channels (f : gmap string (gmap string (list Z)) -> gmap string (gmap string (list Z))) (r : RState) : RState :=
  mkRState r.(MemoryCacheEnabled) r.(channels) r.(abilities) (f r.(group2model2channels))
    r.(channelsIDM) r.(r_clock) r.(r_faults).
Definition set_channelsIDM (f : gmap Z Channel -> gmap Z Channel) (r : RState) : RState :=
  mkRState r.(MemoryCacheEnabled) r.(channels) r.(abilities) r.(group2model2channels)
    (f r.(channelsIDM)) r.(r_clock) r.(r_faults).
Definition set_r_faults (f : list bool -> list bool) (r : RState) : RState :=
  mkRState r.(MemoryCacheEnabled) r.(channels) r.(abilities) r.(group2model2channels)
    r.(channelsIDM) r.(r_clock) (f r.(r_faults)).

Inductive rerror :=
| RErrDB
| RErrNotFound
| RErrNoKeys             (* ErrorCodeChannelNoAvailableKey *)
| RErrMsg (msg : string)
| RPanic.                (* a run-time panic *)

Abbreviation MR := (M RState rerror).

Definition rstmt : MR unit := fun s =>
  match s.(r_faults) with
  | [] => (Ok tt, s)
  | b :: fs => (if b then Err RErrDB else Ok tt, set_r_faults (fun _ => fs) s)
  end.
(** The tables go back to what they were when the body or the commit fails. *)
Definition RTransaction {A} (body : MR A) : MR A := fun s =>
  match rstmt s with
  | (Err e, s1) => (Err e, s1)
  | (Ok _, s1) =>
      let rollback s := set_channels (fun _ => s1.(channels)) (set_abilities (fun _ => s1.(abilities)) s) in
      match body s1 with
      | (Err e, s2) => (Err e, rollback s2)
      | (Ok a, s2) =>
          match rstmt s2 with
          | (Err e, s3) => (Err e, rollback s3)
          | (Ok _, s3) => (Ok a, s3)
          end
      end
  end.

(** What routing takes from elsewhere: the JSON array form of a key list, the plugin key
    in a channel's settings, the paths an advanced custom channel serves, and the base
    name of a model (setting/reasoning). *)
Class RouteParams := {
  json_array : string -> option (list string);
  TaskPluginKey : option string -> string;
  SupportsPathForModel : string -> string -> string -> bool;
  BaseModelName : string -> string
}.

(** ** Reading a channel *)

Definition comma : Ascii.ascii := Ascii.ascii_of_nat 44.
Definition newline : Ascii.ascii := Ascii.ascii_of_nat 10.

Definition GetModels (c : Channel) : list string :=
  if String.eqb c.(c_Models) "" then [] else Split comma (TrimChar comma c.(c_Models)).
Definition GetPriority (c : Channel) : Z := default 0 c.(c_Priority).
Definition GetWeight (c : Channel) : Z := match c.(c_Weight) with Some w => wrap64 w | None => 0 end.

Definition GetKeys `{!RouteParams} (c : Channel) : list string :=
  if String.eqb c.(c_Key) "" then []
  else match c.(c_Keys) with
       | _ :: _ => c.(c_Keys)
       | [] =>
           let trimmed := TrimSpace c.(c_Key) in
           match (if HasPrefix trimmed "[" then json_array trimmed else None) with
           | Some arr => arr
           | None => Split newline (TrimChar newline c.(c_Key))
           end
       end.

(** [First(&channel, id)] *)
Definition GetChannelById (id : Z) : MR Channel :=
  rstmt ;;
  let! row := gets (fun s => s.(channels) !! id) in
  match row with Some c => ret c | None => throw RErrNotFound end.

(** ** Abilities *)

(** The abilities of a channel over models and groups, without repetition of
    [group + "|" + model]. *)
Fixpoint dedup (seen : list string) (l : list (string * string)) : list (string * string) :=
  match l with
  | [] => []
  | (group, model) :: rest =>
      let key := group +:+ "|" +:+ model in
      if bool_decide (key ∈ seen) then dedup seen rest else (group, model) :: dedup (key :: seen) rest
  end.
Definition ability_of (c : Channel) (gm : string * string) : Ability :=
  mkAbility gm.1 gm.2 c.(c_Id) (c.(c_Status) =? ChannelStatusEnabled) c.(c_Priority) (GetWeight c mod 2 ^ 64) c.(c_Tag).
Definition channel_abilities (models groups : list string) (c : Channel) : list Ability :=
  ability_of c <$> dedup [] (model ← models; group ← groups; mret (group, model)).

(** [lo.Chunk(l, 50)] *)
Fixpoint chunks {A} (fuel n : nat) (l : list A) : list (list A) :=
  match fuel with
  | O => []
  | S fuel => match l with [] => [] | _ => take n l :: chunks fuel n (drop n l) end
  end.
Definition Chunk {A} (n : nat) (l : list A) : list (list A) := chunks (length l) n l.

(** [INSERT ... ON CONFLICT DO NOTHING] of a chunk *)
Definition insert_ability (m : gmap (string * string * Z) Ability) (a : Ability) : gmap (string * string * Z) Ability :=
  match m !! ability_key a with Some _ => m | None => <[ability_key a := a]> m end.
Definition create_abilities (chunk : list Ability) : MR unit :=
  rstmt ;; modify (set_abilities (fun m => foldl insert_ability m chunk)).
Definition create_chunks (l : list Ability) : MR unit := mapM_ create_abilities (Chunk 50 l).

Definition AddAbilities (c : Channel) : MR unit :=
  create_chunks (channel_abilities (Split comma c.(c_Models)) (Split comma c.(c_Group)) c).
Definition delete_abilities (p : Z -> bool) : MR unit :=
  rstmt ;; modify (set_abilities (filter (fun kv => Is_true (negb (p kv.1.2))))).
Definition DeleteAbilities (c : Channel) : MR unit := delete_abilities (fun id => id =? c.(c_Id)).
(** Inside a transaction, or in one of its own. *)
Definition update_abilities_tx (c : Channel) : MR unit :=
  DeleteAbilities c ;; create_chunks (channel_abilities (GetModels c) (Split comma c.(c_Group)) c).
Definition UpdateAbilities (c : Channel) : MR unit := RTransaction (update_abilities_tx c).

(** [UPDATE abilities SET ... WHERE p] *)
Definition update_abilities (p : Ability -> bool) (f : Ability -> Ability) : MR unit :=
  rstmt ;; modify (set_abilities (fmap (fun a => if p a then f a else a))).
Definition UpdateAbilityStatus (channelId : Z) (status : bool) : MR unit :=
  update_abilities (fun a => a.(a_ChannelId) =? channelId) (set_a_Enabled (fun _ => status)).
Definition has_tag (tag : string) (t : option string) : bool := bool_decide (t = Some tag).
Definition UpdateAbilityStatusByTag (tag : string) (status : bool) : MR unit :=
  update_abilities (fun a => has_tag tag a.(a_Tag)) (set_a_Enabled (fun _ => status)).
(** [Updates(ability)] of a struct writes its non-zero fields: a weight of 0 is not written. *)
Definition UpdateAbilityByTag (tag : string) (newTag : option string) (priority weight : option Z) : MR unit :=
  update_abilities (fun a => has_tag tag a.(a_Tag)) (fun a =>
    let a := match newTag with Some t => set_a_Tag (fun _ => Some t) a | None => a end in
    let a := match priority with Some p => set_a_Priority (fun _ => Some p) a | None => a end in
    match weight with Some w => if w =? 0 then a else set_a_Weight (fun _ => w) a | None => a end).

(** ** Administration *)

Definition create_channel (c : Channel) : MR unit := rstmt ;; modify (set_channels (insert c.(c_Id) c)).
Definition Channel_Insert (c : Channel) : MR unit := create_channel c ;; AddAbilities c.
Definition BatchInsertChannels (l : list Channel) : MR unit :=
  match l with
  | [] => ret tt
  | _ => RTransaction (mapM_ (fun chunk =>
           rstmt ;; modify (set_channels (fun m => foldl (fun m c => <[c.(c_Id) := c]> m) m chunk)) ;;
           mapM_ AddAbilities chunk) (Chunk 50 l))
  end.

Definition delete_channels (p : Channel -> bool) : MR Z :=
  rstmt ;;
  let! n := gets (fun s => Z.of_nat (size (filter (fun kv : Z * Channel => Is_true (p kv.2)) s.(channels)))) in
  modify (set_channels (filter (fun kv => Is_true (negb (p kv.2))))) ;; ret n.
Definition Channel_Delete (c : Channel) : MR unit :=
  delete_channels (fun x => x.(c_Id) =? c.(c_Id)) ;; DeleteAbilities c.
Definition BatchDeleteChannels (ids : list Z) : MR Z :=
  match ids with
  | [] => ret 0
  | _ => RTransaction (foldr (fun chunk k => 
           let! n := delete_channels (fun x => bool_decide (x.(c_Id) ∈ chunk)) in
           delete_abilities (fun id => bool_decide (id ∈ chunk)) ;;
           let! m := k in ret (n + m)) (ret 0) (Chunk 200 ids))
  end.
Definition DeleteChannelByStatus (status : Z) : MR Z := delete_channels (fun c => c.(c_Status) =? status).
Definition DeleteDisabledChannel : MR Z :=
  delete_channels (fun c => (c.(c_Status) =? ChannelStatusAutoDisabled) || (c.(c_Status) =? ChannelStatusManuallyDisabled)).

Definition update_channels (p : Channel -> bool) (f : Channel -> Channel) : MR unit :=
  rstmt ;; modify (set_channels (fmap (fun c => if p c then f c else c))).
(** The key list of an edited multi-key channel: an array that is not empty, else lines. *)
Definition edited_keys `{!RouteParams} (key : string) : list string :=
  if String.eqb key "" then []
  else
    let trimmed := TrimSpace key in
    match (if HasPrefix trimmed "[" then json_array trimmed else None) with
    | Some (k :: arr) => k :: arr
    | _ => Split newline (TrimChar newline key)
    end.
(** Entries of the per-key maps beyond the new number of keys are dropped. *)
Definition trim_index {A} (n : Z) (m : gmap Z A) : gmap Z A := filter (fun kv => kv.1 < n) m.
Definition resize_info (n : Z) (i : ChannelInfo) : ChannelInfo :=
  set_MultiKeyPriority (trim_index n) (set_MultiKeyStatusList (trim_index n) (set_MultiKeySize (fun _ => n) i)).
Definition keep {A} (zero : bool) (new old : A) : A := if zero then old else new.
Definition or_old {A} (new old : option A) : option A := match new with Some _ => new | None => old end.
(** [Updates(channel)] writes the non-zero fields over the row. *)
Definition merge_channel (u row : Channel) : Channel :=
  mkChannel row.(c_Id) (keep (u.(c_Type) =? 0) u.(c_Type) row.(c_Type)) (keep (String.eqb u.(c_Key) "") u.(c_Key) row.(c_Key))
    (keep (u.(c_Status) =? 0) u.(c_Status) row.(c_Status)) (keep (String.eqb u.(c_Name) "") u.(c_Name) row.(c_Name))
    (or_old u.(c_Weight) row.(c_Weight)) (keep (String.eqb u.(c_Models) "") u.(c_Models) row.(c_Models))
    (keep (String.eqb u.(c_Group) "") u.(c_Group) row.(c_Group)) (or_old u.(c_ModelMapping) row.(c_ModelMapping))
    (or_old u.(c_Priority) row.(c_Priority)) (keep (bool_decide (u.(c_OtherInfo) = ∅)) u.(c_OtherInfo) row.(c_OtherInfo))
    (or_old u.(c_Tag) row.(c_Tag)) (or_old u.(c_Setting) row.(c_Setting)) (or_old u.(c_ParamOverride) row.(c_ParamOverride))
    (or_old u.(c_HeaderOverride) row.(c_HeaderOverride))
    (keep (bool_decide (u.(c_Info) = zero_info)) u.(c_Info) row.(c_Info))
    (keep (String.eqb u.(c_OtherSettings) "") u.(c_OtherSettings) row.(c_OtherSettings)) [].
(** The channel is read back before its abilities are rewritten; a failed read leaves the
    request's own copy. *)
Definition Channel_Update `{!RouteParams} (c : Channel) : MR unit :=
  let! c :=
    if c.(c_Info).(IsMultiKey) then
      let! key :=
        if negb (String.eqb c.(c_Key) "") then ret c.(c_Key)
        else
          let! r := catch (GetChannelById c.(c_Id)) in
          match r with Ok old => ret old.(c_Key) | Err _ => ret EmptyString end in
      ret (set_c_Info (resize_info (Z.of_nat (length (edited_keys key)))) c)
    else ret c in
  rstmt ;;
  modify (set_channels (alter (merge_channel c) c.(c_Id))) ;;
  let! r := catch (GetChannelById c.(c_Id)) in
  UpdateAbilities (match r with Ok row => row | Err _ => c end).

Definition EnableChannelByTag (tag : string) : MR unit :=
  update_channels (fun c => has_tag tag c.(c_Tag)) (set_c_Status (fun _ => ChannelStatusEnabled)) ;;
  UpdateAbilityStatusByTag tag true.
Definition DisableChannelByTag (tag : string) : MR unit :=
  update_channels (fun c => has_tag tag c.(c_Tag)) (set_c_Status (fun _ => ChannelStatusManuallyDisabled)) ;;
  UpdateAbilityStatusByTag tag false.

Definition set_some {A} (x : option A) (set : A -> Channel -> Channel) (c : Channel) : Channel :=
  match x with Some a => set a c | None => c end.
Definition nonempty (s : option string) : option string :=
  match s with Some "" => None | _ => s end.
(** The optional parameters of an edit by tag. *)
Record TagEdit := mkTagEdit {
  te_newTag : option string; te_modelMapping : option string; te_models : option string; te_group : option string;
  te_priority : option Z; te_weight : option Z; te_paramOverride : option string; te_headerOverride : option string
}.
(** [Updates(updateData)]: the columns are pointers, but for models and group, which
    are only set when not empty. *)
Definition tag_update (tag : string) (e : TagEdit) (c : Channel) : Channel :=
  let c := set_some (match e.(te_newTag) with Some t => if String.eqb t tag then None else Some t | None => None end)
             (fun t => set_c_Tag (fun _ => Some t)) c in
  let c := set_some e.(te_modelMapping) (fun m => set_c_ModelMapping (fun _ => Some m)) c in
  let c := set_some (nonempty e.(te_models)) (fun m => set_c_Models (fun _ => m)) c in
  let c := set_some (nonempty e.(te_group)) (fun g => set_c_Group (fun _ => g)) c in
  let c := set_some e.(te_priority) (fun p => set_c_Priority (fun _ => Some p)) c in
  let c := set_some e.(te_weight) (fun w => set_c_Weight (fun _ => Some w)) c in
  let c := set_some e.(te_paramOverride) (fun p => set_c_ParamOverride (fun _ => Some p)) c in
  set_some e.(te_headerOverride) (fun h => set_c_HeaderOverride (fun _ => Some h)) c.
Definition GetChannelsByTag (tag : string) : MR (list Channel) :=
  rstmt ;; gets (fun s => filter (fun c => Is_true (has_tag tag c.(c_Tag))) (map_to_list s.(channels)).*2).
Definition EditChannelByTag (tag : string) (e : TagEdit) : MR unit :=
  let updatedTag := default tag e.(te_newTag) in
  update_channels (fun c => has_tag tag c.(c_Tag)) (tag_update tag e) ;;
  if bool_decide (is_Some (nonempty e.(te_models)) \/ is_Some (nonempty e.(te_group))) then
    let! r := catch (GetChannelsByTag updatedTag) in
    match r with
    | Ok l => mapM_ (fun c => catch (UpdateAbilities c) ;; ret tt) l
    | Err _ => ret tt
    end
  else UpdateAbilityByTag tag e.(te_newTag) e.(te_priority) e.(te_weight).

(** [GetChannelsByIds] *)
Definition rows_with_ids (ids : list Z) (m : gmap Z Channel) : list Channel :=
  filter (fun c => c.(c_Id) ∈ ids) (map_to_list m).*2.
(** The channels are read through the global handle: they are the committed rows, from
    before the transaction. *)
Definition BatchSetChannelTag (ids : list Z) (tag : option string) : MR unit :=
  let! committed := gets channels in
  RTransaction (
    update_channels (fun c => bool_decide (c.(c_Id) ∈ ids)) (set_c_Tag (fun _ => tag)) ;;
    rstmt ;;
    mapM_ update_abilities_tx (rows_with_ids ids committed)).
