(* ===== verification/ChannelCache.v ===== *)
(** * Routing: the channel cache, selection and keys (model/channel_cache.go,
    model/channel_constraint.go, model/ability.go, model/channel.go)

    A request is routed to a channel of its group that serves its model: from the memory
    cache if there is one, else from the table of abilities.  The channel then hands out
    one of its keys; failures of a key or a channel disable it. *)

From stdpp Require Import base tactics numbers list gmap strings pretty sorting.
From Stdlib Require Import ZArith Lia.
From S2P Require Import Prelude Float64 QuotaMath World Task Channel.
Open Scope Z_scope.

(** ** Building the cache *)

Abbreviation Cache := (gmap string (gmap string (list Z))).

(** [newGroup2model2channels[group][model] = append(...)]: a write into the map of a group
    that was not created panics. *)
Definition add_candidate (id : Z) (gm : string * string) (m : option Cache) : option Cache :=
  match m with
  | None => None
  | Some m =>
      match m !! gm.1 with
      | None => None
      | Some models => Some (<[gm.1 := <[gm.2 := default [] (models !! gm.2) ++ [id]]> models]> m)
      end
  end.
Definition add_channel (m : option Cache) (c : Channel) : option Cache :=
  if c.(c_Status) =? ChannelStatusEnabled then
    foldl (fun m gm => add_candidate c.(c_Id) gm m) m
      (group ← Split comma c.(c_Group); model ← GetModels c; mret (group, model))
  else m.
Definition empty_groups (abilities : list Ability) : Cache :=
  foldl (fun m a => <[a.(a_Group) := ∅]> m) ∅ abilities.

(** Higher priority first; [sort.Slice] leaves the order of equals open. *)
Definition by_priority (idm : gmap Z Channel) (a b : Z) : Prop :=
  default 0 (GetPriority <$> idm !! b) <= default 0 (GetPriority <$> idm !! a).
#[export] Instance by_priority_dec idm a b : Decision (by_priority idm a b).
Proof. unfold by_priority. apply _. Defined.
Definition build_groups (chans : list Channel) (abilities : list Ability) (idm : gmap Z Channel) : option Cache :=
  match foldl add_channel (Some (empty_groups abilities)) chans with
  | Some m => Some ((fun models : gmap string (list Z) => merge_sort (by_priority idm) <$> models) <$> m)
  | None => None
  end.

Section cache.
Context `{!RouteParams}.

(** A channel as the cache holds it: with its keys, and the polling cursor of its
    predecessor. *)
Definition cached_channel (old : gmap Z Channel) (c : Channel) : Channel :=
  if c.(c_Info).(IsMultiKey) then
    let c := set_c_Keys (fun _ => GetKeys c) c in
    if String.eqb c.(c_Info).(MultiKeyMode) MultiKeyModePolling then
      match old !! c.(c_Id) with
      | Some o => if o.(c_Info).(IsMultiKey) && String.eqb o.(c_Info).(MultiKeyMode) MultiKeyModePolling
                  then set_c_Info (set_MultiKeyPollingIndex (fun _ => o.(c_Info).(MultiKeyPollingIndex))) c else c
      | None => c
      end
    else c
  else c.

Definition rows_of {K} `{Countable K} {A} (m : gmap K A) : list A := (map_to_list m).*2.

(** [DB.Find(&rows)]: an error is ignored and leaves no rows. *)
Definition find_all {A} (rows : RState -> list A) : MR (list A) :=
  let! r := catch (rstmt ;; gets rows) in
  match r with Ok l => ret l | Err _ => ret [] end.

Definition InitChannelCache : MR unit :=
  let! memory := gets MemoryCacheEnabled in
  if negb memory then ret tt
  else
    let! chans := find_all (fun s => rows_of s.(channels)) in
    let! abil := find_all (fun s => rows_of s.(abilities)) in
    let idm : gmap Z Channel := list_to_map ((fun c => (c.(c_Id), c)) <$> chans) in
    match build_groups chans abil idm with
    | None => throw RPanic
    | Some m =>
        modify (set_group2model2channels (fun _ => m)) ;;
        modify (set_channelsIDM (fun old => cached_channel old <$> idm))
    end.

(** ** Reading and writing the cache *)

Definition channel_gone : rerror := RErrMsg "channel does not exist".
Definition CacheGetChannel (id : Z) : MR Channel :=
  let! memory := gets MemoryCacheEnabled in
  if negb memory then GetChannelById id
  else
    let! c := gets (fun s => s.(channelsIDM) !! id) in
    match c with Some c => ret c | None => throw channel_gone end.
Definition CacheGetChannelInfo (id : Z) : MR ChannelInfo := let! c := CacheGetChannel id in ret c.(c_Info).

(** The first occurrence of an id is removed from every list. *)
Fixpoint remove_first (id : Z) (l : list Z) : list Z :=
  match l with [] => [] | x :: rest => if x =? id then rest else x :: remove_first id rest end.
Definition CacheUpdateChannelStatus (id status : Z) : MR unit :=
  let! memory := gets MemoryCacheEnabled in
  if negb memory then ret tt
  else
    modify (set_channelsIDM (alter (set_c_Status (fun _ => status)) id)) ;;
    if negb (status =? ChannelStatusEnabled) then modify (set_group2model2channels (fmap (fun models : gmap string (list Z) => remove_first id <$> models))) else ret tt.
Definition CacheUpdateChannel (c : Channel) : MR unit :=
  let! memory := gets MemoryCacheEnabled in
  if negb memory then ret tt else modify (set_channelsIDM (insert c.(c_Id) c)).

(** ** Constraints *)

Inductive ChannelFilterKind := FilterRequestPath | FilterTaskPluginIdentity.
#[export] Instance ChannelFilterKind_eq_dec : EqDecision ChannelFilterKind.
Proof. solve_decision. Defined.
Record ChannelFilter := mkFilter {
  f_Kind : ChannelFilterKind; f_RequestPath : string; f_TaskPluginKey : string;
  f_TaskPluginKeys : list string; f_TaskPluginChannelTypes : list Z
}.
Definition ChannelTypeAdvancedCustom : Z := 58.
Definition ChannelTypeTaskPlugin : Z := 61.
Definition filterEvalOrder : list ChannelFilterKind := [FilterRequestPath; FilterTaskPluginIdentity].

Definition channelMatchesFilter (c : Channel) (modelName : string) (f : ChannelFilter) : bool :=
  match f.(f_Kind) with
  | FilterRequestPath =>
      if String.eqb f.(f_RequestPath) "" then true
      else if negb (c.(c_Type) =? ChannelTypeAdvancedCustom) then true
      else SupportsPathForModel c.(c_OtherSettings) f.(f_RequestPath) modelName
  | FilterTaskPluginIdentity =>
      if c.(c_Type) =? ChannelTypeTaskPlugin then
        let key := TaskPluginKey c.(c_Setting) in
        negb (String.eqb f.(f_TaskPluginKey) "") && (String.eqb key f.(f_TaskPluginKey) || bool_decide (key ∈ f.(f_TaskPluginKeys)))
      else String.eqb f.(f_TaskPluginKey) "" || bool_decide (c.(c_Type) ∈ f.(f_TaskPluginChannelTypes))
  end.
Definition filtersByKind (filters : list ChannelFilter) (kind : ChannelFilterKind) : list ChannelFilter :=
  filter (fun f => f.(f_Kind) = kind) filters.
Definition ChannelSatisfiesFilters (c : option Channel) (modelName : string) (filters : list ChannelFilter) : bool :=
  match c with
  | None => false
  | Some c => forallb (fun kind => forallb (channelMatchesFilter c modelName) (filtersByKind filters kind)) filterEvalOrder
  end.
Definition candidatePassesKindFilters (c : option Channel) (modelName : string) (kind : ChannelFilterKind)
    (filters : list ChannelFilter) : bool :=
  match c with
  | None => bool_decide (kind = FilterRequestPath)
  | Some c => forallb (channelMatchesFilter c modelName) filters
  end.
Definition filterCandidateIDs (idm : gmap Z Channel) (ids : list Z) (modelName : string) (filters : list ChannelFilter) : list Z :=
  foldl (fun kept kind =>
    match filtersByKind filters kind with
    | [] => kept
    | kf => filter (fun id => Is_true (candidatePassesKindFilters (idm !! id) modelName kind kf)) kept
    end) ids filterEvalOrder.

(** ** Selection from the memory cache *)

Definition RoutingMatchModelName (name : string) : string := FormatMatchingModelName (BaseModelName name).
Definition candidates_of (m : Cache) (group model : string) : list Z := default [] (m !! group ≫= (.!! model)).

Definition desc (a b : Z) : Prop := b <= a.
#[export] Instance desc_dec a b : Decision (desc a b).
Proof. unfold desc. apply _. Defined.
(** The distinct priorities, highest first. *)
Definition sorted_priorities (l : list Z) : list Z := merge_sort desc (remove_dups l).
(** The priority a retry is served from: the lowest one when there are not that many. *)
Definition target_priority (priorities : list Z) (retry : Z) : option Z :=
  let n := Z.of_nat (length priorities) in
  let retry := if n <=? retry then n - 1 else retry in
  if retry <? 0 then None else priorities !! Z.to_nat retry.

Fixpoint sum_weight (l : list Channel) : Z := match l with [] => 0 | c :: rest => GetWeight c +! sum_weight rest end.
(** The smoothing: factor and adjustment. *)
Definition smoothing (sumWeight n : Z) : Z * Z :=
  if sumWeight =? 0 then (1, 100) else if Z.quot sumWeight n <? 10 then (100, 0) else (1, 0).
Fixpoint pick_weighted (factor adjustment r : Z) (l : list Channel) : option Channel :=
  match l with
  | [] => None
  | c :: rest =>
      let r := r -! (GetWeight c *! factor +! adjustment) in
      if r <? 0 then Some c else pick_weighted factor adjustment r rest
  end.
Definition total_weight (l : list Channel) : Z :=
  let n := Z.of_nat (length l) in
  let sum := sum_weight l in
  let sumWeight := if sum =? 0 then n *! 100 else sum in
  sumWeight *! (smoothing sum n).1.

(** [rnd] is the value of [rand.Intn(totalWeight)], which panics if the bound is not positive. *)
Definition choose_weighted (rnd : Z) (l : list Channel) : result rerror Channel :=
  if total_weight l <=? 0 then Err RPanic
  else
    let '(factor, adjustment) := smoothing (sum_weight l) (Z.of_nat (length l)) in
    match pick_weighted factor adjustment rnd l with
    | Some c => Ok c
    | None => Err (RErrMsg "channel not found")
    end.

(** Every candidate has to be in the map of channels. *)
Definition lookup_all (idm : gmap Z Channel) (ids : list Z) : option (list Channel) := mapM (fun id => idm !! id) ids.

Definition select_cached (rnd retry : Z) (idm : gmap Z Channel) (ids : list Z) : result rerror (option Channel) :=
  match ids with
  | [] => Ok None
  | [id] => match idm !! id with Some c => Ok (Some c) | None => Err channel_gone end
  | _ =>
      match lookup_all idm ids with
      | None => Err channel_gone
      | Some l =>
          match target_priority (sorted_priorities (GetPriority <$> l)) retry with
          | None => Err RPanic
          | Some p =>
              match filter (fun c => GetPriority c = p) l with
              | [] => Err (RErrMsg "no channel found")
              | target => match choose_weighted rnd target with Ok c => Ok (Some c) | Err e => Err e end
              end
          end
      end
  end.

Definition cached_candidates (s : RState) (group model : string) (filters : list ChannelFilter) : list Z :=
  match filterCandidateIDs s.(channelsIDM) (candidates_of s.(group2model2channels) group model) model filters with
  | [] => filterCandidateIDs s.(channelsIDM)
            (candidates_of s.(group2model2channels) group (RoutingMatchModelName model)) model filters
  | l => l
  end.

(** ** Selection from the abilities *)

Definition ability_priority (a : Ability) : Z := default 0 a.(a_Priority).
(** [ORDER BY priority DESC, weight DESC] *)
Definition ability_order (a b : Ability) : Prop :=
  ability_priority b < ability_priority a \/ ability_priority a = ability_priority b /\ b.(a_Weight) <= a.(a_Weight).
#[export] Instance ability_order_dec a b : Decision (ability_order a b).
Proof. unfold ability_order. apply _. Defined.

Definition identityFilterRequiresKey (filters : list ChannelFilter) : bool :=
  existsb (fun f => bool_decide (f.(f_Kind) = FilterTaskPluginIdentity) && negb (String.eqb f.(f_TaskPluginKey) "")) filters.
Definition filterAbilitiesByConstraints (l : list Ability) (modelName : string) (filters : list ChannelFilter) : MR (list Ability) :=
  match l with
  | [] => ret []
  | _ =>
      let! r := catch (rstmt ;; gets channels) in
      match r with
      | Err _ => ret (if identityFilterRequiresKey filters then [] else l)
      | Ok m => ret (filter (fun a => Is_true (ChannelSatisfiesFilters (m !! a.(a_ChannelId)) modelName filters)) l)
      end
  end.

Fixpoint pick_ability (r : Z) (l : list Ability) : option Z :=
  match l with
  | [] => None
  | a :: rest =>
      let r := r -! (wrap64 a.(a_Weight) +! 10) in
      if r <=? 0 then Some a.(a_ChannelId) else pick_ability r rest
  end.
Definition ability_sum (l : list Ability) : Z := foldr (fun a acc => (acc + a.(a_Weight) + 10) mod 2 ^ 64) 0 l.

(** The channel a function returns and its error; a failed [First] returns the empty
    struct with the id that was looked for. *)
Abbreviation found := (option Channel * option rerror)%type.
Definition blank_channel (id : Z) : Channel :=
  mkChannel id 0 "" 0 "" None "" "" None None ∅ None None None None zero_info "" [].

(** A random value beyond every weight leaves the channel id 0, which no row has. *)
Definition GetChannel (rnd : Z) (group model : string) (retry : Z) (filters : list ChannelFilter) : MR found :=
  let! r := catch (rstmt ;; gets (fun s => merge_sort ability_order (filter (fun a =>
    a.(a_Group) = group /\ a.(a_Model) = model /\ a.(a_Enabled) = true) (rows_of s.(abilities))))) in
  match r with
  | Err e => ret (None, Some e)
  | Ok rows =>
      let! l := filterAbilitiesByConstraints rows model filters in
      match l with
      | [] => ret (None, None)
      | _ =>
          match target_priority (sorted_priorities (ability_priority <$> l)) retry with
          | None => throw RPanic
          | Some p =>
              let target := filter (fun a => ability_priority a = p) l in
              if wrap64 (ability_sum target) <=? 0 then throw RPanic
              else
                let id := default 0 (pick_ability rnd target) in
                let! c := catch (GetChannelById id) in
                ret (match c with Ok c => (Some c, None) | Err e => (Some (blank_channel id), Some e) end)
          end
      end
  end.

Definition found_of (r : result rerror (option Channel)) : MR found :=
  match r with
  | Ok oc => ret (oc, None)
  | Err RPanic => throw RPanic
  | Err e => ret (None, Some e)
  end.
Definition GetRandomSatisfiedChannel (rnd : Z) (group model : string) (retry : Z) (filters : list ChannelFilter) : MR found :=
  let! memory := gets MemoryCacheEnabled in
  if negb memory then GetChannel rnd group model retry filters
  else
    let! s := get in
    found_of (select_cached rnd retry s.(channelsIDM) (cached_candidates s group model filters)).

(** ** Keys *)

Definition getStatus (i : ChannelInfo) (idx : Z) : Z := default ChannelStatusEnabled (i.(MultiKeyStatusList) !! idx).
Definition priorityOf (i : ChannelInfo) (idx : Z) : Z := Z.max 0 (default 0 (i.(MultiKeyPriority) !! idx)).
Definition indexes (n : nat) : list Z := Z.of_nat <$> seq 0 n.
Definition enabled_idx (i : ChannelInfo) (n : nat) : list Z :=
  filter (fun idx => getStatus i idx = ChannelStatusEnabled) (indexes n).
(** The enabled keys of the highest tier. *)
Definition tier_idx (i : ChannelInfo) (n : nat) : list Z :=
  let enabled := enabled_idx i n in
  if bool_decide (i.(MultiKeyPriority) = ∅) then enabled
  else
    let top := foldl Z.max 0 (priorityOf i <$> enabled) in
    if 0 <? top then filter (fun idx => priorityOf i idx = top) enabled else enabled.

(** The positions of a poll, from the cursor around. *)
Definition poll_order (start : Z) (n : nat) : list Z := (fun k => (start + k) mod Z.of_nat n) <$> indexes n.
Definition clamp_start (start : Z) (n : nat) : Z := if (start <? 0) || (Z.of_nat n <=? start) then 0 else start.
Definition poll_index (i : ChannelInfo) (start : Z) (n : nat) : option Z :=
  head (filter (fun idx => getStatus i idx = ChannelStatusEnabled /\ idx ∈ tier_idx i n) (poll_order (clamp_start start n) n)).

Definition key_at (keys : list string) (idx : Z) : string := default EmptyString (keys !! Z.to_nat idx).

Definition SaveChannelInfo (c : Channel) : MR unit :=
  rstmt ;; modify (set_channels (alter (set_c_Info (fun _ => c.(c_Info))) c.(c_Id))).

(** The key, its index and the channel with its cursor moved; [rnd] is the value of
    [rand.Intn(len(enabledIdx))]. *)
Definition GetNextEnabledKey (rnd : Z) (c : Channel) : MR (string * Z * Channel) :=
  let i := c.(c_Info) in
  if negb i.(IsMultiKey) then ret (c.(c_Key), 0, c)
  else
    let keys := GetKeys c in
    let n := length keys in
    match keys, tier_idx i n with
    | [], _ | _, [] => throw RErrNoKeys
    | _, first :: _ =>
        if String.eqb i.(MultiKeyMode) MultiKeyModeRandom then
          match tier_idx i n !! Z.to_nat rnd with
          | Some idx => ret (key_at keys idx, idx, c)
          | None => throw RPanic
          end
        else if String.eqb i.(MultiKeyMode) MultiKeyModePolling then
          let! info := CacheGetChannelInfo c.(c_Id) in
          let '(idx, c) :=
            match poll_index i info.(MultiKeyPollingIndex) n with
            | Some idx => (idx, set_c_Info (set_MultiKeyPollingIndex (fun _ => (idx + 1) mod Z.of_nat n)) c)
            | None => (first, c)
            end in
          let! memory := gets MemoryCacheEnabled in
          (if negb memory then catch (SaveChannelInfo c) ;; ret tt else ret tt) ;;
          ret (key_at keys idx, idx, c)
        else ret (key_at keys first, first, c)
    end.

(** A request of a cached channel: the channel is the cache's own object. *)
Definition next_key_cached (rnd id : Z) : MR (string * Z) :=
  let! c := CacheGetChannel id in
  let! x := GetNextEnabledKey rnd c in
  let '(key, idx, c) := x in
  modify (set_channelsIDM (insert id c)) ;; ret (key, idx).

(** ** Status *)

(** Whether the status changed, and the channel. *)
Definition setChannelStatus (now : Z) (c : Channel) (status : Z) (reason : string) : bool * Channel :=
  if c.(c_Status) =? status then (false, c)
  else (true, set_c_OtherInfo (fun info => <["status_time"%string := pretty now]> (<["status_reason"%string := reason]> info))
                (set_c_Status (fun _ => status) c)).

Definition hasEnabledMultiKey (keys : list string) (statusList : gmap Z Z) : bool :=
  existsb (fun i => match statusList !! i with None => true | Some st => st =? ChannelStatusEnabled end) (indexes (length keys)).

Definition key_index (usingKey : string) (keys : list string) : option Z :=
  Z.of_nat <$> (fst <$> list_find (eq usingKey) keys).

(** The per-key part of a status change. *)
Definition set_key_status (now idx status : Z) (reason : string) (i : ChannelInfo) : bool * ChannelInfo :=
  if status =? ChannelStatusEnabled then
    (bool_decide (is_Some (i.(MultiKeyStatusList) !! idx)),
     set_MultiKeyDisabledTime (delete idx) (set_MultiKeyDisabledReason (delete idx) (set_MultiKeyStatusList (delete idx) i)))
  else if negb (default 0 (i.(MultiKeyStatusList) !! idx) =? status) then
    (true, set_MultiKeyDisabledTime (insert idx now) (set_MultiKeyDisabledReason (insert idx reason)
             (set_MultiKeyStatusList (insert idx status) i)))
  else (false, i).

Definition handlerMultiKeyUpdate (now : Z) (c : Channel) (usingKey : string) (status : Z) (reason : string) : bool * Channel :=
  let keys := GetKeys c in
  match keys with
  | [] => setChannelStatus now c status reason
  | _ =>
      match key_index usingKey keys with
      | None => if negb (String.eqb usingKey "") then (false, c) else setChannelStatus now c status reason
      | Some idx =>
          let '(changed, i) := set_key_status now idx status reason c.(c_Info) in
          let c := set_c_Info (fun _ => i) c in
          if negb (hasEnabledMultiKey keys i.(MultiKeyStatusList)) then
            let '(b, c) := setChannelStatus now c ChannelStatusAutoDisabled "All keys are disabled" in (b || changed, c)
          else if status =? ChannelStatusEnabled then
            let '(b, c) := setChannelStatus now c ChannelStatusEnabled reason in (b || changed, c)
          else (changed, c)
      end
  end.

Definition saveStatusState (c : Channel) : MR unit :=
  if c.(c_Id) =? 0 then throw (RErrMsg "channel ID is 0")
  else
    rstmt ;;
    modify (set_channels (alter (fun row =>
      let row := set_c_OtherInfo (fun _ => c.(c_OtherInfo)) (set_c_Status (fun _ => c.(c_Status)) row) in
      if c.(c_Info).(IsMultiKey) then set_c_Info (fun _ => c.(c_Info)) row else row) c.(c_Id))).

(** The change of the cached channel; [false] ends the call. *)
Definition update_cached_status (channelId : Z) (usingKey : string) (status : Z) (reason : string) : MR bool :=
  let! now := gets r_clock in
  let! r := catch (CacheGetChannel channelId) in
  match r with
  | Err _ => ret false
  | Ok c =>
      if c.(c_Info).(IsMultiKey) then
        let c' := (handlerMultiKeyUpdate now c usingKey status reason).2 in
        modify (set_channelsIDM (insert channelId c')) ;;
        (if negb (c.(c_Status) =? c'.(c_Status)) then CacheUpdateChannelStatus channelId c'.(c_Status) else ret tt) ;;
        ret true
      else if c.(c_Status) =? status then ret false
      else CacheUpdateChannelStatus channelId status ;; ret true
  end.

(** The new row and whether the abilities follow; [None] if nothing changed. *)
Definition status_change (now : Z) (c : Channel) (usingKey : string) (status : Z) (reason : string) : option (Channel * bool) :=
  if c.(c_Info).(IsMultiKey) then
    let '(changed, c') := handlerMultiKeyUpdate now c usingKey status reason in
    if changed then Some (c', negb (c.(c_Status) =? c'.(c_Status))) else None
  else
    let '(changed, c') := setChannelStatus now c status reason in
    if changed then Some (c', true) else None.

(** The abilities are updated when the function returns, whether the row was saved or not. *)
Definition UpdateChannelStatus (channelId : Z) (usingKey : string) (status : Z) (reason : string) : MR bool :=
  let! memory := gets MemoryCacheEnabled in
  let! go := if memory then update_cached_status channelId usingKey status reason else ret true in
  if negb go then ret false
  else
    let! now := gets r_clock in
    let! r := catch (GetChannelById channelId) in
    match r with
    | Err _ => ret false
    | Ok c =>
        match status_change now c usingKey status reason with
        | None => ret false
        | Some (c', abil) =>
            let! saved := catch (saveStatusState c') in
            (if abil : bool then catch (UpdateAbilityStatus channelId (status =? ChannelStatusEnabled)) ;; ret tt else ret tt) ;;
            ret (match saved with Ok _ => true | Err _ => false end)
        end
    end.

(** ** Repair *)

(** Each channel of a chunk; the numbers of successes and failures. *)
Fixpoint fix_chunk (l : list Channel) (count : Z * Z) : MR (Z * Z) :=
  match l with
  | [] => ret count
  | c :: rest =>
      let! r := catch (AddAbilities c) in
      fix_chunk rest (match r with Ok _ => (count.1 + 1, count.2) | Err _ => (count.1, count.2 + 1) end)
  end.
Fixpoint fix_chunks (cs : list (list Channel)) (count : Z * Z) : MR (Z * Z) :=
  match cs with
  | [] => ret count
  | chunk :: rest =>
      let! r := catch (delete_abilities (fun id => bool_decide (id ∈ c_Id <$> chunk))) in
      match r with
      | Err _ => fix_chunks rest (count.1, count.2 + Z.of_nat (length chunk))
      | Ok _ => let! count := fix_chunk chunk count in fix_chunks rest count
      end
  end.
(** [locked]: another repair is running.  The table is emptied by [DELETE] or
    [TRUNCATE], according to the database. *)
Definition FixAbility (locked : bool) : MR (Z * Z) :=
  if locked then throw (RErrMsg "a repair is already running")
  else
    rstmt ;; modify (set_abilities (fun _ => ∅)) ;;
    rstmt ;;
    let! chans := gets (fun s => rows_of s.(channels)) in
    match chans with
    | [] => ret (0, 0)
    | _ =>
        let! count := fix_chunks (Chunk 50 chans) (0, 0) in
        InitChannelCache ;; ret count
    end.

(** ** Whether a channel serves a group and model *)

(** [Count] of the enabled abilities with the key. *)
Definition ability_enabled (group model : string) (id : Z) : MR bool :=
  let! r := catch (rstmt ;; gets (fun s => match s.(abilities) !! (group, model, id) with Some a => a.(a_Enabled) | None => false end)) in
  ret (match r with Ok b => b | Err _ => false end).
Definition isChannelEnabledForGroupModelDB (group modelName : string) (id : Z) : MR bool :=
  let! b := ability_enabled group modelName id in
  if b then ret true
  else
    let normalized := RoutingMatchModelName modelName in
    if String.eqb normalized "" || String.eqb normalized modelName then ret false
    else ability_enabled group normalized id.
Definition IsChannelEnabledForGroupModel (group modelName : string) (id : Z) : MR bool :=
  if String.eqb group "" || String.eqb modelName "" || (id <=? 0) then ret false
  else
    let! memory := gets MemoryCacheEnabled in
    if negb memory then isChannelEnabledForGroupModelDB group modelName id
    else
      let! m := gets group2model2channels in
      let normalized := RoutingMatchModelName modelName in
      ret (bool_decide (id ∈ candidates_of m group modelName) ||
           (negb (String.eqb normalized "") && negb (String.eqb normalized modelName) && bool_decide (id ∈ candidates_of m group normalized))).
Fixpoint IsChannelEnabledForAnyGroupModel (groups : list string) (modelName : string) (id : Z) : MR bool :=
  match groups with
  | [] => ret false
  | g :: rest =>
      let! b := IsChannelEnabledForGroupModel g modelName id in
      if b then ret true else IsChannelEnabledForAnyGroupModel rest modelName id
  end.
End cache.
