(* ===== verification/ChannelLaws.v ===== *)
(** * Selection of a channel (theorems on ChannelCache)

    Weighted choice, priorities and retries, and the agreement of the memory cache with
    the table of abilities. *)

From stdpp Require Import base tactics numbers list gmap strings pretty sorting.
From Stdlib Require Import ZArith Lia.
From S2P Require Import Prelude Float64 QuotaMath World Task Channel ChannelCache.
Open Scope Z_scope.

(** ** Weighted choice *)

(** The weights are those of unsigned integers that fit an int, and the scaled sum does. *)
Definition plain_sum (l : list Channel) : Z := foldr (fun c acc => GetWeight c + acc) 0 l.
Definition weights_fit (l : list Channel) : Prop :=
  Forall (fun c => 0 <= GetWeight c) l /\ plain_sum l * 100 + Z.of_nat (length l) * 100 <= MaxInt64.

(** The share of a channel among [l]: its weight; a hundred times that when the mean weight
    is below ten; a hundred when no channel has a weight. *)
Definition share (l : list Channel) (c : Channel) : Z :=
  let '(factor, adjustment) := smoothing (plain_sum l) (Z.of_nat (length l)) in GetWeight c * factor + adjustment.
Definition shares_before (l : list Channel) (i : nat) : Z := foldr (fun c acc => share l c + acc) 0 (take i l).

Lemma plain_sum_nonneg l : Forall (fun c => 0 <= GetWeight c) l -> 0 <= plain_sum l.
Proof. induction 1; simpl; lia. Qed.
Lemma sum_weight_plain l : Forall (fun c => 0 <= GetWeight c) l -> plain_sum l <= MaxInt64 -> sum_weight l = plain_sum l.
Proof.
  induction 1 as [|c l Hc Hl IH]; simpl; [done|]. intros Hb. pose proof (plain_sum_nonneg l Hl).
  rewrite IH by lia. apply wrap64_id. unfold in_i64, MinInt64. lia.
Qed.

(** The scaled weights of a list, summed. *)
Definition scaled (factor adj : Z) (l : list Channel) : Z := foldr (fun c acc => GetWeight c * factor + adj + acc) 0 l.
Lemma scaled_eq factor adj l : scaled factor adj l = plain_sum l * factor + Z.of_nat (length l) * adj.
Proof. unfold scaled. induction l as [|c l IH]; [done|]. cbn [foldr length plain_sum] in *. fold (plain_sum l) in *. lia. Qed.
Lemma scaled_snoc factor adj l c : scaled factor adj (l ++ [c]) = scaled factor adj l + (GetWeight c * factor + adj).
Proof. induction l as [|d l IH]; cbn in *; [lia|]. unfold scaled in *. lia. Qed.
Lemma scaled_nonneg factor adj l : 0 <= factor -> 0 <= adj -> Forall (fun c => 0 <= GetWeight c) l -> 0 <= scaled factor adj l.
Proof. intros Hf Ha H. induction H; cbn; [lia|]. fold (scaled factor adj l). nia. Qed.

(** The loop finds the position whose interval holds the random value. *)
Lemma scaled_cons factor adj c l : scaled factor adj (c :: l) = GetWeight c * factor + adj + scaled factor adj l.
Proof. done. Qed.
Lemma pick_weighted_interval factor adj l r :
  0 <= factor -> 0 <= adj -> Forall (fun c => 0 <= GetWeight c) l -> scaled factor adj l <= MaxInt64 -> 0 <= r < scaled factor adj l ->
  exists i c, l !! i = Some c /\ pick_weighted factor adj r l = Some c /\
    scaled factor adj (take i l) <= r < scaled factor adj (take (S i) l).
Proof.
  intros Hf Ha Hl. revert r. induction Hl as [|c l Hc Hl IH]; intros r Hb Hr; [cbn in Hr; lia|].
  rewrite scaled_cons in Hb, Hr. pose proof (scaled_nonneg factor adj l Hf Ha Hl) as Hn. cbn [pick_weighted].
  assert (0 <= GetWeight c * factor) by nia. assert (MaxInt64 = 2 ^ 63 - 1) as EM by done.
  rewrite (wrap64_id (GetWeight c * factor)), (wrap64_id (_ + adj)) by (unfold in_i64, MinInt64; lia).
  rewrite wrap64_id by (unfold in_i64, MinInt64; lia). destruct (Z.ltb_spec (r - (GetWeight c * factor + adj)) 0) as [Hlt|Hge].
  - exists 0%nat, c. split; [done|]. split; [done|]. rewrite !firstn_cons, scaled_cons, !take_0. cbn. lia.
  - destruct (IH (r - (GetWeight c * factor + adj))) as (i & c' & Hi & Hp & Hr'); [lia..|].
    exists (S i), c'. split; [done|]. split; [done|]. rewrite !firstn_cons, !scaled_cons in *. lia.
Qed.

Lemma smoothing_nonneg sum n : 0 <= (smoothing sum n).1 /\ 0 <= (smoothing sum n).2.
Proof. unfold smoothing. repeat case_match; simpl; lia. Qed.

Lemma shares_before_scaled l i :
  shares_before l i = scaled (smoothing (plain_sum l) (Z.of_nat (length l))).1 (smoothing (plain_sum l) (Z.of_nat (length l))).2 (take i l).
Proof. unfold shares_before, share, scaled. destruct (smoothing _ _) as [f a]. done. Qed.

(** The total is the sum of the shares. *)
Lemma total_weight_shares l :
  weights_fit l -> l <> [] -> total_weight l = shares_before l (length l) /\ 0 < total_weight l <= MaxInt64.
Proof.
  intros [Hn Hb] Hl. rewrite shares_before_scaled, firstn_all, scaled_eq. unfold total_weight.
  pose proof (plain_sum_nonneg l Hn). assert (MaxInt64 = 2 ^ 63 - 1) as EM by done.
  assert (0 < Z.of_nat (length l)) by (destruct l; [done|simpl; lia]).
  rewrite sum_weight_plain by (done || lia). unfold smoothing. destruct (Z.eqb_spec (plain_sum l) 0) as [E|E]; cbn [fst snd].
  - rewrite E, (wrap64_id (_ * 100)) by (unfold in_i64, MinInt64; lia). rewrite wrap64_id by (unfold in_i64, MinInt64; lia). lia.
  - destruct (_ <? 10); cbn [fst snd]; rewrite wrap64_id by (unfold in_i64, MinInt64; lia); lia.
Qed.

(** The weighted choice is exact: the shares of the channels partition the range of the
    random value, a channel is chosen just when the value falls into its interval, and
    the choice never fails. *)
Lemma choose_weighted_interval l rnd :
  weights_fit l -> l <> [] -> 0 <= rnd < total_weight l ->
  total_weight l = shares_before l (length l) /\
  exists i c, l !! i = Some c /\ choose_weighted rnd l = Ok c /\
    shares_before l i <= rnd < shares_before l (S i) /\ shares_before l (S i) = shares_before l i + share l c.
Proof.
  intros Hf Hl Hr. destruct (total_weight_shares l Hf Hl) as [Et Hp]. split; [done|].
  rewrite shares_before_scaled, firstn_all in Et. rewrite Et in Hr, Hp. unfold choose_weighted. rewrite Et.
  replace (_ <=? 0) with false by lia. destruct Hf as [Hn Hb]. pose proof (plain_sum_nonneg l Hn).
  rewrite sum_weight_plain by (done || lia).
  destruct (smoothing_nonneg (plain_sum l) (Z.of_nat (length l))) as [Hs1 Hs2].
  destruct (pick_weighted_interval _ _ l rnd Hs1 Hs2 Hn) as (i & c & Hi & Hpick & Hin); [lia..|].
  exists i, c. split; [done|]. rewrite !shares_before_scaled. destruct (smoothing _ _) as [f a] eqn:Es. cbn [fst snd] in *.
  rewrite Hpick. split; [done|]. split; [done|]. unfold share. rewrite Es.
  rewrite (take_S_r _ _ _ Hi), scaled_snoc. done.
Qed.

Lemma plain_sum_app l1 l2 : plain_sum (l1 ++ l2) = plain_sum l1 + plain_sum l2.
Proof. unfold plain_sum. induction l1 as [|c l1 IH]; simpl; lia. Qed.
Lemma shares_before_mono l i j : weights_fit l -> (i <= j)%nat -> shares_before l i <= shares_before l j.
Proof.
  intros [Hn _] Hij. rewrite !shares_before_scaled. destruct (smoothing_nonneg (plain_sum l) (Z.of_nat (length l))) as [Hs1 Hs2].
  destruct (smoothing _ _) as [f a]. cbn [fst snd] in *.
  replace (take j l) with (take i l ++ drop i (take j l)) by (rewrite <- (take_drop i (take j l)) at 2; by rewrite take_take, Nat.min_l).
  rewrite !scaled_eq, length_app, plain_sum_app.
  assert (0 <= plain_sum (drop i (take j l))) as H0 by by apply plain_sum_nonneg, Forall_drop, Forall_take.
  pose proof (Z.mul_nonneg_nonneg _ _ H0 Hs1). pose proof (Z.mul_nonneg_nonneg (Z.of_nat (length (drop i (take j l)))) a ltac:(lia) Hs2). lia.
Qed.

(** The weighted choice is exact: among distinct channels, the one at position [i] is
    chosen just when the random value falls into its own interval, whose length is the
    channel's share (its weight, smoothed); the intervals follow each other and fill the
    range of the random value, so that the chance of a channel is its share of the total. *)
Theorem weighted_choice_exact l i c rnd :
  weights_fit l -> NoDup l -> l !! i = Some c -> 0 <= rnd < total_weight l ->
  (choose_weighted rnd l = Ok c <-> shares_before l i <= rnd < shares_before l i + share l c) /\
  shares_before l (S i) = shares_before l i + share l c /\ total_weight l = shares_before l (length l).
Proof.
  intros Hf Hn Hi Hr. assert (l <> []) as Hl by by destruct l.
  assert (shares_before l (S i) = shares_before l i + share l c) as Es.
  { rewrite !shares_before_scaled, (take_S_r _ _ _ Hi), scaled_snoc. unfold share. by destruct (smoothing _ _). }
  destruct (choose_weighted_interval l rnd Hf Hl Hr) as (Et & j & d & Hj & Hd & Hin & _). split; [|done]. rewrite <- Es. split.
  - intros E. assert (d = c) as -> by congruence. by rewrite (NoDup_lookup l i j c Hn Hi Hj).
  - intros Hin'. destruct (Nat.lt_trichotomy i j) as [Hlt|[->|Hlt]]; [|congruence|].
    + pose proof (shares_before_mono l (S i) j Hf ltac:(lia)). lia.
    + pose proof (shares_before_mono l (S j) i Hf ltac:(lia)). lia.
Qed.
Lemma weighted_choice_exact_witness :
  let c := fun id w => mkChannel id 1 "k" 1 "c" (Some w) "m" "g" None None ∅ None None None None zero_info "" [] in
  choose_weighted 450 [c 1 2; c 2 3] = Ok (c 2 3).
Proof.
  intros c. refine (proj2 (proj1 (weighted_choice_exact [c 1 2; c 2 3] 1 (c 2 3) 450 _ _ _ _)) _).
  - split; [repeat constructor; vm_compute; discriminate | vm_compute; discriminate].
  - repeat constructor; set_solver.
  - reflexivity.
  - vm_compute. split; [discriminate|reflexivity].
  - vm_compute. split; [discriminate|reflexivity].
Defined.

(** ** Priorities *)

(** The number of distinct values above [p], and of distinct values. *)
Definition rank (p : Z) (ps : list Z) : nat := length (filter (fun q => p < q) (remove_dups ps)).
Definition tiers (ps : list Z) : nat := length (remove_dups ps).

#[export] Instance desc_total : Total desc.
Proof. intros a b. unfold desc. lia. Qed.
#[export] Instance desc_trans : Transitive desc.
Proof. intros a b c. unfold desc. lia. Qed.

(** In a list without repetition, highest first, position [k] has [k] values above it. *)
Lemma sorted_rank l k p :
  NoDup l -> StronglySorted desc l -> l !! k = Some p -> length (filter (fun q => p < q) l) = k.
Proof.
  intros Hn Hs. revert k. induction Hs as [|a l Hs IH Ha]; intros k Hk; [done|]. apply NoDup_cons in Hn as [Hna Hn].
  destruct k as [|k]; simpl in Hk.
  - injection Hk as ->. rewrite filter_cons_False by lia. clear -Ha. induction Ha as [|b l Hb Ha IH]; [done|].
    unfold desc in Hb. rewrite filter_cons_False by lia. done.
  - assert (p ∈ l) as Hp by by eapply list_elem_of_lookup_2. rewrite Forall_forall in Ha. specialize (Ha p Hp). unfold desc in Ha.
    assert (p <> a) by congruence. rewrite filter_cons_True by lia. simpl. by rewrite (IH Hn k Hk).
Qed.
Lemma sorted_priorities_perm ps : sorted_priorities ps ≡ₚ remove_dups ps.
Proof. apply merge_sort_Permutation. Qed.
Lemma sorted_priorities_lookup ps k p : sorted_priorities ps !! k = Some p -> rank p ps = k /\ p ∈ ps.
Proof.
  intros Hk. pose proof (sorted_priorities_perm ps) as Hp. split.
  - unfold rank. rewrite <- Hp. apply sorted_rank; [rewrite Hp; apply NoDup_remove_dups | | done]. apply (StronglySorted_merge_sort desc).
  - apply list_elem_of_lookup_2 in Hk. rewrite Hp in Hk. by rewrite elem_of_remove_dups in Hk.
Qed.
Lemma tiers_pos ps : ps <> [] -> (0 < tiers ps)%nat.
Proof.
  intros H. unfold tiers. destruct ps as [|p ps]; [done|]. destruct (remove_dups (p :: ps)) eqn:E; [|simpl; lia].
  assert (p ∈ remove_dups (p :: ps)) as Hp by (apply elem_of_remove_dups; left). rewrite E in Hp. by apply not_elem_of_nil in Hp.
Qed.

(** The priority served at [retry]: that of rank [retry], or the lowest. *)
Lemma target_priority_rank ps retry :
  ps <> [] -> 0 <= retry ->
  exists p, target_priority (sorted_priorities ps) retry = Some p /\ p ∈ ps /\ rank p ps = Nat.min (Z.to_nat retry) (tiers ps - 1).
Proof.
  intros Hps Hr. pose proof (tiers_pos ps Hps) as Ht. unfold target_priority.
  assert (length (sorted_priorities ps) = tiers ps) as El by by rewrite (sorted_priorities_perm ps). rewrite El.
  set (r := if Z.of_nat (tiers ps) <=? retry then Z.of_nat (tiers ps) - 1 else retry). assert (0 <= r /\ Z.to_nat r = Nat.min (Z.to_nat retry) (tiers ps - 1)) as [Hr0 Er]
    by (subst r; case_match; lia).
  replace (r <? 0) with false by lia. destruct (sorted_priorities ps !! Z.to_nat r) as [p|] eqn:E.
  - exists p. destruct (sorted_priorities_lookup _ _ _ E) as [H1 H2]. split_and!; [done..|]. by rewrite H1.
  - apply lookup_ge_None in E. lia.
Qed.

(** A database that answers. *)
Lemma rstmt_ok s : s.(r_faults) = [] -> rstmt s = (Ok tt, s).
Proof. intros H. unfold rstmt. by rewrite H. Qed.

(** ** Filters *)

Section laws.
Context `{!RouteParams}.

(** A candidate of the map of channels is kept just when it satisfies every filter. *)
Lemma filterCandidateIDs_spec idm ids model filters id c :
  idm !! id = Some c ->
  id ∈ filterCandidateIDs idm ids model filters <-> id ∈ ids /\ ChannelSatisfiesFilters (Some c) model filters = true.
Proof.
  intros Hc. unfold filterCandidateIDs, filterEvalOrder, ChannelSatisfiesFilters. cbn [foldl forallb].
  assert (forall kind (kept : list Z), id ∈ match filtersByKind filters kind with [] => kept | kf =>
      filter (fun id => Is_true (candidatePassesKindFilters (idm !! id) model kind kf)) kept end <->
    id ∈ kept /\ forallb (channelMatchesFilter c model) (filtersByKind filters kind) = true) as Hk.
  { intros kind kept. destruct (filtersByKind filters kind) as [|f fs]; [simpl; tauto|].
    rewrite list_elem_of_filter, Hc, Is_true_true. unfold candidatePassesKindFilters. tauto. }
  rewrite (Hk FilterTaskPluginIdentity), (Hk FilterRequestPath). unfold filterEvalOrder. cbn [forallb].
  rewrite !andb_true_iff. tauto.
Qed.
Lemma filterCandidateIDs_subset idm ids model filters id : id ∈ filterCandidateIDs idm ids model filters -> id ∈ ids.
Proof.
  unfold filterCandidateIDs, filterEvalOrder. cbn [foldl].
  do 2 case_match; rewrite ?list_elem_of_filter; tauto.
Qed.

(** ** Selection from the memory cache *)

(** The tier a retry is served from. *)
Definition tier_of (retry : Z) (l : list Channel) : list Channel :=
  match target_priority (sorted_priorities (GetPriority <$> l)) retry with
  | Some p => filter (fun c => GetPriority c = p) l
  | None => []
  end.
Lemma tier_of_spec retry l :
  l <> [] -> 0 <= retry -> tier_of retry l <> [] /\
  (forall c, c ∈ tier_of retry l -> c ∈ l /\
     rank (GetPriority c) (GetPriority <$> l) = Nat.min (Z.to_nat retry) (tiers (GetPriority <$> l) - 1)).
Proof.
  intros Hl Hr. destruct (target_priority_rank (GetPriority <$> l) retry) as (p & Ep & Hp & Hrank); [by destruct l|done|].
  unfold tier_of. rewrite Ep. split.
  - apply list_elem_of_fmap in Hp as (c & -> & Hc). intros E.
    assert (c ∈ filter (fun c' => GetPriority c' = GetPriority c) l) as Hin by by apply list_elem_of_filter. rewrite E in Hin.
    by apply not_elem_of_nil in Hin.
  - intros c [<- Hc]%list_elem_of_filter. done.
Qed.
Lemma weighted_choice_total l rnd :
  weights_fit l -> l <> [] -> 0 <= rnd < total_weight l -> exists c, choose_weighted rnd l = Ok c /\ c ∈ l.
Proof.
  intros Hf Hl Hr. destruct (choose_weighted_interval l rnd Hf Hl Hr) as (_ & i & c & Hi & Hc & _).
  exists c. split; [done|]. by eapply list_elem_of_lookup_2.
Qed.
Lemma lookup_all_nil idm ids l : lookup_all idm ids = Some l -> ids <> [] -> l <> [].
Proof. intros Hs Hi ->. apply mapM_Some in Hs. inversion Hs. by subst. Qed.
Lemma select_cached_serves rnd retry idm ids l :
  lookup_all idm ids = Some l -> ids <> [] -> 0 <= retry ->
  weights_fit (tier_of retry l) -> 0 <= rnd < total_weight (tier_of retry l) ->
  exists c, select_cached rnd retry idm ids = Ok (Some c) /\ c ∈ l /\
    rank (GetPriority c) (GetPriority <$> l) = Nat.min (Z.to_nat retry) (tiers (GetPriority <$> l) - 1).
Proof.
  intros Hl Hi Hr Hf Hrnd. pose proof (lookup_all_nil _ _ _ Hl Hi) as Hn. destruct (tier_of_spec retry l Hn Hr) as [Ht Htier].
  destruct (weighted_choice_total _ rnd Hf Ht Hrnd) as (c & Hc & Hin). destruct (Htier c Hin) as [Hcl Hrank].
  destruct ids as [|i [|j ids]]; [done| |].
  - unfold lookup_all in Hl. cbn in Hl. unfold select_cached. destruct (idm !! i) as [d|]; [|done]. injection Hl as <-.
    apply list_elem_of_singleton in Hcl as ->. eauto using list_elem_of_here.
  - unfold select_cached. rewrite Hl. unfold tier_of in *. destruct (target_priority _ _) as [p|]; [|done].
    destruct (filter _ l) eqn:E; [done|]. rewrite Hc. eauto.
Qed.

Lemma cached_candidates_pass s group model filters id c :
  id ∈ cached_candidates s group model filters -> s.(channelsIDM) !! id = Some c -> ChannelSatisfiesFilters (Some c) model filters = true.
Proof.
  intros Hid Hc. unfold cached_candidates in Hid. case_match eqn:E.
  - by apply (filterCandidateIDs_spec _ _ _ _ _ _ Hc) in Hid as [_ ?].
  - rewrite <- E in Hid. by apply (filterCandidateIDs_spec _ _ _ _ _ _ Hc) in Hid as [_ ?].
Qed.
Lemma lookup_all_elem idm ids l c : lookup_all idm ids = Some l -> c ∈ l -> exists id, id ∈ ids /\ idm !! id = Some c.
Proof. intros Hl%mapM_Some Hc. apply list_elem_of_lookup in Hc as [i Hi]. destruct (Forall2_lookup_r _ _ _ _ _ Hl Hi) as (id & Hid & Hx). eauto using list_elem_of_lookup_2. Qed.

(** Selection from the cache, whole. *)
Lemma cached_selection rnd s group model retry filters l :
  s.(MemoryCacheEnabled) = true -> lookup_all s.(channelsIDM) (cached_candidates s group model filters) = Some l -> l <> [] ->
  0 <= retry -> weights_fit (tier_of retry l) -> 0 <= rnd < total_weight (tier_of retry l) ->
  exists c, GetRandomSatisfiedChannel rnd group model retry filters s = (Ok (Some c, None), s) /\ c ∈ l /\
    ChannelSatisfiesFilters (Some c) model filters = true /\
    rank (GetPriority c) (GetPriority <$> l) = Nat.min (Z.to_nat retry) (tiers (GetPriority <$> l) - 1).
Proof.
  intros Hm Hl Hn Hr Hf Hrnd.
  assert (cached_candidates s group model filters <> []) as Hi by (intros E; rewrite E in Hl; by injection Hl as <-).
  destruct (select_cached_serves rnd retry _ _ l Hl Hi Hr Hf Hrnd) as (c & Hsel & Hc & Hrank).
  exists c. destruct (lookup_all_elem _ _ _ _ Hl Hc) as (id & Hid & Hlook).
  split_and!; [|done|by eapply cached_candidates_pass|done].
  unfold GetRandomSatisfiedChannel. cbv [bind gets get]. rewrite Hm. simpl. by rewrite Hsel.
Qed.

(** ** Selection from the abilities *)

Definition enabled_rows (s : RState) (group model : string) : list Ability :=
  merge_sort ability_order (filter (fun a =>
    a.(a_Group) = group /\ a.(a_Model) = model /\ a.(a_Enabled) = true) (rows_of s.(abilities))).
Definition passing_rows (s : RState) (group model : string) (filters : list ChannelFilter) : list Ability :=
  filter (fun a => Is_true (ChannelSatisfiesFilters (s.(channels) !! a.(a_ChannelId)) model filters)) (enabled_rows s group model).
Definition ability_tier (retry : Z) (l : list Ability) : list Ability :=
  match target_priority (sorted_priorities (ability_priority <$> l)) retry with
  | Some p => filter (fun a => ability_priority a = p) l
  | None => []
  end.
(** The weights of abilities are never below 0 and their sum, with ten each, fits an int. *)
Definition plain_ability_sum (l : list Ability) : Z := foldr (fun a acc => a.(a_Weight) + 10 + acc) 0 l.
Definition abilities_fit (l : list Ability) : Prop :=
  Forall (fun a => 0 <= a.(a_Weight)) l /\ plain_ability_sum l <= MaxInt64.

Lemma plain_ability_sum_nonneg l : Forall (fun a => 0 <= a.(a_Weight)) l -> 0 <= plain_ability_sum l.
Proof. induction 1; simpl; lia. Qed.
Lemma ability_sum_plain l : abilities_fit l -> ability_sum l = plain_ability_sum l.
Proof.
  intros [Hn Hb]. induction Hn as [|a l Ha Hn IH]; [done|]. cbn [plain_ability_sum foldr] in Hb. fold (plain_ability_sum l) in Hb.
  pose proof (plain_ability_sum_nonneg l Hn). unfold ability_sum in *. cbn [foldr plain_ability_sum].
  rewrite IH by lia. fold (plain_ability_sum l). assert (MaxInt64 = 2 ^ 63 - 1) as EM by done. rewrite Z.mod_small; lia.
Qed.
Lemma pick_ability_total l r :
  abilities_fit l -> 0 <= r < plain_ability_sum l -> exists a, a ∈ l /\ pick_ability r l = Some a.(a_ChannelId).
Proof.
  intros [Hn Hb]. revert r. induction Hn as [|a l Ha Hn IH]; intros r Hr; [simpl in Hr; lia|].
  cbn [plain_ability_sum foldr] in Hb, Hr. fold (plain_ability_sum l) in *. pose proof (plain_ability_sum_nonneg l Hn).
  assert (MaxInt64 = 2 ^ 63 - 1) as EM by done. cbn [pick_ability].
  rewrite (wrap64_id a.(a_Weight)), (wrap64_id (_ + 10)), wrap64_id by (unfold in_i64, MinInt64; lia).
  destruct (Z.leb_spec (r - (a.(a_Weight) + 10)) 0); [exists a; eauto using list_elem_of_here|].
  destruct (IH ltac:(lia) (r - (a.(a_Weight) + 10))) as (b & Hb' & E); [lia|]. exists b. eauto using list_elem_of_further.
Qed.

Lemma ability_tier_spec retry l :
  l <> [] -> 0 <= retry -> ability_tier retry l <> [] /\
  (forall a, a ∈ ability_tier retry l -> a ∈ l /\
     rank (ability_priority a) (ability_priority <$> l) = Nat.min (Z.to_nat retry) (tiers (ability_priority <$> l) - 1)).
Proof.
  intros Hl Hr. destruct (target_priority_rank (ability_priority <$> l) retry) as (p & Ep & Hp & Hrank); [by destruct l|done|].
  unfold ability_tier. rewrite Ep. split.
  - apply list_elem_of_fmap in Hp as (a & -> & Ha). intros E.
    assert (a ∈ filter (fun a' => ability_priority a' = ability_priority a) l) as Hin by by apply list_elem_of_filter. rewrite E in Hin.
    by apply not_elem_of_nil in Hin.
  - intros a [<- Ha]%list_elem_of_filter. done.
Qed.

(** Selection from the abilities, whole, when the database answers. *)
Lemma table_selection rnd s group model retry filters :
  let l := passing_rows s group model filters in
  s.(MemoryCacheEnabled) = false -> s.(r_faults) = [] -> l <> [] ->
  0 <= retry -> abilities_fit (ability_tier retry l) -> 0 <= rnd < plain_ability_sum (ability_tier retry l) ->
  exists a c, GetRandomSatisfiedChannel rnd group model retry filters s = (Ok (Some c, None), s) /\
    a ∈ l /\ s.(channels) !! a.(a_ChannelId) = Some c /\ ChannelSatisfiesFilters (Some c) model filters = true /\
    rank (ability_priority a) (ability_priority <$> l) = Nat.min (Z.to_nat retry) (tiers (ability_priority <$> l) - 1).
Proof.
  intros l Hm Hnf Hl Hr Hf Hrnd. destruct (ability_tier_spec retry l Hl Hr) as [Ht Htier].
  destruct (pick_ability_total _ rnd Hf Hrnd) as (a & Ha & Hpick). destruct (Htier a Ha) as [Hal Hrank].
  assert (exists c, s.(channels) !! a.(a_ChannelId) = Some c /\ ChannelSatisfiesFilters (Some c) model filters = true) as (c & Hc & Hpass).
  { apply list_elem_of_filter in Hal as [Hp _]. apply Is_true_true in Hp. destruct (s.(channels) !! _) as [c|]; [eauto|done]. }
  exists a, c. split_and!; [|done..]. destruct Hf as [Hw Hs]. assert (MaxInt64 = 2 ^ 63 - 1) as EM by done.
  unfold GetRandomSatisfiedChannel, GetChannel, filterAbilitiesByConstraints, GetChannelById. cbv [bind gets get catch].
  rewrite Hm. cbn [negb]. rewrite (rstmt_ok s Hnf). change (merge_sort ability_order _) with (enabled_rows s group model).
  destruct (enabled_rows s group model) as [|a0 rows] eqn:Er; [unfold l, passing_rows in Hl; by rewrite Er in Hl|].
  rewrite (rstmt_ok s Hnf). rewrite <- Er. change (filter _ (enabled_rows s group model)) with l.
  clearbody l. destruct l as [|b l']; [done|]. unfold ret. unfold ability_tier in *. destruct (target_priority _ _) as [p|]; [|done].
  rewrite ability_sum_plain by done. rewrite wrap64_id by (unfold in_i64, MinInt64; lia). replace (_ <=? 0) with false by lia.
  rewrite (rstmt_ok s Hnf), Hpick. cbn [from_option]. unfold id. by rewrite Hc.
Qed.
End laws.
