(* ===== verification/ChannelSync.v ===== *)
(** * Abilities follow channels (theorems on Channel and ChannelCache)

    The table of abilities is derived data: which rows it should hold follows from the
    table of channels.  The operations of administration keep it so when the database
    answers, and routing then serves the same tiers with and without the memory cache. *)

From stdpp Require Import base tactics numbers list gmap strings pretty sorting.
From Stdlib Require Import ZArith Lia.
From S2P Require Import Prelude Float64 QuotaMath World Task Channel ChannelCache ChannelLaws.
Open Scope Z_scope.

(** ** What the abilities should be *)

(** The pairs of group and model a channel serves. *)
Definition serves (c : Channel) : list (string * string) :=
  model ← GetModels c; group ← Split comma c.(c_Group); mret (group, model).
Definition derived (m : gmap Z Channel) (g mo : string) (id : Z) : option Ability :=
  c ← m !! id; if bool_decide ((g, mo) ∈ serves c) then Some (ability_of c (g, mo)) else None.

(** Names of groups without the separator of the key of an ability. *)
Fixpoint bar_free (s : string) : bool :=
  match s with
  | EmptyString => true
  | String a s => negb (Ascii.eqb a (Ascii.ascii_of_nat 124)) && bar_free s
  end.
Definition plain_groups (c : Channel) : Prop := Forall (fun g => bar_free g = true) (Split comma c.(c_Group)).

Record synced (s : RState) : Prop := mk_synced {
  sy_id : forall id c, s.(channels) !! id = Some c -> c.(c_Id) = id;
  sy_plain : forall id c, s.(channels) !! id = Some c -> plain_groups c;
  sy_abilities : forall g mo id, s.(abilities) !! (g, mo, id) = derived s.(channels) g mo id
}.

(** ** The rows a channel writes *)

Lemma bar_key_inj g1 g2 m1 m2 :
  bar_free g1 = true -> bar_free g2 = true -> g1 +:+ "|" +:+ m1 = g2 +:+ "|" +:+ m2 -> g1 = g2 /\ m1 = m2.
Proof.
  revert g2. induction g1 as [|a g1 IH]; intros [|b g2] H1 H2 E; simpl in *.
  - injection E as E. by split.
  - injection E as <- _. done.
  - injection E as -> _. done.
  - injection E as -> E. apply andb_true_iff in H1 as [_ H1]. apply andb_true_iff in H2 as [_ H2].
    destruct (IH g2 H1 H2 E) as [-> ->]. done.
Qed.
Definition pair_key (gm : string * string) : string := gm.1 +:+ "|" +:+ gm.2.
Definition distinct_keys (ps : list (string * string)) : Prop :=
  forall x y, x ∈ ps -> y ∈ ps -> pair_key x = pair_key y -> x = y.
Lemma dedup_elem seen ps x :
  distinct_keys ps -> x ∈ dedup seen ps <-> x ∈ ps /\ pair_key x ∉ seen.
Proof.
  revert seen. induction ps as [|[g m] ps IH]; intros seen Hd; simpl; [set_solver|].
  assert (distinct_keys ps) as Hd' by (intros y z ??; apply Hd; by right).
  assert (forall y, y ∈ ps -> pair_key y = pair_key (g, m) -> y = (g, m)) as Hk by (intros y Hy; apply Hd; [by right|by left]).
  change (g +:+ "|" +:+ m)%string with (pair_key (g, m)). case_bool_decide as Hs; rewrite ?elem_of_cons, IH by done; [set_solver|].
  rewrite not_elem_of_cons. split; [set_solver|]. intros [[->|Hx] Hn]; [by left|].
  destruct (decide (pair_key x = pair_key (g, m))) as [E|E]; [left; auto|right; auto].
Qed.
Lemma serves_elem c g mo : (g, mo) ∈ serves c <-> g ∈ Split comma c.(c_Group) /\ mo ∈ GetModels c.
Proof.
  unfold serves. rewrite list_elem_of_bind. setoid_rewrite list_elem_of_bind. setoid_rewrite list_elem_of_ret.
  split; [intros (m & (g' & [= -> ->] & ?) & ?); done | intros [? ?]; eauto].
Qed.
Lemma serves_distinct c : plain_groups c -> distinct_keys (serves c).
Proof.
  unfold plain_groups. rewrite Forall_forall. intros Hp [g1 m1] [g2 m2] H1%serves_elem H2%serves_elem E.
  destruct (bar_key_inj g1 g2 m1 m2) as [-> ->]; [naive_solver..|done].
Qed.
Lemma serves_dedup c x : plain_groups c -> x ∈ dedup [] (serves c) <-> x ∈ serves c.
Proof. intros H%serves_distinct. rewrite dedup_elem by done. set_solver. Qed.

Lemma insert_abilities_lookup c ps m g mo id :
  foldl insert_ability m (ability_of c <$> ps) !! (g, mo, id) =
  match m !! (g, mo, id) with
  | Some a => Some a
  | None => if bool_decide (id = c.(c_Id) /\ (g, mo) ∈ ps) then Some (ability_of c (g, mo)) else None
  end.
Proof.
  revert m. induction ps as [|[g' m'] ps IH]; intros m; cbn [fmap list_fmap foldl].
  { case_match; [done|]. rewrite bool_decide_false; [done|]. set_solver. }
  rewrite IH. unfold insert_ability. change (ability_key (ability_of c (g', m'))) with (g', m', c.(c_Id)).
  destruct (m !! (g', m', c.(c_Id))) eqn:E; [|destruct (decide ((g', m', c.(c_Id)) = (g, mo, id))) as [Ek|Ek]].
  - destruct (m !! (g, mo, id)) eqn:Em; [done|]. erewrite bool_decide_ext; [done|]. rewrite elem_of_cons. split; [tauto|].
    intros [-> [[= -> ->]|?]]; [congruence|done].
  - injection Ek as -> -> <-. rewrite lookup_insert_eq, E, bool_decide_true; [done|]. split; [done|]. by left.
  - rewrite lookup_insert_ne by done. destruct (m !! (g, mo, id)); [done|]. erewrite bool_decide_ext; [done|]. rewrite elem_of_cons. naive_solver.
Qed.

(** Chunks put together are the list. *)
Lemma chunks_concat {A} fuel n (l : list A) : (0 < n)%nat -> (length l <= fuel)%nat -> mjoin (chunks fuel n l) = l.
Proof.
  intros Hn. revert l. induction fuel as [|f IH]; intros l Hl; [by destruct l; simpl in *; [|lia]|].
  destruct l as [|x l]; [done|]. cbn [chunks]. cbn [mjoin list_join]. rewrite IH, take_drop; [done|].
  rewrite length_drop. simpl in *. lia.
Qed.
Lemma Chunk_concat {A} n (l : list A) : (0 < n)%nat -> mjoin (Chunk n l) = l.
Proof. intros H. by apply chunks_concat. Qed.

(** ** Operations on a database that answers *)

Definition quiet (s : RState) : Prop := s.(r_faults) = [].
Lemma set_abilities_id s : set_abilities (fun m => m) s = s.
Proof. by destruct s. Qed.

Lemma mapM_create_ok cs s :
  quiet s -> mapM_ create_abilities cs s = (Ok tt, set_abilities (fun m => foldl insert_ability m (mjoin cs)) s).
Proof.
  revert s. induction cs as [|ch cs IH]; intros s Hq; [by rewrite set_abilities_id|].
  cbn [mapM_]. unfold bind at 1, create_abilities at 1, bind at 1. rewrite rstmt_ok by done. unfold modify at 1.
  rewrite IH by done. unfold set_abilities. cbn. by rewrite foldl_app.
Qed.
Lemma create_chunks_ok l s : quiet s -> create_chunks l s = (Ok tt, set_abilities (fun m => foldl insert_ability m l) s).
Proof. intros Hq. unfold create_chunks. by rewrite mapM_create_ok, Chunk_concat by (done || lia). Qed.
Lemma delete_abilities_ok (p : Z -> bool) s :
  quiet s -> delete_abilities p s = (Ok tt, set_abilities (filter (fun kv => Is_true (negb (p kv.1.2)))) s).
Proof. intros Hq. unfold delete_abilities, bind. by rewrite rstmt_ok. Qed.
Lemma RTransaction_ok {A} (body : MR A) a s s' :
  quiet s -> body s = (Ok a, s') -> quiet s' -> RTransaction body s = (Ok a, s').
Proof. intros Hq Hb Hq'. unfold RTransaction. by rewrite rstmt_ok, Hb, rstmt_ok. Qed.

(** The rows of the table after a channel has rewritten its own. *)
Definition rewrite_rows (c : Channel) (m : gmap (string * string * Z) Ability) : gmap (string * string * Z) Ability :=
  foldl insert_ability (filter (fun kv : string * string * Z * Ability => Is_true (negb (kv.1.2 =? c.(c_Id)))) m)
    (ability_of c <$> dedup [] (serves c)).
Lemma UpdateAbilities_ok c s : quiet s -> UpdateAbilities c s = (Ok tt, set_abilities (rewrite_rows c) s).
Proof.
  intros Hq. apply RTransaction_ok; [done| |done]. unfold update_abilities_tx, DeleteAbilities, bind at 1.
  rewrite delete_abilities_ok by done. by rewrite create_chunks_ok by done.
Qed.

Lemma delete_rows_lookup (p : Z -> bool) (m : gmap (string * string * Z) Ability) g mo id :
  filter (fun kv : string * string * Z * Ability => Is_true (negb (p kv.1.2))) m !! (g, mo, id) = if p id : bool then None else m !! (g, mo, id).
Proof.
  destruct (p id) eqn:E.
  - apply map_lookup_filter_None. right. intros x _. simpl. rewrite E. tauto.
  - destruct (m !! (g, mo, id)) as [a|] eqn:Em.
    + apply map_lookup_filter_Some. split; [done|]. simpl. by rewrite E.
    + apply map_lookup_filter_None. by left.
Qed.
Lemma rewrite_rows_lookup c m g mo id :
  plain_groups c ->
  rewrite_rows c m !! (g, mo, id) =
    if id =? c.(c_Id) then (if bool_decide ((g, mo) ∈ serves c) then Some (ability_of c (g, mo)) else None) else m !! (g, mo, id).
Proof.
  intros Hp. unfold rewrite_rows. rewrite insert_abilities_lookup, (delete_rows_lookup (fun id => id =? c.(c_Id))).
  destruct (Z.eqb_spec id c.(c_Id)) as [E|E].
  - erewrite bool_decide_ext; [done|]. rewrite (serves_dedup c _ Hp). tauto.
  - destruct (m !! (g, mo, id)); [done|]. rewrite bool_decide_false; [done|tauto].
Qed.

(** A channel that is written to its row and rewrites its abilities keeps the tables together. *)
Lemma synced_rewrite s c :
  synced s -> plain_groups c ->
  synced (set_abilities (rewrite_rows c) (set_channels (insert c.(c_Id) c) s)).
Proof.
  intros [Hid Hpl Hab] Hp. split; simpl.
  - intros id d. rewrite lookup_insert_Some. naive_solver.
  - intros id d. rewrite lookup_insert_Some. naive_solver.
  - intros g mo id. rewrite rewrite_rows_lookup by done. unfold derived. destruct (Z.eqb_spec id c.(c_Id)) as [->|E].
    + by rewrite lookup_insert_eq.
    + rewrite lookup_insert_ne by done. apply Hab.
Qed.

(** ** Operations keep the tables together *)

Lemma AddAbilities_ok c s :
  quiet s -> Split comma c.(c_Models) = GetModels c ->
  AddAbilities c s = (Ok tt, set_abilities (fun m => foldl insert_ability m (ability_of c <$> dedup [] (serves c))) s).
Proof. intros Hq Hm. unfold AddAbilities, channel_abilities. rewrite Hm. by apply create_chunks_ok. Qed.
Lemma Channel_Insert_ok c s :
  quiet s -> Split comma c.(c_Models) = GetModels c ->
  Channel_Insert c s = (Ok tt, set_abilities (fun m => foldl insert_ability m (ability_of c <$> dedup [] (serves c)))
                                 (set_channels (insert c.(c_Id) c) s)).
Proof.
  intros Hq Hm. unfold Channel_Insert, create_channel, bind. rewrite rstmt_ok by done. unfold modify. by rewrite AddAbilities_ok.
Qed.

(** A channel that can be inserted: a new id, a list of models without empty ends, groups
    without the separator. *)
Definition insertable (s : RState) (c : Channel) : Prop :=
  s.(channels) !! c.(c_Id) = None /\ Split comma c.(c_Models) = GetModels c /\ plain_groups c.
Lemma synced_insert s c : synced s -> quiet s -> insertable s c ->
  exists s', Channel_Insert c s = (Ok tt, s') /\ synced s' /\ quiet s' /\ s'.(channels) = <[c.(c_Id) := c]> s.(channels).
Proof.
  intros Hs Hq (Hn & Hm & Hp). eexists. split; [by apply Channel_Insert_ok|]. split; [|done].
  pose proof (synced_rewrite s c Hs Hp) as Hr. unfold set_abilities, rewrite_rows in *. simpl in *.
  replace (filter _ s.(abilities)) with s.(abilities) in Hr; [done|]. apply map_eq. intros [[g mo] id].
  rewrite (delete_rows_lookup (fun id => id =? c.(c_Id))). destruct (Z.eqb_spec id c.(c_Id)) as [->|]; [|done].
  rewrite (sy_abilities s Hs). unfold derived. by rewrite Hn.
Qed.

(** Inserting in batches is inserting one by one. *)
Lemma mapM_Add_ok l s :
  quiet s -> Forall (fun c => Split comma c.(c_Models) = GetModels c) l ->
  mapM_ AddAbilities l (set_channels (fun m => foldl (fun m c => <[c.(c_Id) := c]> m) m l) s) = mapM_ Channel_Insert l s.
Proof.
  intros Hq Hl. revert s Hq. induction Hl as [|c l Hc Hl IH]; intros s Hq; [by destruct s|].
  cbn [mapM_ foldl]. unfold bind. rewrite AddAbilities_ok, Channel_Insert_ok by done. rewrite <- IH by done. done.
Qed.
Lemma mapM_app {S E A} (f : A -> M S E unit) l1 l2 s :
  mapM_ f (l1 ++ l2) s = match mapM_ f l1 s with (Ok _, s') => mapM_ f l2 s' | (Err e, s') => (Err e, s') end.
Proof.
  revert s. induction l1 as [|x l1 IH]; intros s; [done|]. cbn [mapM_ app]. unfold bind. destruct (f x s) as [[[]|e] s']; [apply IH|done].
Qed.
Lemma mapM_Insert_quiet l s :
  quiet s -> Forall (fun c => Split comma c.(c_Models) = GetModels c) l -> exists s', mapM_ Channel_Insert l s = (Ok tt, s') /\ quiet s'.
Proof.
  intros Hq Hl. revert s Hq. induction Hl as [|c l Hc Hl IH]; intros s Hq; [eauto|].
  cbn [mapM_]. unfold bind. rewrite Channel_Insert_ok by done. by apply IH.
Qed.
Lemma insert_chunks_ok cs s :
  quiet s -> Forall (fun c => Split comma c.(c_Models) = GetModels c) (mjoin cs) ->
  mapM_ (fun chunk => rstmt ;; modify (set_channels (fun m => foldl (fun m c => <[c.(c_Id) := c]> m) m chunk)) ;;
           mapM_ AddAbilities chunk) cs s = mapM_ Channel_Insert (mjoin cs) s.
Proof.
  revert s. induction cs as [|ch cs IH]; intros s Hq Hl; [done|]. cbn [mapM_ mjoin list_join] in *. apply Forall_app in Hl as [H1 H2].
  rewrite mapM_app. unfold bind. rewrite rstmt_ok by done. unfold modify. rewrite mapM_Add_ok by done.
  destruct (mapM_Insert_quiet ch s Hq H1) as (s' & -> & Hq'). by apply IH.
Qed.
Lemma BatchInsertChannels_one_by_one l s :
  quiet s -> Forall (fun c => Split comma c.(c_Models) = GetModels c) l -> BatchInsertChannels l s = mapM_ Channel_Insert l s.
Proof.
  intros Hq Hl. destruct (mapM_Insert_quiet l s Hq Hl) as (s' & E & Hq'). rewrite E. unfold BatchInsertChannels.
  destruct l as [|c0 l0] eqn:El; [done|]. apply RTransaction_ok; [done| |done]. rewrite <- El in *. clear El c0 l0. rewrite <- E.
  rewrite insert_chunks_ok; rewrite ?Chunk_concat by lia; done.
Qed.

(** Deleting by id, in both tables. *)
Definition delete_ids (p : Z -> bool) (s : RState) : RState :=
  set_abilities (filter (fun kv => Is_true (negb (p kv.1.2)))) (set_channels (filter (fun kv => Is_true (negb (p kv.2.(c_Id))))) s).
Lemma delete_both_ok (p : Z -> bool) s :
  quiet s -> exists n, delete_channels (fun x => p x.(c_Id)) s = (Ok n, set_channels (filter (fun kv => Is_true (negb (p kv.2.(c_Id))))) s).
Proof. intros Hq. unfold delete_channels, bind. rewrite rstmt_ok by done. eexists. done. Qed.
Lemma delete_channels_lookup (p : Z -> bool) s id :
  synced s -> filter (fun kv : Z * Channel => Is_true (negb (p kv.2.(c_Id)))) s.(channels) !! id = if p id then None else s.(channels) !! id.
Proof.
  intros Hs. destruct (s.(channels) !! id) as [c|] eqn:E.
  - pose proof (sy_id s Hs id c E) as Hc. destruct (p id) eqn:Ep.
    + apply map_lookup_filter_None. right. intros x Hx. assert (x = c) as -> by congruence. simpl. rewrite Hc, Ep. tauto.
    + apply map_lookup_filter_Some. split; [done|]. simpl. by rewrite Hc, Ep.
  - transitivity (@None Channel); [|by case_match]. apply map_lookup_filter_None. by left.
Qed.
Lemma synced_delete (p : Z -> bool) s : synced s -> synced (delete_ids p s).
Proof.
  intros Hs. pose proof (delete_channels_lookup p s) as Hl. split; unfold delete_ids; simpl.
  - intros id c. rewrite Hl by done. case_match; [done|]. apply (sy_id s Hs).
  - intros id c. rewrite Hl by done. case_match; [done|]. apply (sy_plain s Hs).
  - intros g mo id. unfold derived. rewrite delete_rows_lookup, Hl by done. case_match; [done|]. apply (sy_abilities s Hs).
Qed.

(** A change of columns that leaves groups and models alone, followed by the abilities. *)
Lemma synced_map s s' (F : Z -> Channel -> Channel) (G : Ability -> Ability) :
  synced s ->
  (forall id, s'.(channels) !! id = F id <$> s.(channels) !! id) ->
  (forall k, s'.(abilities) !! k = G <$> s.(abilities) !! k) ->
  (forall id c, s.(channels) !! id = Some c -> (F id c).(c_Id) = c.(c_Id) /\ (F id c).(c_Group) = c.(c_Group) /\
     (F id c).(c_Models) = c.(c_Models) /\ forall gm, G (ability_of c gm) = ability_of (F id c) gm) ->
  synced s'.
Proof.
  intros Hs Hc Ha HF. split.
  - intros id c. rewrite Hc, fmap_Some. intros (d & Hd & ->). destruct (HF id d Hd) as (-> & _). by apply (sy_id s Hs).
  - intros id c. rewrite Hc, fmap_Some. intros (d & Hd & ->). destruct (HF id d Hd) as (_ & E & _). unfold plain_groups.
    rewrite E. by apply (sy_plain s Hs id).
  - intros g mo id. rewrite Ha, (sy_abilities s Hs). unfold derived. rewrite Hc. destruct (s.(channels) !! id) as [c|] eqn:E; [|done].
    destruct (HF id c E) as (_ & Eg & Em & HG). simpl. unfold serves, GetModels. rewrite Eg, Em. case_bool_decide; [|done]. simpl. by rewrite HG.
Qed.

(** ** Tags *)

Lemma update_channels_ok (p : Channel -> bool) f s :
  quiet s -> update_channels p f s = (Ok tt, set_channels (fmap (fun c => if p c then f c else c)) s).
Proof. intros Hq. unfold update_channels, bind. by rewrite rstmt_ok. Qed.
Lemma update_abilities_ok (p : Ability -> bool) f s :
  quiet s -> update_abilities p f s = (Ok tt, set_abilities (fmap (fun a => if p a then f a else a)) s).
Proof. intros Hq. unfold update_abilities, bind. by rewrite rstmt_ok. Qed.

Lemma synced_tag_status tag status s :
  synced s -> synced (set_abilities (fmap (fun a => if has_tag tag a.(a_Tag) then set_a_Enabled (fun _ => status =? ChannelStatusEnabled) a else a))
    (set_channels (fmap (fun c => if has_tag tag c.(c_Tag) then set_c_Status (fun _ => status) c else c)) s)).
Proof.
  intros Hs. eapply synced_map; [exact Hs|intros id; simpl; by rewrite lookup_fmap|intros k; simpl; by rewrite lookup_fmap|].
  intros id c _. cbv beta. unfold ability_of. simpl. destruct (has_tag tag c.(c_Tag)); repeat split; done.
Qed.
Lemma EnableChannelByTag_synced tag s : synced s -> quiet s ->
  exists s', EnableChannelByTag tag s = (Ok tt, s') /\ synced s' /\ quiet s'.
Proof.
  intros Hs Hq. unfold EnableChannelByTag, UpdateAbilityStatusByTag, bind. rewrite update_channels_ok, update_abilities_ok by done.
  eexists. split; [done|]. split; [|done]. by apply (synced_tag_status tag ChannelStatusEnabled s).
Qed.
Lemma DisableChannelByTag_synced tag s : synced s -> quiet s ->
  exists s', DisableChannelByTag tag s = (Ok tt, s') /\ synced s' /\ quiet s'.
Proof.
  intros Hs Hq. unfold DisableChannelByTag, UpdateAbilityStatusByTag, bind. rewrite update_channels_ok, update_abilities_ok by done.
  eexists. split; [done|]. split; [|done]. by apply (synced_tag_status tag ChannelStatusManuallyDisabled s).
Qed.

(** Rewriting the rows of several channels of the table. *)
Lemma rewrite_all_ok l s :
  quiet s -> mapM_ (fun c => catch (UpdateAbilities c) ;; ret tt) l s =
    (Ok tt, set_abilities (fun m => foldl (fun m c => rewrite_rows c m) m l) s).
Proof.
  revert s. induction l as [|c l IH]; intros s Hq; [by destruct s|].
  cbn [mapM_ foldl]. unfold bind, catch. rewrite UpdateAbilities_ok by done. unfold ret at 1. by rewrite IH.
Qed.
Lemma rewrite_all_lookup (chans : gmap Z Channel) l m g mo id :
  (forall c, c ∈ l -> chans !! c.(c_Id) = Some c /\ plain_groups c) ->
  foldl (fun m c => rewrite_rows c m) m l !! (g, mo, id) =
    if bool_decide (id ∈ c_Id <$> l) then derived chans g mo id else m !! (g, mo, id).
Proof.
  revert m. induction l as [|c l IH]; intros m Hl; [done|]. cbn [foldl]. rewrite IH by (intros d Hd; apply Hl; by right).
  destruct (Hl c) as [Hc Hp]; [by left|]. rewrite rewrite_rows_lookup by done. rewrite fmap_cons.
  destruct (Z.eqb_spec id c.(c_Id)) as [->|E].
  - rewrite (bool_decide_true (_ ∈ _ :: _)) by by left. unfold derived. rewrite Hc. by case_bool_decide.
  - repeat case_bool_decide; set_solver.
Qed.

(** The tag of a channel after an edit of [tag]. *)
Lemma tag_update_id tag e c : (tag_update tag e c).(c_Id) = c.(c_Id).
Proof. unfold tag_update, set_some. repeat case_match; done. Qed.
Lemma tag_update_tag tag e c :
  c.(c_Tag) = Some tag -> (tag_update tag e c).(c_Tag) = Some (default tag e.(te_newTag)).
Proof.
  intros Ht. unfold tag_update, set_some. destruct e.(te_newTag) as [t|]; simpl.
  - destruct (String.eqb_spec t tag) as [->|]; repeat case_match; simplify_eq; done.
  - repeat case_match; simplify_eq; done.
Qed.

Definition plain_edit (e : TagEdit) : Prop :=
  (forall g, e.(te_group) = Some g -> Forall (fun g => bar_free g = true) (Split comma g)) /\
  (forall w, e.(te_weight) = Some w -> 0 < w < 2 ^ 64).
Lemma tag_update_group tag e c :
  (tag_update tag e c).(c_Group) = default c.(c_Group) (nonempty e.(te_group)).
Proof. unfold tag_update, set_some. repeat case_match; simplify_eq; done. Qed.
Lemma tag_update_plain tag e c : plain_edit e -> plain_groups c -> plain_groups (tag_update tag e c).
Proof.
  intros [Hg _] Hp. unfold plain_groups. rewrite tag_update_group. destruct (nonempty e.(te_group)) as [g|] eqn:E; [|done].
  apply Hg. destruct e.(te_group) as [[|a x]|]; done.
Qed.
Lemma wrap64_mod w : wrap64 w mod 2 ^ 64 = w mod 2 ^ 64.
Proof. unfold wrap64. rewrite <- (Z.mod_add _ 1 (2 ^ 64)) by lia. rewrite Z.mul_1_l.
  replace ((w + 2 ^ 63) mod 2 ^ 64 - 2 ^ 63 + 2 ^ 64) with ((w + 2 ^ 63) mod 2 ^ 64 + 2 ^ 63) by lia.
  rewrite Zplus_mod_idemp_l. replace (w + 2 ^ 63 + 2 ^ 63) with (w + 1 * 2 ^ 64) by lia. by rewrite Z.mod_add by lia. Qed.
(** An edit without models and groups: the abilities take the tag, priority and weight. *)
Lemma tag_update_ability tag e c gm :
  plain_edit e -> nonempty e.(te_models) = None -> nonempty e.(te_group) = None -> c.(c_Tag) = Some tag ->
  (tag_update tag e c).(c_Models) = c.(c_Models) /\
  (let a := ability_of c gm in
   let a := match e.(te_newTag) with Some t => set_a_Tag (fun _ => Some t) a | None => a end in
   let a := match e.(te_priority) with Some p => set_a_Priority (fun _ => Some p) a | None => a end in
   match e.(te_weight) with Some w => if w =? 0 then a else set_a_Weight (fun _ => w) a | None => a end)
  = ability_of (tag_update tag e c) gm.
Proof.
  intros [_ Hw] Hm Hg Ht. unfold tag_update, set_some. rewrite Hm, Hg.
  destruct c as []; cbn in Ht; subst. destruct e as [nt mm mo gr pr we po ho]; cbn in *.
  assert (forall w, we = Some w -> (w =? 0) = false /\ wrap64 w mod 2 ^ 64 = w) as Hw'.
  { intros w E. specialize (Hw w E). split; [lia|]. rewrite wrap64_mod. apply Z.mod_small. lia. }
  destruct nt as [t|]; [destruct (String.eqb_spec t tag) as [->|]|]; destruct mm, pr, we as [w|], po, ho; split; try done;
    destruct (Hw' w eq_refl) as [-> E]; unfold ability_of, GetWeight, set_a_Weight; cbn; by rewrite E.
Qed.

Lemma tagged_elem (m : gmap Z Channel) tag c :
  c ∈ filter (fun c => Is_true (has_tag tag c.(c_Tag))) (map_to_list m).*2 <-> c.(c_Tag) = Some tag /\ exists id, m !! id = Some c.
Proof.
  rewrite list_elem_of_filter, Is_true_true, list_elem_of_fmap. unfold has_tag. rewrite bool_decide_eq_true. split.
  - intros (Ht & [id d] & -> & Hd%elem_of_map_to_list). eauto.
  - intros (Ht & id & Hd). split; [done|]. exists (id, c). split; [done|]. by apply elem_of_map_to_list.
Qed.
(** The table of channels after an edit by tag. *)
Definition edited (tag : string) (e : TagEdit) (s : RState) : RState :=
  set_channels (fmap (fun c => if has_tag tag c.(c_Tag) then tag_update tag e c else c)) s.
Lemma edited_rows tag e s id c :
  synced s -> plain_edit e -> (edited tag e s).(channels) !! id = Some c -> c.(c_Id) = id /\ plain_groups c.
Proof.
  intros Hs He. unfold edited. simpl. rewrite lookup_fmap, fmap_Some. intros (d & Hd & ->).
  pose proof (sy_id s Hs id d Hd). pose proof (sy_plain s Hs id d Hd).
  case_match; [rewrite tag_update_id; auto using tag_update_plain | done].
Qed.
Lemma synced_edit_rewrite tag e s :
  synced s -> plain_edit e ->
  synced (set_abilities (fun m => foldl (fun m c => rewrite_rows c m) m
    (filter (fun c => Is_true (has_tag (default tag e.(te_newTag)) c.(c_Tag))) (map_to_list (edited tag e s).(channels)).*2)) (edited tag e s)).
Proof.
  intros Hs He. split; [intros id c H; by apply (edited_rows tag e s id c Hs He H)..|]. intros g mo id.
  change (channels (set_abilities ?f ?x)) with (channels x). change (abilities (set_abilities ?f ?x)) with (f (abilities x)). cbv beta.
  rewrite (rewrite_all_lookup (edited tag e s).(channels)).
  2:{ intros c [_ (i & Hi)]%tagged_elem. destruct (edited_rows tag e s i c Hs He Hi) as [<- Hp]. done. }
  case_bool_decide as Hin; [done|]. change (abilities (edited tag e s)) with (abilities s). rewrite (sy_abilities s Hs). unfold derived.
  unfold edited. simpl. rewrite lookup_fmap. destruct (s.(channels) !! id) as [c|] eqn:E; [|done]. simpl.
  destruct (has_tag tag c.(c_Tag)) eqn:Et; [|done]. unfold has_tag in Et. apply bool_decide_eq_true in Et. destruct Hin.
  apply list_elem_of_fmap. exists (tag_update tag e c). rewrite tag_update_id, (sy_id s Hs id c E). split; [done|].
  apply tagged_elem. split; [by apply tag_update_tag|]. exists id. unfold edited. simpl. rewrite lookup_fmap, E. simpl.
  unfold has_tag. by rewrite bool_decide_true.
Qed.
Lemma EditChannelByTag_synced tag e s : synced s -> quiet s -> plain_edit e ->
  exists s', EditChannelByTag tag e s = (Ok tt, s') /\ synced s' /\ quiet s'.
Proof.
  intros Hs Hq He. unfold EditChannelByTag, UpdateAbilityByTag, GetChannelsByTag, bind, catch, gets.
  rewrite update_channels_ok by done. fold (edited tag e s). case_bool_decide as Hme.
  - rewrite rstmt_ok by done. rewrite rewrite_all_ok by done. eexists. split; [done|]. split; [by apply synced_edit_rewrite|done].
  - rewrite update_abilities_ok by done. eexists. split; [done|]. split; [|done].
    assert (nonempty e.(te_models) = None /\ nonempty e.(te_group) = None) as [Hm Hg].
    { split; apply eq_None_not_Some; tauto. }
    eapply synced_map; [exact Hs|intros id; simpl; by rewrite lookup_fmap|intros k; simpl; by rewrite lookup_fmap|].
    intros id c _. cbv beta. change (a_Tag (ability_of c ?gm)) with c.(c_Tag). destruct (has_tag tag c.(c_Tag)) eqn:Et; [|done].
    unfold has_tag in Et. apply bool_decide_eq_true in Et. rewrite tag_update_id, tag_update_group, Hg.
    split_and!; [done..| |]; [apply (tag_update_ability tag e c ("", ""%string) He Hm Hg Et)|].
    intros gm. apply (tag_update_ability tag e c gm He Hm Hg Et).
Qed.

(** ** Status *)

Section status.
Context `{!RouteParams}.

(** Same but for status and bookkeeping. *)
Definition same_service (c c' : Channel) : Prop :=
  c'.(c_Id) = c.(c_Id) /\ c'.(c_Group) = c.(c_Group) /\ c'.(c_Models) = c.(c_Models) /\
  c'.(c_Priority) = c.(c_Priority) /\ c'.(c_Weight) = c.(c_Weight) /\ c'.(c_Tag) = c.(c_Tag).
Lemma setChannelStatus_spec now c status reason b c' :
  setChannelStatus now c status reason = (b, c') -> same_service c c' /\ c'.(c_Status) = status /\ c'.(c_Info) = c.(c_Info) /\
    b = negb (c.(c_Status) =? status).
Proof.
  unfold setChannelStatus. destruct (Z.eqb_spec c.(c_Status) status); intros [= <- <-]; done.
Qed.

Lemma key_index_range k keys idx : key_index k keys = Some idx -> idx ∈ indexes (length keys).
Proof.
  unfold key_index, indexes. intros (x & Hx & ->)%fmap_Some. apply fmap_Some in Hx as ([i y] & Hf & ->).
  apply list_find_Some in Hf as (Hl & _). apply list_elem_of_fmap. exists i. split; [done|].
  apply elem_of_seq. apply lookup_lt_Some in Hl. simpl. lia.
Qed.
(** A key that was just enabled counts. *)
Lemma enabling_leaves_a_key now idx reason i keys :
  idx ∈ indexes (length keys) -> hasEnabledMultiKey keys (set_key_status now idx ChannelStatusEnabled reason i).2.(MultiKeyStatusList) = true.
Proof.
  intros Hi. unfold hasEnabledMultiKey. apply existsb_exists. exists idx. split; [by apply list_elem_of_In|].
  unfold set_key_status. rewrite Z.eqb_refl. simpl. by rewrite lookup_delete_eq.
Qed.

Lemma handlerMultiKeyUpdate_spec now c key status reason b c' :
  handlerMultiKeyUpdate now c key status reason = (b, c') ->
  same_service c c' /\ (c'.(c_Status) = c.(c_Status) \/ (c'.(c_Status) =? ChannelStatusEnabled) = (status =? ChannelStatusEnabled)).
Proof.
  assert (forall b c', setChannelStatus now c status reason = (b, c') ->
    same_service c c' /\ (c'.(c_Status) = c.(c_Status) \/ (c'.(c_Status) =? ChannelStatusEnabled) = (status =? ChannelStatusEnabled))) as Hset.
  { intros b' c2 (Hs & -> & _)%setChannelStatus_spec. split; [done|]. by right. }
  unfold handlerMultiKeyUpdate. destruct (GetKeys c) as [|k0 keys] eqn:Ek; [apply Hset|]. rewrite <- Ek. clear Ek.
  destruct (key_index key _) as [idx|] eqn:Ei; [|case_match; [by intros [= <- <-]; split; [|left] | apply Hset]].
  pose proof (key_index_range _ _ _ Ei) as Hr. destruct (set_key_status _ _ _ _ _) as [ch i] eqn:Es. simpl.
  destruct (hasEnabledMultiKey _ _) eqn:Eh; simpl.
  - destruct (Z.eqb_spec status ChannelStatusEnabled) as [->|Hne].
    + destruct (setChannelStatus now (set_c_Info _ c) _ _) as [b2 c2] eqn:E2. apply setChannelStatus_spec in E2 as (Hs & E & _).
      intros [= <- <-]. split; [exact Hs|]. right. by rewrite E.
    + intros [= <- <-]. split; [done|by left].
  - destruct (setChannelStatus now (set_c_Info _ c) _ _) as [b2 c2] eqn:E2. apply setChannelStatus_spec in E2 as (Hs & E & _).
    intros [= <- <-]. split; [exact Hs|]. right. rewrite E. destruct (Z.eqb_spec status ChannelStatusEnabled) as [->|]; [|done].
    pose proof (enabling_leaves_a_key now idx reason c.(c_Info) _ Hr) as Hx. rewrite Es in Hx. simpl in Hx. congruence.
Qed.
Lemma status_change_spec now c key status reason c' abil :
  status_change now c key status reason = Some (c', abil) ->
  same_service c c' /\
  (if abil : bool then (c'.(c_Status) =? ChannelStatusEnabled) = (status =? ChannelStatusEnabled) else c'.(c_Status) = c.(c_Status)).
Proof.
  unfold status_change. destruct (c.(c_Info).(IsMultiKey)).
  - destruct (handlerMultiKeyUpdate _ _ _ _ _) as [b d] eqn:E. apply handlerMultiKeyUpdate_spec in E as [Hs Hst].
    destruct b; [|done]. intros [= <- <-]. split_and!; [done..|]. destruct (Z.eqb_spec c.(c_Status) d.(c_Status)) as [->|Hne]; [done|].
    destruct Hst as [Hst|Hst]; [congruence|done].
  - destruct (setChannelStatus _ _ _ _) as [b d] eqn:E. apply setChannelStatus_spec in E as (Hs & Est & _ & _).
    destruct b; [|done]. intros [= <- <-]. by rewrite Est.
Qed.

Definition same_tables (s s' : RState) : Prop :=
  s'.(channels) = s.(channels) /\ s'.(abilities) = s.(abilities) /\ s'.(r_faults) = s.(r_faults).
Lemma synced_tables s s' : same_tables s s' -> synced s -> synced s'.
Proof. intros (E1 & E2 & _) [H1 H2 H3]. split; rewrite ?E1, ?E2; done. Qed.
Lemma CacheUpdateChannelStatus_tables id status s :
  exists s', CacheUpdateChannelStatus id status s = (Ok tt, s') /\ same_tables s s'.
Proof.
  unfold CacheUpdateChannelStatus. cbv [bind gets modify ret]. repeat case_match; simplify_eq; eexists; split; done.
Qed.
Lemma update_cached_status_tables id key status reason s :
  s.(MemoryCacheEnabled) = true -> exists b s', update_cached_status id key status reason s = (Ok b, s') /\ same_tables s s'.
Proof.
  intros Hm. unfold update_cached_status, CacheGetChannel. cbv [bind gets catch]. rewrite Hm. cbn [negb].
  destruct (s.(channelsIDM) !! id) as [c|]; [|do 2 eexists; split; done]. unfold ret at 1.
  destruct (IsMultiKey _).
  - unfold modify at 1. set (s1 := set_channelsIDM _ s). set (c' := (handlerMultiKeyUpdate _ _ _ _ _).2).
    destruct (CacheUpdateChannelStatus_tables id c'.(c_Status) s1) as (s2 & E2 & Hs2).
    destruct (negb _); [rewrite E2|]; do 2 eexists; (split; [done|]); done.
  - destruct (_ =? status); [do 2 eexists; split; done|].
    destruct (CacheUpdateChannelStatus_tables id status s) as (s2 & -> & Hs2). do 2 eexists; split; done.
Qed.

(** The row and the abilities after a status change. *)
Lemma synced_status s id c c' abil status :
  synced s -> s.(channels) !! id = Some c -> same_service c c' ->
  (if abil : bool then (c'.(c_Status) =? ChannelStatusEnabled) = (status =? ChannelStatusEnabled) else c'.(c_Status) = c.(c_Status)) ->
  synced (set_abilities (fmap (fun a => if abil && (a.(a_ChannelId) =? id) then set_a_Enabled (fun _ => status =? ChannelStatusEnabled) a else a))
    (set_channels (alter (fun row =>
      let row := set_c_OtherInfo (fun _ => c'.(c_OtherInfo)) (set_c_Status (fun _ => c'.(c_Status)) row) in
      if c'.(c_Info).(IsMultiKey) then set_c_Info (fun _ => c'.(c_Info)) row else row) id) s)).
Proof.
  intros Hs Hc Hsame Habil. eapply (synced_map s _ (fun i row => if i =? id then
      let row := set_c_OtherInfo (fun _ => c'.(c_OtherInfo)) (set_c_Status (fun _ => c'.(c_Status)) row) in
      if c'.(c_Info).(IsMultiKey) then set_c_Info (fun _ => c'.(c_Info)) row else row else row)); [exact Hs| |intros k; simpl; by rewrite lookup_fmap|].
  - intros i. simpl. destruct (Z.eqb_spec i id) as [->|]; [by rewrite lookup_alter_eq | rewrite lookup_alter_ne by done].
    by destruct (s.(channels) !! i).
  - intros i d Hd. cbv beta. change (a_ChannelId (ability_of d ?gm)) with d.(c_Id). pose proof (sy_id s Hs i d Hd) as Ei. rewrite Ei.
    destruct (Z.eqb_spec i id) as [->|]; [|rewrite andb_false_r; by split_and!].
    rewrite andb_true_r. assert (d = c) as -> by congruence. unfold ability_of.
    destruct (IsMultiKey _), abil; simpl; split_and!; try done; intros gm; unfold set_a_Enabled; simpl; by rewrite Habil.
Qed.
Lemma saveStatusState_ok c s : quiet s -> c.(c_Id) <> 0 ->
  saveStatusState c s = (Ok tt, set_channels (alter (fun row =>
      let row := set_c_OtherInfo (fun _ => c.(c_OtherInfo)) (set_c_Status (fun _ => c.(c_Status)) row) in
      if c.(c_Info).(IsMultiKey) then set_c_Info (fun _ => c.(c_Info)) row else row) c.(c_Id)) s).
Proof. intros Hq Hc. unfold saveStatusState, bind. replace (_ =? 0) with false by lia. by rewrite rstmt_ok. Qed.
Lemma UpdateChannelStatus_synced id key status reason s : synced s -> quiet s -> id <> 0 ->
  exists b s', UpdateChannelStatus id key status reason s = (Ok b, s') /\ synced s' /\ quiet s'.
Proof.
  intros Hs Hq Hid. unfold UpdateChannelStatus.
  assert (exists go s1, (if s.(MemoryCacheEnabled) then update_cached_status id key status reason else ret true) s = (Ok go, s1) /\
    same_tables s s1) as (go & s1 & Hgo & Ht).
  { destruct (s.(MemoryCacheEnabled)) eqn:Em; [by apply update_cached_status_tables | by exists true, s]. }
  assert (synced s1) as Hs1 by by eapply synced_tables. assert (quiet s1) as Hq1 by (destruct Ht as (_ & _ & E); unfold quiet; by rewrite E).
  unfold bind at 1, gets at 1. unfold bind at 1. rewrite Hgo. clear Hgo. destruct go; cbn [negb]; [|by do 2 eexists].
  unfold bind at 1, gets at 1. unfold bind at 1, catch at 1, GetChannelById. cbv [bind gets]. rewrite rstmt_ok by done.
  destruct (s1.(channels) !! id) as [c|] eqn:Ec; [|by do 2 eexists]. unfold ret at 1.
  destruct (status_change _ c _ _ _) as [[c' abil]|] eqn:Es; [|by do 2 eexists].
  apply status_change_spec in Es as [Hsame Habil]. assert (c'.(c_Id) = id) as Eid
    by (destruct Hsame as (-> & _); apply (sy_id s1 Hs1 id c Ec)).
  pose proof (synced_status s1 id c c' abil status Hs1 Ec Hsame Habil) as Hfin.
  unfold catch. rewrite saveStatusState_ok by (done || lia). rewrite Eid. destruct abil; cbn [andb] in Hfin.
  - unfold UpdateAbilityStatus. rewrite update_abilities_ok by done. do 2 eexists. split; [done|]. by split.
  - do 2 eexists. split; [done|]. split; [|done]. eapply synced_tables; [|exact Hfin]. split_and!; [done| |done]. simpl. by rewrite map_fmap_id.
Qed.

(** ** Edits and deletions *)

Lemma merge_plain u row : plain_groups u -> plain_groups row -> plain_groups (merge_channel u row).
Proof. intros Hu Hr. unfold plain_groups, merge_channel, keep. simpl. by case_match. Qed.
Lemma alter_present (f : Channel -> Channel) (m : gmap Z Channel) id c : m !! id = Some c -> alter f id m = <[id := f c]> m.
Proof.
  intros Hc. apply map_eq. intros j. destruct (decide (j = id)) as [->|].
  - by rewrite lookup_alter_eq, lookup_insert_eq, Hc.
  - by rewrite lookup_alter_ne, lookup_insert_ne.
Qed.
Lemma Channel_Update_synced c s :
  synced s -> quiet s -> is_Some (s.(channels) !! c.(c_Id)) -> plain_groups c ->
  exists s', Channel_Update c s = (Ok tt, s') /\ synced s' /\ quiet s'.
Proof.
  intros Hs Hq [row Hrow] Hp. unfold Channel_Update.
  match goal with |- context [bind ?first _ s] => assert (exists u, first s = (Ok u, s) /\ u.(c_Id) = c.(c_Id) /\ plain_groups u) as (u & Hu & Eu & Hpu) end.
  { destruct (IsMultiKey _); [|by exists c]. destruct (negb _); cbv [bind ret catch GetChannelById gets]; [by eexists|].
    rewrite rstmt_ok, Hrow by done. by eexists. }
  unfold bind at 1. rewrite Hu. cbv [bind catch GetChannelById gets modify]. rewrite rstmt_ok by done.
  set (s1 := set_channels _ s). rewrite (rstmt_ok s1) by done. unfold s1 at 1. cbn [channels set_channels]. rewrite Eu, lookup_alter_eq, Hrow. cbn.
  rewrite UpdateAbilities_ok by done. eexists. split; [done|]. split; [|done].
  pose proof (sy_id s Hs _ _ Hrow) as Eid.
  pose proof (synced_rewrite s (merge_channel u row) Hs (merge_plain u row Hpu (sy_plain s Hs _ _ Hrow))) as Hfin.
  unfold s1. rewrite Eu. unfold set_channels in *. rewrite (alter_present _ _ _ row) by done. by rewrite <- Eid.
Qed.

Lemma delete_pair_ok (p : Z -> bool) s :
  quiet s -> exists n, (let! n := delete_channels (fun x => p x.(c_Id)) in delete_abilities p ;; ret n) s = (Ok n, delete_ids p s).
Proof.
  intros Hq. destruct (delete_both_ok p s Hq) as [n E]. exists n. unfold bind. rewrite E. rewrite delete_abilities_ok by done. done.
Qed.
Lemma Channel_Delete_synced c s : synced s -> quiet s -> exists s', Channel_Delete c s = (Ok tt, s') /\ synced s' /\ quiet s'.
Proof.
  intros Hs Hq. unfold Channel_Delete, DeleteAbilities, bind.
  destruct (delete_both_ok (fun id => id =? c.(c_Id)) s Hq) as [n ->]. rewrite delete_abilities_ok by done.
  eexists. split; [done|]. split; [|done]. by apply (synced_delete (fun id => id =? c.(c_Id))).
Qed.
Lemma delete_chunks_synced (cs : list (list Z)) s : synced s -> quiet s ->
  exists n s', foldr (fun chunk k => 
           let! n := delete_channels (fun x => bool_decide (x.(c_Id) ∈ chunk)) in
           delete_abilities (fun id => bool_decide (id ∈ chunk)) ;;
           let! m := k in ret (n + m)) (ret 0) cs s = (Ok n, s') /\ synced s' /\ quiet s'.
Proof.
  revert s. induction cs as [|ch cs IH]; intros s Hs Hq; [by do 2 eexists|]. cbn [foldr]. unfold bind at 1.
  destruct (delete_both_ok (fun id => bool_decide (id ∈ ch)) s Hq) as [n ->]. unfold bind at 1. rewrite delete_abilities_ok by done.
  unfold bind at 1. destruct (IH (delete_ids (fun id => bool_decide (id ∈ ch)) s)) as (n' & s' & E & Hs' & Hq'); [by apply synced_delete|done|].
  unfold delete_ids in E. rewrite E. by do 2 eexists.
Qed.
Lemma BatchDeleteChannels_synced ids s : synced s -> quiet s -> exists n s', BatchDeleteChannels ids s = (Ok n, s') /\ synced s' /\ quiet s'.
Proof.
  intros Hs Hq. unfold BatchDeleteChannels. destruct ids as [|i ids]; [by do 2 eexists|].
  destruct (delete_chunks_synced (Chunk 200 (i :: ids)) s Hs Hq) as (n & s' & E & Hs' & Hq'). exists n, s'. split; [|done].
  by apply RTransaction_ok.
Qed.
Lemma mapM_Insert_synced l s :
  synced s -> quiet s -> Forall (insertable s) l -> NoDup (c_Id <$> l) -> exists s', mapM_ Channel_Insert l s = (Ok tt, s') /\ synced s' /\ quiet s'.
Proof.
  revert s. induction l as [|c l IH]; intros s Hs Hq Hl Hn; [by eexists|]. apply Forall_cons in Hl as [Hc Hl].
  rewrite fmap_cons in Hn. apply NoDup_cons in Hn as [Hnc Hn]. destruct (synced_insert s c Hs Hq Hc) as (s1 & E & Hs1 & Hq1 & Ech).
  cbn [mapM_]. unfold bind. rewrite E. apply IH; [done..| |done]. apply Forall_forall. intros d Hd. rewrite Forall_forall in Hl.
  destruct (Hl d Hd) as (H1 & H2 & H3). split_and!; [|done..]. rewrite Ech, lookup_insert_ne; [done|].
  intros E'. apply Hnc. rewrite E'. by apply list_elem_of_fmap_2.
Qed.
End status.
