(* ===== verification/ChannelModes.v ===== *)
(** * The memory cache and the tables (theorems on ChannelCache)

    What a rebuilt cache holds, administration as a sequence of operations, and routing
    with and without the cache. *)

From stdpp Require Import base tactics numbers list gmap strings pretty sorting.
From Stdlib Require Import ZArith Lia.
From S2P Require Import Prelude Float64 QuotaMath World Task Channel ChannelCache ChannelLaws ChannelSync.
Open Scope Z_scope.

(** ** Building the lists of candidates *)

Lemma candidates_insert m (g : string) (models : gmap string (list Z)) (f : gmap string (list Z) -> gmap string (list Z)) g' mo' :
  m !! g = Some models ->
  candidates_of (<[g := f models]> m) g' mo' = if bool_decide (g' = g) then default [] (f models !! mo') else candidates_of m g' mo'.
Proof.
  intros _. unfold candidates_of. case_bool_decide as E; [subst; by rewrite lookup_insert_eq | by rewrite lookup_insert_ne].
Qed.
Lemma add_candidate_ok id gm m :
  is_Some (m !! gm.1) -> exists m', add_candidate id gm (Some m) = Some m' /\ (forall g, is_Some (m !! g) -> is_Some (m' !! g)) /\
    forall g mo x, x ∈ candidates_of m' g mo <-> x ∈ candidates_of m g mo \/ x = id /\ (g, mo) = gm.
Proof.
  intros [models Hm]. destruct gm as [g0 mo0]. simpl in Hm. unfold add_candidate. simpl. rewrite Hm. eexists. split; [done|]. split.
  - intros g Hg. rewrite lookup_insert_is_Some. destruct (decide (g0 = g)); auto.
  - intros g mo x. rewrite (candidates_insert m g0 models (fun ms => <[mo0 := default [] (ms !! mo0) ++ [id]]> ms)) by done.
    case_bool_decide as E; [subst|naive_solver]. unfold candidates_of. rewrite Hm. simpl. destruct (decide (mo = mo0)) as [->|].
    + rewrite lookup_insert_eq. simpl. rewrite elem_of_app, list_elem_of_singleton. naive_solver.
    + rewrite lookup_insert_ne by done. naive_solver.
Qed.
Lemma add_pairs_ok id ps m :
  (forall gm, gm ∈ ps -> is_Some (m !! gm.1)) ->
  exists m', foldl (fun m gm => add_candidate id gm m) (Some m) ps = Some m' /\ (forall g, is_Some (m !! g) -> is_Some (m' !! g)) /\
    forall g mo x, x ∈ candidates_of m' g mo <-> x ∈ candidates_of m g mo \/ x = id /\ (g, mo) ∈ ps.
Proof.
  revert m. induction ps as [|gm ps IH]; intros m Hg; [exists m; split_and!; [done..|set_solver]|].
  destruct (add_candidate_ok id gm m) as (m1 & E1 & Hs1 & H1); [apply Hg; by left|]. cbn [foldl]. rewrite E1.
  destruct (IH m1) as (m2 & E2 & Hs2 & H2); [intros gm' ?; apply Hs1, Hg; by right|]. exists m2. split_and!; [done|auto|].
  intros g mo x. rewrite H2, H1, elem_of_cons. tauto.
Qed.
Lemma add_channel_ok c m :
  (forall g mo, c.(c_Status) = ChannelStatusEnabled -> (g, mo) ∈ serves c -> is_Some (m !! g)) ->
  exists m', add_channel (Some m) c = Some m' /\ (forall g, is_Some (m !! g) -> is_Some (m' !! g)) /\
    forall g mo x, x ∈ candidates_of m' g mo <->
      x ∈ candidates_of m g mo \/ x = c.(c_Id) /\ c.(c_Status) = ChannelStatusEnabled /\ (g, mo) ∈ serves c.
Proof.
  intros Hg. unfold add_channel. destruct (Z.eqb_spec c.(c_Status) ChannelStatusEnabled) as [E|E];
    [|exists m; split_and!; [done..|naive_solver]].
  assert (forall g mo, (g, mo) ∈ (group ← Split comma c.(c_Group); model ← GetModels c; mret (group, model)) <-> (g, mo) ∈ serves c) as Hsv.
  { intros g mo. rewrite serves_elem, list_elem_of_bind. setoid_rewrite list_elem_of_bind. setoid_rewrite list_elem_of_ret.
    split; [intros (g' & (m' & [= -> ->] & ?) & ?); done | intros [? ?]; eauto]. }
  destruct (add_pairs_ok c.(c_Id) (group ← Split comma c.(c_Group); model ← GetModels c; mret (group, model)) m) as (m' & E' & Hs & H').
  { intros [g mo] Hin%Hsv. by apply (Hg g mo). }
  exists m'. split_and!; [done..|]. intros g mo x. rewrite H', Hsv. naive_solver.
Qed.
Lemma add_channels_ok l m :
  (forall c g mo, c ∈ l -> c.(c_Status) = ChannelStatusEnabled -> (g, mo) ∈ serves c -> is_Some (m !! g)) ->
  exists m', foldl add_channel (Some m) l = Some m' /\
    forall g mo x, x ∈ candidates_of m' g mo <->
      x ∈ candidates_of m g mo \/ exists c, c ∈ l /\ x = c.(c_Id) /\ c.(c_Status) = ChannelStatusEnabled /\ (g, mo) ∈ serves c.
Proof.
  revert m. induction l as [|c l IH]; intros m Hg; [exists m; split; [done|set_solver]|].
  destruct (add_channel_ok c m) as (m1 & E1 & Hs1 & H1); [intros g mo; apply Hg; by left|]. cbn [foldl]. rewrite E1.
  destruct (IH m1) as (m2 & E2 & H2); [intros d g mo ???; apply Hs1, (Hg d g mo); [by right|done..]|]. exists m2. split; [done|].
  intros g mo x. rewrite H2, H1. setoid_rewrite elem_of_cons. naive_solver.
Qed.
Lemma empty_groups_ok l g mo :
  (is_Some (empty_groups l !! g) <-> exists a, a ∈ l /\ a.(a_Group) = g) /\ candidates_of (empty_groups l) g mo = [].
Proof.
  unfold empty_groups. assert (forall m, (forall g, candidates_of m g mo = []) ->
    (is_Some (foldl (fun m a => <[a.(a_Group) := ∅]> m) m l !! g) <-> is_Some (m !! g) \/ exists a, a ∈ l /\ a.(a_Group) = g) /\
    candidates_of (foldl (fun m a => <[a.(a_Group) := ∅]> m) m l) g mo = []) as Hgen.
  { induction l as [|a l IH]; intros m Hm; [split; [set_solver|apply Hm]|]. cbn [foldl]. destruct (IH (<[a.(a_Group) := ∅]> m)) as [H1 H2].
    - intros g'. unfold candidates_of. destruct (decide (a.(a_Group) = g')) as [<-|]; [by rewrite lookup_insert_eq|].
      rewrite lookup_insert_ne by done. apply Hm.
    - split; [|done]. rewrite H1, lookup_insert_is_Some. setoid_rewrite elem_of_cons. destruct (decide (a.(a_Group) = g)); naive_solver. }
  destruct (Hgen ∅) as [H1 H2]; [done|]. split; [|done]. rewrite H1, lookup_empty, is_Some_alt. naive_solver.
Qed.

(** ** The rebuilt cache *)

Section modes.
Context `{!RouteParams}.

Lemma rows_keyed (m : gmap Z Channel) :
  (forall id c, m !! id = Some c -> c.(c_Id) = id) -> list_to_map ((fun c => (c.(c_Id), c)) <$> rows_of m) = m.
Proof.
  intros Hid. unfold rows_of. rewrite <- list_fmap_compose. rewrite <- (list_to_map_to_list m) at 2. f_equal.
  rewrite <- (list_fmap_id (map_to_list m)) at 2. apply list_fmap_ext. intros i [id c] Hi. simpl.
  apply list_elem_of_lookup_2, elem_of_map_to_list in Hi. by rewrite (Hid id c Hi).
Qed.
Lemma rows_of_elem {K} `{Countable K} {A} (m : gmap K A) a : a ∈ rows_of m <-> exists k, m !! k = Some a.
Proof.
  unfold rows_of. rewrite list_elem_of_fmap. split.
  - intros ([k x] & -> & Hx%elem_of_map_to_list). eauto.
  - intros [k Hk]. exists (k, a). split; [done|]. by apply elem_of_map_to_list.
Qed.

(** Which channels a request may be sent to, from the table of channels. *)
Definition eligible (s : RState) (g mo : string) (id : Z) : Prop :=
  exists c, s.(channels) !! id = Some c /\ c.(c_Status) = ChannelStatusEnabled /\ (g, mo) ∈ serves c.

#[local] Instance by_priority_total idm : Total (by_priority idm).
Proof. intros a b. unfold by_priority. lia. Qed.
#[local] Instance by_priority_trans idm : Transitive (by_priority idm).
Proof. intros a b c. unfold by_priority. lia. Qed.
Lemma build_groups_ok s :
  synced s ->
  exists m, build_groups (rows_of s.(channels)) (rows_of s.(abilities)) s.(channels) = Some m /\
    forall g mo, StronglySorted (by_priority s.(channels)) (candidates_of m g mo) /\ forall id, id ∈ candidates_of m g mo <-> eligible s g mo id.
Proof.
  intros Hs. unfold build_groups.
  destruct (add_channels_ok (rows_of s.(channels)) (empty_groups (rows_of s.(abilities)))) as (m & E & Hm).
  { intros c g mo [id Hc]%rows_of_elem He Hsv. apply (empty_groups_ok _ g mo). exists (ability_of c (g, mo)). split; [|done].
    apply rows_of_elem. exists (g, mo, id). rewrite (sy_abilities s Hs). unfold derived. rewrite Hc. simpl. by rewrite bool_decide_true. }
  rewrite E. eexists. split; [done|]. intros g mo.
  assert (exists l, candidates_of ((fun models : gmap string (list Z) => merge_sort (by_priority s.(channels)) <$> models) <$> m) g mo
      = merge_sort (by_priority s.(channels)) l /\ l = candidates_of m g mo) as (l & -> & ->).
  { unfold candidates_of. rewrite lookup_fmap. destruct (m !! g) as [ms|]; simpl; [|by exists []]. rewrite lookup_fmap.
    destruct (ms !! mo); simpl; [by eexists|by exists []]. }
  split.
  - apply (StronglySorted_merge_sort (by_priority s.(channels))).
  - intros id. rewrite merge_sort_Permutation, Hm. rewrite (proj2 (empty_groups_ok _ g mo)). unfold eligible. split.
    + intros [Hn|(c & [i Hi]%rows_of_elem & -> & Hst & Hsv)]; [by apply not_elem_of_nil in Hn|].
      exists c. rewrite (sy_id s Hs i c Hi). done.
    + intros (c & Hc & Hst & Hsv). right. exists c. split; [apply rows_of_elem; eauto|]. by rewrite (sy_id s Hs id c Hc).
Qed.

Lemma InitChannelCache_ok s :
  synced s -> quiet s -> s.(MemoryCacheEnabled) = true ->
  exists s', InitChannelCache s = (Ok tt, s') /\ same_tables s s' /\ s'.(MemoryCacheEnabled) = true /\
    s'.(channelsIDM) = cached_channel s.(channelsIDM) <$> s.(channels) /\
    forall g mo, StronglySorted (by_priority s.(channels)) (candidates_of s'.(group2model2channels) g mo) /\
      forall id, id ∈ candidates_of s'.(group2model2channels) g mo <-> eligible s g mo id.
Proof.
  intros Hs Hq Hm. destruct (build_groups_ok s Hs) as (m & E & Hc). unfold InitChannelCache, find_all. cbv [bind gets catch ret].
  rewrite Hm. cbn [negb]. rewrite rstmt_ok by done. rewrite rstmt_ok by done. rewrite (rows_keyed _ (sy_id s Hs)), E.
  eexists. split; [done|]. split_and!; done.
Qed.

(** A channel is eligible just when it has an enabled ability. *)
Lemma eligible_ability s g mo id :
  synced s -> eligible s g mo id <-> exists a, s.(abilities) !! (g, mo, id) = Some a /\ a.(a_Enabled) = true.
Proof.
  intros Hs. rewrite (sy_abilities s Hs). unfold eligible, derived. destruct (s.(channels) !! id) as [c|]; simpl; [|naive_solver].
  case_bool_decide; [|naive_solver]. split.
  - intros (d & [= <-] & Hst & _). eexists. split; [done|]. simpl. lia.
  - intros (a & [= <-] & Hen). simpl in Hen. exists c. split_and!; [done|lia|done].
Qed.

(** ** Ranks *)

Lemma same_set_perm (ps qs : list Z) : (forall x, x ∈ ps <-> x ∈ qs) -> remove_dups ps ≡ₚ remove_dups qs.
Proof. intros Hx. apply NoDup_Permutation; [apply NoDup_remove_dups..|]. intros x. by rewrite !elem_of_remove_dups. Qed.
Lemma rank_same_set p ps qs : (forall x, x ∈ ps <-> x ∈ qs) -> rank p ps = rank p qs /\ tiers ps = tiers qs.
Proof. intros Hx%same_set_perm. unfold rank, tiers. by rewrite Hx. Qed.
Lemma rank_inj p q ps : p ∈ ps -> q ∈ ps -> rank p ps = rank q ps -> p = q.
Proof.
  assert (forall p, p ∈ ps -> sorted_priorities ps !! rank p ps = Some p) as Hr.
  { intros x Hx. assert (x ∈ sorted_priorities ps) as [k Hk]%list_elem_of_lookup by by rewrite sorted_priorities_perm, elem_of_remove_dups.
    by destruct (sorted_priorities_lookup _ _ _ Hk) as [-> _]. }
  intros Hp%Hr Hq%Hr E. rewrite E in Hp. congruence.
Qed.

(** ** Routing with and without the cache *)

Lemma cached_same old c :
  (cached_channel old c).(c_Id) = c.(c_Id) /\ GetPriority (cached_channel old c) = GetPriority c /\
  forall model filters, ChannelSatisfiesFilters (Some (cached_channel old c)) model filters = ChannelSatisfiesFilters (Some c) model filters.
Proof. unfold cached_channel. repeat case_match; simplify_eq; repeat split; done. Qed.

(** The rows that pass are those of the eligible channels that satisfy the filters. *)
Lemma passing_rows_elem s g mo filters a :
  synced s -> a ∈ passing_rows s g mo filters <->
  exists c, s.(channels) !! c.(c_Id) = Some c /\ c.(c_Status) = ChannelStatusEnabled /\ (g, mo) ∈ serves c /\
    ChannelSatisfiesFilters (Some c) mo filters = true /\ a = ability_of c (g, mo).
Proof.
  intros Hs. unfold passing_rows, enabled_rows. rewrite list_elem_of_filter, merge_sort_Permutation, list_elem_of_filter, rows_of_elem, Is_true_true. split.
  - intros (Hsat & (Hg & Hmo & Hen) & [[g' mo'] id] & Ha). rewrite (sy_abilities s Hs) in Ha. unfold derived in Ha.
    destruct (s.(channels) !! id) as [c|] eqn:Ec; simpl in Ha; [|done]. case_bool_decide; [|done]. injection Ha as <-.
    simpl in *. subst. pose proof (sy_id s Hs id c Ec) as Ei. rewrite Ei, Ec in Hsat. exists c. rewrite Ei. split_and!; [done|lia|done..].
  - intros (c & Hc & Hst & Hsv & Hsat & ->). simpl. rewrite Hc. split_and!; [done..|lia|]. exists (g, mo, c.(c_Id)).
    rewrite (sy_abilities s Hs). unfold derived. rewrite Hc. simpl. by rewrite bool_decide_true.
Qed.
Lemma lookup_all_total (idm : gmap Z Channel) ids : (forall id, id ∈ ids -> is_Some (idm !! id)) -> exists l, lookup_all idm ids = Some l.
Proof.
  intros Hall. unfold lookup_all. destruct (mapM _ ids) as [l|] eqn:E; [eauto|]. exfalso. apply mapM_None, Exists_exists in E as (id & Hid & Hn).
  destruct (Hall id Hid). congruence.
Qed.
Lemma lookup_all_in idm ids l id c : lookup_all idm ids = Some l -> id ∈ ids -> idm !! id = Some c -> c ∈ l.
Proof.
  intros Hl%mapM_Some [i Hi]%list_elem_of_lookup Hc. destruct (Forall2_lookup_l _ _ _ _ _ Hl Hi) as (d & Hd & Ed).
  assert (d = c) as -> by congruence. by eapply list_elem_of_lookup_2.
Qed.

(** The filtered candidates of a rebuilt cache, as channels of the table. *)
Lemma rebuilt_filter s s1 g mo filters :
  synced s -> quiet s -> s.(MemoryCacheEnabled) = true -> InitChannelCache s = (Ok tt, s1) ->
  let ids := filterCandidateIDs s1.(channelsIDM) (candidates_of s1.(group2model2channels) g mo) mo filters in
  (forall id c, s.(channels) !! id = Some c -> s1.(channelsIDM) !! id = Some (cached_channel s.(channelsIDM) c)) /\
  (forall id c, s.(channels) !! id = Some c -> id ∈ ids <->
     c.(c_Status) = ChannelStatusEnabled /\ (g, mo) ∈ serves c /\ ChannelSatisfiesFilters (Some c) mo filters = true) /\
  (forall id, id ∈ ids -> exists c, s.(channels) !! id = Some c).
Proof.
  intros Hs Hq Hm Hi ids. destruct (InitChannelCache_ok s Hs Hq Hm) as (s' & E & _ & _ & Hidm & Hcand). rewrite Hi in E. injection E as <-.
  assert (forall id c, s.(channels) !! id = Some c -> s1.(channelsIDM) !! id = Some (cached_channel s.(channelsIDM) c)) as Hlook
    by (intros id c Hc; by rewrite Hidm, lookup_fmap, Hc).
  split_and!; [done| |].
  - intros id c Hc. unfold ids. rewrite (filterCandidateIDs_spec _ _ _ _ _ _ (Hlook id c Hc)), (proj2 (Hcand g mo)).
    destruct (cached_same s.(channelsIDM) c) as (_ & _ & ->). unfold eligible. naive_solver.
  - intros id Hid%filterCandidateIDs_subset. apply (proj2 (Hcand g mo)) in Hid as (c & Hc & _). eauto.
Qed.
(** The candidates of a rebuilt cache are the rows that pass. *)
Lemma rebuilt_candidates s s1 g mo filters :
  synced s -> quiet s -> s.(MemoryCacheEnabled) = true -> InitChannelCache s = (Ok tt, s1) -> passing_rows s g mo filters <> [] ->
  exists l, lookup_all s1.(channelsIDM) (cached_candidates s1 g mo filters) = Some l /\ l <> [] /\
    forall p, p ∈ GetPriority <$> l <-> p ∈ ability_priority <$> passing_rows s g mo filters.
Proof.
  intros Hs Hq Hm Hi Hne. destruct (rebuilt_filter s s1 g mo filters Hs Hq Hm Hi) as (Hlook & Hfil & Hin).
  destruct (passing_rows s g mo filters) as [|a rows] eqn:Ep; [done|].
  assert (cached_candidates s1 g mo filters = filterCandidateIDs s1.(channelsIDM) (candidates_of s1.(group2model2channels) g mo) mo filters) as Ecc.
  { assert (a ∈ passing_rows s g mo filters) as Ha by (rewrite Ep; by left). apply (passing_rows_elem s g mo filters a Hs) in Ha as (c & Hc & Hx).
    unfold cached_candidates. case_match eqn:Ef; [|done]. assert (c.(c_Id) ∈ @nil Z) as Hn; [|by apply not_elem_of_nil in Hn].
    apply (Hfil _ c Hc). naive_solver. }
  rewrite Ecc. destruct (lookup_all_total s1.(channelsIDM) _ (fun id Hid => match Hin id Hid with ex_intro _ c Hc => ex_intro _ _ (Hlook id c Hc) end)) as (l & Hl).
  assert (forall p, p ∈ GetPriority <$> l <-> p ∈ ability_priority <$> passing_rows s g mo filters) as Hset.
  { intros p. rewrite !list_elem_of_fmap. setoid_rewrite (passing_rows_elem s g mo filters _ Hs). split.
    - intros (d & -> & Hd). destruct (lookup_all_elem _ _ _ _ Hl Hd) as (id & Hid & Ed). destruct (Hin id Hid) as [c Hc].
      rewrite (Hlook id c Hc) in Ed. injection Ed as <-. apply (Hfil id c Hc) in Hid. destruct (cached_same s.(channelsIDM) c) as (_ & -> & _).
      exists (ability_of c (g, mo)). split; [done|]. exists c. rewrite (sy_id s Hs id c Hc). naive_solver.
    - intros (b & -> & c & Hc & Hst & Hsv & Hsat & ->). exists (cached_channel s.(channelsIDM) c).
      destruct (cached_same s.(channelsIDM) c) as (_ & -> & _). split; [done|]. eapply lookup_all_in; [exact Hl| |by apply Hlook].
      by apply (Hfil _ c Hc). }
  exists l. rewrite <- Ep. split_and!; [done| |done]. intros ->. assert (ability_priority a ∈ @nil Z) as Hn; [|by apply not_elem_of_nil in Hn].
  apply Hset. rewrite Ep. by left.
Qed.

(** ** Administration *)

Inductive admin_op :=
| OpInsert (c : Channel)
| OpBatchInsert (l : list Channel)
| OpUpdate (c : Channel)
| OpDelete (c : Channel)
| OpBatchDelete (ids : list Z)
| OpStatus (id : Z) (key : string) (status : Z) (reason : string)
| OpEnableTag (tag : string)
| OpDisableTag (tag : string)
| OpEditTag (tag : string) (e : TagEdit)
| OpInitCache.
Definition run_op (op : admin_op) : MR unit :=
  match op with
  | OpInsert c => Channel_Insert c
  | OpBatchInsert l => BatchInsertChannels l
  | OpUpdate c => Channel_Update c
  | OpDelete c => Channel_Delete c
  | OpBatchDelete ids => BatchDeleteChannels ids ;; ret tt
  | OpStatus id key status reason => UpdateChannelStatus id key status reason ;; ret tt
  | OpEnableTag tag => EnableChannelByTag tag
  | OpDisableTag tag => DisableChannelByTag tag
  | OpEditTag tag e => EditChannelByTag tag e
  | OpInitCache => InitChannelCache
  end.
(** New rows have new ids, clean lists of models and groups without the separator; an
    edited row exists; a weight set by tag is not 0. *)
Definition admissible (s : RState) (op : admin_op) : Prop :=
  match op with
  | OpInsert c => insertable s c
  | OpBatchInsert l => Forall (insertable s) l /\ NoDup (c_Id <$> l)
  | OpUpdate c => is_Some (s.(channels) !! c.(c_Id)) /\ plain_groups c
  | OpStatus id _ _ _ => id <> 0
  | OpEditTag _ e => plain_edit e
  | _ => True
  end.
Inductive admin : RState -> RState -> Prop :=
| admin_start s : admin s s
| admin_next s s1 s2 op : admin s s1 -> admissible s1 op -> run_op op s1 = (Ok tt, s2) -> admin s s2.

(** One operation: it succeeds and keeps the tables together. *)
Lemma run_op_synced op s :
  synced s -> quiet s -> admissible s op -> exists s', run_op op s = (Ok tt, s') /\ synced s' /\ quiet s'.
Proof.
  intros Hs Hq Ha. destruct op as [c|l|c|c|ids|id key st reason|tag|tag|tag e|]; simpl in *.
  - destruct (synced_insert s c Hs Hq Ha) as (s' & E & H1 & H2 & _). eauto.
  - destruct Ha as [Hl Hn]. rewrite BatchInsertChannels_one_by_one; [by apply mapM_Insert_synced|done|].
    eapply Forall_impl; [exact Hl|]. intros c (_ & E & _). exact E.
  - destruct Ha. by apply Channel_Update_synced.
  - by apply Channel_Delete_synced.
  - destruct (BatchDeleteChannels_synced ids s Hs Hq) as (n & s' & E & H'). exists s'. unfold bind. by rewrite E.
  - destruct (UpdateChannelStatus_synced id key st reason s Hs Hq Ha) as (b & s' & E & H'). exists s'. unfold bind. by rewrite E.
  - by apply EnableChannelByTag_synced.
  - by apply DisableChannelByTag_synced.
  - by apply EditChannelByTag_synced.
  - destruct (MemoryCacheEnabled s) eqn:Em.
    + destruct (InitChannelCache_ok s Hs Hq Em) as (s' & E & Ht & _). exists s'. split_and!; [done|by eapply synced_tables|].
      destruct Ht as (_ & _ & E3). unfold quiet. by rewrite E3.
    + exists s. split_and!; [|done..]. unfold InitChannelCache. cbv [bind gets]. by rewrite Em.
Qed.

(** Deleting the disabled channels leaves their rows behind, all disabled; the rows of
    the channels that remain are exact. *)
Definition orphans_disabled (s : RState) : Prop :=
  forall g mo id, match s.(channels) !! id with
  | Some _ => s.(abilities) !! (g, mo, id) = derived s.(channels) g mo id
  | None => forall a, s.(abilities) !! (g, mo, id) = Some a -> a.(a_Enabled) = false
  end.
Lemma DeleteDisabledChannel_orphans s :
  synced s -> quiet s -> exists n s', DeleteDisabledChannel s = (Ok n, s') /\ orphans_disabled s'.
Proof.
  intros Hs Hq. unfold DeleteDisabledChannel, delete_channels. cbv [bind gets modify ret]. rewrite rstmt_ok by done.
  eexists _, _. split; [done|]. intros g mo id. simpl. unfold derived. rewrite map_lookup_filter, (sy_abilities s Hs).
  unfold derived. destruct (s.(channels) !! id) as [c|]; simpl; [|done]. case_guard as Hg; simpl; [done|].
  intros a. case_bool_decide; [|done]. intros [= <-]. simpl. unfold ChannelStatusEnabled, ChannelStatusAutoDisabled,
    ChannelStatusManuallyDisabled in *. destruct (Z.eqb_spec (c_Status c) 1) as [E|]; [|done]. by rewrite E in Hg.
Qed.

(** C11. The abilities follow the channels: after any sequence of creations, updates,
    deletions by id, status changes, operations by tag and cache rebuilds on a database
    that answers, the table of abilities holds just the rows the table of channels
    prescribes, each with the channel's status, priority, weight and tag, and a further
    operation succeeds.  The sequence is of [admissible] operations: new rows have new
    ids, an updated row exists, lists of models and groups are clean, and no tag is given
    the weight 0, which UpdateAbilityByTag skips.  Deleting all disabled channels, which
    does not look at the abilities, leaves the rows of the deleted channels behind, all
    disabled, and the others exact.  BatchSetChannelTag, which writes old tags into the
    abilities, is not among the operations. *)
Theorem abilities_follow_channels s s' :
  synced s -> quiet s -> admin s s' ->
  (forall g mo id, s'.(abilities) !! (g, mo, id) = derived s'.(channels) g mo id) /\
  (forall op, admissible s' op -> exists s2, run_op op s' = (Ok tt, s2)) /\
  (exists n s2, DeleteDisabledChannel s' = (Ok n, s2) /\ orphans_disabled s2).
Proof.
  intros Hs Hq Ha. assert (synced s' /\ quiet s') as [Hs' Hq'].
  { induction Ha as [s|s s1 s2 op _ IH Hadm E]; [done|]. destruct (IH Hs Hq) as [H1 H2].
    destruct (run_op_synced op s1 H1 H2 Hadm) as (s3 & E3 & H3). rewrite E in E3. by injection E3 as <-. }
  split; [apply (sy_abilities s' Hs')|]. split; [|by apply DeleteDisabledChannel_orphans].
  intros op Hadm. destruct (run_op_synced op s' Hs' Hq' Hadm) as (s2 & E & _). eauto.
Qed.

(** A rebuilt cache is exact: on tables that belong together and a database that
    answers, the rebuild never panics, and a channel is a candidate for a group and model
    just when it has an enabled ability for them; candidates are ordered by priority. *)
Theorem rebuilt_cache_exact s :
  synced s -> quiet s -> s.(MemoryCacheEnabled) = true ->
  exists s', InitChannelCache s = (Ok tt, s') /\ forall g mo,
    StronglySorted (by_priority s.(channels)) (candidates_of s'.(group2model2channels) g mo) /\
    forall id, id ∈ candidates_of s'.(group2model2channels) g mo <->
      exists a, s.(abilities) !! (g, mo, id) = Some a /\ a.(a_Enabled) = true.
Proof.
  intros Hs Hq Hm. destruct (InitChannelCache_ok s Hs Hq Hm) as (s' & E & _ & _ & _ & Hc). exists s'. split; [done|].
  intros g mo. destruct (Hc g mo) as [H1 H2]. split; [done|]. intros id. by rewrite H2, eligible_ability.
Qed.

(** The same database without the memory cache. *)
Definition without_cache (s : RState) : RState :=
  mkRState false s.(channels) s.(abilities) s.(group2model2channels) s.(channelsIDM) s.(r_clock) s.(r_faults).

(** C12. Routing with and without the memory cache serves the same tier: on tables that
    belong together, where an enabled ability for the group and the very name of the
    model passes the filters, a request with a rebuilt cache and one that reads the table of
    abilities both get a channel, each an enabled channel that serves the group and model
    and satisfies the filters, and both of the same priority: the one with as many distinct
    priorities above it as there were retries, or the lowest.  (Without such an ability
    only the cache goes on to look for the normalised name of the model, see
    [normalised_name_cache_only].) *)
Theorem modes_serve_same_tier s s1 g mo filters retry rnd1 rnd2 l :
  let rows := passing_rows s g mo filters in
  synced s -> quiet s -> s.(MemoryCacheEnabled) = true -> InitChannelCache s = (Ok tt, s1) -> rows <> [] -> 0 <= retry ->
  lookup_all s1.(channelsIDM) (cached_candidates s1 g mo filters) = Some l ->
  weights_fit (tier_of retry l) -> 0 <= rnd1 < total_weight (tier_of retry l) ->
  abilities_fit (ability_tier retry rows) -> 0 <= rnd2 < plain_ability_sum (ability_tier retry rows) ->
  exists c1 c2,
    GetRandomSatisfiedChannel rnd1 g mo retry filters s1 = (Ok (Some c1, None), s1) /\
    GetRandomSatisfiedChannel rnd2 g mo retry filters (without_cache s) = (Ok (Some c2, None), without_cache s) /\
    GetPriority c1 = GetPriority c2 /\
    rank (GetPriority c1) (ability_priority <$> rows) = Nat.min (Z.to_nat retry) (tiers (ability_priority <$> rows) - 1) /\
    eligible s g mo c2.(c_Id) /\
    ChannelSatisfiesFilters (Some c1) mo filters = true /\ ChannelSatisfiesFilters (Some c2) mo filters = true.
Proof.
  intros rows Hs Hq Hm Hi Hne Hr Hl Hw Hr1 Ha Hr2.
  destruct (rebuilt_candidates s s1 g mo filters Hs Hq Hm Hi Hne) as (l' & Hl' & Hnl & Hset). rewrite Hl in Hl'. injection Hl' as <-.
  assert (s1.(MemoryCacheEnabled) = true) as Hm1.
  { destruct (InitChannelCache_ok s Hs Hq Hm) as (s' & E & _ & Hm' & _). rewrite Hi in E. by injection E as <-. }
  destruct (cached_selection rnd1 s1 g mo retry filters l Hm1 Hl Hnl Hr Hw Hr1) as (c1 & E1 & Hc1 & Hp1 & Hk1).
  destruct (table_selection rnd2 (without_cache s) g mo retry filters) as (a & c2 & E2 & Ha2 & Hc2 & Hp2 & Hk2); [done..|].
  exists c1, c2. change (passing_rows (without_cache s) g mo filters) with rows in *. cbn [channels without_cache] in Hc2.
  pose proof (rank_same_set (GetPriority c1) _ _ Hset) as [Er Et]. fold rows in Er, Et.
  apply (passing_rows_elem s g mo filters a Hs) in Ha2 as Hx. destruct Hx as (c & Hc & Hst & Hsv & _ & ->).
  assert (c2 = c) as -> by (simpl in Hc2; congruence).
  assert (GetPriority c1 = GetPriority c) as Eq.
  { apply (rank_inj _ _ (ability_priority <$> rows)).
    - apply Hset. by apply list_elem_of_fmap_2.
    - apply list_elem_of_fmap. by exists (ability_of c (g, mo)).
    - rewrite <- Er, Hk1, Et, <- Hk2. done. }
  do 3 (split; [done|]). split; [by rewrite <- Er, Hk1, Et|]. split; [by exists c|done].
Qed.
End modes.

(** ** An example *)

#[local] Instance example_params : RouteParams :=
  {| json_array _ := None; TaskPluginKey _ := ""; SupportsPathForModel _ _ _ := true; BaseModelName n := n |}.
Definition example_channel (id priority weight : Z) : Channel :=
  mkChannel id 1 "k" 1 "c" (Some weight) "m,n" "default,vip" None (Some priority) ∅ None None None None zero_info "" [].
Definition example_empty : RState := mkRState true ∅ ∅ ∅ ∅ 0 [].
Definition example_channels : list Channel := [example_channel 1 0 5; example_channel 2 5 0; example_channel 3 5 3].
Definition example_state : RState := exec (mapM_ Channel_Insert example_channels) example_empty.
Lemma synced_empty b cache idm t : synced (mkRState b ∅ ∅ cache idm t []).
Proof. split; simpl; [intros id c; by rewrite lookup_empty..|]. intros g mo id. unfold derived. by rewrite !lookup_empty. Qed.
Lemma example_synced : synced example_state /\ quiet example_state.
Proof.
  destruct (mapM_Insert_synced example_channels example_empty) as (s' & E & Hs & Hq).
  - apply synced_empty.
  - done.
  - repeat constructor; (split; [done|]; split; [done|]); repeat constructor.
  - apply (bool_decide_unpack _). vm_compute. exact I.
  - unfold example_state, exec. by rewrite E.
Qed.

Lemma modes_serve_same_tier_witness :
  exists c1 c2, GetRandomSatisfiedChannel 3 "vip" "m" 1 [] (exec InitChannelCache example_state)
    = (Ok (Some c1, None), exec InitChannelCache example_state) /\
  GetRandomSatisfiedChannel 3 "vip" "m" 1 [] (without_cache example_state) = (Ok (Some c2, None), without_cache example_state) /\
  GetPriority c1 = GetPriority c2.
Proof.
  destruct example_synced as [Hs Hq].
  destruct (modes_serve_same_tier example_state (exec InitChannelCache example_state) "vip" "m" [] 1 3 3
    [example_channel 3 5 3; example_channel 2 5 0; example_channel 1 0 5])
    as (c1 & c2 & H1 & H2 & H3 & _).
  - exact Hs.
  - exact Hq.
  - vm_compute. reflexivity.
  - vm_compute. reflexivity.
  - vm_compute. discriminate.
  - lia.
  - vm_compute. reflexivity.
  - split; [repeat constructor; vm_compute; discriminate | vm_compute; discriminate].
  - vm_compute. split; [discriminate|reflexivity].
  - split; [repeat constructor; vm_compute; discriminate | vm_compute; discriminate].
  - vm_compute. split; [discriminate|reflexivity].
  - exists c1, c2. split; [exact H1|]. split; [exact H2|exact H3].
Defined.

(** A request for gpt-4-gizmo-x finds the channel of the whole family with the memory cache, and none
    without it. *)
Example normalised_name_cache_only :
  let c := mkChannel 1 1 "k" 1 "c" None "gpt-4-gizmo-*" "default" None None ∅ None None None None zero_info "" [] in
  let s := exec (Channel_Insert c) example_empty in
  (exists d, (GetRandomSatisfiedChannel 3 "default" "gpt-4-gizmo-x" 0 [] (exec InitChannelCache s)).1 = Ok (Some d, None) /\ d.(c_Id) = 1) /\
  (GetRandomSatisfiedChannel 3 "default" "gpt-4-gizmo-x" 0 [] (without_cache s)).1 = Ok (None, None).
Proof. split; [eexists; split; vm_compute; reflexivity|vm_compute; reflexivity]. Qed.

Lemma abilities_follow_channels_witness :
  let op := OpStatus 3 "" 3 "timeout" in
  let s1 := exec (run_op op) example_state in
  s1.(abilities) !! ("vip"%string, "m"%string, 3) = derived s1.(channels) "vip" "m" 3 /\
  exists s2, run_op (OpEnableTag "t") s1 = (Ok tt, s2).
Proof.
  destruct example_synced as [Hs Hq]. intros op s1.
  assert (run_op op example_state = (Ok tt, s1)) as E by (vm_compute; reflexivity).
  assert (admissible example_state op) as Ha by discriminate.
  destruct (abilities_follow_channels example_state s1 Hs Hq (admin_next _ _ _ op (admin_start _) Ha E)) as (H1 & H2 & _).
  split; [apply H1|]. apply H2. exact I.
Defined.
Lemma rebuilt_cache_exact_witness :
  exists s', InitChannelCache example_state = (Ok tt, s') /\ forall id, id ∈ candidates_of s'.(group2model2channels) "vip" "m" <->
    exists a, example_state.(abilities) !! ("vip"%string, "m"%string, id) = Some a /\ a.(a_Enabled) = true.
Proof.
  destruct example_synced as [Hs Hq].
  destruct (rebuilt_cache_exact example_state Hs Hq) as (s' & E & H); [vm_compute; reflexivity|].
  exists s'. split; [exact E|]. apply H.
Defined.
