(* ===== verification/ChannelRepair.v ===== *)
(** * Repair of the abilities, tags in batches, and the check of affinity (theorems on
    Channel and ChannelCache) *)

From stdpp Require Import base tactics numbers list gmap strings pretty sorting.
From Stdlib Require Import ZArith Lia.
From S2P Require Import Prelude Float64 QuotaMath World Task Channel ChannelCache ChannelLaws ChannelSync ChannelModes.
Open Scope Z_scope.

(** ** Rebuilding the table *)

Definition add_rows (c : Channel) (m : gmap (string * string * Z) Ability) : gmap (string * string * Z) Ability :=
  foldl insert_ability m (ability_of c <$> dedup [] (serves c)).
Definition clean_models (c : Channel) : Prop := Split comma c.(c_Models) = GetModels c.

(** The rows of the channels [done] are there and no others. *)
Definition rebuilt (chans : gmap Z Channel) (done : list Z) (m : gmap (string * string * Z) Ability) : Prop :=
  forall g mo id, m !! (g, mo, id) = if bool_decide (id ∈ done) then derived chans g mo id else None.
Lemma rebuilt_add chans done m c :
  rebuilt chans done m -> chans !! c.(c_Id) = Some c -> plain_groups c -> c.(c_Id) ∉ done -> rebuilt chans (done ++ [c.(c_Id)]) (add_rows c m).
Proof.
  intros Hm Hc Hp Hn g mo id. unfold add_rows. rewrite insert_abilities_lookup, Hm.
  rewrite (bool_decide_ext (id ∈ done ++ [c.(c_Id)]) (id ∈ done \/ id = c.(c_Id))) by (rewrite elem_of_app, list_elem_of_singleton; done).
  destruct (decide (id = c.(c_Id))) as [->|Hne].
  - rewrite (bool_decide_false (c.(c_Id) ∈ done)) by done. rewrite (bool_decide_true (_ \/ _)) by by right. unfold derived. rewrite Hc.
    rewrite (bool_decide_ext (_ /\ _) ((g, mo) ∈ serves c)) by (rewrite (serves_dedup c _ Hp); tauto). done.
  - rewrite (bool_decide_ext (_ \/ _) (id ∈ done)) by tauto. rewrite (bool_decide_false (_ /\ _)) by tauto.
    case_bool_decide; [by destruct (derived chans g mo id)|done].
Qed.
Lemma rebuilt_delete chans done m (p : Z -> bool) :
  rebuilt chans done m -> (forall id, p id = true -> id ∉ done) ->
  rebuilt chans done (filter (fun kv : string * string * Z * Ability => Is_true (negb (p kv.1.2))) m).
Proof.
  intros Hm Hp g mo id. rewrite delete_rows_lookup, Hm. destruct (p id) eqn:E; [|done]. rewrite bool_decide_false by auto. done.
Qed.

Lemma fix_chunk_ok l count s chans done :
  quiet s -> Forall (fun c => chans !! c.(c_Id) = Some c /\ plain_groups c /\ clean_models c) l -> NoDup (c_Id <$> l) ->
  (forall c, c ∈ l -> c.(c_Id) ∉ done) -> rebuilt chans done s.(abilities) ->
  exists f, fix_chunk l count s = (Ok (count.1 + Z.of_nat (length l), count.2), set_abilities f s) /\
    rebuilt chans (done ++ (c_Id <$> l)) (f s.(abilities)).
Proof.
  revert count s done. induction l as [|c l IH]; intros count s done Hq Hl Hn Hd Hr.
  { exists (fun m => m). rewrite set_abilities_id. simpl. rewrite Z.add_0_r, app_nil_r. by destruct count. }
  apply Forall_cons in Hl as [(Hc & Hp & Hcl) Hl]. rewrite fmap_cons in Hn. apply NoDup_cons in Hn as [Hnc Hn].
  cbn [fix_chunk]. unfold bind, catch. rewrite AddAbilities_ok by done.
  destruct (IH (count.1 + 1, count.2) (set_abilities (add_rows c) s) (done ++ [c.(c_Id)])) as (f & Ef & Hf); [done..| | |].
  - intros d Hdl. rewrite elem_of_app, list_elem_of_singleton. intros [Hin|E]; [by apply (Hd d); [right|]|].
    apply Hnc. rewrite <- E. by apply list_elem_of_fmap_2.
  - simpl. apply rebuilt_add; [done..|]. apply Hd. by left.
  - exists (fun m => f (add_rows c m)). unfold add_rows in *. rewrite Ef. cbn [fst snd]. split.
    + f_equal. f_equal. f_equal. cbn [length]. lia.
    + rewrite <- app_assoc in Hf. exact Hf.
Qed.
Definition of_chunk (ch : list Channel) (id : Z) : bool := bool_decide (id ∈ c_Id <$> ch).
Lemma fix_chunks_ok cs count s chans done :
  quiet s -> Forall (fun c => chans !! c.(c_Id) = Some c /\ plain_groups c /\ clean_models c) (mjoin cs) -> NoDup (c_Id <$> mjoin cs) ->
  (forall c, c ∈ mjoin cs -> c.(c_Id) ∉ done) -> rebuilt chans done s.(abilities) ->
  exists f, fix_chunks cs count s = (Ok (count.1 + Z.of_nat (length (mjoin cs)), count.2), set_abilities f s) /\
    rebuilt chans (done ++ (c_Id <$> mjoin cs)) (f s.(abilities)).
Proof.
  revert count s done. induction cs as [|ch cs IH]; intros count s done Hq Hl Hn Hd Hr.
  { exists (fun m => m). rewrite set_abilities_id. simpl. rewrite Z.add_0_r, app_nil_r. by destruct count. }
  cbn [mjoin list_join] in *. apply Forall_app in Hl as [Hl1 Hl2]. rewrite fmap_app in Hn. apply NoDup_app in Hn as (Hn1 & Hdis & Hn2).
  cbn [fix_chunks]. unfold bind at 1, catch at 1. rewrite delete_abilities_ok by done. unfold bind at 1.
  match goal with |- context [fix_chunk ch count ?x] => set (s1 := x) end.
  destruct (fix_chunk_ok ch count s1 chans done) as (f & Ef & Hf); [done..| | |].
  - intros c Hc. apply Hd. rewrite elem_of_app. by left.
  - apply (rebuilt_delete chans done s.(abilities) (of_chunk ch) Hr). intros id Hid%bool_decide_eq_true.
    apply list_elem_of_fmap in Hid as (c & -> & Hc). apply Hd. rewrite elem_of_app. by left.
  - rewrite Ef. destruct (IH (count.1 + Z.of_nat (length ch), count.2) (set_abilities f s1) (done ++ (c_Id <$> ch))) as (f2 & Ef2 & Hf2); [done..| |exact Hf|].
    + intros c Hc. rewrite elem_of_app. intros [Hin|Hin]; [apply (Hd c); [rewrite elem_of_app; by right|done]|].
      apply (Hdis c.(c_Id) Hin). by apply list_elem_of_fmap_2.
    + exists (fun m => f2 (f (filter (fun kv : string * string * Z * Ability => Is_true (negb (bool_decide (kv.1.2 ∈ c_Id <$> ch)))) m))).
      rewrite Ef2. cbn [fst snd]. split; [|rewrite fmap_app, app_assoc; exact Hf2]. rewrite length_app, Nat2Z.inj_add, Z.add_assoc. done.
Qed.

Section repair.
Context `{!RouteParams}.

Lemma rows_of_ids (m : gmap Z Channel) : (forall id c, m !! id = Some c -> c.(c_Id) = id) -> NoDup (c_Id <$> rows_of m) /\ forall id, id ∈ c_Id <$> rows_of m <-> is_Some (m !! id).
Proof.
  intros Hid. assert (c_Id <$> rows_of m = (map_to_list m).*1) as E.
  { unfold rows_of. rewrite <- list_fmap_compose. apply list_fmap_ext. intros i [id c] Hi. simpl.
    apply list_elem_of_lookup_2, elem_of_map_to_list in Hi. by apply Hid. }
  rewrite E. split; [apply NoDup_fst_map_to_list|]. intros id. rewrite list_elem_of_fmap. split.
  - intros ([i c] & -> & Hc%elem_of_map_to_list). eauto.
  - intros [c Hc]. exists (id, c). split; [done|]. by apply elem_of_map_to_list.
Qed.

Lemma InitChannelCache_tables s : synced s -> quiet s -> exists s', InitChannelCache s = (Ok tt, s') /\ same_tables s s'.
Proof.
  intros Hs Hq. destruct s.(MemoryCacheEnabled) eqn:Em.
  - destruct (InitChannelCache_ok s Hs Hq Em) as (s' & E & Ht & _). eauto.
  - exists s. split; [|done]. unfold InitChannelCache. cbv [bind gets]. by rewrite Em.
Qed.

(** The repair works: whatever the table of abilities held, on a database that answers
    it is rebuilt to just what the table of channels prescribes, every channel counted as
    a success; only a repair that is already running is refused. *)
Theorem FixAbility_restores s :
  s.(r_faults) = [] ->
  (forall id c, s.(channels) !! id = Some c -> c.(c_Id) = id /\ plain_groups c /\ clean_models c) ->
  exists s', FixAbility false s = (Ok (Z.of_nat (size s.(channels)), 0), s') /\ s'.(channels) = s.(channels) /\
    (forall g mo id, s'.(abilities) !! (g, mo, id) = derived s'.(channels) g mo id) /\
    FixAbility true s = (Err (RErrMsg "a repair is already running"), s).
Proof.
  intros Hq Hrows. destruct (rows_of_ids s.(channels)) as [Hnd Hids]; [intros id c Hc; by apply (Hrows id c)|].
  set (s0 := set_abilities (fun _ => ∅) s). unfold FixAbility, bind at 1. rewrite rstmt_ok by done. unfold bind at 1, modify at 1. fold s0.
  unfold bind at 1. rewrite rstmt_ok by done. unfold bind at 1, gets at 1. change (channels s0) with (channels s).
  destruct (fix_chunks_ok (Chunk 50 (rows_of s.(channels))) (0, 0) s0 s.(channels) []) as (f & Ef & Hf).
  - done.
  - rewrite Chunk_concat by lia. apply Forall_forall. intros c [id Hc]%rows_of_elem. destruct (Hrows id c Hc) as (-> & Hp & Hcl). done.
  - by rewrite Chunk_concat by lia.
  - intros c _. apply not_elem_of_nil.
  - intros g mo id. simpl. by rewrite lookup_empty.
  - rewrite Chunk_concat in Hf by lia. rewrite Chunk_concat in Ef by lia. cbn [app] in Hf.
    assert (length (rows_of s.(channels)) = size s.(channels)) as El by (unfold rows_of; by rewrite length_fmap, length_map_to_list).
    assert (synced (set_abilities f s0)) as Hs.
    { split; [intros id c Hc; by apply (Hrows id c)..|]. intros g mo id. etransitivity; [exact (Hf g mo id)|]. case_bool_decide as Hin; [done|].
      rewrite Hids in Hin. unfold derived. change (channels (set_abilities f s0)) with (channels s).
      destruct (s.(channels) !! id) eqn:E; [|done]. destruct Hin. by eexists. }
    destruct (rows_of s.(channels)) as [|c0 l0] eqn:Er.
    + exists s0. simpl in El. rewrite <- El. split_and!; [done..| |done]. intros g mo id. simpl. rewrite lookup_empty. unfold derived.
      destruct (s.(channels) !! id) eqn:E; [|done]. exfalso. apply (not_elem_of_nil id). apply Hids. by eexists.
    + unfold bind at 1. rewrite Ef. unfold bind at 1. destruct (InitChannelCache_tables (set_abilities f s0) Hs Hq) as (s' & -> & Ht).
      pose proof (synced_tables _ _ Ht Hs) as Hs'. destruct Ht as (Et & _). exists s'. rewrite <- El. split_and!; [done..|apply (sy_abilities s' Hs')|done].
Qed.

(** ** Tags in batches *)

Lemma mapM_update_ok l s :
  quiet s -> mapM_ update_abilities_tx l s = (Ok tt, set_abilities (fun m => foldl (fun m c => rewrite_rows c m) m l) s).
Proof.
  revert s. induction l as [|c l IH]; intros s Hq; [by destruct s|]. cbn [mapM_ foldl]. unfold bind at 1.
  unfold update_abilities_tx, DeleteAbilities, bind at 1. rewrite delete_abilities_ok by done. rewrite create_chunks_ok by done. by rewrite IH.
Qed.
(** The tags of the channels change; the rows of the abilities are written from the old ones. *)
Lemma BatchSetChannelTag_effect ids tag s :
  synced s -> quiet s ->
  exists s', BatchSetChannelTag ids tag s = (Ok tt, s') /\ quiet s' /\ s'.(abilities) = s.(abilities) /\
    s'.(channels) = (fun c => if bool_decide (c.(c_Id) ∈ ids) then set_c_Tag (fun _ => tag) c else c) <$> s.(channels).
Proof.
  intros Hs Hq. set (s1 := set_channels (fmap (fun c => if bool_decide (c.(c_Id) ∈ ids) then set_c_Tag (fun _ => tag) c else c)) s).
  exists (set_abilities (fun m => foldl (fun m c => rewrite_rows c m) m (rows_with_ids ids s.(channels))) s1). split_and!; [|done| |done].
  - unfold BatchSetChannelTag, bind at 1, gets at 1. apply RTransaction_ok; [done| |done]. unfold bind. rewrite update_channels_ok by done.
    fold s1. rewrite rstmt_ok by done. by rewrite mapM_update_ok.
  - apply map_eq. intros [[g mo] id]. change (abilities (set_abilities ?f s1)) with (f (abilities s)). cbv beta.
    rewrite (rewrite_all_lookup s.(channels)).
    + case_bool_decide; [|done]. symmetry. apply (sy_abilities s Hs).
    + intros c [_ Hc]%list_elem_of_filter. apply rows_of_elem in Hc as [i Hi]. rewrite (sy_id s Hs i c Hi). split; [done|by apply (sy_plain s Hs i)].
Qed.

(** A batch of tags does not reach the abilities: the channels are read through the
    global handle while the transaction that sets the tag is open, so their abilities are
    rewritten with the old tag; disabling the new tag then disables the channel but leaves
    its abilities enabled, and routing from the table still offers it. *)
Theorem batch_tag_escapes_disabling ids tag s id c g mo :
  synced s -> s.(r_faults) = [] -> s.(channels) !! id = Some c -> id ∈ ids -> c.(c_Status) = ChannelStatusEnabled ->
  c.(c_Tag) <> Some tag -> (g, mo) ∈ serves c ->
  exists s1 s2 c2, BatchSetChannelTag ids (Some tag) s = (Ok tt, s1) /\ DisableChannelByTag tag s1 = (Ok tt, s2) /\
    s2.(channels) !! id = Some c2 /\ c2.(c_Tag) = Some tag /\ c2.(c_Status) = ChannelStatusManuallyDisabled /\
    s2.(abilities) !! (g, mo, id) = Some (ability_of c (g, mo)) /\ ability_of c (g, mo) ∈ passing_rows s2 g mo [].
Proof.
  intros Hs Hq Hc Hin Hst Htag Hsv. destruct (BatchSetChannelTag_effect ids (Some tag) s Hs Hq) as (s1 & E1 & Hq1 & Ha1 & Hc1).
  exists s1. unfold DisableChannelByTag, UpdateAbilityStatusByTag, bind. rewrite update_channels_ok, update_abilities_ok by done.
  pose proof (sy_id s Hs id c Hc) as Ei. do 2 eexists. split; [exact E1|]. split; [done|]. simpl. rewrite Hc1, !lookup_fmap, Hc. simpl.
  rewrite Ei, bool_decide_true by done. unfold has_tag at 1. simpl. rewrite bool_decide_true by done. split_and!; [done..| |].
  - rewrite ?lookup_fmap, Ha1, (sy_abilities s Hs). unfold derived. rewrite Hc. simpl. rewrite bool_decide_true by done. simpl.
    unfold has_tag. by rewrite bool_decide_false.
  - unfold passing_rows, enabled_rows. simpl. apply list_elem_of_filter. rewrite merge_sort_Permutation. split.
    + simpl. rewrite Hc1, Ei, !lookup_fmap, Hc. done.
    + apply list_elem_of_filter. split; [simpl; split_and!; [done..|lia]|]. apply rows_of_elem. exists (g, mo, id). simpl.
      rewrite lookup_fmap, Ha1, (sy_abilities s Hs). unfold derived. rewrite Hc. simpl. rewrite bool_decide_true by done. simpl.
      unfold has_tag. by rewrite bool_decide_false.
Qed.

(** ** The check of affinity *)

Lemma ability_enabled_ok g mo id s :
  synced s -> quiet s -> exists b, ability_enabled g mo id s = (Ok b, s) /\ (b = true <-> eligible s g mo id).
Proof.
  intros Hs Hq. unfold ability_enabled. cbv [bind catch gets]. rewrite rstmt_ok by done. eexists. split; [done|].
  rewrite (eligible_ability s g mo id Hs). destruct (s.(abilities) !! (g, mo, id)) as [a|]; naive_solver.
Qed.
(** A channel serves a model by its own name or by the normalised one. *)
Definition serves_by_name (s : RState) (g mo : string) (id : Z) : Prop :=
  g <> ""%string /\ mo <> ""%string /\ 0 < id /\
  (eligible s g mo id \/ (RoutingMatchModelName mo <> ""%string /\ eligible s g (RoutingMatchModelName mo) id)).

(** The affinity check gives the same answer from a rebuilt cache and from the table. *)
Theorem enabled_check_agrees s s1 g mo id :
  synced s -> quiet s -> s.(MemoryCacheEnabled) = true -> InitChannelCache s = (Ok tt, s1) ->
  exists b, IsChannelEnabledForGroupModel g mo id s1 = (Ok b, s1) /\
    IsChannelEnabledForGroupModel g mo id (without_cache s) = (Ok b, without_cache s) /\ (b = true <-> serves_by_name s g mo id).
Proof.
  intros Hs Hq Hm Hi. destruct (InitChannelCache_ok s Hs Hq Hm) as (s' & E & _ & Hm1 & _ & Hc). rewrite Hi in E. injection E as <-.
  unfold IsChannelEnabledForGroupModel, serves_by_name.
  destruct (String.eqb_spec g "") as [->|Hg]; [exists false; split_and!; [done..|naive_solver]|].
  destruct (String.eqb_spec mo "") as [->|Hmo]; [exists false; split_and!; [done..|naive_solver]|].
  destruct (Z.leb_spec id 0) as [Hid|Hid]; [exists false; split_and!; [done..|]; split; [done|lia]|]. cbn [orb].
  cbv [bind gets]. rewrite Hm1. cbn [negb without_cache MemoryCacheEnabled]. set (no := RoutingMatchModelName mo).
  assert (synced (without_cache s)) as Hs0 by by eapply synced_tables; [|exact Hs].
  destruct (ability_enabled_ok g mo id (without_cache s) Hs0 Hq) as (b1 & E1 & Hb1). destruct (ability_enabled_ok g no id (without_cache s) Hs0 Hq) as (b2 & E2 & Hb2).
  change (eligible (without_cache s)) with (eligible s) in *.
  assert (bool_decide (id ∈ candidates_of s1.(group2model2channels) g mo) = b1) as ->.
  { apply eq_bool_prop_intro. rewrite !Is_true_true, bool_decide_eq_true, (proj2 (Hc g mo)). by rewrite Hb1. }
  assert (bool_decide (id ∈ candidates_of s1.(group2model2channels) g no) = b2) as ->.
  { apply eq_bool_prop_intro. rewrite !Is_true_true, bool_decide_eq_true, (proj2 (Hc g no)). by rewrite Hb2. }
  eexists. split; [done|]. unfold isChannelEnabledForGroupModelDB. fold no. cbv [bind]. rewrite E1. destruct b1; [simpl; naive_solver|]. cbn [orb].
  destruct (String.eqb_spec no "") as [En|En]; cbn [orb negb andb]; [split; [done|]; naive_solver|].
  destruct (String.eqb_spec no mo) as [Eq|Eq]; cbn [negb andb]; [split; [done|]; rewrite Eq; naive_solver|].
  rewrite E2. split; [done|]. naive_solver.
Qed.
End repair.

(** ** Examples *)

#[local] Existing Instance example_params.
Definition emptied_state : RState := set_abilities (fun _ => ∅) example_state.
Lemma FixAbility_restores_witness :
  exists s', FixAbility false emptied_state = (Ok (3, 0), s') /\ s'.(abilities) !! ("vip"%string, "m"%string, 3) = derived s'.(channels) "vip" "m" 3.
Proof.
  destruct (FixAbility_restores emptied_state) as (s' & E & _ & Ha & _).
  - reflexivity.
  - intros id c Hc. assert (c ∈ example_channels) as Hin.
    { assert (c ∈ rows_of emptied_state.(channels)) as Hr by (apply rows_of_elem; eauto).
      assert (rows_of emptied_state.(channels) ≡ₚ example_channels) as Hp by (vm_compute; solve_Permutation). by rewrite Hp in Hr. }
    destruct example_synced as [Hs _]. split; [exact (sy_id _ Hs id c Hc)|]. split; [exact (sy_plain _ Hs id c Hc)|].
    unfold example_channels in Hin. set_unfold in Hin. destruct Hin as [->|[->|[->|[]]]]; reflexivity.
  - exists s'. split; [exact E|apply Ha].
Defined.
Lemma batch_tag_escapes_disabling_witness :
  exists s1 s2 c2, BatchSetChannelTag [1; 2] (Some "t"%string) example_state = (Ok tt, s1) /\ DisableChannelByTag "t" s1 = (Ok tt, s2) /\
    s2.(channels) !! 2 = Some c2 /\ c2.(c_Status) = ChannelStatusManuallyDisabled /\
    s2.(abilities) !! ("vip"%string, "m"%string, 2) = Some (ability_of (example_channel 2 5 0) ("vip", "m")%string).
Proof.
  destruct (batch_tag_escapes_disabling [1; 2] "t" example_state 2 (example_channel 2 5 0) "vip" "m") as (s1 & s2 & c2 & E1 & E2 & Hc & _ & Hst & Ha & _).
  - apply example_synced.
  - reflexivity.
  - vm_compute. reflexivity.
  - set_solver.
  - reflexivity.
  - discriminate.
  - apply (bool_decide_unpack _). vm_compute. exact I.
  - exists s1, s2, c2. split_and!; assumption.
Defined.
