(* ===== verification/ChannelKeys.v ===== *)
(** * Keys of a channel (theorems on ChannelCache)

    Which key a request gets, the order of polling, and the status of keys. *)

From stdpp Require Import base tactics numbers list gmap strings pretty sorting.
From Stdlib Require Import ZArith Lia.
From S2P Require Import Prelude Float64 QuotaMath World Task Channel ChannelCache ChannelLaws.
Open Scope Z_scope.

(** ** Enabled keys and their tiers *)

Lemma indexes_elem n idx : idx ∈ indexes n <-> 0 <= idx < Z.of_nat n.
Proof.
  unfold indexes. rewrite list_elem_of_fmap. setoid_rewrite elem_of_seq. split; [intros (k & -> & ?); lia|].
  intros H. exists (Z.to_nat idx). lia.
Qed.
Lemma foldl_max_bound l acc : acc <= foldl Z.max acc l /\ forall x, x ∈ l -> x <= foldl Z.max acc l.
Proof.
  revert acc. induction l as [|y l IH]; intros acc; simpl; [split; [lia|by intros x ?%not_elem_of_nil]|].
  destruct (IH (Z.max acc y)) as [H1 H2]. split; [lia|]. intros x [->|Hx]%elem_of_cons; [lia|auto].
Qed.
Lemma foldl_max_attained l acc : foldl Z.max acc l = acc \/ foldl Z.max acc l ∈ l.
Proof.
  revert acc. induction l as [|y l IH]; intros acc; simpl; [by left|]. destruct (IH (Z.max acc y)) as [E|E]; [|right; by right].
  rewrite E. destruct (Z.max_spec acc y) as [[_ ->]|[_ ->]]; [right; left|by left].
Qed.
Lemma priorityOf_nonneg i idx : 0 <= priorityOf i idx.
Proof. unfold priorityOf. lia. Qed.

(** A key is in the serving tier just when it is enabled and no enabled key has a higher
    priority. *)
Lemma tier_idx_elem i n idx :
  idx ∈ tier_idx i n <-> idx ∈ enabled_idx i n /\ forall j, j ∈ enabled_idx i n -> priorityOf i j <= priorityOf i idx.
Proof.
  unfold tier_idx. set (enabled := enabled_idx i n).
  assert ((forall j, j ∈ enabled -> priorityOf i j <= 0) -> idx ∈ enabled <-> idx ∈ enabled /\ forall j, j ∈ enabled -> priorityOf i j <= priorityOf i idx) as Hflat.
  { intros H0. split; [|tauto]. intros Hi. split; [done|]. intros j Hj. specialize (H0 j Hj). pose proof (priorityOf_nonneg i idx). lia. }
  case_bool_decide as Em.
  { apply Hflat. intros j _. unfold priorityOf. rewrite Em, lookup_empty. simpl. lia. }
  destruct (foldl_max_bound (priorityOf i <$> enabled) 0) as [H0 Hb]. set (top := foldl Z.max 0 _) in *.
  assert (forall j, j ∈ enabled -> priorityOf i j <= top) as Hb' by (intros j Hj; apply Hb; by apply list_elem_of_fmap_2).
  destruct (Z.ltb_spec 0 top) as [Hlt|Hge]; [|apply Hflat; intros j Hj; specialize (Hb' j Hj); lia].
  rewrite list_elem_of_filter. split.
  - intros [E Hi]. split; [done|]. intros j Hj. rewrite E. auto.
  - intros [Hi Hmax]. split; [|done]. destruct (foldl_max_attained (priorityOf i <$> enabled) 0) as [E|E]; fold top in E; [lia|].
    apply list_elem_of_fmap in E as (j & Ej & Hj). specialize (Hmax j Hj). specialize (Hb' idx Hi). lia.
Qed.
Lemma tier_idx_nil i n : tier_idx i n = [] <-> enabled_idx i n = [].
Proof.
  split; intros E.
  - destruct (enabled_idx i n) as [|x l] eqn:Ee; [done|]. exfalso. unfold tier_idx in E. rewrite Ee in E. case_bool_decide; [done|].
    destruct (foldl_max_attained (priorityOf i <$> x :: l) 0) as [Et|Et]; [by rewrite Et in E|].
    apply list_elem_of_fmap in Et as (j & Ej & Hj). destruct (0 <? _); [|done].
    assert (j ∈ @nil Z) as Hn; [|by apply not_elem_of_nil in Hn]. rewrite <- E. apply list_elem_of_filter. done.
  - unfold tier_idx. rewrite E. simpl. by case_bool_decide.
Qed.
Lemma enabled_idx_elem i n idx : idx ∈ enabled_idx i n <-> 0 <= idx < Z.of_nat n /\ getStatus i idx = ChannelStatusEnabled.
Proof. unfold enabled_idx. rewrite list_elem_of_filter, indexes_elem. tauto. Qed.

(** ** Polling *)

Lemma poll_order_lookup r n j : poll_order r n !! j = if bool_decide (j < n)%nat then Some ((r + Z.of_nat j) mod Z.of_nat n) else None.
Proof.
  unfold poll_order, indexes. rewrite !list_lookup_fmap. case_bool_decide.
  - rewrite lookup_seq_lt by done. done.
  - rewrite lookup_seq_ge by lia. done.
Qed.
Lemma poll_order_length r n : length (poll_order r n) = n.
Proof. unfold poll_order, indexes. by rewrite !length_fmap, length_seq. Qed.
(** Starting further on rotates the order. *)
Lemma poll_order_rotate r n k :
  (k < n)%nat -> poll_order ((r + Z.of_nat k + 1) mod Z.of_nat n) n = drop (S k) (poll_order r n) ++ take (S k) (poll_order r n).
Proof.
  intros Hk. apply list_eq. intros j. rewrite poll_order_lookup. destruct (decide (j < n - S k)%nat) as [Hj|Hj].
  - rewrite lookup_app_l by (rewrite length_drop, poll_order_length; lia). rewrite lookup_drop, poll_order_lookup, !bool_decide_true by lia.
    rewrite Zplus_mod_idemp_l. f_equal. f_equal. lia.
  - rewrite lookup_app_r by (rewrite length_drop, poll_order_length; lia). rewrite length_drop, poll_order_length.
    case_bool_decide as Hn.
    + rewrite lookup_take_lt, poll_order_lookup, bool_decide_true by lia. rewrite Zplus_mod_idemp_l. f_equal.
      replace (r + Z.of_nat k + 1 + Z.of_nat j) with (r + Z.of_nat (j - (n - S k)) + 1 * Z.of_nat n) by lia. by rewrite Z.mod_add by lia.
    + symmetry. apply lookup_ge_None_2. rewrite length_take, poll_order_length. lia.
Qed.
Lemma poll_order_0 n : poll_order 0 n = indexes n.
Proof.
  apply list_eq. intros j. rewrite poll_order_lookup. unfold indexes. rewrite list_lookup_fmap. case_bool_decide.
  - rewrite lookup_seq_lt by done. simpl. by rewrite Z.mod_small by lia.
  - rewrite lookup_seq_ge by lia. done.
Qed.
Lemma poll_order_perm r n : 0 <= r < Z.of_nat n -> poll_order r n ≡ₚ indexes n.
Proof.
  intros Hr. destruct (decide (r = 0)) as [->|Hne]; [by rewrite poll_order_0|].
  pose proof (poll_order_rotate 0 n (Z.to_nat r - 1)) as E. rewrite Z.mod_small in E by lia.
  replace (0 + Z.of_nat (Z.to_nat r - 1) + 1) with r in E by lia. rewrite E by lia. rewrite Permutation_app_comm, take_drop. by rewrite poll_order_0.
Qed.

(** The keys a poll from [r] hands out, in order. *)
Definition poll_round (i : ChannelInfo) (r : Z) (n : nat) : list Z :=
  filter (fun idx => getStatus i idx = ChannelStatusEnabled /\ idx ∈ tier_idx i n) (poll_order r n).
Lemma tier_idx_filter i n : filter (fun idx => getStatus i idx = ChannelStatusEnabled /\ idx ∈ tier_idx i n) (indexes n) ≡ₚ tier_idx i n.
Proof.
  assert (NoDup (indexes n)) as Hn by (unfold indexes; apply NoDup_fmap_2; [apply _|apply NoDup_seq]).
  apply NoDup_Permutation.
  - by apply NoDup_filter.
  - unfold tier_idx, enabled_idx. repeat case_match; repeat apply NoDup_filter; done.
  - intros x. rewrite list_elem_of_filter, indexes_elem. split; [tauto|]. intros Hx. pose proof Hx as [He _]%tier_idx_elem.
    apply enabled_idx_elem in He. tauto.
Qed.
Lemma poll_round_perm i r n : 0 <= r < Z.of_nat n -> poll_round i r n ≡ₚ tier_idx i n.
Proof. intros Hr. unfold poll_round. rewrite poll_order_perm by done. apply tier_idx_filter. Qed.

Lemma filter_split {A} (P : A -> Prop) `{!forall x, Decision (P x)} l x rest :
  filter P l = x :: rest -> exists k, l !! k = Some x /\ P x /\ filter P (take k l) = [] /\ filter P (drop (S k) l) = rest.
Proof.
  induction l as [|y l IH]; intros E; [done|]. rewrite filter_cons in E. case_decide as Hy.
  - injection E as <- <-. exists 0%nat. done.
  - destruct (IH E) as (k & H1 & H2 & H3 & H4). exists (S k). split_and!; [done..| |done]. cbn [take]. by rewrite filter_cons_False.
Qed.
(** The next poll starts behind the key that was handed out. *)
Lemma poll_round_next i r n x rest :
  poll_round i r n = x :: rest -> poll_round i ((x + 1) mod Z.of_nat n) n = rest ++ [x].
Proof.
  intros E. unfold poll_round in *. destruct (filter_split _ _ _ _ E) as (k & Hk & HP & Ht & Hd).
  rewrite poll_order_lookup in Hk. case_bool_decide as Hkn; [|done]. injection Hk as <-. rewrite Zplus_mod_idemp_l.
  rewrite poll_order_rotate by done. rewrite filter_app, Hd. f_equal.
  assert (poll_order r n !! k = Some ((r + Z.of_nat k) mod Z.of_nat n)) as Hl by by rewrite poll_order_lookup, bool_decide_true.
  rewrite (take_S_r _ _ _ Hl), filter_app, Ht. rewrite filter_cons_True by done. done.
Qed.

(** ** Requests for a key *)

Section keys.
Context `{!RouteParams}.

(** A channel of the memory cache that polls. *)
Record polling (id : Z) (c : Channel) (s : RState) : Prop := mk_polling {
  po_memory : s.(MemoryCacheEnabled) = true;
  po_cached : s.(channelsIDM) !! id = Some c;
  po_id : c.(c_Id) = id;
  po_multi : c.(c_Info).(IsMultiKey) = true;
  po_mode : c.(c_Info).(MultiKeyMode) = MultiKeyModePolling
}.
Definition round_of (c : Channel) : list Z :=
  let n := length (GetKeys c) in poll_round c.(c_Info) (clamp_start c.(c_Info).(MultiKeyPollingIndex) n) n.
Definition moved (x : Z) (c : Channel) : Channel :=
  set_c_Info (set_MultiKeyPollingIndex (fun _ => (x + 1) mod Z.of_nat (length (GetKeys c)))) c.

Lemma clamp_start_range r n : (0 < n)%nat -> 0 <= clamp_start r n < Z.of_nat n.
Proof. intros Hn. unfold clamp_start. destruct (r <? 0) eqn:E1, (Z.of_nat n <=? r) eqn:E2; simpl; lia. Qed.
Lemma round_of_perm c : GetKeys c <> [] -> round_of c ≡ₚ tier_idx c.(c_Info) (length (GetKeys c)).
Proof. intros Hk. apply poll_round_perm, clamp_start_range. destruct (GetKeys c); [done|simpl; lia]. Qed.
Lemma round_of_moved c x rest : GetKeys c <> [] -> round_of c = x :: rest -> round_of (moved x c) = rest ++ [x].
Proof.
  intros Hk E. apply poll_round_next in E. unfold round_of. change (GetKeys (moved x c)) with (GetKeys c).
  assert (0 < Z.of_nat (length (GetKeys c))) as Hn by (destruct (GetKeys c); [done|simpl; lia]). simpl.
  pose proof (Z.mod_pos_bound (x + 1) _ Hn) as Hb. unfold clamp_start. replace (_ <? 0) with false by lia. replace (_ <=? _) with false by lia. exact E.
Qed.

Lemma next_key_poll rnd id c s x rest :
  polling id c s -> round_of c = x :: rest ->
  next_key_cached rnd id s = (Ok (key_at (GetKeys c) x, x), set_channelsIDM (insert id (moved x c)) s).
Proof.
  intros [Hm Hc Hid Hmu Hmo] E. unfold next_key_cached, CacheGetChannel, GetNextEnabledKey, CacheGetChannelInfo, CacheGetChannel.
  cbv [bind gets ret]. rewrite Hm. cbn [negb]. rewrite Hc, Hmu. cbn [negb]. unfold round_of, poll_round in E.
  destruct (GetKeys c) as [|k0 keys] eqn:Ek; [simpl in E; done|].
  assert (x ∈ tier_idx c.(c_Info) (length (k0 :: keys))) as Hx.
  { assert (x ∈ x :: rest) as Hin by left. rewrite <- E in Hin. apply list_elem_of_filter in Hin. tauto. }
  destruct (tier_idx c.(c_Info) (length (k0 :: keys))) as [|t0 tier] eqn:Et; [by apply not_elem_of_nil in Hx|].
  rewrite Hmo. change (String.eqb MultiKeyModePolling MultiKeyModeRandom) with false. change (String.eqb MultiKeyModePolling MultiKeyModePolling) with true.
  cbn [negb]. rewrite Hid, Hm. cbn [negb]. rewrite Hc. unfold poll_index. rewrite Et, E. cbn [head].
  rewrite Hm. cbn [negb]. unfold moved. by rewrite Ek.
Qed.

(** The indexes of [k] requests in a row. *)
Fixpoint polls (k : nat) (id : Z) : MR (list Z) :=
  match k with
  | O => ret []
  | S k => let! x := next_key_cached 0 id in let! l := polls k id in ret (x.2 :: l)
  end.
Lemma polling_moved id c s x : polling id c s -> polling id (moved x c) (set_channelsIDM (insert id (moved x c)) s).
Proof. intros [Hm Hc Hid Hmu Hmo]. split; [done|simpl; by rewrite lookup_insert_eq|done..]. Qed.
Lemma rotate_lookup {A} (x : A) rest j : (rest ++ [x]) !! (j mod S (length rest))%nat = (x :: rest) !! (S j mod S (length rest))%nat.
Proof.
  pose proof (Nat.mod_upper_bound j (S (length rest)) ltac:(lia)) as Hb. set (m := (j mod S (length rest))%nat) in *.
  assert (S j mod S (length rest) = if decide (m = length rest) then 0 else S m)%nat as ->.
  { rewrite <- (Nat.add_1_r j). rewrite <- Nat.Div0.add_mod_idemp_l. fold m. case_decide as E.
    - rewrite E, Nat.add_1_r. apply Nat.Div0.mod_same.
    - rewrite Nat.add_1_r. apply Nat.mod_small. lia. }
  case_decide as E.
  - rewrite E, lookup_app_r, Nat.sub_diag by lia. done.
  - rewrite lookup_app_l by lia. done.
Qed.
Lemma polls_round k id c s :
  polling id c s -> GetKeys c <> [] -> round_of c <> [] ->
  exists l s', polls k id s = (Ok l, s') /\ length l = k /\ forall j, (j < k)%nat -> l !! j = round_of c !! (j mod length (round_of c))%nat.
Proof.
  revert c s. induction k as [|k IH]; intros c s Hp Hk Hr; [exists [], s; split_and!; [done..|lia]|].
  destruct (round_of c) as [|x rest] eqn:E; [done|]. cbn [polls]. unfold bind at 1. rewrite (next_key_poll 0 id c s x rest Hp E).
  pose proof (round_of_moved c x rest Hk E) as Em.
  destruct (IH (moved x c) _ (polling_moved id c s x Hp)) as (l & s' & El & Hlen & Hl); [done|rewrite Em; by destruct rest|].
  unfold bind. rewrite El. exists (x :: l), s'. split_and!; [done|simpl; lia|]. intros [|j] Hj; [by rewrite Nat.Div0.mod_0_l|].
  cbn [length]. rewrite <- rotate_lookup. simpl. rewrite Hl, Em, length_app, Nat.add_1_r by lia. done.
Qed.

Lemma tier_key c idx :
  idx ∈ tier_idx c.(c_Info) (length (GetKeys c)) ->
  GetKeys c !! Z.to_nat idx = Some (key_at (GetKeys c) idx) /\ getStatus c.(c_Info) idx = ChannelStatusEnabled /\
  forall j, 0 <= j < Z.of_nat (length (GetKeys c)) -> getStatus c.(c_Info) j = ChannelStatusEnabled -> priorityOf c.(c_Info) j <= priorityOf c.(c_Info) idx.
Proof.
  intros [[Hr He]%enabled_idx_elem Hmax]%tier_idx_elem. split_and!; [|done|intros j Hj Hs; apply Hmax, enabled_idx_elem; done].
  unfold key_at. destruct (GetKeys c !! Z.to_nat idx) eqn:E; [done|]. apply lookup_ge_None in E. lia.
Qed.
Lemma poll_index_tier i start n idx : poll_index i start n = Some idx -> idx ∈ tier_idx i n.
Proof.
  unfold poll_index. intros E. assert (idx ∈ filter (fun idx => getStatus i idx = ChannelStatusEnabled /\ idx ∈ tier_idx i n) (poll_order (clamp_start start n) n)) as Hin.
  { destruct (filter _ _); [done|]. injection E as ->. left. }
  apply list_elem_of_filter in Hin. tauto.
Qed.
(** Whatever the mode, an index that is handed out is one of the serving tier. *)
Lemma GetNextEnabledKey_tier rnd c s key idx c' s' :
  c.(c_Info).(IsMultiKey) = true -> GetNextEnabledKey rnd c s = (Ok (key, idx, c'), s') ->
  idx ∈ tier_idx c.(c_Info) (length (GetKeys c)) /\ key = key_at (GetKeys c) idx.
Proof.
  intros Hmu. unfold GetNextEnabledKey. rewrite Hmu. cbn [negb]. destruct (GetKeys c) as [|k0 keys]; [done|].
  destruct (tier_idx c.(c_Info) (length (k0 :: keys))) as [|t0 tier] eqn:Et; [done|].
  destruct (String.eqb _ MultiKeyModeRandom).
  { destruct ((t0 :: tier) !! Z.to_nat rnd) eqn:El; [|done]. intros [= <- <- <- <-]. split; [by eapply list_elem_of_lookup_2|done]. }
  destruct (String.eqb _ MultiKeyModePolling); [|intros [= <- <- <- <-]; split; [by left|done]].
  unfold bind at 1. destruct (CacheGetChannelInfo _ s) as [[info|e] s1]; [|done].
  destruct (poll_index c.(c_Info) _ _) as [idx'|] eqn:Ep.
  - apply poll_index_tier in Ep. rewrite Et in Ep. cbv [bind gets ret catch]. destruct (negb _);
      [destruct (SaveChannelInfo _ s1) as [r s2]|]; intros [= <- <- <- <-]; done.
  - cbv [bind gets ret catch]. destruct (negb _); [destruct (SaveChannelInfo _ s1) as [r s2]|]; intros [= <- <- <- <-]; (split; [by left|done]).
Qed.
Lemma GetNextEnabledKey_total rnd c s :
  c.(c_Info).(IsMultiKey) = true -> tier_idx c.(c_Info) (length (GetKeys c)) <> [] ->
  0 <= rnd < Z.of_nat (length (tier_idx c.(c_Info) (length (GetKeys c)))) ->
  (exists info s1, CacheGetChannelInfo c.(c_Id) s = (Ok info, s1)) ->
  exists key idx c' s', GetNextEnabledKey rnd c s = (Ok (key, idx, c'), s').
Proof.
  intros Hmu Hne Hrnd (info & s1 & Hinfo). unfold GetNextEnabledKey. rewrite Hmu. cbn [negb]. destruct (GetKeys c) as [|k0 keys] eqn:Ek.
  { destruct Hne. by apply tier_idx_nil. }
  destruct (tier_idx c.(c_Info) (length (k0 :: keys))) as [|t0 tier] eqn:Et; [done|].
  destruct (String.eqb _ MultiKeyModeRandom).
  { destruct ((t0 :: tier) !! Z.to_nat rnd) eqn:El; [by do 4 eexists|]. apply lookup_ge_None in El. lia. }
  destruct (String.eqb _ MultiKeyModePolling); [|by do 4 eexists].
  unfold bind at 1. rewrite Hinfo. destruct (poll_index _ _ _); cbv [bind gets ret catch]; (destruct (negb _);
    [destruct (SaveChannelInfo _ s1) as [r s2]|]; by do 4 eexists).
Qed.

(** A channel of several keys hands out a key that serves: one of the channel's keys,
    enabled, and of the highest priority among the enabled ones, in every mode; it fails
    with the error that no key is available just when no key is enabled. *)
Theorem next_key_serves_top_tier rnd c s :
  let i := c.(c_Info) in
  let n := length (GetKeys c) in
  i.(IsMultiKey) = true -> (exists info s1, CacheGetChannelInfo c.(c_Id) s = (Ok info, s1)) ->
  (enabled_idx i n <> [] -> 0 <= rnd < Z.of_nat (length (tier_idx i n))) ->
  if bool_decide (enabled_idx i n = []) then GetNextEnabledKey rnd c s = (Err RErrNoKeys, s)
  else exists key idx c' s', GetNextEnabledKey rnd c s = (Ok (key, idx, c'), s') /\
    GetKeys c !! Z.to_nat idx = Some key /\ getStatus i idx = ChannelStatusEnabled /\
    forall j, 0 <= j < Z.of_nat n -> getStatus i j = ChannelStatusEnabled -> priorityOf i j <= priorityOf i idx.
Proof.
  intros i n Hmu Hinfo Hrnd. case_bool_decide as He.
  - apply tier_idx_nil in He. unfold i, n in *. unfold GetNextEnabledKey. rewrite Hmu. cbn [negb]. destruct (GetKeys c); [done|]. by rewrite He.
  - assert (tier_idx i n <> []) as Ht by by rewrite tier_idx_nil.
    destruct (GetNextEnabledKey_total rnd c s Hmu Ht (Hrnd He) Hinfo) as (key & idx & c' & s' & E). exists key, idx, c', s'.
    destruct (GetNextEnabledKey_tier rnd c s key idx c' s' Hmu E) as [Hin ->]. split; [done|]. by apply tier_key.
Qed.

(** C20. Polling is round robin: there is an order of the serving tier, each key once, such
    that however many requests in a row a cached channel gets, the [j]th is served
    from position [j] of that order, counted around. *)
Theorem polling_round_robin id c s :
  polling id c s -> enabled_idx c.(c_Info) (length (GetKeys c)) <> [] ->
  exists round, round ≡ₚ tier_idx c.(c_Info) (length (GetKeys c)) /\
    forall k, exists l s', polls k id s = (Ok l, s') /\ length l = k /\
      forall j, (j < k)%nat -> l !! j = round !! (j mod length round)%nat.
Proof.
  intros Hp He. assert (GetKeys c <> []) as Hk by (intros E; rewrite E in He; done).
  exists (round_of c). split; [by apply round_of_perm|]. intros k. apply polls_round; [done..|].
  intros E. apply He, tier_idx_nil. apply Permutation_nil. rewrite <- E. by apply round_of_perm.
Qed.

(** ** Disabling a key *)

Lemma set_key_status_disables now idx status reason i :
  status <> ChannelStatusEnabled -> status <> 0 ->
  (set_key_status now idx status reason i).2.(MultiKeyStatusList) !! idx = Some status /\
  (set_key_status now idx status reason i).2.(IsMultiKey) = i.(IsMultiKey).
Proof.
  intros Hs H0. unfold set_key_status. replace (status =? ChannelStatusEnabled) with false by lia.
  destruct (Z.eqb_spec (default 0 (i.(MultiKeyStatusList) !! idx)) status) as [E|E]; simpl.
  - split; [|done]. destruct (i.(MultiKeyStatusList) !! idx); simpl in E; congruence.
  - by rewrite lookup_insert_eq.
Qed.
(** The channel after the per-key part of a disabling. *)
Lemma handler_disables now c key status reason idx :
  status <> ChannelStatusEnabled -> status <> 0 -> key_index key (GetKeys c) = Some idx ->
  let c' := (handlerMultiKeyUpdate now c key status reason).2 in
  getStatus c'.(c_Info) idx = status /\ c'.(c_Info).(IsMultiKey) = c.(c_Info).(IsMultiKey).
Proof.
  intros Hs H0 Hi. unfold handlerMultiKeyUpdate. rewrite Hi. destruct (GetKeys c) as [|k0 keys] eqn:Ek; [done|].
  destruct (set_key_status_disables now idx status reason c.(c_Info) Hs H0) as [H1 H2].
  destruct (set_key_status _ _ _ _ _) as [ch i]. cbn [snd] in *. replace (status =? ChannelStatusEnabled) with false by lia.
  unfold getStatus. destruct (negb _); [|simpl; by rewrite H1].
  unfold setChannelStatus. destruct (_ =? _); simpl; by rewrite H1.
Qed.

(** What is written to the database leaves the cache alone. *)
Definition same_idm (m : gmap Z Channel) (s : RState) : Prop := s.(channelsIDM) = m /\ s.(MemoryCacheEnabled) = true.
Lemma rstmt_idm m : preserves (same_idm m) rstmt.
Proof. intros s Hs. unfold rstmt. by destruct (r_faults s). Qed.
Lemma modify_channels_idm m f : preserves (same_idm m) (modify (E := rerror) (set_channels f)).
Proof. intros s Hs. done. Qed.
Lemma modify_abilities_idm m f : preserves (same_idm m) (modify (E := rerror) (set_abilities f)).
Proof. intros s Hs. done. Qed.
#[local] Hint Resolve rstmt_idm modify_channels_idm modify_abilities_idm : preserve.
Lemma CacheUpdateChannelStatus_info id status s c :
  s.(MemoryCacheEnabled) = true -> s.(channelsIDM) !! id = Some c ->
  exists s' c', CacheUpdateChannelStatus id status s = (Ok tt, s') /\ s'.(channelsIDM) !! id = Some c' /\ c'.(c_Info) = c.(c_Info) /\
    s'.(MemoryCacheEnabled) = true.
Proof.
  intros Hm Hc. unfold CacheUpdateChannelStatus. cbv [bind gets modify ret]. rewrite Hm. cbn [negb].
  destruct (negb _); do 2 eexists; (split; [done|]); simpl; rewrite lookup_alter_eq, Hc; done.
Qed.

(** ** Requests and reports after the report *)

(** A request of a channel, or a report of a key. *)
Inductive KeyEvent :=
| KeyRequest (rnd id : Z)
| KeyReport (id : Z) (key : string) (status : Z) (reason : string).
(** The channel and the position a request was served from. *)
Definition run_key_event (e : KeyEvent) : MR (option (Z * Z)) :=
  match e with
  | KeyRequest rnd id => let! x := next_key_cached rnd id in ret (Some (id, x.2))
  | KeyReport id key status reason => UpdateChannelStatus id key status reason ;; ret None
  end.
Fixpoint served (es : list KeyEvent) (s : RState) : list (Z * Z) :=
  match es with
  | [] => []
  | e :: es =>
      let (r, s') := run_key_event e s in
      match r with Ok (Some p) => p :: served es s' | _ => served es s' end
  end.
(** Reports that enable nothing. *)
Definition disabling (e : KeyEvent) : Prop :=
  match e with KeyReport _ _ status _ => status <> ChannelStatusEnabled | KeyRequest _ _ => True end.

(** The cached channel [id] has the key at [idx] disabled. *)
Definition key_off (id idx : Z) (s : RState) : Prop :=
  s.(MemoryCacheEnabled) = true /\ exists c, s.(channelsIDM) !! id = Some c /\ c.(c_Info).(IsMultiKey) = true /\
    getStatus c.(c_Info) idx <> ChannelStatusEnabled.

Lemma key_off_idm id idx s s' : key_off id idx s -> same_idm s.(channelsIDM) s' -> key_off id idx s'.
Proof. intros (_ & c & Hc & Hx) [E Hm]. split; [done|]. exists c. by rewrite E. Qed.
Lemma key_off_insert id idx s id' c c' :
  key_off id idx s -> s.(channelsIDM) !! id' = Some c ->
  (c.(c_Info).(IsMultiKey) = true -> c'.(c_Info).(IsMultiKey) = true) ->
  (c.(c_Info).(IsMultiKey) = true -> getStatus c.(c_Info) idx <> ChannelStatusEnabled -> getStatus c'.(c_Info) idx <> ChannelStatusEnabled) ->
  key_off id idx (set_channelsIDM (insert id' c') s).
Proof.
  intros (Hm & d & Hd & Hmu & Hst) Hc H1 H2. split; [done|]. simpl. destruct (decide (id' = id)) as [->|Hne].
  - rewrite lookup_insert_eq. assert (d = c) as -> by congruence. exists c'. split_and!; auto.
  - rewrite lookup_insert_ne by done. eauto.
Qed.

Lemma handler_multi now c key status reason :
  (handlerMultiKeyUpdate now c key status reason).2.(c_Info).(IsMultiKey) = c.(c_Info).(IsMultiKey).
Proof.
  unfold handlerMultiKeyUpdate, setChannelStatus, set_key_status. repeat (case_match; simplify_eq/=; try done).
Qed.
(** With the memory cache, handing out a key changes nothing but the cursor. *)
Lemma GetNextEnabledKey_memory rnd c s r s' :
  s.(MemoryCacheEnabled) = true -> GetNextEnabledKey rnd c s = (r, s') ->
  s' = s /\ forall x, r = Ok x -> x.2.(c_Info).(MultiKeyStatusList) = c.(c_Info).(MultiKeyStatusList) /\ x.2.(c_Info).(IsMultiKey) = c.(c_Info).(IsMultiKey).
Proof.
  intros Hm. unfold GetNextEnabledKey, CacheGetChannelInfo, CacheGetChannel. destruct (negb _); [intros [= <- <-]; split; [done|]; by intros x [= <-]|].
  destruct (GetKeys c) as [|k0 keys]; [by intros [= <- <-]|]. destruct (tier_idx _ _) as [|t0 tier]; [by intros [= <- <-]|].
  destruct (String.eqb _ MultiKeyModeRandom).
  { destruct (_ !! _); intros [= <- <-]; split; try done. by intros x [= <-]. }
  destruct (String.eqb _ MultiKeyModePolling); [|intros [= <- <-]; split; [done|]; by intros x [= <-]].
  cbv [bind gets ret]. rewrite Hm. cbn [negb]. destruct (_ !! _) as [d|]; [|by intros [= <- <-]].
  destruct (poll_index _ _ _); rewrite Hm; cbn [negb]; intros [= <- <-]; split; try done; by intros x [= <-].
Qed.

Lemma set_key_status_keeps now idx status reason i j :
  status <> ChannelStatusEnabled -> getStatus i j <> ChannelStatusEnabled ->
  let i' := (set_key_status now idx status reason i).2 in getStatus i' j <> ChannelStatusEnabled /\ i'.(IsMultiKey) = i.(IsMultiKey).
Proof.
  intros Hs Hj. unfold set_key_status. replace (status =? ChannelStatusEnabled) with false by lia. destruct (negb _); [|done]. simpl.
  split; [|done]. unfold getStatus in *. simpl. destruct (decide (idx = j)) as [->|]; [by rewrite lookup_insert_eq|by rewrite lookup_insert_ne].
Qed.
Lemma handler_keeps now c key status reason j :
  status <> ChannelStatusEnabled -> getStatus c.(c_Info) j <> ChannelStatusEnabled ->
  let c' := (handlerMultiKeyUpdate now c key status reason).2 in
  getStatus c'.(c_Info) j <> ChannelStatusEnabled /\ c'.(c_Info).(IsMultiKey) = c.(c_Info).(IsMultiKey).
Proof.
  intros Hs Hj. unfold handlerMultiKeyUpdate. assert (forall st x d, (setChannelStatus now d st x).2.(c_Info) = d.(c_Info)) as Hset
    by (intros st x d; unfold setChannelStatus; by destruct (_ =? _)).
  destruct (GetKeys c) as [|k0 keys]; [simpl; by rewrite Hset|].
  destruct (key_index key (k0 :: keys)) as [idx|]; [|destruct (negb _); simpl; by rewrite ?Hset].
  destruct (set_key_status_keeps now idx status reason c.(c_Info) j Hs Hj) as [H1 H2].
  destruct (set_key_status _ _ _ _ _) as [ch i]. cbn [snd] in *. replace (status =? ChannelStatusEnabled) with false by lia.
  destruct (negb _); [|done]. specialize (Hset ChannelStatusAutoDisabled "All keys are disabled" (set_c_Info (fun _ => i) c)).
  destruct (setChannelStatus _ _ _ _) as [b d]. simpl in *. by rewrite Hset.
Qed.
Lemma CacheUpdateChannelStatus_off id idx id' status s :
  key_off id idx s -> key_off id idx (exec (CacheUpdateChannelStatus id' status) s).
Proof.
  intros (Hm & c & Hc & Hx). unfold exec, CacheUpdateChannelStatus. cbv [bind gets modify ret]. rewrite Hm. cbn [negb].
  destruct (negb _); (split; [done|]); simpl; (destruct (decide (id' = id)) as [->|Hne];
    [rewrite lookup_alter_eq, Hc; simpl; eauto|rewrite lookup_alter_ne by done; eauto]).
Qed.

Lemma UpdateChannelStatus_off id idx id' key status reason s :
  status <> ChannelStatusEnabled -> key_off id idx s -> key_off id idx (exec (UpdateChannelStatus id' key status reason) s).
Proof.
  intros Hs Ho. assert (key_off id idx (exec (update_cached_status id' key status reason) s)) as H1.
  { pose proof Ho as (Hm & _). unfold exec, update_cached_status, CacheGetChannel. cbv [bind gets catch ret]. rewrite Hm. cbn [negb].
    destruct (s.(channelsIDM) !! id') as [c|] eqn:Hc; [|done]. destruct (IsMultiKey (c_Info c)) eqn:Hmu.
    - unfold modify at 1. set (c' := (handlerMultiKeyUpdate _ _ _ _ _).2).
      assert (key_off id idx (set_channelsIDM (insert id' c') s)) as H1.
      { apply (key_off_insert id idx s id' c c' Ho Hc).
        - intros _. unfold c'. destruct (decide (getStatus (c_Info c) idx = ChannelStatusEnabled)) as [E|E].
          + by rewrite handler_multi.
          + by rewrite (proj2 (handler_keeps s.(r_clock) c key status reason idx Hs E)).
        - intros _ E. by apply (handler_keeps s.(r_clock) c key status reason idx Hs E). }
      destruct (negb _); [|exact H1]. pose proof (CacheUpdateChannelStatus_off id idx id' c'.(c_Status) _ H1) as H2. unfold exec in H2.
      by destruct (CacheUpdateChannelStatus id' _ _) as [[[]|] ?].
    - destruct (_ =? _); [exact Ho|]. pose proof (CacheUpdateChannelStatus_off id idx id' status _ Ho) as H2. unfold exec in H2.
      by destruct (CacheUpdateChannelStatus id' _ _) as [[[]|] ?]. }
  pose proof Ho as (Hm & _). unfold exec, UpdateChannelStatus. unfold bind at 1, gets at 1. rewrite Hm. unfold bind at 1. unfold exec in H1.
  destruct (update_cached_status id' key status reason s) as [[go|e] s1]; [|exact H1]. cbn [snd] in H1.
  destruct (negb go); [exact H1|]. eapply key_off_idm; [exact H1|].
  match goal with |- same_idm ?m (?prog s1).2 => assert (preserves (same_idm m) prog) as Hpres end; [|apply Hpres; by destruct H1].
  unfold GetChannelById, saveStatusState, UpdateAbilityStatus, update_abilities. solve_preserves.
Qed.

(** A request reads the cache, moves a cursor at most, and is not served from a key that is off. *)
Lemma next_key_off id idx rnd id' s r s' :
  key_off id idx s -> next_key_cached rnd id' s = (r, s') ->
  key_off id idx s' /\ (forall x, r = Ok x -> (id', x.2) <> (id, idx)).
Proof.
  intros Ho E. pose proof Ho as (Hm & c0 & Hc0 & Hmu0 & Hst0). unfold next_key_cached, CacheGetChannel in E. unfold bind at 1 2, gets at 1 in E.
  rewrite Hm in E. cbn [negb] in E. unfold bind at 1, gets at 1 in E.
  destruct (s.(channelsIDM) !! id') as [c|] eqn:Hc; [|injection E as <- <-; done]. unfold ret at 1 in E. unfold bind at 1 in E.
  destruct (GetNextEnabledKey rnd c s) as [[[[k j] c2]|e] s3] eqn:En.
  - pose proof (GetNextEnabledKey_memory _ _ _ _ _ Hm En) as [-> Hk]. destruct (Hk _ eq_refl) as [Hk1 Hk2]. simpl in Hk1, Hk2.
    injection E as <- <-. split.
    + apply (key_off_insert id idx s id' c c2 Ho Hc); [by rewrite Hk2|]. unfold getStatus. by rewrite Hk1.
    + intros x [= <-] [= -> ->]. assert (c = c0) as -> by congruence. apply GetNextEnabledKey_tier in En as [Hin _]; [|done].
      apply tier_idx_elem in Hin as [[_ He]%enabled_idx_elem _]. done.
  - pose proof (GetNextEnabledKey_memory _ _ _ _ _ Hm En) as [-> _]. injection E as <- <-. done.
Qed.
Lemma served_off id idx es s : key_off id idx s -> Forall disabling es -> (id, idx) ∉ served es s.
Proof.
  intros Ho Hes. revert s Ho. induction Hes as [|e es He _ IH]; intros s Ho; [apply not_elem_of_nil|]. cbn [served].
  destruct (run_key_event e s) as [r s'] eqn:Er. destruct e as [rnd id'|id' key status reason]; cbn [run_key_event] in Er.
  - unfold bind in Er. destruct (next_key_cached rnd id' s) as [r0 s0] eqn:E0. destruct (next_key_off _ _ _ _ _ _ _ Ho E0) as [Ho' Hx].
    destruct r0 as [x|e0]; injection Er as <- <-; [|by apply IH]. rewrite not_elem_of_cons. split; [|by apply IH].
    intros E. by apply (Hx x).
  - unfold bind in Er. pose proof (UpdateChannelStatus_off id idx id' key status reason s He Ho) as Ho'. unfold exec in Ho'.
    destruct (UpdateChannelStatus id' key status reason s) as [[b|e0] s0]; injection Er as <- <-; by apply IH.
Qed.

(** C21. A disabled key is not served: when a key of a cached channel is reported (its status
    set to a disabled one), then, whether or not the database answered, none of the requests
    that follow gets its position, however many there are and whatever other keys and
    channels are reported in between, as long as no key is enabled again and the cache is
    not rebuilt.  (A rebuild reads the rows: after a write that failed it enables the key
    again, see [rebuild_forgets_failed_write].) *)
Theorem disabled_key_not_served id key status reason c s idx es :
  s.(MemoryCacheEnabled) = true -> s.(channelsIDM) !! id = Some c -> c.(c_Info).(IsMultiKey) = true ->
  key_index key (GetKeys c) = Some idx -> status <> ChannelStatusEnabled -> status <> 0 -> Forall disabling es ->
  (id, idx) ∉ served es (exec (UpdateChannelStatus id key status reason) s).
Proof.
  intros Hm Hc Hmu Hi Hs H0 Hes. apply served_off; [|done].
  destruct (handler_disables s.(r_clock) c key status reason idx Hs H0 Hi) as [Hst Hmu']. set (c' := (handlerMultiKeyUpdate _ _ _ _ _).2) in *.
  assert (exists s1 c1, update_cached_status id key status reason s = (Ok true, s1) /\ s1.(channelsIDM) !! id = Some c1 /\
    c1.(c_Info) = c'.(c_Info) /\ s1.(MemoryCacheEnabled) = true) as (s1 & c1 & E1 & Hc1 & Ei & Hm1).
  { unfold update_cached_status, CacheGetChannel. cbv [bind gets catch ret]. rewrite Hm. cbn [negb]. rewrite Hc, Hmu. fold c'. unfold modify at 1.
    set (sx := set_channelsIDM _ s). destruct (CacheUpdateChannelStatus_info id c'.(c_Status) sx c') as (s' & d & E & Hd & Hi' & Hm'); [done|simpl; by rewrite lookup_insert_eq|].
    destruct (negb _); [rewrite E; exists s', d; done|]. exists sx, c'. simpl. by rewrite lookup_insert_eq. }
  assert (key_off id idx s1) as Ho by (split; [done|]; exists c1; rewrite Ei; split_and!; [done|congruence|by rewrite Hst]).
  eapply key_off_idm; [exact Ho|]. unfold exec, UpdateChannelStatus. unfold bind at 1, gets at 1. rewrite Hm. unfold bind at 1. rewrite E1. cbn [negb].
  match goal with |- same_idm ?m (?prog s1).2 => assert (preserves (same_idm m) prog) as Hpres end; [|by apply Hpres].
  unfold GetChannelById, saveStatusState, UpdateAbilityStatus, update_abilities. solve_preserves.
Qed.

(** ** Polling without the memory cache *)

Definition row_there (id : Z) (s : RState) : Prop :=
  s.(r_faults) = [] /\ s.(MemoryCacheEnabled) = false /\ is_Some (s.(channels) !! id).
Lemma rstmt_row id : preserves (row_there id) rstmt.
Proof. intros s Hs. unfold rstmt. destruct Hs as [E Hs]. rewrite E. done. Qed.
Lemma alter_row id f j : preserves (row_there id) (modify (E := rerror) (set_channels (alter f j))).
Proof.
  intros s (H1 & H2 & [c Hc]). split_and!; [done..|]. simpl. destruct (decide (id = j)) as [->|Hne].
  - rewrite lookup_alter_eq, Hc. eauto.
  - rewrite lookup_alter_ne by done. eauto.
Qed.
Lemma abilities_row id f : preserves (row_there id) (modify (E := rerror) (set_abilities f)).
Proof. intros s Hs. done. Qed.
#[local] Hint Resolve rstmt_row alter_row abilities_row : preserve.
Lemma UpdateChannelStatus_row id key status reason : preserves (row_there id) (UpdateChannelStatus id key status reason).
Proof.
  intros s Hs. unfold UpdateChannelStatus. unfold bind at 1, gets at 1. pose proof Hs as (_ & Hm & _). rewrite Hm.
  match goal with |- context [(?prog s)] => assert (preserves (row_there id) prog) as Hp end; [|by apply Hp].
  unfold GetChannelById, saveStatusState, UpdateAbilityStatus, update_abilities. solve_preserves.
Qed.

(** A stale poll undoes a disabling: without the memory cache, a request that read the
    channel before a key was reported writes its whole copy of the key states back when it
    polls, so that the row holds the states from before the report. *)
Theorem stale_poll_undoes_disabling rnd id key status reason c s :
  let s1 := exec (UpdateChannelStatus id key status reason) s in
  s.(r_faults) = [] -> s.(MemoryCacheEnabled) = false -> s.(channels) !! id = Some c -> c.(c_Id) = id ->
  c.(c_Info).(IsMultiKey) = true -> c.(c_Info).(MultiKeyMode) = MultiKeyModePolling ->
  enabled_idx c.(c_Info) (length (GetKeys c)) <> [] ->
  exists x s2 c2, GetNextEnabledKey rnd c s1 = (Ok x, s2) /\ s2.(channels) !! id = Some c2 /\
    c2.(c_Info).(MultiKeyStatusList) = c.(c_Info).(MultiKeyStatusList).
Proof.
  intros s1 Hq Hm Hc Hid Hmu Hmo He.
  assert (row_there id s1) as (Hq1 & Hm1 & [row Hrow]) by (apply UpdateChannelStatus_row; split_and!; eauto). clearbody s1.
  unfold GetNextEnabledKey. rewrite Hmu, Hmo. cbn [negb].
  assert (tier_idx c.(c_Info) (length (GetKeys c)) <> []) as Ht by by rewrite tier_idx_nil.
  destruct (GetKeys c) as [|k0 keys] eqn:Ek; [by destruct He|].
  destruct (tier_idx c.(c_Info) (length (k0 :: keys))) as [|t0 tier] eqn:Et; [done|].
  change (String.eqb MultiKeyModePolling MultiKeyModeRandom) with false. change (String.eqb MultiKeyModePolling MultiKeyModePolling) with true.
  cbn [negb]. unfold CacheGetChannelInfo, CacheGetChannel, GetChannelById. cbv [bind gets ret]. rewrite Hm1. cbn [negb]. rewrite Hid.
  rewrite (rstmt_ok s1 Hq1), Hrow. unfold SaveChannelInfo, catch. cbv [bind gets].
  destruct (poll_index _ _ _); rewrite Hm1; cbn [negb]; rewrite (rstmt_ok s1 Hq1); unfold modify; do 3 eexists; (split; [done|]);
    simpl; rewrite Hid, lookup_alter_eq, Hrow; done.
Qed.
End keys.

(** ** Examples *)

#[local] Instance key_params : RouteParams :=
  {| json_array _ := None; TaskPluginKey _ := ""; SupportsPathForModel _ _ _ := true; BaseModelName n := n |}.
(** Four keys: one disabled, one of a lower tier. *)
Definition key_info : ChannelInfo :=
  mkChannelInfo true 4 {[ 1 := 3 ]} ∅ ∅ {[ 0 := 2; 1 := 2; 3 := 2 ]} 3 MultiKeyModePolling.
Definition key_channel : Channel :=
  mkChannel 7 1 (String.concat (String newline EmptyString) ["a"; "b"; "c"; "d"]) 1 "c" None "m" "default" None None ∅ None None None None key_info "" [].
Definition key_state (memory : bool) : RState :=
  mkRState memory {[ 7 := key_channel ]} ∅ ∅ (if memory then {[ 7 := key_channel ]} else ∅) 0 [].

Lemma next_key_serves_top_tier_witness :
  exists key idx c' s', GetNextEnabledKey 1 key_channel (key_state true) = (Ok (key, idx, c'), s') /\
    GetKeys key_channel !! Z.to_nat idx = Some key /\ getStatus key_info idx = ChannelStatusEnabled.
Proof.
  destruct (next_key_serves_top_tier 1 key_channel (key_state true)) as (key & idx & c' & s' & E & H1 & H2 & _).
  - reflexivity.
  - exists key_info, (key_state true). reflexivity.
  - intros _. vm_compute. split; [discriminate|reflexivity].
  - exists key, idx, c', s'. split; [exact E|]. split; [exact H1|exact H2].
Defined.
Lemma polling_round_robin_witness :
  exists round, round ≡ₚ tier_idx key_info 4 /\ exists l s', polls 5 7 (key_state true) = (Ok l, s') /\ l !! 4%nat = round !! (4 mod length round)%nat.
Proof.
  destruct (polling_round_robin 7 key_channel (key_state true)) as (round & Hp & Hk).
  - split; reflexivity.
  - vm_compute. discriminate.
  - exists round. split; [exact Hp|]. destruct (Hk 5%nat) as (l & s' & E & _ & Hj). exists l, s'. split; [exact E|]. apply Hj. lia.
Defined.
Example polls_example : eval (polls 5 7) (key_state true) = Ok [3; 0; 3; 0; 3].
Proof. vm_compute. reflexivity. Qed.
(** The fourth key is reported; five requests and a report of the third key follow. *)
Lemma disabled_key_not_served_witness :
  let es := [KeyRequest 0 7; KeyRequest 0 7; KeyReport 7 "c" 3 "quota"; KeyRequest 0 7; KeyRequest 0 7; KeyRequest 0 7] in
  let s1 := exec (UpdateChannelStatus 7 "d" 3 "quota") (key_state true) in
  served es s1 = [(7, 0); (7, 0); (7, 0); (7, 0); (7, 0)] /\ (7, 3) ∉ served es s1.
Proof.
  intros es s1. split; [vm_compute; reflexivity|].
  apply (disabled_key_not_served 7 "d" 3 "quota" key_channel (key_state true) 3 es); try reflexivity; try discriminate.
  repeat constructor; discriminate.
Defined.
(** The report whose write failed is forgotten by the next rebuild. *)
Example rebuild_forgets_failed_write :
  let s := set_r_faults (fun _ => [false; true]) (exec (Channel_Insert key_channel) (mkRState true ∅ ∅ ∅ {[ 7 := key_channel ]} 0 [])) in
  let s1 := exec (UpdateChannelStatus 7 "d" 3 "quota") s in
  served [KeyRequest 0 7; KeyRequest 0 7] s1 = [(7, 0); (7, 0)] /\
  served [KeyRequest 0 7; KeyRequest 0 7] (exec InitChannelCache s1) = [(7, 3); (7, 0)].
Proof. split; vm_compute; reflexivity. Qed.
Lemma stale_poll_undoes_disabling_witness :
  exists x s2 c2, GetNextEnabledKey 0 key_channel (exec (UpdateChannelStatus 7 "d" 3 "quota") (key_state false)) = (Ok x, s2) /\
    s2.(channels) !! 7 = Some c2 /\ c2.(c_Info).(MultiKeyStatusList) = key_info.(MultiKeyStatusList).
Proof.
  apply (stale_poll_undoes_disabling 0 7 "d" 3 "quota" key_channel (key_state false)); try reflexivity. vm_compute. discriminate.
Defined.
