(* ===== verification/ChannelSelect.v ===== *)
(** * Groups, retries and the relay loop (service/group.go, dto/channel_constraints.go,
    service/channel_select.go, controller/relay.go)

    A request of the group auto goes through the user's groups in order.  Each attempt
    selects a channel; a failed attempt may be repeated with a lower priority or, across
    groups, with the next group. *)

From stdpp Require Import base tactics numbers list gmap strings pretty sorting.
From Stdlib Require Import ZArith Lia.
From S2P Require Import Prelude Float64 QuotaMath World StatusCodes Task Channel ChannelCache.
Open Scope Z_scope.

(** ** Groups of a user *)

(** The settings: usable groups with descriptions, special ones per user group (a map of
    Go, iterated in no fixed order), the list of automatic groups, the limit per token and
    the groups with a ratio. *)
Record GroupSettings := mkGroupSettings {
  UserUsableGroups : gmap string string;
  GroupSpecialUsableGroup : gmap string (list (string * string));
  autoGroups : list string;
  maxTokenAutoGroups : Z;
  groupRatioMap : gset string
}.
Fixpoint CutPrefix (s p : string) : option string :=
  match p, s with
  | EmptyString, _ => Some s
  | String a p, String b s => if Ascii.eqb a b then CutPrefix s p else None
  | String _ _, EmptyString => None
  end.
Definition apply_special (m : gmap string string) (sd : string * string) : gmap string string :=
  match CutPrefix sd.1 "-:" with
  | Some g => delete g m
  | None => match CutPrefix sd.1 "+:" with Some g => <[g := sd.2]> m | None => <[sd.1 := sd.2]> m end
  end.
Definition GetUserUsableGroups (st : GroupSettings) (userGroup : string) : gmap string string :=
  if String.eqb userGroup "" then st.(UserUsableGroups)
  else
    let m := foldl apply_special st.(UserUsableGroups) (default [] (st.(GroupSpecialUsableGroup) !! userGroup)) in
    match m !! userGroup with Some _ => m | None => <[userGroup := "user group"%string]> m end.
Definition GroupInUserUsableGroups (st : GroupSettings) (userGroup groupName : string) : bool :=
  bool_decide (is_Some (GetUserUsableGroups st userGroup !! groupName)).
Definition IsUserSelectableGroup (st : GroupSettings) (userGroup groupName : string) : bool :=
  if String.eqb groupName "" || String.eqb groupName "auto" then false
  else GroupInUserUsableGroups st userGroup groupName && bool_decide (groupName ∈ st.(groupRatioMap)).
Fixpoint user_auto_groups (st : GroupSettings) (userGroup : string) (seen groups : list string) : list string :=
  match groups with
  | [] => []
  | g :: rest =>
      if negb (IsUserSelectableGroup st userGroup g) || bool_decide (g ∈ seen) then user_auto_groups st userGroup seen rest
      else g :: user_auto_groups st userGroup (g :: seen) rest
  end.
Definition GetUserAutoGroup (st : GroupSettings) (userGroup : string) : list string :=
  user_auto_groups st userGroup [] st.(autoGroups).
(** [len] counts what was kept. *)
Fixpoint token_auto_groups (st : GroupSettings) (userGroup : string) (len : Z) (seen groups : list string) : list string :=
  match groups with
  | [] => []
  | g :: rest =>
      if negb (IsUserSelectableGroup st userGroup g) || bool_decide (g ∈ seen) then token_auto_groups st userGroup len seen rest
      else g :: (if len + 1 =? st.(maxTokenAutoGroups) then [] else token_auto_groups st userGroup (len + 1) (g :: seen) rest)
  end.
Definition FilterUserTokenAutoGroups (st : GroupSettings) (userGroup : string) (groups : list string) : list string :=
  token_auto_groups st userGroup 0 [] groups.
(** [tokenGroups] is the value in the context of the request, if there is one. *)
Definition GetRequestAutoGroups (st : GroupSettings) (userGroup : string) (tokenGroups : option (list string)) : list string :=
  match tokenGroups with
  | None => GetUserAutoGroup st userGroup
  | Some groups => FilterUserTokenAutoGroups st userGroup groups
  end.

(** ** Pins *)

Inductive PinRetryMode := PinRetrySameChannel | PinRetrySingleAttempt.
#[export] Instance PinRetryMode_eq_dec : EqDecision PinRetryMode.
Proof. solve_decision. Defined.
Definition Stricter (m other : PinRetryMode) : PinRetryMode :=
  match m, other with PinRetrySameChannel, PinRetrySameChannel => PinRetrySameChannel | _, _ => PinRetrySingleAttempt end.
Record ChannelPin := mkPin { p_ChannelId : Z; p_Source : string; p_Rank : Z; p_RetryMode : PinRetryMode }.

(** The pins of one channel merged, in the order of their first mention. *)
Fixpoint merge_pin (pin : ChannelPin) (merged : list ChannelPin) : list ChannelPin :=
  match merged with
  | [] => [pin]
  | e :: rest =>
      if e.(p_ChannelId) =? pin.(p_ChannelId) then
        let mode := Stricter e.(p_RetryMode) pin.(p_RetryMode) in
        (if pin.(p_Rank) <? e.(p_Rank) then mkPin e.(p_ChannelId) pin.(p_Source) pin.(p_Rank) mode
         else mkPin e.(p_ChannelId) e.(p_Source) e.(p_Rank) mode) :: rest
      else e :: merge_pin pin rest
  end.
Definition merge_pins (pins : list ChannelPin) : list ChannelPin := foldl (fun m p => merge_pin p m) [] pins.
Definition better_pin (winner candidate : ChannelPin) : ChannelPin :=
  if candidate.(p_Rank) <? winner.(p_Rank) then candidate else winner.
(** The winner and the pins that lost to it. *)
Definition ResolvedPin (pins : list ChannelPin) : option (ChannelPin * list ChannelPin) :=
  match merge_pins pins with
  | [] => None
  | first :: rest =>
      let winner := foldl better_pin first rest in
      Some (winner, filter (fun p => p.(p_ChannelId) <> winner.(p_ChannelId)) (first :: rest))
  end.
Definition SuppressesRetry (pins : list ChannelPin) : bool :=
  match ResolvedPin pins with Some (pin, _) => bool_decide (pin.(p_RetryMode) = PinRetrySingleAttempt) | None => false end.

(** ** The state of a request *)

(** The routing state, the keys of the context the selection uses, and the retry
    parameters. *)
Record Sel := mkSel {
  sel_route : RState;
  AutoGroupIndex : option Z;
  AutoGroupRetryIndex : option Z;
  AutoGroup : option string;
  Retry : option Z;
  resetNextTry : bool;
  use_channel : list Z
}.
Definition set_sel_route (f : RState -> RState) (s : Sel) : Sel :=
  mkSel (f s.(sel_route)) s.(AutoGroupIndex) s.(AutoGroupRetryIndex) s.(AutoGroup) s.(Retry) s.(resetNextTry) s.(use_channel).
Definition set_AutoGroupIndex (i : Z) (s : Sel) : Sel :=
  mkSel s.(sel_route) (Some i) s.(AutoGroupRetryIndex) s.(AutoGroup) s.(Retry) s.(resetNextTry) s.(use_channel).
Definition set_AutoGroupRetryIndex (i : Z) (s : Sel) : Sel :=
  mkSel s.(sel_route) s.(AutoGroupIndex) (Some i) s.(AutoGroup) s.(Retry) s.(resetNextTry) s.(use_channel).
Definition set_AutoGroup (g : string) (s : Sel) : Sel :=
  mkSel s.(sel_route) s.(AutoGroupIndex) s.(AutoGroupRetryIndex) (Some g) s.(Retry) s.(resetNextTry) s.(use_channel).
Definition SetRetry (r : Z) (s : Sel) : Sel :=
  mkSel s.(sel_route) s.(AutoGroupIndex) s.(AutoGroupRetryIndex) s.(AutoGroup) (Some r) s.(resetNextTry) s.(use_channel).
Definition set_resetNextTry (b : bool) (s : Sel) : Sel :=
  mkSel s.(sel_route) s.(AutoGroupIndex) s.(AutoGroupRetryIndex) s.(AutoGroup) s.(Retry) b s.(use_channel).
Definition addUsedChannel (id : Z) (s : Sel) : Sel :=
  mkSel s.(sel_route) s.(AutoGroupIndex) s.(AutoGroupRetryIndex) s.(AutoGroup) s.(Retry) s.(resetNextTry) (s.(use_channel) ++ [id]).

Definition GetRetry (s : Sel) : Z := default 0 s.(Retry).
Definition ResetRetryNextTry : Sel -> Sel := set_resetNextTry true.
Definition IncreaseRetry (s : Sel) : Sel :=
  if s.(resetNextTry) then set_resetNextTry false s else SetRetry (default 0 s.(Retry) +! 1) s.

Abbreviation MS := (M Sel rerror).
Definition route {A} (m : MR A) : MS A := fun s => let (r, rs) := m s.(sel_route) in (r, set_sel_route (fun _ => rs) s).

(** What stays fixed during a request. *)
Record SelEnv := mkSelEnv {
  TokenGroup : string;
  ModelName : string;
  UserGroup : string;
  TokenAutoGroups : option (list string);
  CrossGroupRetry : bool;
  Filters : list ChannelFilter;
  Pins : list ChannelPin;
  RetryTimes : Z;
  AffinitySkipRetry : bool;
  env_groups : GroupSettings;
  env_rules : StatusRules
}.

Section select.
Context `{!RouteParams}.
Variable env : SelEnv.

Definition request_groups : list string := GetRequestAutoGroups env.(env_groups) env.(UserGroup) env.(TokenAutoGroups).

(** ** Selection *)

(** The loop over the groups from index [i]; [rnd] gives the random value of a group. *)
Fixpoint auto_loop (rnd : Z -> Z) (start i : Z) (groups : list string) : MS (option (Channel * string)) :=
  match groups with
  | [] => ret None
  | g :: rest =>
      let! s := get in
      let priorityRetry := if start <? i then 0 else GetRetry s in
      let! f := route (GetRandomSatisfiedChannel (rnd i) g env.(ModelName) priorityRetry env.(Filters)) in
      match f.1 with
      | None =>
          modify (fun s => SetRetry 0 (set_AutoGroupRetryIndex 0 (set_AutoGroupIndex (i + 1) s))) ;;
          auto_loop rnd start (i + 1) rest
      | Some c =>
          modify (set_AutoGroup g) ;;
          (if env.(CrossGroupRetry) && (env.(RetryTimes) <=? priorityRetry)
           then modify (fun s => ResetRetryNextTry (SetRetry 0 (set_AutoGroupIndex (i + 1) s)))
           else modify (set_AutoGroupIndex i)) ;;
          ret (Some (c, g))
      end
  end.

(** The channel, the group and the error. *)
Definition CacheGetRandomSatisfiedChannel (rnd : Z -> Z) : MS (option Channel * string * option rerror) :=
  if String.eqb env.(TokenGroup) "auto" then
    match request_groups with
    | [] => ret (None, env.(TokenGroup), Some (RErrMsg "auto groups is not enabled"))
    | groups =>
        let! start := gets (fun s => default 0 s.(AutoGroupIndex)) in
        let! r := auto_loop rnd start start (drop (Z.to_nat start) groups) in
        ret (match r with Some (c, g) => (Some c, g, None) | None => (None, env.(TokenGroup), None) end)
    end
  else
    let! s := get in
    let! f := route (GetRandomSatisfiedChannel (rnd 0) env.(TokenGroup) env.(ModelName) (GetRetry s) env.(Filters)) in
    match f.2 with
    | Some e => ret (None, env.(TokenGroup), Some e)
    | None => ret (f.1, env.(TokenGroup), None)
    end.

(** ** The relay loop *)

Record NewAPIError := mkAPIError { e_StatusCode : Z; e_errorCode : string; e_skipRetry : bool }.
Definition IsChannelError (e : NewAPIError) : bool := HasPrefix e.(e_errorCode) "channel:".
Definition IsSkipRetryError (e : NewAPIError) : bool := e.(e_skipRetry).
Definition shouldRetry (openaiErr : option NewAPIError) (retryTimes : Z) : bool :=
  match openaiErr with
  | None => false
  | Some e =>
      if env.(AffinitySkipRetry) then false
      else if IsChannelError e then true
      else if IsSkipRetryError e then false
      else if retryTimes <=? 0 then false
      else if SuppressesRetry env.(Pins) then false
      else
        let code := e.(e_StatusCode) in
        if (200 <=? code) && (code <? 300) then false
        else if (code <? 100) || (599 <? code) then true
        else if IsAlwaysSkipRetryCode e.(e_errorCode) then false
        else ShouldRetryByStatusCode env.(env_rules) code
  end.

(** What an attempt calls: the setup of the context for a selected channel, the
    preparation of billing and body, and the relay to the provider.  Each may change the
    routing state, as may other requests meanwhile; [k] counts the attempts. *)
Record Handlers := mkHandlers {
  h_random : nat -> Z -> Z;
  h_setup : nat -> Channel -> RState -> option NewAPIError * RState;
  h_prepare : nat -> Channel -> RState -> option NewAPIError * RState;
  h_relay : nat -> Channel -> RState -> option NewAPIError * RState
}.
Variable h : Handlers.
(** The channel the middleware selected, for the first attempt. *)
Variable context_channel : Channel.

Definition handler (f : RState -> option NewAPIError * RState) : MS (option NewAPIError) := fun s =>
  let (e, rs) := f s.(sel_route) in (Ok e, set_sel_route (fun _ => rs) s).
Definition get_channel_failed : NewAPIError := mkAPIError 500 "get_channel_failed" true.
Definition getChannel (k : nat) : MS (NewAPIError + Channel) :=
  if (k =? 0)%nat then ret (inr context_channel)
  else
    let! r := CacheGetRandomSatisfiedChannel (h.(h_random) k) in
    match r with
    | (_, _, Some _) | (None, _, None) => ret (inl get_channel_failed)
    | (Some c, _, None) =>
        let! e := handler (h.(h_setup) k c) in
        ret (match e with Some e => inl e | None => inr c end)
    end.
(** The error of the request, if any; [None] when the fuel ran out. *)
Fixpoint relay_loop (fuel k : nat) (last : option NewAPIError) : MS (option (option NewAPIError)) :=
  match fuel with
  | O => ret None
  | S fuel =>
      let! s := get in
      if negb (GetRetry s <=? env.(RetryTimes)) then ret (Some last)
      else
        let! ch := getChannel k in
        match ch with
        | inl e => ret (Some (Some e))
        | inr c =>
            modify (addUsedChannel c.(c_Id)) ;;
            let! p := handler (h.(h_prepare) k c) in
            match p with
            | Some e => ret (Some (Some e))
            | None =>
                let! e := handler (h.(h_relay) k c) in
                match e with
                | None => ret (Some None)
                | Some e =>
                    let! s := get in
                    if negb (shouldRetry (Some e) (env.(RetryTimes) - GetRetry s)) then ret (Some (Some e))
                    else modify IncreaseRetry ;; relay_loop fuel (S k) (Some e)
                end
            end
        end
  end.
End select.
