(* ===== verification/ChannelRelay.v ===== *)
(** * Retries end, and stay among the user's groups (theorems on ChannelSelect) *)

From stdpp Require Import base tactics numbers list gmap strings pretty sorting.
From Stdlib Require Import ZArith Lia.
From S2P Require Import Prelude Float64 QuotaMath World StatusCodes Task Channel ChannelCache ChannelSelect.
Open Scope Z_scope.

Section relay.
Context `{!RouteParams}.
Variable env : SelEnv.

(** ** The budget of attempts *)

Definition n_groups : Z := Z.of_nat (length (request_groups env)).
Definition is_auto : bool := String.eqb env.(TokenGroup) "auto".
Definition group_index (s : Sel) : Z := default 0 s.(AutoGroupIndex).
(** Attempts that are left: for auto, those of the groups from the index on. *)
Definition budget (s : Sel) : Z :=
  if is_auto then (n_groups - group_index s) * (env.(RetryTimes) + 1) - GetRetry s
  else env.(RetryTimes) + 1 - GetRetry s.
Record head_ok (s : Sel) : Prop := mk_head_ok {
  ho_retry : 0 <= GetRetry s;
  ho_index : 0 <= group_index s <= n_groups;
  ho_reset : s.(resetNextTry) = false
}.

(** States that differ in the routing state and the channels used. *)
Definition same_position (a b : Sel) : Prop :=
  a.(AutoGroupIndex) = b.(AutoGroupIndex) /\ a.(Retry) = b.(Retry) /\ a.(resetNextTry) = b.(resetNextTry).
Lemma same_position_increase a b : same_position a b -> same_position (IncreaseRetry a) (IncreaseRetry b).
Proof. intros (E1 & E2 & E3). unfold IncreaseRetry. rewrite E3, E2. destruct (resetNextTry b) eqn:Eb; split_and!; simpl; congruence. Qed.
Lemma same_position_head a b : same_position a b -> head_ok a -> head_ok b.
Proof.
  intros (E1 & E2 & E3) [H1 H2 H3]. unfold GetRetry, group_index in *. rewrite E1 in H2. rewrite E2 in H1. rewrite E3 in H3. by split.
Qed.
Lemma same_position_budget a b : same_position a b -> budget a = budget b.
Proof. intros (E1 & E2 & E3). unfold budget, group_index, GetRetry. by rewrite E1, E2. Qed.

Lemma route_frame {A} (m : MR A) s r s' : route m s = (r, s') -> exists rs, s' = set_sel_route (fun _ => rs) s.
Proof. unfold route. destruct (m s.(sel_route)) as [r' rs]. intros [= <- <-]. eauto. Qed.

(** A selected channel leaves the position it was selected at, or the next group. *)
Lemma auto_loop_position rnd start i groups s c g s' :
  s.(resetNextTry) = false -> 0 <= GetRetry s -> start <= i -> (start < i -> GetRetry s = 0) ->
  auto_loop env rnd start i groups s = (Ok (Some (c, g)), s') ->
  exists j p, i <= j < i + Z.of_nat (length groups) /\ (j = start -> p = GetRetry s) /\ (start < j -> p = 0) /\ groups !! Z.to_nat (j - i) = Some g /\
    s'.(use_channel) = s.(use_channel) /\
    if env.(CrossGroupRetry) && (env.(RetryTimes) <=? p)
    then s'.(AutoGroupIndex) = Some (j + 1) /\ GetRetry s' = 0 /\ s'.(resetNextTry) = true
    else s'.(AutoGroupIndex) = Some j /\ GetRetry s' = p /\ s'.(resetNextTry) = false.
Proof.
  revert i s. induction groups as [|g0 groups IH]; intros i s Hreset Hr0 Hsi Hnew; [done|].
  cbn [auto_loop]. unfold bind at 1, get at 1. unfold bind at 1. set (p := if start <? i then 0 else GetRetry s).
  assert (p = GetRetry s) as Ep by (subst p; destruct (Z.ltb_spec start i); [symmetry; auto|done]).
  destruct (route _ s) as [[f|e] s1] eqn:Er; [|done]. apply route_frame in Er as [rs ->]. destruct f as [oc oe]. cbn [fst].
  destruct oc as [c0|].
  - unfold bind at 1, modify at 1. unfold bind at 1. destruct (env.(CrossGroupRetry) && (env.(RetryTimes) <=? p)) eqn:Ec;
      unfold modify at 1; intros [= <- <- <-]; exists i, p; rewrite Ec; (split; [simpl; lia|]); (split; [done|]);
      (split; [intros Hx; rewrite Ep; auto|]); (split; [by rewrite Z.sub_diag|]); (split; [done|]); done.
  - unfold bind at 1, modify at 1. intros E. apply IH in E as (j & q & Hj & Hq1 & Hq2 & Hg & Hu & Hfin); [|done|done|lia|done].
    exists j, q. split; [simpl in *; lia|]. split; [intros ->; lia|]. split; [intros Hx; auto|].
    split; [|done]. replace (Z.to_nat (j - i)) with (S (Z.to_nat (j - (i + 1)))) by lia. done.
Qed.

(** One selection: it uses up at least one attempt of the budget. *)
Lemma select_budget rnd s c g s' :
  0 <= env.(RetryTimes) < MaxInt64 -> head_ok s -> GetRetry s <= env.(RetryTimes) ->
  CacheGetRandomSatisfiedChannel env rnd s = (Ok (Some c, g, None), s') ->
  s'.(use_channel) = s.(use_channel) /\ 1 <= budget s /\
  forall rs, let s2 := IncreaseRetry (set_sel_route (fun _ => rs) s') in head_ok s2 /\ budget s2 <= budget s - 1.
Proof.
  intros HR [Hr Hi Hreset] Hle. unfold CacheGetRandomSatisfiedChannel, budget, is_auto. destruct (String.eqb env.(TokenGroup) "auto").
  - destruct (request_groups env) as [|g0 gs] eqn:Eg; [done|]. rewrite <- Eg. unfold bind at 1, gets at 1. unfold bind at 1. fold (group_index s).
    destruct (auto_loop _ _ _ _ _ s) as [[[[c0 g1]|]|e] s1] eqn:El; [|done..]. intros [= -> -> <-].
    apply auto_loop_position in El as (j & p & Hj & Hp1 & Hp2 & _ & Hu & Hfin); [|done|done|lia|lia].
    rewrite length_drop in Hj. assert (group_index s <= j < n_groups) as Hj' by (unfold n_groups; lia).
    split; [done|]. split; [nia|]. intros rs.
    assert (0 <= p /\ (j = group_index s -> p <= env.(RetryTimes)) /\ (group_index s < j -> p = 0)) as (Hp0 & Hp3 & Hp4)
      by (destruct (decide (j = group_index s)); [rewrite Hp1 by done|rewrite Hp2 by lia]; lia).
    destruct (env.(CrossGroupRetry) && (env.(RetryTimes) <=? p)) eqn:Ec; destruct Hfin as (Hgi & Hgr & Hrs); unfold IncreaseRetry; simpl; rewrite Hrs.
    + assert (group_index s1 = j + 1) as Ei by by unfold group_index; rewrite Hgi. split; [split; unfold GetRetry, group_index in *; simpl; lia|].
      change (group_index (set_resetNextTry _ _)) with (group_index s1). change (GetRetry (set_resetNextTry _ _)) with (GetRetry s1). rewrite Ei, Hgr.
      assert (env.(RetryTimes) <= p) by (apply andb_true_iff in Ec; lia).
      destruct (decide (j = group_index s)) as [E|E]; [rewrite Hp1 in * by done|]; nia.
    + assert (group_index s1 = j) as Ei by by unfold group_index; rewrite Hgi. unfold GetRetry in Hgr.
      assert (p <= env.(RetryTimes)) by (destruct (decide (j = group_index s)) as [E|E]; [auto|rewrite Hp4 by lia; lia]).
      rewrite Hgr, wrap64_id by (unfold in_i64, MinInt64; lia).
      split; [split; [unfold GetRetry; simpl; lia|unfold group_index in *; simpl; lia|exact Hrs]|].
      change (group_index (SetRetry _ _)) with (group_index s1). change (GetRetry (SetRetry (p + 1) _)) with (p + 1). rewrite Ei.
      destruct (decide (j = group_index s)) as [E|E]; [rewrite Hp1 in * by done|rewrite Hp4 by lia]; nia.
  - unfold bind at 1, get at 1. unfold bind at 1. destruct (route _ s) as [[f|e] s1] eqn:Er; [|done]. apply route_frame in Er as [rs0 ->].
    destruct (f.2); [done|]. intros [= Hf1 <- <-]. split; [done|]. split; [lia|]. intros rs. unfold IncreaseRetry. simpl. rewrite Hreset.
    unfold GetRetry in *. rewrite wrap64_id by (unfold in_i64, MinInt64; lia). split; [split; [unfold GetRetry; simpl; lia|exact Hi|done]|]. simpl. lia.
Qed.

(** ** The loop ends *)

Variable h : Handlers.
Variable context_channel : Channel.

Lemma handler_frame f s e s' : handler f s = (Ok e, s') -> exists rs, s' = set_sel_route (fun _ => rs) s.
Proof. unfold handler. destruct (f s.(sel_route)) as [e' rs]. intros [= <- <-]. eauto. Qed.
Lemma handler_ok f s : exists e rs, handler f s = (Ok e, set_sel_route (fun _ => rs) s).
Proof. unfold handler. destruct (f s.(sel_route)) as [e rs]. eauto. Qed.
(** Selection does not touch the list of channels used. *)
Lemma auto_loop_uses rnd start i groups s r s' :
  auto_loop env rnd start i groups s = (r, s') -> s'.(use_channel) = s.(use_channel).
Proof.
  revert i s. induction groups as [|g groups IH]; intros i s; [by intros [= <- <-]|].
  cbn [auto_loop]. unfold bind at 1, get at 1. unfold bind at 1.
  destruct (route _ s) as [[f|e] s1] eqn:Er; apply route_frame in Er as [rs ->]; [|by intros [= <- <-]].
  destruct (f.1) as [c|].
  - unfold bind at 1, modify at 1. unfold bind at 1. destruct (_ && _); intros [= <- <-]; done.
  - unfold bind at 1, modify at 1. intros E%IH. done.
Qed.
Lemma select_uses rnd s r s' : CacheGetRandomSatisfiedChannel env rnd s = (r, s') -> s'.(use_channel) = s.(use_channel).
Proof.
  unfold CacheGetRandomSatisfiedChannel. destruct (String.eqb _ _).
  - destruct (request_groups env); [by intros [= <- <-]|]. unfold bind at 1, gets at 1. unfold bind at 1.
    destruct (auto_loop _ _ _ _ _ s) as [[x|e] s1] eqn:E; apply auto_loop_uses in E; intros [= <- <-]; done.
  - unfold bind at 1, get at 1. unfold bind at 1. destruct (route _ s) as [[f|e] s1] eqn:Er; apply route_frame in Er as [rs ->]; [|by intros [= <- <-]].
    destruct (f.2); intros [= <- <-]; done.
Qed.
Lemma getChannel_cases k s :
  (exists e s1, getChannel env h context_channel (S k) s = (Err e, s1) /\ s1.(use_channel) = s.(use_channel)) \/
  (exists e s1, getChannel env h context_channel (S k) s = (Ok (inl e), s1) /\ s1.(use_channel) = s.(use_channel)) \/
  (exists c g s1 rs, getChannel env h context_channel (S k) s = (Ok (inr c), set_sel_route (fun _ => rs) s1) /\
     CacheGetRandomSatisfiedChannel env (h.(h_random) (S k)) s = (Ok (Some c, g, None), s1)).
Proof.
  unfold getChannel. cbn [Nat.eqb]. unfold bind at 1 3 5.
  destruct (CacheGetRandomSatisfiedChannel env _ s) as [[[[oc g] oe]|e] s1] eqn:E.
  - pose proof (select_uses _ _ _ _ E) as Hu. destruct oe as [e|]; [right; left; destruct oc; eauto|].
    destruct oc as [c|]; [|right; left; eauto]. unfold bind. destruct (handler_ok (h.(h_setup) (S k) c) s1) as ([e|] & rs & ->).
    + right; left. eauto.
    + right; right. exists c, g, s1, rs. done.
  - left. exists e, s1. split; [done|]. by eapply select_uses.
Qed.

Definition outcome_bounded (n : nat) (r : result rerror (option (option NewAPIError))) (s' : Sel) : Prop :=
  r <> Ok None /\ (length s'.(use_channel) <= n)%nat.

(** From the second attempt on. *)
Lemma relay_loop_budget fuel k last s :
  0 <= env.(RetryTimes) < MaxInt64 -> head_ok s -> Z.max 0 (budget s) < Z.of_nat fuel ->
  let (r, s') := relay_loop env h context_channel fuel (S k) last s in
  outcome_bounded (length s.(use_channel) + Z.to_nat (budget s)) r s'.
Proof.
  intros HR. revert k last s. induction fuel as [|fuel IH]; intros k last s Hh Hf; [lia|].
  cbn [relay_loop]. unfold bind at 1, get at 1. destruct (Z.leb_spec (GetRetry s) env.(RetryTimes)) as [Hle|Hgt]; cbn [negb]; [|split; [done|lia]].
  unfold bind at 1. destruct (getChannel_cases k s) as [(e & s1 & -> & Hu)|[(e & s1 & -> & Hu)|(c & g & s1 & rs & -> & Hsel)]]; [split; [done|rewrite Hu; lia]..|].
  destruct (select_budget _ s c g s1 HR Hh Hle Hsel) as (Hu & Hb & Hnext). unfold bind at 1, modify at 1.
  unfold bind at 1. destruct (handler_ok (h.(h_prepare) (S k) c) (addUsedChannel c.(c_Id) (set_sel_route (fun _ => rs) s1))) as (p & rs2 & ->).
  destruct p as [e|]; [split; [done|simpl; rewrite length_app, Hu; simpl; lia]|].
  unfold bind at 1. match goal with |- context [handler ?f ?x] => destruct (handler_ok f x) as (e & rs3 & ->) end.
  destruct e as [e|]; [|split; [done|simpl; rewrite length_app, Hu; simpl; lia]].
  unfold bind at 1, get at 1. destruct (negb _); [split; [done|simpl; rewrite length_app, Hu; simpl; lia]|].
  unfold bind at 1, modify at 1.
  match goal with |- context [relay_loop _ _ _ _ _ _ ?x] => set (s2 := x) end.
  assert (same_position (IncreaseRetry (set_sel_route (fun _ => rs) s1)) s2) as Hpos by by apply same_position_increase.
  destruct (Hnext rs) as [Hh2 Hb2]. rewrite (same_position_budget _ _ Hpos) in Hb2. apply (same_position_head _ _ Hpos) in Hh2.
  assert (s2.(use_channel) = s.(use_channel) ++ [c.(c_Id)]) as Hu2
    by (unfold s2, IncreaseRetry; simpl; destruct (resetNextTry s1); simpl; by rewrite Hu).
  specialize (IH (S k) (Some e) s2 Hh2 ltac:(lia)). destruct (relay_loop _ _ _ _ _ _ s2) as [r s']. destruct IH as [H1 H2].
  split; [done|]. rewrite Hu2, length_app in H2. simpl in H2. lia.
Qed.

Definition max_attempts : Z := if is_auto then n_groups * (env.(RetryTimes) + 1) else env.(RetryTimes) + 1.

(** C13. The relay loop ends: whatever the providers answer, whatever the selection finds and
    whatever other requests do to the routing state, a request is tried at most once per
    retry, or for the group auto once per retry in each of the user's groups (at least
    once), although the retry counter is set back when the group changes; with that much
    fuel the loop is never cut short. *)
Theorem relay_attempts_bounded fuel s :
  0 <= env.(RetryTimes) < MaxInt64 -> GetRetry s = 0 -> s.(resetNextTry) = false -> 0 <= group_index s <= n_groups ->
  s.(use_channel) = [] -> Z.max 1 max_attempts < Z.of_nat fuel ->
  let (r, s') := relay_loop env h context_channel fuel 0 None s in
  r <> Ok None /\ Z.of_nat (length s'.(use_channel)) <= Z.max 1 max_attempts.
Proof.
  intros HR Hr Hreset Hi Hu Hf. destruct fuel as [|fuel]; [lia|]. cbn [relay_loop]. unfold bind at 1, get at 1. rewrite Hr.
  replace (0 <=? env.(RetryTimes)) with true by lia. cbn [negb]. unfold getChannel, bind at 1. cbn [Nat.eqb]. unfold ret at 1.
  unfold bind at 1, modify at 1. unfold bind at 1.
  destruct (handler_ok (h.(h_prepare) 0%nat context_channel) (addUsedChannel context_channel.(c_Id) s)) as (p & rs2 & ->).
  destruct p as [e|]; [split; [done|simpl; rewrite Hu; simpl; lia]|]. unfold bind at 1.
  match goal with |- context [handler ?f ?x] => destruct (handler_ok f x) as (e & rs3 & ->) end.
  destruct e as [e|]; [|split; [done|simpl; rewrite Hu; simpl; lia]]. unfold bind at 1, get at 1.
  destruct (negb _); [split; [done|simpl; rewrite Hu; simpl; lia]|]. unfold bind at 1, modify at 1.
  match goal with |- context [relay_loop _ _ _ _ _ _ ?x] => set (s2 := x) end.
  assert (s2 = SetRetry 1 (set_sel_route (fun _ => rs3) (addUsedChannel context_channel.(c_Id) s))) as Es2.
  { unfold s2, IncreaseRetry. simpl. rewrite Hreset. unfold GetRetry in Hr. by rewrite Hr, wrap64_id by done. }
  assert (head_ok s2) as Hh by (rewrite Es2; split; [done|exact Hi|done]).
  assert (Z.max 0 (budget s2) <= Z.max 1 max_attempts - 1) as Hb.
  { rewrite Es2. unfold budget, max_attempts. change (group_index (SetRetry _ _)) with (group_index s). change (GetRetry (SetRetry 1 _)) with 1.
    destruct is_auto; nia. }
  pose proof (relay_loop_budget fuel 0 (Some e) s2 HR Hh ltac:(lia)) as HL.
  destruct (relay_loop _ _ _ _ _ _ s2) as [r s']. destruct HL as [H1 H2]. split; [done|]. rewrite Es2 in H2 at 1. simpl in H2.
  rewrite Hu in H2. simpl in H2. lia.
Qed.

(** ** The groups of a request *)

Lemma user_auto_groups_spec st ug seen groups :
  NoDup (user_auto_groups st ug seen groups) /\
  forall g, g ∈ user_auto_groups st ug seen groups -> g ∈ groups /\ (g ∉ seen) /\ IsUserSelectableGroup st ug g = true.
Proof.
  revert seen. induction groups as [|g0 groups IH]; intros seen; simpl; [split; [constructor|by intros g ?%not_elem_of_nil]|].
  destruct (IsUserSelectableGroup st ug g0) eqn:Es; simpl; [case_bool_decide as Hin; simpl|].
  - destruct (IH seen) as [H1 H2]. split; [done|]. intros g Hg%H2. set_solver.
  - destruct (IH (g0 :: seen)) as [H1 H2]. split.
    + constructor; [|done]. intros Hg%H2. set_solver.
    + intros g [->|Hg%H2]%elem_of_cons; [split_and!; [by left|done..]|set_solver].
  - destruct (IH seen) as [H1 H2]. split; [done|]. intros g Hg%H2. set_solver.
Qed.
Lemma token_auto_groups_prefix st ug len seen groups :
  exists n, token_auto_groups st ug len seen groups = take n (user_auto_groups st ug seen groups) /\
    (0 <= len < st.(maxTokenAutoGroups) -> Z.of_nat (length (token_auto_groups st ug len seen groups)) + len <= st.(maxTokenAutoGroups)).
Proof.
  revert len seen. induction groups as [|g0 groups IH]; intros len seen; simpl; [exists 0%nat; split; [done|simpl; lia]|].
  destruct (_ || _); [apply IH|]. destruct (Z.eqb_spec (len + 1) st.(maxTokenAutoGroups)) as [E|E].
  - exists 1%nat. split; [done|]. simpl. lia.
  - destruct (IH (len + 1) (g0 :: seen)) as (n & -> & Hl). exists (S n). split; [done|]. simpl. lia.
Qed.
Lemma request_groups_spec :
  NoDup (request_groups env) /\ forall g, g ∈ request_groups env -> IsUserSelectableGroup env.(env_groups) env.(UserGroup) g = true.
Proof.
  unfold request_groups, GetRequestAutoGroups, GetUserAutoGroup, FilterUserTokenAutoGroups.
  destruct env.(TokenAutoGroups) as [groups|].
  - destruct (token_auto_groups_prefix env.(env_groups) env.(UserGroup) 0 [] groups) as (n & -> & _).
    destruct (user_auto_groups_spec env.(env_groups) env.(UserGroup) [] groups) as [H1 H2]. split.
    + eapply sublist_NoDup; [done|apply sublist_take].
    + intros g Hg. apply H2. apply elem_of_take in Hg as (j & Hj & _). by eapply list_elem_of_lookup_2.
  - destruct (user_auto_groups_spec env.(env_groups) env.(UserGroup) [] env.(env_groups).(autoGroups)) as [H1 H2]. split; [done|]. intros g Hg%H2. tauto.
Qed.
(** The channel is the answer for this group: the query of the group gave it, and with
    the memory cache it is one of the group's candidates. *)
Definition selected_for (rnd : Z -> Z) (g : string) (c : Channel) (rs' : RState) : Prop :=
  exists k retry rs e,
    GetRandomSatisfiedChannel (rnd k) g env.(ModelName) retry env.(Filters) rs = (Ok (Some c, e), rs') /\
    (rs.(MemoryCacheEnabled) = true ->
     exists id, id ∈ cached_candidates rs g env.(ModelName) env.(Filters) /\ rs.(channelsIDM) !! id = Some c).

Lemma pick_weighted_elem f a x l c : pick_weighted f a x l = Some c -> c ∈ l.
Proof.
  revert x. induction l as [|d l IH]; intros x; simpl; [done|]. destruct (_ <? 0); [intros [= ->]; left|]. intros Hx%IH. by right.
Qed.
Lemma select_cached_elem x retry idm ids c :
  select_cached x retry idm ids = Ok (Some c) -> exists id, id ∈ ids /\ idm !! id = Some c.
Proof.
  unfold select_cached, choose_weighted. intros Hx. destruct ids as [|id1 [|id2 ids]]; [done|destruct (idm !! id1) eqn:E|].
  - injection Hx as ->. exists id1. split; [left|done].
  - done.
  - destruct (lookup_all _ _) as [l|] eqn:El; [|done]. destruct (target_priority _ _); [|done].
    destruct (filter _ l) as [|d l'] eqn:Ef; [done|]. rewrite <- Ef in Hx. destruct (_ <=? 0); [done|].
    destruct (smoothing _ _). destruct (pick_weighted _ _ _ _) as [c'|] eqn:Ep; [|done]. injection Hx as ->.
    apply pick_weighted_elem, list_elem_of_filter in Ep as [_ Hc]. unfold lookup_all in El. apply mapM_Some in El.
    apply list_elem_of_lookup in Hc as [i Hi]. destruct (Forall2_lookup_r _ _ _ _ _ El Hi) as (id & Hid & Hc).
    exists id. split; [by eapply list_elem_of_lookup_2|done].
Qed.
Lemma route_selected rnd k g retry s c e s' :
  route (GetRandomSatisfiedChannel (rnd k) g env.(ModelName) retry env.(Filters)) s = (Ok (Some c, e), s') ->
  selected_for rnd g c s'.(sel_route).
Proof.
  unfold route. destruct (GetRandomSatisfiedChannel _ _ _ _ _ s.(sel_route)) as [r0 rs] eqn:E. intros [= -> <-].
  exists k, retry, s.(sel_route), e. split; [done|]. intros Hm. unfold GetRandomSatisfiedChannel, bind, gets, get in E.
  rewrite Hm in E. simpl in E. destruct (select_cached _ _ _ _) as [oc|e0] eqn:Es; [|by destruct e0].
  injection E as -> <- _. by eapply select_cached_elem.
Qed.
Lemma auto_loop_group rnd start i groups s c g s' :
  auto_loop env rnd start i groups s = (Ok (Some (c, g)), s') ->
  g ∈ groups /\ s'.(AutoGroup) = Some g /\ selected_for rnd g c s'.(sel_route).
Proof.
  revert i s. induction groups as [|g0 groups IH]; intros i s; [done|]. cbn [auto_loop]. unfold bind at 1, get at 1. unfold bind at 1.
  destruct (route _ s) as [[[oc oe]|e] s1] eqn:Er; [|done]. cbn [fst]. destruct oc as [c0|].
  - apply route_selected in Er. unfold bind at 1, modify at 1. unfold bind at 1. destruct (_ && _); intros [= <- <- <-]; (split; [left|done]).
  - unfold bind at 1, modify at 1. intros E%IH. split; [right|]; apply E.
Qed.

(** C14. Automatic selection stays among the groups the user may use: a channel that is
    selected for the group auto was selected for the group it is reported (and recorded)
    under: that group's query gave it and with the memory cache it is one of that group's
    candidates; the group is one of the user's usable groups, has a ratio, and is neither
    empty nor auto; the list of groups the loop goes through has no duplicates; and a
    token's own list gives at most as many groups as the limit allows. *)
Theorem auto_selection_permitted rnd s c g s' :
  env.(TokenGroup) = "auto"%string -> CacheGetRandomSatisfiedChannel env rnd s = (Ok (Some c, g, None), s') ->
  selected_for rnd g c s'.(sel_route) /\ s'.(AutoGroup) = Some g /\
  g ∈ request_groups env /\ NoDup (request_groups env) /\ g <> ""%string /\ g <> "auto"%string /\
  is_Some (GetUserUsableGroups env.(env_groups) env.(UserGroup) !! g) /\ g ∈ env.(env_groups).(groupRatioMap) /\
  (is_Some env.(TokenAutoGroups) -> 0 < env.(env_groups).(maxTokenAutoGroups) ->
   Z.of_nat (length (request_groups env)) <= env.(env_groups).(maxTokenAutoGroups)).
Proof.
  intros Ha. unfold CacheGetRandomSatisfiedChannel. rewrite Ha. change (String.eqb "auto" "auto") with true. cbn [negb].
  destruct request_groups_spec as [Hn Hsel]. destruct (request_groups env) as [|g0 gs] eqn:Eg; [done|].
  unfold bind at 1, gets at 1. unfold bind at 1. destruct (auto_loop _ _ _ _ _ s) as [[[[c0 g1]|]|e] s1] eqn:El; [|done..]. intros [= -> -> <-].
  apply auto_loop_group in El as (El & Hag & Hfor). split; [done|]. split; [done|].
  apply list_elem_of_lookup in El as [j El]. rewrite lookup_drop in El. apply list_elem_of_lookup_2 in El. specialize (Hsel g El). unfold IsUserSelectableGroup in Hsel.
  destruct (String.eqb_spec g "") as [|Hne]; [done|]. destruct (String.eqb_spec g "auto") as [|Hna]; [done|]. simpl in Hsel.
  apply andb_true_iff in Hsel as [Hu%bool_decide_eq_true Hr%bool_decide_eq_true]. split_and!; [done..|].
  intros [groups Et] Hmax. rewrite <- Eg. unfold request_groups. rewrite Et. simpl.
  destruct (token_auto_groups_prefix env.(env_groups) env.(UserGroup) 0 [] groups) as (n & _ & Hl). unfold FilterUserTokenAutoGroups. lia.
Qed.
End relay.

(** ** Examples *)

#[local] Instance relay_params : RouteParams :=
  {| json_array _ := None; TaskPluginKey _ := ""; SupportsPathForModel _ _ _ := true; BaseModelName n := n |}.
(** Two groups with two priorities each, three retries, every attempt fails. *)
Definition tier_channel (id priority : Z) (group : string) : Channel :=
  mkChannel id 1 "k" 1 "c" None "m" group None (Some priority) ∅ None None None None zero_info "" [].
Definition two_groups : list Channel := [tier_channel 1 5 "a"; tier_channel 2 0 "a"; tier_channel 3 5 "b"; tier_channel 4 0 "b"].
Definition two_groups_state : RState :=
  exec InitChannelCache (exec (mapM_ Channel_Insert two_groups) (mkRState true ∅ ∅ ∅ ∅ 0 [])).
Definition relay_env : SelEnv :=
  mkSelEnv "auto" "m" "default" None true [] [] 3 false
    (mkGroupSettings {[ "a" := "A"; "b" := "B" ]} ∅ ["a"; "b"; "c"] 5 {[ "a"; "b" ]}) default_rules.
Definition failing : Handlers :=
  mkHandlers (fun _ _ => 0) (fun _ _ s => (None, s)) (fun _ _ s => (None, s)) (fun _ _ s => (Some (mkAPIError 500 "upstream" false), s)).
Definition relay_start : Sel := mkSel two_groups_state (Some 0) None (Some "a"%string) (Some 0) false [].

(** Each group is tried four times, at its lowest priority once its priorities are used up,
    before the next group is. *)
Example cross_group_retry_order :
  (relay_loop relay_env failing (tier_channel 1 5 "a") 20 0 None relay_start).2.(use_channel) = [1; 2; 2; 2; 3; 4; 4; 4].
Proof. vm_compute. reflexivity. Qed.

Lemma relay_attempts_bounded_witness :
  let (r, s') := relay_loop relay_env failing (tier_channel 1 5 "a") 20 0 None relay_start in
  r <> Ok None /\ Z.of_nat (length s'.(use_channel)) <= 8.
Proof.
  apply (relay_attempts_bounded relay_env failing (tier_channel 1 5 "a") 20 relay_start).
  - vm_compute. split; [discriminate|reflexivity].
  - reflexivity.
  - reflexivity.
  - vm_compute. split; discriminate.
  - reflexivity.
  - vm_compute. reflexivity.
Defined.
Lemma auto_selection_permitted_witness :
  exists c g s', CacheGetRandomSatisfiedChannel relay_env (fun _ => 0) relay_start = (Ok (Some c, g, None), s') /\
    is_Some (GetUserUsableGroups relay_env.(env_groups) relay_env.(UserGroup) !! g).
Proof.
  assert (CacheGetRandomSatisfiedChannel relay_env (fun _ => 0) relay_start =
    (Ok (Some (tier_channel 1 5 "a"), "a"%string, None), exec (CacheGetRandomSatisfiedChannel relay_env (fun _ => 0)) relay_start)) as E
    by (vm_compute; reflexivity).
  do 3 eexists. split; [exact E|].
  refine (proj1 (proj2 (proj2 (proj2 (proj2 (proj2 (proj2 (auto_selection_permitted relay_env _ _ _ _ _ eq_refl E)))))))).
Defined.
