(* ===== verification/Lease.v ===== *)
(** * System tasks and leases (model/system_task.go, service/system_task.go)

    Nodes share tasks (clean-ups, polls, tests) through two tables: the tasks, and one
    lock per type with the time until which its holder may run.  Every operation is a
    program of single database statements; between any two statements other nodes may run
    theirs and the clock may advance, and any statement may fail. *)

From stdpp Require Import base tactics numbers list gmap strings pretty sorting.
From Stdlib Require Import ZArith Lia.
From S2P Require Import Prelude.
Open Scope Z_scope.

(** ** Data *)

Inductive SystemTaskStatus := SystemTaskStatusPending | SystemTaskStatusRunning | SystemTaskStatusSucceeded | SystemTaskStatusFailed.
#[export] Instance SystemTaskStatus_eq_dec : EqDecision SystemTaskStatus.
Proof. solve_decision. Defined.

Record SystemTask := mkSystemTask {
  st_ID : Z;
  st_TaskID : string;
  st_Type : string;
  st_Status : SystemTaskStatus;
  st_ActiveKey : option string;
  st_Payload : string;
  st_State : string;
  st_Result : string;
  st_Error : string;
  st_LockedBy : string;
  st_CreatedAt : Z;
  st_UpdatedAt : Z
}.
Definition set_st_Status (f : SystemTaskStatus -> SystemTaskStatus) (r : SystemTask) : SystemTask :=
  mkSystemTask r.(st_ID) r.(st_TaskID) r.(st_Type) (f r.(st_Status)) r.(st_ActiveKey) r.(st_Payload)
    r.(st_State) r.(st_Result) r.(st_Error) r.(st_LockedBy) r.(st_CreatedAt) r.(st_UpdatedAt).
Definition set_st_ActiveKey (f : option string -> option string) (r : SystemTask) : SystemTask :=
  mkSystemTask r.(st_ID) r.(st_TaskID) r.(st_Type) r.(st_Status) (f r.(st_ActiveKey)) r.(st_Payload)
    r.(st_State) r.(st_Result) r.(st_Error) r.(st_LockedBy) r.(st_CreatedAt) r.(st_UpdatedAt).
Definition set_st_State (f : string -> string) (r : SystemTask) : SystemTask :=
  mkSystemTask r.(st_ID) r.(st_TaskID) r.(st_Type) r.(st_Status) r.(st_ActiveKey) r.(st_Payload)
    (f r.(st_State)) r.(st_Result) r.(st_Error) r.(st_LockedBy) r.(st_CreatedAt) r.(st_UpdatedAt).
Definition set_st_Result (f : string -> string) (r : SystemTask) : SystemTask :=
  mkSystemTask r.(st_ID) r.(st_TaskID) r.(st_Type) r.(st_Status) r.(st_ActiveKey) r.(st_Payload)
    r.(st_State) (f r.(st_Result)) r.(st_Error) r.(st_LockedBy) r.(st_CreatedAt) r.(st_UpdatedAt).
Definition set_st_Error (f : string -> string) (r : SystemTask) : SystemTask :=
  mkSystemTask r.(st_ID) r.(st_TaskID) r.(st_Type) r.(st_Status) r.(st_ActiveKey) r.(st_Payload)
    r.(st_State) r.(st_Result) (f r.(st_Error)) r.(st_LockedBy) r.(st_CreatedAt) r.(st_UpdatedAt).
Definition set_st_LockedBy (f : string -> string) (r : SystemTask) : SystemTask :=
  mkSystemTask r.(st_ID) r.(st_TaskID) r.(st_Type) r.(st_Status) r.(st_ActiveKey) r.(st_Payload)
    r.(st_State) r.(st_Result) r.(st_Error) (f r.(st_LockedBy)) r.(st_CreatedAt) r.(st_UpdatedAt).
Definition set_st_UpdatedAt (f : Z -> Z) (r : SystemTask) : SystemTask :=
  mkSystemTask r.(st_ID) r.(st_TaskID) r.(st_Type) r.(st_Status) r.(st_ActiveKey) r.(st_Payload)
    r.(st_State) r.(st_Result) r.(st_Error) r.(st_LockedBy) r.(st_CreatedAt) (f r.(st_UpdatedAt)).
#[export] Instance SystemTask_eq_dec : EqDecision SystemTask.
Proof. solve_decision. Defined.

(** The row of a type's lock; the type is its key. *)
Record SystemTaskLock := mkSystemTaskLock {
  sl_TaskID : string;
  sl_LockedBy : string;
  sl_LockedUntil : Z;
  sl_UpdatedAt : Z
}.
Definition set_sl_LockedUntil (f : Z -> Z) (r : SystemTaskLock) : SystemTaskLock :=
  mkSystemTaskLock r.(sl_TaskID) r.(sl_LockedBy) (f r.(sl_LockedUntil)) r.(sl_UpdatedAt).
Definition set_sl_UpdatedAt (f : Z -> Z) (r : SystemTaskLock) : SystemTaskLock :=
  mkSystemTaskLock r.(sl_TaskID) r.(sl_LockedBy) r.(sl_LockedUntil) (f r.(sl_UpdatedAt)).
#[export] Instance SystemTaskLock_eq_dec : EqDecision SystemTaskLock.
Proof. solve_decision. Defined.

(** The tables, the clock all nodes share, and what the database is like: whether an
    update counts the rows it changed or the rows it matched (MySQL counts changes), and
    whether a limit applies to a deletion.  [old_logs] are the times of the log rows. *)
Record LState := mkLState {
  sys_tasks : gmap Z SystemTask;
  sys_locks : gmap string SystemTaskLock;
  next_id : Z;
  l_clock : Z;
  counts_changed : bool;
  limit_applies : bool;
  old_logs : list Z
}.
Definition set_sys_tasks (f : gmap Z SystemTask -> gmap Z SystemTask) (r : LState) : LState :=
  mkLState (f r.(sys_tasks)) r.(sys_locks) r.(next_id) r.(l_clock) r.(counts_changed)
    r.(limit_applies) r.(old_logs).
Definition set_sys_locks (f : gmap string SystemTaskLock -> gmap string SystemTaskLock) (r : LState) : LState :=
  mkLState r.(sys_tasks) (f r.(sys_locks)) r.(next_id) r.(l_clock) r.(counts_changed)
    r.(limit_applies) r.(old_logs).
Definition set_next_id (f : Z -> Z) (r : LState) : LState :=
  mkLState r.(sys_tasks) r.(sys_locks) (f r.(next_id)) r.(l_clock) r.(counts_changed)
    r.(limit_applies) r.(old_logs).
Definition set_l_clock (f : Z -> Z) (r : LState) : LState :=
  mkLState r.(sys_tasks) r.(sys_locks) r.(next_id) (f r.(l_clock)) r.(counts_changed)
    r.(limit_applies) r.(old_logs).
Definition set_old_logs (f : list Z -> list Z) (r : LState) : LState :=
  mkLState r.(sys_tasks) r.(sys_locks) r.(next_id) r.(l_clock) r.(counts_changed) r.(limit_applies)
    (f r.(old_logs)).

(** ** Programs of statements *)

(** [Now]: the time is read.  [Stmt]: a statement with its answer, [None] if it failed. *)
Inductive prog (A : Type) : Type :=
| Done (a : A)
| Now (k : Z -> prog A)
| Stmt (B : Set) (f : LState -> B * LState) (k : option B -> prog A).
Arguments Done {A} a.
Arguments Now {A} k.
Arguments Stmt {A} B f k.
Fixpoint pbind {A B} (p : prog A) (q : A -> prog B) : prog B :=
  match p with
  | Done a => q a
  | Now k => Now (fun t => pbind (k t) q)
  | Stmt C f k => Stmt C f (fun r => pbind (k r) q)
  end.
Declare Scope prog_scope.
Notation "'let*' x := p 'in' q" := (pbind p (fun x => q)) (at level 10, x name, p at level 100, q at level 200) : prog_scope.
Open Scope prog_scope.
Definition GetTimestamp : prog Z := Now Done.
Definition stmt {B : Set} (f : LState -> B * LState) : prog (option B) := Stmt B f Done.

(** A program run alone; the script says which statements fail. *)
Fixpoint run_alone {A} (faults : list bool) (p : prog A) (s : LState) : A * LState :=
  match p with
  | Done a => (a, s)
  | Now k => run_alone faults (k s.(l_clock)) s
  | Stmt B f k =>
      match faults with
      | true :: fs => run_alone fs (k None) s
      | _ => let (b, s') := f s in run_alone (tail faults) (k (Some b)) s'
      end
  end.

(** ** Statements *)

Definition count {K A} `{Countable K} (p : A -> bool) (m : gmap K A) : Z := Z.of_nat (size (filter (fun kv => Is_true (p kv.2)) m)).
(** [RowsAffected] of an update. *)
Definition update_tasks (p : LState -> SystemTask -> bool) (f : SystemTask -> SystemTask) (s : LState) : Z * LState :=
  (count (fun t => p s t && (negb s.(counts_changed) || bool_decide (f t <> t))) s.(sys_tasks),
   set_sys_tasks (fmap (fun t => if p s t then f t else t)) s).
Definition update_locks (p : string -> SystemTaskLock -> bool) (f : SystemTaskLock -> SystemTaskLock) (s : LState) : Z * LState :=
  (Z.of_nat (size (filter (fun kv : string * SystemTaskLock =>
     Is_true (p kv.1 kv.2 && (negb s.(counts_changed) || bool_decide (f kv.2 <> kv.2)))) s.(sys_locks))),
   set_sys_locks (map_imap (fun ty l => Some (if p ty l then f l else l))) s).
Definition delete_locks (p : string -> SystemTaskLock -> bool) (s : LState) : unit * LState :=
  (tt, set_sys_locks (filter (fun kv => Is_true (negb (p kv.1 kv.2)))) s).
Definition has_status (st : SystemTaskStatus) (t : SystemTask) : bool := bool_decide (t.(st_Status) = st).

(** [EXISTS (SELECT 1 FROM system_task_locks WHERE ...)]: the lease of a task is held. *)
Definition lease_held (s : LState) (taskID lockedBy : string) (now : Z) : bool :=
  existsb (fun l => String.eqb l.(sl_TaskID) taskID && String.eqb l.(sl_LockedBy) lockedBy && (now <=? l.(sl_LockedUntil)))
    (map_to_list s.(sys_locks)).*2.

Definition id_le (a b : SystemTask) : Prop := a.(st_ID) <= b.(st_ID).
#[export] Instance id_le_dec a b : Decision (id_le a b).
Proof. unfold id_le. apply _. Defined.
(** [SELECT ... ORDER BY id] *)
Definition select_tasks (p : SystemTask -> bool) (s : LState) : list SystemTask :=
  merge_sort id_le (filter (fun t => Is_true (p t)) (map_to_list s.(sys_tasks)).*2).
Definition read {B : Set} (f : LState -> B) : prog (option B) := stmt (fun s => (f s, s)).

(** ** Tasks *)

(** [DB.Create(task)]: the id of the task and the active key are unique. *)
Definition create_task (taskID taskType payload state : string) (now : Z) (s : LState) : option SystemTask * LState :=
  let clash t := String.eqb t.(st_TaskID) taskID || bool_decide (t.(st_ActiveKey) = Some taskType) in
  if existsb clash (map_to_list s.(sys_tasks)).*2 then (None, s)
  else
    let t := mkSystemTask s.(next_id) taskID taskType SystemTaskStatusPending (Some taskType) payload state "" "" "" now now in
    (Some t, set_next_id (fun n => n + 1) (set_sys_tasks (insert s.(next_id) t) s)).
Definition flatten {A} (x : option (option A)) : option A := match x with Some y => y | None => None end.

(** [taskID] is the random id, [payload] and [state] the texts of [marshalSystemTaskJSON]
    (none if it failed).  No task is returned on an error. *)
Definition CreateSystemTask (taskID taskType : string) (payload state : option string) : prog (option SystemTask) :=
  match payload, state with
  | Some payload, Some state =>
      let* now := GetTimestamp in
      let* t := stmt (create_task taskID taskType payload state now) in
      Done (flatten t)
  | _, _ => Done None
  end.

(** A row, no row, or an error. *)
Inductive found_task := FoundTask (t : SystemTask) | NoTask | TaskErr.
Definition first_task (r : option (list SystemTask)) : found_task :=
  match r with Some (t :: _) => FoundTask t | Some [] => NoTask | None => TaskErr end.
Definition GetSystemTaskByTaskID (taskID : string) : prog found_task :=
  let* r := read (select_tasks (fun t => String.eqb t.(st_TaskID) taskID)) in Done (first_task r).
Definition is_active (t : SystemTask) : bool := has_status SystemTaskStatusPending t || has_status SystemTaskStatusRunning t.
Definition GetActiveSystemTask (taskType : string) : prog found_task :=
  let* r := read (fun s => reverse (select_tasks (fun t => String.eqb t.(st_Type) taskType && is_active t) s)) in Done (first_task r).
Definition FindEarliestPendingSystemTask (taskType : string) (s : LState) : option SystemTask :=
  head (select_tasks (fun t => String.eqb t.(st_Type) taskType && has_status SystemTaskStatusPending t) s).
Definition GetLatestSystemTask (taskType : string) (s : LState) : option SystemTask :=
  last (select_tasks (fun t => String.eqb t.(st_Type) taskType) s).

Definition FindPendingSystemTasks (taskType : string) (limit : Z) (s : LState) : list SystemTask :=
  take (Z.to_nat (if limit <=? 0 then 1 else limit)) (select_tasks (fun t => String.eqb t.(st_Type) taskType && has_status SystemTaskStatusPending t) s).
Definition ListSystemTasks (limit : Z) (s : LState) : list SystemTask :=
  let limit := if limit <=? 0 then 20 else limit in
  let limit := if 100 <? limit then 100 else limit in
  take (Z.to_nat limit) (reverse (select_tasks (fun _ => true) s)).

(** ** Leases *)

Definition MarkSystemTaskLeaseExpired (taskID : string) : prog bool :=
  let* now := GetTimestamp in
  let* r := stmt (update_tasks (fun _ t => String.eqb t.(st_TaskID) taskID && has_status SystemTaskStatusRunning t)
    (fun t => set_st_UpdatedAt (fun _ => now) (set_st_Error (fun _ => "task lease expired"%string)
       (set_st_ActiveKey (fun _ => None) (set_st_Status (fun _ => SystemTaskStatusFailed) t))))) in
  Done (bool_decide (is_Some r)).
Definition ReleaseSystemTaskLock (taskID lockedBy : string) : prog bool :=
  let* r := stmt (delete_locks (fun _ l => String.eqb l.(sl_TaskID) taskID && String.eqb l.(sl_LockedBy) lockedBy)) in
  Done (bool_decide (is_Some r)).

Definition create_lock (taskType : string) (l : SystemTaskLock) (s : LState) : bool * LState :=
  match s.(sys_locks) !! taskType with
  | Some _ => (false, s)
  | None => (true, set_sys_locks (insert taskType l) s)
  end.
(** The lock is taken with the id of the task that held it before, if any; or not; or an
    error. *)
Inductive acquired := Acquired (expiredTaskID : string) | NotAcquired | AcquireErr.
Definition acquireSystemTaskLock (taskType taskID lockedBy : string) (now lockUntil : Z) : prog acquired :=
  let* c := stmt (create_lock taskType (mkSystemTaskLock taskID lockedBy lockUntil now)) in
  if bool_decide (c = Some true) then Done (Acquired "")
  else
    let* existing := read (fun s => s.(sys_locks) !! taskType) in
    match existing with
    | None => Done AcquireErr
    | Some None => Done NotAcquired
    | Some (Some existing) =>
        if now <=? existing.(sl_LockedUntil) then Done NotAcquired
        else
          let* r := stmt (update_locks (fun ty l => String.eqb ty taskType && (l.(sl_LockedUntil) <? now))
                            (fun _ => mkSystemTaskLock taskID lockedBy lockUntil now)) in
          match r with
          | None => Done AcquireErr
          | Some n => if n =? 0 then Done NotAcquired else Done (Acquired existing.(sl_TaskID))
          end
    end.

Inductive claim := Claimed (t : SystemTask) | NotClaimed | ClaimErr.
Definition ClaimSystemTask (id : Z) (taskType runnerID : string) (lockUntil : Z) : prog claim :=
  let* now := GetTimestamp in
  let pending t := (t.(st_ID) =? id) && String.eqb t.(st_Type) taskType && has_status SystemTaskStatusPending t in
  let* r := read (select_tasks pending) in
  match first_task r with
  | NoTask => Done NotClaimed
  | TaskErr => Done ClaimErr
  | FoundTask task =>
      let* a := acquireSystemTaskLock taskType task.(st_TaskID) runnerID now lockUntil in
      match a with
      | AcquireErr => Done ClaimErr
      | NotAcquired => Done NotClaimed
      | Acquired expired =>
          let* marked :=
            if negb (String.eqb expired "") && negb (String.eqb expired task.(st_TaskID)) then MarkSystemTaskLeaseExpired expired else Done true in
          if negb marked then let* _ := ReleaseSystemTaskLock task.(st_TaskID) runnerID in Done ClaimErr
          else
            let* u := stmt (update_tasks (fun _ => pending) (fun t =>
              set_st_UpdatedAt (fun _ => now) (set_st_LockedBy (fun _ => runnerID) (set_st_Status (fun _ => SystemTaskStatusRunning) t)))) in
            match u with
            | None => let* _ := ReleaseSystemTaskLock task.(st_TaskID) runnerID in Done ClaimErr
            | Some n =>
                if n =? 0 then let* _ := ReleaseSystemTaskLock task.(st_TaskID) runnerID in Done NotClaimed
                else
                  let* r := read (select_tasks (fun t => t.(st_ID) =? id)) in
                  match first_task r with FoundTask t => Done (Claimed t) | _ => Done ClaimErr end
            end
      end
  end.

(** The outcome of an operation under a lease. *)
Inductive lease_result := LeaseOk | LockLost | LeaseErr.
Definition owned (taskID lockedBy : string) (now : Z) (s : LState) (t : SystemTask) : bool :=
  String.eqb t.(st_TaskID) taskID && has_status SystemTaskStatusRunning t && String.eqb t.(st_LockedBy) lockedBy &&
  lease_held s t.(st_TaskID) lockedBy now.
(** [state] is the marshalled text, none if that failed. *)
Definition UpdateSystemTaskState (taskID lockedBy : string) (state : option string) : prog lease_result :=
  match state with
  | None => Done LeaseErr
  | Some state =>
      let* now := GetTimestamp in
      let* r := stmt (update_tasks (owned taskID lockedBy now) (fun t => set_st_UpdatedAt (fun _ => now) (set_st_State (fun _ => state) t))) in
      match r with
      | None => Done LeaseErr
      | Some n =>
          if 0 <? n then Done LeaseOk
          else
            let* held := read (fun s => count (owned taskID lockedBy now s) s.(sys_tasks)) in
            match held with
            | None => Done LeaseErr
            | Some h => if h =? 0 then Done LockLost else Done LeaseOk
            end
      end
  end.
Definition RenewSystemTaskLock (taskID lockedBy : string) (lockUntil : Z) : prog lease_result :=
  let* now := GetTimestamp in
  let* r := stmt (update_locks (fun _ l => String.eqb l.(sl_TaskID) taskID && String.eqb l.(sl_LockedBy) lockedBy && (now <=? l.(sl_LockedUntil)))
                    (fun l => set_sl_UpdatedAt (fun _ => now) (set_sl_LockedUntil (fun _ => lockUntil) l))) in
  match r with
  | None => Done LeaseErr
  | Some n => if n =? 0 then Done LockLost else Done LeaseOk
  end.
Definition FinishSystemTask (taskID lockedBy : string) (status : SystemTaskStatus) (result : option string) (errorMessage : string) : prog lease_result :=
  match result with
  | None => Done LeaseErr
  | Some result =>
      let* now := GetTimestamp in
      let* r := stmt (update_tasks (owned taskID lockedBy now) (fun t =>
        set_st_UpdatedAt (fun _ => now) (set_st_Error (fun _ => errorMessage) (set_st_Result (fun _ => result)
          (set_st_ActiveKey (fun _ => None) (set_st_Status (fun _ => status) t)))))) in
      match r with
      | None => Done LeaseErr
      | Some n =>
          if n =? 0 then Done LockLost
          else let* b := ReleaseSystemTaskLock taskID lockedBy in Done (if b : bool then LeaseOk else LeaseErr)
      end
  end.

Fixpoint expire_locks (now : Z) (l : list (string * SystemTaskLock)) : prog bool :=
  match l with
  | [] => Done true
  | (ty, lock) :: rest =>
      let* m := MarkSystemTaskLeaseExpired lock.(sl_TaskID) in
      if negb m then Done false
      else
        let* d := stmt (delete_locks (fun ty' l => String.eqb ty' ty && String.eqb l.(sl_TaskID) lock.(sl_TaskID) &&
                          String.eqb l.(sl_LockedBy) lock.(sl_LockedBy) && (l.(sl_LockedUntil) <? now))) in
        match d with None => Done false | Some _ => expire_locks now rest end
  end.
(** [now] is the caller's time. *)
Definition ExpireStaleSystemTaskLocks (now : Z) : prog bool :=
  let* r := read (fun s => filter (fun kv => kv.2.(sl_LockedUntil) < now) (map_to_list s.(sys_locks))) in
  match r with None => Done false | Some locks => expire_locks now locks end.

(** ** Scheduling (service/system_task.go) *)

Definition systemTaskLockTTL : Z := 60.
Definition systemTaskLockUntil : prog Z := let* now := GetTimestamp in Done (now + systemTaskLockTTL).

(** The task and whether it is new; none on an error. *)
Definition EnqueueSystemTask (taskID taskType : string) (payload : option string) : prog (option (SystemTask * bool)) :=
  let* active := GetActiveSystemTask taskType in
  match active with
  | TaskErr => Done None
  | FoundTask t => Done (Some (t, false))
  | NoTask =>
      let* t := CreateSystemTask taskID taskType payload (Some ""%string) in
      match t with
      | Some t => Done (Some (t, true))
      | None =>
          let* active := GetActiveSystemTask taskType in
          match active with FoundTask t => Done (Some (t, false)) | _ => Done None end
      end
  end.
Definition SystemTaskTypeLogCleanup : string := "log_cleanup".
(** [payload] and [state] are the texts of the initial payload and state. *)
Definition StartLogCleanupTask (taskID : string) (targetTimestamp : Z) (payload state : option string) : prog (option SystemTask) :=
  if targetTimestamp <=? 0 then Done None
  else
    let* active := GetActiveSystemTask SystemTaskTypeLogCleanup in
    match active with
    | TaskErr => Done None
    | FoundTask t => Done (Some t)
    | NoTask =>
        let* t := CreateSystemTask taskID SystemTaskTypeLogCleanup payload state in
        match t with
        | Some t => Done (Some t)
        | None =>
            let* active := GetActiveSystemTask SystemTaskTypeLogCleanup in
            match active with FoundTask t => Done (Some t) | _ => Done None end
        end
    end.

(** An enabled scheduled handler, with the random id its next task gets. *)
Record Scheduled := mkScheduled { sc_Type : string; sc_Interval : Z; sc_Payload : option string; sc_TaskID : string }.
Definition is_due (now : Z) (sc : Scheduled) (latest : option SystemTask) : bool :=
  match latest with
  | None => true
  | Some t => negb (is_active t) && negb (now - t.(st_UpdatedAt) <? sc.(sc_Interval))
  end.
Fixpoint schedule_loop (now : Z) (latest : list (option SystemTask)) (l : list Scheduled) : prog unit :=
  match l, latest with
  | sc :: l, t :: latest =>
      if is_due now sc t then
        let* c := CreateSystemTask sc.(sc_TaskID) sc.(sc_Type) sc.(sc_Payload) (Some ""%string) in
        let* _ := match c with Some _ => Done NoTask | None => GetActiveSystemTask sc.(sc_Type) end in
        schedule_loop now latest l
      else schedule_loop now latest l
  | _, _ => Done tt
  end.
(** [GetLatestSystemTasks] is one query; without types there is none. *)
Definition runSystemTaskScheduler (l : list Scheduled) : prog unit :=
  let* now := GetTimestamp in
  match l with
  | [] => Done tt
  | _ =>
      let* latest := read (fun s => List.map (fun sc => GetLatestSystemTask sc.(sc_Type) s) l) in
      match latest with None => Done tt | Some latest => schedule_loop now latest l end
  end.

(** The tasks that were claimed, each to be run in a goroutine of its own. *)
Fixpoint claim_loop (runnerID : string) (pending : list (string * option SystemTask)) : prog (list SystemTask) :=
  match pending with
  | [] => Done []
  | (ty, None) :: rest => claim_loop runnerID rest
  | (ty, Some t) :: rest =>
      let* until := systemTaskLockUntil in
      let* c := ClaimSystemTask t.(st_ID) ty runnerID until in
      let* l := claim_loop runnerID rest in
      Done (match c with Claimed t => t :: l | _ => l end)
  end.
Definition runSystemTaskClaimPass (runnerID : string) (types : list string) : prog (list SystemTask) :=
  match types with
  | [] => Done []
  | _ =>
      let* pending := read (fun s => List.map (fun ty => (ty, FindEarliestPendingSystemTask ty s)) types) in
      match pending with None => Done [] | Some pending => claim_loop runnerID pending end
  end.

(** One pass of [StartSystemTaskRunner]: [stale] and [schedule] say whether the intervals
    since the last clean-up and the last scheduling have passed. *)
Definition runPass (stale schedule : bool) (runnerID : string) (types : list string) (l : list Scheduled) : prog (list SystemTask) :=
  let* _ := if stale then (let* now := GetTimestamp in ExpireStaleSystemTaskLocks now) else Done true in
  let* _ := if schedule then runSystemTaskScheduler l else Done tt in
  runSystemTaskClaimPass runnerID types.
(** One beat of [runWithLeaseHeartbeat]. *)
Definition heartbeat (taskID runnerID : string) : prog lease_result :=
  let* until := systemTaskLockUntil in RenewSystemTaskLock taskID runnerID until.

(** The callback of [NewSystemTaskProgressReporter]: what it remembers, in nanoseconds; and
    the text of the state it writes. *)
Record Reporter := mkReporter { lastWriteAt : option Z; lastProgress : Z }.
Definition new_reporter : Reporter := mkReporter None (-1).
Definition report_progress (text : Z -> Z -> Z -> option string) (task : SystemTask) (runnerID : string) (now processed total : Z) (rep : Reporter) : prog Reporter :=
  let progress := if 0 <? total then Z.quot (processed *! 100) total else 100 in
  let progress := if progress <? 0 then 0 else if 100 <? progress then 100 else progress in
  let recent := match rep.(lastWriteAt) with Some t => now - t <? 2 * 1000000000 | None => false end in
  if (progress <? 100) && ((progress =? rep.(lastProgress)) || recent) then Done rep
  else
    let* _ := UpdateSystemTaskState task.(st_TaskID) runnerID (text total processed progress) in
    Done (mkReporter (Some now) progress).

(** ** The clean-up of logs *)

Record LogCleanupPayload := mkPayload { TargetTimestamp : Z; BatchSize : Z }.
Record LogCleanupState := mkCleanup { lc_Total : Z; lc_Processed : Z; lc_Progress : Z; lc_Remaining : Z }.
(** The JSON texts of payload, state and result. *)
Class CleanupJSON := {
  decode_payload : string -> option LogCleanupPayload;
  decode_state : string -> option LogCleanupState;
  state_text : LogCleanupState -> option string;
  result_text : Z -> option string
}.
(** [decodeSystemTaskJSONString] leaves the value as it is if there is no text. *)
Definition DecodePayload `{!CleanupJSON} (t : SystemTask) : option LogCleanupPayload :=
  if String.eqb t.(st_Payload) "" then Some (mkPayload 0 0) else decode_payload t.(st_Payload).
Definition DecodeState `{!CleanupJSON} (t : SystemTask) : option LogCleanupState :=
  if String.eqb t.(st_State) "" then Some (mkCleanup 0 0 0 0) else decode_state t.(st_State).
Definition logCleanupBatchSize : Z := 100.
Definition logCleanupProgress (processed total : Z) : Z :=
  if total <=? 0 then 100 else if processed <=? 0 then 0 else if total <=? processed then 100
  else Z.quot (processed *! 100) total.
Definition syncLogCleanupStateFromRemaining (remaining : Z) (st : LogCleanupState) : LogCleanupState :=
  let '(total, processed) :=
    if st.(lc_Total) <=? 0 then (remaining, 0)
    else (st.(lc_Total), Z.max st.(lc_Processed) (st.(lc_Total) -! remaining)) in
  let processed := Z.max 0 processed in
  mkCleanup total processed (logCleanupProgress processed total) remaining.

Definition CountOldLog (target : Z) : prog (option Z) := read (fun s => Z.of_nat (length (filter (fun t => t < target) s.(old_logs)))).
Fixpoint delete_old (target : Z) (n : nat) (l : list Z) : list Z :=
  match n, l with
  | O, _ | _, [] => l
  | S m, t :: l => if t <? target then delete_old target m l else t :: delete_old target n l
  end.
Definition delete_logs (target : Z) (n : nat) (s : LState) : Z * LState :=
  let rest := delete_old target n s.(old_logs) in
  (Z.of_nat (length s.(old_logs)) - Z.of_nat (length rest), set_old_logs (fun _ => rest) s).
(** A cancelled context is a statement that fails.  [clickhouse]: all matching rows go in one mutation, counted before.  Where a limit does
    not apply to a deletion all matching rows go, too. *)
Definition DeleteOldLogBatch (clickhouse : bool) (target limit : Z) : prog (option Z) :=
  let limit := if limit <=? 0 then 100 else limit in
  if clickhouse then
    let* total := CountOldLog target in
    match total with
    | None => Done None
    | Some total =>
        if total =? 0 then Done (Some 0)
        else
          let* d := stmt (fun s => delete_logs target (length s.(old_logs)) s) in
          Done (match d with None => None | Some _ => Some total end)
    end
  else stmt (fun s => delete_logs target (if s.(limit_applies) then Z.to_nat limit else length s.(old_logs)) s).

Section cleanup.
Context `{!CleanupJSON}.
Variable clickhouse : bool.

Definition failSystemTask (task : SystemTask) (runnerID err : string) : prog unit :=
  let* _ := FinishSystemTask task.(st_TaskID) runnerID SystemTaskStatusFailed (Some ""%string) err in Done tt.
Definition save_state (task : SystemTask) (runnerID : string) (st : LogCleanupState) : prog lease_result :=
  UpdateSystemTaskState task.(st_TaskID) runnerID (state_text st).

(** How a round ends: the handler returned, there is no fuel left, or it goes on. *)
Inductive round := Stopped | NoFuel | GoOn (st : LogCleanupState) (progressed : bool).
Fixpoint clean_batches (fuel : nat) (task : SystemTask) (runnerID : string) (p : LogCleanupPayload) (st : LogCleanupState) (progressed : bool)
    : prog round :=
  if st.(lc_Remaining) <=? 0 then Done (GoOn st progressed)
  else match fuel with
  | O => Done NoFuel
  | S fuel =>
      let* n := DeleteOldLogBatch clickhouse p.(TargetTimestamp) p.(BatchSize) in
      match n with
      | None => let* _ := failSystemTask task runnerID "delete" in Done Stopped
      | Some n =>
          if n =? 0 then Done (GoOn st progressed)
          else
            let processed := st.(lc_Processed) +! n in
            let total := Z.max st.(lc_Total) processed in
            let remaining := if n <? st.(lc_Remaining) then st.(lc_Remaining) -! n else 0 in
            let st := mkCleanup total processed (logCleanupProgress processed total) remaining in
            let* u := save_state task runnerID st in
            match u with LeaseOk => clean_batches fuel task runnerID p st true | _ => Done Stopped end
      end
  end.
(** [None]: no fuel left. *)
Fixpoint clean_rounds (fuel : nat) (task : SystemTask) (runnerID : string) (p : LogCleanupPayload) (st : LogCleanupState) : prog (option unit) :=
  match fuel with
  | O => Done None
  | S fuel =>
      let* remaining := CountOldLog p.(TargetTimestamp) in
      match remaining with
      | None => let* _ := failSystemTask task runnerID "count" in Done (Some tt)
      | Some remaining =>
          let st := syncLogCleanupStateFromRemaining remaining st in
          let* u := save_state task runnerID st in
          match u with
          | LeaseOk =>
              if st.(lc_Remaining) =? 0 then
                let st := mkCleanup (Z.max st.(lc_Total) st.(lc_Processed)) st.(lc_Processed) 100 0 in
                let* u := save_state task runnerID st in
                match u with
                | LeaseOk =>
                    let* _ := FinishSystemTask task.(st_TaskID) runnerID SystemTaskStatusSucceeded (result_text st.(lc_Processed)) "" in Done (Some tt)
                | _ => Done (Some tt)
                end
              else
                let* r := clean_batches (Z.to_nat st.(lc_Remaining)) task runnerID p st false in
                match r with
                | Stopped => Done (Some tt)
                | NoFuel => Done None
                | GoOn st progressed =>
                    if negb progressed then let* _ := failSystemTask task runnerID "no log rows were deleted" in Done (Some tt)
                    else clean_rounds fuel task runnerID p st
                end
          | _ => Done (Some tt)
          end
      end
  end.
Definition runLogCleanupTask (fuel : nat) (task : SystemTask) (runnerID : string) : prog (option unit) :=
  match DecodePayload task with
  | None => let* _ := failSystemTask task runnerID "payload" in Done (Some tt)
  | Some p =>
      if p.(TargetTimestamp) <=? 0 then let* _ := failSystemTask task runnerID "target timestamp is required" in Done (Some tt)
      else
        let p := if p.(BatchSize) <=? 0 then mkPayload p.(TargetTimestamp) logCleanupBatchSize else p in
        match DecodeState task with
        | None => let* _ := failSystemTask task runnerID "state" in Done (Some tt)
        | Some st => clean_rounds fuel task runnerID p st
        end
  end.
End cleanup.
