(* ===== verification/LeaseLaws.v ===== *)
(** * Interleavings of system tasks (theorems on Lease)

    Any number of nodes run their programs statement by statement, with any failures and
    with the clock advancing in between. *)

From stdpp Require Import base tactics numbers list gmap strings pretty sorting.
From Stdlib Require Import ZArith Lia.
From S2P Require Import Prelude Lease.
Open Scope Z_scope.
Open Scope prog_scope.

(** ** What one statement of a runner may do *)

(** A lock row names the task and the runner. *)
Definition fenced (s : LState) (t : SystemTask) (r : string) : Prop :=
  exists ty l, s.(sys_locks) !! ty = Some l /\ l.(sl_TaskID) = t.(st_TaskID) /\ l.(sl_LockedBy) = r.
Definition final (st : SystemTaskStatus) : Prop := st = SystemTaskStatusSucceeded \/ st = SystemTaskStatusFailed.

(** The changes of a task's row: it is claimed; its owner writes its state or finishes it,
    under a lock; or it is failed as expired. *)
Definition claim_row (now : Z) (r : string) (t : SystemTask) : SystemTask :=
  set_st_UpdatedAt (fun _ => now) (set_st_LockedBy (fun _ => r) (set_st_Status (fun _ => SystemTaskStatusRunning) t)).
Definition state_row (now : Z) (st : string) (t : SystemTask) : SystemTask :=
  set_st_UpdatedAt (fun _ => now) (set_st_State (fun _ => st) t).
Definition finish_row (now : Z) (status : SystemTaskStatus) (res err : string) (t : SystemTask) : SystemTask :=
  set_st_UpdatedAt (fun _ => now) (set_st_Error (fun _ => err) (set_st_Result (fun _ => res)
    (set_st_ActiveKey (fun _ => None) (set_st_Status (fun _ => status) t)))).
Definition expire_row (now : Z) (t : SystemTask) : SystemTask :=
  set_st_UpdatedAt (fun _ => now) (set_st_Error (fun _ => "task lease expired"%string)
    (set_st_ActiveKey (fun _ => None) (set_st_Status (fun _ => SystemTaskStatusFailed) t))).
Inductive task_step (r : string) (s : LState) (t : SystemTask) : SystemTask -> Prop :=
| ts_same : task_step r s t t
| ts_claim now : t.(st_Status) = SystemTaskStatusPending -> task_step r s t (claim_row now r t)
| ts_state now st : t.(st_Status) = SystemTaskStatusRunning -> t.(st_LockedBy) = r -> fenced s t r -> task_step r s t (state_row now st t)
| ts_finish now status res err :
    t.(st_Status) = SystemTaskStatusRunning -> t.(st_LockedBy) = r -> fenced s t r -> final status ->
    task_step r s t (finish_row now status res err t)
| ts_expire now : t.(st_Status) = SystemTaskStatusRunning -> task_step r s t (expire_row now t).

(** The changes of a lock: only its owner touches it before it has expired, to renew or to
    release it. *)
Inductive lock_step (r : string) (s : LState) (l : SystemTaskLock) : option SystemTaskLock -> Prop :=
| lk_same : lock_step r s l (Some l)
| lk_expired o : l.(sl_LockedUntil) < s.(l_clock) -> lock_step r s l o
| lk_renewed l' : l.(sl_LockedBy) = r -> l'.(sl_LockedBy) = r -> l'.(sl_TaskID) = l.(sl_TaskID) -> lock_step r s l (Some l')
| lk_released : l.(sl_LockedBy) = r -> lock_step r s l None.

Inductive guar (r : string) (s : LState) : LState -> Prop :=
| g_same : guar r s s
| g_tasks f : (forall id t, s.(sys_tasks) !! id = Some t -> task_step r s t (f t)) -> guar r s (set_sys_tasks (fmap f) s)
| g_create t :
    t.(st_ID) = s.(next_id) -> t.(st_Status) = SystemTaskStatusPending -> t.(st_ActiveKey) = Some t.(st_Type) ->
    (forall id u, s.(sys_tasks) !! id = Some u -> u.(st_TaskID) <> t.(st_TaskID) /\ u.(st_ActiveKey) <> Some t.(st_Type)) ->
    guar r s (set_next_id (fun n => n + 1) (set_sys_tasks (insert s.(next_id) t) s))
| g_locks g : (forall ty l, s.(sys_locks) !! ty = Some l -> lock_step r s l (g s.(sys_locks) !! ty)) -> guar r s (set_sys_locks g s)
| g_logs f : guar r s (set_old_logs f s).

(** ** The invariant of the tables *)

Record table_ok (s : LState) : Prop := mk_table_ok {
  to_id : forall id t, s.(sys_tasks) !! id = Some t -> t.(st_ID) = id /\ id < s.(next_id);
  to_key : forall id t, s.(sys_tasks) !! id = Some t -> t.(st_ActiveKey) = if is_active t then Some t.(st_Type) else None;
  to_taskid : forall i j t u, s.(sys_tasks) !! i = Some t -> s.(sys_tasks) !! j = Some u -> t.(st_TaskID) = u.(st_TaskID) -> i = j;
  to_active : forall i j t u, s.(sys_tasks) !! i = Some t -> s.(sys_tasks) !! j = Some u ->
    is_active t = true -> is_active u = true -> t.(st_Type) = u.(st_Type) -> i = j
}.

Lemma task_step_frame r s t t' :
  task_step r s t t' -> t'.(st_ID) = t.(st_ID) /\ t'.(st_TaskID) = t.(st_TaskID) /\ t'.(st_Type) = t.(st_Type) /\
    (is_active t' = true -> is_active t = true) /\
    (t.(st_ActiveKey) = (if is_active t then Some t.(st_Type) else None) -> t'.(st_ActiveKey) = if is_active t' then Some t'.(st_Type) else None).
Proof.
  destruct 1 as [|now Hs|now st Hs|now status res err Hs _ _ Hf|now Hs]; split_and!; try done; unfold is_active, has_status in *; simpl;
    rewrite ?Hs; try done; destruct Hf as [->| ->]; done.
Qed.
Lemma guar_table_ok r s s' : guar r s s' -> table_ok s -> table_ok s'.
Proof.
  destruct 1 as [|f Hf|t Hid Hst Hkey Hfresh|g _|f]; intros [H1 H2 H3 H4]; try done.
  - split; simpl.
    + intros id t. rewrite lookup_fmap, fmap_Some. intros (u & Hu & ->). destruct (task_step_frame _ _ _ _ (Hf id u Hu)) as (-> & _). auto.
    + intros id t. rewrite lookup_fmap, fmap_Some. intros (u & Hu & ->). destruct (task_step_frame _ _ _ _ (Hf id u Hu)) as (_ & _ & _ & _ & Hk). eauto.
    + intros i j t u. rewrite !lookup_fmap, !fmap_Some. intros (a & Ha & ->) (b & Hb & ->).
      destruct (task_step_frame _ _ _ _ (Hf i a Ha)) as (_ & -> & _). destruct (task_step_frame _ _ _ _ (Hf j b Hb)) as (_ & -> & _). eauto.
    + intros i j t u. rewrite !lookup_fmap, !fmap_Some. intros (a & Ha & ->) (b & Hb & ->).
      destruct (task_step_frame _ _ _ _ (Hf i a Ha)) as (_ & _ & -> & Ia & _). destruct (task_step_frame _ _ _ _ (Hf j b Hb)) as (_ & _ & -> & Ib & _). eauto.
  - assert (forall id u, s.(sys_tasks) !! id = Some u -> id <> s.(next_id)) as Hnew by (intros id u Hu; destruct (H1 id u Hu); lia).
    split; simpl.
    + intros id u. rewrite lookup_insert_Some. intros [[<- <-]|[_ Hu]]; [lia|]. destruct (H1 id u Hu). lia.
    + intros id u. rewrite lookup_insert_Some. intros [[<- <-]|[_ Hu]]; [|eauto]. unfold is_active, has_status. rewrite Hst. done.
    + intros i j a b. rewrite !lookup_insert_Some. intros [[<- <-]|[_ Ha]] [[<- <-]|[_ Hb]] E; [done| | |eauto].
      * destruct (Hfresh j b Hb) as [Hn _]. congruence.
      * destruct (Hfresh i a Ha) as [Hn _]. congruence.
    + intros i j a b. rewrite !lookup_insert_Some. intros [[<- <-]|[_ Ha]] [[<- <-]|[_ Hb]] Ia Ib E; [done| | |eauto].
      * destruct (Hfresh j b Hb) as [_ Hn]. rewrite (H2 j b Hb), Ib in Hn. congruence.
      * destruct (Hfresh i a Ha) as [_ Hn]. rewrite (H2 i a Ha), Ia in Hn. congruence.
Qed.

(** ** Programs under a discipline *)

(** [I] holds whenever a statement starts, each statement keeps to [G].  The programs are
    followed through any state that others leave, at any time since [lo]. *)
Section wp.
Context (I : LState -> Prop) (G : LState -> LState -> Prop).

Fixpoint wp {A} (lo : Z) (p : prog A) (Q : A -> Prop) : Prop :=
  match p with
  | Done a => Q a
  | Now k => forall t, lo <= t -> wp t (k t) Q
  | Stmt B f k => (forall s, I s -> lo <= s.(l_clock) -> G s (f s).2 /\ wp lo (k (Some (f s).1)) Q) /\ wp lo (k None) Q
  end.
Lemma wp_mono {A} lo lo' (p : prog A) (Q Q' : A -> Prop) :
  wp lo p Q -> lo <= lo' -> (forall a, Q a -> Q' a) -> wp lo' p Q'.
Proof.
  revert lo lo'. induction p as [a|k IH|B f k IH]; intros lo lo' Hs Hl HQ; simpl in *; [auto| |].
  - intros t Ht. eapply IH; [apply (Hs t); lia|lia|done].
  - destruct Hs as [Hs1 Hs2]. split; [|by eapply IH]. intros s Ht Hc. destruct (Hs1 s Ht ltac:(lia)) as [Hg Hk]. split; [done|]. by eapply IH.
Qed.
Lemma wp_bind {A B} lo (p : prog A) (q : A -> prog B) (R : A -> Prop) (Q : B -> Prop) :
  wp lo p R -> (forall a lo', lo <= lo' -> R a -> wp lo' (q a) Q) -> wp lo (pbind p q) Q.
Proof.
  revert lo. induction p as [a|k IH|C f k IH]; intros lo Hs Hq; simpl in *.
  - apply Hq; [lia|done].
  - intros t Ht. apply IH; [auto|]. intros a lo' Hlo. apply Hq. lia.
  - destruct Hs as [Hs1 Hs2]. split; [|by apply IH]. intros s Ht Hc. destruct (Hs1 s Ht Hc) as [Hg Hk]. split; [done|]. by apply IH.
Qed.
Lemma wp_seq {A B} lo (p : prog A) (q : A -> prog B) (Q : B -> Prop) :
  wp lo p (fun _ => True) -> (forall a lo', lo <= lo' -> wp lo' (q a) Q) -> wp lo (pbind p q) Q.
Proof. intros Hp Hq. eapply wp_bind; [done|]. auto. Qed.
Lemma wp_time {A} lo (q : Z -> prog A) (Q : A -> Prop) : (forall t, lo <= t -> wp t (q t) Q) -> wp lo (pbind GetTimestamp q) Q.
Proof. done. Qed.
Lemma wp_stmt {B : Set} lo (f : LState -> B * LState) (R : B -> Prop) :
  (forall s, I s -> lo <= s.(l_clock) -> G s (f s).2 /\ R (f s).1) -> wp lo (stmt f) (fun o => forall b, o = Some b -> R b).
Proof. intros Hf. split; [|done]. intros s Ht Hc. destruct (Hf s Ht Hc) as [Hg Hr]. split; [done|]. simpl. by intros b [= <-]. Qed.
Lemma wp_read {B : Set} lo (f : LState -> B) (R : B -> Prop) :
  (forall s, I s -> G s s) -> (forall s, I s -> R (f s)) -> wp lo (read f) (fun o => forall b, o = Some b -> R b).
Proof. intros HG Hf. apply wp_stmt. intros s Hs _. simpl. auto. Qed.
End wp.
Arguments wp I G {A} lo p Q : simpl never.
Arguments pbind {A B} p q : simpl never.

(** ** The statements of the operations *)

Definition pending (id : Z) (taskType : string) (t : SystemTask) : bool :=
  (t.(st_ID) =? id) && String.eqb t.(st_Type) taskType && has_status SystemTaskStatusPending t.
Definition expiring (taskID : string) (t : SystemTask) : bool := String.eqb t.(st_TaskID) taskID && has_status SystemTaskStatusRunning t.
Definition locked_as (taskID lockedBy : string) (l : SystemTaskLock) : bool := String.eqb l.(sl_TaskID) taskID && String.eqb l.(sl_LockedBy) lockedBy.

(** What a discipline must allow runner [r]; [K] is known of the tasks it takes locks for
    and of the tasks it fails. *)
Class Discipline (r : string) (I : LState -> Prop) (G : LState -> LState -> Prop) (K : string -> Prop) : Prop := {
  d_refl : forall s, I s -> G s s;
  d_create : forall s taskID ty payload state now, I s -> G s (create_task taskID ty payload state now s).2;
  d_claim : forall s id ty now, I s -> G s (update_tasks (fun _ => pending id ty) (claim_row now r) s).2;
  d_expire : forall s taskID now, I s -> K taskID -> G s (update_tasks (fun _ => expiring taskID) (expire_row now) s).2;
  d_state : forall s taskID now st, I s -> G s (update_tasks (owned taskID r now) (state_row now st) s).2;
  d_finish : forall s taskID now st res err, I s -> final st -> G s (update_tasks (owned taskID r now) (finish_row now st res err) s).2;
  d_lock : forall s ty taskID until now, I s -> K taskID -> G s (create_lock ty (mkSystemTaskLock taskID r until now) s).2;
  d_take : forall s ty taskID until now, I s -> K taskID -> now <= s.(l_clock) ->
    G s (update_locks (fun ty' l => String.eqb ty' ty && (l.(sl_LockedUntil) <? now)) (fun _ => mkSystemTaskLock taskID r until now) s).2;
  d_renew : forall s taskID until now, I s ->
    G s (update_locks (fun _ l => locked_as taskID r l && (now <=? l.(sl_LockedUntil)))
           (fun l => set_sl_UpdatedAt (fun _ => now) (set_sl_LockedUntil (fun _ => until) l)) s).2;
  d_release : forall s taskID, I s -> G s (delete_locks (fun _ l => locked_as taskID r l) s).2;
  d_sweep : forall s ty taskID by' now, I s -> now <= s.(l_clock) ->
    G s (delete_locks (fun ty' l => String.eqb ty' ty && String.eqb l.(sl_TaskID) taskID && String.eqb l.(sl_LockedBy) by' && (l.(sl_LockedUntil) <? now)) s).2;
  d_logs : forall s f, I s -> G s (set_old_logs f s);
  d_pending : forall s id t, I s -> s.(sys_tasks) !! id = Some t -> t.(st_Status) = SystemTaskStatusPending -> K t.(st_TaskID);
  d_holder : forall s ty l, I s -> s.(sys_locks) !! ty = Some l -> K l.(sl_TaskID)
}.

Lemma select_tasks_elem (p : SystemTask -> bool) s t : t ∈ select_tasks p s -> exists id, s.(sys_tasks) !! id = Some t /\ p t = true.
Proof.
  unfold select_tasks. rewrite merge_sort_Permutation, list_elem_of_filter, list_elem_of_fmap.
  intros [Hp ([id u] & -> & Hu)]. exists id. split; [by apply elem_of_map_to_list|]. by apply Is_true_eq_true.
Qed.

Create HintDb lease discriminated.
(** Follow a program; the calls it makes are left to the hints. *)
Ltac lease_step :=
  match goal with
  | |- wp _ _ _ (Done _) _ => done
  | |- wp _ _ _ (pbind GetTimestamp _) _ => apply wp_time; intros ? ?
  | |- wp _ _ _ (pbind _ _) _ => eapply wp_seq; [solve [eauto with lease]|intros ? ? ?]
  | |- wp _ _ _ (match ?x with _ => _ end) _ => destruct x
  | |- wp _ _ _ _ _ => solve [eauto with lease]
  end.
Ltac lease := repeat (cbv zeta; lease_step).

Section operations.
Context {r : string} {I : LState -> Prop} {G : LState -> LState -> Prop} {K : string -> Prop} `{HD : !Discipline r I G K}.
Abbreviation SAFE lo p := (wp I G lo p (fun _ => True)).

Lemma safe_read {B : Set} lo (f : LState -> B) : SAFE lo (read f).
Proof. split; [|done]. intros s Hs _. split; [by eapply d_refl|done]. Qed.
Lemma safe_stmt {B : Set} lo (f : LState -> B * LState) : (forall s, I s -> lo <= s.(l_clock) -> G s (f s).2) -> SAFE lo (stmt f).
Proof. intros Hf. split; [|done]. intros s Hs Hc. split; [auto|done]. Qed.
#[local] Hint Resolve safe_read : lease.

Lemma safe_MarkSystemTaskLeaseExpired lo taskID : K taskID -> SAFE lo (MarkSystemTaskLeaseExpired taskID).
Proof.
  intros HK. unfold MarkSystemTaskLeaseExpired. apply wp_time. intros now _. eapply wp_seq; [|intros; lease].
  apply safe_stmt. intros s Hs _. by eapply d_expire.
Qed.
Lemma safe_ReleaseSystemTaskLock lo taskID : SAFE lo (ReleaseSystemTaskLock taskID r).
Proof. unfold ReleaseSystemTaskLock. eapply wp_seq; [|intros; lease]. apply safe_stmt. intros s Hs _. by eapply d_release. Qed.
Lemma safe_GetActiveSystemTask lo ty : SAFE lo (GetActiveSystemTask ty).
Proof. unfold GetActiveSystemTask. lease. Qed.
#[local] Hint Resolve safe_MarkSystemTaskLeaseExpired safe_ReleaseSystemTaskLock safe_GetActiveSystemTask : lease.
Lemma safe_CreateSystemTask lo taskID ty payload state : SAFE lo (CreateSystemTask taskID ty payload state).
Proof.
  unfold CreateSystemTask. destruct payload as [pl|], state as [st|]; try done. apply wp_time. intros now _. eapply wp_seq; [|intros; lease].
  apply safe_stmt. intros s Hs _. by eapply d_create.
Qed.
#[local] Hint Resolve safe_CreateSystemTask : lease.

(** The task whose lease is taken over held a lock. *)
Lemma safe_acquireSystemTaskLock lo ty taskID now until :
  now <= lo -> K taskID ->
  wp I G lo (acquireSystemTaskLock ty taskID r now until) (fun a => forall e, a = Acquired e -> e = ""%string \/ K e).
Proof.
  intros Hnow HK. unfold acquireSystemTaskLock. eapply wp_seq.
  { apply safe_stmt. intros s Hs _. by eapply d_lock. }
  intros c lo1 Hlo1. case_bool_decide; [intros e [= <-]; by left|].
  eapply wp_bind.
  { apply (wp_read _ _ _ _ (fun o => forall l, o = Some l -> K l.(sl_TaskID))); [eapply d_refl|]. intros s Hs l Hl. by eapply d_holder. }
  intros [[l|]|] lo2 Hlo2 Hl; try done. destruct (now <=? _); [done|].
  eapply wp_seq. { apply safe_stmt. intros s Hs Hc. eapply d_take; [done|done|lia]. }
  intros [n|] lo3 Hlo3; [|done]. destruct (n =? 0); [done|]. intros e [= <-]. right. by eapply Hl.
Qed.
Lemma safe_ClaimSystemTask lo id ty until : SAFE lo (ClaimSystemTask id ty r until).
Proof.
  unfold ClaimSystemTask. apply wp_time. intros now Hnow. cbv zeta. eapply wp_bind.
  { apply (wp_read _ _ _ _ (fun l => forall t, t ∈ l -> K t.(st_TaskID))); [eapply d_refl|].
    intros s Hs t (i & Ht & Hp)%select_tasks_elem. eapply d_pending; [done|done|]. unfold has_status in Hp.
    rewrite !andb_true_iff, bool_decide_eq_true in Hp. apply Hp. }
  intros [[|t l]|] lo1 Hlo1 Hr; try done. cbn [first_task]. assert (K t.(st_TaskID)) as HKt by (eapply Hr; [done|left]).
  eapply wp_bind; [by apply safe_acquireSystemTaskLock|]. intros [e| |] lo2 Hlo2 He; try done. eapply wp_seq.
  { destruct (_ && _) eqn:E; [|done]. apply safe_MarkSystemTaskLeaseExpired. destruct (He e eq_refl) as [->|]; done. }
  intros marked lo3 Hlo3. destruct (negb marked); [lease|]. eapply wp_seq.
  { apply safe_stmt. intros s Hs _. by eapply d_claim. }
  intros u lo4 Hlo4. lease.
Qed.
#[local] Hint Resolve safe_ClaimSystemTask : lease.
Lemma safe_UpdateSystemTaskState lo taskID st : SAFE lo (UpdateSystemTaskState taskID r st).
Proof.
  unfold UpdateSystemTaskState. destruct st as [st|]; [|done]. apply wp_time. intros now _. eapply wp_seq; [|intros; lease].
  apply safe_stmt. intros s Hs _. by eapply d_state.
Qed.
Lemma safe_RenewSystemTaskLock lo taskID until : SAFE lo (RenewSystemTaskLock taskID r until).
Proof.
  unfold RenewSystemTaskLock. apply wp_time. intros now _. eapply wp_seq; [|intros; lease].
  apply safe_stmt. intros s Hs _. by eapply d_renew.
Qed.
Lemma safe_FinishSystemTask lo taskID status res err : final status -> SAFE lo (FinishSystemTask taskID r status res err).
Proof.
  intros Hf. unfold FinishSystemTask. destruct res as [res|]; [|done]. apply wp_time. intros now _. eapply wp_seq; [|intros; lease].
  apply safe_stmt. intros s Hs _. by eapply d_finish.
Qed.
Lemma safe_expire_locks now l lo : now <= lo -> (forall x, x ∈ l -> K x.2.(sl_TaskID)) -> SAFE lo (expire_locks now l).
Proof.
  revert lo. induction l as [|[ty lock] l IH]; intros lo Hnow HK; [done|]. simpl expire_locks.
  eapply wp_seq; [apply safe_MarkSystemTaskLeaseExpired; apply (HK (ty, lock)); left|]. intros m lo1 Hlo1. destruct (negb m); [done|].
  eapply wp_seq. { apply safe_stmt. intros s Hs Hc. eapply d_sweep; [done|lia]. }
  intros [[]|] lo2 Hlo2; [|done]. apply IH; [lia|]. intros x Hx. apply HK. by right.
Qed.
Lemma safe_ExpireStaleSystemTaskLocks now lo : now <= lo -> SAFE lo (ExpireStaleSystemTaskLocks now).
Proof.
  intros Hnow. unfold ExpireStaleSystemTaskLocks. eapply wp_bind.
  { apply (wp_read _ _ _ _ (fun l : list (string * SystemTaskLock) => forall x, x ∈ l -> K x.2.(sl_TaskID))); [eapply d_refl|].
    intros s Hs [ty l]. rewrite list_elem_of_filter, elem_of_map_to_list. intros [_ Hl]. by eapply d_holder. }
  intros [locks|] lo1 Hlo1 Hl; [|done]. apply safe_expire_locks; [lia|]. by apply Hl.
Qed.
#[local] Hint Resolve safe_UpdateSystemTaskState safe_RenewSystemTaskLock safe_FinishSystemTask safe_ExpireStaleSystemTaskLocks : lease.
Lemma safe_EnqueueSystemTask lo taskID ty payload : SAFE lo (EnqueueSystemTask taskID ty payload).
Proof. unfold EnqueueSystemTask. lease. Qed.
Lemma safe_StartLogCleanupTask lo taskID target payload state : SAFE lo (StartLogCleanupTask taskID target payload state).
Proof. unfold StartLogCleanupTask. lease. Qed.
Lemma safe_schedule_loop now latest l lo : SAFE lo (schedule_loop now latest l).
Proof. revert latest lo. induction l as [|sc l IH]; intros [|t latest] lo; simpl schedule_loop; try done. destruct (is_due _ _ _); lease.
  eapply wp_seq; [destruct a; lease|]. auto. Qed.
Lemma safe_runSystemTaskScheduler l lo : SAFE lo (runSystemTaskScheduler l).
Proof. unfold runSystemTaskScheduler. pose proof safe_schedule_loop. lease. Qed.
Lemma safe_systemTaskLockUntil lo : SAFE lo systemTaskLockUntil.
Proof. unfold systemTaskLockUntil. lease. Qed.
#[local] Hint Resolve safe_systemTaskLockUntil : lease.
Lemma safe_claim_loop l lo : SAFE lo (claim_loop r l).
Proof. revert lo. induction l as [|[ty [t|]] l IH]; intros lo; simpl claim_loop; [done| |done]. lease. Qed.
Lemma safe_runSystemTaskClaimPass types lo : SAFE lo (runSystemTaskClaimPass r types).
Proof. unfold runSystemTaskClaimPass. pose proof safe_claim_loop. lease. Qed.
#[local] Hint Resolve safe_runSystemTaskScheduler safe_runSystemTaskClaimPass : lease.
Lemma safe_runPass stale schedule types l lo : SAFE lo (runPass stale schedule r types l).
Proof.
  unfold runPass. eapply wp_seq.
  { destruct stale; [|done]. apply wp_time. intros t Ht. apply safe_ExpireStaleSystemTaskLocks. lia. }
  intros a lo1 Hlo1. eapply wp_seq; [destruct schedule; lease|intros; lease].
Qed.
Lemma safe_heartbeat taskID lo : SAFE lo (heartbeat taskID r).
Proof. unfold heartbeat. lease. Qed.

Lemma safe_report_progress text task now processed total rep lo : SAFE lo (report_progress text task r now processed total rep).
Proof. unfold report_progress. lease. Qed.

Lemma safe_delete_logs n target lo : SAFE lo (stmt (fun s => delete_logs target (n s) s)).
Proof. apply safe_stmt. intros s Hs _. by apply d_logs. Qed.
Lemma safe_CountOldLog target lo : SAFE lo (CountOldLog target).
Proof. apply safe_read. Qed.
#[local] Hint Resolve safe_delete_logs safe_CountOldLog : lease.
Lemma safe_DeleteOldLogBatch ch target limit lo : SAFE lo (DeleteOldLogBatch ch target limit).
Proof.
  unfold DeleteOldLogBatch. cbv zeta. destruct ch; [|apply (safe_delete_logs (fun s => if s.(limit_applies) then _ else length s.(old_logs)))].
  pose proof (safe_delete_logs (fun s => length s.(old_logs))). lease.
Qed.
Lemma safe_failSystemTask task err lo : SAFE lo (failSystemTask task r err).
Proof. unfold failSystemTask. assert (final SystemTaskStatusFailed) by (by right). lease. Qed.
Lemma safe_save_state `{!CleanupJSON} task st lo : SAFE lo (save_state task r st).
Proof. unfold save_state. lease. Qed.
#[local] Hint Resolve safe_DeleteOldLogBatch safe_failSystemTask safe_save_state : lease.
Lemma safe_clean_batches `{!CleanupJSON} ch fuel task p st b lo : SAFE lo (clean_batches ch fuel task r p st b).
Proof. revert st b lo. induction fuel as [|fuel IH]; intros st b lo; simpl clean_batches; lease. Qed.
#[local] Hint Resolve safe_clean_batches : lease.
Lemma safe_clean_rounds `{!CleanupJSON} ch fuel task p st lo : SAFE lo (clean_rounds ch fuel task r p st).
Proof.
  assert (final SystemTaskStatusSucceeded) by (by left). revert st lo. induction fuel as [|fuel IH]; intros st lo; simpl clean_rounds; lease.
Qed.
#[local] Hint Resolve safe_clean_rounds : lease.
Lemma safe_runLogCleanupTask `{!CleanupJSON} ch fuel task lo : SAFE lo (runLogCleanupTask ch fuel task r).
Proof. unfold runLogCleanupTask. lease. Qed.
End operations.
