(* ===== verification/LeaseRun.v ===== *)
(** * Nodes at work on system tasks (theorems on Lease)

    The step relation of any number of runners over one database, and what holds in every
    state they reach. *)

From stdpp Require Import base tactics numbers list gmap strings pretty sorting.
From Stdlib Require Import ZArith Lia.
From S2P Require Import Prelude Lease LeaseLaws.
Open Scope Z_scope.
Open Scope prog_scope.

(** ** Configurations and steps *)

Definition forget {A} (p : prog A) : prog unit := pbind p (fun _ => Done tt).
(** What a node with runner [r] may start at any time: the requests, the passes of the
    runner, the heartbeat, and the writes of a handler. *)
Inductive entry `{!CleanupJSON} (r : string) : prog unit -> Prop :=
| e_enqueue taskID ty payload : entry r (forget (EnqueueSystemTask taskID ty payload))
| e_start taskID target payload state : entry r (forget (StartLogCleanupTask taskID target payload state))
| e_pass stale schedule types l : entry r (forget (runPass stale schedule r types l))
| e_beat taskID : entry r (forget (heartbeat taskID r))
| e_state taskID st : entry r (forget (UpdateSystemTaskState taskID r st))
| e_report text task now processed total rep : entry r (forget (report_progress text task r now processed total rep))
| e_finish taskID status res err : final status -> entry r (forget (FinishSystemTask taskID r status res err))
| e_cleanup clickhouse fuel task : entry r (forget (runLogCleanupTask clickhouse fuel task r)).

Record Config := mkConfig { db : LState; threads : list (string * prog unit) }.
(** The label is the runner whose statement it is. *)
Inductive step `{!CleanupJSON} : option string -> Config -> Config -> Prop :=
| s_tick c d : 0 <= d -> step None c (mkConfig (set_l_clock (fun t => t + d) c.(db)) c.(threads))
| s_start c r p : entry r p -> step None c (mkConfig c.(db) ((r, p) :: c.(threads)))
| s_now c i r k : c.(threads) !! i = Some (r, Now k) ->
    step None c (mkConfig c.(db) (<[i := (r, k c.(db).(l_clock))]> c.(threads)))
| s_stmt c i r B f k : c.(threads) !! i = Some (r, Stmt B f k) ->
    step (Some r) c (mkConfig (f c.(db)).2 (<[i := (r, k (Some (f c.(db)).1))]> c.(threads)))
| s_fault c i r (B : Set) (f : LState -> B * LState) k : c.(threads) !! i = Some (r, Stmt B f k) ->
    step None c (mkConfig c.(db) (<[i := (r, k None)]> c.(threads)))
| s_crash c i : step None c (mkConfig c.(db) (delete i c.(threads))).
Definition any_step `{!CleanupJSON} (c c' : Config) : Prop := exists o, step o c c'.

Definition started (s : LState) (ths : list (string * prog unit)) : Prop :=
  s.(sys_tasks) = ∅ /\ s.(sys_locks) = ∅ /\ ths = [].
Definition reachable `{!CleanupJSON} (c : Config) : Prop := exists c0, started c0.(db) c0.(threads) /\ rtc any_step c0 c.

(** ** A discipline for all runners is kept by all steps *)

Section soundness.
Context `{!CleanupJSON} (I : LState -> Prop) (G : string -> LState -> LState -> Prop) (K : string -> Prop).
Context `{HD : forall r, Discipline r I (G r) K}.
Hypothesis keeps : forall r s s', I s -> G r s s' -> I s'.
Hypothesis ticks : forall s d, 0 <= d -> I s -> I (set_l_clock (fun t => t + d) s).
Hypothesis timeless : forall r s s', G r s s' -> s'.(l_clock) = s.(l_clock).

Definition thread_ok (s : LState) (rp : string * prog unit) : Prop :=
  exists lo, lo <= s.(l_clock) /\ wp I (G rp.1) lo rp.2 (fun _ => True).
Definition config_ok (c : Config) : Prop := I c.(db) /\ Forall (thread_ok c.(db)) c.(threads).

Lemma entry_ok r p lo : entry r p -> wp I (G r) lo p (fun _ => True).
Proof.
  destruct 1; (eapply wp_seq; [|done]).
  - apply safe_EnqueueSystemTask.
  - apply safe_StartLogCleanupTask.
  - apply safe_runPass.
  - apply safe_heartbeat.
  - apply safe_UpdateSystemTaskState.
  - apply safe_report_progress.
  - by apply safe_FinishSystemTask.
  - apply safe_runLogCleanupTask.
Qed.
Lemma thread_ok_mono s s' rp : s.(l_clock) <= s'.(l_clock) -> thread_ok s rp -> thread_ok s' rp.
Proof. intros Hc (lo & Hlo & Hw). exists lo. split; [lia|done]. Qed.
Lemma step_ok o c c' : step o c c' -> config_ok c -> config_ok c' /\ (forall r, o = Some r -> G r c.(db) c'.(db)) /\ (o = None -> exists d, 0 <= d /\ c'.(db) = set_l_clock (fun t => t + d) c.(db)).
Proof.
  assert (forall s, s = set_l_clock (fun t => t + 0) s) as Hz by (intros []; unfold set_l_clock; simpl; f_equal; lia).
  intros Hstep [HI HT]. destruct Hstep as [c d Hd|c r p Hp|c i r k Hi|c i r B f k Hi|c i r B f k Hi|c i]; (split; [split; simpl|split; [try done|]]); try done;
    try (intros _; exists 0; split; [done|by rewrite <- Hz]).
  - by apply ticks.
  - eapply Forall_impl; [exact HT|]. intros rp. apply thread_ok_mono. simpl. lia.
  - intros _. by exists d.
  - constructor; [|done]. exists c.(db).(l_clock). split; [lia|]. by apply entry_ok.
  - apply Forall_insert; [done|]. destruct (Forall_lookup_1 _ _ _ _ HT Hi) as (lo & Hlo & Hw). exists c.(db).(l_clock). split; [lia|]. by apply Hw.
  - destruct (Forall_lookup_1 _ _ _ _ HT Hi) as (lo & Hlo & [Hw _]). destruct (Hw _ HI Hlo) as [Hg _]. by eapply keeps.
  - destruct (Forall_lookup_1 _ _ _ _ HT Hi) as (lo & Hlo & [Hw _]). destruct (Hw _ HI Hlo) as [Hg Hk]. simpl in Hg.
    apply Forall_insert; [|exists lo; split; [by rewrite (timeless _ _ _ Hg)|done]].
    eapply Forall_impl; [exact HT|]. intros rp. apply thread_ok_mono. by rewrite (timeless _ _ _ Hg).
  - intros r' [= <-]. destruct (Forall_lookup_1 _ _ _ _ HT Hi) as (lo & Hlo & [Hw _]). by apply (Hw _ HI Hlo).
  - apply Forall_insert; [done|]. destruct (Forall_lookup_1 _ _ _ _ HT Hi) as (lo & Hlo & [_ Hw]). by exists lo.
  - by apply Forall_delete.
Qed.
Lemma steps_ok c c' : rtc any_step c c' -> config_ok c -> config_ok c'.
Proof. induction 1 as [|c c1 c2 [o Ho] _ IH]; [done|]. intros Hc. apply IH. by eapply step_ok. Qed.
End soundness.

(** ** The guarantee of every runner *)

Lemma guar_update_tasks r s (p : LState -> SystemTask -> bool) f :
  (forall id t, s.(sys_tasks) !! id = Some t -> p s t = true -> task_step r s t (f t)) -> guar r s (update_tasks p f s).2.
Proof. intros Hf. apply g_tasks. intros id t Ht. destruct (p s t) eqn:E; [eauto|constructor]. Qed.
Lemma guar_update_locks r s (p : string -> SystemTaskLock -> bool) f :
  (forall ty l, s.(sys_locks) !! ty = Some l -> p ty l = true -> lock_step r s l (Some (f l))) -> guar r s (update_locks p f s).2.
Proof.
  intros Hf. apply g_locks. intros ty l Hl. rewrite map_lookup_imap, Hl. simpl. destruct (p ty l) eqn:E; [eauto|constructor].
Qed.
Lemma guar_delete_locks r s (p : string -> SystemTaskLock -> bool) :
  (forall ty l, s.(sys_locks) !! ty = Some l -> p ty l = true -> lock_step r s l None) -> guar r s (delete_locks p s).2.
Proof.
  intros Hf. apply g_locks. intros ty l Hl. rewrite map_lookup_filter, Hl. simpl.
  destruct (p ty l) eqn:E; case_guard as H; simpl in *; try done; [eauto|constructor].
Qed.
Lemma has_status_true st t : has_status st t = true <-> t.(st_Status) = st.
Proof. apply bool_decide_eq_true. Qed.
Lemma lease_held_true s taskID by' now :
  lease_held s taskID by' now = true <->
    exists ty l, s.(sys_locks) !! ty = Some l /\ l.(sl_TaskID) = taskID /\ l.(sl_LockedBy) = by' /\ now <= l.(sl_LockedUntil).
Proof.
  unfold lease_held. rewrite existsb_exists. split.
  - intros (l & Hin & Hp). rewrite !andb_true_iff, !String.eqb_eq, Z.leb_le in Hp. apply list_elem_of_In, list_elem_of_fmap in Hin.
    destruct Hin as ([ty l'] & -> & Hl). apply elem_of_map_to_list in Hl. naive_solver.
  - intros (ty & l & Hl & <- & <- & Hu). exists l. split.
    + apply list_elem_of_In, list_elem_of_fmap. exists (ty, l). split; [done|]. by apply elem_of_map_to_list.
    + rewrite !String.eqb_refl. simpl. lia.
Qed.
Lemma owned_true taskID by' now s t :
  owned taskID by' now s t = true -> t.(st_TaskID) = taskID /\ t.(st_Status) = SystemTaskStatusRunning /\ t.(st_LockedBy) = by' /\ fenced s t by'.
Proof.
  unfold owned. rewrite !andb_true_iff, !String.eqb_eq, has_status_true, lease_held_true.
  intros [[[H1 H2] H3] (ty & l & Hl & Ht & Hb & _)]. split_and!; try done. by exists ty, l.
Qed.
Lemma locked_as_true taskID by' l : locked_as taskID by' l = true <-> l.(sl_TaskID) = taskID /\ l.(sl_LockedBy) = by'.
Proof. unfold locked_as. by rewrite andb_true_iff, !String.eqb_eq. Qed.

#[export] Instance guar_discipline r : Discipline r table_ok (guar r) (fun _ => True).
Proof.
  split; try done; try (intros; constructor; fail).
  - intros s taskID ty payload state now Hs. unfold create_task. destruct (existsb _ _) eqn:E; [constructor|]. apply (g_create r s (mkSystemTask _ _ _ _ _ _ _ _ _ _ _ _)); try done.
    simpl. intros id u Hu. assert (u ∈ (map_to_list s.(sys_tasks)).*2) as Hin.
    { apply list_elem_of_fmap. exists (id, u). split; [done|]. by apply elem_of_map_to_list. }
    apply not_true_iff_false in E. rewrite existsb_exists in E. apply list_elem_of_In in Hin. split; intros Hx; apply E; exists u; (split; [done|]); apply orb_true_iff.
    + left. by apply String.eqb_eq.
    + right. by apply bool_decide_eq_true.
  - intros s id ty now _. apply guar_update_tasks. intros i t Ht. unfold pending. rewrite !andb_true_iff, has_status_true. intros [_ Hp]. by constructor.
  - intros s taskID now _ _. apply guar_update_tasks. intros i t Ht. unfold expiring. rewrite !andb_true_iff, has_status_true. intros [_ Hp]. by constructor.
  - intros s taskID now st _. apply guar_update_tasks. intros i t Ht (_ & H1 & H2 & H3)%owned_true. by constructor.
  - intros s taskID now st res err _ Hf. apply guar_update_tasks. intros i t Ht (_ & H1 & H2 & H3)%owned_true. by constructor.
  - intros s ty taskID until now _ _. unfold create_lock. destruct (s.(sys_locks) !! ty) eqn:E; [constructor|]. apply g_locks.
    intros ty' l Hl. rewrite lookup_insert_ne by congruence. rewrite Hl. constructor.
  - intros s ty taskID until now _ _ Hc. apply guar_update_locks. intros ty' l Hl [_ Hu]%andb_true_iff. apply lk_expired. lia.
  - intros s taskID until now _. apply guar_update_locks. intros ty l Hl [[_ Hb]%locked_as_true _]%andb_true_iff. by apply lk_renewed.
  - intros s taskID _. apply guar_delete_locks. intros ty l Hl [_ Hb]%locked_as_true. by apply lk_released.
  - intros s ty taskID by' now _ Hc. apply guar_delete_locks. intros ty' l Hl [_ Hu]%andb_true_iff. apply lk_expired. lia.
Qed.

Lemma guar_clock r s s' : guar r s s' -> s'.(l_clock) = s.(l_clock).
Proof. by destruct 1. Qed.
Lemma table_ok_tick s d : 0 <= d -> table_ok s -> table_ok (set_l_clock (fun t => t + d) s).
Proof. intros _ [H1 H2 H3 H4]. by split. Qed.
Lemma table_ok_empty s : s.(sys_tasks) = ∅ -> table_ok s.
Proof. intros H. split; intros *; rewrite H, ?lookup_empty; done. Qed.

Lemma guar_keeps r s s' : table_ok s -> guar r s s' -> table_ok s'.
Proof. intros Hs Hg. by eapply guar_table_ok. Qed.

Section reached.
Context `{!CleanupJSON}.
Lemma reachable_ok c : reachable c -> config_ok table_ok guar c.
Proof.
  intros (c0 & (Ht & _ & Hths) & Hr). refine (steps_ok table_ok guar (fun _ => True) guar_keeps table_ok_tick guar_clock _ _ Hr _).
  split; [by apply table_ok_empty|]. rewrite Hths. constructor.
Qed.
Lemma reachable_step o c c' :
  reachable c -> step o c c' ->
  match o with Some r => guar r c.(db) c'.(db) | None => exists d, 0 <= d /\ c'.(db) = set_l_clock (fun t => t + d) c.(db) end.
Proof.
  intros Hr Hs. destruct (step_ok table_ok guar (fun _ => True) guar_keeps table_ok_tick guar_clock
    _ _ _ Hs (reachable_ok _ Hr)) as (_ & H1 & H2). destruct o; auto.
Qed.

(** C22. One active task per type: in every state that any interleaving of requests, runner
    passes, heartbeats and handlers reaches, with any failures and crashes, two pending or
    running tasks of one type are the same row, and the active key of a row is its type
    exactly while it is active. *)
Theorem one_active_task_per_type c i j t u :
  reachable c -> c.(db).(sys_tasks) !! i = Some t -> c.(db).(sys_tasks) !! j = Some u -> is_active t = true -> is_active u = true ->
  t.(st_Type) = u.(st_Type) -> i = j /\ t.(st_ActiveKey) = Some t.(st_Type).
Proof.
  intros Hr Hi Hj Ht Hu E. destruct (reachable_ok _ Hr) as [[_ H2 _ H4] _]. split; [by eapply H4|]. by rewrite (H2 _ _ Hi), Ht.
Qed.

(** C23. A lease is exclusive: while a lock has not expired, no step but a statement of the
    runner that holds it changes it. *)
Theorem lease_exclusive o c c' ty l :
  reachable c -> step o c c' -> c.(db).(sys_locks) !! ty = Some l -> c.(db).(l_clock) <= l.(sl_LockedUntil) -> o <> Some l.(sl_LockedBy) ->
  c'.(db).(sys_locks) !! ty = Some l.
Proof.
  intros Hr Hs Hl Hc Ho. pose proof (reachable_step _ _ _ Hr Hs) as Hg. destruct o as [r|]; [|destruct Hg as (d & _ & ->); done].
  destruct Hg as [|f _|t _ _ _ _|g Hg|f]; try done. simpl. specialize (Hg _ _ Hl). destruct (g _ !! ty) as [l'|];
    inversion Hg; subst; try done; try lia; congruence.
Qed.

(** What a step may do to the row of a task: the row stays, with its id, type and
    payload; the state, the result and a success are only written by the owner of a running
    task for which a lock names it; the owner is only set when a pending task starts to
    run, by the one who starts it; a running task never becomes pending; and a succeeded or
    failed row does not change. *)
Theorem task_rows_governed o c c' id t :
  reachable c -> step o c c' -> c.(db).(sys_tasks) !! id = Some t ->
  exists t', c'.(db).(sys_tasks) !! id = Some t' /\
    (t'.(st_TaskID), t'.(st_Type), t'.(st_Payload)) = (t.(st_TaskID), t.(st_Type), t.(st_Payload)) /\
    (t'.(st_State) <> t.(st_State) \/ t'.(st_Result) <> t.(st_Result) \/ (t'.(st_Status) <> t.(st_Status) /\ t'.(st_Status) = SystemTaskStatusSucceeded) ->
       o = Some t.(st_LockedBy) /\ t.(st_Status) = SystemTaskStatusRunning /\ fenced c.(db) t t.(st_LockedBy)) /\
    (t'.(st_LockedBy) <> t.(st_LockedBy) ->
       o = Some t'.(st_LockedBy) /\ t.(st_Status) = SystemTaskStatusPending /\ t'.(st_Status) = SystemTaskStatusRunning) /\
    (t.(st_Status) = SystemTaskStatusRunning -> t'.(st_Status) <> SystemTaskStatusPending) /\
    (final t.(st_Status) -> t' = t).
Proof.
  intros Hr Hs Ht. pose proof (reachable_step _ _ _ Hr Hs) as Hg. destruct (reachable_ok _ Hr) as [[H1 _ _ _] _].
  destruct o as [r|]; [|destruct Hg as (d & _ & ->); exists t; split_and!; naive_solver congruence].
  destruct Hg as [|f Hf|u _ _ _ _|g Hg|f]; try (exists t; split_and!; naive_solver congruence).
  - exists (f t). simpl. rewrite lookup_fmap, Ht. split; [done|]. destruct (Hf _ _ Ht); simpl; split_and!; unfold final in *; naive_solver congruence.
  - exists t. simpl. rewrite lookup_insert_ne by (destruct (H1 _ _ Ht); lia). split_and!; naive_solver congruence.
Qed.
End reached.
