(* ===== verification/LeaseWedge.v ===== *)
(** * Runs of system tasks, and the one that never ends (theorems on Lease)

    Executable schedules of the step relation; the witnesses of its theorems; and the claim
    that stalls past its lease. *)

From stdpp Require Import base tactics numbers list gmap strings pretty sorting.
From Stdlib Require Import ZArith Lia.
From S2P Require Import Prelude Lease LeaseLaws LeaseRun.
Open Scope Z_scope.
Open Scope prog_scope.

(** ** Schedules *)

Inductive cmd :=
| CTick (d : Z)
| CEnqueue (r taskID ty : string)
| CPass (r : string) (stale : bool) (types : list string)
| CState (r taskID st : string)
| CRun (i : nat)
| CDrop (i : nat).
Definition exec1 (c : Config) (x : cmd) : option Config :=
  match x with
  | CTick d => if 0 <=? d then Some (mkConfig (set_l_clock (fun t => t + d) c.(db)) c.(threads)) else None
  | CEnqueue r taskID ty => Some (mkConfig c.(db) ((r, forget (EnqueueSystemTask taskID ty (Some ""%string))) :: c.(threads)))
  | CPass r stale types => Some (mkConfig c.(db) ((r, forget (runPass stale false r types [])) :: c.(threads)))
  | CState r taskID st => Some (mkConfig c.(db) ((r, forget (UpdateSystemTaskState taskID r (Some st))) :: c.(threads)))
  | CRun i =>
      match c.(threads) !! i with
      | Some (r, Now k) => Some (mkConfig c.(db) (<[i := (r, k c.(db).(l_clock))]> c.(threads)))
      | Some (r, Stmt B f k) => Some (mkConfig (f c.(db)).2 (<[i := (r, k (Some (f c.(db)).1))]> c.(threads)))
      | _ => None
      end
  | CDrop i => Some (mkConfig c.(db) (delete i c.(threads)))
  end.
Fixpoint exec (c : Config) (l : list cmd) : option Config :=
  match l with [] => Some c | x :: l => match exec1 c x with Some c' => exec c' l | None => None end end.
Definition empty_db : LState := mkLState ∅ ∅ 1 1000 false true [].

Section runs.
Context `{!CleanupJSON}.
Lemma exec1_step c x c' : exec1 c x = Some c' -> any_step c c'.
Proof.
  unfold any_step. destruct x as [d|r taskID ty|r stale types|r taskID st|i|i]; unfold exec1.
  - destruct (0 <=? d) eqn:E; intros [= <-]. exists None. constructor. lia.
  - intros [= <-]. exists None. apply s_start. apply e_enqueue.
  - intros [= <-]. exists None. apply s_start. apply e_pass.
  - intros [= <-]. exists None. apply s_start. apply (e_state r taskID (Some st)).
  - destruct (c.(threads) !! i) as [[r [a|k|B f k]]|] eqn:E; intros [= <-].
    + exists None. by apply (s_now c i).
    + exists (Some r). by apply (s_stmt c i).
  - intros [= <-]. exists None. apply s_crash.
Qed.
Lemma exec_steps l c c' : exec c l = Some c' -> rtc any_step c c'.
Proof.
  revert c. induction l as [|x l IH]; intros c; simpl; [by intros [= <-]|]. destruct (exec1 c x) as [c1|] eqn:E; [|done].
  intros He. eapply rtc_l; [by eapply exec1_step|]. by apply IH.
Qed.
Lemma exec_reachable l c : exec (mkConfig empty_db []) l = Some c -> reachable c.
Proof. intros He. exists (mkConfig empty_db []). split; [done|]. by eapply exec_steps. Qed.
End runs.
Definition after (l : list cmd) : Config := default (mkConfig empty_db []) (exec (mkConfig empty_db []) l).

(** ** The stalled claim *)

(** A task is running and no lock names it. *)
Definition wedged (id : Z) (taskID ty : string) (s : LState) : Prop :=
  table_ok s /\ (exists t, s.(sys_tasks) !! id = Some t /\ t.(st_TaskID) = taskID /\ t.(st_Type) = ty /\ t.(st_Status) = SystemTaskStatusRunning) /\
  (forall ty' l, s.(sys_locks) !! ty' = Some l -> l.(sl_TaskID) <> taskID).
Definition stays_wedged id taskID ty (s s' : LState) : Prop := wedged id taskID ty s' /\ s'.(l_clock) = s.(l_clock).

Definition stall : list cmd :=
  [CEnqueue "A" "t1" "test"; CRun 0; CRun 0; CRun 0; CDrop 0;
   CPass "A" false ["test"%string]; CRun 0; CRun 0; CRun 0; CRun 0; CRun 0;
   CTick 100;
   CPass "B" true []; CRun 0; CRun 0; CRun 0; CRun 0; CRun 0; CDrop 0;
   CRun 0; CRun 0; CDrop 0].

Section wedge.
Context (id : Z) (taskID ty : string).
Lemma stays_intro r s s' :
  wedged id taskID ty s -> guar r s s' -> s'.(sys_tasks) !! id = s.(sys_tasks) !! id ->
  (s'.(sys_locks) = s.(sys_locks) \/ forall ty' l, s'.(sys_locks) !! ty' = Some l -> l.(sl_TaskID) <> taskID) -> stays_wedged id taskID ty s s'.
Proof.
  intros (H1 & H2 & H3) Hg Ht Hl. split; [|by eapply guar_clock]. split_and!; [by eapply guar_table_ok|by rewrite Ht|].
  destruct Hl as [->|Hl]; done.
Qed.
(** An update that does not select the running row. *)
Lemma stays_tasks r s (p : LState -> SystemTask -> bool) f :
  wedged id taskID ty s -> guar r s (update_tasks p f s).2 ->
  (forall t, s.(sys_tasks) !! id = Some t -> t.(st_TaskID) = taskID -> t.(st_Status) = SystemTaskStatusRunning -> p s t = false) ->
  stays_wedged id taskID ty s (update_tasks p f s).2.
Proof.
  intros Hw Hg Hp. eapply stays_intro; [done|done| |by left]. destruct Hw as (_ & (t & Ht & Hx & _ & Hs) & _).
  simpl. by rewrite lookup_fmap, Ht; simpl; rewrite Hp.
Qed.
Lemma stays_update_locks r s (p : string -> SystemTaskLock -> bool) f :
  wedged id taskID ty s -> guar r s (update_locks p f s).2 ->
  (forall ty' l, s.(sys_locks) !! ty' = Some l -> p ty' l = true -> (f l).(sl_TaskID) <> taskID) -> stays_wedged id taskID ty s (update_locks p f s).2.
Proof.
  intros Hw Hg Hp. eapply stays_intro; [done|done|done|]. right. intros ty' l'. simpl. rewrite map_lookup_imap.
  destruct (s.(sys_locks) !! ty') as [l|] eqn:E; simpl; [|done]. intros [= <-]. destruct (p ty' l) eqn:Ep; [by eapply Hp|].
  destruct Hw as (_ & _ & Hw). by eapply Hw.
Qed.
Lemma stays_delete_locks r s (p : string -> SystemTaskLock -> bool) :
  wedged id taskID ty s -> guar r s (delete_locks p s).2 -> stays_wedged id taskID ty s (delete_locks p s).2.
Proof.
  intros Hw Hg. eapply stays_intro; [done|done|done|]. right. intros ty' l'. simpl. rewrite map_lookup_filter_Some. intros [Hl _].
  destruct Hw as (_ & _ & Hw). by eapply Hw.
Qed.
Lemma owned_wedged x by' now s t :
  wedged id taskID ty s -> t.(st_TaskID) = taskID -> owned x by' now s t = false.
Proof.
  intros (_ & _ & Hw) <-. apply not_true_iff_false. intros (_ & _ & _ & ty' & l & Hl & Hx & _)%owned_true. by eapply Hw.
Qed.

Instance wedge_discipline r : Discipline r (wedged id taskID ty) (stays_wedged id taskID ty) (fun k => k <> taskID).
Proof.
  split.
  - intros s Hw. by split.
  - intros s x ty' payload state now Hw. apply (stays_intro r); [done|apply (d_create (r := r) (K := fun _ => True)); apply Hw| |].
    + unfold create_task. destruct (existsb _ _); [done|]. simpl. destruct Hw as ([H1 _ _ _] & (t & Ht & _) & _).
      rewrite lookup_insert_ne; [done|]. destruct (H1 _ _ Ht). lia.
    + left. unfold create_task. by destruct (existsb _ _).
  - intros s x ty' now Hw. apply (stays_tasks r); [done|apply (d_claim (r := r) (K := fun _ => True)); apply Hw|]. intros t _ _ Hs.
    unfold pending. apply andb_false_iff. right. unfold has_status. by rewrite Hs.
  - intros s x now Hw Hx. apply (stays_tasks r); [done|apply (d_expire (r := r) (K := fun _ => True)); [apply Hw|done]|]. intros t _ Ht _.
    unfold expiring. apply andb_false_iff. left. apply String.eqb_neq. congruence.
  - intros s x now st Hw. apply (stays_tasks r); [done|apply (d_state (r := r) (K := fun _ => True)); apply Hw|]. intros t _ Ht _. by apply owned_wedged.
  - intros s x now st res err Hw Hf. apply (stays_tasks r); [done|apply (d_finish (r := r) (K := fun _ => True)); [apply Hw|done]|]. intros t _ Ht _. by apply owned_wedged.
  - intros s ty' x until now Hw Hx. apply (stays_intro r); [done|apply (d_lock (r := r) (K := fun _ => True)); [apply Hw|done]| |]; unfold create_lock.
    + by destruct (s.(sys_locks) !! ty').
    + destruct (s.(sys_locks) !! ty'); [by left|]. right. intros ty2 l. simpl. rewrite lookup_insert_Some. intros [[_ <-]|[_ Hl]]; [done|].
      destruct Hw as (_ & _ & Hw). by eapply Hw.
  - intros s ty' x until now Hw Hx Hc. apply (stays_update_locks r); [done|apply (d_take (r := r) (K := fun _ => True)); [apply Hw|done|done]|done].
  - intros s x until now Hw. apply (stays_update_locks r); [done|apply (d_renew (r := r) (K := fun _ => True)); apply Hw|]. intros ty' l Hl _. simpl.
    destruct Hw as (_ & _ & Hw). by eapply Hw.
  - intros s x Hw. apply (stays_delete_locks r); [done|]. apply (d_release (r := r) (K := fun _ => True)); apply Hw.
  - intros s ty' x by' now Hw Hc. apply (stays_delete_locks r); [done|]. apply (d_sweep (r := r) (K := fun _ => True)); [apply Hw|done].
  - intros s f Hw. split; [|done]. destruct Hw as ([] & H2 & H3). split_and!; [by split|done|done].
  - intros s i t Hw Ht Hs Hx. destruct Hw as ([_ _ H3 _] & (u & Hu & Hux & _ & Hus) & _). assert (i = id) as -> by (eapply H3; [done|done|congruence]).
    congruence.
  - intros s ty' l Hw Hl. destruct Hw as (_ & _ & Hw). by eapply Hw.
Qed.

Lemma wedged_forever `{!CleanupJSON} c c' : wedged id taskID ty c.(db) -> c.(threads) = [] -> rtc any_step c c' -> wedged id taskID ty c'.(db).
Proof.
  intros Hw Hths Hr. refine (proj1 (steps_ok (wedged id taskID ty) (fun _ => stays_wedged id taskID ty) (fun k => k <> taskID) _ _ _ _ _ Hr _)).
  - by intros _ s s' _ [Hw' _].
  - intros s d Hd (H1 & H2 & H3). split_and!; [by apply table_ok_tick|done|done].
  - by intros _ s s' [_ Ht].
  - split; [done|]. rewrite Hths. constructor.
Qed.
Lemma wedged_no_creation x payload state now s : wedged id taskID ty s -> (create_task x ty payload state now s).1 = None.
Proof.
  intros ([_ H2 _ _] & (t & Ht & _ & <- & Hs) & _). unfold create_task. destruct (existsb _ _) eqn:E; [done|]. exfalso.
  apply not_true_iff_false in E. apply E, existsb_exists. exists t. split.
  - apply list_elem_of_In, list_elem_of_fmap. exists (id, t). split; [done|]. by apply elem_of_map_to_list.
  - apply orb_true_iff. right. apply bool_decide_eq_true. rewrite (H2 _ _ Ht). unfold is_active, has_status. by rewrite Hs.
Qed.
End wedge.

Lemma after_reachable `{!CleanupJSON} l : bool_decide (is_Some (exec (mkConfig empty_db []) l)) = true -> reachable (after l).
Proof. intros [c Hc]%bool_decide_eq_true. unfold after. rewrite Hc. by eapply exec_reachable. Qed.

(** A claim that stalls past its lease blocks the type for good: when the clean-up of
    stale locks removes the lock of a task that is still pending, the claim goes on to mark
    the task as running, without a lock.  In every state from there on, whatever the nodes
    do, the task is still running and a new task of its type is refused. *)
Theorem stalled_claim_wedges_type `{!CleanupJSON} :
  reachable (after stall) /\ forall c, rtc any_step (after stall) c ->
    (exists t, c.(db).(sys_tasks) !! 1 = Some t /\ t.(st_TaskID) = "t1"%string /\ t.(st_Status) = SystemTaskStatusRunning) /\
    forall taskID payload state now, (create_task taskID "test" payload state now c.(db)).1 = None.
Proof.
  assert (reachable (after stall)) as Hr by (apply after_reachable; vm_compute; reflexivity). split; [done|]. intros c Hc.
  assert (wedged 1 "t1" "test" c.(db)) as Hw.
  { apply (wedged_forever 1 "t1" "test" (after stall) c); [|by vm_compute|exact Hc]. split_and!; [by apply reachable_ok|vm_compute; eauto 6|].
    intros ty' l. replace (sys_locks (db (after stall))) with (∅ : gmap string SystemTaskLock) by (by vm_compute). by rewrite lookup_empty. }
  split; [destruct Hw as (_ & (t & H1 & H2 & _ & H3) & _); by exists t|]. intros x payload state now. by eapply wedged_no_creation.
Qed.

(** ** Witnesses *)

Definition no_json : CleanupJSON :=
  {| decode_payload := fun _ => None; decode_state := fun _ => None; state_text := fun _ => None; result_text := fun _ => None |}.
Definition run_of (c : Config) (i : nat) : Config := default c (exec1 c (CRun i)).
Lemma exec1_stmt `{!CleanupJSON} c i r :
  match c.(threads) !! i with Some (r', Stmt _ _ _) => r' = r | _ => False end -> step (Some r) c (run_of c i).
Proof.
  unfold run_of, exec1. destruct (c.(threads) !! i) as [[r' [a|k|B f k]]|] eqn:E; try done. intros <-. by apply (s_stmt c i).
Qed.
(** A task that node A has claimed. *)
Definition claimed_run : list cmd :=
  [CEnqueue "A" "t1" "test"; CRun 0; CRun 0; CRun 0; CDrop 0;
   CPass "A" false ["test"%string]; CRun 0; CRun 0; CRun 0; CRun 0; CRun 0; CRun 0; CRun 0; CDrop 0].
Definition claimed_task : SystemTask := mkSystemTask 1 "t1" "test" SystemTaskStatusRunning (Some "test"%string) "" "" "" "" "A" 1000 1000.

Lemma one_active_task_per_type_witness :
  (after claimed_run).(db).(sys_tasks) !! 1 = Some claimed_task /\ 1 = 1 /\ claimed_task.(st_ActiveKey) = Some "test"%string.
Proof.
  assert ((after claimed_run).(db).(sys_tasks) !! 1 = Some claimed_task) as E by (vm_compute; reflexivity). split; [exact E|].
  apply (@one_active_task_per_type no_json (after claimed_run) 1 1 claimed_task claimed_task);
    [apply (@after_reachable no_json); vm_compute; reflexivity|exact E|exact E|reflexivity|reflexivity|reflexivity].
Defined.
(** Node B cleans up stale locks at once. *)
Lemma lease_exclusive_witness :
  let c := after (claimed_run ++ [CPass "B" true []; CRun 0]) in
  c.(db).(sys_locks) !! "test"%string = Some (mkSystemTaskLock "t1" "A" 1060 1000) /\
  (run_of c 0).(db).(sys_locks) !! "test"%string = Some (mkSystemTaskLock "t1" "A" 1060 1000).
Proof.
  intros c. assert (c.(db).(sys_locks) !! "test"%string = Some (mkSystemTaskLock "t1" "A" 1060 1000)) as E by (vm_compute; reflexivity).
  split; [exact E|]. apply (@lease_exclusive no_json (Some "B"%string) c (run_of c 0) "test" (mkSystemTaskLock "t1" "A" 1060 1000)).
  - apply (@after_reachable no_json). vm_compute. reflexivity.
  - apply (@exec1_stmt no_json). vm_compute. reflexivity.
  - exact E.
  - vm_compute. discriminate.
  - discriminate.
Defined.
(** The owner writes the state. *)
Lemma task_rows_governed_witness :
  let c := after (claimed_run ++ [CState "A" "t1" "x"; CRun 0]) in
  exists t', (run_of c 0).(db).(sys_tasks) !! 1 = Some t' /\ t'.(st_State) = "x"%string /\ fenced c.(db) claimed_task "A".
Proof.
  intros c. destruct (@task_rows_governed no_json (Some "A"%string) c (run_of c 0) 1 claimed_task) as (t' & Ht & _ & Hw & _).
  - apply (@after_reachable no_json). vm_compute. reflexivity.
  - apply (@exec1_stmt no_json). vm_compute. reflexivity.
  - vm_compute. reflexivity.
  - exists t'. assert (t'.(st_State) = "x"%string) as Hx by (vm_compute in Ht; injection Ht as <-; reflexivity).
    split; [exact Ht|]. split; [exact Hx|]. apply Hw. left. rewrite Hx. discriminate.
Defined.
