(* ===== verification/LeaseCleanup.v ===== *)
(** * The clean-up of logs runs to its end (theorems on Lease)

    A clean-up whose lease stays held and whose statements succeed deletes the old logs,
    and no others, and finishes with their number. *)

From stdpp Require Import base tactics numbers list gmap strings pretty sorting.
From Stdlib Require Import ZArith Lia.
From S2P Require Import Prelude Lease LeaseLaws LeaseRun LeaseWedge.
Open Scope Z_scope.
Open Scope prog_scope.

(** ** Logs *)

Definition old_count (target : Z) (l : list Z) : nat := length (filter (fun t => t < target) l).
Definition kept (target : Z) (l : list Z) : list Z := filter (fun t => ~ t < target) l.

Lemma delete_old_spec target n l :
  old_count target (delete_old target n l) = (old_count target l - n)%nat /\ kept target (delete_old target n l) = kept target l /\
  Z.of_nat (length l) - Z.of_nat (length (delete_old target n l)) = Z.of_nat (Nat.min n (old_count target l)).
Proof.
  unfold old_count, kept. revert n. induction l as [|t l IH]; intros [|n]; cbn [delete_old]; try (split_and!; simpl; lia || done).
  destruct (t <? target) eqn:E.
  - rewrite !filter_cons_True, !filter_cons_False by lia. destruct (IH n) as (H1 & H2 & H3). rewrite H1, H2. split_and!; [done|done|]. simpl length. lia.
  - rewrite !filter_cons_False, !filter_cons_True by lia. destruct (IH (S n)) as (H1 & H2 & H3). rewrite H1, H2. split_and!; [done|done|]. simpl length. lia.
Qed.
Lemma old_count_zero target l : old_count target l = 0%nat -> l = kept target l.
Proof.
  unfold old_count, kept. induction l as [|t l IH]; [done|]. destruct (decide (t < target)).
  - rewrite filter_cons_True by done. done.
  - rewrite filter_cons_False by done. intros H. rewrite filter_cons_True by done. f_equal. auto.
Qed.

(** ** Running without faults *)

#[local] Arguments pbind {A B} !p q.

Abbreviation run p s := (run_alone [] p s).
Lemma run_bind {A B} (p : prog A) (q : A -> prog B) s : run (pbind p q) s = let (a, s1) := run p s in run (q a) s1.
Proof.
  revert s. induction p as [a|k IH|C f k IH]; intros s; [done|apply IH|]. cbn [pbind run_alone tail]. destruct (f s) as [b s1]. apply IH.
Qed.

(** The runner owns the running task under a lease. *)
Definition owns (id : Z) (taskID r : string) (s : LState) : Prop :=
  (exists t, s.(sys_tasks) !! id = Some t /\ t.(st_TaskID) = taskID /\ t.(st_Status) = SystemTaskStatusRunning /\ t.(st_LockedBy) = r) /\
  lease_held s taskID r s.(l_clock) = true.

Lemma count_pos {K A} `{Countable K} (p : A -> bool) (m : gmap K A) k x : m !! k = Some x -> p x = true -> 0 < count p m.
Proof.
  intros Hx Hp. unfold count. assert (filter (fun kv => Is_true (p kv.2)) m !! k = Some x) as Hf.
  { apply map_lookup_filter_Some. split; [done|]. simpl. by rewrite Hp. }
  assert (size (filter (fun kv : K * A => Is_true (p kv.2)) m) <> 0%nat); [|lia].
  rewrite map_size_ne_0_lookup. eauto.
Qed.
Lemma owns_owned id taskID r s t :
  s.(sys_tasks) !! id = Some t -> t.(st_TaskID) = taskID -> t.(st_Status) = SystemTaskStatusRunning -> t.(st_LockedBy) = r ->
  lease_held s taskID r s.(l_clock) = true -> owned taskID r s.(l_clock) s t = true.
Proof. intros _ H1 H2 H3 H4. unfold owned, has_status. rewrite H1, H2, H3, !String.eqb_refl. by simpl. Qed.

Definition wrote (s s' : LState) : Prop :=
  s'.(sys_locks) = s.(sys_locks) /\ s'.(l_clock) = s.(l_clock) /\ s'.(old_logs) = s.(old_logs) /\ s'.(limit_applies) = s.(limit_applies).
Lemma run_UpdateSystemTaskState id taskID r st s :
  owns id taskID r s -> exists s', run (UpdateSystemTaskState taskID r (Some st)) s = (LeaseOk, s') /\ owns id taskID r s' /\ wrote s s'.
Proof.
  intros [(t & Ht & H1 & H2 & H3) Hl]. pose proof (owns_owned _ _ _ _ _ Ht H1 H2 H3 Hl) as Ho.
  exists (update_tasks (owned taskID r s.(l_clock)) (state_row s.(l_clock) st) s).2.
  assert (owns id taskID r (update_tasks (owned taskID r s.(l_clock)) (state_row s.(l_clock) st) s).2) as Hown.
  { split; [|done]. exists (state_row s.(l_clock) st t). simpl. rewrite lookup_fmap, Ht. simpl. by rewrite Ho. }
  split; [|done]. unfold UpdateSystemTaskState, GetTimestamp. cbn [pbind run_alone stmt tail]. unfold update_tasks at 1.
  destruct (0 <? _); [done|]. cbn [pbind run_alone stmt read tail]. destruct (_ =? 0) eqn:E; [|done]. exfalso. destruct Hown as [(t' & Ht' & X1 & X2 & X3) Hl'].
  pose proof (owns_owned _ _ _ _ _ Ht' X1 X2 X3 Hl') as Ho'. pose proof (count_pos _ _ _ _ Ht' Ho'). unfold state_row in *. simpl in *. lia.
Qed.

Lemma run_FinishSystemTask id taskID r status res err s t :
  final status -> owns id taskID r s -> s.(sys_tasks) !! id = Some t ->
  exists s', run (FinishSystemTask taskID r status (Some res) err) s = (LeaseOk, s') /\
    s'.(sys_tasks) !! id = Some (finish_row s.(l_clock) status res err t) /\
    (forall ty l, s'.(sys_locks) !! ty = Some l -> locked_as taskID r l = false) /\ s'.(old_logs) = s.(old_logs).
Proof.
  intros Hf [(t' & Ht & H1 & H2 & H3) Hl] Ht'. assert (t' = t) as -> by congruence. pose proof (owns_owned _ _ _ _ _ Ht H1 H2 H3 Hl) as Ho.
  eexists. split; [|split_and!].
  - unfold FinishSystemTask, ReleaseSystemTaskLock, GetTimestamp. cbn [pbind run_alone stmt tail]. unfold update_tasks. destruct (_ =? 0) eqn:E; [|cbn; reflexivity].
    exfalso. apply Z.eqb_eq in E. revert E. apply Z.neq_sym, Z.lt_neq. eapply count_pos; [exact Ht|]. rewrite Ho. simpl. rewrite orb_true_iff. right.
    apply bool_decide_eq_true. intros Heq. apply (f_equal st_Status) in Heq. simpl in Heq. destruct Hf; congruence.
  - simpl. rewrite lookup_fmap, Ht. simpl. by rewrite Ho.
  - simpl. intros ty l. rewrite map_lookup_filter_Some. simpl. intros [_ Hn]. by apply negb_True, Is_true_false in Hn.
  - done.
Qed.
Lemma run_DeleteOldLogBatch ch target limit s :
  let old := old_count target s.(old_logs) in
  exists n s', run (DeleteOldLogBatch ch target limit) s = (Some (Z.of_nat n), s') /\ (n <= old)%nat /\ (0 < old -> 0 < n)%nat /\
    old_count target s'.(old_logs) = (old - n)%nat /\ kept target s'.(old_logs) = kept target s.(old_logs) /\
    s' = set_old_logs (fun _ => s'.(old_logs)) s.
Proof.
  intros old. assert (forall m, exists n s', delete_logs target m s = (Z.of_nat n, s') /\ n = Nat.min m old /\ old_count target s'.(old_logs) = (old - n)%nat /\
    kept target s'.(old_logs) = kept target s.(old_logs) /\ s' = set_old_logs (fun _ => s'.(old_logs)) s) as Hdel.
  { intros m. destruct (delete_old_spec target m s.(old_logs)) as (H1 & H2 & H3). unfold delete_logs. rewrite H3. do 2 eexists. split; [done|]. simpl.
    split_and!; [done|rewrite H1; unfold old; lia|done|done]. }
  assert (old <= length s.(old_logs))%nat as Hlen by apply length_filter.
  unfold DeleteOldLogBatch. cbv zeta. set (lim := if limit <=? 0 then 100 else limit). assert (0 < lim) as Hlim by (unfold lim; destruct (limit <=? 0) eqn:E; lia).
  destruct ch.
  - unfold CountOldLog, read. cbn [pbind run_alone stmt tail]. change (length (filter (fun t => t < target) s.(old_logs))) with old.
    destruct (Z.of_nat old =? 0) eqn:E.
    + exists 0%nat, s. split_and!; [done|lia|lia|unfold old; lia|done|by destruct s].
    + cbn [pbind run_alone stmt tail]. destruct (Hdel (length s.(old_logs))) as (n & s' & -> & -> & H1 & H2 & H3). exists old, s'. split_and!; [done|lia|lia| |done|done]. lia.
  - destruct (Hdel (if s.(limit_applies) then Z.to_nat lim else length s.(old_logs))) as (n & s' & Hd & Hn & H1 & H2 & H3). exists n, s'.
    cbn [run_alone stmt tail]. rewrite Hd. split_and!; [done| | |done|done|done]; destruct s.(limit_applies); lia.
Qed.

(** ** The handler *)

Section handler.
Context `{!CleanupJSON} (ch : bool) (task : SystemTask) (r : string) (id : Z).
Hypothesis texts : forall st, is_Some (state_text st).
Abbreviation own := (owns id task.(st_TaskID) r).

Lemma run_save_state st s : own s -> exists s', run (save_state task r st) s = (LeaseOk, s') /\ own s' /\ wrote s s'.
Proof. intros Ho. unfold save_state. destruct (texts st) as [x ->]. by apply run_UpdateSystemTaskState. Qed.
Lemma owns_logs f s : own s -> own (set_old_logs f s).
Proof. done. Qed.

(** Total is what has been processed and what remains. *)
Definition on_course (target : Z) (s : LState) (st : LogCleanupState) : Prop :=
  st.(lc_Remaining) = Z.of_nat (old_count target s.(old_logs)) /\ 0 <= st.(lc_Processed) /\ st.(lc_Total) = st.(lc_Processed) + st.(lc_Remaining) /\ in_i64 st.(lc_Total).
Lemma run_clean_batches p fuel st b s :
  own s -> on_course p.(TargetTimestamp) s st -> st.(lc_Remaining) <= Z.of_nat fuel ->
  exists st' s', run (clean_batches ch fuel task r p st b) s = (GoOn st' (b || (0 <? st.(lc_Remaining))), s') /\ own s' /\
    on_course p.(TargetTimestamp) s' st' /\ st'.(lc_Remaining) = 0 /\ st'.(lc_Total) = st.(lc_Total) /\
    kept p.(TargetTimestamp) s'.(old_logs) = kept p.(TargetTimestamp) s.(old_logs).
Proof.
  revert st b s. induction fuel as [|fuel IH]; intros st b s Ho (Hr & Hp & Ht & Hi) Hf; cbn [clean_batches]; destruct (_ <=? 0) eqn:E; try lia.
  - exists st, s. replace (0 <? _) with false by lia. rewrite orb_false_r. split_and!; try done; lia.
  - exists st, s. replace (0 <? _) with false by lia. rewrite orb_false_r. split_and!; try done; lia.
  - rewrite run_bind. destruct (run_DeleteOldLogBatch ch p.(TargetTimestamp) p.(BatchSize) s) as (n & s1 & -> & Hn & Hpos & Hold & Hkept & Hs1).
    replace (Z.of_nat n =? 0) with false by lia. cbv zeta. rewrite run_bind. unfold in_i64 in Hi.
    rewrite (wrap64_id (st.(lc_Processed) + _)), (wrap64_id (st.(lc_Remaining) - _)) by (unfold in_i64, MinInt64, MaxInt64 in *; lia).
    set (st1 := mkCleanup _ _ _ _). destruct (run_save_state st1 s1) as (s2 & -> & Ho2 & _ & _ & Hl2 & _); [by rewrite Hs1|].
    destruct (IH st1 true s2) as (st' & s' & -> & Ho' & Hc & Hz & Htot & Hk).
    + done.
    + unfold st1. split_and!; cbn [lc_Remaining lc_Processed lc_Total]; rewrite ?Hl2, ?Hold; unfold in_i64; try (destruct (_ <? _) eqn:E2); lia.
    + unfold st1. cbn [lc_Remaining]. destruct (_ <? _) eqn:E2; lia.
    + exists st', s'. replace (0 <? st.(lc_Remaining)) with true by lia. rewrite orb_true_r. rewrite Hk, Hl2. split_and!; try done.
      rewrite Htot. unfold st1. cbn [lc_Total]. lia.
Qed.
Lemma run_last_round p fuel st s :
  own s -> old_count p.(TargetTimestamp) s.(old_logs) = 0%nat -> on_course p.(TargetTimestamp) s st -> is_Some (result_text st.(lc_Processed)) ->
  exists s' t', run (clean_rounds ch (S fuel) task r p st) s = (Some tt, s') /\ s'.(sys_tasks) !! id = Some t' /\ t'.(st_Status) = SystemTaskStatusSucceeded /\
    result_text st.(lc_Processed) = Some t'.(st_Result) /\ t'.(st_ActiveKey) = None /\
    (forall ty l, s'.(sys_locks) !! ty = Some l -> locked_as task.(st_TaskID) r l = false) /\ s'.(old_logs) = s.(old_logs).
Proof.
  intros Ho Hz (Hr & Hp & Ht & Hi) [x Hx]. cbn [clean_rounds]. unfold CountOldLog. rewrite run_bind. unfold read at 1. cbn [run_alone stmt tail].
  change (length (filter (fun t => t < p.(TargetTimestamp)) s.(old_logs))) with (old_count p.(TargetTimestamp) s.(old_logs)). rewrite Hz. cbv zeta.
  set (st1 := syncLogCleanupStateFromRemaining _ st).
  assert (st1.(lc_Processed) = st.(lc_Processed) /\ st1.(lc_Remaining) = 0) as [Hp1 Hr1].
  { unfold st1, syncLogCleanupStateFromRemaining. destruct (_ <=? 0) eqn:E; simpl; [lia|]. rewrite wrap64_id by (rewrite Z.sub_0_r; done). lia. }
  rewrite run_bind. destruct (run_save_state st1 s Ho) as (s1 & -> & Ho1 & _ & _ & Hl1 & _). rewrite Hr1. cbn [Z.eqb].
  rewrite run_bind. set (st2 := mkCleanup _ _ _ _). destruct (run_save_state st2 s1 Ho1) as (s2 & -> & Ho2 & _ & _ & Hl2 & _).
  rewrite run_bind. change (st2.(lc_Processed)) with st1.(lc_Processed). rewrite Hp1, Hx. destruct (proj1 Ho2) as (t & Ht2 & _).
  destruct (run_FinishSystemTask id task.(st_TaskID) r SystemTaskStatusSucceeded x "" s2 t) as (s3 & -> & Hrow & Hlocks & Hl3); [by left|done|done|].
  exists s3. eexists. split_and!; [done|exact Hrow|done|by simpl|done|done|congruence].
Qed.

Lemma run_clean_rounds p fuel s :
  (forall n, is_Some (result_text n)) -> own s -> in_i64 (Z.of_nat (old_count p.(TargetTimestamp) s.(old_logs))) ->
  exists s' t', run (clean_rounds ch (S (S fuel)) task r p (mkCleanup 0 0 0 0)) s = (Some tt, s') /\ s'.(sys_tasks) !! id = Some t' /\
    t'.(st_Status) = SystemTaskStatusSucceeded /\ result_text (Z.of_nat (old_count p.(TargetTimestamp) s.(old_logs))) = Some t'.(st_Result) /\ t'.(st_ActiveKey) = None /\
    (forall ty l, s'.(sys_locks) !! ty = Some l -> locked_as task.(st_TaskID) r l = false) /\ s'.(old_logs) = kept p.(TargetTimestamp) s.(old_logs).
Proof.
  intros Hres Ho Hi. destruct (decide (old_count p.(TargetTimestamp) s.(old_logs) = 0%nat)) as [Hz|Hz].
  { destruct (run_last_round p (S fuel) (mkCleanup 0 0 0 0) s Ho Hz) as (s' & t' & Hrun & H1 & H2 & H3 & H4 & H5 & H6);
      [by unfold on_course; rewrite Hz|done|]. exists s', t'. rewrite Hz. split_and!; try done. rewrite H6. by apply old_count_zero. }
  set (f := S fuel). cbn [clean_rounds]. unfold CountOldLog. rewrite run_bind. unfold read at 1. cbn [run_alone stmt tail].
  change (length (filter (fun t => t < p.(TargetTimestamp)) s.(old_logs))) with (old_count p.(TargetTimestamp) s.(old_logs)).
  set (n := old_count p.(TargetTimestamp) s.(old_logs)) in *. cbv zeta. set (st1 := syncLogCleanupStateFromRemaining _ _).
  assert (st1 = mkCleanup (Z.of_nat n) 0 0 (Z.of_nat n)) as Hst1.
  { unfold st1, syncLogCleanupStateFromRemaining, logCleanupProgress. simpl. by destruct (Z.of_nat n <=? 0) eqn:E; [lia|]. }
  rewrite run_bind. destruct (run_save_state st1 s Ho) as (s1 & -> & Ho1 & _ & _ & Hl1 & _). rewrite Hst1. cbn [lc_Remaining].
  replace (Z.of_nat n =? 0) with false by lia. rewrite run_bind.
  destruct (run_clean_batches p (Z.to_nat (Z.of_nat n)) (mkCleanup (Z.of_nat n) 0 0 (Z.of_nat n)) false s1) as (st2 & s2 & -> & Ho2 & Hc2 & Hr2 & Ht2 & Hk2);
    [done|by unfold on_course; rewrite Hl1|simpl; lia|]. cbn [lc_Remaining]. replace (0 <? Z.of_nat n) with true by lia. cbn [orb negb].
  assert (st2.(lc_Processed) = Z.of_nat n) as Hp2 by (destruct Hc2 as (_ & _ & H2 & _); simpl in Ht2; lia).
  assert (old_count p.(TargetTimestamp) s2.(old_logs) = 0%nat) as Hz2 by (destruct Hc2; lia).
  destruct (run_last_round p fuel st2 s2 Ho2 Hz2 Hc2) as (s' & t' & Hrun & H1 & H2 & H3 & H4 & H5 & H6); [done|].
  exists s', t'. rewrite <- Hp2, <- Hl1, <- Hk2. split_and!; try done. rewrite H6. by apply old_count_zero.
Qed.

(** C28. A new clean-up of logs whose lease stays held and whose statements succeed returns
    after at most two counts, whichever the database: the logs before the target time are
    gone and the others are kept, the task has succeeded with the number of the logs that
    were deleted, its key is free, and its lock is released. *)
Theorem log_cleanup_completes p fuel s :
  DecodePayload task = Some p -> 0 < p.(TargetTimestamp) -> DecodeState task = Some (mkCleanup 0 0 0 0) ->
  (forall n, is_Some (result_text n)) -> own s -> Z.of_nat (length s.(old_logs)) <= MaxInt64 -> (2 <= fuel)%nat ->
  exists s' t', run (runLogCleanupTask ch fuel task r) s = (Some tt, s') /\ s'.(old_logs) = kept p.(TargetTimestamp) s.(old_logs) /\
    s'.(sys_tasks) !! id = Some t' /\ t'.(st_Status) = SystemTaskStatusSucceeded /\ t'.(st_ActiveKey) = None /\
    result_text (Z.of_nat (old_count p.(TargetTimestamp) s.(old_logs))) = Some t'.(st_Result) /\
    (forall ty l, s'.(sys_locks) !! ty = Some l -> locked_as task.(st_TaskID) r l = false).
Proof.
  intros Hd Hpos Hst Hres Ho Hlen Hf. destruct fuel as [|[|fuel]]; [lia|lia|]. unfold runLogCleanupTask. rewrite Hd, Hst.
  replace (p.(TargetTimestamp) <=? 0) with false by lia. cbv zeta. set (p' := if p.(BatchSize) <=? 0 then mkPayload p.(TargetTimestamp) logCleanupBatchSize else p).
  assert (p'.(TargetTimestamp) = p.(TargetTimestamp)) as <- by (unfold p'; by destruct (_ <=? 0)).
  assert (old_count p'.(TargetTimestamp) s.(old_logs) <= length s.(old_logs))%nat by apply length_filter.
  destruct (run_clean_rounds p' fuel s Hres Ho) as (s' & t' & Hrun & H1 & H2 & H3 & H4 & H5 & H6); [unfold in_i64, MinInt64 in *; lia|].
  by exists s', t'.
Qed.
End handler.

(** Two logs of three are old; a batch deletes one row. *)
Definition sample_json : CleanupJSON :=
  {| decode_payload := fun _ => Some (mkPayload 50 1); decode_state := fun _ => Some (mkCleanup 0 0 0 0);
     state_text := fun _ => Some "s"%string; result_text := fun n => Some (if n =? 2 then "2"%string else "0"%string) |}.
Definition cleanup_task : SystemTask := mkSystemTask 1 "t1" "test" SystemTaskStatusRunning (Some "test"%string) "p" "" "" "" "A" 1000 1000.
Lemma log_cleanup_completes_witness :
  let s := set_old_logs (fun _ => [10; 60; 20]) (after claimed_run).(db) in
  exists s' t', run (@runLogCleanupTask sample_json false 2 cleanup_task "A") s = (Some tt, s') /\ s'.(old_logs) = [60] /\
    s'.(sys_tasks) !! 1 = Some t' /\ t'.(st_Result) = "2"%string.
Proof.
  intros s. destruct (@log_cleanup_completes sample_json false cleanup_task "A" 1 ltac:(intros st; simpl; eauto) (mkPayload 50 1) 2 s)
    as (s' & t' & Hrun & Hl & Ht & _ & _ & Hres & _); [reflexivity|reflexivity|reflexivity|intros n; simpl; eauto| | |lia|].
  - split; [exists claimed_task; split_and!; vm_compute; reflexivity|vm_compute; reflexivity].
  - vm_compute. discriminate.
  - exists s', t'. split; [exact Hrun|]. split; [rewrite Hl; reflexivity|]. split; [exact Ht|]. assert (Some "2"%string = Some t'.(st_Result)) as E by exact Hres. congruence.
Defined.
