(* ===== verification/ToolPrice.v ===== *)
(** * Tool prices (setting/operation_setting/tools.go)

    The price of a thousand calls of a tool: the operator's values over the built-in ones,
    with the longest prefix of the model before the default of the tool. *)

From stdpp Require Import base tactics numbers list gmap strings sorting.
From Stdlib Require Import ZArith Lia SpecFloat Ascii.
From S2P Require Import Prelude Float64 Task.
Open Scope Z_scope.

Definition IsInf (x : float64) : bool := match x with S754_infinity _ => true | _ => false end.
Definition isValidToolPrice (price : float64) : bool := f_le f_zero price && negb (IsNaN price) && negb (IsInf price).

(** Prices of tools are small decimals: halves are exact. *)
Definition f_half (z : Z) : float64 := f_div (float64_of_int z) (float64_of_int 2).
Definition seedHardcodedToolPrices : gmap string float64 :=
  list_to_map [("web_search"%string, float64_of_int 10); ("web_search_preview"%string, float64_of_int 10);
    ("file_search"%string, f_half 5); ("google_search"%string, float64_of_int 14); ("image_generation"%string, float64_of_int 150);
    ("web_search_preview:gpt-4o*"%string, float64_of_int 25); ("web_search_preview:gpt-4.1*"%string, float64_of_int 25);
    ("web_search_preview:gpt-4o-mini*"%string, float64_of_int 25); ("web_search_preview:gpt-4.1-mini*"%string, float64_of_int 25)].
Definition merged_prices (operator : gmap string float64) : gmap string float64 :=
  filter (fun kv => Is_true (isValidToolPrice kv.2)) operator ∪ seedHardcodedToolPrices.

(** [strings.Cut(key, ":")] and [strings.TrimSuffix(part, "*")]. *)
Fixpoint cut_colon (s : string) : option (string * string) :=
  match s with
  | EmptyString => None
  | String c s => if Ascii.eqb c ":"%char then Some (EmptyString, s)
                  else match cut_colon s with Some (a, b) => Some (String c a, b) | None => None end
  end.
Fixpoint trim_star (s : string) : string :=
  match s with
  | EmptyString => EmptyString
  | String c EmptyString => if Ascii.eqb c "*"%char then EmptyString else String c EmptyString
  | String c s => String c (trim_star s)
  end.

Record prefixEntry := mkPrefixEntry { pe_prefix : string; pe_price : float64 }.
Record toolPriceIndex := mkToolPriceIndex { ix_defaults : gmap string float64; ix_prefixes : gmap string (list prefixEntry) }.
(** Longer prefixes first, then in order. *)
Definition entry_first (a b : prefixEntry) : bool :=
  if (String.length a.(pe_prefix) =? String.length b.(pe_prefix))%nat then String.leb a.(pe_prefix) b.(pe_prefix)
  else (String.length b.(pe_prefix) <? String.length a.(pe_prefix))%nat.
Definition entry_le (a b : prefixEntry) : Prop := entry_first a b = true.
#[export] Instance entry_le_dec a b : Decision (entry_le a b).
Proof. unfold entry_le. apply _. Defined.
Definition add_price (idx : toolPriceIndex) (kp : string * float64) : toolPriceIndex :=
  match cut_colon kp.1 with
  | None => mkToolPriceIndex (<[kp.1 := kp.2]> idx.(ix_defaults)) idx.(ix_prefixes)
  | Some (tool, part) =>
      mkToolPriceIndex idx.(ix_defaults)
        (<[tool := default [] (idx.(ix_prefixes) !! tool) ++ [mkPrefixEntry (trim_star part) kp.2]]> idx.(ix_prefixes))
  end.
(** [l] is the content of the merged map in the order of iteration. *)
Definition RebuildToolPriceIndex (l : list (string * float64)) : toolPriceIndex :=
  let idx := foldl add_price (mkToolPriceIndex ∅ ∅) l in
  mkToolPriceIndex idx.(ix_defaults) (merge_sort entry_le <$> idx.(ix_prefixes)).

Fixpoint first_prefix (model : string) (l : list prefixEntry) : option float64 :=
  match l with
  | [] => None
  | e :: l => if HasPrefix model e.(pe_prefix) then Some e.(pe_price) else first_prefix model l
  end.
Definition GetToolPriceForModel (idx : toolPriceIndex) (tool model : string) : float64 :=
  let by_prefix := if String.eqb model "" then None else idx.(ix_prefixes) !! tool ≫= first_prefix model in
  match by_prefix with
  | Some p => p
  | None => default f_zero (idx.(ix_defaults) !! tool)
  end.

(** Audio input of Gemini models, in dollars per million tokens. *)
Definition GetGeminiInputAudioPricePerMillionTokens (model : string) : float64 :=
  if HasPrefix model "gemini-2.5-flash-preview-native-audio" then float64_of_int 3
  else if HasPrefix model "gemini-2.5-flash-preview-lite" then f_half 1
  else if HasPrefix model "gemini-2.5-flash-preview" then float64_of_int 1
  else if HasPrefix model "gemini-2.5-flash" then float64_of_int 1
  else if HasPrefix model "gemini-2.0-flash" then f_div (float64_of_int 7) (float64_of_int 10)
  else if HasPrefix model "gemini-robotics-er-1.5" then float64_of_int 1
  else f_zero.

(** ** Lookup *)

(** The entries of a tool. *)
Definition entries_of (tool : string) (l : list (string * float64)) : list prefixEntry :=
  omap (fun kp => match cut_colon kp.1 with
                  | Some (t, part) => if String.eqb t tool then Some (mkPrefixEntry (trim_star part) kp.2) else None
                  | None => None end) l.

Lemma add_prices_entries l idx tool :
  default [] ((foldl add_price idx l).(ix_prefixes) !! tool) = default [] (idx.(ix_prefixes) !! tool) ++ entries_of tool l.
Proof.
  revert idx. induction l as [|[k p] l IH]; intros idx; simpl; [by rewrite app_nil_r|]. rewrite IH. unfold add_price. simpl.
  destruct (cut_colon k) as [[t part]|]; [|done]. simpl. destruct (String.eqb_spec t tool) as [->|Hne].
  - rewrite lookup_insert_eq. simpl. by rewrite <- app_assoc.
  - by rewrite lookup_insert_ne.
Qed.
Lemma add_prices_default l idx tool p :
  cut_colon tool = None -> NoDup l.*1 -> (tool, p) ∈ l -> (foldl add_price idx l).(ix_defaults) !! tool = Some p.
Proof.
  intros Hc. revert idx. induction l as [|[k q] l IH] using rev_ind; intros idx Hnd Hin; [by apply elem_of_nil in Hin|].
  rewrite foldl_snoc. rewrite fmap_app, NoDup_app in Hnd. destruct Hnd as (Hnd & Hdis & _). unfold add_price at 1. simpl.
  apply elem_of_app in Hin as [Hin|Hin%list_elem_of_singleton].
  - assert (k <> tool) as Hne. { intros ->. eapply Hdis; [|by left]. apply list_elem_of_fmap. by exists (tool, p). }
    destruct (cut_colon k) as [[t part]|]; simpl; [by apply IH|]. rewrite lookup_insert_ne by done. by apply IH.
  - injection Hin as <- <-. rewrite Hc. simpl. by rewrite lookup_insert_eq.
Qed.

Definition longer (a b : prefixEntry) : Prop := (String.length b.(pe_prefix) <= String.length a.(pe_prefix))%nat.
#[local] Instance longer_trans : Transitive longer.
Proof. unfold longer. intros a b c. lia. Qed.
#[local] Instance entry_le_total : Total entry_le.
Proof.
  intros a b. unfold entry_le, entry_first. rewrite (Nat.eqb_sym (String.length b.(pe_prefix))). destruct (_ =? _)%nat eqn:E.
  - destruct (String.leb_total a.(pe_prefix) b.(pe_prefix)); auto.
  - rewrite !Nat.ltb_lt. apply Nat.eqb_neq in E. lia.
Qed.
Lemma entry_le_longer a b : entry_le a b -> longer a b.
Proof. unfold entry_le, entry_first, longer. destruct (_ =? _)%nat eqn:E; [apply Nat.eqb_eq in E; lia|]. rewrite Nat.ltb_lt. lia. Qed.
Lemma sorted_longest l : StronglySorted longer (merge_sort entry_le l).
Proof.
  apply Sorted_StronglySorted; [apply _|]. pose proof (Sorted_merge_sort entry_le l) as H. induction H as [|a l' Hs IH Hd]; constructor; [done|].
  destruct Hd; constructor. by apply entry_le_longer.
Qed.
Lemma first_prefix_longest model l :
  StronglySorted longer l -> (exists e, e ∈ l /\ HasPrefix model e.(pe_prefix) = true) ->
  exists e, e ∈ l /\ HasPrefix model e.(pe_prefix) = true /\ first_prefix model l = Some e.(pe_price) /\
    forall e', e' ∈ l -> HasPrefix model e'.(pe_prefix) = true -> longer e e'.
Proof.
  induction 1 as [|a l Hs IH Ha]; intros (e & He & Hp); [by apply elem_of_nil in He|]. simpl. rewrite Forall_forall in Ha.
  destruct (HasPrefix model a.(pe_prefix)) eqn:E.
  - exists a. split_and!; [left|done|done|]. intros e' [->|He']%elem_of_cons _; [unfold longer; lia|by apply Ha].
  - apply elem_of_cons in He as [->|He]; [congruence|]. destruct IH as (b & Hb & Hbp & Hf & Hl); [eauto|]. exists b.
    split_and!; [by right|done|done|]. intros e' [->|He']%elem_of_cons Hp'; [congruence|auto].
Qed.
Lemma first_prefix_none model l : (forall e, e ∈ l -> HasPrefix model e.(pe_prefix) = false) -> first_prefix model l = None.
Proof. induction l as [|a l IH]; intros H; simpl; [done|]. rewrite H by left. apply IH. intros e He. apply H. by right. Qed.

Lemma index_entries l tool :
  let idx := RebuildToolPriceIndex l in
  exists es, idx.(ix_prefixes) !! tool ≫= (fun es => Some es) = es /\ match es with
  | Some es => StronglySorted longer es /\ es ≡ₚ entries_of tool l
  | None => entries_of tool l = [] end.
Proof.
  simpl. eexists. split; [done|]. pose proof (add_prices_entries l (mkToolPriceIndex ∅ ∅) tool) as H. simpl in H. rewrite lookup_empty in H. simpl in H.
  rewrite lookup_fmap. destruct (ix_prefixes _ !! tool) as [es|]; simpl in *; [|done]. subst es. split; [apply sorted_longest|apply merge_sort_Permutation].
Qed.

(** The price of a tool for a model is that of the longest prefix among the merged
    entries of the tool that the model starts with; without one it is the default of the
    tool, and without a default nothing. *)
Theorem tool_price_longest_prefix l tool model :
  NoDup l.*1 -> model <> ""%string -> cut_colon tool = None ->
  let price := GetToolPriceForModel (RebuildToolPriceIndex l) tool model in
  ((exists e, e ∈ entries_of tool l /\ HasPrefix model e.(pe_prefix) = true) ->
     exists e, e ∈ entries_of tool l /\ HasPrefix model e.(pe_prefix) = true /\ price = e.(pe_price) /\
       forall e', e' ∈ entries_of tool l -> HasPrefix model e'.(pe_prefix) = true -> longer e e') /\
  ((forall e, e ∈ entries_of tool l -> HasPrefix model e.(pe_prefix) = false) -> forall p, (tool, p) ∈ l -> price = p).
Proof.
  intros Hnd Hm Hc price. unfold price, GetToolPriceForModel. apply String.eqb_neq in Hm. rewrite Hm.
  destruct (index_entries l tool) as (es & Hes & Hsp). assert (ix_prefixes (RebuildToolPriceIndex l) !! tool = es) as -> by (by rewrite <- Hes; destruct (_ !! tool)).
  split.
  - intros Hex. destruct es as [es|]; [|destruct Hex as (e & He & _); rewrite Hsp in He; by apply elem_of_nil in He].
    destruct Hsp as [Hs Hperm]. setoid_rewrite <- Hperm in Hex. destruct (first_prefix_longest model es Hs Hex) as (e & He & Hp & Hf & Hl).
    exists e. simpl. rewrite Hf. setoid_rewrite <- Hperm. done.
  - intros Hnone p Hp. assert (es ≫= first_prefix model = None) as ->.
    { destruct es as [es|]; [|done]. simpl. apply first_prefix_none. destruct Hsp as [_ Hperm]. intros e He. apply Hnone. by rewrite <- Hperm. }
    simpl. unfold RebuildToolPriceIndex. simpl. by rewrite (add_prices_default l _ tool p Hc Hnd Hp).
Qed.
