(* ===== verification/DecimalOrder.v ===== *)
(** * Values of decimals

    The cost of a request is computed with the decimal package.  [DecimalValue] is what is
    documented of it beyond the integers: every decimal is a number, sums and products are
    exact, comparisons are those of the numbers, a conversion from a float keeps order and
    zero, and a quotient (which is rounded to sixteen digits) keeps its sign. *)

From stdpp Require Import base tactics numbers strings.
From Stdlib Require Import ZArith QArith Qround Lia Lqa SpecFloat.
From S2P Require Import Prelude Float64 QuotaMath DecimalQ.
Open Scope Z_scope.

Class DecimalOps (D : Decimal) := {
  d_Div : dec -> dec -> dec;
  d_IsZero : dec -> bool;
  d_IsNegative : dec -> bool;
  d_LessThanOrEqual : dec -> dec -> bool
}.
Definition rnd (q : Q) : Z := round_half_away (Qnum q) (Z.pos (Qden q)).
Class DecimalValue (D : Decimal) (L : DecimalLaws D) (O : DecimalOps D) := {
  val : dec -> Q;
  val_int z : (val (NewFromInt z) == inject_Z z)%Q;
  val_float_mono x y : is_fin x -> is_fin y -> sv x <= sv y -> (val (NewFromFloat x) <= val (NewFromFloat y))%Q;
  val_float_int x z : is_fin x -> sv x = z * unit64 -> Z.abs z < 2 ^ 53 -> (val (NewFromFloat x) == inject_Z z)%Q;
  val_float_nonzero x : is_fin x -> (val (NewFromFloat x) == 0)%Q -> sv x = 0;
  val_add a b : (val (d_Add a b) == val a + val b)%Q;
  val_sub a b : (val (d_Sub a b) == val a - val b)%Q;
  val_mul a b : (val (d_Mul a b) == val a * val b)%Q;
  val_div a b : (0 <= val a)%Q -> (0 < val b)%Q -> (0 <= val (d_Div a b))%Q;
  val_IsZero a : d_IsZero a = Qeq_bool (val a) 0;
  val_IsNegative a : d_IsNegative a = negb (Qle_bool 0 (val a));
  val_le a b : d_LessThanOrEqual a b = Qle_bool (val a) (val b);
  val_round a : denotes (d_Round0 a) (rnd (val a))
}.

(** ** The exact rationals *)

#[export] Instance QDecimalOps : DecimalOps QDecimal := {
  d_Div := (Qdiv : @dec QDecimal -> @dec QDecimal -> @dec QDecimal);
  d_IsZero a := Qeq_bool a 0;
  d_IsNegative a := negb (Qle_bool 0 a);
  d_LessThanOrEqual a b := Qle_bool a b
}.
#[local] Obligation Tactic := idtac.
#[export] Program Instance QDecimalValue : DecimalValue QDecimal QDecimalLaws QDecimalOps := { val := fun q => q }.
Next Obligation. intros z. reflexivity. Qed.
Next Obligation. intros x y _ _ H. simpl. unfold Qle. simpl. nia. Qed.
Next Obligation.
  intros x z _ Hs _. simpl. rewrite Hs. unfold Qeq, inject_Z. simpl Qnum. simpl Qden. rewrite Pos2Z.inj_pow. unfold unit64. lia.
Qed.
Next Obligation. intros x _ H. simpl in H. unfold Qeq in H. simpl in H. lia. Qed.
Next Obligation. intros a b. reflexivity. Qed.
Next Obligation. intros a b. reflexivity. Qed.
Next Obligation. intros a b. reflexivity. Qed.
Next Obligation. intros a b Ha Hb. simpl. apply Qle_shift_div_l; [done|]. rewrite Qmult_0_l. done. Qed.
Next Obligation. intros a. reflexivity. Qed.
Next Obligation. intros a. reflexivity. Qed.
Next Obligation. intros a b. reflexivity. Qed.
Next Obligation. intros a. reflexivity. Qed.

(** ** Rounding *)

Lemma rnd_bounds q : (2 * inject_Z (rnd q) - 1 <= 2 * q)%Q /\ (2 * q <= 2 * inject_Z (rnd q) + 1)%Q /\
  ((0 <= q)%Q -> 0 <= rnd q /\ (2 * q < 2 * inject_Z (rnd q) + 1)%Q) /\ ((q <= 0)%Q -> rnd q <= 0 /\ (2 * inject_Z (rnd q) - 1 < 2 * q)%Q).
Proof.
  destruct q as [n d]. unfold rnd, round_half_away, Qle, Qlt, Qminus, Qplus, Qmult, inject_Z. simpl.
  pose proof (Z.div_mod (2 * Z.abs n + Z.pos d) (2 * Z.pos d) ltac:(lia)). pose proof (Z.mod_pos_bound (2 * Z.abs n + Z.pos d) (2 * Z.pos d) ltac:(lia)).
  pose proof (Z.div_pos (2 * Z.abs n + Z.pos d) (2 * Z.pos d) ltac:(lia) ltac:(lia)).
  set (k := (2 * Z.abs n + Z.pos d) / (2 * Z.pos d)) in *. set (m := (2 * Z.abs n + Z.pos d) mod (2 * Z.pos d)) in *. rewrite ?Z.mul_1_r.
  destruct (Z.sgn_spec n) as [[? ->]|[[? ->]|[? ->]]]; split_and!; try nia; intros Hn; split; nia.
Qed.

Lemma rnd_mono p q : (p <= q)%Q -> rnd p <= rnd q.
Proof.
  intros H. destruct (rnd_bounds p) as (P1 & _ & P3 & P4). destruct (rnd_bounds q) as (_ & Q2 & Q3 & Q4).
  destruct (Z.le_gt_cases (rnd p) (rnd q)) as [|Hgt]; [done|]. exfalso.
  assert (inject_Z (rnd q) + 1 <= inject_Z (rnd p))%Q as Hlt.
  { change 1%Q with (inject_Z 1). rewrite <- inject_Z_plus, <- Zle_Qle. lia. }
  destruct (Qlt_le_dec q 0) as [Hn|Hn].
  - destruct P4 as [_ P4]; lra.
  - destruct Q3 as [_ Q3]; lra.
Qed.
Lemma rnd_proper p q : (p == q)%Q -> rnd p = rnd q.
Proof. intros H. apply Z.le_antisymm; apply rnd_mono; lra. Qed.
Lemma rnd_int z : rnd (inject_Z z) = z.
Proof. unfold rnd. simpl. rewrite <- (Z.mul_1_r z) at 1. by apply round_half_away_integer. Qed.
Lemma rnd_nonneg q : (0 <= q)%Q -> 0 <= rnd q.
Proof. intros H. by apply rnd_bounds. Qed.

(** ** Conversion to quota *)

Definition clamp_quota (z : Z) : Z := Z.max MinQuota (Z.min MaxQuota z).
Lemma clamp_quota_mono a b : a <= b -> clamp_quota a <= clamp_quota b.
Proof. unfold clamp_quota, MinQuota, MaxQuota. lia. Qed.

Section convert.
Context {D : Decimal} {L : DecimalLaws D} {O : DecimalOps D} {V : DecimalValue D L O}.

(** The quota of a decimal is its nearest integer, half away from zero, within the bounds
    of one request. *)
Lemma fin_or_infinity f : IsNaN f = false -> is_fin f \/ exists s, f = S754_infinity s.
Proof. destruct f; simpl; eauto; done. Qed.
Lemma infinity_below_fin s a b : is_fin a -> is_fin b -> f_lt (S754_infinity s) a = true -> f_gt (S754_infinity s) b = false.
Proof. by destruct a, b, s. Qed.
Lemma QuotaFromDecimal_val d : QuotaFromDecimal d = clamp_quota (rnd (val d)).
Proof.
  unfold QuotaFromDecimal, QuotaFromDecimalChecked, saturateQuota. pose proof (val_round d) as Hz. set (z := rnd (val d)) in *. set (x := d_Round0 d) in *.
  assert (0 <= MaxQuota < 2 ^ 53) as Hhi by (unfold MaxQuota; lia). assert (- 2 ^ 53 < MinQuota <= 0) as Hlo by (unfold MinQuota; lia).
  unfold clamp_quota. destruct (decide (MinQuota <= z <= MaxQuota)) as [Hr|Hr].
  { pose proof (saturate_decimal "QuotaFromDecimal"%string MaxQuota MinQuota x z Hhi Hlo Hz) as H. destruct (saturateQuotaBounded _ _ _ _) as [q c].
    destruct H as [H _]. specialize (H Hr). simplify_eq. simpl. lia. }
  destruct (d_Float64_num x) as [Hv Hn]. unfold saturateQuotaBounded. rewrite Hn. destruct (decide (MaxQuota < z)) as [Hgt|Hle].
  { rewrite (d_Float64_above x z MaxQuota) by (done || lia). simpl. lia. }
  assert (z < MinQuota) as Hlt by lia. pose proof (d_Float64_below x z MinQuota Hz ltac:(lia) Hlt) as Hb. rewrite Hb.
  assert (f_gt (d_Float64 x) (float64_of_int MaxQuota) = false) as ->; [|simpl; lia].
  destruct (float64_of_int_exact MaxQuota) as (Vh & Fh & Sh); [lia|]. destruct (float64_of_int_exact MinQuota) as (Vl & Fl & Sl); [lia|].
  destruct (fin_or_infinity (d_Float64 x) Hn) as [Hf|[s Hs]].
  - rewrite f_gt_fin by done. rewrite f_lt_fin in Hb by done. pose proof unit64_pos. unfold MinQuota, MaxQuota in *. lia.
  - rewrite Hs in *. by eapply infinity_below_fin.
Qed.
Lemma QuotaFromDecimal_mono a b : (val a <= val b)%Q -> QuotaFromDecimal a <= QuotaFromDecimal b.
Proof. intros H. rewrite !QuotaFromDecimal_val. by apply clamp_quota_mono, rnd_mono. Qed.
Lemma QuotaFromDecimal_range d : (0 <= val d)%Q -> 0 <= QuotaFromDecimal d <= MaxQuota.
Proof. intros H. rewrite QuotaFromDecimal_val. pose proof (rnd_nonneg _ H). unfold clamp_quota, MinQuota, MaxQuota. lia. Qed.
Lemma QuotaFromDecimal_zero d : (val d == 0)%Q -> QuotaFromDecimal d = 0.
Proof. intros H. rewrite QuotaFromDecimal_val, (rnd_proper _ (inject_Z 0) H), rnd_int. done. Qed.

(** A float that is not negative. *)
Definition nonneg (x : float64) : Prop := is_fin x /\ 0 <= sv x.
Lemma val_nonneg x : nonneg x -> (0 <= val (NewFromFloat x))%Q.
Proof.
  intros [Hf Hs]. destruct (float64_of_int_exact 0) as (Vz & Fz & Sz); [lia|].
  apply Qle_trans with (val (NewFromFloat (float64_of_int 0))); [|apply val_float_mono; [done|done|lia]].
  rewrite (val_float_int _ 0 Fz Sz ltac:(lia)). apply Qle_refl.
Qed.
Lemma val_nat n : 0 <= n -> (0 <= val (NewFromInt n))%Q.
Proof. intros H. rewrite val_int. change 0%Q with (inject_Z 0). by rewrite <- Zle_Qle. Qed.
End convert.
