(* ===== verification/Cost.v ===== *)
(** * The cost of a request (service/text_quota.go, service/quota.go, types/price_data.go)

    From the usage a provider reports and the prices in force to the quota that is settled.
    The usage is the one [effectiveBillingUsage] has chosen; fields that the cost does not
    read are left out. *)

From stdpp Require Import base tactics numbers list gmap strings sorting.
From Stdlib Require Import ZArith Lia SpecFloat.
From S2P Require Import Prelude Float64 QuotaMath DecimalQ DecimalOrder World UserCache QuotaStore SubscriptionTime Subscription Billing Task ToolPrice.
Open Scope Z_scope.

Definition HasSuffix (s p : string) : bool := HasPrefix (string_rev s) (string_rev p).

(** ** Usage (relaykit/dto/openai_response.go) *)

Record CachedTokenDetails := mkCachedDetails { cd_TextTokens : option Z; cd_ImageTokens : option Z; cd_AudioTokens : option Z }.
Record InputTokenDetails := mkInputDetails {
  it_CachedTokens : Z;
  it_CachedTokensDetails : option CachedTokenDetails;
  it_CachedCreationTokens : Z;
  it_CacheWriteTokens : Z;
  it_TextTokens : Z;
  it_AudioTokens : Z;
  it_ImageTokens : Z
}.
Record OutputTokenDetails := mkOutputDetails { ot_TextTokens : Z; ot_AudioTokens : Z; ot_ImageTokens : Z }.
(** [us_Cost] is the reported cost if it is a number. *)
Record Usage := mkUsage {
  us_PromptTokens : Z;
  us_CompletionTokens : Z;
  us_TotalTokens : Z;
  us_UsageSemantic : string;
  us_UsageSource : string;
  us_PromptTokensDetails : InputTokenDetails;
  us_CompletionTokenDetails : OutputTokenDetails;
  us_ClaudeCacheCreation5mTokens : Z;
  us_ClaudeCacheCreation1hTokens : Z;
  us_Cost : option float64
}.
Definition no_input_details : InputTokenDetails := mkInputDetails 0 None 0 0 0 0 0.
Definition no_output_details : OutputTokenDetails := mkOutputDetails 0 0 0.
Definition estimated_usage (prompt completion total : Z) : Usage :=
  mkUsage prompt completion total "" "" no_input_details no_output_details 0 0 None.
Definition CacheCreationTokensTotal (d : InputTokenDetails) : Z :=
  let total := Z.max d.(it_CacheWriteTokens) d.(it_CachedCreationTokens) in
  if total <? 0 then 0 else total.

(** ** Prices (types/price_data.go) *)

(** The content of [otherRatios], a Go map, is in the order of iteration. *)
Record PriceData := mkPriceData {
  pd_ModelPrice : float64;
  pd_ModelRatio : float64;
  pd_CompletionRatio : float64;
  pd_CacheRatio : float64;
  pd_CacheCreationRatio : float64;
  pd_CacheCreation5mRatio : float64;
  pd_CacheCreation1hRatio : float64;
  pd_ImageRatio : float64;
  pd_AudioRatio : float64;
  pd_AudioCompletionRatio : float64;
  pd_otherRatios : list (string * float64);
  pd_UsePrice : bool;
  pd_GroupRatio : float64
}.

(** What the cost reads of the relay information and of the request's context. *)
Record TextRequest := mkTextRequest {
  rq_BillingModelName : string;
  rq_FinalClaude : bool;                       (* GetFinalRequestRelayFormat() = RelayFormatClaude *)
  rq_OpenRouter : bool;                        (* the channel is an OpenRouter channel *)
  rq_EstimatePromptTokens : Z;
  rq_ModeResponses : bool;
  rq_BuiltInTools : list (string * Z);         (* names and call counts *)
  rq_ClaudeWebSearch : Z;
  rq_GeminiGoogleSearch : bool;
  rq_DefaultRatio : option float64;            (* GetDefaultModelRatioMap()[model] *)
  rq_PriceData : PriceData
}.

Section cost.
Context {D : Decimal} {O : DecimalOps D}.
Variable idx : toolPriceIndex.
Variable quotaPerUnit : float64.

Definition d_Zero : dec := NewFromInt 0.
Definition apply_ratio (value : dec) (kr : string * float64) : dec :=
  if isValidOtherRatio kr.2 && negb (SFeqb kr.2 f_one) then d_Mul value (NewFromFloat kr.2) else value.
Definition ApplyOtherRatiosToDecimal (ratios : list (string * float64)) (value : dec) : dec := foldl apply_ratio value ratios.

(** ** Tool calls *)

Record ToolSurchargeItem := mkToolItem { ts_Name : string; ts_Count : Z; ts_Price : float64 }.
Definition collectToolSurchargeItem (items : list ToolSurchargeItem) (name : string) (count : Z) (model : string) : list ToolSurchargeItem :=
  if count <=? 0 then items
  else
    let price := GetToolPriceForModel idx name model in
    if f_le price f_zero || IsNaN price || IsInf price then items
    else items ++ [mkToolItem name count price].
Definition item_first (a b : ToolSurchargeItem) : bool :=
  if String.eqb a.(ts_Name) b.(ts_Name) then negb (f_lt b.(ts_Price) a.(ts_Price)) else String.ltb a.(ts_Name) b.(ts_Name).
Definition item_le (a b : ToolSurchargeItem) : Prop := item_first a b = true.
#[export] Instance item_le_dec a b : Decision (item_le a b).
Proof. unfold item_le. apply _. Defined.
(** [acc] is the merged list, its last item first. *)
Fixpoint merge_items (acc l : list ToolSurchargeItem) : list ToolSurchargeItem :=
  match l with
  | [] => reverse acc
  | it :: l =>
      match acc with
      | last :: rest =>
          if String.eqb last.(ts_Name) it.(ts_Name) && SFeqb last.(ts_Price) it.(ts_Price) then
            let count := if MaxInt64 -! last.(ts_Count) <? it.(ts_Count) then MaxInt64 else last.(ts_Count) +! it.(ts_Count) in
            merge_items (mkToolItem last.(ts_Name) count last.(ts_Price) :: rest) l
          else merge_items (it :: acc) l
      | [] => merge_items [it] l
      end
  end.
Definition mergeToolSurchargeItems (items : list ToolSurchargeItem) : list ToolSurchargeItem := merge_items [] (merge_sort item_le items).
Definition item_quota (groupRatio : float64) (it : ToolSurchargeItem) : dec :=
  d_Mul (d_Mul (d_Div (d_Mul (NewFromFloat it.(ts_Price)) (NewFromInt it.(ts_Count))) (NewFromInt 1000)) (NewFromFloat groupRatio))
        (NewFromFloat quotaPerUnit).
Definition tool_items (rq : TextRequest) : list ToolSurchargeItem :=
  let model := rq.(rq_BillingModelName) in
  let items := foldl (fun items nt => collectToolSurchargeItem items nt.1 nt.2 model) [] rq.(rq_BuiltInTools) in
  let items := if negb rq.(rq_ModeResponses) && HasSuffix model "search-preview"
               then collectToolSurchargeItem items "web_search_preview" 1 model else items in
  let items := collectToolSurchargeItem items "web_search" rq.(rq_ClaudeWebSearch) model in
  let items := if rq.(rq_GeminiGoogleSearch) then collectToolSurchargeItem items "google_search" 1 model else items in
  mergeToolSurchargeItems items.
Definition calculateTextToolCallSurcharge (rq : TextRequest) : dec :=
  foldl (fun sum it => d_Add sum (item_quota rq.(rq_PriceData).(pd_GroupRatio) it)) d_Zero (tool_items rq).

(** ** OpenRouter's cache writes *)

Definition f_add (x y : float64) : float64 := SFadd 53 1024 x y.
Definition f_sub (x y : float64) : float64 := SFsub 53 1024 x y.
Definition hasCustomModelRatio (rq : TextRequest) : bool :=
  match rq.(rq_DefaultRatio) with None => true | Some r => negb (SFeqb rq.(rq_PriceData).(pd_ModelRatio) r) end.
Definition CalcOpenRouterCacheCreateTokens (u : Usage) (pd : PriceData) : Z :=
  if SFeqb pd.(pd_CacheCreationRatio) f_one then 0
  else
    let quotaPrice := f_div pd.(pd_ModelRatio) quotaPerUnit in
    let promptCacheCreatePrice := f_mul quotaPrice pd.(pd_CacheCreationRatio) in
    let promptCacheReadPrice := f_mul quotaPrice pd.(pd_CacheRatio) in
    let completionPrice := f_mul quotaPrice pd.(pd_CompletionRatio) in
    let cost := default f_zero u.(us_Cost) in
    let total := float64_of_int u.(us_PromptTokens) in
    let completion := float64_of_int u.(us_CompletionTokens) in
    let cached := float64_of_int u.(us_PromptTokensDetails).(it_CachedTokens) in
    let value := f_div (f_sub (f_add (f_sub cost (f_mul total quotaPrice)) (f_mul cached (f_sub quotaPrice promptCacheReadPrice)))
                              (f_mul completion completionPrice))
                       (f_sub promptCacheCreatePrice quotaPrice) in
    match QuotaRoundChecked value with (_, Some _) => -1 | (q, None) => q end.

(** ** The summary *)

Record textQuotaSummary := mkSummary {
  sm_PromptTokens : Z;
  sm_CompletionTokens : Z;
  sm_TotalTokens : Z;
  sm_CacheTokens : Z;
  sm_CacheCreationTokens : Z;
  sm_CacheCreationTokens5m : Z;
  sm_CacheCreationTokens1h : Z;
  sm_ImageTokens : Z;
  sm_AudioTokens : Z;
  sm_IsClaude : bool;
  sm_Surcharge : dec;
  sm_FixedPriceBilling : bool;
  sm_Quota : Z
}.
Definition with_quota (q : Z) (s : textQuotaSummary) : textQuotaSummary :=
  mkSummary s.(sm_PromptTokens) s.(sm_CompletionTokens) s.(sm_TotalTokens) s.(sm_CacheTokens) s.(sm_CacheCreationTokens)
    s.(sm_CacheCreationTokens5m) s.(sm_CacheCreationTokens1h) s.(sm_ImageTokens) s.(sm_AudioTokens) s.(sm_IsClaude) s.(sm_Surcharge)
    s.(sm_FixedPriceBilling) q.
Definition with_fixed (b : bool) (s : textQuotaSummary) : textQuotaSummary :=
  mkSummary s.(sm_PromptTokens) s.(sm_CompletionTokens) s.(sm_TotalTokens) s.(sm_CacheTokens) s.(sm_CacheCreationTokens)
    s.(sm_CacheCreationTokens5m) s.(sm_CacheCreationTokens1h) s.(sm_ImageTokens) s.(sm_AudioTokens) s.(sm_IsClaude) s.(sm_Surcharge)
    b s.(sm_Quota).
Definition hasBillableUsage (s : textQuotaSummary) : bool :=
  s.(sm_FixedPriceBilling) || (0 <? s.(sm_TotalTokens)) || negb (d_IsZero s.(sm_Surcharge)).

Definition usageSemanticFromUsage (rq : TextRequest) (u : option Usage) : string :=
  match u with
  | Some u => if String.eqb u.(us_UsageSemantic) "" then (if rq.(rq_FinalClaude) then "anthropic" else "openai") else u.(us_UsageSemantic)
  | None => if rq.(rq_FinalClaude) then "anthropic" else "openai"
  end%string.
Definition isLegacyClaudeDerivedOpenAIUsage (rq : TextRequest) (u : Usage) : bool :=
  if rq.(rq_FinalClaude) then false
  else if negb (String.eqb u.(us_UsageSource) "") || negb (String.eqb u.(us_UsageSemantic) "") then false
  else (0 <? u.(us_ClaudeCacheCreation5mTokens)) || (0 <? u.(us_ClaudeCacheCreation1hTokens)).

(** The counts of a summary.  The code's test [usage.Cost != 0] compares an interface with
    the integer 0 and always holds. *)
Definition summarize (rq : TextRequest) (claude : bool) (u : Usage) : textQuotaSummary :=
  let pd := rq.(rq_PriceData) in
  let prompt := u.(us_PromptTokens) in
  let cached := u.(us_PromptTokensDetails).(it_CachedTokens) in
  let creation := CacheCreationTokensTotal u.(us_PromptTokensDetails) in
  let '(prompt, creation) :=
    if rq.(rq_OpenRouter) && claude then
      let prompt := prompt -! cached in
      let custom := pd.(pd_UsePrice) || hasCustomModelRatio rq in
      let creation :=
        if (creation =? 0) && negb (SFeqb pd.(pd_CacheCreationRatio) f_one) && negb custom then
          let maybe := CalcOpenRouterCacheCreateTokens u pd in
          if (0 <=? maybe) && (maybe <=? prompt) then maybe else creation
        else creation in
      (prompt -! creation, creation)
    else (prompt, creation) in
  mkSummary prompt u.(us_CompletionTokens) (u.(us_PromptTokens) +! u.(us_CompletionTokens)) cached creation
    u.(us_ClaudeCacheCreation5mTokens) u.(us_ClaudeCacheCreation1hTokens) u.(us_PromptTokensDetails).(it_ImageTokens)
    u.(us_PromptTokensDetails).(it_AudioTokens) claude (calculateTextToolCallSurcharge rq) false 0.

(** The price of the tokens, before the ratios of the request and the tool calls. *)
Record token_parts := mkParts { tp_base : dec; tp_cached : dec; tp_creation : dec; tp_image : dec; tp_audio : dec }.
Definition audio_quota (rq : TextRequest) (s : textQuotaSummary) : option dec :=
  if s.(sm_AudioTokens) =? 0 then None
  else
    let price := GetGeminiInputAudioPricePerMillionTokens rq.(rq_BillingModelName) in
    if f_gt price f_zero
    then Some (d_Mul (d_Mul (d_Mul (d_Div (NewFromFloat price) (NewFromInt 1000000)) (NewFromInt s.(sm_AudioTokens)))
                            (NewFromFloat rq.(rq_PriceData).(pd_GroupRatio))) (NewFromFloat quotaPerUnit))
    else None.
(** Each part takes its tokens out of the base; [total]: the prompt counts cached tokens. *)
Definition cached_part (pd : PriceData) (total : bool) (s : textQuotaSummary) (base : dec) : dec * dec :=
  let dCache := NewFromInt s.(sm_CacheTokens) in
  if d_IsZero dCache then (base, d_Zero)
  else (if total then d_Sub base dCache else base, d_Mul dCache (NewFromFloat pd.(pd_CacheRatio))).
Definition creation_part (pd : PriceData) (total : bool) (s : textQuotaSummary) (base : dec) : dec * dec :=
  let dCreation := NewFromInt s.(sm_CacheCreationTokens) in
  let split := (0 <? s.(sm_CacheCreationTokens5m)) || (0 <? s.(sm_CacheCreationTokens1h)) in
  if negb (d_IsZero dCreation) || split then
    if total then (d_Sub base dCreation, d_Mul dCreation (NewFromFloat pd.(pd_CacheCreationRatio)))
    else
      let remaining := Z.max (s.(sm_CacheCreationTokens) -! s.(sm_CacheCreationTokens5m) -! s.(sm_CacheCreationTokens1h)) 0 in
      (base,
       d_Add (d_Add (d_Mul (NewFromInt remaining) (NewFromFloat pd.(pd_CacheCreationRatio)))
                    (d_Mul (NewFromInt s.(sm_CacheCreationTokens5m)) (NewFromFloat pd.(pd_CacheCreation5mRatio))))
             (d_Mul (NewFromInt s.(sm_CacheCreationTokens1h)) (NewFromFloat pd.(pd_CacheCreation1hRatio))))
  else (base, d_Zero).
Definition image_part (pd : PriceData) (s : textQuotaSummary) (base : dec) : dec * dec :=
  let dImage := NewFromInt s.(sm_ImageTokens) in
  if d_IsZero dImage then (base, d_Zero) else (d_Sub base dImage, d_Mul dImage (NewFromFloat pd.(pd_ImageRatio))).
Definition audio_part (rq : TextRequest) (s : textQuotaSummary) (base : dec) : dec * dec :=
  match audio_quota rq s with
  | Some a => (d_Sub base (NewFromInt s.(sm_AudioTokens)), a)
  | None => (base, d_Zero)
  end.
Definition parts_of (rq : TextRequest) (legacy : bool) (s : textQuotaSummary) : token_parts :=
  let pd := rq.(rq_PriceData) in
  let total := negb s.(sm_IsClaude) && negb legacy in
  let (base, cached) := cached_part pd total s (NewFromInt s.(sm_PromptTokens)) in
  let (base, creation) := creation_part pd total s base in
  let (base, image) := image_part pd s base in
  let (base, audio) := audio_part rq s base in
  mkParts (if d_IsNegative base then d_Zero else base) cached creation image audio.
Definition ratio_of (pd : PriceData) : dec := d_Mul (NewFromFloat pd.(pd_ModelRatio)) (NewFromFloat pd.(pd_GroupRatio)).
Definition token_cost (rq : TextRequest) (legacy : bool) (s : textQuotaSummary) : dec :=
  let pd := rq.(rq_PriceData) in
  let p := parts_of rq legacy s in
  let prompt := d_Add (d_Add (d_Add p.(tp_base) p.(tp_cached)) p.(tp_image)) p.(tp_creation) in
  let completion := d_Mul (NewFromInt s.(sm_CompletionTokens)) (NewFromFloat pd.(pd_CompletionRatio)) in
  let cost := d_Add (d_Mul (d_Add prompt completion) (ratio_of pd)) p.(tp_audio) in
  let cost := d_Add (ApplyOtherRatiosToDecimal pd.(pd_otherRatios) cost) s.(sm_Surcharge) in
  if negb (d_IsZero (ratio_of pd)) && d_LessThanOrEqual cost d_Zero then NewFromInt 1 else cost.
Definition call_cost (pd : PriceData) (s : textQuotaSummary) : dec :=
  let cost := d_Add (d_Mul (d_Mul (NewFromFloat pd.(pd_ModelPrice)) (NewFromFloat quotaPerUnit)) (NewFromFloat pd.(pd_GroupRatio))) d_Zero in
  d_Add (ApplyOtherRatiosToDecimal pd.(pd_otherRatios) cost) s.(sm_Surcharge).

(** The summary and the clamp to note on the request. *)
Definition calculateTextQuotaSummary (rq : TextRequest) (usage : option Usage) : textQuotaSummary * option QuotaClamp :=
  let pd := rq.(rq_PriceData) in
  let claude := String.eqb (usageSemanticFromUsage rq usage) "anthropic" in
  let u := default (estimated_usage rq.(rq_EstimatePromptTokens) 0 rq.(rq_EstimatePromptTokens)) usage in
  let s := summarize rq claude u in
  let cost := if pd.(pd_UsePrice) then call_cost pd s else token_cost rq (isLegacyClaudeDerivedOpenAIUsage rq u) s in
  let (quota, clamp) := QuotaFromDecimalChecked cost in
  let quota := if negb (hasBillableUsage s) then 0 else if negb (d_IsZero (ratio_of pd)) && (quota =? 0) then 1 else quota in
  (with_quota quota s, clamp).

Definition cacheWriteTokensTotal (s : textQuotaSummary) : Z :=
  if (0 <? s.(sm_CacheCreationTokens5m)) || (0 <? s.(sm_CacheCreationTokens1h)) then
    let split := s.(sm_CacheCreationTokens5m) +! s.(sm_CacheCreationTokens1h) in
    if split <? s.(sm_CacheCreationTokens) then s.(sm_CacheCreationTokens) else split
  else s.(sm_CacheCreationTokens).
Definition totalInputTokens (s : textQuotaSummary) : Z :=
  if s.(sm_IsClaude) then s.(sm_PromptTokens) +! s.(sm_CacheTokens) +! cacheWriteTokensTotal s else s.(sm_PromptTokens).

(** ** Audio (service/quota.go) *)

Record TokenDetails := mkTokenDetails { td_TextTokens : Z; td_AudioTokens : Z }.
(** [qi_*Ratio]: what setting/ratio_setting answers for the model. *)
Record QuotaInfo := mkQuotaInfo {
  qi_InputDetails : TokenDetails;
  qi_OutputDetails : TokenDetails;
  qi_CompletionRatio : float64;
  qi_AudioRatio : float64;
  qi_AudioCompletionRatio : float64;
  qi_UsePrice : bool;
  qi_ModelPrice : float64;
  qi_ModelRatio : float64;
  qi_GroupRatio : float64
}.
Definition calculateAudioQuota (i : QuotaInfo) : Z * option QuotaClamp :=
  if i.(qi_UsePrice) then
    QuotaFromDecimalChecked (d_Mul (d_Mul (NewFromFloat i.(qi_ModelPrice)) (NewFromFloat quotaPerUnit)) (NewFromFloat i.(qi_GroupRatio)))
  else
    let audioRatio := NewFromFloat i.(qi_AudioRatio) in
    let ratio := d_Mul (NewFromFloat i.(qi_GroupRatio)) (NewFromFloat i.(qi_ModelRatio)) in
    let quota := d_Add d_Zero (NewFromInt i.(qi_InputDetails).(td_TextTokens)) in
    let quota := d_Add quota (d_Mul (NewFromInt i.(qi_OutputDetails).(td_TextTokens)) (NewFromFloat i.(qi_CompletionRatio))) in
    let quota := d_Add quota (d_Mul (NewFromInt i.(qi_InputDetails).(td_AudioTokens)) audioRatio) in
    let quota := d_Add quota (d_Mul (d_Mul (NewFromInt i.(qi_OutputDetails).(td_AudioTokens)) audioRatio) (NewFromFloat i.(qi_AudioCompletionRatio))) in
    let quota := d_Mul quota ratio in
    let quota := if negb (d_IsZero ratio) && d_LessThanOrEqual quota d_Zero then NewFromInt 1 else quota in
    QuotaFromDecimalChecked quota.
End cost.
