(* ===== verification/CostSettle.v ===== *)
(** * Settling the cost (service/tiered_settle.go, service/text_quota.go, service/quota.go)

    The expression engine is a class; the rest is what happens between the reported usage
    and the billing session. *)

From stdpp Require Import base tactics numbers list gmap strings sorting.
From Stdlib Require Import ZArith Lia SpecFloat.
From S2P Require Import Prelude Float64 QuotaMath DecimalQ DecimalOrder World UserCache QuotaStore SubscriptionTime Subscription Billing Task ToolPrice Cost.
Open Scope Z_scope.

(** ** Billing by expression *)

Record TokenParams := mkTokenParams {
  tk_P : float64;
  tk_C : float64;
  tk_Len : float64;
  tk_CR : float64;
  tk_CC : float64;
  tk_CC1h : float64;
  tk_Img : float64;
  tk_ImgCR : float64;
  tk_ImgO : float64;
  tk_AI : float64;
  tk_AO : float64
}.
(** The answers of pkg/billingexpr: the cost of an expression on tokens and a count of
    images, with whether the price was one of the request; the variables an expression uses;
    whether it has fixed prices. *)
Class TieredEngine := {
  te_run : string -> TokenParams -> option Z -> option (float64 * bool);
  te_used : string -> string -> bool;
  te_fixed : string -> bool
}.
Record TieredSnapshot := mkTiered {
  sp_TieredExpr : bool;                 (* BillingMode = tiered_expr *)
  sp_ExprString : string;
  sp_GroupRatio : float64;
  sp_EstimatedImageCount : option Z;
  sp_EstimatedQuotaBeforeGroup : float64;
  sp_EstimatedQuotaAfterGroup : Z;
  sp_EstimatedRequestUnit : bool;
  sp_QuotaPerUnit : float64;
  sp_TaskUsageBilling : bool
}.
Record TieredResult := mkTieredResult { tr_Before : float64; tr_After : Z; tr_RequestUnit : bool; tr_Clamp : option QuotaClamp }.

(** Counts that are a valid split of the cached tokens. *)
Fixpoint fits_in (remaining : Z) (l : list (option Z)) : bool :=
  match l with
  | [] => true
  | None :: l => fits_in remaining l
  | Some n :: l => if (n <? 0) || (remaining <? n) then false else fits_in (remaining -! n) l
  end.
Definition valid_image_cache (u : Usage) (d : CachedTokenDetails) (cachedImage : Z) : bool :=
  let cached := u.(us_PromptTokensDetails).(it_CachedTokens) in
  let image := u.(us_PromptTokensDetails).(it_ImageTokens) in
  (0 <=? cachedImage) && (cachedImage <=? cached) && (cachedImage <=? image) && (cached <=? u.(us_PromptTokens)) &&
  (image <=? u.(us_PromptTokens) -! (cached -! cachedImage)) && fits_in (cached -! cachedImage) [d.(cd_TextTokens); d.(cd_AudioTokens)].

(** What setting/ratio_setting answers for the model when an audio request is settled. *)
Record AudioRatios := mkAudioRatios { ar_Completion : float64; ar_Audio : float64; ar_AudioCompletion : float64 }.
Definition tiered_clamped (t : option (Z * option TieredResult)) : bool :=
  match t with Some (_, Some tr) => bool_decide (is_Some tr.(tr_Clamp)) | _ => false end.

Section tiered.
Context `{!TieredEngine} {D : Decimal} {O : DecimalOps D}.

Definition BuildTieredTokenParams (u : Usage) (claude : bool) (used : string -> bool) : TokenParams :=
  let i := u.(us_PromptTokensDetails) in
  let p := float64_of_int u.(us_PromptTokens) in
  let c := float64_of_int u.(us_CompletionTokens) in
  let cr := float64_of_int i.(it_CachedTokens) in
  let anthropic := String.eqb u.(us_UsageSemantic) "anthropic" in
  let cc1h := if anthropic then float64_of_int u.(us_ClaudeCacheCreation1hTokens) else f_zero in
  let cc5m := if anthropic then float64_of_int u.(us_ClaudeCacheCreation5mTokens) else float64_of_int (CacheCreationTokensTotal i) in
  let img := float64_of_int i.(it_ImageTokens) in
  let imgCR :=
    if used "img_cr" && negb claude then
      match i.(it_CachedTokensDetails) with
      | Some d => match d.(cd_ImageTokens) with
                  | Some n => if valid_image_cache u d n then Some (float64_of_int n) else None
                  | None => None
                  end
      | None => None
      end
    else None in
  let '(cr, img, imgCR) := match imgCR with Some n => (f_sub cr n, f_sub img n, n) | None => (cr, img, f_zero) end in
  let ai := float64_of_int i.(it_AudioTokens) in
  let imgO := float64_of_int u.(us_CompletionTokenDetails).(ot_ImageTokens) in
  let ao := float64_of_int u.(us_CompletionTokenDetails).(ot_AudioTokens) in
  let inputLen := if claude then f_add (f_add (f_add p cr) cc5m) cc1h else p in
  let less v x y := if used v then f_sub x y else x in
  let p' := if claude then (if used "cr" then p else f_add p cr)
            else less "ai" (less "img_cr" (less "img" (less "cc1h" (less "cc" (less "cr" p cr) cc5m) cc1h) img) imgCR) ai in
  let c' := if claude then c else less "ao" (less "img_o" c imgO) ao in
  let floor x := if f_lt x f_zero then f_zero else x in
  mkTokenParams (floor p') (floor c') inputLen cr cc5m cc1h img imgCR imgO ai ao.

Definition ComputeTieredQuota (sn : TieredSnapshot) (params : TokenParams) (images : option Z) : option TieredResult :=
  if sn.(sp_TaskUsageBilling) && te_fixed sn.(sp_ExprString) then None
  else
    match te_run sn.(sp_ExprString) params images with
    | None => None
    | Some (cost, unit) =>
        let before := if sn.(sp_TaskUsageBilling) then f_mul cost sn.(sp_QuotaPerUnit)
                      else f_mul (f_div cost (float64_of_int 1000000)) sn.(sp_QuotaPerUnit) in
        let (after, clamp) := QuotaRoundChecked (f_mul before sn.(sp_GroupRatio)) in
        Some (mkTieredResult before after unit clamp)
    end.
(** The quota and the result; none if the request is not billed by an expression. *)
Definition TryTieredSettle (snap : option TieredSnapshot) (billingImages : option Z) (preConsumed : Z) (params : TokenParams)
    : option (Z * option TieredResult) :=
  match snap with
  | None => None
  | Some sn =>
      if negb sn.(sp_TieredExpr) then None
      else
        let images := match billingImages with Some n => Some n | None => sn.(sp_EstimatedImageCount) end in
        match ComputeTieredQuota sn params images with
        | None => Some (if preConsumed <=? 0 then sn.(sp_EstimatedQuotaAfterGroup) else preConsumed, None)
        | Some tr => Some (tr.(tr_After), Some tr)
        end
  end.
Definition isFixedPriceSettlement (snap : option TieredSnapshot) (r : option TieredResult) : bool :=
  match r, snap with
  | Some tr, _ => tr.(tr_RequestUnit)
  | None, Some sn => sn.(sp_TieredExpr) && sn.(sp_EstimatedRequestUnit)
  | None, None => false
  end.
Definition refreshTieredBillingGroup (groupRatio : float64) (sn : TieredSnapshot) : result QuotaClamp TieredSnapshot :=
  if SFeqb sn.(sp_GroupRatio) groupRatio then Ok sn
  else
    match QuotaRoundStrict (f_mul sn.(sp_EstimatedQuotaBeforeGroup) groupRatio) with
    | Err c => Err c
    | Ok q => Ok (mkTiered sn.(sp_TieredExpr) sn.(sp_ExprString) groupRatio sn.(sp_EstimatedImageCount) sn.(sp_EstimatedQuotaBeforeGroup) q
                    sn.(sp_EstimatedRequestUnit) sn.(sp_QuotaPerUnit) sn.(sp_TaskUsageBilling))
    end.
Definition composeTieredTextQuota (snap : option TieredSnapshot) (surcharge : dec) (tieredQuota : Z) (r : option TieredResult) : Z * option QuotaClamp :=
  if d_IsZero surcharge then (tieredQuota, None)
  else
    match r, snap with
    | Some tr, Some sn => QuotaFromDecimalChecked (d_Add (d_Mul (NewFromFloat tr.(tr_Before)) (NewFromFloat sn.(sp_GroupRatio))) surcharge)
    | _, _ => QuotaFromDecimalChecked (d_Add (NewFromInt tieredQuota) surcharge)
    end.

(** ** After a request *)

Variable idx : toolPriceIndex.
Variable quotaPerUnit : float64.

(** What is settled, whether it counts as used, and whether a conversion was clamped. *)
Definition text_charge (rq : TextRequest) (snap : option TieredSnapshot) (billingImages : option Z) (preConsumed : Z) (usage : option Usage)
    : Z * bool * bool :=
  let (s, clamp) := calculateTextQuotaSummary idx quotaPerUnit rq usage in
  let billingUsage :=
    match usage, snap with
    | None, Some sn => if te_fixed sn.(sp_ExprString)
                       then Some (estimated_usage s.(sm_PromptTokens) s.(sm_CompletionTokens) s.(sm_TotalTokens)) else None
    | _, _ => usage
    end in
  let plain := (s.(sm_Quota), hasBillableUsage s, bool_decide (is_Some clamp)) in
  match billingUsage with
  | None => plain
  | Some u =>
      let used := match snap with Some sn => te_used sn.(sp_ExprString) | None => fun _ => false end in
      match TryTieredSettle snap billingImages preConsumed (BuildTieredTokenParams u s.(sm_IsClaude) used) with
      | None => plain
      | Some (q, r) =>
          let (q, clamp2) := composeTieredTextQuota snap s.(sm_Surcharge) q r in
          let s := with_fixed (isFixedPriceSettlement snap r) s in
          (q, hasBillableUsage s, bool_decide (is_Some clamp) || tiered_clamped (Some (q, r)) || bool_decide (is_Some clamp2))
      end
  end.
(** [ri_QuotaClamp]: a clamp was noted, the first one or a later one. *)
Definition noteQuotaClamp (clamped : bool) (r : RelayInfo) : RelayInfo :=
  mkRelayInfo r.(ri_UserId) r.(ri_TokenId) r.(ri_TokenKey) r.(ri_TokenUnlimited) r.(ri_IsPlayground) r.(ri_ForcePreConsume)
    r.(ri_UserQuota) r.(ri_RequestId) r.(ri_BillingPreference) r.(ri_token_quota) r.(ri_ImageRequest) r.(ri_ImageRequestCount)
    (r.(ri_QuotaClamp) || clamped) r.(ri_FinalPreConsumedQuota) r.(ri_BillingSource) r.(ri_SubscriptionId)
    r.(ri_SubscriptionPreConsumed) r.(ri_SubscriptionPostDelta) r.(ri_SubscriptionAmountTotal)
    r.(ri_SubscriptionAmountUsedAfterPreConsume) r.(ri_SubscriptionPlanId) r.(ri_SubscriptionPlanTitle).
(** The statistics, the settlement of the session and the log of a request. *)
Definition settle_request (logEnabled : bool) (channelId quota : Z) (counted clamped : bool) : MB error unit :=
  set_info (noteQuotaClamp clamped) ;;
  let! ri := info id in
  (if counted then lift (UpdateUserUsedQuotaAndRequestCount ri.(ri_UserId) quota) ;; lift (UpdateChannelUsedQuota channelId quota) else ret tt) ;;
  attempt (E' := error) (SettleBilling_session quota) ;;
  (if logEnabled then lift (RecordLog ri.(ri_UserId) LogTypeConsume quota) else ret tt).
Definition PostTextConsumeQuota (logEnabled : bool) (channelId : Z) (rq : TextRequest) (snap : option TieredSnapshot) (billingImages : option Z)
    (usage : option Usage) : MB error unit :=
  let! ri := info id in
  let '(quota, counted, clamped) := text_charge rq snap billingImages ri.(ri_FinalPreConsumedQuota) usage in
  settle_request logEnabled channelId quota counted clamped.

(** The charge of an audio request; the code does not set [qi_ModelPrice]. *)
Definition audio_info (ar : AudioRatios) (pd : PriceData) (textIn audioIn textOut audioOut : Z) : QuotaInfo :=
  mkQuotaInfo (mkTokenDetails textIn audioIn) (mkTokenDetails textOut audioOut) ar.(ar_Completion) ar.(ar_Audio) ar.(ar_AudioCompletion)
    pd.(pd_UsePrice) f_zero pd.(pd_ModelRatio) pd.(pd_GroupRatio).
Definition audio_charge (ar : AudioRatios) (pd : PriceData) (snap : option TieredSnapshot) (billingImages : option Z) (preConsumed : Z) (u : Usage) : Z * bool * bool :=
  let used := match snap with Some sn => te_used sn.(sp_ExprString) | None => fun _ => false end in
  let tiered := TryTieredSettle snap billingImages preConsumed (BuildTieredTokenParams u false used) in
  let fixed := match tiered with Some (_, r) => isFixedPriceSettlement snap r | None => false end in
  let (quota, clamp) := calculateAudioQuota quotaPerUnit
    (audio_info ar pd u.(us_PromptTokensDetails).(it_TextTokens) u.(us_PromptTokensDetails).(it_AudioTokens)
       u.(us_CompletionTokenDetails).(ot_TextTokens) u.(us_CompletionTokenDetails).(ot_AudioTokens)) in
  let clamped := bool_decide (is_Some clamp) || tiered_clamped tiered in
  let quota := match tiered with Some (q, _) => q | None => quota end in
  if (u.(us_TotalTokens) =? 0) && negb fixed then (0, false, clamped) else (quota, true, clamped).
Definition PostAudioConsumeQuota (logEnabled : bool) (channelId estimate : Z) (ar : AudioRatios) (pd : PriceData) (snap : option TieredSnapshot) (billingImages : option Z)
    (usage : option Usage) : MB error unit :=
  let u := default (estimated_usage estimate 0 estimate) usage in
  let! ri := info id in
  let '(quota, counted, clamped) := audio_charge ar pd snap billingImages ri.(ri_FinalPreConsumedQuota) u in
  settle_request logEnabled channelId quota counted clamped.

(** A realtime session: input, output and total tokens with their details. *)
Definition wss_charge (ar : AudioRatios) (pd : PriceData) (snap : option TieredSnapshot) (billingImages : option Z) (preConsumed input output total textIn audioIn textOut audioOut : Z)
    : Z * bool * bool :=
  let params := mkTokenParams (float64_of_int input) (float64_of_int output) (float64_of_int input) f_zero f_zero f_zero f_zero f_zero f_zero f_zero f_zero in
  let tiered := TryTieredSettle snap billingImages preConsumed params in
  let (quota, clamp) := calculateAudioQuota quotaPerUnit (audio_info ar pd textIn audioIn textOut audioOut) in
  let clamped := bool_decide (is_Some clamp) || tiered_clamped tiered in
  let quota := match tiered with Some (q, _) => q | None => quota end in
  if total =? 0 then (0, false, clamped) else (quota, true, clamped).
Definition PostWssConsumeQuota (logEnabled : bool) (channelId : Z) (ar : AudioRatios) (pd : PriceData) (snap : option TieredSnapshot) (billingImages : option Z)
    (input output total textIn audioIn textOut audioOut : Z) : MB error unit :=
  let! ri := info id in
  let '(quota, counted, clamped) := wss_charge ar pd snap billingImages ri.(ri_FinalPreConsumedQuota) input output total textIn audioIn textOut audioOut in
  settle_request logEnabled channelId quota counted clamped.

(** A turn of a realtime session is paid at once, without the session.  [usePrice] is the
    field of the relay information, which no code sets; the ratios are those in force. *)
Definition with_info {E A} (c : M (World * RelayInfo) E A) : MB E A := fun ws =>
  match c (ws.1, ws.2.1) with (r, (w, ri)) => (r, (w, (ri, ws.2.2))) end.
Definition PreWssConsumeQuota (usePrice : bool) (ar : AudioRatios) (modelRatio groupRatio : float64) (textIn audioIn textOut audioOut : Z) : MB error unit :=
  if usePrice then ret tt
  else
    let! ri := info id in
    let! userQuota := lift (GetUserQuota ri.(ri_UserId) false) in
    let! token := lift (GetTokenByKey (if HasPrefix ri.(ri_TokenKey) "sk-" then String.substring 3 (String.length ri.(ri_TokenKey)) ri.(ri_TokenKey) else ri.(ri_TokenKey)) false) in
    let (quota, clamp) := calculateAudioQuota quotaPerUnit
      (mkQuotaInfo (mkTokenDetails textIn audioIn) (mkTokenDetails textOut audioOut) ar.(ar_Completion) ar.(ar_Audio) ar.(ar_AudioCompletion) usePrice f_zero modelRatio groupRatio) in
    set_info (noteQuotaClamp (bool_decide (is_Some clamp))) ;;
    if userQuota <? quota then throw (ErrMsg "user quota is not enough")
    else if negb token.(t_UnlimitedQuota) && (token.(t_RemainQuota) <? quota) then throw (ErrMsg "token quota is not enough")
    else with_info (PostConsumeQuota quota).
End tiered.
