(* ===== verification/CostLaws.v ===== *)
(** * The cost of text (theorems on Cost)

    For prices and counts that are not negative: the range of a cost, that it grows with
    the tokens, and that cached tokens are never dearer than others. *)

From stdpp Require Import base tactics numbers list gmap strings sorting.
From Stdlib Require Import ZArith QArith Lia Lqa SpecFloat.
From S2P Require Import Prelude Float64 QuotaMath DecimalQ DecimalOrder World UserCache QuotaStore SubscriptionTime Subscription Billing Task ToolPrice Cost.
Open Scope Z_scope.

(** ** Prices that are not negative *)

Record prices_ok (pd : PriceData) : Prop := mk_prices_ok {
  po_ModelPrice : pd.(pd_UsePrice) = true -> nonneg pd.(pd_ModelPrice);
  po_ModelRatio : nonneg pd.(pd_ModelRatio);
  po_CompletionRatio : nonneg pd.(pd_CompletionRatio);
  po_CacheRatio : nonneg pd.(pd_CacheRatio);
  po_CacheCreationRatio : nonneg pd.(pd_CacheCreationRatio);
  po_CacheCreation5mRatio : nonneg pd.(pd_CacheCreation5mRatio);
  po_CacheCreation1hRatio : nonneg pd.(pd_CacheCreation1hRatio);
  po_ImageRatio : nonneg pd.(pd_ImageRatio);
  po_GroupRatio : nonneg pd.(pd_GroupRatio);
  po_other : Forall (fun kr => valid64 kr.2) pd.(pd_otherRatios)
}.
Definition counts_ok (u : Usage) : Prop :=
  0 <= u.(us_PromptTokens) /\ 0 <= u.(us_CompletionTokens) /\ u.(us_PromptTokens) + u.(us_CompletionTokens) <= MaxInt64 /\
  0 <= u.(us_PromptTokensDetails).(it_CachedTokens) /\ 0 <= u.(us_PromptTokensDetails).(it_ImageTokens) /\
  0 <= u.(us_PromptTokensDetails).(it_AudioTokens) /\ 0 <= u.(us_ClaudeCacheCreation5mTokens) /\ 0 <= u.(us_ClaudeCacheCreation1hTokens).
(** The prices of tools that can be charged. *)
Definition index_ok (idx : toolPriceIndex) : Prop :=
  forall tool model, valid64 (GetToolPriceForModel idx tool model).

Lemma positive_nonneg x : valid64 x -> f_gt x f_zero = true -> IsInf x = false -> nonneg x.
Proof.
  intros Hv Hg Hi. destruct (float64_of_int_exact 0) as (Vz & Fz & Sz); [lia|]. assert (is_fin x) as Hf by (by destruct x).
  split; [done|]. unfold f_zero in Hg. rewrite f_gt_fin in Hg by done. lia.
Qed.
Lemma valid_ratio_nonneg x : valid64 x -> isValidOtherRatio x = true -> nonneg x.
Proof.
  intros Hv [Hg Hi]%andb_true_iff. destruct (IsInf x) eqn:E; [|by apply positive_nonneg]. destruct x as [|s| |]; try done. by destruct s.
Qed.
Lemma not_le_gt x : valid64 x -> f_le x f_zero = false -> IsNaN x = false -> IsInf x = false -> nonneg x.
Proof.
  intros Hv Hl Hn Hi. destruct (float64_of_int_exact 0) as (Vz & Fz & Sz); [lia|]. assert (is_fin x) as Hf by (by destruct x).
  split; [done|]. unfold f_le, f_zero in Hl. rewrite SFcompare_sv in Hl by done. destruct (Z.compare_spec (sv x) (sv (float64_of_int 0))); try done. lia.
Qed.

Lemma Qle_0_plus a b : (0 <= a -> 0 <= b -> 0 <= a + b)%Q.
Proof. lra. Qed.

Section laws.
Context {D : Decimal} {L : DecimalLaws D} {O : DecimalOps D} {V : DecimalValue D L O}.
Variable idx : toolPriceIndex.
Variable quotaPerUnit : float64.
Hypothesis Hidx : index_ok idx.
Hypothesis Hqpu : nonneg quotaPerUnit.

(** ** Ratios *)

Fixpoint other_factor (l : list (string * float64)) : Q :=
  match l with
  | [] => 1
  | kr :: l => if isValidOtherRatio kr.2 && negb (SFeqb kr.2 f_one) then val (NewFromFloat kr.2) * other_factor l else other_factor l
  end%Q.
Lemma val_apply l v : (val (ApplyOtherRatiosToDecimal l v) == val v * other_factor l)%Q.
Proof.
  unfold ApplyOtherRatiosToDecimal. revert v. induction l as [|kr l IH]; intros v; simpl; [ring|]. rewrite IH. unfold apply_ratio.
  destruct (_ && _); [|ring]. rewrite val_mul. ring.
Qed.
Lemma other_factor_nonneg l : Forall (fun kr => valid64 kr.2) l -> (0 <= other_factor l)%Q.
Proof.
  induction 1 as [|kr l Hv _ IH]; simpl; [done|]. destruct (isValidOtherRatio kr.2) eqn:E; [|done]. destruct (SFeqb _ _); [done|].
  apply Qmult_le_0_compat; [|done]. by apply val_nonneg, valid_ratio_nonneg.
Qed.

(** ** Tool calls *)

Definition item_ok (it : ToolSurchargeItem) : Prop := 0 < it.(ts_Count) <= MaxInt64 /\ nonneg it.(ts_Price).
Lemma collect_ok items name count model :
  count <= MaxInt64 -> Forall item_ok items -> Forall item_ok (collectToolSurchargeItem idx items name count model).
Proof.
  intros Hc Hi. unfold collectToolSurchargeItem. destruct (count <=? 0) eqn:E; [done|]. destruct (_ || _ || _) eqn:Ep; [done|].
  apply orb_false_iff in Ep as [[Hle Hn]%orb_false_iff Hinf]. apply Forall_app. split; [done|]. apply Forall_singleton.
  split; [simpl; lia|]. apply not_le_gt; [apply Hidx|done|done|done].
Qed.
Lemma merge_items_ok acc l : Forall item_ok acc -> Forall item_ok l -> Forall item_ok (merge_items acc l).
Proof.
  revert acc. induction l as [|it l IH]; intros acc Ha Hl; simpl; [by apply Forall_reverse|]. apply Forall_cons in Hl as [Hit Hl].
  destruct acc as [|last rest]; [apply IH; [by apply Forall_singleton|done]|]. apply Forall_cons in Ha as [Hlast Ha]. destruct (_ && _); [|apply IH; [constructor; [done|by constructor]|done]].
  apply IH; [|done]. constructor; [|done]. destruct Hlast as [Hc1 Hp1], Hit as [Hc2 _]. split; [|done]. simpl.
  rewrite (wrap64_id (MaxInt64 - _)) by (unfold in_i64, MinInt64, MaxInt64 in *; lia).
  destruct (_ <? _) eqn:E; [unfold MaxInt64; lia|]. rewrite wrap64_id by (unfold in_i64, MinInt64, MaxInt64 in *; lia). lia.
Qed.
Definition tools_ok (rq : TextRequest) : Prop := Forall (fun nt => nt.2 <= MaxInt64) rq.(rq_BuiltInTools) /\ rq.(rq_ClaudeWebSearch) <= MaxInt64.
Lemma tool_items_ok rq : tools_ok rq -> Forall item_ok (tool_items idx rq).
Proof.
  intros [Ht Hw]. unfold tool_items, mergeToolSurchargeItems. apply merge_items_ok; [constructor|]. rewrite merge_sort_Permutation.
  assert (Forall item_ok (foldl (fun items nt => collectToolSurchargeItem idx items nt.1 nt.2 rq.(rq_BillingModelName)) [] rq.(rq_BuiltInTools))) as H0.
  { assert (Forall item_ok (@nil ToolSurchargeItem)) as Hn by constructor. revert Hn. generalize (@nil ToolSurchargeItem). induction Ht as [|nt l Hnt _ IH]; intros acc Hacc; simpl; [done|].
    apply IH. by apply collect_ok. }
  assert (1 <= MaxInt64) by (unfold MaxInt64; lia).
  repeat first [done | apply collect_ok | match goal with |- Forall _ (if ?b then _ else _) => destruct b end].
Qed.
Lemma item_quota_nonneg g it : nonneg g -> item_ok it -> (0 <= val (item_quota quotaPerUnit g it))%Q.
Proof.
  intros Hg [Hc Hp]. unfold item_quota. rewrite !val_mul. repeat apply Qmult_le_0_compat; try by apply val_nonneg.
  apply val_div; [rewrite val_mul; apply Qmult_le_0_compat; [by apply val_nonneg|apply val_nat; lia]|]. rewrite val_int. done.
Qed.
Lemma surcharge_nonneg rq : nonneg rq.(rq_PriceData).(pd_GroupRatio) -> tools_ok rq -> (0 <= val (calculateTextToolCallSurcharge idx quotaPerUnit rq))%Q.
Proof.
  intros Hg Ht. unfold calculateTextToolCallSurcharge. assert (0 <= val d_Zero)%Q as Hz by (unfold d_Zero; rewrite val_int; done). revert Hz.
  generalize d_Zero. pose proof (tool_items_ok rq Ht) as Hi. induction Hi as [|it l Hit _ IH]; intros acc Hacc; simpl; [done|]. apply IH.
  rewrite val_add. pose proof (item_quota_nonneg _ it Hg Hit). lra.
Qed.
Lemma surcharge_free rq : (val (NewFromFloat rq.(rq_PriceData).(pd_GroupRatio)) == 0)%Q -> (val (calculateTextToolCallSurcharge idx quotaPerUnit rq) == 0)%Q.
Proof.
  intros Hg. unfold calculateTextToolCallSurcharge. assert (val d_Zero == 0)%Q as Hz by (unfold d_Zero; apply val_int). revert Hz.
  generalize d_Zero. induction (tool_items idx rq) as [|it l IH]; intros acc Hacc; simpl; [done|]. apply IH.
  rewrite val_add, Hacc. unfold item_quota. rewrite !val_mul, Hg. ring.
Qed.

(** ** The tokens *)

(** The cost as one formula. *)
Definition whole (legacy : bool) (s : textQuotaSummary) : bool := negb s.(sm_IsClaude) && negb legacy.
Definition audio_deducted (rq : TextRequest) (s : textQuotaSummary) : Z := match audio_quota quotaPerUnit rq s with Some _ => s.(sm_AudioTokens) | None => 0 end.
Definition deducted (rq : TextRequest) (legacy : bool) (s : textQuotaSummary) : Z :=
  (if whole legacy s then s.(sm_CacheTokens) + s.(sm_CacheCreationTokens) else 0) + s.(sm_ImageTokens) + audio_deducted rq s.
Definition plain_tokens (rq : TextRequest) (legacy : bool) (s : textQuotaSummary) : Z := Z.max 0 (s.(sm_PromptTokens) - deducted rq legacy s).
Definition priced (n : Z) (r : float64) : Q := (inject_Z n * val (NewFromFloat r))%Q.
Definition creation_cost (pd : PriceData) (legacy : bool) (s : textQuotaSummary) : Q :=
  if whole legacy s then priced s.(sm_CacheCreationTokens) pd.(pd_CacheCreationRatio)
  else (priced (Z.max (s.(sm_CacheCreationTokens) -! s.(sm_CacheCreationTokens5m) -! s.(sm_CacheCreationTokens1h)) 0) pd.(pd_CacheCreationRatio)
        + priced s.(sm_CacheCreationTokens5m) pd.(pd_CacheCreation5mRatio) + priced s.(sm_CacheCreationTokens1h) pd.(pd_CacheCreation1hRatio))%Q.
Definition audio_cost (rq : TextRequest) (s : textQuotaSummary) : Q := match audio_quota quotaPerUnit rq s with Some a => val a | None => 0 end.
Definition raw_cost (rq : TextRequest) (legacy : bool) (s : textQuotaSummary) : Q :=
  let pd := rq.(rq_PriceData) in
  (((inject_Z (plain_tokens rq legacy s) + priced s.(sm_CacheTokens) pd.(pd_CacheRatio) + priced s.(sm_ImageTokens) pd.(pd_ImageRatio)
     + creation_cost pd legacy s + priced s.(sm_CompletionTokens) pd.(pd_CompletionRatio)) * val (ratio_of pd)
    + audio_cost rq s) * other_factor pd.(pd_otherRatios) + val s.(sm_Surcharge))%Q.
Definition counted (s : textQuotaSummary) : Prop :=
  0 <= s.(sm_CacheTokens) /\ 0 <= s.(sm_CacheCreationTokens) /\ 0 <= s.(sm_CacheCreationTokens5m) /\ 0 <= s.(sm_CacheCreationTokens1h) /\
  0 <= s.(sm_ImageTokens) /\ 0 <= s.(sm_AudioTokens) /\ 0 <= s.(sm_CompletionTokens).

Lemma IsZero_int n : d_IsZero (NewFromInt n) = (n =? 0).
Proof.
  rewrite val_IsZero. apply eq_true_iff_eq. rewrite Qeq_bool_iff, Z.eqb_eq, val_int. change 0%Q with (inject_Z 0). unfold Qeq. simpl. lia.
Qed.
Lemma val_zero : (val d_Zero == 0)%Q.
Proof. apply val_int. Qed.
Lemma val_floor b z : (val b == inject_Z z)%Q -> (val (if d_IsNegative b then d_Zero else b) == inject_Z (Z.max 0 z))%Q.
Proof.
  intros Hb. rewrite val_IsNegative. destruct (Qle_bool 0 (val b)) eqn:E; simpl.
  - rewrite Qle_bool_iff, Hb in E. change 0%Q with (inject_Z 0) in E. rewrite <- Zle_Qle in E. by rewrite Z.max_r.
  - assert (~ (0 <= val b)%Q) as Hn by (rewrite <- Qle_bool_iff; congruence). rewrite Hb in Hn. change 0%Q with (inject_Z 0) in Hn. rewrite <- Zle_Qle in Hn.
    rewrite val_zero, Z.max_l by lia. done.
Qed.
Lemma val_minus b x z y : (val b == inject_Z z)%Q -> (val x == inject_Z y)%Q -> (val (d_Sub b x) == inject_Z (z - y))%Q.
Proof. intros Hb Hx. rewrite val_sub, Hb, Hx. unfold Z.sub. rewrite inject_Z_plus, inject_Z_opp. ring. Qed.
Lemma val_priced n r : (val (d_Mul (NewFromInt n) (NewFromFloat r)) == priced n r)%Q.
Proof. rewrite val_mul, val_int. done. Qed.
Lemma priced_zero r : (priced 0 r == 0)%Q.
Proof. unfold priced. change (inject_Z 0) with 0%Q. ring. Qed.

Lemma cached_part_val pd t s b z :
  (val b == inject_Z z)%Q ->
  let (b', c) := cached_part pd t s b in
  (val b' == inject_Z (z - (if t then s.(sm_CacheTokens) else 0)))%Q /\ (val c == priced s.(sm_CacheTokens) pd.(pd_CacheRatio))%Q.
Proof.
  intros Hb. unfold cached_part. rewrite IsZero_int. destruct (Z.eqb_spec s.(sm_CacheTokens) 0) as [->|Hne].
  - split; [|by rewrite val_zero, priced_zero]. destruct t; by rewrite Z.sub_0_r.
  - split; [|apply val_priced]. destruct t; [apply val_minus; [done|apply val_int]|by rewrite Z.sub_0_r].
Qed.
Lemma creation_part_val pd legacy s b z :
  counted s -> (val b == inject_Z z)%Q ->
  let (b', c) := creation_part pd (whole legacy s) s b in
  (val b' == inject_Z (z - (if whole legacy s then s.(sm_CacheCreationTokens) else 0)))%Q /\ (val c == creation_cost pd legacy s)%Q.
Proof.
  intros (H1 & H2 & H3 & H4 & _) Hb. unfold creation_part, creation_cost. rewrite IsZero_int.
  destruct (negb _ || _) eqn:E; destruct (whole legacy s).
  - split; [apply val_minus; [done|apply val_int]|apply val_priced].
  - split; [by rewrite Z.sub_0_r|]. by rewrite !val_add, !val_priced.
  - replace s.(sm_CacheCreationTokens) with 0 by lia. by rewrite Z.sub_0_r, val_zero, priced_zero.
  - replace s.(sm_CacheCreationTokens) with 0 by lia. replace s.(sm_CacheCreationTokens5m) with 0 by lia. replace s.(sm_CacheCreationTokens1h) with 0 by lia.
    rewrite Z.sub_0_r, val_zero. change (Z.max (0 -! 0 -! 0) 0) with 0. rewrite !priced_zero. split; [done|ring].
Qed.
Lemma image_part_val pd s b z :
  (val b == inject_Z z)%Q ->
  let (b', c) := image_part pd s b in (val b' == inject_Z (z - s.(sm_ImageTokens)))%Q /\ (val c == priced s.(sm_ImageTokens) pd.(pd_ImageRatio))%Q.
Proof.
  intros Hb. unfold image_part. rewrite IsZero_int. destruct (Z.eqb_spec s.(sm_ImageTokens) 0) as [->|Hne].
  - by rewrite Z.sub_0_r, val_zero, priced_zero.
  - split; [apply val_minus; [done|apply val_int]|apply val_priced].
Qed.
Lemma audio_part_val rq s b z :
  (val b == inject_Z z)%Q ->
  let (b', c) := audio_part quotaPerUnit rq s b in (val b' == inject_Z (z - audio_deducted rq s))%Q /\ (val c == audio_cost rq s)%Q.
Proof.
  intros Hb. unfold audio_part, audio_deducted, audio_cost. destruct (audio_quota _ _ _); [split; [apply val_minus; [done|apply val_int]|done]|].
  by rewrite Z.sub_0_r, val_zero.
Qed.

Lemma cost_val rq legacy s :
  counted s ->
  let cost := token_cost quotaPerUnit rq legacy s in
  (val cost == if negb (d_IsZero (ratio_of rq.(rq_PriceData))) && Qle_bool (raw_cost rq legacy s) 0 then 1 else raw_cost rq legacy s)%Q.
Proof.
  intros Hc. cbv zeta. unfold token_cost, parts_of. fold (whole legacy s). set (pd := rq.(rq_PriceData)).
  pose proof (cached_part_val pd (whole legacy s) s _ _ (val_int s.(sm_PromptTokens))) as H1. destruct (cached_part _ _ _ _) as [b1 cached]. destruct H1 as [H1 C1].
  pose proof (creation_part_val pd legacy s _ _ Hc H1) as H2. destruct (creation_part _ _ _ _) as [b2 creation]. destruct H2 as [H2 C2].
  pose proof (image_part_val pd s _ _ H2) as H3. destruct (image_part _ _ _) as [b3 image]. destruct H3 as [H3 C3].
  pose proof (audio_part_val rq s _ _ H3) as H4. destruct (audio_part _ _ _ _) as [b4 audio]. destruct H4 as [H4 C4].
  apply val_floor in H4. cbn [tp_base tp_cached tp_creation tp_image tp_audio].
  assert (Z.max 0 (s.(sm_PromptTokens) - (if whole legacy s then s.(sm_CacheTokens) else 0) - (if whole legacy s then s.(sm_CacheCreationTokens) else 0)
            - s.(sm_ImageTokens) - audio_deducted rq s) = plain_tokens rq legacy s) as Ep.
  { unfold plain_tokens, deducted. destruct (whole legacy s); lia. }
  rewrite Ep in H4. set (cost := d_Add (ApplyOtherRatiosToDecimal _ _) _).
  assert (val cost == raw_cost rq legacy s)%Q as Hcost.
  { unfold cost, raw_cost. rewrite val_add, val_apply, val_add, val_mul, !val_add, H4, C1, C2, C3, C4, val_priced. fold pd. ring. }
  rewrite val_le. assert (Qle_bool (val cost) (val d_Zero) = Qle_bool (raw_cost rq legacy s) 0) as ->.
  { apply eq_true_iff_eq. by rewrite !Qle_bool_iff, Hcost, val_zero. }
  destruct (_ && _); [apply val_int|done].
Qed.

Lemma gemini_price_nonneg m : nonneg (GetGeminiInputAudioPricePerMillionTokens m).
Proof.
  unfold GetGeminiInputAudioPricePerMillionTokens.
  repeat match goal with |- context [if ?b then _ else _] => destruct b end; split; vm_compute; try done; discriminate.
Qed.
Lemma audio_cost_nonneg rq s : nonneg rq.(rq_PriceData).(pd_GroupRatio) -> 0 <= s.(sm_AudioTokens) -> (0 <= audio_cost rq s)%Q.
Proof.
  intros Hg Ha. unfold audio_cost, audio_quota. destruct (_ =? 0); [done|]. destruct (f_gt _ _); [|done]. rewrite !val_mul.
  repeat apply Qmult_le_0_compat; [|by apply val_nat|by apply val_nonneg|by apply val_nonneg].
  apply val_div; [apply val_nonneg, gemini_price_nonneg|by rewrite val_int].
Qed.
Lemma priced_nonneg n r : 0 <= n -> nonneg r -> (0 <= priced n r)%Q.
Proof. intros Hn Hr. unfold priced. apply Qmult_le_0_compat; [|by apply val_nonneg]. change 0%Q with (inject_Z 0). by rewrite <- Zle_Qle. Qed.
Lemma ratio_nonneg pd : prices_ok pd -> (0 <= val (ratio_of pd))%Q.
Proof. intros []. unfold ratio_of. rewrite val_mul. apply Qmult_le_0_compat; by apply val_nonneg. Qed.
Lemma plain_nonneg rq legacy s : (0 <= inject_Z (plain_tokens rq legacy s))%Q.
Proof. change 0%Q with (inject_Z 0). rewrite <- Zle_Qle. unfold plain_tokens. lia. Qed.
Lemma creation_nonneg pd legacy s : prices_ok pd -> counted s -> (0 <= creation_cost pd legacy s)%Q.
Proof.
  intros [] (H1 & H2 & H3 & H4 & _). unfold creation_cost. destruct (whole legacy s); [by apply priced_nonneg|].
  repeat apply Qle_0_plus; apply priced_nonneg; (done || lia).
Qed.

Lemma raw_nonneg rq legacy s :
  prices_ok rq.(rq_PriceData) -> counted s -> (0 <= val s.(sm_Surcharge))%Q -> (0 <= raw_cost rq legacy s)%Q.
Proof.
  intros Hp Hc Hs. pose proof (ratio_nonneg _ Hp). pose proof (creation_nonneg _ legacy s Hp Hc). pose proof (plain_nonneg rq legacy s).
  destruct Hp, Hc as (N1 & N2 & N3 & N4 & N5 & N6 & N7). unfold raw_cost. cbv zeta. apply Qle_0_plus; [|done].
  apply Qmult_le_0_compat; [|by apply other_factor_nonneg]. apply Qle_0_plus; [|by apply audio_cost_nonneg].
  apply Qmult_le_0_compat; [|done]. repeat apply Qle_0_plus; (done || by apply priced_nonneg).
Qed.
Lemma call_cost_val pd s :
  (val (call_cost quotaPerUnit pd s) ==
   val (NewFromFloat pd.(pd_ModelPrice)) * val (NewFromFloat quotaPerUnit) * val (NewFromFloat pd.(pd_GroupRatio)) * other_factor pd.(pd_otherRatios)
   + val s.(sm_Surcharge))%Q.
Proof. unfold call_cost. rewrite val_add, val_apply, val_add, !val_mul, val_zero. ring. Qed.

(** ** The quota *)

Definition quota_of (rq : TextRequest) (usage : option Usage) : Z := (calculateTextQuotaSummary idx quotaPerUnit rq usage).1.(sm_Quota).
Definition usage_of (rq : TextRequest) (usage : option Usage) : Usage :=
  default (estimated_usage rq.(rq_EstimatePromptTokens) 0 rq.(rq_EstimatePromptTokens)) usage.
Definition summary_of (rq : TextRequest) (usage : option Usage) : textQuotaSummary :=
  summarize idx quotaPerUnit rq (String.eqb (usageSemanticFromUsage rq usage) "anthropic") (usage_of rq usage).
Definition cost_of (rq : TextRequest) (usage : option Usage) : dec :=
  if rq.(rq_PriceData).(pd_UsePrice) then call_cost quotaPerUnit rq.(rq_PriceData) (summary_of rq usage)
  else token_cost quotaPerUnit rq (isLegacyClaudeDerivedOpenAIUsage rq (usage_of rq usage)) (summary_of rq usage).
Definition free_ratio (pd : PriceData) : bool := d_IsZero (ratio_of pd).
Lemma quota_of_eq rq usage :
  quota_of rq usage =
    if negb (hasBillableUsage (summary_of rq usage)) then 0
    else if negb (free_ratio rq.(rq_PriceData)) && (QuotaFromDecimal (cost_of rq usage) =? 0) then 1 else QuotaFromDecimal (cost_of rq usage).
Proof.
  unfold quota_of, calculateTextQuotaSummary. fold (usage_of rq usage) (summary_of rq usage). fold (cost_of rq usage). unfold QuotaFromDecimal.
  by destruct (QuotaFromDecimalChecked _) as [q c].
Qed.
Lemma summary_counted rq usage : counts_ok (usage_of rq usage) -> counted (summary_of rq usage).
Proof.
  intros (H1 & H2 & H3 & H4 & H5 & H6 & H7 & H8). unfold summary_of, summarize. set (u := usage_of rq usage) in *.
  assert (0 <= CacheCreationTokensTotal u.(us_PromptTokensDetails)) as H9 by (unfold CacheCreationTokensTotal; destruct (_ <? 0) eqn:E; lia).
  destruct (_ && _); [|by split_and!]. destruct (_ && _); [|by split_and!]. destruct (_ && _) eqn:E; split_and!; try done. simpl. lia.
Qed.
Lemma summary_surcharge rq usage : (summary_of rq usage).(sm_Surcharge) = calculateTextToolCallSurcharge idx quotaPerUnit rq.
Proof. unfold summary_of, summarize. by repeat match goal with |- context [let '(_, _) := ?x in _] => destruct x end. Qed.
Lemma cost_nonneg rq usage :
  prices_ok rq.(rq_PriceData) -> tools_ok rq -> counts_ok (usage_of rq usage) -> (0 <= val (cost_of rq usage))%Q.
Proof.
  intros Hp Ht Hu. pose proof (summary_counted rq usage Hu) as Hc.
  assert (0 <= val (summary_of rq usage).(sm_Surcharge))%Q as Hs by (rewrite summary_surcharge; apply surcharge_nonneg; [apply Hp|done]).
  unfold cost_of. destruct (pd_UsePrice _) eqn:Eu.
  - rewrite call_cost_val. apply Qle_0_plus; [|done]. destruct Hp. specialize (po_ModelPrice0 Eu). apply Qmult_le_0_compat; [|by apply other_factor_nonneg].
    repeat apply Qmult_le_0_compat; by apply val_nonneg.
  - rewrite (cost_val _ _ _ Hc). destruct (_ && _); [done|]. by apply raw_nonneg.
Qed.

(** C16. What a text request costs, for any usage and prices that are not negative: between
    nothing and the most one request may cost; nothing without tokens or charged tool
    calls; nothing in a group whose ratio is zero, tool calls included; and at least one
    unit of quota if there is usage and neither the model's nor the group's ratio is
    zero. *)
Theorem text_cost_bounds rq usage :
  prices_ok rq.(rq_PriceData) -> tools_ok rq -> counts_ok (usage_of rq usage) ->
  let billable := hasBillableUsage (summary_of rq usage) in
  0 <= quota_of rq usage <= MaxQuota /\ (billable = false -> quota_of rq usage = 0) /\
  (sv rq.(rq_PriceData).(pd_GroupRatio) = 0 -> quota_of rq usage = 0) /\
  (billable = true -> sv rq.(rq_PriceData).(pd_ModelRatio) <> 0 -> sv rq.(rq_PriceData).(pd_GroupRatio) <> 0 -> 1 <= quota_of rq usage).
Proof.
  intros Hp Ht Hu billable. pose proof (QuotaFromDecimal_range _ (cost_nonneg rq usage Hp Ht Hu)) as Hr. rewrite !quota_of_eq. fold billable.
  set (q := QuotaFromDecimal _) in *. split; [|split; [|split]].
  - destruct (negb billable); [unfold MaxQuota; lia|]. destruct (_ && _); unfold MaxQuota in *; lia.
  - by intros ->.
  - intros Hz. assert (val (NewFromFloat rq.(rq_PriceData).(pd_GroupRatio)) == 0)%Q as Hg.
    { apply (val_float_int _ 0); [apply Hp|lia|lia]. }
    assert (val (ratio_of rq.(rq_PriceData)) == 0)%Q as Hra by (unfold ratio_of; rewrite val_mul, Hg; ring).
    assert (free_ratio rq.(rq_PriceData) = true) as -> by (unfold free_ratio; rewrite val_IsZero; by apply Qeq_bool_iff).
    pose proof (surcharge_free rq Hg) as Hsu. rewrite <- summary_surcharge with (usage := usage) in Hsu.
    assert (q = 0) as ->; [|by destruct (negb billable)]. apply QuotaFromDecimal_zero. unfold cost_of. destruct (pd_UsePrice _).
    + rewrite call_cost_val, Hg, Hsu. ring.
    + rewrite (cost_val _ _ _ (summary_counted _ _ Hu)). replace (d_IsZero (ratio_of _)) with true by (rewrite val_IsZero; symmetry; by apply Qeq_bool_iff).
      simpl. unfold raw_cost. cbv zeta. rewrite Hra, Hsu. unfold audio_cost, audio_quota. destruct (_ =? 0); [ring|]. destruct (f_gt _ _); [|ring]. rewrite !val_mul, Hg. ring.
  - intros -> Hm Hg. assert (free_ratio rq.(rq_PriceData) = false) as ->.
    { unfold free_ratio. rewrite val_IsZero. apply not_true_iff_false. rewrite Qeq_bool_iff. unfold ratio_of. rewrite val_mul. intros Hx.
      apply Qmult_integral in Hx as [Hx|Hx]; apply val_float_nonzero in Hx; try done; apply Hp. }
    simpl. destruct (q =? 0) eqn:E; lia.
Qed.

(** The cost before the minimum of one unit. *)
Definition base_cost (rq : TextRequest) (usage : option Usage) : Q :=
  if rq.(rq_PriceData).(pd_UsePrice) then val (call_cost quotaPerUnit rq.(rq_PriceData) (summary_of rq usage))
  else raw_cost rq (isLegacyClaudeDerivedOpenAIUsage rq (usage_of rq usage)) (summary_of rq usage).
Lemma quota_formula rq usage :
  prices_ok rq.(rq_PriceData) -> tools_ok rq -> counts_ok (usage_of rq usage) ->
  (0 <= base_cost rq usage)%Q /\
  quota_of rq usage =
    if hasBillableUsage (summary_of rq usage)
    then let q := clamp_quota (rnd (base_cost rq usage)) in if free_ratio rq.(rq_PriceData) then q else Z.max 1 q
    else 0.
Proof.
  intros Hp Ht Hu. pose proof (summary_counted rq usage Hu) as Hc.
  assert (0 <= val (summary_of rq usage).(sm_Surcharge))%Q as Hs by (rewrite summary_surcharge; apply surcharge_nonneg; [apply Hp|done]).
  pose proof (cost_nonneg rq usage Hp Ht Hu) as Hn. rewrite quota_of_eq, QuotaFromDecimal_val. unfold cost_of, base_cost in *.
  destruct (pd_UsePrice _).
  - split; [done|]. pose proof (rnd_nonneg _ Hn). set (z := rnd _) in *. destruct (hasBillableUsage _); [|done]. unfold clamp_quota, MinQuota, MaxQuota in *.
    destruct (free_ratio _); cbn [negb andb]; [reflexivity|]. destruct (_ =? 0) eqn:E; lia.
  - pose proof (raw_nonneg rq (isLegacyClaudeDerivedOpenAIUsage rq (usage_of rq usage)) _ Hp Hc Hs) as Hraw. split; [done|].
    destruct (hasBillableUsage _); [|done]. cbn [negb]. rewrite (rnd_proper _ _ (cost_val _ _ _ Hc)). fold (free_ratio rq.(rq_PriceData)).
    set (raw := raw_cost _ _ _) in *. pose proof (rnd_nonneg _ Hraw). destruct (free_ratio _); cbn [negb andb]; [reflexivity|].
    destruct (Qle_bool raw 0) eqn:E.
    + apply Qle_bool_iff in E. assert (raw == inject_Z 0)%Q as Hz by (change (inject_Z 0) with 0%Q; lra). rewrite (rnd_proper _ _ Hz), rnd_int. done.
    + unfold clamp_quota, MinQuota, MaxQuota. set (z := rnd raw) in *. destruct (_ =? 0) eqn:E2; lia.
Qed.
Lemma quota_mono rq rq' usage usage' :
  rq'.(rq_PriceData) = rq.(rq_PriceData) -> prices_ok rq.(rq_PriceData) -> tools_ok rq -> tools_ok rq' ->
  counts_ok (usage_of rq usage) -> counts_ok (usage_of rq' usage') ->
  (hasBillableUsage (summary_of rq usage) = true -> hasBillableUsage (summary_of rq' usage') = true) ->
  (base_cost rq usage <= base_cost rq' usage')%Q -> quota_of rq usage <= quota_of rq' usage'.
Proof.
  intros E Hp Ht Ht' Hu Hu' Hb Hc. destruct (quota_formula rq usage Hp Ht Hu) as [N1 ->].
  rewrite <- E in Hp. destruct (quota_formula rq' usage' Hp Ht' Hu') as [N2 ->]. rewrite E.
  pose proof (rnd_nonneg _ N1). pose proof (rnd_nonneg _ N2). apply rnd_mono, clamp_quota_mono in Hc. cbv zeta.
  destruct (hasBillableUsage (summary_of rq usage)); [rewrite Hb by done; destruct (free_ratio _); lia|].
  destruct (hasBillableUsage (summary_of rq' usage')); [|done]. unfold clamp_quota, MinQuota, MaxQuota. destruct (free_ratio _); lia.
Qed.

(** More of the tokens that are not broken down, and otherwise the same usage. *)
Definition more_tokens (u u' : Usage) : Prop :=
  u.(us_PromptTokens) <= u'.(us_PromptTokens) /\ u.(us_CompletionTokens) <= u'.(us_CompletionTokens) /\
  u'.(us_UsageSemantic) = u.(us_UsageSemantic) /\ u'.(us_UsageSource) = u.(us_UsageSource) /\ u'.(us_PromptTokensDetails) = u.(us_PromptTokensDetails) /\
  u'.(us_ClaudeCacheCreation5mTokens) = u.(us_ClaudeCacheCreation5mTokens) /\ u'.(us_ClaudeCacheCreation1hTokens) = u.(us_ClaudeCacheCreation1hTokens).
Lemma priced_mono n m r : n <= m -> nonneg r -> (priced n r <= priced m r)%Q.
Proof. intros Hn Hr. unfold priced. apply Qmult_le_compat_r; [by rewrite <- Zle_Qle|by apply val_nonneg]. Qed.
Lemma summarize_plain rq claude u :
  rq.(rq_OpenRouter) = false ->
  summarize idx quotaPerUnit rq claude u =
    mkSummary u.(us_PromptTokens) u.(us_CompletionTokens) (u.(us_PromptTokens) +! u.(us_CompletionTokens)) u.(us_PromptTokensDetails).(it_CachedTokens)
      (CacheCreationTokensTotal u.(us_PromptTokensDetails)) u.(us_ClaudeCacheCreation5mTokens) u.(us_ClaudeCacheCreation1hTokens)
      u.(us_PromptTokensDetails).(it_ImageTokens) u.(us_PromptTokensDetails).(it_AudioTokens) claude (calculateTextToolCallSurcharge idx quotaPerUnit rq) false 0.
Proof. intros E. unfold summarize. by rewrite E. Qed.

(** Tokens never make a request cheaper: with the same prices, the same breakdown of the
    prompt and the same tool calls, a request with at least as many prompt and completion
    tokens costs at least as much, whatever the kind of usage and of price. *)
Theorem text_cost_monotone rq u u' :
  prices_ok rq.(rq_PriceData) -> tools_ok rq -> rq.(rq_OpenRouter) = false -> counts_ok u -> counts_ok u' -> more_tokens u u' ->
  quota_of rq (Some u) <= quota_of rq (Some u').
Proof.
  intros Hp Ht Hor Hu Hu' (M1 & M2 & M3 & M4 & M5 & M6 & M7).
  assert (usageSemanticFromUsage rq (Some u') = usageSemanticFromUsage rq (Some u)) as Esem by (unfold usageSemanticFromUsage; by rewrite M3).
  assert (isLegacyClaudeDerivedOpenAIUsage rq u' = isLegacyClaudeDerivedOpenAIUsage rq u) as Eleg
    by (unfold isLegacyClaudeDerivedOpenAIUsage; by rewrite M3, M4, M6, M7).
  pose proof Hu as (N1 & N2 & N3 & _). pose proof Hu' as (P1 & P2 & P3 & _).
  apply quota_mono; try done.
  - unfold summary_of. simpl usage_of. rewrite !summarize_plain by done. unfold hasBillableUsage. simpl.
    rewrite !wrap64_id by (unfold in_i64, MinInt64; lia). destruct (d_IsZero _); [|by rewrite !orb_true_r]. simpl. rewrite !orb_false_r, !Z.ltb_lt. lia.
  - unfold base_cost, summary_of. simpl usage_of. rewrite !summarize_plain, Esem, Eleg, M5, M6, M7 by done. destruct (pd_UsePrice _).
    { rewrite !call_cost_val. apply Qle_refl. }
    unfold raw_cost. cbv zeta. cbn [sm_PromptTokens sm_CompletionTokens sm_CacheTokens sm_CacheCreationTokens sm_CacheCreationTokens5m sm_CacheCreationTokens1h sm_ImageTokens sm_AudioTokens sm_Surcharge sm_IsClaude].
    apply Qplus_le_compat; [|by apply Qle_refl]. apply Qmult_le_compat_r; [|apply other_factor_nonneg; apply Hp].
    apply Qplus_le_compat; [|by apply Qle_refl]. apply Qmult_le_compat_r; [|by apply ratio_nonneg].
    apply Qplus_le_compat; [|apply priced_mono; [done|apply Hp]]. apply Qplus_le_compat; [|by apply Qle_refl]. apply Qplus_le_compat; [|by apply Qle_refl].
    apply Qplus_le_compat; [|by apply Qle_refl]. rewrite <- Zle_Qle. unfold plain_tokens, deducted, whole, audio_deducted, audio_quota. simpl. lia.
Qed.

Definition with_cached (n : Z) (u : Usage) : Usage :=
  let i := u.(us_PromptTokensDetails) in
  mkUsage u.(us_PromptTokens) u.(us_CompletionTokens) u.(us_TotalTokens) u.(us_UsageSemantic) u.(us_UsageSource)
    (mkInputDetails n i.(it_CachedTokensDetails) i.(it_CachedCreationTokens) i.(it_CacheWriteTokens) i.(it_TextTokens) i.(it_AudioTokens) i.(it_ImageTokens))
    u.(us_CompletionTokenDetails) u.(us_ClaudeCacheCreation5mTokens) u.(us_ClaudeCacheCreation1hTokens) u.(us_Cost).
Lemma ratio_le_one r : nonneg r -> sv r <= unit64 -> (val (NewFromFloat r) <= 1)%Q.
Proof.
  intros [Hf _] Hs. destruct (float64_of_int_exact 1) as (V1 & F1 & S1); [lia|].
  apply Qle_trans with (val (NewFromFloat (float64_of_int 1))); [apply val_float_mono; [done|done|lia]|].
  rewrite (val_float_int _ 1 F1 S1 ltac:(lia)). apply Qle_refl.
Qed.

(** C17. A cache hit never costs more: where the prompt counts the cached tokens (not
    Claude's semantics, nor an older usage derived from it, nor OpenRouter, whose counts are
    rebuilt from the cost), the ratio of cached tokens is at most one, and the cached tokens,
    the tokens that create a cache, the images and the audio fit together into the prompt, a
    usage costs at most what it would cost if none of its tokens had been cached.  (Where
    they exceed the prompt a hit can cost more, see [overlapping_hit_costs_more].) *)
Theorem cached_tokens_discount rq u :
  prices_ok rq.(rq_PriceData) -> tools_ok rq -> rq.(rq_OpenRouter) = false -> counts_ok u ->
  usageSemanticFromUsage rq (Some u) <> "anthropic"%string -> isLegacyClaudeDerivedOpenAIUsage rq u = false ->
  sv rq.(rq_PriceData).(pd_CacheRatio) <= unit64 ->
  (let i := u.(us_PromptTokensDetails) in i.(it_CachedTokens) + CacheCreationTokensTotal i + i.(it_ImageTokens) + i.(it_AudioTokens) <= u.(us_PromptTokens)) ->
  quota_of rq (Some u) <= quota_of rq (Some (with_cached 0 u)).
Proof.
  intros Hp Ht Hor Hu Hsem Hleg Hcr Hfit. cbv zeta in Hfit. pose proof Hu as (N1 & N2 & N3 & N4 & N5 & N6 & N7 & N8). apply quota_mono; try done.
  - unfold summary_of. simpl usage_of. by rewrite !summarize_plain by done.
  - unfold base_cost, summary_of. simpl usage_of. rewrite !summarize_plain by done.
    change (usageSemanticFromUsage rq (Some (with_cached 0 u))) with (usageSemanticFromUsage rq (Some u)).
    change (isLegacyClaudeDerivedOpenAIUsage rq (with_cached 0 u)) with (isLegacyClaudeDerivedOpenAIUsage rq u).
    apply String.eqb_neq in Hsem. rewrite Hsem, Hleg. destruct (pd_UsePrice _); [rewrite !call_cost_val; apply Qle_refl|].
    unfold raw_cost. cbv zeta. cbn [sm_PromptTokens sm_CompletionTokens sm_CacheTokens sm_CacheCreationTokens sm_CacheCreationTokens5m sm_CacheCreationTokens1h sm_ImageTokens sm_AudioTokens sm_Surcharge sm_IsClaude with_cached us_PromptTokens us_CompletionTokens us_PromptTokensDetails us_ClaudeCacheCreation5mTokens us_ClaudeCacheCreation1hTokens it_CachedTokens it_ImageTokens it_AudioTokens].
    apply Qplus_le_compat; [|by apply Qle_refl]. apply Qmult_le_compat_r; [|apply other_factor_nonneg; apply Hp].
    apply Qplus_le_compat; [|by apply Qle_refl]. apply Qmult_le_compat_r; [|by apply ratio_nonneg].
    apply Qplus_le_compat; [|by apply Qle_refl]. apply Qplus_le_compat; [|by apply Qle_refl]. apply Qplus_le_compat; [|by apply Qle_refl].
    rewrite priced_zero. set (i := u.(us_PromptTokensDetails)) in *. unfold plain_tokens, deducted, whole, audio_deducted, audio_quota. simpl.
    set (a := match (if it_AudioTokens i =? 0 then None else _) with Some _ => it_AudioTokens i | None => 0 end).
    assert (0 <= a <= i.(it_AudioTokens)) as Ha by (unfold a; destruct (_ =? 0); [lia|]; destruct (f_gt _ _); lia).
    change (CacheCreationTokensTotal _) with (CacheCreationTokensTotal i) at 2.
    rewrite !Z.max_r by lia. unfold priced.
    assert (inject_Z i.(it_CachedTokens) * val (NewFromFloat rq.(rq_PriceData).(pd_CacheRatio)) <= inject_Z i.(it_CachedTokens) * 1)%Q as Hm.
    { rewrite !(Qmult_comm (inject_Z _)). apply Qmult_le_compat_r; [apply ratio_le_one; [apply Hp|done]|]. change 0%Q with (inject_Z 0). by rewrite <- Zle_Qle. }
    rewrite Qmult_1_r in Hm. unfold Z.sub. rewrite !inject_Z_plus, !inject_Z_opp, !inject_Z_plus. change (inject_Z 0) with 0%Q. lra.
Qed.
End laws.
