(* ===== verification/CostCharge.v ===== *)
(** * What a request pays in the end (theorems on CostSettle)

    The settlement of a text request moves just what was computed for it; requests with
    audio at a price per call, and realtime sessions, do not pay what they should. *)

From stdpp Require Import base tactics numbers list gmap strings sorting.
From Stdlib Require Import ZArith QArith Lia SpecFloat.
From S2P Require Import Prelude Float64 QuotaMath DecimalQ DecimalOrder World UserCache QuotaStore Reserve SubscriptionTime Subscription SubscriptionInv SubscriptionUse Billing BillingFrame BillingLaws BillingInv Task TaskLaws ToolPrice Cost CostLaws CostSettle.
Open Scope Z_scope.

(** ** Statistics do not stand in the way of the settlement *)

Section ready.
Context (f : Funding) (ri : RelayInfo) (d : Z) (w0 : World).
Definition ready (w : World) : Prop := same_money w0 w /\ can_pay f d w /\ token_ready ri d w.

#[export] Instance ready_ledger : LedgerPred ready.
Proof.
  intros w w' E (H1 & H2 & H3). split_and!.
  - by eapply same_money_ledger.
  - injection E as E1 E2 _. destruct f as [g|g]; simpl in *; unfold user_live in *; rewrite <- ?E1, <- ?E2; done.
  - destruct H3 as [H3|[H3 H4]]; [by left|right]. injection E as E1 E2 _. unfold token_live in *. by rewrite <- E1, <- E2.
Qed.
Lemma record_ready t id k :
  t = BatchUpdateTypeUsedQuota \/ t = BatchUpdateTypeChannelUsedQuota \/ t = BatchUpdateTypeRequestCount -> preserves ready (addNewRecord t id k).
Proof. intros [->|[->| ->]] w (H1 & H2 & H3); (split_and!; [exact H1|destruct f; exact H2|exact H3]). Qed.
Lemma used_ready id k n :
  preserves ready (update_user id (fun _ => true) (fun u => set_u_RequestCount (fun x => x + n) (set_u_UsedQuota (fun x => x + k) u))).
Proof.
  intros w Hw. destruct (update_user id _ _ w) as [r w'] eqn:H. simpl.
  apply update_user_cases in H as [(_ & E)|[(_ & E & _)|(_ & u & Hu & _ & E)]]; [by eapply ready_ledger; [symmetry; exact E|]..|].
  destruct Hw as ((H1 & H2 & H3) & H4 & H5).
  destruct (set_users_shift id u (set_u_RequestCount (fun x => x + n) (set_u_UsedQuota (fun x => x + k) u)) 0 w w' Hu eq_refl ltac:(simpl; lia) E) as [Hs Ht].
  injection E as E1 E2 _. split_and!.
  - split_and!; [intros id'; rewrite Hs, H1; case_decide; lia|intros id'; rewrite (Ht 0), H2; case_decide; lia|by rewrite E1].
  - destruct f as [g|g]; simpl in *; [|by rewrite E1]. rewrite E2. destruct H4 as [H4 H6]. split; [done|]. unfold user_live, visible_user in *.
    rewrite E1. simpl. destruct (decide (g.(wf_userId) = id)) as [->|Hne]; [|by rewrite lookup_insert_ne].
    rewrite lookup_insert_eq. simpl. revert Hu. destruct (users _ !! id) as [u0|]; [|done]. destruct (u_Deleted u0) eqn:Ed; [done|]. intros [= ->].
    by rewrite Ed.
  - destruct H5 as [H5|[H5 H6]]; [by left|right]. unfold token_live, visible_token in *. by rewrite E1, E2.
Qed.
Lemma channel_ready id k : preserves ready (updateChannelUsedQuota id k).
Proof.
  assert (forall g, preserves ready (modify_db (set_channel_used g))) as Hc.
  { intros g w (H1 & H2 & H3). split_and!; [exact H1|destruct f; exact H2|exact H3]. }
  unfold updateChannelUsedQuota. solve_preserves.
Qed.
#[local] Hint Resolve used_ready channel_ready : preserve.
#[local] Hint Extern 1 (preserves _ (addNewRecord _ _ _)) => (apply record_ready; auto) : preserve.
Lemma stats_ready id k : preserves ready (UpdateUserUsedQuotaAndRequestCount id k).
Proof. unfold UpdateUserUsedQuotaAndRequestCount, updateUserUsedQuotaAndRequestCount. solve_preserves. Qed.
Lemma channel_stats_ready id k : preserves ready (UpdateChannelUsedQuota id k).
Proof. unfold UpdateChannelUsedQuota. solve_preserves. Qed.
End ready.

(** ** The settlement *)

Lemma UpdateUserUsedQuotaAndRequestCount_ok id k w : exists w', UpdateUserUsedQuotaAndRequestCount id k w = (Ok tt, w').
Proof.
  unfold UpdateUserUsedQuotaAndRequestCount, bind, cfg, gets. destruct (BatchUpdateEnabled _); [by eexists|].
  unfold updateUserUsedQuotaAndRequestCount, bind, catch. destruct (update_user _ _ _ w) as [[] ?]; by eexists.
Qed.
Lemma pays_before f k w w1 w2 : same_money w w1 -> funding_pays f k w1 w2 -> funding_pays f k w w2.
Proof.
  intros (E1 & _ & E3) H. destruct f; simpl in *.
  - intros u. rewrite <- E1. apply H.
  - by rewrite <- E3.
Qed.
Lemma token_before t k w w1 w2 : same_money w w1 -> token_shift t k w1 w2 -> token_shift t k w w2.
Proof. intros (_ & E & _) H id. rewrite <- E. apply H. Qed.

Lemma settle_request_eq log ch a counted clamped w ri s :
  exists w1, (w1 = if counted : bool then (UpdateChannelUsedQuota ch a (UpdateUserUsedQuotaAndRequestCount ri.(ri_UserId) a w).2).2 else w) /\
  settle_request log ch a counted clamped (w, (ri, s)) =
    bind (attempt (E' := error) (SettleBilling_session a)) (fun _ => if log : bool then lift (RecordLog ri.(ri_UserId) LogTypeConsume a) else ret tt)
      (w1, (noteQuotaClamp clamped ri, s)).
Proof.
  destruct (UpdateUserUsedQuotaAndRequestCount_ok (ri_UserId ri) a w) as [wa Ha]. destruct (UpdateChannelUsedQuota_ok ch a wa) as [wb Hb].
  eexists. split; [reflexivity|]. rewrite Ha. cbn [snd]. rewrite Hb. cbn [snd]. revert Ha Hb. unfold settle_request, set_info, info, modifyS, getS.
  unfold bind at 1 2 3, ret at 1. cbn [fst snd id]. change (ri_UserId (noteQuotaClamp clamped ri)) with (ri_UserId ri).
  generalize (UpdateUserUsedQuotaAndRequestCount (ri_UserId ri) a), (UpdateChannelUsedQuota ch a). intros U C Ha Hb.
  destruct counted; [|reflexivity]. unfold lift, bind at 1 2. cbn [fst snd]. rewrite Ha. cbn [fst snd]. rewrite Hb. reflexivity.
Qed.

(** Without faults: nothing fails, and the wallet stays under its ceiling. *)
Definition unhindered (id d : Z) (w : World) : Prop :=
  no_faults w /\ forall u, visible_user w.(w_db) id = Some u -> Z.max 0 u.(u_Quota) - d <= MaxWalletQuota.

Lemma used_unhindered id d uid k n :
  preserves (unhindered id d) (update_user uid (fun _ => true) (fun u => set_u_RequestCount (fun x => x + n) (set_u_UsedQuota (fun x => x + k) u))).
Proof.
  intros w [Hf Hc]. rewrite update_user_ff by done. destruct (visible_user (w_db w) uid) as [u|] eqn:Hu; [|done]. simpl.
  split; [exact Hf|]. intros u'. simpl.
  rewrite (visible_user_insert _ uid u (fun u => set_u_RequestCount (fun x => x + n) (set_u_UsedQuota (fun x => x + k) u))) by done.
  case_decide as E; [|apply Hc]. intros [= <-]. subst. exact (Hc u Hu).
Qed.
Lemma stats_unhindered id d uid k : preserves (unhindered id d) (UpdateUserUsedQuotaAndRequestCount uid k).
Proof.
  intros w Hw. unfold UpdateUserUsedQuotaAndRequestCount, bind, cfg, gets. destruct (BatchUpdateEnabled _); [exact Hw|].
  unfold updateUserUsedQuotaAndRequestCount, bind, catch. pose proof (used_unhindered id d uid k 1 w Hw) as Hp.
  by destruct (update_user _ _ _ w) as [[] ?].
Qed.
Lemma channel_stats_unhindered id d ch k : preserves (unhindered id d) (UpdateChannelUsedQuota ch k).
Proof.
  intros w [Hf Hc]. pose proof (UpdateChannelUsedQuota_no_faults ch k w Hf) as Hf'. split; [done|]. revert Hf'.
  unfold UpdateChannelUsedQuota, bind, cfg, gets. destruct (BatchUpdateEnabled _); [done|].
  unfold updateChannelUsedQuota, bind, catch. rewrite stmt_ff by done. done.
Qed.

(** Without faults a settlement on a wallet goes through. *)
Lemma Settle_ok a w ri s g :
  s.(b_funding) = FWallet g -> s.(b_settled) = false -> s.(b_fundingSettled) = false ->
  let d := a - s.(b_preConsumedQuota) in
  in_i64 d -> can_pay s.(b_funding) d w -> token_ready ri d w -> unhindered g.(wf_userId) d w ->
  exists st, Settle a (w, (ri, s)) = (Ok tt, st).
Proof.
  intros Hg Hs Hfs d Hd Hp Ht [Hf Hc]. unfold Settle, sess, info, getS, bind at 1 2 3 4, ret at 1 2. cbn [fst snd id].
  rewrite Hs. fold d. rewrite (wrap64_id d Hd). destruct (Z.eqb_spec d 0) as [E0|Hne]; [by eexists|]. rewrite Hfs.
  rewrite Hg in Hp. destruct Hp as [Hr Hl]. destruct (wallet_adjust_ok g.(wf_userId) d w Hf Hr Hl Hc) as [w1 E1].
  assert (no_faults w1) as Hf1.
  { eapply nf_run; [|exact E1|exact Hf]. destruct (0 <? d); auto with preserve. }
  assert (Funding_Settle d (w, FWallet g) = (Ok tt, (w1, FWallet g))) as E2.
  { cbn. replace (d =? 0) with false by lia. unfold dispatch, bind, getS, lift. cbn. destruct (0 <? d); cbn; by rewrite E1. }
  unfold bind at 1 2. rewrite on_funding_eq, Hg, E2. cbn [fst snd set_sess modifyS].
  destruct (ri_IsPlayground ri) eqn:Hpl.
  { unfold attempt, bind, ret, getS. cbn. rewrite ?Hg. cbn. by eexists. }
  destruct Ht as [Ht|[Ht _]]; [congruence|].
  destruct (move_token_ok ri.(ri_TokenId) ri.(ri_TokenKey) d w1 Hf1) as [w2 E3]; [apply Ht|].
  unfold attempt, bind, ret, getS, lift, adjust_token. cbn -[Z.ltb DecreaseTokenQuota IncreaseTokenQuota]. rewrite E3. cbn. by eexists.
Qed.

(** The settlement of a request settles the session once; the funding source pays the
    difference to what was reserved, and the token with it, as far as that settlement got. *)
Lemma settle_request_outcome log ch a counted clamped w ri s r w' ri' s' :
  settle_request log ch a counted clamped (w, (ri, s)) = (r, (w', (ri', s'))) ->
  s.(b_settled) = false -> s.(b_fundingSettled) = false ->
  let d := a - s.(b_preConsumedQuota) in
  in_i64 d -> can_pay s.(b_funding) d w -> token_ready ri d w ->
  let t := ri.(ri_TokenId) in
  r = Ok tt /\ exists settled wa ra wb rb,
    same_money w wa /\ SettleBilling_session a (wa, (ra, s)) = (settled, (wb, (rb, s'))) /\ same_money wb w' /\
    match settled with
    | Ok _ => s'.(b_settled) = true /\ pays s.(b_funding) d w w' /\ token_shift t (if ri.(ri_IsPlayground) then 0 else - d) w w'
    | Err _ => (s'.(b_settled) = false /\ pays s.(b_funding) 0 w w' /\ token_shift t 0 w w') \/
               (s'.(b_settled) = true /\ pays s.(b_funding) d w w' /\ token_shift t 0 w w')
    end /\
    (forall g, s.(b_funding) = FWallet g -> unhindered g.(wf_userId) d w -> settled = Ok tt).
Proof.
  intros H Hs Hfs d Hd Hp Ht t. destruct (settle_request_eq log ch a counted clamped w ri s) as (w1 & Ew1 & Heq). rewrite Heq in H. clear Heq.
  assert (ready s.(b_funding) ri d w w1) as (Hm & Hp1 & Ht1).
  { assert (ready s.(b_funding) ri d w w) as Hr0 by done. subst w1. destruct counted; [|done]. by apply channel_stats_ready, stats_ready. }
  assert (forall id, unhindered id d w -> unhindered id d w1) as Hun.
  { intros id Hu. subst w1. destruct counted; [|done]. by apply channel_stats_unhindered, stats_unhindered. }
  unfold bind, attempt in H. destruct (SettleBilling_session a (w1, (noteQuotaClamp clamped ri, s))) as [r1 [w2 [ri2 s2]]] eqn:Hset.
  assert (r = Ok tt /\ s' = s2 /\ ledger w' = ledger w2) as (-> & -> & El) by (destruct log; cbn in H; by injection H as <- <- <- <-).
  split; [done|].
  pose proof (Settle_outcome _ _ _ _ _ _ _ _ Hset Hs Hfs Hd Hp1 Ht1) as Ho. cbn zeta in Ho.
  assert (same_money w2 w') as Hm2 by (eapply same_money_ledger; [symmetry; exact El|reflexivity]).
  assert (forall k, pays s.(b_funding) k w1 w2 -> pays s.(b_funding) k w w') as Hpay by (intros k Hk; eapply pays_before; [exact Hm|]; by eapply pays_same).
  assert (forall k, token_shift t k w1 w2 -> token_shift t k w w') as Htok by (intros k Hk; eapply token_before; [exact Hm|]; by eapply token_shift_same).
  exists r1, w1, (noteQuotaClamp clamped ri), w2, ri2. split_and!; [done..| |].
  - destruct r1 as [[]|e]; [|destruct Ho as [Ho|Ho]; [left|right]]; destruct Ho as (? & ?%Hpay & ?%Htok); done.
  - intros g Hg Hu. destruct (Settle_ok a w1 (noteQuotaClamp clamped ri) s g Hg Hs Hfs Hd Hp1 Ht1 (Hun _ Hu)) as [st E].
    unfold SettleBilling_session in Hset. rewrite E in Hset. by injection Hset as <- _.
Qed.

(** C15. The whole life of a text request on a wallet.  The request is settled once, at the
    computed charge.  If that settlement succeeds, the wallet has lost exactly the charge
    and the token its share of it (nothing for a playground request); if it reports an
    error, either the wallet has lost the charge and the token what was reserved, and the
    session is closed, or both have lost what was reserved and the session is open.
    Nothing else is taken, under any failures, whichever way the charge was computed; and
    the settlement succeeds when no call fails and the wallet stays under its ceiling. *)
Theorem text_request_pays_charge `{!TieredEngine} {D : Decimal} {O : DecimalOps D} idx qpu quota log ch rq snap images usage w ri s w1 ri1 r w2 ri2 s2 :
  start_session (FWallet (mkWalletFunding ri.(ri_UserId) 0)) quota (w, ri) = (Ok s, (w1, ri1)) ->
  PostTextConsumeQuota idx qpu log ch rq snap images usage (w1, (ri1, s)) = (r, (w2, (ri2, s2))) ->
  0 <= quota -> token_ok ri quota w -> wallet_ok ri quota w ->
  let charge := (text_charge idx qpu rq snap images ri1.(ri_FinalPreConsumedQuota) usage).1.1 in
  let reserved := s.(b_preConsumedQuota) in
  let d := charge - reserved in
  in_i64 d -> can_pay s.(b_funding) d w1 -> token_ready ri1 d w1 ->
  r = Ok tt /\ exists settled wa ra wb rb,
    same_money w1 wa /\ SettleBilling_session charge (wa, (ra, s)) = (settled, (wb, (rb, s2))) /\ same_money wb w2 /\
    match settled with
    | Ok _ => s2.(b_settled) = true /\ request_shift ri (- charge) (- token_share ri charge) w w2
    | Err _ => (s2.(b_settled) = true /\ request_shift ri (- charge) (- token_share ri reserved) w w2) \/
               (s2.(b_settled) = false /\ request_shift ri (- reserved) (- token_share ri reserved) w w2)
    end /\
    (unhindered ri.(ri_UserId) d w1 -> settled = Ok tt).
Proof.
  intros H1 H2 Hq Ht Hw charge reserved d Hd Hp Htr.
  apply start_session_inv in H1 as (r0 & s' & H1 & Hr0). apply preConsume_wallet in H1 as [Hsame H1]; [|done..].
  destruct r0 as [[]|e]; [|done]. injection Hr0 as <-. destruct H1 as [(Hf & Hpre & _ & Hst & Hfs & _) [Hwal Htok]]. destruct Hsame as (Eu & Et & _ & Epl & _).
  unfold PostTextConsumeQuota, info, getS, bind, ret in H2. cbn -[text_charge settle_request] in H2. unfold charge in *.
  destruct (text_charge idx qpu rq snap images _ usage) as [[a counted] clamped]. cbn [fst snd] in *.
  destruct (settle_request_outcome _ _ _ _ _ _ _ _ _ _ _ _ H2 Hst Hfs Hd Hp Htr) as (-> & settled & wa & ra & wb & rb & M1 & Hset & M2 & Ho & Hok).
  fold reserved in Hpre. split; [done|]. exists settled, wa, ra, wb, rb. split_and!; [done..| |by apply (Hok _ Hf)].
  rewrite Hf in Ho. cbn in Ho. rewrite Et, Epl in Ho. rewrite <- Hpre in Hwal, Htok.
  assert (forall k j, wallet_shift (ri_UserId ri) (- k) w1 w2 -> token_shift (ri_TokenId ri) j w1 w2 ->
    request_shift ri (- (reserved + k)) (- token_share ri reserved + j) w w2) as Hadd.
  { intros k j H5 H6. split; [|by eapply token_shift_trans]. rewrite Z.opp_add_distr. by eapply wallet_shift_trans. }
  replace (- a) with (- (reserved + d)) by (unfold d; lia).
  replace (- token_share ri a) with (- token_share ri reserved + (if ri_IsPlayground ri then 0 else - d))
    by (unfold token_share, d; destruct (ri_IsPlayground ri); lia).
  destruct settled as [[]|e]; [|destruct Ho as [Ho|Ho]; [right|left]]; destruct Ho as (? & H5 & H6); (split; [done|]).
  - by apply Hadd.
  - pose proof (Hadd _ _ H5 H6) as Hx. by rewrite !Z.add_0_r in Hx.
  - pose proof (Hadd _ _ H5 H6) as Hx. by rewrite Z.add_0_r in Hx.
Qed.

(** ** Charges that are wrong *)

(** Requests with audio and realtime sessions on a model that is priced per call cost
    nothing: the model's price never reaches the calculation, so the charge is zero for any
    price, any group and any usage (unless an expression prices the model). *)
Theorem priced_audio_is_free `{!TieredEngine} {D : Decimal} {L : DecimalLaws D} {O : DecimalOps D} {V : DecimalValue D L O} qpu ar pd images pre u
    input output total textIn audioIn textOut audioOut :
  pd.(pd_UsePrice) = true ->
  (audio_charge qpu ar pd None images pre u).1.1 = 0 /\ (wss_charge qpu ar pd None images pre input output total textIn audioIn textOut audioOut).1.1 = 0.
Proof.
  intros Hp. assert (forall a b c d, (calculateAudioQuota qpu (audio_info ar pd a b c d)).1 = 0) as Hz.
  { intros a b c d. unfold calculateAudioQuota, audio_info. cbn [qi_UsePrice qi_ModelPrice qi_GroupRatio]. rewrite Hp. apply QuotaFromDecimal_zero.
    destruct (float64_of_int_exact 0) as (_ & F0 & S0); [lia|]. rewrite !val_mul, (val_float_int f_zero 0 F0 S0 ltac:(lia)). change (inject_Z 0) with 0%Q. ring. }
  unfold audio_charge, wss_charge. cbn [TryTieredSettle]. split.
  - specialize (Hz u.(us_PromptTokensDetails).(it_TextTokens) u.(us_PromptTokensDetails).(it_AudioTokens)
       u.(us_CompletionTokenDetails).(ot_TextTokens) u.(us_CompletionTokenDetails).(ot_AudioTokens)).
    destruct (calculateAudioQuota _ _) as [q c]. simpl in Hz. subst q. by destruct (_ && _).
  - specialize (Hz textIn audioIn textOut audioOut). destruct (calculateAudioQuota _ _) as [q c]. simpl in Hz. subst q. by destruct (_ =? 0).
Qed.

Definition no_engine : TieredEngine := {| te_run := fun _ _ _ => None; te_used := fun _ _ => false; te_fixed := fun _ => false |}.
(** A model at a ratio of one, or at ten dollars per call. *)
Definition sample_prices (usePrice : bool) : PriceData :=
  mkPriceData (float64_of_int 10) f_one f_one f_one f_one f_one f_one f_one f_one f_one [] usePrice f_one.
Definition sample_audio_usage : Usage :=
  mkUsage 10 20 30 "" "" (mkInputDetails 0 None 0 0 0 10 0) (mkOutputDetails 0 20 0) 0 0 None.
Definition unit_ratios : AudioRatios := mkAudioRatios f_one f_one f_one.
Lemma priced_audio_is_free_witness :
  (sample_prices true).(pd_UsePrice) = true /\ (@audio_charge no_engine QDecimal QDecimalOps (float64_of_int 500000) unit_ratios (sample_prices true) None None 0 sample_audio_usage).1.1 = 0.
Proof.
  split; [reflexivity|].
  apply (@priced_audio_is_free no_engine QDecimal QDecimalLaws QDecimalOps QDecimalValue (float64_of_int 500000) unit_ratios (sample_prices true) None 0 sample_audio_usage 0 0 0 0 0 0 0).
  reflexivity.
Defined.

(** ** Realtime sessions *)

(** The tokens of one turn, their sum over a session, and what they cost. *)
Record Turn := mkTurn { tn_TextIn : Z; tn_AudioIn : Z; tn_TextOut : Z; tn_AudioOut : Z }.
Definition add_turn (a b : Turn) : Turn :=
  mkTurn (a.(tn_TextIn) + b.(tn_TextIn)) (a.(tn_AudioIn) + b.(tn_AudioIn)) (a.(tn_TextOut) + b.(tn_TextOut)) (a.(tn_AudioOut) + b.(tn_AudioOut)).
Definition sum_turns (l : list Turn) : Turn := foldr add_turn (mkTurn 0 0 0 0) l.

Section realtime.
Context {TE : TieredEngine} {D : Decimal} {O : DecimalOps D} (qpu : float64) (ar : AudioRatios) (pd : PriceData).
Definition turn_quota (t : Turn) : Z :=
  (calculateAudioQuota qpu (audio_info ar pd t.(tn_TextIn) t.(tn_AudioIn) t.(tn_TextOut) t.(tn_AudioOut))).1.
Definition turns_quota (l : list Turn) : Z := foldr (fun t z => turn_quota t + z) 0 l.
Definition take_turn (t : Turn) : MB error unit :=
  PreWssConsumeQuota qpu false ar pd.(pd_ModelRatio) pd.(pd_GroupRatio) t.(tn_TextIn) t.(tn_AudioIn) t.(tn_TextOut) t.(tn_AudioOut).
Definition end_session (log : bool) (ch : Z) (images : option Z) (input output total : Z) (t : Turn) : MB error unit :=
  PostWssConsumeQuota qpu log ch ar pd None images input output total t.(tn_TextIn) t.(tn_AudioIn) t.(tn_TextOut) t.(tn_AudioOut).

(** Turns that succeed, one after the other, with arithmetic room for each. *)
Inductive turns_taken : list Turn -> World * (RelayInfo * BillingSession) -> World * (RelayInfo * BillingSession) -> Prop :=
| no_turn st : turns_taken [] st st
| one_turn t l w ri s st1 st2 :
    ri.(ri_BillingSource) <> BillingSourceSubscription ->
    batch_room w.(w_batch).(bs_UserQuota) ri.(ri_UserId) (- turn_quota t) -> user_live w ri.(ri_UserId) ->
    take_turn t (w, (ri, s)) = (Ok tt, st1) -> turns_taken l st1 st2 -> turns_taken (t :: l) (w, (ri, s)) st2.

(** The same request: user, token, mode and source of funds. *)
Definition same_payer (a b : RelayInfo) : Prop :=
  b.(ri_UserId) = a.(ri_UserId) /\ b.(ri_TokenId) = a.(ri_TokenId) /\ b.(ri_IsPlayground) = a.(ri_IsPlayground) /\
  b.(ri_FinalPreConsumedQuota) = a.(ri_FinalPreConsumedQuota).

Lemma PostConsumeQuota_pays q w ri w' ri' :
  PostConsumeQuota q (w, ri) = (Ok tt, (w', ri')) -> ri.(ri_BillingSource) <> BillingSourceSubscription ->
  batch_room w.(w_batch).(bs_UserQuota) ri.(ri_UserId) (- q) -> user_live w ri.(ri_UserId) ->
  ri' = ri /\ wallet_shift ri.(ri_UserId) (- q) w w'.
Proof using.
  intros H Hs Hr Hl. unfold PostConsumeQuota, postConsumeQuotaWithResult in H. apply String.eqb_neq in Hs.
  apply bind_inv in H as [(x & [w1 ri1] & H1 & H)|(e & _ & [=])].
  unfold bind at 1, getS in H1. cbn [fst snd] in H1. rewrite Hs in H1. unfold bind at 1, attempt at 1 in H1.
  set (pay := if 0 <? q then DecreaseUserQuota ri.(ri_UserId) q false else IncreaseUserQuota ri.(ri_UserId) (wrap64 (- q)) false).
  assert ((if 0 <? q then lift (S:=RelayInfo) (DecreaseUserQuota ri.(ri_UserId) q false) else lift (IncreaseUserQuota ri.(ri_UserId) (wrap64 (- q)) false)) = lift pay) as Epay
    by (unfold pay; by destruct (0 <? q)).
  rewrite Epay in H1. clear Epay. destruct (lift pay (w, ri)) as [r2 [w2 ri2]] eqn:E2. apply lift_inv in E2 as [E2 ->].
  destruct r2 as [[]|e]; [|injection H1 as <- <- <-; done].
  assert (wallet_shift ri.(ri_UserId) (- q) w w2) as Hw.
  { unfold pay in E2. destruct (Z.ltb_spec 0 q).
    - apply DecreaseUserQuota_outcome in E2; [apply E2|done..].
    - rewrite (wrap64_opp _ _ _ Hr) in E2. apply IncreaseUserQuota_outcome in E2; [apply E2|done]. }
  destruct (ri_IsPlayground ri); [injection H1 as <- <- <-; by injection H as <- <-|].
  unfold bind, attempt in H1. destruct (lift (adjust_token ri q) (w2, ri)) as [r3 [w3 ri3]] eqn:E3. apply lift_inv in E3 as [E3 ->].
  destruct r3 as [[]|e]; injection H1 as <- <- <-; [|done]. injection H as <- <-. split; [done|].
  destruct (accounts_frame _ _ _ _ (adjust_token_accounts _ _ _ ri q) E3) as (F1 & F2 & _).
  replace (- q) with (- q + 0) by lia. eapply wallet_shift_trans; [exact Hw|]. by apply accounts_same_shift.
Qed.

Lemma take_turn_pays t w ri s w' ri' s' :
  pd.(pd_UsePrice) = false -> take_turn t (w, (ri, s)) = (Ok tt, (w', (ri', s'))) -> ri.(ri_BillingSource) <> BillingSourceSubscription ->
  batch_room w.(w_batch).(bs_UserQuota) ri.(ri_UserId) (- turn_quota t) -> user_live w ri.(ri_UserId) ->
  s' = s /\ same_payer ri ri' /\ wallet_shift ri.(ri_UserId) (- turn_quota t) w w'.
Proof using.
  intros Hp H Hs Hr Hl. unfold take_turn, PreWssConsumeQuota in H.
  apply bind_inv in H as [(x & ? & Hx & H)|(e & Hx & _)]; [|done]. injection Hx as <- <-. cbn [id fst snd] in H.
  apply bind_inv in H as [(uq & [w1 p1] & Hx & H)|(e & _ & [=])]. apply lift_inv in Hx as [Hx ->]. quiet Hx.
  apply bind_inv in H as [(tok & [w2 p2] & Hy & H)|(e & _ & [=])]. apply lift_inv in Hy as [Hy ->]. quiet Hy.
  unfold turn_quota, audio_info in *. rewrite Hp in *. set (info := mkQuotaInfo _ _ _ _ _ _ _ _ _) in *.
  destruct (calculateAudioQuota qpu info) as [q clamp]. cbn [fst] in *.
  unfold bind, set_info, modifyS in H. cbn [fst snd] in H.
  destruct (uq <? q); [done|]. destruct (_ && _); [done|]. unfold with_info in H. cbn [fst snd] in H.
  destruct (PostConsumeQuota q _) as [r3 [w3 ri3]] eqn:E3. injection H as -> <- <- <-. split; [done|].
  assert (ledger w2 = ledger w) as El by congruence.
  apply PostConsumeQuota_pays in E3 as [-> Hw]; [|done| |].
  - split; [done|]. assert (ledger w3 = ledger w3) as Er by done. by eapply wallet_shift_ledger.
  - by eapply batch_room_ledger.
  - by eapply user_live_ledger.
Qed.

Lemma turns_taken_pay l st st' :
  turns_taken l st st' -> pd.(pd_UsePrice) = false ->
  st'.2.2 = st.2.2 /\ same_payer st.2.1 st'.2.1 /\ wallet_shift st.2.1.(ri_UserId) (- turns_quota l) st.1 st'.1.
Proof using.
  intros H Hp. induction H as [st|t l w ri s [w1 [ri1 s1]] st2 Hs Hr Hl H1 _ (IH1 & IH2 & IH3)].
  - split_and!; [done..|]. by apply wallet_shift_0.
  - apply take_turn_pays in H1 as (-> & Hsame & Hw); [|done..]. cbn [fst snd] in *. split; [done|].
    unfold same_payer in *. destruct Hsame as (E1 & E2 & E3 & E4). destruct IH2 as (F1 & F2 & F3 & F4). split; [split_and!; congruence|].
    rewrite E1 in IH3. cbn [turns_quota foldr]. fold (turns_quota l).
    replace (- (turn_quota t + turns_quota l)) with (- turn_quota t + - turns_quota l) by lia. by eapply wallet_shift_trans.
Qed.

End realtime.

(** A turn of 30 tokens at a ratio of one, of a session that reserved 100: the wallet and the
    token lose 60, while 30 are logged and counted as used. *)
Definition sample_turn : Turn := mkTurn 10 0 20 0.
Definition realtime_session : MB error unit :=
  @take_turn QDecimal QDecimalOps (float64_of_int 500000) unit_ratios (sample_prices false) sample_turn ;;
  @end_session no_engine QDecimal QDecimalOps (float64_of_int 500000) unit_ratios (sample_prices false) true 1 None 10 20 30 sample_turn.
Example realtime_session_sample :
  let c := exec realtime_session ((opened false).1, ((opened false).2, opened_session)) in
  eval realtime_session ((opened false).1, ((opened false).2, opened_session)) = Ok tt /\
  wallet billing_world 7 = 1000 /\ wallet c.1 7 = 1000 - 60 /\ token_remain c.1 3 = token_remain billing_world 3 - 60 /\
  c.2.2.(b_settled) = true /\ exists u, visible_user c.1.(w_db) 7 = Some u /\ u.(u_UsedQuota) = 30 /\ exists l, c.1.(w_logs) = [l] /\ l.(lg_Quota) = 30.
Proof.
  intros c. split_and!; try (vm_compute; reflexivity). eexists. split; [vm_compute; reflexivity|]. split; [vm_compute; reflexivity|].
  eexists. split; vm_compute; reflexivity.
Qed.
