(* ===== verification/CostSamples.v ===== *)
(** * Sample requests (witnesses of the theorems on the cost) *)

From stdpp Require Import base tactics numbers list gmap strings sorting.
From Stdlib Require Import ZArith QArith Lia SpecFloat.
From S2P Require Import Prelude Float64 QuotaMath DecimalQ DecimalOrder World UserCache QuotaStore Reserve SubscriptionTime Subscription SubscriptionInv SubscriptionUse Billing BillingFrame BillingLaws BillingInv Task TaskLaws ToolPrice Cost CostLaws CostSettle CostCharge.
Open Scope Z_scope.

(** ** An index of valid prices *)

Definition entries_ok (idx : toolPriceIndex) : Prop :=
  (forall tool p, idx.(ix_defaults) !! tool = Some p -> valid64 p) /\
  (forall tool es, idx.(ix_prefixes) !! tool = Some es -> Forall (fun e => valid64 e.(pe_price)) es).
Lemma add_price_ok idx kp : valid64 kp.2 -> entries_ok idx -> entries_ok (add_price idx kp).
Proof.
  intros Hv [H1 H2]. unfold add_price. destruct (cut_colon kp.1) as [[tool part]|]; split; simpl; try done.
  - intros t es. rewrite lookup_insert_Some. intros [[<- <-]|[_ H]]; [|eauto]. apply Forall_app. split; [|by apply Forall_singleton].
    destruct (idx.(ix_prefixes) !! tool) eqn:E; simpl; [eauto|constructor].
  - intros t p. rewrite lookup_insert_Some. intros [[<- <-]|[_ H]]; eauto.
Qed.
Lemma rebuilt_index_ok l : Forall (fun kp => valid64 kp.2) l -> index_ok (RebuildToolPriceIndex l).
Proof.
  intros Hl. assert (entries_ok (foldl add_price (mkToolPriceIndex ∅ ∅) l)) as [H1 H2].
  { assert (entries_ok (mkToolPriceIndex ∅ ∅)) as H0 by (split; simpl; intros ? ?; by rewrite lookup_empty). revert H0. generalize (mkToolPriceIndex ∅ ∅).
    induction Hl as [|kp l Hkp _ IH]; intros idx Hi; simpl; [done|]. by apply IH, add_price_ok. }
  intros tool model. unfold GetToolPriceForModel, RebuildToolPriceIndex. simpl.
  assert (forall p, (ix_prefixes (foldl add_price (mkToolPriceIndex ∅ ∅) l) !! tool) ≫= (fun es => first_prefix model (merge_sort entry_le es)) = Some p -> valid64 p) as Hp.
  { intros p. destruct (ix_prefixes _ !! tool) as [es|] eqn:E; [|done]. simpl. specialize (H2 _ _ E). rewrite <- (merge_sort_Permutation entry_le es) in H2.
    induction H2 as [|e es' He _ IH]; simpl; [done|]. destruct (HasPrefix _ _); [by intros [= <-]|done]. }
  assert (valid64 (default f_zero (ix_defaults (foldl add_price (mkToolPriceIndex ∅ ∅) l) !! tool))) as Hd.
  { destruct (ix_defaults _ !! tool) as [p|] eqn:E; simpl; [eauto|]. by vm_compute. }
  destruct (String.eqb model ""); [done|]. rewrite lookup_fmap. destruct (ix_prefixes _ !! tool) as [es|]; simpl in *; [|done].
  destruct (first_prefix _ _); eauto.
Qed.
Definition default_index : toolPriceIndex := RebuildToolPriceIndex (map_to_list (merged_prices ∅)).
Lemma default_index_ok : index_ok default_index.
Proof. apply rebuilt_index_ok. vm_compute. repeat constructor. Qed.

(** ** A chat request with cached tokens and a web search *)

Definition unit_quota : float64 := float64_of_int 500000.
Definition sample_request : TextRequest :=
  mkTextRequest "gpt-4o" false false 0 true [("web_search_preview"%string, 2)] 0 false None
    (mkPriceData f_one (float64_of_int 2) (float64_of_int 4) (f_half 1) f_one f_one f_one f_one f_one f_one [] false f_one).
Definition sample_usage (cached completion : Z) : Usage :=
  mkUsage 1000 completion (1000 + completion) "" "" (mkInputDetails cached None 0 0 0 0 0) no_output_details 0 0 None.
Lemma sample_prices_ok : prices_ok sample_request.(rq_PriceData).
Proof. split; try (split; vm_compute; (exact I || discriminate)). constructor. Qed.
Lemma sample_tools_ok : tools_ok sample_request.
Proof. split; [|vm_compute; discriminate]. repeat constructor; vm_compute; discriminate. Qed.
Lemma sample_counts_ok cached completion : 0 <= cached -> 0 <= completion <= 1000000 -> counts_ok (sample_usage cached completion).
Proof. intros H1 H2. unfold counts_ok, MaxInt64. simpl. lia. Qed.
Lemma unit_quota_ok : nonneg unit_quota.
Proof. split; vm_compute; [exact I|discriminate]. Qed.
Abbreviation sample_quota u := (@quota_of QDecimal QDecimalOps default_index unit_quota sample_request (Some u)).

(** 1000 + 4 * 100 tokens at a ratio of two, and two searches at 25 dollars per thousand. *)
Lemma text_cost_bounds_witness : sample_quota (sample_usage 0 100) = 27800 /\ 1 <= sample_quota (sample_usage 0 100) <= MaxQuota.
Proof.
  split; [vm_compute; reflexivity|].
  destruct (@text_cost_bounds QDecimal QDecimalLaws QDecimalOps QDecimalValue default_index unit_quota default_index_ok unit_quota_ok sample_request
    (Some (sample_usage 0 100)) sample_prices_ok sample_tools_ok (sample_counts_ok 0 100 ltac:(lia) ltac:(lia))) as ([_ H1] & _ & _ & H2).
  split; [apply H2; [vm_compute; reflexivity|vm_compute; discriminate|vm_compute; discriminate]|exact H1].
Defined.
Lemma text_cost_monotone_witness : sample_quota (sample_usage 400 100) <= sample_quota (sample_usage 400 300).
Proof.
  apply (@text_cost_monotone QDecimal QDecimalLaws QDecimalOps QDecimalValue default_index unit_quota default_index_ok unit_quota_ok sample_request
    (sample_usage 400 100) (sample_usage 400 300) sample_prices_ok sample_tools_ok);
    [reflexivity|apply sample_counts_ok; lia|apply sample_counts_ok; lia|]. unfold more_tokens. simpl. split_and!; (reflexivity || lia).
Defined.
Lemma cached_tokens_discount_witness : sample_quota (sample_usage 400 100) = 27400 /\ sample_quota (sample_usage 400 100) <= sample_quota (sample_usage 0 100).
Proof.
  split; [vm_compute; reflexivity|].
  apply (@cached_tokens_discount QDecimal QDecimalLaws QDecimalOps QDecimalValue default_index unit_quota default_index_ok unit_quota_ok sample_request
    (sample_usage 400 100) sample_prices_ok sample_tools_ok);
    [reflexivity|apply sample_counts_ok; lia|discriminate|reflexivity|vm_compute; discriminate|simpl; unfold CacheCreationTokensTotal; simpl; lia].
Defined.

(** A prompt of 1000 tokens of which 1000 are reported as read from the cache and 1000 as
    written to it: the hit is paid on top of the write. *)
Example overlapping_hit_costs_more :
  let u cached := mkUsage 1000 100 1100 "" "" (mkInputDetails cached None 1000 0 0 0 0) no_output_details 0 0 None in
  sample_quota (u 0) < sample_quota (u 1000).
Proof. vm_compute. reflexivity. Qed.

(** The request without the search: 100 tokens at a ratio of two and 20 at eight. *)
Definition plain_request : TextRequest :=
  mkTextRequest "gpt-4o" false false 0 true [] 0 false None sample_request.(rq_PriceData).
Definition plain_usage : Usage := estimated_usage 100 20 120.
#[local] Abbreviation settled_run :=
  (@PostTextConsumeQuota no_engine QDecimal QDecimalOps default_index unit_quota true 1 plain_request None None (Some plain_usage)).
Lemma text_request_pays_charge_witness :
  let w2 := (exec settled_run ((opened false).1, ((opened false).2, opened_session))).1 in
  wallet w2 7 = 640 /\ request_shift (sample_relay false) (-360) (-360) billing_world w2.
Proof.
  intros w2. split; [vm_compute; reflexivity|].
  pose proof (run_eq3 settled_run ((opened false).1, ((opened false).2, opened_session))) as Hr.
  destruct (@text_request_pays_charge no_engine QDecimal QDecimalOps default_index unit_quota 100 true 1 plain_request None None (Some plain_usage)
    billing_world (sample_relay false) opened_session _ _ _ _ _ _ opened_ok Hr) as (_ & settled & wa & ra & wb & rb & _ & _ & _ & H & Hok).
  - lia.
  - apply sample_token_ok. lia.
  - apply sample_wallet_ok. lia.
  - vm_compute. split; discriminate.
  - split; [vm_compute; repeat split; discriminate|eexists; vm_compute; reflexivity].
  - right. split; [vm_compute; repeat split; discriminate|eexists; vm_compute; reflexivity].
  - rewrite Hok in H.
    + exact (proj2 H).
    + split; [vm_compute; reflexivity|]. intros u Hu.
      assert (u_Quota <$> visible_user (opened false).1.(w_db) 7 = Some 900) as Hq by (vm_compute; reflexivity).
      change (visible_user (opened false).1.(w_db) 7 = Some u) in Hu. rewrite Hu in Hq. simpl in Hq. injection Hq as ->.
      match goal with |- _ - (?c - ?p) <= _ => replace (c - p) with 260 by (vm_compute; reflexivity) end. unfold MaxWalletQuota. lia.
Defined.

(** One turn of 30 in a session that reserved 100: the wallet loses 60. *)
#[local] Abbreviation sample_take := (@take_turn QDecimal QDecimalOps (float64_of_int 500000) unit_ratios (sample_prices false) sample_turn).
#[local] Abbreviation sample_end :=
  (@end_session no_engine QDecimal QDecimalOps (float64_of_int 500000) unit_ratios (sample_prices false) true 1 None 10 20 30 (sum_turns [sample_turn])).
Definition sample_open : World * (RelayInfo * BillingSession) := ((opened false).1, ((opened false).2, opened_session)).
Lemma ran {E A X Y Z} (c : M (X * (Y * Z)) E A) s a st : eval c s = Ok a -> exec c s = st -> c s = (Ok a, (st.1, (st.2.1, st.2.2))).
Proof. intros <- <-. apply run_eq3. Qed.
