(* ===== verification/PricingExpr.v ===== *)
(** * Billing expressions (pkg/billingexpr: compile.go, fixed.go, run.go)

    What the repository does with a parsed expression: which trees with fixed prices it
    accepts, how it rewrites request multipliers so that they are traced, which names and
    usage keys a program uses, and what the functions it offers record while a program
    runs.  The parser, the type checker, the optimiser and the interpreter are those of the
    package expr-lang: a class of operations ([ExprEngine]) with the laws the code relies
    on ([ExprLaws]). *)

From stdpp Require Import base tactics numbers list gmap strings.
From Stdlib Require Import ZArith Lia SpecFloat.
From S2P Require Import Prelude Float64 QuotaMath Task ToolPrice Cost CostSettle.
Open Scope Z_scope.

(** ** Trees *)

(** The nodes the code tells apart; [OtherNode]: any other node of the package ast, with the
    children a walk visits. *)
Unset Elimination Schemes.
Inductive node :=
| IdentifierNode (name : string)
| IntegerNode (z : Z)
| FloatNode (x : float64)
| StringNode (s : string)
| BinaryNode (op : string) (l r : node)
| ConditionalNode (ternary : bool) (cond exp1 exp2 : node)
| CallNode (callee : node) (args : list node)
| OtherNode (kind : string) (kids : list node).
Set Elimination Schemes.
Section node_ind.
Variable P : node -> Prop.
Hypothesis HId : forall v, P (IdentifierNode v).
Hypothesis HInt : forall z, P (IntegerNode z).
Hypothesis HFloat : forall x, P (FloatNode x).
Hypothesis HStr : forall s, P (StringNode s).
Hypothesis HBin : forall op l r, P l -> P r -> P (BinaryNode op l r).
Hypothesis HCond : forall t c a b, P c -> P a -> P b -> P (ConditionalNode t c a b).
Hypothesis HCall : forall f args, P f -> Forall P args -> P (CallNode f args).
Hypothesis HOther : forall k kids, Forall P kids -> P (OtherNode k kids).
Fixpoint node_ind (n : node) : P n :=
  let all := fix all (l : list node) : Forall P l :=
    match l with [] => Forall_nil_2 P | n :: l => Forall_cons_2 P n l (node_ind n) (all l) end in
  match n with
  | IdentifierNode v => HId v
  | IntegerNode z => HInt z
  | FloatNode x => HFloat x
  | StringNode s => HStr s
  | BinaryNode op l r => HBin op l r (node_ind l) (node_ind r)
  | ConditionalNode t c a b => HCond t c a b (node_ind c) (node_ind a) (node_ind b)
  | CallNode f args => HCall f args (node_ind f) (all args)
  | OtherNode k kids => HOther k kids (all kids)
  end.
End node_ind.

(** The nodes a walk visits, children first. *)
Fixpoint subnodes (n : node) : list node :=
  match n with
  | BinaryNode _ l r => subnodes l ++ subnodes r
  | ConditionalNode _ c a b => subnodes c ++ subnodes a ++ subnodes b
  | CallNode f args => subnodes f ++ flat_map subnodes args
  | OtherNode _ kids => flat_map subnodes kids
  | _ => []
  end ++ [n].
Definition Find (f : node -> bool) (n : node) : bool := existsb f (subnodes n).
Definition mentions (f : string -> bool) : node -> bool := Find (fun n => match n with IdentifierNode v => f v | _ => false end).
Definition one_of (l : list string) (v : string) : bool := existsb (String.eqb v) l.

Definition requestRuleNumber (n : node) : option float64 :=
  match n with IntegerNode z => Some (float64_of_int z) | FloatNode x => Some x | _ => None end.
Definition usesRequestProbe : node -> bool := mentions (one_of ["param"; "header"; "hour"; "minute"; "weekday"; "month"; "day"]%string).
Definition containsPricingMarker : node -> bool := mentions (one_of ["tier"; "fixed"]%string).

(** ** Fixed prices (fixed.go) *)

Definition isRequestPriceMultiplier (n : node) : bool :=
  match n with
  | IdentifierNode v => String.eqb v "image_count"
  | ConditionalNode _ c a b =>
      if negb (usesRequestProbe c) || containsPricingMarker c then false
      else match requestRuleNumber a, requestRuleNumber b with
           | Some m, Some f => SFeqb f f_one && f_le f_zero m && negb (IsNaN m) && negb (IsInf m)
           | _, _ => false
           end
  | _ => false
  end.
Inductive FixedError := BadAmount | BadShape.
Definition million : float64 := float64_of_int 1000000.
Definition is_name (v : string) (n : node) : bool := match n with IdentifierNode w => String.eqb w v | _ => false end.
Definition tier_call (callee : node) (args : list node) : option (node * node) :=
  match args with [name; price] => if is_name "tier" callee then Some (name, price) else None | _ => None end.
Definition fixed_call (n : node) : option node :=
  match n with CallNode callee [amount] => if is_name "fixed" callee then Some amount else None | _ => None end.
Definition valid_amount (n : node) : bool :=
  match requestRuleNumber n with
  | Some x => f_le f_zero x && negb (IsNaN x) && negb (IsInf (f_mul x million))
  | None => false
  end.
Fixpoint validateFixedPricingTree (n : node) : result FixedError unit :=
  match n with
  | ConditionalNode _ c a b =>
      if containsPricingMarker c then Err BadShape
      else match validateFixedPricingTree a with Err e => Err e | Ok _ => validateFixedPricingTree b end
  | BinaryNode op l r =>
      if negb (String.eqb op "*") then Err BadShape
      else if isRequestPriceMultiplier r then validateFixedPricingTree l
      else if isRequestPriceMultiplier l then validateFixedPricingTree r
      else Err BadShape
  | CallNode callee args =>
      match tier_call callee args with
      | None => Err BadShape
      | Some (name, price) =>
          if containsPricingMarker name then Err BadShape
          else
            match fixed_call price with
            | Some amount => if valid_amount amount then Ok tt else Err BadAmount
            | None => if containsPricingMarker price then Err BadShape else Ok tt
            end
      end
  | _ => Err BadShape
  end.

(** ** Request multipliers (compile.go) *)

(** [rr_Cond] stands for its text. *)
Record RequestRuleTrace := mkRule { rr_Cond : node; rr_Multiplier : float64; rr_Matched : bool }.
Definition is_int (n : node) : bool := match n with IntegerNode _ => true | _ => false end.
Definition trace_names : list string := ["_trace"; "_trace_int"]%string.
Definition Visit (n : node) (rules : list RequestRuleTrace) : node * list RequestRuleTrace :=
  match n with
  | ConditionalNode true c a b =>
      if negb (usesRequestProbe c) then (n, rules)
      else match requestRuleNumber a, requestRuleNumber b with
           | Some m, Some f =>
               if negb (SFeqb f f_one) then (n, rules)
               else
                 let '(fn, mn) := if is_int a && is_int b then ("_trace_int"%string, a) else ("_trace"%string, FloatNode m) in
                 (CallNode (IdentifierNode fn) [IntegerNode (Z.of_nat (length rules)); c; mn], rules ++ [mkRule c m false])
           | _, _ => (n, rules)
           end
  | _ => (n, rules)
  end.
(** The walk of the patcher. *)
Fixpoint patch (n : node) (rules : list RequestRuleTrace) : node * list RequestRuleTrace :=
  let patch_all := fix patch_all (l : list node) (rules : list RequestRuleTrace) : list node * list RequestRuleTrace :=
    match l with
    | [] => ([], rules)
    | n :: l => let (n, rules) := patch n rules in let (l, rules) := patch_all l rules in (n :: l, rules)
    end in
  match n with
  | BinaryNode op l r => let (l, rules) := patch l rules in let (r, rules) := patch r rules in Visit (BinaryNode op l r) rules
  | ConditionalNode t c a b =>
      let (c, rules) := patch c rules in let (a, rules) := patch a rules in let (b, rules) := patch b rules in
      Visit (ConditionalNode t c a b) rules
  | CallNode f args => let (f, rules) := patch f rules in let (args, rules) := patch_all args rules in Visit (CallNode f args) rules
  | OtherNode k kids => let (kids, rules) := patch_all kids rules in Visit (OtherNode k kids) rules
  | _ => Visit n rules
  end.
Definition patch_all : list node -> list RequestRuleTrace -> list node * list RequestRuleTrace :=
  fix patch_all (l : list node) (rules : list RequestRuleTrace) :=
    match l with
    | [] => ([], rules)
    | n :: l => let (n, rules) := patch n rules in let (l, rules) := patch_all l rules in (n :: l, rules)
    end.
(** The patcher keeps the last reserved name it meets. *)
Definition restrictedIdentifier (n : node) : bool := mentions (one_of trace_names) n.

(** ** Running *)

Inductive BillingUnit := BillingUnitToken | BillingUnitRequest.
Record TraceResult := mkTrace {
  tc_ImageCount : option Z;
  tc_BillingUnit : BillingUnit;
  tc_FixedPrice : option float64;
  tc_MatchedTier : string;
  tc_RequestRules : list RequestRuleTrace;
  tc_Cost : float64
}.

(** Values of a running program; [VOther]: lists, maps and whatever else a request holds. *)
Inductive value := VFloat (x : float64) | VInt (z : Z) | VBool (b : bool) | VStr (s : string) | VNil | VOther (s : string).
Definition to_float (v : value) : option float64 := match v with VFloat x => Some x | VInt z => Some (float64_of_int z) | _ => None end.

(** The variables and the functions of the environment that record nothing. *)
Record Env := mkEnv { ev_var : string -> option value; ev_fun : string -> list value -> option value }.

Definition comp (S A : Type) : Type := S -> TraceResult -> option A * TraceResult.
Definition c_ret {S A} (a : A) : comp S A := fun _ t => (Some a, t).
Definition c_fail {S A} : comp S A := fun _ t => (None, t).
Definition c_opt {S A} (o : option A) : comp S A := fun _ t => (o, t).
Definition c_bind {S A B} (c : comp S A) (k : A -> comp S B) : comp S B := fun s t =>
  match c s t with (Some a, t) => k a s t | (None, t) => (None, t) end.

(** [scope]: the variables an expression itself declares; [op_other] runs the children of a
    node of another kind, in scopes of its choice. *)
Class ExprEngine := {
  scope : Type;
  top : scope;
  op_local : scope -> string -> option value;
  op_short : string -> value -> option value;
  op_binary : string -> value -> value -> option value;
  op_other : string -> list (comp scope value) -> comp scope value;
  parser_Parse : string -> option node;
  expr_finish : node -> option node
}.

(** ** The functions that record *)

Definition set_tier (name : string) (x : float64) (t : TraceResult) : TraceResult :=
  mkTrace t.(tc_ImageCount) t.(tc_BillingUnit) t.(tc_FixedPrice) name t.(tc_RequestRules) x.
Definition set_fixed (x : float64) (t : TraceResult) : TraceResult :=
  mkTrace t.(tc_ImageCount) BillingUnitRequest (Some x) t.(tc_MatchedTier) t.(tc_RequestRules) t.(tc_Cost).
Definition match_rule (i : Z) (matched : bool) (t : TraceResult) : TraceResult :=
  if matched && (0 <=? i) && (i <? Z.of_nat (length t.(tc_RequestRules)))
  then mkTrace t.(tc_ImageCount) t.(tc_BillingUnit) t.(tc_FixedPrice) t.(tc_MatchedTier)
         (alter (fun r => mkRule r.(rr_Cond) r.(rr_Multiplier) true) (Z.to_nat i) t.(tc_RequestRules)) t.(tc_Cost)
  else t.

Section eval.
Context `{!ExprEngine}.
Variable env : Env.
Abbreviation comp' := (comp scope).

Definition host (f : string) (vs : list value) : comp' value :=
  if String.eqb f "tier" then
    match vs with
    | [VStr name; v] => match to_float v with Some x => fun _ t => (Some (VFloat x), set_tier name x t) | None => c_fail end
    | _ => c_fail
    end
  else if String.eqb f "fixed" then
    match vs with
    | [v] => match to_float v with Some x => fun _ t => (Some (VFloat (f_mul x million)), set_fixed x t) | None => c_fail end
    | _ => c_fail
    end
  else if String.eqb f "_trace" then
    match vs with
    | [VInt i; VBool m; v] =>
        match to_float v with Some x => fun _ t => (Some (VFloat (if m then x else f_one)), match_rule i m t) | None => c_fail end
    | _ => c_fail
    end
  else if String.eqb f "_trace_int" then
    match vs with
    | [VInt i; VBool m; VInt k] => fun _ t => (Some (VInt (if m then k else 1)), match_rule i m t)
    | _ => c_fail
    end
  else c_opt (env.(ev_fun) f vs).

(** A function of the environment is called by its name; as a value it is not modelled and
    fails, and so does the environment itself ([$env]). *)
Definition eval_name (v : string) : comp' value := fun s t =>
  (match op_local s v with Some x => Some x | None => env.(ev_var) v end, t).
Fixpoint eval (n : node) : comp' value :=
  let eval_all := fix eval_all (l : list node) : comp' (list value) :=
    match l with
    | [] => c_ret []
    | n :: l => c_bind (eval n) (fun v => c_bind (eval_all l) (fun vs => c_ret (v :: vs)))
    end in
  match n with
  | IdentifierNode v => eval_name v
  | IntegerNode z => c_ret (VInt z)
  | FloatNode x => c_ret (VFloat x)
  | StringNode s => c_ret (VStr s)
  | BinaryNode op l r =>
      c_bind (eval l) (fun x =>
        match op_short op x with
        | Some v => c_ret v
        | None => c_bind (eval r) (fun y => c_opt (op_binary op x y))
        end)
  | ConditionalNode _ c a b => c_bind (eval c) (fun v => match v with VBool true => eval a | VBool false => eval b | _ => c_fail end)
  | CallNode f args =>
      match f with
      | IdentifierNode v => c_bind (eval_all args) (host v)
      | _ => op_other "call" (eval f :: map eval args)
      end
  | OtherNode k kids => op_other k (map eval kids)
  end.
Definition eval_all : list node -> comp' (list value) :=
  fix eval_all (l : list node) : comp' (list value) :=
    match l with
    | [] => c_ret []
    | n :: l => c_bind (eval n) (fun v => c_bind (eval_all l) (fun vs => c_ret (v :: vs)))
    end.
End eval.

(** Two computations that give the same results and keep traces related. *)
Definition related {S A} (R : TraceResult -> TraceResult -> Prop) (c d : comp S A) : Prop :=
  forall s t u, R t u -> (c s t).1 = (d s u).1 /\ R (c s t).2 (d s u).2.
(** What the code relies on: a product is that of IEEE 754, integers being converted; a node
    of another kind does nothing to the trace but by running its children; the root is
    outside every declaration; the optimiser keeps results and adds no names. *)
Class ExprLaws (G : ExprEngine) := {
  law_short : forall v, op_short "*" v = None;
  law_mul : forall x y a b, to_float x = Some a -> to_float y = Some b -> (exists c, x = VFloat c \/ y = VFloat c) ->
              op_binary "*" x y = Some (VFloat (f_mul a b));
  law_other : forall R k cs ds, Forall2 (related R) cs ds -> related R (op_other k cs) (op_other k ds);
  law_top : forall v, op_local top v = None;
  law_finish_eval : forall n p env s t, expr_finish n = Some p -> eval env p s t = eval env n s t;
  law_finish_names : forall n p f, expr_finish n = Some p -> mentions f p = true -> mentions f n = true
}.

(** ** Compilation and its cache *)

Record cachedEntry := mkEntry {
  ce_prog : node;
  ce_usedVars : string -> bool;
  ce_usedUsageKeys : list string;
  ce_requestRules : list RequestRuleTrace;
  ce_version : Z;
  ce_fixedPricing : bool
}.
Definition ParseExprVersion (s : string) : Z * string :=
  if HasPrefix s "v1:" then (1, String.substring 3 (String.length s) s) else (1, s).
Definition extractUsedVars (p : node) : string -> bool := fun v =>
  negb (one_of trace_names v) && mentions (String.eqb v) p.
Definition usage_key (n : node) : option string :=
  match n with CallNode callee [StringNode s] => if is_name "u" callee then Some (TrimSpace s) else None | _ => None end.
Definition extractUsedUsageKeys (p : node) : list string := omap usage_key (subnodes p).

Inductive CompileError := ParseError | FixedPricingError (e : FixedError) | ReservedName | CheckError.
Section compile.
Context `{!ExprEngine}.

Definition compile (exprStr : string) : result CompileError cachedEntry :=
  let (version, body) := ParseExprVersion exprStr in
  match parser_Parse body with
  | None => Err ParseError
  | Some tree =>
      let fixedPricing := mentions (String.eqb "fixed") tree in
      match (if fixedPricing then validateFixedPricingTree tree else Ok tt) with
      | Err e => Err (FixedPricingError e)
      | Ok _ =>
          if restrictedIdentifier tree then Err ReservedName
          else
            let (patched, rules) := patch tree [] in
            match expr_finish patched with
            | None => Err CheckError
            | Some prog => Ok (mkEntry prog (extractUsedVars prog) (extractUsedUsageKeys prog) rules version fixedPricing)
            end
      end
  end.
(** The cache is emptied when it is full. *)
Definition maxCacheSize : Z := 256.
Definition compileEntryFromCacheByHash (exprStr hash : string) (cache : gmap string cachedEntry)
    : result CompileError cachedEntry * gmap string cachedEntry :=
  match cache !! hash with
  | Some entry => (Ok entry, cache)
  | None =>
      match compile exprStr with
      | Err e => (Err e, cache)
      | Ok entry => (Ok entry, <[hash := entry]> (if maxCacheSize <=? Z.of_nat (size cache) then ∅ else cache))
      end
  end.
Definition InvalidateCache (cache : gmap string cachedEntry) : gmap string cachedEntry := ∅.
Definition UsesFixedPricingByHash (exprStr hash : string) (cache : gmap string cachedEntry) : bool * gmap string cachedEntry :=
  match compileEntryFromCacheByHash exprStr hash cache with
  | (Ok entry, cache) => (entry.(ce_fixedPricing), cache)
  | (Err _, cache) => (false, cache)
  end.
(** [between]: what other requests do to the cache between the compilation and the second
    lookup. *)
Definition UsedVarsByHash (between : gmap string cachedEntry -> gmap string cachedEntry) (exprStr hash : string) (cache : gmap string cachedEntry)
    : option (string -> bool) * gmap string cachedEntry :=
  if String.eqb exprStr "" then (None, cache)
  else
    match cache !! hash with
    | Some entry => (Some entry.(ce_usedVars), cache)
    | None =>
        match compileEntryFromCacheByHash exprStr hash cache with
        | (Err _, cache) => (None, cache)
        | (Ok _, cache) => let cache := between cache in (ce_usedVars <$> cache !! hash, cache)
        end
    end.

(** ** A run *)

Definition MaxImageN : Z := 128.
(** [funs]: the functions of the request, the clock and mathematics. *)
Definition environment (params : TokenParams) (count : Z) (funs : string -> list value -> option value) : Env :=
  mkEnv (fun v => VFloat <$> (list_to_map
    [("image_count", float64_of_int count); ("p", params.(tk_P)); ("c", params.(tk_C)); ("len", params.(tk_Len)); ("cr", params.(tk_CR));
     ("cc", params.(tk_CC)); ("cc1h", params.(tk_CC1h)); ("img", params.(tk_Img)); ("img_cr", params.(tk_ImgCR)); ("img_o", params.(tk_ImgO));
     ("ai", params.(tk_AI)); ("ao", params.(tk_AO))]%string : gmap string float64) !! v) funs.
Definition runProgram (e : cachedEntry) (params : TokenParams) (images : option Z) (funs : string -> list value -> option value)
    : option (float64 * TraceResult) :=
  let uses := e.(ce_usedVars) "image_count"%string in
  let count := if uses then default 1 images else 1 in
  if uses && ((count <? 1) || (MaxImageN <? count)) then None
  else
    let trace := mkTrace (if uses then Some count else None) BillingUnitToken None "" e.(ce_requestRules) f_zero in
    match eval (environment params count funs) e.(ce_prog) top trace with
    | (Some v, t) => match to_float v with Some x => Some (x, t) | None => None end
    | (None, _) => None
    end.
End compile.
