(* ===== verification/PricingLaws.v ===== *)
(** * Expressions with fixed prices have one price (pkg/billingexpr)

    Every run of an accepted expression reports one of its leaves, and for a fixed price
    the charge is that price times the multipliers of the request. *)

From stdpp Require Import base tactics numbers list gmap strings.
From Stdlib Require Import ZArith Lia SpecFloat.
From S2P Require Import Prelude Float64 QuotaMath Task ToolPrice Cost CostSettle PricingExpr.
Open Scope Z_scope.

(** ** Names in a tree *)

Lemma existsb_flat_map {A B} (f : B -> bool) (g : A -> list B) l : existsb f (flat_map g l) = existsb (fun a => existsb f (g a)) l.
Proof. induction l as [|a l IH]; simpl; [done|]. by rewrite existsb_app, IH. Qed.
Lemma mentions_name f v : mentions f (IdentifierNode v) = f v.
Proof. unfold mentions, Find. simpl. by rewrite orb_false_r. Qed.
Lemma mentions_binary f op l r : mentions f (BinaryNode op l r) = mentions f l || mentions f r.
Proof. unfold mentions, Find. simpl. by rewrite !existsb_app, orb_false_r. Qed.
Lemma mentions_cond f t c a b : mentions f (ConditionalNode t c a b) = mentions f c || mentions f a || mentions f b.
Proof. unfold mentions, Find. simpl. by rewrite !existsb_app, orb_false_r, orb_assoc. Qed.
Lemma mentions_call f g args : mentions f (CallNode g args) = mentions f g || existsb (mentions f) args.
Proof. unfold mentions, Find. simpl. by rewrite !existsb_app, existsb_flat_map, orb_false_r. Qed.
Lemma mentions_other f k kids : mentions f (OtherNode k kids) = existsb (mentions f) kids.
Proof. unfold mentions, Find. simpl. by rewrite existsb_app, existsb_flat_map, orb_false_r. Qed.
Create Rewrite HintDb names.
#[local] Hint Rewrite mentions_name mentions_binary mentions_cond mentions_call mentions_other orb_false_iff : names.

Lemma patch_call g args rules :
  patch (CallNode g args) rules = (let (g, rules) := patch g rules in let (args, rules) := patch_all args rules in (CallNode g args, rules)).
Proof. reflexivity. Qed.
Lemma patch_other k kids rules :
  patch (OtherNode k kids) rules = (let (kids, rules) := patch_all kids rules in (OtherNode k kids, rules)).
Proof. reflexivity. Qed.

(** The patcher adds no names but its own. *)
Lemma Visit_names f n rules : (forall v, one_of trace_names v = true -> f v = false) -> mentions f n = false -> mentions f (Visit n rules).1 = false.
Proof.
  intros Hf Hn. unfold Visit. destruct n as [| | | | |[] c a b| |]; try done. destruct (negb _); [done|].
  destruct (requestRuleNumber a), (requestRuleNumber b); try done. destruct (negb _); [done|].
  assert (f "_trace"%string = false /\ f "_trace_int"%string = false) as [H1 H2] by (split; by apply Hf).
  autorewrite with names in Hn. destruct Hn as [[Hc Ha] _].
  destruct (is_int a && is_int b); simpl fst; rewrite mentions_call, mentions_name; simpl existsb; by rewrite ?H1, ?H2, ?Hc, ?Ha.
Qed.
Definition keeps_names (f : string -> bool) (n : node) : Prop := forall rules, mentions f n = false -> mentions f (patch n rules).1 = false.
Lemma patch_all_names f l rules : Forall (keeps_names f) l -> existsb (mentions f) l = false -> existsb (mentions f) (patch_all l rules).1 = false.
Proof.
  intros H. revert rules. induction H as [|n l Hn _ IH]; intros rules; simpl; [done|]. rewrite orb_false_iff. intros [H1 H2].
  specialize (Hn rules H1). destruct (patch n rules) as [n' rules1]. specialize (IH rules1 H2). destruct (patch_all l rules1) as [l' rules2]. simpl in *. by rewrite Hn.
Qed.
Lemma patch_names f n : (forall v, one_of trace_names v = true -> f v = false) -> keeps_names f n.
Proof.
  intros Hf. induction n as [v|z|x|s|op l r IHl IHr|t c a b IHc IHa IHb|g args IHg IHargs|k kids IHk] using node_ind; intros rules Hn; try done.
  - autorewrite with names in Hn. destruct Hn as [H1 H2]. simpl. specialize (IHl rules H1). destruct (patch l rules) as [l' rules1].
    specialize (IHr rules1 H2). destruct (patch r rules1) as [r' rules2]. simpl in *. rewrite mentions_binary. by rewrite IHl, IHr.
  - autorewrite with names in Hn. destruct Hn as [[H1 H2] H3]. cbn [patch]. specialize (IHc rules H1). destruct (patch c rules) as [c' rules1].
    specialize (IHa rules1 H2). destruct (patch a rules1) as [a' rules2]. specialize (IHb rules2 H3). destruct (patch b rules2) as [b' rules3].
    apply Visit_names; [done|]. simpl in *. by rewrite mentions_cond, IHc, IHa, IHb.
  - autorewrite with names in Hn. destruct Hn as [H1 H2]. rewrite patch_call. specialize (IHg rules H1). destruct (patch g rules) as [g' rules1].
    pose proof (patch_all_names f args rules1 IHargs H2) as H. destruct (patch_all args rules1) as [args' rules2]. simpl in *. by rewrite mentions_call, IHg, H.
  - autorewrite with names in Hn. rewrite patch_other. pose proof (patch_all_names f kids rules IHk Hn) as H.
    destruct (patch_all kids rules) as [kids' rules1]. simpl in *. by rewrite mentions_other, H.
Qed.

(** ** Runs that leave the price alone *)

(** Everything but the marks of the request rules. *)
Definition quiet (t u : TraceResult) : Prop :=
  u.(tc_ImageCount) = t.(tc_ImageCount) /\ u.(tc_BillingUnit) = t.(tc_BillingUnit) /\ u.(tc_FixedPrice) = t.(tc_FixedPrice) /\
  u.(tc_MatchedTier) = t.(tc_MatchedTier) /\ u.(tc_Cost) = t.(tc_Cost).
Lemma quiet_refl t : quiet t t.
Proof. by repeat split. Qed.
Lemma quiet_trans t u v : quiet t u -> quiet u v -> quiet t v.
Proof. intros (A1 & A2 & A3 & A4 & A5) (B1 & B2 & B3 & B4 & B5). repeat split; congruence. Qed.
Lemma match_rule_quiet i m t : quiet t (match_rule i m t).
Proof. unfold match_rule. by destruct (_ && _); repeat split. Qed.

Lemma related_ret {S A} R (a : A) : related R (c_ret (S := S) a) (c_ret a).
Proof. by intros s t u H. Qed.
Lemma related_opt {S A} R (o : option A) : related R (c_opt (S := S) o) (c_opt o).
Proof. by intros s t u H. Qed.
Lemma related_fail {S A} R : related R (c_fail (S := S) (A := A)) c_fail.
Proof. by intros s t u H. Qed.
Lemma related_bind {S A B} R (c d : comp S A) (k l : A -> comp S B) :
  related R c d -> (forall a, related R (k a) (l a)) -> related R (c_bind c k) (c_bind d l).
Proof.
  intros Hc Hk s t u H. unfold c_bind. destruct (Hc s t u H) as [E H']. destruct (c s t) as [x t1], (d s u) as [y u1]. simpl in *. subst y.
  destruct x as [a|]; [by apply Hk|done].
Qed.

Section laws.
Context {G : ExprEngine} {L : ExprLaws G}.

(** A relation that the functions a tree calls keep is kept by the tree. *)
Lemma eval_related env R (P : string -> bool) n :
  (forall f vs, P f = false -> related R (host env f vs) (host env f vs)) -> mentions P n = false -> related R (eval env n) (eval env n).
Proof.
  intros HP. induction n as [v|z|x|s|op l r IHl IHr|t c a b IHc IHa IHb|g args IHg IHargs|k kids IHk] using node_ind; intros Hn; autorewrite with names in Hn.
  - by intros s t u H.
  - apply related_ret.
  - apply related_ret.
  - apply related_ret.
  - destruct Hn as [H1 H2]. apply related_bind; [auto|]. intros x. destruct (op_short op x); [apply related_ret|]. apply related_bind; [auto|]. intros y. apply related_opt.
  - destruct Hn as [[H1 H2] H3]. apply related_bind; [auto|]. intros []; try apply related_fail. destruct b0; auto.
  - destruct Hn as [H1 H2].
    assert (Forall (fun n => related R (eval env n) (eval env n)) args) as Hall.
    { rewrite Forall_forall in IHargs. apply Forall_forall. intros n Hin. apply IHargs; [done|]. apply not_true_iff_false. intros Ht. apply not_true_iff_false in H2. apply H2.
      apply existsb_exists. exists n. split; [by apply list_elem_of_In|done]. }
    assert (related R (eval_all env args) (eval_all env args)) as Hargs.
    { clear H2 IHargs. induction Hall as [|n l Hr _ IH]; simpl; [apply related_ret|]. apply related_bind; [done|]. intros v. apply related_bind; [done|]. intros vs. apply related_ret. }
    assert (related R (op_other "call" (eval env g :: map (eval env) args)) (op_other "call" (eval env g :: map (eval env) args))) as Hother.
    { apply law_other. constructor; [auto|]. clear -Hall. induction Hall; simpl; by constructor. }
    destruct g; try exact Hother. simpl. apply related_bind; [exact Hargs|]. intros vs. apply HP. by rewrite mentions_name in H1.
  - simpl. apply law_other. rewrite Forall_forall in IHk. clear -IHk Hn. induction kids as [|n l IH]; simpl; constructor.
    + apply IHk; [left|]. simpl in Hn. by apply orb_false_iff in Hn as [? _].
    + apply IH; [|simpl in Hn; by apply orb_false_iff in Hn as [_ ?]]. intros m Hm. apply IHk. by right.
Qed.

Lemma host_quiet env f vs s t : one_of ["tier"; "fixed"]%string f = false -> quiet t (host env f vs s t).2.
Proof.
  unfold one_of. simpl. rewrite !orb_false_iff. intros (H1 & H2 & _). unfold host. rewrite H1, H2.
  destruct (String.eqb f "_trace").
  { destruct vs as [|[] [|[] [|? []]]]; try apply quiet_refl. destruct (to_float _); [apply match_rule_quiet|apply quiet_refl]. }
  destruct (String.eqb f "_trace_int"); [|apply quiet_refl]. destruct vs as [|[] [|[] [|[] []]]]; try apply quiet_refl. apply match_rule_quiet.
Qed.
Lemma eval_quiet env n s t : containsPricingMarker n = false -> quiet t (eval env n s t).2.
Proof.
  intros Hn. set (R := fun a b : TraceResult => a = b /\ quiet t a).
  destruct (eval_related env R (one_of ["tier"; "fixed"]%string) n) with (2 := Hn) (s := s) (t := t) (u := t) as [_ [_ H]]; [|split; [done|apply quiet_refl]|done].
  intros f vs Hf s' a b [<- Ha]. split; [done|]. split; [done|]. eapply quiet_trans; [exact Ha|by apply host_quiet].
Qed.
Lemma patched_quiet env n rules s t : containsPricingMarker n = false -> quiet t (eval env (patch n rules).1 s t).2.
Proof.
  intros Hn. apply eval_quiet. apply patch_names; [|done]. unfold one_of, trace_names. simpl. intros v.
  rewrite !orb_true_iff, !String.eqb_eq. by intros [->|[->|?]].
Qed.

(** ** One leaf *)

Inductive leaf := FixedLeaf (amount : float64) | TokenLeaf (price : node).
Fixpoint leaves (n : node) : list leaf :=
  match n with
  | ConditionalNode _ _ a b => leaves a ++ leaves b
  | BinaryNode _ l r => leaves l ++ leaves r
  | CallNode callee args =>
      match tier_call callee args with
      | None => []
      | Some (_, price) =>
          match fixed_call price with
          | Some amount => match requestRuleNumber amount with Some x => [FixedLeaf x] | None => [] end
          | None => [TokenLeaf price]
          end
      end
  | _ => []
  end.
(** A multiplier of a request: the count of images, a finite factor that is not negative, or
    one. *)
Definition factor (count : float64) (m : float64) : Prop :=
  m = count \/ SFeqb m f_one = true \/ (f_le f_zero m = true /\ IsInf m = false).
Inductive scaled (count : float64) : float64 -> float64 -> Prop :=
| scaled_base x : scaled count x x
| scaled_right x y m : scaled count x y -> factor count m -> scaled count x (f_mul y m)
| scaled_left x y m : scaled count x y -> factor count m -> scaled count x (f_mul m y).
(** What a run reports if it met the leaf [l] alone, at the cost [x]. *)
Definition reports (env : Env) (l : leaf) (x : float64) (t u : TraceResult) : Prop :=
  u.(tc_ImageCount) = t.(tc_ImageCount) /\ u.(tc_Cost) = x /\
  match l with
  | FixedLeaf amount => u.(tc_BillingUnit) = BillingUnitRequest /\ u.(tc_FixedPrice) = Some amount /\ x = f_mul amount million
  | TokenLeaf price => u.(tc_BillingUnit) = t.(tc_BillingUnit) /\ u.(tc_FixedPrice) = t.(tc_FixedPrice) /\
      exists rules t0 v, quiet t t0 /\ (eval env (patch price rules).1 top t0).1 = Some v /\ to_float v = Some x
  end.
Lemma reports_after env l x t u v : reports env l x t u -> quiet u v -> reports env l x t v.
Proof.
  intros (H1 & H2 & H3) (Q1 & Q2 & Q3 & Q4 & Q5). split; [congruence|]. split; [congruence|].
  destruct l; destruct H3 as (H3 & H4 & H5); split_and!; try congruence; done.
Qed.
Lemma reports_before env l x t u v : quiet t u -> reports env l x u v -> reports env l x t v.
Proof.
  intros Q (H1 & H2 & H3). pose proof Q as (Q1 & Q2 & Q3 & Q4 & Q5). split; [congruence|]. split; [congruence|].
  destruct l; destruct H3 as (H3 & H4 & H5); split_and!; try congruence.
  destruct H5 as (rules & t0 & v0 & Hq & Hv). exists rules, t0, v0. split; [by eapply quiet_trans|done].
Qed.

Lemma number_patch n x rules : requestRuleNumber n = Some x -> patch n rules = (n, rules) /\ mentions (one_of ["tier"; "fixed"]%string) n = false /\
  forall env s t, exists v, eval env n s t = (Some v, t) /\ to_float v = Some x.
Proof. destruct n; simpl; try done; intros [= <-]; (split; [done|]; split; [done|]; intros env s t; eexists; done). Qed.
Lemma eval_bind_inv {S A B} (c : comp S A) (k : A -> comp S B) s t v u :
  c_bind c k s t = (Some v, u) -> exists a t1, c s t = (Some a, t1) /\ k a s t1 = (Some v, u).
Proof. unfold c_bind. destruct (c s t) as [[a|] t1]; [by eauto|done]. Qed.

(** A traced conditional gives what the conditional gives. *)
Lemma rule_value env tern c a b m f rules t v u :
  requestRuleNumber a = Some m -> requestRuleNumber b = Some f -> SFeqb f f_one = true ->
  eval env (Visit (ConditionalNode tern c a b) rules).1 top t = (Some v, u) ->
  exists y, to_float v = Some y /\ (y = m \/ SFeqb y f_one = true).
Proof.
  intros Ha Hb Hf. assert (eval env (ConditionalNode tern c a b) top t = (Some v, u) -> exists y, to_float v = Some y /\ (y = m \/ SFeqb y f_one = true)) as Hplain.
  { simpl. intros H. apply eval_bind_inv in H as (w & t1 & _ & H).
    destruct (number_patch a m [] Ha) as (_ & _ & Hea), (number_patch b f [] Hb) as (_ & _ & Heb). destruct w as [| |[]| | |]; try done.
    - destruct (Hea env top t1) as (w & E & Hw). rewrite E in H. injection H as <- <-. eauto.
    - destruct (Heb env top t1) as (w & E & Hw). rewrite E in H. injection H as <- <-. exists f. auto. }
  destruct tern; [|exact Hplain]. unfold Visit. destruct (negb (usesRequestProbe c)); [exact Hplain|]. rewrite Ha, Hb, Hf. cbn [negb].
  assert (SFeqb f_one f_one = true) as H11 by done.
  destruct (is_int a && is_int b) eqn:Hi; cbn [fst]; intros H.
  - apply andb_prop in Hi as [Hia _]. destruct a as [|z| | | | | |]; try done. injection Ha as <-. simpl in H.
    apply eval_bind_inv in H as (vs & t1 & Hvs & H). apply eval_bind_inv in Hvs as (i & t2 & Hi & Hvs). injection Hi as <- <-.
    apply eval_bind_inv in Hvs as (vs1 & t3 & Hvs & Hr). injection Hr as <- <-. apply eval_bind_inv in Hvs as (w & t4 & _ & Hvs). injection Hvs as <- <-.
    unfold host in H. simpl in H. destruct w as [| |[]| | |]; try done; injection H as <- <-; simpl; eauto.
  - simpl in H. apply eval_bind_inv in H as (vs & t1 & Hvs & H). apply eval_bind_inv in Hvs as (i & t2 & Hi' & Hvs). injection Hi' as <- <-.
    apply eval_bind_inv in Hvs as (vs1 & t3 & Hvs & Hr). injection Hr as <- <-. apply eval_bind_inv in Hvs as (w & t4 & _ & Hvs). injection Hvs as <- <-.
    unfold host in H. simpl in H. destruct w as [| |[]| | |]; try done; injection H as <- <-; simpl; eauto.
Qed.

Lemma multiplier_eval env count n rules t v u :
  isRequestPriceMultiplier n = true -> env.(ev_var) "image_count"%string = Some (VFloat count) -> eval env (patch n rules).1 top t = (Some v, u) ->
  quiet t u /\ exists m, to_float v = Some m /\ factor count m.
Proof.
  intros Hm Hc He. destruct n as [x| | | | |tern c a b| |]; try done.
  - simpl in Hm. apply String.eqb_eq in Hm as ->. simpl in He. unfold eval_name in He. rewrite law_top, Hc in He. injection He as <- <-.
    split; [apply quiet_refl|]. exists count. split; [done|by left].
  - simpl in Hm. destruct (usesRequestProbe c); [|done]. destruct (containsPricingMarker c) eqn:Hmc; [done|]. simpl in Hm.
    destruct (requestRuleNumber a) as [m|] eqn:Ha; [|done]. destruct (requestRuleNumber b) as [f|] eqn:Hb; [|done].
    apply andb_prop in Hm as [Hm Hinf]. apply andb_prop in Hm as [Hm _]. apply andb_prop in Hm as [Hf Hle]. apply negb_true_iff in Hinf.
    destruct (number_patch a m [] Ha) as (_ & Hna & _), (number_patch b f [] Hb) as (_ & Hnb & _). split.
    { pose proof (patched_quiet env (ConditionalNode tern c a b) rules top t) as H. rewrite He in H. apply H.
      unfold containsPricingMarker in *. by rewrite mentions_cond, Hmc, Hna, Hnb. }
    cbn [patch] in He. destruct (patch c rules) as [c' rules1]. rewrite (proj1 (number_patch a m rules1 Ha)), (proj1 (number_patch b f rules1 Hb)) in He.
    destruct (rule_value _ _ _ _ _ _ _ _ _ _ _ Ha Hb Hf He) as (y & Hy & Hor).
    exists y. split; [done|]. destruct Hor as [->|H1]; [right; right; done|right; left; done].
Qed.

Lemma patch_number n rules : requestRuleNumber (patch n rules).1 = requestRuleNumber n.
Proof.
  destruct n as [| | | |op l r|tern c a b|g args|k kids]; try done.
  - simpl. destruct (patch l rules) as [l' r1]. by destruct (patch r r1).
  - cbn [patch]. destruct (patch c rules) as [c' r1]. destruct (patch a r1) as [a' r2]. destruct (patch b r2) as [b' r3]. unfold Visit. destruct tern; [|done].
    destruct (negb _); [done|]. destruct (requestRuleNumber a'), (requestRuleNumber b'); try done. destruct (negb _); [done|]. by destruct (is_int a' && is_int b').
  - rewrite patch_call. destruct (patch g rules) as [g' r1]. by destruct (patch_all args r1).
  - rewrite patch_other. by destruct (patch_all kids rules).
Qed.
(** A leaf that is run. *)
Lemma leaf_eval env callee args rules t v u :
  validateFixedPricingTree (CallNode callee args) = Ok tt -> eval env (patch (CallNode callee args) rules).1 top t = (Some v, u) ->
  exists l x, l ∈ leaves (CallNode callee args) /\ v = VFloat x /\ reports env l x t u.
Proof.
  cbn [validateFixedPricingTree leaves]. destruct (tier_call callee args) as [[name price]|] eqn:Etier; [|done].
  destruct (containsPricingMarker name) eqn:Hname; [done|].
  assert (callee = IdentifierNode "tier" /\ args = [name; price]) as [-> ->].
  { unfold tier_call in Etier. destruct args as [|? [|? []]]; try done. destruct callee as [w| | | | | | |]; try done. simpl in Etier.
    destruct (String.eqb_spec w "tier") as [->|]; [|done]. by injection Etier as <- <-. }
  intros Hv He. rewrite patch_call in He. simpl in He. pose proof (patched_quiet env name rules top t Hname) as Hq.
  destruct (patch name rules) as [name' rules1]. cbn [fst] in Hq.
  destruct (patch price rules1) as [price' rules2] eqn:Ep. simpl in He.
  apply eval_bind_inv in He as (vs & t1 & Hvs & He). apply eval_bind_inv in Hvs as (nv & t2 & Hn & Hvs). rewrite Hn in Hq. cbn [snd] in Hq.
  apply eval_bind_inv in Hvs as (vs1 & t3 & Hvs & Hr). injection Hr as <- <-. apply eval_bind_inv in Hvs as (pv & t4 & Hp & Hvs). injection Hvs as <- <-.
  unfold host in He. cbn [String.eqb Ascii.eqb Bool.eqb] in He. destruct nv as [| | |nm| |]; try done. destruct (to_float pv) as [x|] eqn:Hx; [|done].
  injection He as <- <-. destruct (fixed_call price) as [amount|] eqn:Efix.
  - unfold valid_amount in Hv. destruct (requestRuleNumber amount) as [y|] eqn:Hy; [|done].
    exists (FixedLeaf y), x. split; [by left|]. split; [done|].
    unfold fixed_call in Efix. destruct price as [| | | | | |g as'|]; try done. destruct as' as [|? []]; try done. destruct (is_name "fixed" g) eqn:Hg; [|done].
    injection Efix as ->. destruct g as [w| | | | | | |]; try done. simpl in Hg. apply String.eqb_eq in Hg as ->.
    rewrite patch_call in Ep. simpl in Ep. rewrite (proj1 (number_patch amount y rules1 Hy)) in Ep. injection Ep as <- <-. simpl in Hp.
    apply eval_bind_inv in Hp as (ws & t5 & Hws & Hp). apply eval_bind_inv in Hws as (av & t6 & Ha & Hws). injection Hws as <- <-.
    destruct (number_patch amount y [] Hy) as (_ & _ & Hev). destruct (Hev env top t2) as (av' & Ha' & Hf). rewrite Ha' in Ha. injection Ha as <- <-.
    unfold host in Hp. simpl in Hp. rewrite Hf in Hp. injection Hp as <- <-. injection Hx as <-.
    destruct Hq as (Q1 & _). split; [done|]. split; [done|]. done.
  - destruct (containsPricingMarker price) eqn:Hprice; [done|]. exists (TokenLeaf price), x. split; [by left|]. split; [done|].
    pose proof (patched_quiet env price rules1 top t2 Hprice) as Hq2. rewrite Ep in Hq2. cbn [fst] in Hq2. rewrite Hp in Hq2. cbn [snd] in Hq2.
    pose proof (quiet_trans _ _ _ Hq Hq2) as (Q1 & Q2 & Q3 & _). split; [done|]. split; [done|]. split; [done|]. split; [done|].
    exists rules1, t2, pv. split; [done|]. rewrite Ep. cbn [fst]. by rewrite Hp.
Qed.

Lemma validated_eval env count n :
  env.(ev_var) "image_count"%string = Some (VFloat count) -> validateFixedPricingTree n = Ok tt -> forall rules t v u,
  eval env (patch n rules).1 top t = (Some v, u) ->
  exists l x y, l ∈ leaves n /\ v = VFloat y /\ scaled count x y /\ reports env l x t u.
Proof.
  intros Hc. induction n as [w|z|x|s|op l r IHl IHr|tern c a b IHc IHa IHb|g args IHg IHargs|k kids IHk] using node_ind; intros Hv rules t v u He; try done.
  - simpl in Hv. destruct (String.eqb_spec op "*") as [->|]; [|done]. simpl in Hv. simpl in He.
    destruct (patch l rules) as [l' rules1] eqn:El. destruct (patch r rules1) as [r' rules2] eqn:Er. simpl in He.
    apply eval_bind_inv in He as (x & t1 & Hx & He). rewrite law_short in He. apply eval_bind_inv in He as (y & t2 & Hy & He). unfold c_opt in He. injection He as Hb <-.
    assert (l' = (patch l rules).1) as -> by (by rewrite El). assert (r' = (patch r rules1).1) as -> by (by rewrite Er).
    cbn [leaves]. destruct (isRequestPriceMultiplier r) eqn:Hr.
    + destruct (IHl Hv _ _ _ _ Hx) as (lf & a & b & Hin & -> & Hs & Hrep). destruct (multiplier_eval _ _ _ _ _ _ _ Hr Hc Hy) as (Hq & m & Hm & Hfac).
      rewrite (law_mul (VFloat b) y b m) in Hb; [|done|done|eauto]. injection Hb as <-. exists lf, a, (f_mul b m).
      split; [apply elem_of_app; by left|]. split; [done|]. split; [by constructor|by eapply reports_after].
    + destruct (isRequestPriceMultiplier l) eqn:Hl; [|done].
      destruct (IHr Hv _ _ _ _ Hy) as (lf & a & b & Hin & -> & Hs & Hrep). destruct (multiplier_eval _ _ _ _ _ _ _ Hl Hc Hx) as (Hq & m & Hm & Hfac).
      rewrite (law_mul x (VFloat b) m b) in Hb; [|done|done|eauto]. injection Hb as <-. exists lf, a, (f_mul m b).
      split; [apply elem_of_app; by right|]. split; [done|]. split; [by constructor|by eapply reports_before].
  - simpl in Hv. destruct (containsPricingMarker c) eqn:Hmc; [done|]. destruct (validateFixedPricingTree a) as [[]|] eqn:Hva; [|done].
    cbn [patch] in He. pose proof (patched_quiet env c rules top t Hmc) as Hq. destruct (patch c rules) as [c' rules1].
    destruct (patch a rules1) as [a' rules2] eqn:Ea. destruct (patch b rules2) as [b' rules3] eqn:Eb.
    assert (requestRuleNumber a' = None) as Hna.
    { pose proof (patch_number a rules1) as Hp. rewrite Ea in Hp. simpl in Hp. rewrite Hp. by destruct a. }
    assert ((Visit (ConditionalNode tern c' a' b') rules3).1 = ConditionalNode tern c' a' b') as Hvis.
    { unfold Visit. destruct tern; [|done]. destruct (negb _); [done|]. by rewrite Hna. }
    rewrite Hvis in He. simpl in He. apply eval_bind_inv in He as (w & t1 & Hw & He). cbn [fst] in Hq. rewrite Hw in Hq. cbn [snd] in Hq. cbn [leaves].
    destruct w as [| |[]| | |]; try done.
    + replace a' with (patch a rules1).1 in He by (by rewrite Ea). destruct (IHa eq_refl _ _ _ _ He) as (lf & x & y & Hin & -> & Hs & Hrep).
      exists lf, x, y. split; [apply elem_of_app; by left|]. split; [done|]. split; [done|by eapply reports_before].
    + replace b' with (patch b rules2).1 in He by (by rewrite Eb). destruct (IHb Hv _ _ _ _ He) as (lf & x & y & Hin & -> & Hs & Hrep).
      exists lf, x, y. split; [apply elem_of_app; by right|]. split; [done|]. split; [done|by eapply reports_before].
  - destruct (leaf_eval env g args rules t v u Hv He) as (lf & x & Hin & -> & Hrep). exists lf, x, x. split_and!; try done. constructor.
Qed.
End laws.

(** ** Signs *)

Definition not_negative (x : float64) : Prop := match x with S754_finite true _ _ | S754_infinity true => False | _ => True end.
Lemma round_not_negative m e l : not_negative (binary_round_aux 53 1024 false m e l).
Proof. unfold binary_round_aux. destruct (shr_fexp _ _ _ _ _) as [r1 e1]. destruct (shr_fexp _ _ _ _ _) as [r2 e2]. destruct (shr_m r2); [done| |done]. by destruct (_ <=? _). Qed.
Lemma mul_not_negative x y : not_negative x -> not_negative y -> not_negative (f_mul x y).
Proof. destruct x as [[]|[]| |[] mx ex], y as [[]|[]| |[] my ey]; try done. intros _ _. apply round_not_negative. Qed.
Lemma le_not_negative x : f_le f_zero x = true -> not_negative x.
Proof. by destruct x as [[]|[]| |[] m e]. Qed.
Lemma one_not_negative x : SFeqb x f_one = true -> not_negative x.
Proof. by destruct x as [[]|[]| |[] m e]. Qed.
Lemma not_negative_lt x : not_negative x -> f_lt x f_zero = false.
Proof. by destruct x as [[]|[]| |[] m e]. Qed.
Lemma int_not_negative z : 0 <= z -> not_negative (float64_of_int z).
Proof.
  destruct z as [|p|p]; [done| |lia]. intros _. unfold float64_of_int, binary_normalize, binary_round. destruct (shl_align _ _ _). apply round_not_negative.
Qed.
Lemma scaled_not_negative count x y : not_negative count -> scaled count x y -> not_negative x -> not_negative y.
Proof.
  intros Hc Hs Hx. assert (forall m, factor count m -> not_negative m) as Hf.
  { intros m [->|[H|[H _]]]; [done|by apply one_not_negative|by apply le_not_negative]. }
  induction Hs; [done|apply mul_not_negative; auto..].
Qed.
Definition leaf_ok (l : leaf) : Prop := match l with FixedLeaf amount => f_le f_zero amount = true | TokenLeaf price => containsPricingMarker price = false end.
Lemma multiplier_leaves n : isRequestPriceMultiplier n = true -> leaves n = [].
Proof. destruct n as [v| | | | |t c a b| |]; try done. simpl. destruct (_ || _); [done|]. by destruct a, b. Qed.
Lemma leaves_ok n : validateFixedPricingTree n = Ok tt -> Forall leaf_ok (leaves n).
Proof.
  induction n as [w|z|x|s|op l r IHl IHr|tern c a b IHc IHa IHb|g args IHg IHargs|k kids IHk] using node_ind; cbn [leaves validateFixedPricingTree]; intros Hv; try done.
  - destruct (negb _); [done|]. destruct (isRequestPriceMultiplier r) eqn:Hr; [rewrite (multiplier_leaves r Hr), app_nil_r; auto|].
    destruct (isRequestPriceMultiplier l) eqn:Hl; [|done]. rewrite (multiplier_leaves l Hl). auto.
  - destruct (containsPricingMarker c); [done|]. destruct (validateFixedPricingTree a) as [[]|]; [|done]. apply Forall_app; auto.
  - destruct (tier_call g args) as [[name price]|]; [|done]. destruct (containsPricingMarker name); [done|]. unfold valid_amount in Hv.
    destruct (fixed_call price) as [am|].
    + destruct (requestRuleNumber am) as [x|]; [|done]. constructor; [|done]. simpl. by destruct (f_le f_zero x).
    + constructor; [|done]. simpl. by destruct (containsPricingMarker price).
Qed.

Section runs.
Context {G : ExprEngine} {L : ExprLaws G}.

Lemma environment_count params count funs : ev_var (environment params count funs) "image_count"%string = Some (VFloat (float64_of_int count)).
Proof. reflexivity. Qed.

(** The leaf a run has met. *)
Lemma compiled_run exprStr entry tree params images funs x t :
  compile exprStr = Ok entry -> entry.(ce_fixedPricing) = true -> parser_Parse (ParseExprVersion exprStr).2 = Some tree ->
  runProgram entry params images funs = Some (x, t) ->
  exists l cost count t0, l ∈ leaves tree /\ leaf_ok l /\ 1 <= count <= MaxImageN /\ scaled (float64_of_int count) cost x /\
    reports (environment params count funs) l cost t0 t /\ t0.(tc_BillingUnit) = BillingUnitToken /\ t0.(tc_FixedPrice) = None.
Proof.
  unfold compile. intros Hcomp Hfix Hparse Hrun. destruct (ParseExprVersion exprStr) as [version body]. simpl in Hparse. rewrite Hparse in Hcomp.
  destruct (mentions (String.eqb "fixed") tree) eqn:Hm; cycle 1.
  { destruct (restrictedIdentifier tree); [done|]. destruct (patch tree []) as [pt rl]. destruct (expr_finish pt); by simplify_eq. }
  destruct (validateFixedPricingTree tree) as [[]|] eqn:Hv; [|done]. destruct (restrictedIdentifier tree); [done|].
  destruct (patch tree []) as [pt rules] eqn:Ep. destruct (expr_finish pt) as [prog|] eqn:Ef; [|done]. injection Hcomp as <-.
  unfold runProgram in Hrun. cbn [ce_usedVars ce_requestRules ce_prog] in Hrun. destruct (_ && _) eqn:Hcount; [done|].
  set (count := if extractUsedVars prog "image_count" then _ else _) in *.
  rewrite (law_finish_eval _ _ _ _ _ Ef) in Hrun. replace pt with (patch tree []).1 in Hrun by (by rewrite Ep).
  destruct (eval _ _ _ _) as [[v|] t'] eqn:He; [|done]. destruct (to_float v) as [x'|] eqn:Hx; [|done]. injection Hrun as -> ->.
  destruct (validated_eval _ _ _ (environment_count params count funs) Hv _ _ _ _ He) as (l & c & y & Hin & -> & Hs & Hrep). injection Hx as ->.
  assert (1 <= count <= MaxImageN) as Hrange.
  { unfold count, MaxImageN in *. destruct (extractUsedVars prog "image_count"); [|lia]. simpl in Hcount. apply orb_false_iff in Hcount. lia. }
  pose proof (leaves_ok tree Hv) as Hall. rewrite Forall_forall in Hall. exists l, c, count, (mkTrace (if extractUsedVars prog "image_count" then Some count else None) BillingUnitToken None "" rules f_zero).
  split_and!; auto; apply Hrange || apply Hrep.
Qed.
Lemma fixed_not_negative count amount x : 0 <= count -> leaf_ok (FixedLeaf amount) -> scaled (float64_of_int count) (f_mul amount million) x -> f_lt x f_zero = false.
Proof.
  intros Hc Hok Hs. apply not_negative_lt. eapply scaled_not_negative; [by apply int_not_negative|exact Hs|].
  apply mul_not_negative; [by apply le_not_negative|by apply int_not_negative].
Qed.

(** C18. An accepted expression with fixed prices has one price per run.  Whatever the tokens,
    the request and the time are, a run that returns reports exactly one leaf of the
    expression: the cost of its tier, the unit "request" just if the leaf is a fixed price,
    and that price; and the result is the cost of the leaf times multipliers each of which
    is the count of images, one or a finite factor that is not negative.  A fixed price is
    never charged as a negative amount, and the count of images is between 1 and 128. *)
Theorem fixed_pricing_one_leaf exprStr entry tree params images funs x t :
  compile exprStr = Ok entry -> entry.(ce_fixedPricing) = true -> parser_Parse (ParseExprVersion exprStr).2 = Some tree ->
  runProgram entry params images funs = Some (x, t) ->
  exists l cost count, l ∈ leaves tree /\ 1 <= count <= MaxImageN /\ t.(tc_Cost) = cost /\ scaled (float64_of_int count) cost x /\
    match l with
    | FixedLeaf amount => t.(tc_BillingUnit) = BillingUnitRequest /\ t.(tc_FixedPrice) = Some amount /\ cost = f_mul amount million /\ f_lt x f_zero = false
    | TokenLeaf price => t.(tc_BillingUnit) = BillingUnitToken /\ t.(tc_FixedPrice) = None /\ containsPricingMarker price = false
    end.
Proof.
  intros Hcomp Hfix Hparse Hrun. destruct (compiled_run _ _ _ _ _ _ _ _ Hcomp Hfix Hparse Hrun) as (l & cost & count & t0 & Hin & Hok & Hrange & Hs & (_ & Hcost & Hl) & Ht0 & Ht0').
  exists l, cost, count. split; [done|]. split; [done|]. split; [done|]. split; [done|]. destruct l as [amount|price]; destruct Hl as (H1 & H2 & H3).
  - rewrite H3 in Hs. split_and!; try done. apply (fixed_not_negative count amount); [lia|done|done].
  - split_and!; [congruence|congruence|done].
Qed.

(** ** The cache *)

Variable hash : string -> string.
Context `{!Inj (=) (=) hash}.
Definition cache_ok (c : gmap string cachedEntry) : Prop :=
  Z.of_nat (size c) <= maxCacheSize /\ forall s e, c !! hash s = Some e -> compile s = Ok e.
Lemma empty_cache_ok : cache_ok ∅.
Proof. split; [by rewrite map_size_empty|]. intros s e. by rewrite lookup_empty. Qed.
Lemma compile_cached s c r c' : cache_ok c -> compileEntryFromCacheByHash s (hash s) c = (r, c') -> r = compile s /\ cache_ok c'.
Proof.
  intros [Hsz Hc]. unfold compileEntryFromCacheByHash. destruct (c !! hash s) as [e|] eqn:E; [intros [= <- <-]; split; [symmetry; by apply Hc|done]|].
  destruct (compile s) as [e|] eqn:Es; intros [= <- <-]; [|done]. split; [done|]. split.
  - destruct (Z.leb_spec maxCacheSize (Z.of_nat (size c))) as [H|H].
    + rewrite map_size_insert_None by apply lookup_empty. by rewrite map_size_empty.
    + rewrite map_size_insert_None by done. lia.
  - intros s' e'. destruct (decide (hash s' = hash s)) as [Hh|Hh].
    + rewrite Hh, lookup_insert_eq. intros [= <-]. apply (inj hash) in Hh as ->. done.
    + rewrite lookup_insert_ne by done. destruct (_ <=? _); [by rewrite lookup_empty|apply Hc].
Qed.

Inductive cache_op := OpCompile (s : string) | OpInvalidate.
Fixpoint cache_run (ops : list cache_op) (c : gmap string cachedEntry) : list (string * result CompileError cachedEntry) * gmap string cachedEntry :=
  match ops with
  | [] => ([], c)
  | OpInvalidate :: ops => cache_run ops (InvalidateCache c)
  | OpCompile s :: ops =>
      let (r, c) := compileEntryFromCacheByHash s (hash s) c in
      let (rs, c) := cache_run ops c in ((s, r) :: rs, c)
  end.
(** Caching compiled expressions changes no answer: over any sequence of compilations,
    failing ones included, and invalidations, starting with an empty cache, every answer is
    the one a fresh compilation gives, as long as the hash of expressions has no
    collisions; and the cache never holds more than 256 entries. *)
Theorem expression_cache_transparent ops :
  let (rs, c) := cache_run ops ∅ in Forall (fun sr => sr.2 = compile sr.1) rs /\ Z.of_nat (size c) <= 256.
Proof.
  assert (forall ops c, cache_ok c -> let (rs, c') := cache_run ops c in Forall (fun sr => sr.2 = compile sr.1) rs /\ cache_ok c') as H.
  { clear ops. induction ops as [|[s|] ops IH]; intros c Hc; simpl; [by split| |].
    - destruct (compileEntryFromCacheByHash s (hash s) c) as [r c1] eqn:E. apply compile_cached in E as [-> Hc1]; [|done].
      specialize (IH c1 Hc1). destruct (cache_run ops c1) as [rs c2]. destruct IH as [H1 H2]. split; [|done]. by constructor.
    - apply IH, empty_cache_ok. }
  specialize (H ops ∅). destruct (cache_run ops ∅) as [rs c]. by destruct (H empty_cache_ok) as [H1 [H2 _]].
Qed.

(** The names of an expression that compiles, unless the cache is emptied between the
    compilation and the second lookup. *)
Theorem used_vars_found s e :
  compile s = Ok e -> s <> ""%string -> forall c, cache_ok c -> (UsedVarsByHash id s (hash s) c).1 = Some e.(ce_usedVars).
Proof.
  intros He Hs c Hc. unfold UsedVarsByHash. apply String.eqb_neq in Hs. rewrite Hs. destruct (c !! hash s) as [e'|] eqn:E.
  - apply Hc in E. rewrite He in E. by injection E as <-.
  - unfold compileEntryFromCacheByHash. rewrite E, He. cbn [id fst]. by rewrite lookup_insert_eq.
Qed.
Theorem used_vars_lost s e : compile s = Ok e -> s <> ""%string -> (UsedVarsByHash (fun _ => ∅) s (hash s) ∅).1 = None.
Proof.
  intros He Hs. unfold UsedVarsByHash. apply String.eqb_neq in Hs. rewrite Hs, lookup_empty. unfold compileEntryFromCacheByHash. by rewrite lookup_empty, He.
Qed.
End runs.
