(* ===== verification/FloatSum.v ===== *)
(** * Sums of integers in floating point

    Additions and subtractions of integers below 2^53 are exact. *)

From stdpp Require Import base tactics numbers.
From Stdlib Require Import ZArith Lia SpecFloat.
From S2P Require Import Prelude Float64 Task ToolPrice Cost.
Open Scope Z_scope.

(** [x] is the integer [n]. *)
Definition denotes (x : float64) (n : Z) : Prop := valid64 x /\ is_fin x /\ sv x = n * unit64.
Lemma denotes_int n : Z.abs n < 2 ^ 53 -> denotes (float64_of_int n) n.
Proof. apply float64_of_int_exact. Qed.
Lemma denotes_zero : denotes f_zero 0.
Proof. by apply denotes_int. Qed.
Lemma denotes_sign x n : denotes x n -> f_lt x f_zero = (n <? 0).
Proof.
  intros (V & F & S). destruct denotes_zero as (V0 & F0 & S0). rewrite f_lt_fin by done. rewrite S, S0. pose proof unit64_pos.
  destruct (Z.ltb_spec (n * unit64) (0 * unit64)), (Z.ltb_spec n 0); nia || done.
Qed.
Lemma denotes_inj x m n : denotes x m -> denotes x n -> m = n.
Proof. intros (_ & _ & H1) (_ & _ & H2). pose proof unit64_pos. nia. Qed.

(** ** Rounding a representable value *)

Lemma iter_pos_nat {A} (f : A -> A) p x : iter_pos f p x = Nat.iter (Pos.to_nat p) f x.
Proof.
  revert x. induction p as [p IH|p IH|]; intros x; simpl iter_pos; [| |done].
  - rewrite !IH. replace (Pos.to_nat p~1) with (Pos.to_nat p + (Pos.to_nat p + 1))%nat by lia. by rewrite !Nat.iter_add.
  - rewrite !IH. replace (Pos.to_nat p~0) with (Pos.to_nat p + Pos.to_nat p)%nat by lia. by rewrite Nat.iter_add.
Qed.
Lemma shr_exact m k : Nat.iter k shr_1 {| shr_m := Z.pos (Nat.iter k xO m); shr_r := false; shr_s := false |} = {| shr_m := Z.pos m; shr_r := false; shr_s := false |}.
Proof. induction k as [|k IH]; [done|]. rewrite Nat.iter_succ_r. simpl. exact IH. Qed.
Lemma digits_shift m k : Z.pos (digits2_pos (Nat.iter k xO m)) = Z.pos (digits2_pos m) + Z.of_nat k /\ Z.pos (Nat.iter k xO m) = Z.pos m * 2 ^ Z.of_nat k.
Proof.
  induction k as [|k [IH1 IH2]]; [by simpl; lia|]. rewrite Nat.iter_succ. split; [simpl digits2_pos; lia|].
  rewrite Nat2Z.inj_succ, Z.pow_succ_r, Pos2Z.inj_xO, IH2 by lia. lia.
Qed.
Lemma pos_iter_nat m p : Pos.iter xO m p = Nat.iter (Pos.to_nat p) xO m.
Proof. apply Pos2Nat.inj_iter. Qed.

Lemma round_shifted s m k :
  Z.pos m < 2 ^ 53 -> (k <= 60)%nat ->
  exists mz ez, binary_round 53 1024 s (Nat.iter k xO m) (- Z.of_nat k) = S754_finite s mz ez /\
    valid64 (S754_finite s mz ez) /\ Z.pos mz * 2 ^ (ez + 1074) = Z.pos m * unit64.
Proof.
  intros Hm Hk. pose proof (digits2_pos_bound m) as [Hl _]. set (d := Z.pos (digits2_pos m)) in *.
  assert (d <= 53) as Hd.
  { destruct (Z.le_gt_cases d 53) as [|Hgt]; [done|]. assert (2 ^ 53 <= 2 ^ (d - 1)) by (apply Z.pow_le_mono_r; lia). lia. }
  assert (1 <= d) by lia. destruct (digits_shift m k) as [Hdk Hmk]. fold d in Hdk.
  set (mz := Nat.iter (Z.to_nat (53 - d)) xO m). destruct (digits_shift m (Z.to_nat (53 - d))) as [Hdz Hmz]. fold mz d in Hdz, Hmz. rewrite Z2Nat.id in Hdz, Hmz by lia.
  assert (fexp 53 1024 (Z.pos (digits2_pos mz) + (d - 53)) = d - 53) as Hcan by (unfold fexp, emin; lia).
  exists mz, (d - 53). split; [|split].
  - unfold binary_round. rewrite Hdk. replace (fexp 53 1024 (d + Z.of_nat k + - Z.of_nat k)) with (d - 53) by (unfold fexp, emin; lia).
    assert (exists my ey, shl_align (Nat.iter k xO m) (- Z.of_nat k) (d - 53) = (my, ey) /\
      shr_fexp 53 1024 (Z.pos my) ey loc_Exact = ({| shr_m := Z.pos mz; shr_r := false; shr_s := false |}, d - 53)) as (my & ey & -> & Hs).
    { unfold shl_align. destruct (d - 53 - - Z.of_nat k) as [|p|p] eqn:E.
      - assert (mz = Nat.iter k xO m) as <- by (unfold mz; f_equal; lia). exists mz, (- Z.of_nat k). split; [done|].
        replace (- Z.of_nat k) with (d - 53) by lia. by apply shr_fexp_canonical.
      - exists (Nat.iter k xO m), (- Z.of_nat k). split; [done|]. unfold shr_fexp. cbn [Zdigits2 shr_record_of_loc]. rewrite Hdk.
        replace (fexp 53 1024 (d + Z.of_nat k + - Z.of_nat k) - - Z.of_nat k) with (Z.pos p) by (unfold fexp, emin; lia).
        unfold shr. rewrite iter_pos_nat. assert (Nat.iter k xO m = Nat.iter (Pos.to_nat p) xO mz) as ->.
        { unfold mz. rewrite <- Nat.iter_add. f_equal. lia. }
        rewrite shr_exact. f_equal. lia.
      - exists mz, (d - 53). split; [|by apply shr_fexp_canonical]. rewrite pos_iter_nat, <- Nat.iter_add. unfold mz. do 2 f_equal. lia. }
    unfold binary_round_aux. rewrite Hs. simpl loc_of_shr_record. simpl shr_m. simpl round_nearest_even. rewrite shr_fexp_canonical by done. simpl shr_m.
    destruct (Z.leb_spec (d - 53) (1024 - 53)); [done|lia].
  - unfold valid64. simpl. unfold bounded, canonical_mantissa. rewrite Hcan, Z.eqb_refl. simpl. apply Z.leb_le. lia.
  - rewrite Hmz. unfold unit64. rewrite <- Z.mul_assoc, <- Z.pow_add_r by lia. f_equal. f_equal. lia.
Qed.
Lemma normalize_shifted z k b : Z.abs z < 2 ^ 53 -> (k <= 60)%nat -> denotes (binary_normalize 53 1024 (z * 2 ^ Z.of_nat k) (- Z.of_nat k) b) z.
Proof.
  intros Hz Hk. destruct z as [|m|m]; simpl Z.mul.
  - rewrite Z.mul_0_l. done.
  - destruct (digits_shift m k) as [_ <-]. destruct (round_shifted false m k ltac:(lia) Hk) as (mz & ez & E & V & S). simpl. rewrite E. by split_and!.
  - replace (Z.neg m * 2 ^ Z.of_nat k) with (Z.neg (Nat.iter k xO m)) by (destruct (digits_shift m k) as [_ H]; lia).
    destruct (round_shifted true m k ltac:(lia) Hk) as (mz & ez & E & V & S). simpl. rewrite E. split_and!; [done..|]. simpl. lia.
Qed.

(** ** Sums *)

Lemma finite_integer s m e a : denotes (S754_finite s m e) a -> Z.abs a < 2 ^ 53 -> -52 <= e <= 0 /\ cond_Zopp s (Z.pos m) * 2 ^ 52 = a * 2 ^ (52 - e).
Proof.
  intros (V & _ & S) Ha. apply valid_finite in V as (He & Hm & Hc). simpl in S.
  assert (Z.pos m * 2 ^ (e + 1074) = Z.abs a * unit64) as Habs.
  { assert (0 < Z.pos m * 2 ^ (e + 1074)) by (apply Z.mul_pos_pos; [lia|apply Z.pow_pos_nonneg; lia]). pose proof unit64_pos. destruct s; simpl in S; nia. }
  assert (e <= 0) as He0.
  { destruct (Z.le_gt_cases e 0) as [|Hgt]; [done|]. destruct Hc as [->|Hc]; [lia|].
    assert (2 ^ 52 * 2 ^ 1075 <= Z.pos m * 2 ^ (e + 1074)) by (apply Z.mul_le_mono_nonneg; try lia; apply Z.pow_le_mono_r; lia).
    rewrite Habs in H. unfold unit64 in H. assert (Z.abs a * 2 ^ 1074 < 2 ^ 53 * 2 ^ 1074) by (apply Z.mul_lt_mono_pos_r; [by apply Z.pow_pos_nonneg|lia]).
    rewrite <- !Z.pow_add_r in * by lia. simpl Z.add in *. lia. }
  assert (-52 <= e) as He1.
  { destruct (Z.le_gt_cases (-52) e) as [|Hlt]; [done|].
    assert (1 <= Z.abs a) as H1. { destruct (Z.eq_dec a 0) as [->|]; [|lia]. simpl in Habs. assert (0 < 2 ^ (e + 1074)) by (apply Z.pow_pos_nonneg; lia). lia. }
    assert (Z.pos m * 2 ^ (e + 1074) < 2 ^ 53 * 2 ^ 1021).
    { apply Z.lt_le_trans with (2 ^ 53 * 2 ^ (e + 1074)); [apply Z.mul_lt_mono_pos_r; [apply Z.pow_pos_nonneg; lia|done]|].
      apply Z.mul_le_mono_nonneg_l; [lia|]. apply Z.pow_le_mono_r; lia. }
    rewrite <- Z.pow_add_r in H by lia. change (53 + 1021) with 1074 in H. unfold unit64 in Habs. nia. }
  split; [lia|]. assert (2 ^ (e + 1074) = 2 ^ (e + 52) * 2 ^ 1022) as E1 by (rewrite <- Z.pow_add_r by lia; f_equal; lia).
  assert (unit64 = 2 ^ 52 * 2 ^ 1022) as E2 by (unfold unit64; rewrite <- Z.pow_add_r by lia; done).
  assert (Z.pos m * 2 ^ (e + 52) = Z.abs a * 2 ^ 52) as E3.
  { apply (Z.mul_reg_r _ _ (2 ^ 1022)); [apply Z.pow_nonzero; lia|]. rewrite <- !Z.mul_assoc, <- E1, <- E2. exact Habs. }
  assert (Z.pos m * 2 ^ 52 = Z.abs a * 2 ^ (52 - e)) as E4.
  { assert (2 ^ 52 = 2 ^ (e + 52) * 2 ^ (- e)) as E5 by (rewrite <- Z.pow_add_r by lia; f_equal; lia).
    assert (2 ^ (52 - e) = 2 ^ 52 * 2 ^ (- e)) as E6 by (rewrite <- Z.pow_add_r by lia; f_equal; lia).
    rewrite E5 at 1. rewrite E6, !Z.mul_assoc, E3. done. }
  assert (0 < Z.pos m * 2 ^ (e + 1074)) by (apply Z.mul_pos_pos; [lia|apply Z.pow_pos_nonneg; lia]). pose proof unit64_pos.
  destruct s; simpl cond_opp in S; simpl cond_Zopp; [assert (Z.abs a = - a) as Ea by nia|assert (Z.abs a = a) as Ea by nia]; rewrite Ea in E4; lia.
Qed.
Lemma aligned m e ez : ez <= e -> Z.pos (fst (shl_align m e ez)) = Z.pos m * 2 ^ (e - ez).
Proof.
  intros H. unfold shl_align. destruct (ez - e) as [|p|p] eqn:E; [|lia|].
  - replace (e - ez) with 0 by lia. simpl. lia.
  - simpl fst. rewrite pos_iter_nat. destruct (digits_shift m (Pos.to_nat p)) as [_ ->]. f_equal. f_equal. lia.
Qed.
Lemma aligned_value s m e a ez : denotes (S754_finite s m e) a -> Z.abs a < 2 ^ 53 -> -52 <= ez <= e ->
  cond_Zopp s (Z.pos (fst (shl_align m e ez))) = a * 2 ^ (- ez).
Proof.
  intros Hd Ha Hez. destruct (finite_integer _ _ _ _ Hd Ha) as [He Hv]. rewrite aligned by lia.
  apply (Z.mul_reg_r _ _ (2 ^ 52)); [done|]. rewrite <- Z.mul_assoc, <- Z.pow_add_r by lia.
  transitivity (cond_Zopp s (Z.pos m) * 2 ^ 52 * 2 ^ (e - ez)); [destruct s; simpl cond_Zopp; ring|].
  rewrite Hv, <- Z.mul_assoc, <- Z.pow_add_r by lia. f_equal. f_equal. lia.
Qed.
Lemma zero_denotes b a : denotes (S754_zero b) a -> a = 0.
Proof. intros (_ & _ & H). simpl in H. pose proof unit64_pos. nia. Qed.
Lemma finite_opp s m e a : denotes (S754_finite s m e) a -> denotes (S754_finite (negb s) m e) (- a).
Proof. intros (V & F & S). split; [exact V|]. split; [done|]. simpl in *. destruct s; simpl in *; lia. Qed.
Lemma finite_sum sx mx ex sy my ey a b (op : Z -> Z -> Z) :
  (forall c, op a b * c = op (a * c) (b * c)) ->
  denotes (S754_finite sx mx ex) a -> denotes (S754_finite sy my ey) b -> Z.abs a < 2 ^ 53 -> Z.abs b < 2 ^ 53 -> Z.abs (op a b) < 2 ^ 53 ->
  let ez := Z.min ex ey in
  denotes (binary_normalize 53 1024 (op (cond_Zopp sx (Z.pos (fst (shl_align mx ex ez)))) (cond_Zopp sy (Z.pos (fst (shl_align my ey ez))))) ez false) (op a b).
Proof.
  intros Hop Hx Hy Ha Hb Hab ez. destruct (finite_integer _ _ _ _ Hx Ha) as [He _], (finite_integer _ _ _ _ Hy Hb) as [He' _].
  rewrite (aligned_value _ _ _ _ _ Hx), (aligned_value _ _ _ _ _ Hy) by (unfold ez; lia). rewrite <- Hop.
  pose proof (normalize_shifted (op a b) (Z.to_nat (- ez)) false Hab ltac:(unfold ez; lia)) as H. rewrite Z2Nat.id in H by (unfold ez; lia).
  replace (- - ez) with ez in H by lia. exact H.
Qed.
Lemma denotes_sub x y a b : denotes x a -> denotes y b -> Z.abs a < 2 ^ 53 -> Z.abs b < 2 ^ 53 -> Z.abs (a - b) < 2 ^ 53 -> denotes (f_sub x y) (a - b).
Proof.
  intros Hx Hy Ha Hb Hab. unfold f_sub. destruct x as [sx|sx| |sx mx ex]; try (by destruct Hx as (_ & [] & _)); destruct y as [sy|sy| |sy my ey]; try (by destruct Hy as (_ & [] & _)).
  - rewrite (zero_denotes _ _ Hx), (zero_denotes _ _ Hy). by destruct sx, sy.
  - rewrite (zero_denotes _ _ Hx). by apply finite_opp.
  - rewrite (zero_denotes _ _ Hy), Z.sub_0_r. done.
  - apply (finite_sum sx mx ex sy my ey a b Z.sub); try done. intros c. lia.
Qed.
Lemma denotes_add x y a b : denotes x a -> denotes y b -> Z.abs a < 2 ^ 53 -> Z.abs b < 2 ^ 53 -> Z.abs (a + b) < 2 ^ 53 -> denotes (f_add x y) (a + b).
Proof.
  intros Hx Hy Ha Hb Hab. unfold f_add. destruct x as [sx|sx| |sx mx ex]; try (by destruct Hx as (_ & [] & _)); destruct y as [sy|sy| |sy my ey]; try (by destruct Hy as (_ & [] & _)).
  - rewrite (zero_denotes _ _ Hx), (zero_denotes _ _ Hy). by destruct sx, sy.
  - by rewrite (zero_denotes _ _ Hx).
  - by rewrite (zero_denotes _ _ Hy), Z.add_0_r.
  - apply (finite_sum sx mx ex sy my ey a b Z.add); try done. intros c. lia.
Qed.
