(* ===== verification/TokenParts.v ===== *)
(** * The tokens an expression prices (service/tiered_settle.go)

    [BuildTieredTokenParams] takes the categories an expression prices by themselves out of
    the prompt and the completion. *)

From stdpp Require Import base tactics numbers list gmap strings.
From Stdlib Require Import ZArith Lia SpecFloat.
From S2P Require Import Prelude Float64 QuotaMath Task ToolPrice Cost CostSettle FloatSum.
Open Scope Z_scope.

Definition small (n : Z) : Prop := 0 <= n < 2 ^ 49.
Definition small_usage (u : Usage) : Prop :=
  small u.(us_PromptTokens) /\ small u.(us_CompletionTokens) /\ small u.(us_PromptTokensDetails).(it_CachedTokens) /\
  u.(us_PromptTokensDetails).(it_CachedCreationTokens) < 2 ^ 49 /\ u.(us_PromptTokensDetails).(it_CacheWriteTokens) < 2 ^ 49 /\
  small u.(us_ClaudeCacheCreation5mTokens) /\ small u.(us_ClaudeCacheCreation1hTokens) /\
  small u.(us_PromptTokensDetails).(it_ImageTokens) /\ small u.(us_PromptTokensDetails).(it_AudioTokens) /\
  small u.(us_CompletionTokenDetails).(ot_ImageTokens) /\ small u.(us_CompletionTokenDetails).(ot_AudioTokens).
(** The count of a category, if the expression prices it. *)
Definition own (used : string -> bool) (v : string) (n : Z) : Z := if used v then n else 0.

Lemma own_small used v n : small n -> 0 <= own used v n < 2 ^ 49.
Proof. unfold own, small. destruct (used v); lia. Qed.
Lemma less_denotes (used : string -> bool) v x y a b :
  denotes x a -> denotes y b -> Z.abs a < 2 ^ 52 -> small b -> denotes (if used v then f_sub x y else x) (a - own used v b).
Proof.
  intros Hx Hy Ha Hb. unfold own, small in *. destruct (used v); [|by rewrite Z.sub_0_r]. apply denotes_sub; try done; lia.
Qed.
Lemma floor_denotes x a : denotes x a -> denotes (if f_lt x f_zero then f_zero else x) (Z.max 0 a).
Proof. intros H. rewrite (denotes_sign x a H). destruct (Z.ltb_spec a 0); [rewrite Z.max_l by lia; apply denotes_zero|by rewrite Z.max_r by lia]. Qed.
Lemma creation_small d : d.(it_CachedCreationTokens) < 2 ^ 49 -> d.(it_CacheWriteTokens) < 2 ^ 49 -> small (CacheCreationTokensTotal d).
Proof. unfold CacheCreationTokensTotal, small. intros H1 H2. destruct (_ <? 0) eqn:E; lia. Qed.
Lemma small_denotes n : small n -> denotes (float64_of_int n) n.
Proof. unfold small. intros H. apply denotes_int. lia. Qed.

(** What the expression sees of the prompt and its parts. *)
Record prompt_parts := mkPromptParts { pp_cr : Z; pp_cc : Z; pp_cc1h : Z; pp_img : Z; pp_imgCR : Z; pp_ai : Z }.
Definition own_input (used : string -> bool) (s : prompt_parts) : Z :=
  own used "cr" s.(pp_cr) + own used "cc" s.(pp_cc) + own used "cc1h" s.(pp_cc1h) + own used "img" s.(pp_img) + own used "img_cr" s.(pp_imgCR) + own used "ai" s.(pp_ai).
Definition own_output (used : string -> bool) (imgO ao : Z) : Z := own used "img_o" imgO + own used "ao" ao.
(** The categories of a usage: [k] of the cached tokens are those of images. *)
Definition parts_split (u : Usage) (k : Z) : prompt_parts :=
  let i := u.(us_PromptTokensDetails) in
  let anthropic := String.eqb u.(us_UsageSemantic) "anthropic" in
  mkPromptParts (i.(it_CachedTokens) - k) (if anthropic then u.(us_ClaudeCacheCreation5mTokens) else CacheCreationTokensTotal i)
    (if anthropic then u.(us_ClaudeCacheCreation1hTokens) else 0) (i.(it_ImageTokens) - k) k i.(it_AudioTokens).
Definition parts_denote (q : TokenParams) (s : prompt_parts) : Prop :=
  denotes q.(tk_CR) s.(pp_cr) /\ denotes q.(tk_CC) s.(pp_cc) /\ denotes q.(tk_CC1h) s.(pp_cc1h) /\ denotes q.(tk_Img) s.(pp_img) /\
  denotes q.(tk_ImgCR) s.(pp_imgCR) /\ denotes q.(tk_AI) s.(pp_ai).

Definition parts_small (s : prompt_parts) : Prop :=
  small s.(pp_cr) /\ small s.(pp_cc) /\ small s.(pp_cc1h) /\ small s.(pp_img) /\ small s.(pp_imgCR) /\ small s.(pp_ai).
Lemma input_denotes used p cr cc cc1h img imgCR ai a s :
  denotes p a -> small a -> parts_small s -> denotes cr s.(pp_cr) -> denotes cc s.(pp_cc) -> denotes cc1h s.(pp_cc1h) -> denotes img s.(pp_img) ->
  denotes imgCR s.(pp_imgCR) -> denotes ai s.(pp_ai) ->
  let less v x y := if used v : bool then f_sub x y else x in
  let rest := less "ai"%string (less "img_cr"%string (less "img"%string (less "cc1h"%string (less "cc"%string (less "cr"%string p cr) cc) cc1h) img) imgCR) ai in
  denotes (if f_lt rest f_zero then f_zero else rest) (Z.max 0 (a - own_input used s)).
Proof.
  intros Hp Ha (S1 & S2 & S3 & S4 & S5 & S6) D1 D2 D3 D4 D5 D6 less rest. apply floor_denotes. unfold own_input.
  pose proof (own_small used "cr" _ S1). pose proof (own_small used "cc" _ S2). pose proof (own_small used "cc1h" _ S3).
  pose proof (own_small used "img" _ S4). pose proof (own_small used "img_cr" _ S5). pose proof (own_small used "ai" _ S6). unfold small in Ha.
  pose proof (less_denotes used "cr" _ _ _ _ Hp D1 ltac:(lia) S1) as E1. pose proof (less_denotes used "cc" _ _ _ _ E1 D2 ltac:(lia) S2) as E2.
  pose proof (less_denotes used "cc1h" _ _ _ _ E2 D3 ltac:(lia) S3) as E3. pose proof (less_denotes used "img" _ _ _ _ E3 D4 ltac:(lia) S4) as E4.
  pose proof (less_denotes used "img_cr" _ _ _ _ E4 D5 ltac:(lia) S5) as E5. pose proof (less_denotes used "ai" _ _ _ _ E5 D6 ltac:(lia) S6) as E6.
  eapply eq_ind; [exact E6|]. lia.
Qed.
Lemma output_denotes used c imgO ao a m n :
  denotes c a -> small a -> denotes imgO m -> denotes ao n -> small m -> small n ->
  let rest := if used "ao"%string : bool then f_sub (if used "img_o"%string : bool then f_sub c imgO else c) ao else (if used "img_o"%string : bool then f_sub c imgO else c) in
  denotes (if f_lt rest f_zero then f_zero else rest) (Z.max 0 (a - own_output used m n)).
Proof.
  intros Hc Ha Hm Hn Sm Sn rest. apply floor_denotes. unfold own_output. pose proof (own_small used "img_o" _ Sm). unfold small in Ha.
  pose proof (less_denotes used "img_o" _ _ _ _ Hc Hm ltac:(lia) Sm) as E1. pose proof (less_denotes used "ao" _ _ _ _ E1 Hn ltac:(lia) Sn) as E2.
  eapply eq_ind; [exact E2|]. lia.
Qed.
Lemma split_small u k : small_usage u -> 0 <= k <= u.(us_PromptTokensDetails).(it_CachedTokens) -> k <= u.(us_PromptTokensDetails).(it_ImageTokens) -> parts_small (parts_split u k).
Proof.
  intros (_ & _ & H3 & H4 & H5 & H6 & H7 & H8 & H9 & _) Hk Hi. pose proof (creation_small _ H4 H5). unfold parts_small, parts_split, small in *. simpl.
  destruct (String.eqb _ _); lia.
Qed.
Lemma split_denotes u k : parts_small (parts_split u k) -> let i := u.(us_PromptTokensDetails) in let anthropic := String.eqb u.(us_UsageSemantic) "anthropic" in
  denotes (if anthropic then float64_of_int u.(us_ClaudeCacheCreation5mTokens) else float64_of_int (CacheCreationTokensTotal i)) (pp_cc (parts_split u k)) /\
  denotes (if anthropic then float64_of_int u.(us_ClaudeCacheCreation1hTokens) else f_zero) (pp_cc1h (parts_split u k)) /\
  denotes (float64_of_int i.(it_AudioTokens)) (pp_ai (parts_split u k)).
Proof.
  intros (_ & S2 & S3 & _ & _ & S6) i anthropic. unfold parts_split in *. simpl in *. fold i anthropic in S2, S3, S6 |- *.
  destruct anthropic; split_and!; by apply small_denotes.
Qed.

(** The cached images, if they are priced and their count is consistent. *)
Definition image_cache (u : Usage) (used : string -> bool) : option float64 :=
  if used "img_cr"%string && negb false then
    match u.(us_PromptTokensDetails).(it_CachedTokensDetails) with
    | Some d => match d.(cd_ImageTokens) with
                | Some n => if valid_image_cache u d n then Some (float64_of_int n) else None
                | None => None
                end
    | None => None
    end
  else None.
(** How many of the cached tokens are those of images: the count the provider gives, if
    the expression prices them and the count is consistent with the other counts. *)
Definition cached_images (u : Usage) (used : string -> bool) : Z :=
  if used "img_cr"%string then
    match u.(us_PromptTokensDetails).(it_CachedTokensDetails) with
    | Some d => match d.(cd_ImageTokens) with Some n => if valid_image_cache u d n then n else 0 | None => 0 end
    | None => 0
    end
  else 0.
Lemma image_cache_cases u used : small_usage u ->
  (image_cache u used = None /\ cached_images u used = 0) \/
  exists k, image_cache u used = Some (float64_of_int k) /\ cached_images u used = k /\ used "img_cr"%string = true /\
    0 <= k <= u.(us_PromptTokensDetails).(it_CachedTokens) /\ k <= u.(us_PromptTokensDetails).(it_ImageTokens).
Proof.
  intros Hu. unfold image_cache, cached_images. destruct (used "img_cr"%string); [|by left]. simpl. destruct (it_CachedTokensDetails _) as [d|]; [|by left].
  destruct (cd_ImageTokens d) as [n|]; [|by left]. destruct (valid_image_cache u d n) eqn:E; [|by left]. right. exists n. split; [done|]. split; [done|]. split; [done|].
  unfold valid_image_cache in E. repeat (apply andb_prop in E as [E ?]). rewrite Z.leb_le in *. lia.
Qed.
Lemma small_zero : small 0.
Proof. by unfold small. Qed.

(** C19. The tokens an expression is given.  For a usage whose prompt counts its parts, the
    prompt that an expression sees is what remains when the parts it prices by themselves
    are taken out, so that where they fit into the prompt each of its tokens is seen once;
    where they exceed it (they may overlap), the remainder is nothing and the parts stay as
    reported.  The cached images, when the expression prices them and the provider's count
    is consistent, are taken out of the cached tokens and of the images alike, and not
    otherwise.  The same holds of the completion, and the length is the whole prompt.  For
    a usage that reports the cached tokens apart (Claude's), they are added to the prompt
    just if the expression has no price for them; the tokens that create a cache are given
    as they are, and are not priced by an expression that does not name them. *)
Theorem expression_token_split u used :
  small_usage u ->
  (let q := BuildTieredTokenParams u false used in
   let s := parts_split u (cached_images u used) in
   parts_denote q s /\ denotes q.(tk_Len) u.(us_PromptTokens) /\
   denotes q.(tk_P) (Z.max 0 (u.(us_PromptTokens) - own_input used s)) /\
   denotes q.(tk_C) (Z.max 0 (u.(us_CompletionTokens) -
     own_output used u.(us_CompletionTokenDetails).(ot_ImageTokens) u.(us_CompletionTokenDetails).(ot_AudioTokens)))) /\
  (let q := BuildTieredTokenParams u true used in
   let cached := u.(us_PromptTokensDetails).(it_CachedTokens) in
   parts_denote q (parts_split u 0) /\ denotes q.(tk_C) u.(us_CompletionTokens) /\
   denotes q.(tk_P) (u.(us_PromptTokens) + cached - own used "cr" cached) /\
   denotes q.(tk_Len) (u.(us_PromptTokens) + cached + pp_cc (parts_split u 0) + pp_cc1h (parts_split u 0))).
Proof.
  intros Hu. pose proof Hu as (H1 & H2 & H3 & _ & _ & _ & _ & H8 & _ & H10 & H11).
  pose proof (split_small u 0 Hu ltac:(unfold small in *; lia) ltac:(unfold small in *; lia)) as Hs0. split.
  - assert (exists k cr img imgCR, match image_cache u used with
        | Some n => (f_sub (float64_of_int u.(us_PromptTokensDetails).(it_CachedTokens)) n, f_sub (float64_of_int u.(us_PromptTokensDetails).(it_ImageTokens)) n, n)
        | None => (float64_of_int u.(us_PromptTokensDetails).(it_CachedTokens), float64_of_int u.(us_PromptTokensDetails).(it_ImageTokens), f_zero) end = (cr, img, imgCR) /\
      0 <= k <= u.(us_PromptTokensDetails).(it_CachedTokens) /\ k <= u.(us_PromptTokensDetails).(it_ImageTokens) /\ cached_images u used = k /\
      denotes cr (pp_cr (parts_split u k)) /\ denotes img (pp_img (parts_split u k)) /\ denotes imgCR k) as (k & cr & img & imgCR & Eimg & Hk & Hki & Hk0 & Dcr & Dimg & DCR).
    { destruct (image_cache_cases u used Hu) as [[-> E0]|(k & -> & E0 & Hused & Hk & Hki)].
      - exists 0. do 3 eexists. split; [done|]. unfold small in *. split; [lia|]. split; [lia|]. split; [done|]. unfold parts_split. simpl. rewrite !Z.sub_0_r.
        split_and!; [apply denotes_int; lia..|apply denotes_zero].
      - exists k. do 3 eexists. split; [done|]. split; [done|]. split; [done|]. split; [done|]. unfold parts_split, small in *. simpl.
        split_and!; [apply denotes_sub; try apply denotes_int; lia..|apply denotes_int; lia]. }
    pose proof (split_small u k Hu Hk Hki) as Hs. destruct (split_denotes u k Hs) as (Dcc & Dcc1h & Dai). rewrite Hk0. cbv zeta.
    unfold BuildTieredTokenParams. fold (image_cache u used). rewrite Eimg. cbn [tk_P tk_C tk_Len tk_CR tk_CC tk_CC1h tk_Img tk_ImgCR tk_AI].
    split; [by split_and!|]. split; [by apply small_denotes|]. split.
    + apply input_denotes; try done. by apply small_denotes.
    + by apply output_denotes; try apply small_denotes.
  - destruct (split_denotes u 0 Hs0) as (Dcc & Dcc1h & Dai). pose proof Hs0 as (_ & Sc & Sc1 & _). unfold BuildTieredTokenParams. rewrite andb_false_r.
    cbn [tk_P tk_C tk_Len tk_CR tk_CC tk_CC1h tk_Img tk_ImgCR tk_AI]. pose proof (small_denotes _ H1) as D1. pose proof (small_denotes _ H2) as D2. pose proof (small_denotes _ H3) as D3.
    assert (forall x a, denotes x a -> 0 <= a -> denotes (if f_lt x f_zero then f_zero else x) a) as Hfl.
    { intros x a Hx Ha. rewrite <- (Z.max_r 0 a) by lia. by apply floor_denotes. }
    unfold small in *. split; [|split; [apply Hfl; [done|lia]|split]].
    + unfold parts_denote. cbn [tk_CR tk_CC tk_CC1h tk_Img tk_ImgCR tk_AI]. split_and!; try done; unfold parts_split; simpl; rewrite ?Z.sub_0_r; by apply small_denotes.
    + apply Hfl; [|unfold own; destruct (used _); lia]. unfold own. destruct (used _); [replace (_ + _ - _) with (us_PromptTokens u) by lia; done|]. rewrite Z.sub_0_r. apply denotes_add; try done; lia.
    + repeat (apply denotes_add; try done; try lia).
Qed.
