(* ===== verification/PricingSamples.v ===== *)
(** * Expressions on concrete requests

    A small engine that satisfies the laws, an expression with a fixed price, and the
    settlement by expression for any engine. *)

From stdpp Require Import base tactics numbers list gmap strings.
From Stdlib Require Import ZArith Lia SpecFloat.
From S2P Require Import Prelude Float64 QuotaMath Task ToolPrice Cost CostSettle PricingExpr PricingLaws FloatSum TokenParts.
Open Scope Z_scope.

(** ** An engine *)

Definition demo_text : string :=
  "len > 1000 ? tier('long', p * 2) : tier('base', fixed(0.05)) * (param('quality') == 'hd' ? 2 : 1) * image_count".
Definition demo_tree : node :=
  ConditionalNode true (BinaryNode ">" (IdentifierNode "len") (IntegerNode 1000))
    (CallNode (IdentifierNode "tier") [StringNode "long"; BinaryNode "*" (IdentifierNode "p") (IntegerNode 2)])
    (BinaryNode "*"
       (BinaryNode "*" (CallNode (IdentifierNode "tier") [StringNode "base"; CallNode (IdentifierNode "fixed") [FloatNode (f_div f_one (float64_of_int 20))]])
          (ConditionalNode true (BinaryNode "==" (CallNode (IdentifierNode "param") [StringNode "quality"]) (StringNode "hd")) (IntegerNode 2) (IntegerNode 1)))
       (IdentifierNode "image_count")).

Fixpoint run_kids {S} (cs : list (comp S value)) : comp S value :=
  match cs with
  | [] => c_ret VNil
  | c :: cs => c_bind c (fun _ => run_kids cs)
  end.
Definition demo_binary (op : string) (x y : value) : option value :=
  if String.eqb op "*" then
    match to_float x, to_float y with Some a, Some b => Some (VFloat (f_mul a b)) | _, _ => None end
  else if String.eqb op ">" then
    match to_float x, to_float y with Some a, Some b => Some (VBool (f_gt a b)) | _, _ => None end
  else if String.eqb op "==" then
    match x, y with VStr a, VStr b => Some (VBool (String.eqb a b)) | _, _ => None end
  else None.
Definition demo_engine : ExprEngine := {|
  scope := unit;
  top := tt;
  op_local := fun _ _ => None;
  op_short := fun op v => match v with VBool b => if String.eqb op "&&" && negb b then Some v else None | _ => None end;
  op_binary := demo_binary;
  op_other := fun _ => run_kids;
  parser_Parse := fun s => if String.eqb s demo_text then Some demo_tree else None;
  expr_finish := Some
|}.
Lemma run_kids_related {S} R (cs ds : list (comp S value)) : Forall2 (related R) cs ds -> related R (run_kids cs) (run_kids ds).
Proof. induction 1 as [|c d cs ds Hc _ IH]; simpl; [apply related_ret|]. apply related_bind; [done|]. by intros _. Qed.
Lemma demo_laws : ExprLaws demo_engine.
Proof.
  split; simpl; try done.
  - intros v. by destruct v as [| |[]| | |].
  - intros x y a b Hx Hy _. unfold demo_binary. simpl. by rewrite Hx, Hy.
  - intros R k cs ds. apply run_kids_related.
  - intros n p env s t [= <-]. done.
  - intros n p f [= <-]. done.
Qed.
Definition no_tokens : TokenParams := mkTokenParams f_zero f_zero f_zero f_zero f_zero f_zero f_zero f_zero f_zero f_zero f_zero.
Definition hd_request (f : string) (vs : list value) : option value := if String.eqb f "param" then Some (VStr "hd") else None.
Definition demo_entry : cachedEntry :=
  match @compile demo_engine demo_text with Ok e => e | Err _ => mkEntry (StringNode "") (fun _ => false) [] [] 1 false end.

(** Three images at 0.05 in high quality. *)
Lemma fixed_pricing_one_leaf_witness :
  exists x t, @runProgram demo_engine demo_entry no_tokens (Some 3) hd_request = Some (x, t) /\
    t.(tc_BillingUnit) = BillingUnitRequest /\ int_of_float64 x = 300000 /\ exists l, l ∈ leaves demo_tree.
Proof.
  eexists _, _. split; [vm_compute; reflexivity|]. split; [reflexivity|]. split; [vm_compute; reflexivity|].
  edestruct (@fixed_pricing_one_leaf demo_engine demo_laws demo_text demo_entry demo_tree no_tokens (Some 3) hd_request) as (l & _ & _ & Hl & _).
  - vm_compute. reflexivity.
  - vm_compute. reflexivity.
  - vm_compute. reflexivity.
  - vm_compute. reflexivity.
  - exists l. exact Hl.
Defined.

(** Compiling the expression twice, once after an invalidation, with texts that do not parse
    in between. *)
Definition demo_ops : list cache_op := [OpCompile demo_text; OpCompile "p *"; OpInvalidate; OpCompile demo_text; OpCompile demo_text].
Lemma expression_cache_transparent_witness :
  length (@cache_run demo_engine id demo_ops ∅).1 = 4%nat /\
  let (rs, c) := @cache_run demo_engine id demo_ops ∅ in Forall (fun sr => sr.2 = @compile demo_engine sr.1) rs /\ Z.of_nat (size c) <= 256.
Proof. split; [vm_compute; reflexivity|]. apply (@expression_cache_transparent demo_engine id _ demo_ops). Defined.

(** 1000 tokens of which 400 are cached, 100 of them images, and 250 images. *)
Definition mixed_usage : Usage :=
  mkUsage 1000 200 1200 "" "" (mkInputDetails 400 (Some (mkCachedDetails (Some 300) (Some 100) None)) 0 0 0 0 250) (mkOutputDetails 0 0 0) 0 0 None.
Lemma mixed_small : small_usage mixed_usage.
Proof. unfold small_usage, small. simpl. lia. Qed.
Lemma expression_token_split_witness :
  cached_images mixed_usage (fun _ => true) = 100 /\ denotes (tk_P (BuildTieredTokenParams mixed_usage false (fun _ => true))) 450.
Proof.
  split; [reflexivity|].
  destruct (expression_token_split mixed_usage (fun _ => true) mixed_small) as [(_ & _ & HP & _) _]. exact HP.
Defined.

(** ** Settlement with the expressions *)

Section settlement.
Context {G : ExprEngine} {L : ExprLaws G}.
Variable funs : string -> list value -> option value.

Definition is_request (t : TraceResult) : bool := match t.(tc_BillingUnit) with BillingUnitRequest => true | BillingUnitToken => false end.
Definition expression_engine : TieredEngine := {|
  te_run := fun s params images =>
    match compile s with
    | Ok e => match runProgram e params images funs with Some (x, t) => Some (x, is_request t) | None => None end
    | Err _ => None
    end;
  te_used := fun s => match compile s with Ok e => e.(ce_usedVars) | Err _ => fun _ => false end;
  te_fixed := fun s => match compile s with Ok e => e.(ce_fixedPricing) | Err _ => false end
|}.

(** A request that is settled at a fixed price pays that price: the quota before the
    group is one of the amounts of the expression, in dollars, times its multipliers and
    the quota of a dollar, however many tokens the request had; and it is not negative. *)
Theorem fixed_price_settlement sn params images pre q tr tree :
  te_fixed (TieredEngine := expression_engine) sn.(sp_ExprString) = true ->
  parser_Parse (ParseExprVersion sn.(sp_ExprString)).2 = Some tree ->
  TryTieredSettle (H := expression_engine) (Some sn) images pre params = Some (q, Some tr) ->
  isFixedPriceSettlement (Some sn) (Some tr) = true ->
  exists amount count cost, FixedLeaf amount ∈ leaves tree /\ 1 <= count <= MaxImageN /\
    scaled (float64_of_int count) (f_mul amount million) cost /\ f_lt cost f_zero = false /\
    tr.(tr_Before) = f_mul (f_div cost million) sn.(sp_QuotaPerUnit) /\ q = QuotaRound (f_mul tr.(tr_Before) sn.(sp_GroupRatio)).
Proof.
  intros Hfix Hparse. unfold TryTieredSettle, ComputeTieredQuota. cbn [te_run te_fixed expression_engine] in *. rewrite Hfix, andb_true_r.
  destruct (negb sn.(sp_TieredExpr)); [done|]. destruct sn.(sp_TaskUsageBilling); [done|].
  destruct (compile sn.(sp_ExprString)) as [e|] eqn:Ee; [|done]. set (im := match images with Some _ => _ | None => _ end).
  destruct (runProgram e params im funs) as [[x t]|] eqn:Er; [|done].
  destruct (QuotaRoundChecked _) as [after clamp] eqn:Eq. intros [= <- <-] Hreq. simpl in *.
  destruct (compiled_run _ _ _ _ _ _ _ _ Ee Hfix Hparse Er) as (l & cost & count & t0 & Hin & Hok & Hrange & Hs & (_ & Hcost & Hl) & Ht0 & _).
  unfold is_request in Hreq. destruct l as [amount|price]; destruct Hl as (H1 & H2 & H3); [|by rewrite H1, Ht0 in Hreq]. rewrite H3 in Hs.
  exists amount, count, x. split_and!; try done; try lia; [apply (fixed_not_negative count amount); [lia|done|done]|]. unfold QuotaRound. by rewrite Eq.
Qed.
End settlement.

Definition demo_snapshot : TieredSnapshot := mkTiered true demo_text f_one None f_zero 0 true (float64_of_int 500000) false.
Lemma fixed_price_settlement_witness :
  exists q tr, TryTieredSettle (H := @expression_engine demo_engine hd_request) (Some demo_snapshot) (Some 3) 0 no_tokens = Some (q, Some tr) /\ q = 150000 /\
    exists amount, FixedLeaf amount ∈ leaves demo_tree.
Proof.
  eexists _, _. split; [vm_compute; reflexivity|]. split; [reflexivity|].
  edestruct (@fixed_price_settlement demo_engine demo_laws hd_request demo_snapshot no_tokens (Some 3) 0) as (amount & _ & _ & Hin & _);
    [vm_compute; reflexivity..|]. exists amount. exact Hin.
Defined.
