(* ===== verification/Price.v ===== *)
(** * The price of a request (setting/ratio_setting, setting/billing_setting, relay/helper/price.go)

    Which price a model has in the configuration, under which name it is looked up, what is
    reserved for a request before it is sent, and the price data that its settlement uses.
    The configuration is a record; how a model name splits into a base and modifiers
    (setting/reasoning) is a class. *)

From stdpp Require Import base tactics numbers list gmap strings.
From Stdlib Require Import ZArith Lia SpecFloat.
From S2P Require Import Prelude Float64 QuotaMath Task ToolPrice Cost CostSettle.
Open Scope Z_scope.

(** ** Ratios (setting/ratio_setting/model_ratio.go, cache_ratio.go) *)

Definition f_quot (a b : Z) : float64 := f_div (float64_of_int a) (float64_of_int b).
(** The ratio, and whether the operator cannot change it. *)
Definition getHardcodedCompletionModelRatio (name : string) : float64 * bool :=
  let pre := HasPrefix name in
  let named := String.eqb name in
  if HasSuffix name "-all" || HasSuffix name "-gizmo-*" then (float64_of_int 2, false)
  else if pre "gpt-" then
    if pre "gpt-4o" then
      if named "gpt-4o-2024-05-13" then (float64_of_int 3, true)
      else if pre "gpt-4o-mini-tts" then (float64_of_int 20, false)
      else (float64_of_int 4, false)
    else if pre "gpt-5" then (float64_of_int 6, false)
    else if pre "gpt-4.5-preview" then (float64_of_int 2, true)
    else if pre "gpt-4-turbo" || HasSuffix name "gpt-4-1106" || HasSuffix name "gpt-4-1105" then (float64_of_int 3, true)
    else (float64_of_int 2, false)
  else if pre "o1" || pre "o3" then (float64_of_int 4, true)
  else if named "chatgpt-4o-latest" then (float64_of_int 3, true)
  else if Contains name "claude-3" then (float64_of_int 5, true)
  else if Contains name "claude-sonnet-4" || Contains name "claude-opus-4" || Contains name "claude-haiku-4" then (float64_of_int 5, true)
  else if pre "gpt-3.5" then
    if named "gpt-3.5-turbo" || HasSuffix name "0125" then (float64_of_int 3, true)
    else if HasSuffix name "1106" then (float64_of_int 2, true)
    else (f_quot 4 3, true)
  else if pre "mistral-" then (float64_of_int 3, true)
  else if pre "gemini-" then
    if pre "gemini-1.5" then (float64_of_int 4, true)
    else if pre "gemini-2.0" then (float64_of_int 4, true)
    else if pre "gemini-2.5-pro" then (float64_of_int 8, false)
    else if pre "gemini-2.5-flash" then
      if pre "gemini-2.5-flash-preview" then (f_quot 70 3, false)
      else if pre "gemini-2.5-flash-lite" then (float64_of_int 4, false)
      else (f_quot 25 3, false)
    else if pre "gemini-robotics-er-1.5" then (f_quot 25 3, false)
    else if pre "gemini-3-pro" then
      if pre "gemini-3-pro-image" then (float64_of_int 60, false) else (float64_of_int 6, false)
    else (float64_of_int 4, false)
  else if pre "command" then
    if named "command-r" then (float64_of_int 3, true)
    else if named "command-r-plus" then (float64_of_int 5, true)
    else if named "command-r-08-2024" then (float64_of_int 4, true)
    else if named "command-r-plus-08-2024" then (float64_of_int 4, true)
    else (float64_of_int 4, false)
  else if pre "ERNIE-Speed-" then (float64_of_int 2, true)
  else if pre "ERNIE-Lite-" then (float64_of_int 2, true)
  else if pre "ERNIE-Character" then (float64_of_int 2, true)
  else if pre "ERNIE-Functions" then (float64_of_int 2, true)
  else if named "llama2-70b-4096" then (f_quot 5 4, true)
  else if named "llama3-8b-8192" then (float64_of_int 2, true)
  else if named "llama3-70b-8192" then (f_quot 79 59, true)
  else (f_one, false).
Definition ResolveCompletionRatio (name : string) (configured : option float64) : float64 * bool :=
  let name := FormatMatchingModelName name in
  match configured with
  | Some r => if Contains name "/" then (r, false)
              else let (hard, locked) := getHardcodedCompletionModelRatio name in if locked then (hard, true) else (r, false)
  | None => getHardcodedCompletionModelRatio name
  end.

(** The settings that prices depend on; [ps_Env] has the ratios of models and groups. *)
Record PriceSettings := mkPriceSettings {
  ps_Env : TaskEnv;
  ps_Price : gmap string float64;
  ps_DefaultPrice : gmap string float64;
  ps_Completion : gmap string float64;
  ps_Cache : gmap string float64;
  ps_CreateCache : gmap string float64;
  ps_Image : gmap string float64;
  ps_Audio : gmap string float64;
  ps_AudioCompletion : gmap string float64;
  ps_BillingMode : gmap string string;
  ps_BillingExpr : gmap string string;
  ps_BuiltinExpr : gmap string string;
  ps_FreePreConsume : bool;                (* EnableFreeModelPreConsume *)
  ps_PreConsumedQuota : Z;
  ps_QuotaPerUnit : float64
}.
Definition GetModelPrice (ps : PriceSettings) (name : string) : option float64 := ps.(ps_Price) !! FormatMatchingModelName name.
Definition HasConfiguredModelRatio (ps : PriceSettings) (name : string) : bool :=
  bool_decide (is_Some (ps.(ps_Env).(modelRatioMap) !! FormatMatchingModelName name)).
Definition GetCompletionRatio (ps : PriceSettings) (name : string) : float64 :=
  let name := FormatMatchingModelName name in (ResolveCompletionRatio name (ps.(ps_Completion) !! name)).1.
(** [DefaultCacheRatio] is 1, [DefaultCreateCacheRatio] 1.25 and [DefaultImageRatio] 1. *)
Definition GetCacheRatio (ps : PriceSettings) (name : string) : float64 := default f_one (ps.(ps_Cache) !! name).
Definition GetCreateCacheRatio (ps : PriceSettings) (name : string) : float64 := default (f_quot 5 4) (ps.(ps_CreateCache) !! name).
Definition GetImageRatio (ps : PriceSettings) (name : string) : float64 := default f_one (ps.(ps_Image) !! name).
Definition GetAudioRatio (ps : PriceSettings) (name : string) : float64 := default f_one (ps.(ps_Audio) !! FormatMatchingModelName name).
Definition GetAudioCompletionRatio (ps : PriceSettings) (name : string) : float64 := default f_one (ps.(ps_AudioCompletion) !! FormatMatchingModelName name).

(** ** Billing modes (setting/billing_setting/tiered_billing.go) *)

Definition BillingModeRatio : string := "ratio".
Definition BillingModeTieredExpr : string := "tiered_expr".
Definition GetBillingMode (ps : PriceSettings) (model : string) : string :=
  match ps.(ps_BillingMode) !! model with
  | Some mode => mode
  | None =>
      match ps.(ps_BuiltinExpr) !! model with
      | Some _ =>
          if HasConfiguredModelRatio ps model then BillingModeRatio
          else if bool_decide (is_Some (GetModelPrice ps model)) then BillingModeRatio
          else BillingModeTieredExpr
      | None => BillingModeRatio
      end
  end.
Definition GetBillingExpr (ps : PriceSettings) (model : string) : option string :=
  match ps.(ps_BillingExpr) !! model with
  | Some e => Some e
  | None => if String.eqb (GetBillingMode ps model) BillingModeTieredExpr then ps.(ps_BuiltinExpr) !! model else None
  end.

(** ** The name that is priced (relay/helper/price.go) *)

(** How a model name reads: whether it has explicit modifiers, its canonical names from the
    most specific on, and its base. *)
Class ModelNames := {
  mn_HasModifiers : string -> bool;
  CanonicalBillingModelNames : string -> list string;
  mn_Base : string -> string
}.
Definition HasPriceOrRatioEntry (ps : PriceSettings) (name : string) : bool :=
  let formatted := FormatMatchingModelName name in
  bool_decide (is_Some (GetModelPrice ps formatted)) || HasConfiguredModelRatio ps formatted || String.eqb (GetBillingMode ps formatted) BillingModeTieredExpr.
Definition billing_candidates `{!ModelNames} (origin : string) : list string :=
  (if mn_HasModifiers origin then [] else [origin]) ++ CanonicalBillingModelNames origin ++ [mn_Base origin].
(** Looking at a name twice finds the same, so the set of names seen is left out. *)
Fixpoint first_entry (ps : PriceSettings) (l : list string) : option string :=
  match l with
  | [] => None
  | name :: l => if String.eqb name "" then first_entry ps l else if HasPriceOrRatioEntry ps name then Some name else first_entry ps l
  end.
Definition resolveBillingModelName `{!ModelNames} (ps : PriceSettings) (origin : string) : string :=
  match first_entry ps (billing_candidates origin) with Some name => name | None => mn_Base origin end.

(** ** What is reserved *)

Record GroupRatioInfo := mkGroupRatioInfo { gi_GroupRatio : float64; gi_Special : option float64 }.
(** The group ratio of a request, and the group it is in. *)
Definition HandleGroupRatio (ps : PriceSettings) (userGroup usingGroup : string) (autoGroup : option string) : GroupRatioInfo * string :=
  let group := match autoGroup with Some g => g | None => usingGroup end in
  match GetGroupGroupRatio ps.(ps_Env) userGroup group with
  | Some r => (mkGroupRatioInfo r (Some r), group)
  | None => (mkGroupRatioInfo (GetGroupRatio ps.(ps_Env) group) None, group)
  end.

(** A request for images: its count, that of the provider's parameters, whether the channel
    is one of Ali, and whether the mapped model extends prompts. *)
Record ImageRequest := mkImageRequest { im_N : option Z; im_ParamN : option (option Z); im_Ali : bool; im_PromptExtend : bool }.
Definition MaxImageCount : Z := 128.
Definition ImageCount (r : ImageRequest) (useProvider : bool) : option Z :=
  let n := match r.(im_N) with Some n => if n =? 0 then 1 else n | None => 1 end in
  if MaxImageCount <? n then None
  else
    match r.(im_ParamN) with
    | Some (Some m) =>
        if (MaxImageCount <? m) || (useProvider && (m =? 0)) then None
        else Some (if useProvider then m else n)
    | _ => Some n
    end.
(** [AddOtherRatio] on a map, whose content is a list here. *)
Definition AddOtherRatio (key : string) (ratio : float64) (l : list (string * float64)) : list (string * float64) :=
  if negb (isValidOtherRatio ratio) then l
  else if existsb (fun kr => String.eqb kr.1 key) l then map (fun kr => if String.eqb kr.1 key then (key, ratio) else kr) l
  else l ++ [(key, ratio)].
Definition ApplyOtherRatiosToFloat (l : list (string * float64)) (value : float64) : float64 := f_mul value (OtherRatioMultiplier l).

Record PriceRequest := mkPriceRequest {
  pq_Model : string;
  pq_UserGroup : string;
  pq_UsingGroup : string;
  pq_AutoGroup : option string;
  pq_AcceptUnsetRatio : bool;
  pq_PromptTokens : Z;
  pq_MaxTokens : Z;
  pq_ImagePriceRatio : float64;
  pq_BillingRatios : list (string * float64);
  pq_Image : option ImageRequest;
  pq_Realtime : bool
}.
(** The price data with what the relay information keeps beside it. *)
Record PriceInfo := mkPriceInfo {
  pi_Price : PriceData;
  pi_FreeModel : bool;
  pi_QuotaToPreConsume : Z;
  pi_Quota : Z;
  pi_BillingModelName : string;
  pi_UsingGroup : string;
  pi_ImageQuotaBeforeGroup : option float64;
  pi_Snapshot : option TieredSnapshot
}.
Inductive PriceError :=
| ModelPriceNotConfigured (name : string)
| QuotaOutOfRange (c : QuotaClamp)
| InvalidImageCount
| NoExpression (name : string)
| FixedPricingRealtime
| ExpressionFailed.
Definition strict (r : result QuotaClamp Z) : result PriceError Z := match r with Ok q => Ok q | Err c => Err (QuotaOutOfRange c) end.
Definition is_zero (x : float64) : bool := SFeqb x f_zero.
Definition claudeCacheCreation1hMultiplier : float64 := f_quot 8 5.
Definition defaultTieredPreConsumeMaxTokens : Z := 8192.

Section helper.
Context `{!ModelNames, !TieredEngine}.
Variable ps : PriceSettings.

Definition modelPriceHelperTiered (rq : PriceRequest) (billing group : string) (gr : float64) : result PriceError PriceInfo :=
  match GetBillingExpr ps billing with
  | None => Err (NoExpression billing)
  | Some e =>
      if rq.(pq_Realtime) && te_fixed e then Err FixedPricingRealtime
      else
        let completion := if (rq.(pq_MaxTokens) =? 0) && negb (is_zero gr) then defaultTieredPreConsumeMaxTokens else rq.(pq_MaxTokens) in
        let uses := te_used e "image_count" in
        match (match rq.(pq_Image) with
               | Some r => if uses then match ImageCount r r.(im_Ali) with Some n => Ok (Some n) | None => Err InvalidImageCount end else Ok None
               | None => Ok None
               end) with
        | Err x => Err x
        | Ok images =>
            let prompt := float64_of_int rq.(pq_PromptTokens) in
            match te_run e (mkTokenParams prompt (float64_of_int completion) prompt f_zero f_zero f_zero f_zero f_zero f_zero f_zero f_zero) images with
            | None => Err ExpressionFailed
            | Some (cost, unit) =>
                let before := f_mul (f_div cost (float64_of_int 1000000)) ps.(ps_QuotaPerUnit) in
                match strict (QuotaRoundStrict (f_mul before gr)) with
                | Err x => Err x
                | Ok q =>
                    let free := negb ps.(ps_FreePreConsume) && is_zero gr in
                    let q := if free then 0 else q in
                    let snap := mkTiered true e gr (if uses then Some (default 1 images) else None) before q unit ps.(ps_QuotaPerUnit) false in
                    Ok (mkPriceInfo (mkPriceData f_zero f_zero f_zero f_zero f_zero f_zero f_zero f_zero f_zero f_zero [] false gr)
                          free q 0 billing group None (Some snap))
                end
            end
        end
  end.

(** The ratios a request adds: those of its parameters, the count and the extension of
    images. *)
Definition request_ratios (rq : PriceRequest) (usePrice : bool) : result PriceError (list (string * float64)) :=
  let l := if usePrice then foldl (fun l kr => AddOtherRatio kr.1 kr.2 l) [] rq.(pq_BillingRatios) else [] in
  match rq.(pq_Image) with
  | None => Ok l
  | Some r =>
      match ImageCount r r.(im_Ali) with
      | None => Err InvalidImageCount
      | Some n =>
          let l := if usePrice || r.(im_Ali) then AddOtherRatio "n" (float64_of_int n) l else l in
          Ok (if r.(im_Ali) && r.(im_PromptExtend) then AddOtherRatio "prompt_extend" (float64_of_int 2) l else l)
      end
  end.
Definition is_free (gr : float64) (price : option float64) (modelRatio : float64) : bool :=
  negb ps.(ps_FreePreConsume) && (is_zero gr || match price with Some p => is_zero p | None => is_zero modelRatio end).

(** A model with a price per call. *)
Definition price_by_call (rq : PriceRequest) (billing group : string) (gr p : float64) : result PriceError PriceInfo :=
  let p := if is_zero rq.(pq_ImagePriceRatio) then p else f_mul p rq.(pq_ImagePriceRatio) in
  match request_ratios rq true with
  | Err x => Err x
  | Ok others =>
      match strict (QuotaFromFloatStrict (ApplyOtherRatiosToFloat others (f_mul (f_mul p ps.(ps_QuotaPerUnit)) gr))) with
      | Err x => Err x
      | Ok q =>
          Ok (mkPriceInfo (mkPriceData p f_zero f_zero f_zero f_zero f_zero f_zero f_zero f_zero f_zero others true gr) (is_free gr (Some p) f_zero) q 0 billing group
                (match rq.(pq_Image) with Some _ => Some (f_mul p ps.(ps_QuotaPerUnit)) | None => None end) None)
      end
  end.
(** A model with a ratio; the price of a call is -1. *)
Definition price_by_ratio (rq : PriceRequest) (billing group : string) (gr : float64) : result PriceError PriceInfo :=
  let tokens := Z.max rq.(pq_PromptTokens) ps.(ps_PreConsumedQuota) in
  let tokens := if rq.(pq_MaxTokens) =? 0 then tokens else tokens +! rq.(pq_MaxTokens) in
  let '(ratio, success) := GetModelRatio ps.(ps_Env) billing in
  if negb success && negb rq.(pq_AcceptUnsetRatio) then Err (ModelPriceNotConfigured (FormatMatchingModelName billing))
  else
    let create := GetCreateCacheRatio ps billing in
    match strict (QuotaFromFloatStrict (f_mul (float64_of_int tokens) (f_mul ratio gr))) with
    | Err x => Err x
    | Ok q =>
        let q := if is_free gr None ratio then 0 else q in
        let before := f_mul (float64_of_int tokens) ratio in
        match request_ratios rq false with
        | Err x => Err x
        | Ok others =>
            match (match rq.(pq_Image) with Some _ => strict (QuotaFromFloatStrict (ApplyOtherRatiosToFloat others (f_mul before gr))) | None => Ok q end) with
            | Err x => Err x
            | Ok q =>
                Ok (mkPriceInfo (mkPriceData (float64_of_int (-1)) ratio (GetCompletionRatio ps billing) (GetCacheRatio ps billing) create create
                                   (f_mul create claudeCacheCreation1hMultiplier) (GetImageRatio ps billing) (GetAudioRatio ps billing)
                                   (GetAudioCompletionRatio ps billing) others false gr)
                      (is_free gr None ratio) q 0 billing group (match rq.(pq_Image) with Some _ => Some before | None => None end) None)
            end
        end
    end.
Definition ModelPriceHelper (rq : PriceRequest) : result PriceError PriceInfo :=
  let matched := resolveBillingModelName ps rq.(pq_Model) in
  let billing := if String.eqb matched "" || String.eqb matched rq.(pq_Model) then rq.(pq_Model) else matched in
  let (gi, group) := HandleGroupRatio ps rq.(pq_UserGroup) rq.(pq_UsingGroup) rq.(pq_AutoGroup) in
  if String.eqb (GetBillingMode ps billing) BillingModeTieredExpr then modelPriceHelperTiered rq billing group gi.(gi_GroupRatio)
  else
    match GetModelPrice ps billing with
    | Some p => price_by_call rq billing group gi.(gi_GroupRatio) p
    | None => price_by_ratio rq billing group gi.(gi_GroupRatio)
    end.

(** Tasks and drawings: the price of a call, or half the ratio of the model. *)
Definition ModelPriceHelperPerCall (rq : PriceRequest) : result PriceError PriceInfo :=
  let model := rq.(pq_Model) in
  let (gi, group) := HandleGroupRatio ps rq.(pq_UserGroup) rq.(pq_UsingGroup) rq.(pq_AutoGroup) in
  let gr := gi.(gi_GroupRatio) in
  let price := match GetModelPrice ps model with Some p => Some p | None => ps.(ps_DefaultPrice) !! model end in
  let '(ratio, success) := match price with Some _ => (f_zero, true) | None => GetModelRatio ps.(ps_Env) model end in
  if negb success && negb rq.(pq_AcceptUnsetRatio) then Err (ModelPriceNotConfigured (FormatMatchingModelName model))
  else
    let value := match price with
                 | Some p => f_mul (f_mul p ps.(ps_QuotaPerUnit)) gr
                 | None => f_mul (f_mul (f_div ratio (float64_of_int 2)) ps.(ps_QuotaPerUnit)) gr
                 end in
    match strict (QuotaFromFloatStrict value) with
    | Err x => Err x
    | Ok q =>
        let free := is_free gr price ratio in
        Ok (mkPriceInfo (mkPriceData (default (float64_of_int (-1)) price) ratio f_zero f_zero f_zero f_zero f_zero f_zero f_zero f_zero []
                           (bool_decide (is_Some price)) gr) free 0 (if free then 0 else q) model group None None)
    end.
Definition HasModelBillingConfig (model : string) : bool :=
  if bool_decide (is_Some (GetModelPrice ps model)) then true
  else if (GetModelRatio ps.(ps_Env) model).2 then true
  else if negb (String.eqb (GetBillingMode ps model) BillingModeTieredExpr) then false
  else match GetBillingExpr ps model with Some e => negb (String.eqb (TrimSpace e) "") | None => false end.
End helper.
