(* ===== verification/PriceLaws.v ===== *)
(** * What the configuration charges (relay/helper/price.go with service/text_quota.go) *)

From stdpp Require Import base tactics numbers list gmap strings.
From Stdlib Require Import ZArith Lia SpecFloat QArith.
From S2P Require Import Prelude Float64 QuotaMath DecimalQ DecimalOrder Task ToolPrice Cost CostSettle CostLaws CostCharge Price.
Open Scope Z_scope.

(** ** Names *)

Definition wildcards : list string :=
  ["gemini-2.5-flash-lite-thinking-*"; "gemini-2.5-flash-thinking-*"; "gemini-2.5-pro-thinking-*"; "gpt-4-gizmo-*"; "gpt-4o-gizmo-*"]%string.
Lemma FormatMatchingModelName_cases name : FormatMatchingModelName name = name \/ FormatMatchingModelName name ∈ wildcards.
Proof.
  unfold FormatMatchingModelName, handleThinkingBudgetModel.
  repeat match goal with |- context [if ?b then _ else _] => destruct b end; try (by left); right; unfold wildcards; repeat (first [left|right]).
Qed.
Lemma FormatMatchingModelName_idempotent name : FormatMatchingModelName (FormatMatchingModelName name) = FormatMatchingModelName name.
Proof.
  destruct (FormatMatchingModelName_cases name) as [E|H]; [by rewrite !E|]. revert H. generalize (FormatMatchingModelName name). intros w.
  unfold wildcards. rewrite !elem_of_cons, elem_of_nil. intros H. repeat destruct H as [->|H]; done.
Qed.

Lemma HasPrefix_split p s : HasPrefix s p = true -> exists r, s = p +:+ r.
Proof.
  revert s. induction p as [|c p IH]; intros s; [by exists s|]. destruct s as [|d s]; [done|]. simpl. intros H.
  apply andb_prop in H as [H1 H2]. apply bool_decide_eq_true in H1 as ->. destruct (IH s H2) as [r ->]. by exists r.
Qed.
(** The ratio of a GPT-3.5 model: the branch for them comes after the one for every name
    that starts with "gpt-", so none of its ratios is ever used. *)
Theorem gpt35_ratio_shadowed name :
  HasPrefix name "gpt-3.5" = true -> HasSuffix name "gpt-4-1106" = false -> HasSuffix name "gpt-4-1105" = false ->
  getHardcodedCompletionModelRatio name = (float64_of_int 2, false).
Proof.
  intros H H1 H2. destruct (HasPrefix_split _ _ H) as [r ->]. unfold getHardcodedCompletionModelRatio. rewrite H1, H2.
  destruct (_ || _); [done|]. simpl. done.
Qed.

Section names.
Context `{!ModelNames}.
(** A model is priced under the first of its names that has a price, a ratio or an
    expression, from the name of the request over the canonical names to the base. *)
Lemma first_entry_spec ps l :
  match first_entry ps l with
  | Some name => exists l1 l2, l = l1 ++ name :: l2 /\ name <> ""%string /\ HasPriceOrRatioEntry ps name = true /\
                   forall n, n ∈ l1 -> n = ""%string \/ HasPriceOrRatioEntry ps n = false
  | None => forall n, n ∈ l -> n = ""%string \/ HasPriceOrRatioEntry ps n = false
  end.
Proof.
  induction l as [|n l IH]; simpl; [intros n Hn; by apply elem_of_nil in Hn|]. destruct (String.eqb_spec n "") as [->|Hne].
  - destruct (first_entry ps l) as [m|].
    + destruct IH as (l1 & l2 & -> & H1 & H2 & H3). exists (""%string :: l1), l2. split_and!; try done. intros k [->|Hk]%elem_of_cons; [by left|auto].
    + intros k [->|Hk]%elem_of_cons; [by left|auto].
  - destruct (HasPriceOrRatioEntry ps n) eqn:E.
    + exists [], l. split_and!; try done. intros k Hk. by apply elem_of_nil in Hk.
    + destruct (first_entry ps l) as [m|].
      * destruct IH as (l1 & l2 & -> & H1 & H2 & H3). exists (n :: l1), l2. split_and!; try done. intros k [->|Hk]%elem_of_cons; [by right|auto].
      * intros k [->|Hk]%elem_of_cons; [by right|auto].
Qed.
Theorem billing_name_most_specific ps origin :
  let name := resolveBillingModelName ps origin in
  (exists l1 l2, billing_candidates origin = l1 ++ name :: l2 /\ HasPriceOrRatioEntry ps name = true /\
     forall n, n ∈ l1 -> n = ""%string \/ HasPriceOrRatioEntry ps n = false) \/
  (name = mn_Base origin /\ forall n, n ∈ billing_candidates origin -> n = ""%string \/ HasPriceOrRatioEntry ps n = false).
Proof.
  unfold resolveBillingModelName. pose proof (first_entry_spec ps (billing_candidates origin)) as Hf.
  destruct (first_entry ps _) as [name|]; [left|by right]. destruct Hf as (l1 & l2 & H1 & _ & H2 & H3). by exists l1, l2.
Qed.
End names.

(** ** Free models *)

(** A product with a zero. *)
Definition null (x : float64) : Prop := match x with S754_zero _ | S754_nan => True | _ => False end.
Lemma is_zero_null x : is_zero x = true -> null x.
Proof. by destruct x as [[]|[]| |[] m e]. Qed.
Lemma null_mul_l x y : null x -> null (f_mul x y).
Proof. by destruct x as [[]|[]| |[] m e], y as [[]|[]| |[] m' e']. Qed.
Lemma null_mul_r x y : null y -> null (f_mul x y).
Proof. by destruct x as [[]|[]| |[] m e], y as [[]|[]| |[] m' e']. Qed.
Lemma null_quota x q : null x -> strict (QuotaFromFloatStrict x) = Ok q -> q = 0.
Proof. destruct x as [[]|[]| |[] m e]; try done; intros _ [= <-]; reflexivity. Qed.
Lemma is_zero_sv x : is_zero x = true -> is_fin x /\ sv x = 0.
Proof. by destruct x as [[]|[]| |[] m e]. Qed.

Section free.
Context `{!ModelNames, !TieredEngine}.
Context {D : Decimal} {L : DecimalLaws D} {O : DecimalOps D} {V : DecimalValue D L O}.
Variable ps : PriceSettings.

(** The three ways to a price. *)
Lemma helper_inv mr info : ModelPriceHelper ps mr = Ok info ->
  (is_Some info.(pi_Snapshot) /\ pd_UsePrice info.(pi_Price) = false) \/ exists billing group gr,
  price_by_ratio ps mr billing group gr = Ok info \/ exists p, price_by_call ps mr billing group gr p = Ok info.
Proof.
  unfold ModelPriceHelper. destruct (HandleGroupRatio _ _ _ _) as [gi group]. destruct (String.eqb _ BillingModeTieredExpr).
  - unfold modelPriceHelperTiered. destruct (GetBillingExpr _ _); [|done]. destruct (_ && te_fixed _); [done|]. destruct (match mr.(pq_Image) with Some _ => _ | None => _ end); [|done].
    destruct (te_run _ _ _) as [[cost unit]|]; [|done]. destruct (strict _); [|done]. intros [= <-]. left. by split; [eexists|].
  - destruct (GetModelPrice ps _) as [p|]; intros Heq; right; do 3 eexists; [right; by exists p|by left].
Qed.
(** Why a request is free. *)
Lemma helper_free mr info :
  ModelPriceHelper ps mr = Ok info -> info.(pi_Snapshot) = None -> info.(pi_FreeModel) = true ->
  info.(pi_QuotaToPreConsume) = 0 /\
  (is_zero info.(pi_Price).(pd_GroupRatio) = true \/
   if info.(pi_Price).(pd_UsePrice) then is_zero info.(pi_Price).(pd_ModelPrice) = true else is_zero info.(pi_Price).(pd_ModelRatio) = true).
Proof.
  intros Hh Hn. apply helper_inv in Hh as [[[sn Hs] _]|(billing & group & gr & [Hh|[p Hh]])]; [by rewrite Hn in Hs| |]; clear Hn.
  - revert Hh. unfold price_by_ratio. destruct (GetModelRatio _ _) as [ratio success]. destruct (negb success && _); [done|]. destruct (strict _) as [q|]; [|done].
    destruct (request_ratios _ _) as [others|]; [|done]. destruct (match mr.(pq_Image) with Some _ => _ | None => _ end) as [q'|] eqn:Eq; [|done]. intros [= <-] Hfree.
    simpl in *. pose proof Hfree as Hz. unfold is_free in Hz. apply andb_prop in Hz as [_ Hz]. apply orb_prop in Hz. split; [|done].
    destruct mr.(pq_Image); [|rewrite Hfree in Eq; by injection Eq]. eapply null_quota; [|exact Eq]. unfold ApplyOtherRatiosToFloat. apply null_mul_l.
    destruct Hz as [Hz|Hz]; [apply null_mul_r|apply null_mul_l, null_mul_r]; by apply is_zero_null.
  - revert Hh. unfold price_by_call. set (p' := if is_zero _ then _ else _). destruct (request_ratios _ _) as [others|]; [|done]. destruct (strict _) as [q|] eqn:Eq; [|done]. intros [= <-] Hfree.
    simpl in *. unfold is_free in Hfree. apply andb_prop in Hfree as [_ Hz]. apply orb_prop in Hz. split; [|done]. eapply null_quota; [|exact Eq].
    unfold ApplyOtherRatiosToFloat. apply null_mul_l. destruct Hz as [Hz|Hz]; [apply null_mul_r|do 2 apply null_mul_l]; by apply is_zero_null.
Qed.
Lemma helper_call_ratio mr info : ModelPriceHelper ps mr = Ok info -> pd_UsePrice info.(pi_Price) = true -> pd_ModelRatio info.(pi_Price) = f_zero.
Proof.
  intros Hh Hu. apply helper_inv in Hh as [[_ Hs]|(billing & group & gr & [Hh|[p Hh]])]; [congruence| |]; revert Hh Hu.
  - unfold price_by_ratio. destruct (GetModelRatio _ _). destruct (negb _ && _); [done|]. destruct (strict _); [|done].
    destruct (request_ratios _ _); [|done]. destruct (match mr.(pq_Image) with Some _ => _ | None => _ end); [|done]. by intros [= <-].
  - unfold price_by_call. destruct (request_ratios _ _); [|done]. destruct (strict _); [|done]. by intros [= <-].
Qed.
Lemma zero_value x : is_zero x = true -> (val (NewFromFloat x) == 0)%Q.
Proof. intros Hz. apply is_zero_sv in Hz as [Hf Hs]. apply (val_float_int x 0); [done|lia|lia]. Qed.

Lemma summary_audio idx qpu rq usage : (summary_of idx qpu rq usage).(sm_AudioTokens) = (usage_of rq usage).(us_PromptTokensDetails).(it_AudioTokens).
Proof. unfold summary_of, summarize. by repeat match goal with |- context [let '(_, _) := ?x in _] => destruct x end. Qed.

(** A model the configuration makes free is free: if the price data of a request says so,
    nothing is reserved for the request and its settlement charges nothing, whatever its
    usage, unless it called tools that are charged or had audio that is priced apart. *)
Theorem free_models_cost_nothing idx qpu mr info rq usage :
  ModelPriceHelper ps mr = Ok info -> info.(pi_Snapshot) = None -> info.(pi_FreeModel) = true ->
  rq.(rq_PriceData) = info.(pi_Price) -> counts_ok (usage_of rq usage) -> tool_items idx rq = [] ->
  (usage_of rq usage).(us_PromptTokensDetails).(it_AudioTokens) = 0 ->
  info.(pi_QuotaToPreConsume) = 0 /\ quota_of idx qpu rq usage = 0.
Proof.
  intros Hh Hsn Hfree Hpd Hu Htools Haudio. destruct (helper_free _ _ Hh Hsn Hfree) as [Hq Hwhy]. split; [done|]. rewrite <- Hpd in Hwhy.
  assert (val (summary_of idx qpu rq usage).(sm_Surcharge) == 0)%Q as Hsur.
  { rewrite summary_surcharge. unfold calculateTextToolCallSurcharge. rewrite Htools. simpl. apply val_zero. }
  assert (pd_UsePrice rq.(rq_PriceData) = true -> pd_ModelRatio rq.(rq_PriceData) = f_zero) as Hcall.
  { rewrite Hpd. by eapply helper_call_ratio. }
  assert (val (ratio_of rq.(rq_PriceData)) == 0)%Q as Hratio.
  { unfold ratio_of. rewrite val_mul. destruct Hwhy as [Hz|Hz]; [rewrite (zero_value _ Hz); ring|]. destruct (pd_UsePrice _) eqn:Eu.
    - rewrite Hcall by done. rewrite (zero_value f_zero) by done. ring.
    - rewrite (zero_value _ Hz). ring. }
  assert (val (cost_of idx qpu rq usage) == 0)%Q as Hcost.
  { unfold cost_of. destruct (pd_UsePrice _) eqn:Eu.
    - rewrite call_cost_val, Hsur. destruct Hwhy as [Hz|Hz]; rewrite (zero_value _ Hz); ring.
    - rewrite (cost_val _ _ _ _ (summary_counted _ _ _ _ Hu)). replace (d_IsZero (ratio_of _)) with true by (rewrite val_IsZero; symmetry; by apply Qeq_bool_iff).
      simpl. unfold raw_cost. cbv zeta. rewrite Hratio, Hsur. unfold audio_cost, audio_quota. rewrite summary_audio, Haudio. simpl. ring. }
  rewrite quota_of_eq, (QuotaFromDecimal_zero _ Hcost). unfold free_ratio. replace (d_IsZero (ratio_of _)) with true by (rewrite val_IsZero; symmetry; by apply Qeq_bool_iff).
  by destruct (negb _).
Qed.
End free.

(** ** A free group *)

Definition demo_names : ModelNames := {| mn_HasModifiers := fun _ => false; CanonicalBillingModelNames := fun _ => []; mn_Base := fun s => s |}.
Definition demo_settings : PriceSettings :=
  mkPriceSettings (mkTaskEnv true 0 0 "" false {["model-a"%string := float64_of_int 2]} {["free"%string := f_zero]} ∅) ∅ ∅ ∅ ∅ ∅ ∅ ∅ ∅ ∅ ∅ ∅ false 500 (float64_of_int 500000).
Definition demo_price_request (group : string) : PriceRequest := mkPriceRequest "model-a" "default" group None false 100 50 f_zero [] None false.
Definition no_tiers : TieredEngine := {| te_run := fun _ _ _ => None; te_used := fun _ _ => false; te_fixed := fun _ => false |}.
Definition demo_free : PriceInfo :=
  match @ModelPriceHelper demo_names no_tiers demo_settings (demo_price_request "free") with
  | Ok i => i
  | Err _ => mkPriceInfo (mkPriceData f_one f_one f_one f_one f_one f_one f_one f_one f_one f_one [] false f_one) false 0 0 "" "" None None
  end.
Definition demo_text_request : TextRequest := mkTextRequest "model-a" false false 0 false [] 0 false None demo_free.(pi_Price).
Definition demo_usage : Usage := estimated_usage 100 20 120.
Lemma free_models_cost_nothing_witness :
  pi_QuotaToPreConsume demo_free = 0 /\ quota_of (D := QDecimal) (O := QDecimalOps) (mkToolPriceIndex ∅ ∅) (float64_of_int 500000) demo_text_request (Some demo_usage) = 0.
Proof.
  apply (@free_models_cost_nothing demo_names no_tiers QDecimal QDecimalLaws QDecimalOps QDecimalValue demo_settings (mkToolPriceIndex ∅ ∅) (float64_of_int 500000)
    (demo_price_request "free") demo_free demo_text_request (Some demo_usage)); try (vm_compute; reflexivity).
  unfold counts_ok, usage_of. simpl. unfold MaxInt64. lia.
Defined.
