(* ===== verification/RedisLimit.v ===== *)
(** * Rate limits (middleware/rate-limit.go, middleware/model-rate-limit.go, common/limiter)

    The limits of requests per address or user in fixed windows, and those of model
    requests per user, in Redis and in memory.  Redis runs a Lua script atomically; its
    clock is in milliseconds.  [up]: Redis answers the call. *)

From stdpp Require Import base tactics numbers list gmap strings pretty.
From Stdlib Require Import ZArith Lia.
From S2P Require Import Prelude RateLimit.
Open Scope Z_scope.

(** Counters and lists with the time they expire at, and buckets of tokens with the second
    they were last filled. *)
Record LimitStore := mkLimitStore {
  ls_counters : gmap string (Z * option Z);
  ls_buckets : gmap string (Z * Z);
  ls_lists : gmap string (list Z * option Z)
}.
Definition no_limits : LimitStore := mkLimitStore ∅ ∅ ∅.
Definition set_counter (key : string) (c : Z * option Z) (s : LimitStore) : LimitStore :=
  mkLimitStore (<[key := c]> s.(ls_counters)) s.(ls_buckets) s.(ls_lists).
Definition set_bucket (key : string) (b : Z * Z) (s : LimitStore) : LimitStore :=
  mkLimitStore s.(ls_counters) (<[key := b]> s.(ls_buckets)) s.(ls_lists).
Definition set_list (key : string) (l : list Z * option Z) (s : LimitStore) : LimitStore :=
  mkLimitStore s.(ls_counters) s.(ls_buckets) (<[key := l]> s.(ls_lists)).
(** What a lookup finds: a key that has expired is gone. *)
Definition live {A} (now : Z) (e : option (A * option Z)) : option (A * option Z) :=
  match e with
  | Some (a, Some t) => if now <? t then Some (a, Some t) else None
  | e => e
  end.

(** ** Fixed windows *)

(** [INCR] keeps the expiry of the key; [TTL] is -1 without one. *)
Definition ttl_of (now : Z) (e : option Z) : Z := match e with Some t => (t - now + 500) / 1000 | None => -1 end.
Definition redisFixedWindowScript (key : string) (max duration now : Z) (s : LimitStore) : (bool * Z * Z) * LimitStore :=
  let '(count, expiry) := match live now (s.(ls_counters) !! key) with Some (n, e) => (n + 1, e) | None => (1, None) end in
  let expiry := if count =? 1 then Some (now + duration * 1000) else expiry in
  let expiry := if ttl_of now expiry <? 0 then Some (now + duration * 1000) else expiry in
  ((negb (max <? count), count, ttl_of now expiry), set_counter key (count, expiry) s).
Definition redisFixedWindowTake (up : bool) (key : string) (max duration now : Z) (s : LimitStore) : option (bool * Z * Z) * LimitStore :=
  if String.eqb key "" then (None, s)
  else if max <=? 0 then (None, s)
  else if duration <=? 0 then (None, s)
  else if negb up then (None, s)
  else let (r, s) := redisFixedWindowScript key max duration now s in (Some r, s).

(** What a middleware decides: to go on, or a status with a [Retry-After]. *)
Inductive decision := Pass | TooManyRequests (retryAfter : option Z) | Unauthorized | ServerError.
Definition writeRateLimited (retryAfter : Z) : decision := TooManyRequests (if 0 <? retryAfter then Some retryAfter else None).
Definition redisIPRateLimitKey (mark ip : string) : string := "rateLimit:v2:ip:" +:+ mark +:+ ":" +:+ ip.
Definition redisUserRateLimitKey (mark : string) (user : Z) : string := "rateLimit:v2:user:" +:+ mark +:+ ":" +:+ pretty user.
Definition userRedisRateLimiter (up : bool) (max duration : Z) (key : string) (now : Z) (s : LimitStore) : decision * LimitStore :=
  match redisFixedWindowTake up key max duration now s with
  | (None, s) => (ServerError, s)
  | (Some (allowed, _, ttl), s) => (if allowed then Pass else writeRateLimited ttl, s)
  end.
Definition redisRateLimiter (up : bool) (max duration : Z) (mark ip : string) (now : Z) (s : LimitStore) : decision * LimitStore :=
  userRedisRateLimiter up max duration (redisIPRateLimitKey mark ip) now s.
(** In memory; [None]: a run-time panic.  The clock is in seconds. *)
Definition memoryRateLimiter (max duration : Z) (mark ip : string) (now : Z) (st : Store) : option (decision * Store) :=
  match Request (mark +:+ ip) max duration now st with
  | Some (ok, st) => Some (if ok then Pass else writeRateLimited duration, st)
  | None => None
  end.
Definition userRateLimitRedis (up : bool) (max duration : Z) (mark : string) (user now : Z) (s : LimitStore) : decision * LimitStore :=
  if user =? 0 then (Unauthorized, s) else userRedisRateLimiter up max duration (redisUserRateLimitKey mark user) now s.
Definition userRateLimitMemory (max duration : Z) (mark : string) (user now : Z) (st : Store) : option (decision * Store) :=
  if user =? 0 then Some (Unauthorized, st)
  else match Request (mark +:+ ":user:" +:+ pretty user) max duration now st with
       | Some (ok, st) => Some (if ok then Pass else writeRateLimited duration, st)
       | None => None
       end.

(** ** A bucket of tokens (common/limiter/lua/rate_limit.lua) *)

Definition rate_limit_script (key : string) (requested rate capacity now : Z) (s : LimitStore) : bool * LimitStore :=
  let sec := now / 1000 in
  let tokens := match s.(ls_buckets) !! key with
                | Some (tokens, last_time) => Z.min capacity (tokens + (sec - last_time) * rate)
                | None => capacity
                end in
  if requested <=? tokens then (true, set_bucket key (tokens - requested, sec) s) else (false, set_bucket key (tokens, sec) s).
Definition Allow (up : bool) (key : string) (requested rate capacity now : Z) (s : LimitStore) : option bool * LimitStore :=
  if negb up then (None, s) else let (b, s) := rate_limit_script key requested rate capacity now s in (Some b, s).

(** ** Model requests *)

Definition rateLimitDurationSeconds (minutes : Z) : Z :=
  if minutes <=? 0 then 0 else if MaxInt64 / 60 <? minutes then MaxInt64 else minutes * 60.
Definition rateLimitCapacity (count duration : Z) : Z :=
  if (count <=? 0) || (duration <=? 0) then 0 else if MaxInt64 / duration <? count then MaxInt64 else count * duration.

(** The times of the last successes, newest first.  A list that cannot be read fails the
    check. *)
Definition checkRedisRateLimit (up : bool) (key : string) (max duration minutes now : Z) (s : LimitStore) : option bool * LimitStore :=
  if max =? 0 then (Some true, s)
  else if negb up then (None, s)
  else
    let l := match live now (s.(ls_lists) !! key) with Some (l, _) => l | None => [] end in
    if Z.of_nat (length l) <? max then (Some true, s)
    else match last l with
         | None => (None, s)
         | Some old =>
             if Z.quot (now - old) 1000 <? duration then (Some false, set_list key (l, Some (now + minutes * 60000)) s)
             else (Some true, s)
         end.
Definition recordRedisRequest (up : bool) (key : string) (max minutes now : Z) (s : LimitStore) : LimitStore :=
  if (max =? 0) || negb up then s
  else
    let l := now :: match live now (s.(ls_lists) !! key) with Some (l, _) => l | None => [] end in
    let keep := if 0 <? max then Z.to_nat max else Z.to_nat (Z.of_nat (length l) + max) in
    set_list key (take keep l, Some (now + minutes * 60000)) s.

Record ModelLimits := mkModelLimits {
  ml_Enabled : bool;
  ml_Minutes : Z;
  ml_Count : Z;
  ml_SuccessCount : Z;
  ml_Group : gmap string (Z * Z)
}.
Definition GetGroupRateLimit (ml : ModelLimits) (group : string) : option (Z * Z) := ml.(ml_Group) !! group.
(** The limits of a request: total and successful requests. *)
Definition limits_of (ml : ModelLimits) (tokenGroup userGroup : string) : Z * Z :=
  let group := if String.eqb tokenGroup "" then userGroup else tokenGroup in
  default (ml.(ml_Count), ml.(ml_SuccessCount)) (GetGroupRateLimit ml group).
Definition successKey (user : Z) : string := "rateLimit:MRRLS:" +:+ pretty user.
Definition totalKey (user : Z) : string := "rateLimit:" +:+ pretty user.
(** Before the request is handled; [up1], [up2]: Redis answers the check and the script.
    After a refusal by the bucket the handler runs on, but the context is aborted: nothing
    is handled, and the status 429 is no success, so nothing is recorded. *)
Definition redis_enter (up1 up2 : bool) (minutes duration totalMax successMax user now : Z) (s : LimitStore) : decision * LimitStore :=
  match checkRedisRateLimit up1 (successKey user) successMax duration minutes now s with
  | (None, s) => (ServerError, s)
  | (Some false, s) => (TooManyRequests None, s)
  | (Some true, s) =>
      if 0 <? totalMax then
        match Allow up2 (totalKey user) duration totalMax (rateLimitCapacity totalMax duration) now s with
        | (None, s) => (ServerError, s)
        | (Some false, s) => (TooManyRequests None, s)
        | (Some true, s) => (Pass, s)
        end
      else (Pass, s)
  end.
(** After it was handled with [status]. *)
Definition redis_leave (up : bool) (minutes successMax user status now : Z) (s : LimitStore) : LimitStore :=
  if status <? 400 then recordRedisRequest up (successKey user) successMax minutes now s else s.
Definition memory_enter (duration totalMax successMax user now : Z) (st : Store) : option (decision * Store) :=
  match (if 0 <? totalMax then Request ("MRRL" +:+ pretty user) totalMax duration now st else Some (true, st)) with
  | None => None
  | Some (false, st) => Some (TooManyRequests None, st)
  | Some (true, st) =>
      match Request ("MRRLS" +:+ pretty user +:+ "_check") successMax duration now st with
      | None => None
      | Some (false, st) => Some (TooManyRequests None, st)
      | Some (true, st) => Some (Pass, st)
      end
  end.
Definition memory_leave (duration successMax user status now : Z) (st : Store) : option Store :=
  if status <? 400 then
    match Request ("MRRLS" +:+ pretty user) successMax duration now st with Some (_, st) => Some st | None => None end
  else Some st.
