(* ===== verification/RedisLimitLaws.v ===== *)
(** * What the Redis limits guarantee

    Fixed windows accept at most twice the limit in any span of a window's length, and a
    bucket of tokens at most its capacity and what flowed in; the memory mode of the model
    limit counts failures. *)

From stdpp Require Import base tactics numbers list gmap strings pretty.
From Stdlib Require Import ZArith Lia.
From S2P Require Import Prelude RateLimit RedisLimit.
Open Scope Z_scope.

(** The times of [l] from [t] on and before [t + d]. *)
Definition within (t d : Z) (l : list Z) : list Z := filter (fun x => t <= x < t + d) l.
Lemma within_app t d l k : within t d (l ++ k) = within t d l ++ within t d k.
Proof. apply filter_app. Qed.
Lemma within_length t d l : (length (within t d l) <= length l)%nat.
Proof. apply length_filter. Qed.
Lemma within_none t d l : Forall (fun x => x < t) l -> within t d l = [].
Proof. intros H. unfold within. induction H as [|x l Hx _ IH]; [done|]. rewrite filter_cons_False by lia. done. Qed.

Section windows.
Context (key : string) (max duration : Z) (Hmax : 0 < max) (Hdur : 0 < duration).
Abbreviation D := (duration * 1000).

(** The requests of [key] that were accepted, newest first.  Whatever happens to other keys
    may happen in between, and Redis may fail; the clock does not go backwards. *)
Inductive fw_run : LimitStore -> list Z -> Z -> Prop :=
| fw_start now : fw_run no_limits [] now
| fw_take s acc now now' up r s' :
    fw_run s acc now -> now <= now' -> redisFixedWindowTake up key max duration now' s = (r, s') ->
    fw_run s' (match r with Some (true, _, _) => now' :: acc | _ => acc end) now'
| fw_other s acc now now' s' :
    fw_run s acc now -> now <= now' -> s'.(ls_counters) !! key = s.(ls_counters) !! key -> fw_run s' acc now'.

(** A window that began at [w.1] with the accepted times [w.2]. *)
Definition window_ok (w : Z * list Z) : Prop := Z.of_nat (length w.2) <= max /\ Forall (fun x => w.1 <= x < w.1 + D) w.2.
Inductive windows_ok : list (Z * list Z) -> Prop :=
| windows_nil : windows_ok []
| windows_cons w ws : window_ok w -> windows_ok ws -> Forall (fun v => v.1 + D <= w.1) ws -> windows_ok (w :: ws).
Definition fw_inv (s : LimitStore) (acc : list Z) (now : Z) : Prop :=
  exists ws, windows_ok ws /\ acc = concat (snd <$> ws) /\ Forall (fun w => w.1 <= now) ws /\
    match s.(ls_counters) !! key with
    | None => ws = []
    | Some (n, e) => exists w rest, ws = w :: rest /\ e = Some (w.1 + D) /\ 1 <= n /\ Z.of_nat (length w.2) = Z.min n max
    end.

Lemma new_window ws now : windows_ok ws -> Forall (fun v => v.1 + D <= now) ws -> windows_ok ((now, [now]) :: ws).
Proof. intros Hw Hn. constructor; [|done|done]. split; simpl; [lia|]. constructor; [lia|constructor]. Qed.
Lemma older_windows w ws : windows_ok (w :: ws) -> Forall (fun v => v.1 + D <= w.1) ws.
Proof. by inversion 1. Qed.

Lemma fw_inv_script s acc now now' b c ttl s' :
  fw_inv s acc now -> now <= now' -> redisFixedWindowScript key max duration now' s = ((b, c, ttl), s') ->
  fw_inv s' (if b then now' :: acc else acc) now'.
Proof.
  intros (ws & Hws & -> & Hle & Hst) Hnow. unfold redisFixedWindowScript.
  assert (forall e, ttl_of now' (Some (now' + e)) = (e + 500) / 1000) as Httl by (intros e; unfold ttl_of; f_equal; lia).
  assert (0 <= (D + 500) / 1000) as Hpos by (apply Z.div_pos; lia).
  assert (Forall (fun v => v.1 + D <= now') ws -> forall x, ((negb (max <? 1), 1, x), set_counter key (1, Some (now' + D)) s) = ((b, c, ttl), s') ->
            fw_inv s' (if b then now' :: concat (snd <$> ws) else concat (snd <$> ws)) now') as Hfresh.
  { intros Hold x [= <- _ _ <-]. rewrite (proj2 (Z.ltb_ge max 1)) by lia. exists ((now', [now']) :: ws). split; [by apply new_window|]. split; [done|].
    split; [constructor; [simpl; lia|]; eapply Forall_impl; [exact Hle|simpl; lia]|]. simpl. rewrite lookup_insert_eq. exists (now', [now']), ws. simpl.
    split_and!; [done|done|lia|lia]. }
  destruct (s.(ls_counters) !! key) as [[n e]|] eqn:Hk.
  - destruct Hst as (w & rest & -> & -> & Hn & Hlen). simpl live. pose proof (older_windows _ _ Hws) as Hold.
    destruct (Z.ltb_spec now' (w.1 + D)) as [Hin|Hout].
    + replace (n + 1 =? 1) with false by (symmetry; apply Z.eqb_neq; lia). cbn iota.
      assert ((ttl_of now' (Some (w.1 + D)) <? 0) = false) as -> by (apply Z.ltb_ge; unfold ttl_of; apply Z.div_pos; lia).
      intros [= <- _ _ <-]. apply Forall_cons in Hle as [Hw Hle]. inversion_clear Hws as [|? ? [Hc Hr] Hrest _].
      assert (Forall (fun v => v.1 <= now') rest) as Hrle by (eapply Forall_impl; [exact Hle|simpl; lia]).
      destruct (Z.ltb_spec max (n + 1)) as [Hover|Hok]; simpl negb; cbn iota.
      * exists (w :: rest). split; [by constructor|]. split; [done|]. split; [constructor; [lia|done]|]. simpl. rewrite lookup_insert_eq.
        exists w, rest. split_and!; try done; lia.
      * exists ((w.1, now' :: w.2) :: rest). split; [constructor; [split; simpl; [lia|constructor; [lia|done]]|done|done]|]. split; [done|].
        split; [constructor; [simpl; lia|done]|]. simpl. rewrite lookup_insert_eq. exists (w.1, now' :: w.2), rest. simpl. split_and!; try done; lia.
    + cbv beta iota zeta. change (1 =? 1) with true. cbv iota. rewrite Httl, (proj2 (Z.ltb_ge ((D + 500) / 1000) 0)) by lia. apply Hfresh. constructor; [lia|]. eapply Forall_impl; [exact Hold|]. simpl. lia.
  - subst ws. cbn [live]. cbv beta iota zeta. change (1 =? 1) with true. cbv iota. rewrite Httl, (proj2 (Z.ltb_ge ((D + 500) / 1000) 0)) by lia. by apply Hfresh.
Qed.
Lemma fw_run_inv s acc now : fw_run s acc now -> fw_inv s acc now.
Proof.
  induction 1 as [now|s acc now now' up r s' _ IH Hle Ht|s acc now now' s' _ IH Hle Hk].
  - exists []. split_and!; try done; constructor.
  - assert (fw_inv s acc now') as Hsame.
    { destruct IH as (ws & H1 & H2 & H3 & H4). exists ws. split_and!; try done. eapply Forall_impl; [exact H3|]. simpl. lia. }
    unfold redisFixedWindowTake in Ht. destruct (String.eqb key ""); [by simplify_eq|]. destruct (max <=? 0); [by simplify_eq|].
    destruct (duration <=? 0); [by simplify_eq|]. destruct (negb up); [by simplify_eq|].
    destruct (redisFixedWindowScript _ _ _ _ _) as [[[b c] ttl] s1] eqn:Es. injection Ht as <- <-. eapply fw_inv_script in Es; [|exact IH|done]. by destruct b.
  - destruct IH as (ws & H1 & H2 & H3 & H4). exists ws. rewrite Hk. split_and!; try done. eapply Forall_impl; [exact H3|]. simpl. lia.
Qed.

Lemma windows_within ws t : windows_ok ws -> Z.of_nat (length (within t D (concat (snd <$> ws)))) <= 2 * max.
Proof.
  assert (forall ws, windows_ok ws -> Forall (fun v => v.1 + D <= t) ws -> within t D (concat (snd <$> ws)) = []) as Hnone.
  { intros vs Hvs Hv. apply within_none. induction Hvs as [|w vs [_ Hw] Hvs IH _]; simpl; [constructor|]. apply Forall_cons in Hv as [H1 H2].
    apply Forall_app. split; [|auto]. eapply Forall_impl; [exact Hw|]. simpl. lia. }
  induction 1 as [|w ws [Hlen Hw] Hws IH Hold]; simpl; [lia|]. rewrite within_app, length_app. destruct (decide (within t D w.2 = [])) as [->|Hne]; [done|].
  assert (w.1 < t + D) as Hs.
  { destruct (within t D w.2) as [|x l] eqn:E; [done|]. assert (x ∈ within t D w.2) as Hx by (rewrite E; left). unfold within in Hx. apply list_elem_of_filter in Hx as [Hx Hin].
    rewrite Forall_forall in Hw. specialize (Hw x Hin). lia. }
  pose proof (within_length t D w.2). destruct Hws as [|v ws [Hlenv _] Hws Holdv]; [simpl; lia|]. apply Forall_cons in Hold as [Hv _].
  rewrite fmap_cons. cbn [concat]. rewrite within_app, length_app, (Hnone ws Hws); [pose proof (within_length t D v.2); simpl; lia|]. eapply Forall_impl; [exact Holdv|]. simpl. lia.
Qed.

(** C30. A limit of requests in Redis: however requests of many keys interleave, whatever else
    happens to other keys and whichever calls fail, at most twice [max] requests of a key are
    accepted in any span as long as a window, and at most [max] from the start of a window
    to its end.  (Redis is taken not to lose the counter before it expires.) *)
Theorem fixed_window_limit s acc now t :
  fw_run s acc now ->
  Z.of_nat (length (within t D acc)) <= 2 * max /\
  exists ws, acc = concat (snd <$> ws) /\ windows_ok ws.
Proof. intros Hrun. destruct (fw_run_inv _ _ _ Hrun) as (ws & Hws & -> & _). split; [by apply windows_within|]. by exists ws. Qed.
End windows.

(** Four requests against a limit of two in ten seconds: two at the end of a window and two
    at the start of the next pass. *)
Definition burst (s : LimitStore) (now : Z) : LimitStore := (redisFixedWindowTake true "k" 2 10 now s).2.
Lemma fixed_window_limit_witness :
  Z.of_nat (length (within 9000 10000 [10001; 10000; 9000; 0])) <= 2 * 2 /\ length (within 9000 10000 [10001; 10000; 9000; 0]) = 3%nat.
Proof.
  split; [|vm_compute; reflexivity]. refine (proj1 (fixed_window_limit "k" 2 10 _ _ (burst (burst (burst (burst no_limits 0) 9000) 10000) 10001) _ 10001 9000 _)); [lia|lia|].
  apply (fw_take "k" 2 10 (burst (burst (burst no_limits 0) 9000) 10000) [10000; 9000; 0] 10000 10001 true (Some (true, 2, 10))); [|lia|vm_compute; reflexivity].
  apply (fw_take "k" 2 10 (burst (burst no_limits 0) 9000) [9000; 0] 9000 10000 true (Some (true, 1, 10))); [|lia|vm_compute; reflexivity].
  apply (fw_take "k" 2 10 (burst no_limits 0) [0] 0 9000 true (Some (true, 2, 1))); [|lia|vm_compute; reflexivity].
  apply (fw_take "k" 2 10 no_limits [] 0 0 true (Some (true, 1, 10))); [apply fw_start|lia|vm_compute; reflexivity].
Defined.

(** ** The bucket *)

(** How many of the times, in milliseconds, lie in the seconds from [a] to [b]. *)
Definition seconds (a b : Z) (l : list Z) : Z := Z.of_nat (length (filter (fun x => a <= x / 1000 <= b) l)).
Lemma seconds_cons a b x l : seconds a b (x :: l) = (if decide (a <= x / 1000 <= b) then 1 else 0) + seconds a b l.
Proof. unfold seconds. rewrite filter_cons. destruct (decide _); simpl; lia. Qed.
Lemma seconds_nonneg a b l : 0 <= seconds a b l.
Proof. unfold seconds. lia. Qed.
Lemma seconds_zero a b l : Forall (fun x => x / 1000 < a) l -> seconds a b l = 0.
Proof. induction 1 as [|x l Hx _ IH]; [done|]. rewrite seconds_cons, IH, decide_False by lia. done. Qed.

(** Below 2^53 the numbers of the script are exact. *)
Section bucket.
Context (user minutes count duration : Z) (Hcount : 0 < count) (Hdur : 0 < duration) (Hfit : count * duration < 2 ^ 53).

(** The model requests of a user that passed the limits, newest first.  Anything that leaves
    the user's bucket alone may happen in between. *)
Inductive pass_run : LimitStore -> list Z -> Z -> Prop :=
| pass_start now : pass_run no_limits [] now
| pass_enter s acc now now' up1 up2 successMax r s' :
    pass_run s acc now -> now <= now' -> redis_enter up1 up2 minutes duration count successMax user now' s = (r, s') ->
    pass_run s' (match r with Pass => now' :: acc | _ => acc end) now'
| pass_other s acc now now' s' :
    pass_run s acc now -> now <= now' -> s'.(ls_buckets) !! totalKey user = s.(ls_buckets) !! totalKey user -> pass_run s' acc now'.

Definition bucket_inv (s : LimitStore) (acc : list Z) (now : Z) : Prop :=
  (forall a b, a <= b -> duration * seconds a b acc <= count * duration + count * (b - a)) /\
  match s.(ls_buckets) !! totalKey user with
  | None => acc = []
  | Some (tokens, lt) =>
      0 <= tokens <= count * duration /\ lt <= now / 1000 /\ Forall (fun x => x / 1000 <= lt) acc /\
      forall a, a <= lt -> duration * seconds a lt acc + tokens <= count * duration + count * (lt - a)
  end.
Lemma capacity_exact : rateLimitCapacity count duration = count * duration.
Proof.
  unfold rateLimitCapacity. rewrite (proj2 (Z.leb_gt count 0)), (proj2 (Z.leb_gt duration 0)) by lia. simpl. rewrite (proj2 (Z.ltb_ge _ _)); [done|].
  apply Z.div_le_lower_bound; unfold MaxInt64; lia.
Qed.
Lemma seconds_upto a b c l : Forall (fun x => x / 1000 <= b) l -> b <= c -> seconds a c l = seconds a b l.
Proof. induction 1 as [|x l Hx _ IH]; intros Hc; [done|]. rewrite !seconds_cons, IH by done. repeat case_decide; lia. Qed.
Lemma bucket_refill s acc now now' :
  bucket_inv s acc now -> now <= now' -> let sec := now' / 1000 in
  let tokens := match s.(ls_buckets) !! totalKey user with Some (k, lt) => Z.min (count * duration) (k + (sec - lt) * count) | None => count * duration end in
  0 <= tokens <= count * duration /\ Forall (fun x => x / 1000 <= sec) acc /\
  forall a, a <= sec -> duration * seconds a sec acc + tokens <= count * duration + count * (sec - a).
Proof.
  intros [_ Hst] Hnow sec tokens. assert (now / 1000 <= sec) as Hsec by (apply Z.div_le_mono; lia). unfold tokens. destruct (ls_buckets s !! totalKey user) as [[k lt]|].
  - destruct Hst as (Hk & Hlt & Hacc & Hpot). split; [nia|]. split; [eapply Forall_impl; [exact Hacc|simpl; lia]|]. intros a Ha.
    rewrite (seconds_upto a lt sec acc Hacc) by lia. destruct (Z.le_gt_cases a lt) as [Hal|Hal].
    + specialize (Hpot a Hal). nia.
    + assert (seconds a lt acc = 0) as -> by (apply seconds_zero; eapply Forall_impl; [exact Hacc|simpl; lia]). nia.
  - subst acc. split; [nia|]. split; [constructor|]. intros a Ha. unfold seconds. simpl. nia.
Qed.
Lemma bucket_step s acc now now' b s' :
  bucket_inv s acc now -> now <= now' -> rate_limit_script (totalKey user) duration count (count * duration) now' s = (b, s') ->
  bucket_inv s' (if b then now' :: acc else acc) now'.
Proof.
  intros Hinv Hnow. pose proof (bucket_refill _ _ _ _ Hinv Hnow) as (Htk & Hacc & Hpot). destruct Hinv as [Hwin _]. unfold rate_limit_script.
  set (sec := now' / 1000) in *. set (tk := match ls_buckets s !! totalKey user with Some _ => _ | None => _ end) in *. cbv zeta.
  destruct (Z.leb_spec duration tk) as [Hok|Hno]; intros [= <- <-]; unfold bucket_inv; simpl ls_buckets; rewrite lookup_insert_eq.
  - assert (forall a, a <= sec -> seconds a sec (now' :: acc) = 1 + seconds a sec acc) as Hone.
    { intros a Ha. rewrite seconds_cons. fold sec. rewrite decide_True by lia. done. }
    split.
    + intros a b Hab. rewrite seconds_cons. fold sec. specialize (Hwin a b Hab). destruct (decide (a <= sec <= b)) as [[H1 H2]|]; [|lia].
      rewrite (seconds_upto a sec b acc Hacc H2). specialize (Hpot a H1). nia.
    + split; [lia|]. split; [lia|]. split; [by constructor|]. intros a Ha. rewrite Hone by done. specialize (Hpot a Ha). lia.
  - split; [done|]. split; [lia|]. split; [lia|]. split; [done|]. exact Hpot.
Qed.
Lemma bucket_time s s' acc now now' :
  bucket_inv s acc now -> now <= now' -> s'.(ls_buckets) !! totalKey user = s.(ls_buckets) !! totalKey user -> bucket_inv s' acc now'.
Proof.
  intros [Hw Hs] Hle Hk. split; [done|]. rewrite Hk. destruct (_ !! totalKey user) as [[k lt]|]; [|done]. destruct Hs as (H1 & H2 & H3).
  split; [done|]. split; [|done]. assert (now / 1000 <= now' / 1000) by (apply Z.div_le_mono; lia). lia.
Qed.
Lemma check_buckets up key max now s r s' : checkRedisRateLimit up key max duration minutes now s = (r, s') -> s'.(ls_buckets) = s.(ls_buckets).
Proof.
  unfold checkRedisRateLimit. destruct (max =? 0); [by intros [= _ <-]|]. destruct (negb up); [by intros [= _ <-]|]. destruct (_ <? max); [by intros [= _ <-]|].
  destruct (last _); [|by intros [= _ <-]]. destruct (_ <? duration); by intros [= _ <-].
Qed.
Lemma pass_run_inv s acc now : pass_run s acc now -> bucket_inv s acc now.
Proof.
  induction 1 as [now|s acc now now' up1 up2 successMax r s' _ IH Hle Ht|s acc now now' s' _ IH Hle Hk].
  - split; [|done]. intros a b Hab. unfold seconds. simpl. nia.
  - unfold redis_enter in Ht. destruct (checkRedisRateLimit _ _ _ _ _ _ _) as [[[]|] s1] eqn:Ec; apply check_buckets in Ec; pose proof (bucket_time s s1 acc now now' IH Hle ltac:(by rewrite Ec)) as H1;
      [|by injection Ht as <- <-..]. rewrite (proj2 (Z.ltb_lt 0 count)), capacity_exact in Ht by lia. unfold Allow in Ht. destruct (negb up2); [by injection Ht as <- <-|].
    destruct (rate_limit_script _ _ _ _ _ _) as [b s2] eqn:Es. eapply bucket_step in Es; [|exact H1|lia]. destruct b; by injection Ht as <- <-.
  - by eapply bucket_time.
Qed.

(** The limit of all model requests of a user in Redis: over any interleaving of requests
    of any users, and whenever Redis fails, the requests of a user that pass in any span of
    [T] seconds number at most [count] for the span and as many again for the bucket:
    [accepted * duration <= count * (duration + T)].  So at most twice [count] pass in
    [duration] seconds. *)
Theorem model_request_limit s acc now a T :
  pass_run s acc now -> 0 <= T -> duration * seconds a (a + T) acc <= count * (duration + T).
Proof. intros Hrun HT. destruct (pass_run_inv _ _ _ Hrun) as [Hw _]. specialize (Hw a (a + T) ltac:(lia)). nia. Qed.
End bucket.

Definition three_passes : LimitStore :=
  let enter now s := (redis_enter true true 1 60 2 0 7 now s).2 in enter 2000 (enter 1000 (enter 0 no_limits)).
Lemma model_request_limit_witness : seconds 0 60 [1000; 0] = 2 /\ 60 * seconds 0 (0 + 60) [1000; 0] <= 2 * (60 + 60).
Proof.
  split; [reflexivity|]. refine (model_request_limit 7 1 2 60 _ _ _ three_passes _ 2000 0 60 _ _); [lia|lia|lia| |lia].
  apply (pass_enter 7 1 2 60 (redis_enter true true 1 60 2 0 7 1000 (redis_enter true true 1 60 2 0 7 0 no_limits).2).2 [1000; 0] 1000 2000 true true 0 (TooManyRequests None));
    [|lia|vm_compute; reflexivity].
  apply (pass_enter 7 1 2 60 (redis_enter true true 1 60 2 0 7 0 no_limits).2 [0] 0 1000 true true 0 Pass); [|lia|vm_compute; reflexivity].
  apply (pass_enter 7 1 2 60 no_limits [] 0 0 true true 0 Pass); [apply pass_start|lia|vm_compute; reflexivity].
Defined.

(** ** Memory and Redis disagree *)

(** Requests of user 7 that all fail, one per second. *)
Fixpoint memory_failures (n : nat) (now : Z) (st : Store) : option (list decision) :=
  match n with
  | O => Some []
  | S n =>
      match memory_enter 60 0 2 7 now st with
      | None => None
      | Some (d, st) =>
          match (match d with Pass => memory_leave 60 2 7 500 now st | _ => Some st end) with
          | None => None
          | Some st => cons d <$> memory_failures n (now + 1) st
          end
      end
  end.
Fixpoint redis_failures (n : nat) (now : Z) (s : LimitStore) : list decision :=
  match n with
  | O => []
  | S n =>
      let (d, s) := redis_enter true true 1 60 0 2 7 now s in
      d :: redis_failures n (now + 1000) (match d with Pass => redis_leave true 1 2 7 500 now s | _ => s end)
  end.
(** With a limit of two successful requests per minute and no Redis, the third of three
    failed requests is refused: the check records every request under a key of its own and
    the record of the successes is never read.  With Redis failures are not counted and all
    three pass. *)
Theorem memory_limit_counts_failures :
  memory_failures 3 0 ∅ = Some [Pass; Pass; TooManyRequests None] /\ redis_failures 3 0 no_limits = [Pass; Pass; Pass].
Proof. split; vm_compute; reflexivity. Qed.
