(* ===== verification/Concurrency.v ===== *)
(** * Requests in flight (common/concurrency/tracker.go)

    Every relayed request is a member of up to three sorted sets in Redis, one per channel,
    user and token, from its start to its end; the score of a member is the second it was
    added in.  Reads remove the members older than half an hour first.  Times are in
    milliseconds of the clock of Redis. *)

From stdpp Require Import base tactics numbers list gmap strings pretty.
From Stdlib Require Import ZArith Lia.
From S2P Require Import Prelude.
Open Scope Z_scope.

(** ** Strings *)

(** [strings.SplitN(s, sep, n)] for a one-byte separator and [n = S k]. *)
Fixpoint SplitN (sep : Ascii.ascii) (k : nat) (s : string) : list string :=
  match s with
  | EmptyString => [EmptyString]
  | String c s' =>
      match k with
      | S k' => if bool_decide (c = sep) then EmptyString :: SplitN sep k' s'
                else match SplitN sep k s' with w :: ws => String c w :: ws | [] => [String c EmptyString] end
      | O => [s]
      end
  end.

(** [strconv.FormatUint(n, 36)]: thirteen digits hold every 64-bit number. *)
Definition digit36 (d : Z) : Ascii.ascii := Ascii.ascii_of_nat (Z.to_nat (if d <? 10 then 48 + d else 87 + d)).
Fixpoint digits36 (fuel : nat) (n : Z) (acc : string) : string :=
  match fuel with
  | O => acc
  | S fuel => let acc := String (digit36 (n mod 36)) acc in if n <? 36 then acc else digits36 fuel (n / 36) acc
  end.
Definition FormatUint36 (n : Z) : string := digits36 13 n EmptyString.

(** ** Keys and members *)

Inductive Dimension := DimensionChannel | DimensionUser | DimensionToken.
#[export] Instance Dimension_eq_dec : EqDecision Dimension.
Proof. solve_decision. Defined.
Definition dimension_name (dim : Dimension) : string :=
  match dim with DimensionChannel => "channel" | DimensionUser => "user" | DimensionToken => "token" end.
Definition SlotTTLSeconds : Z := 1800.

Record Dimensions := mkDimensions {
  dm_ChannelID : Z;
  dm_UserID : Z;
  dm_TokenID : Z;
  dm_Model : string;
  dm_Group : string
}.
Definition id_of (dim : Dimension) (d : Dimensions) : Z :=
  match dim with DimensionChannel => d.(dm_ChannelID) | DimensionUser => d.(dm_UserID) | DimensionToken => d.(dm_TokenID) end.

Definition memberSeparator : Ascii.ascii := Ascii.ascii_of_nat 31.
Definition separated (a b : string) : string := a +:+ String memberSeparator b.
Definition has_breakdown (d : Dimensions) : bool :=
  negb (String.eqb d.(dm_Model) "" && String.eqb d.(dm_Group) "" && (d.(dm_TokenID) <=? 0)).
Definition member (d : Dimensions) (requestID : string) : string :=
  if has_breakdown d then separated requestID (separated d.(dm_Model) (separated d.(dm_Group) (pretty d.(dm_TokenID)))) else requestID.
Definition slotKey (dim : Dimension) (id : Z) : string := "concurrency:v1:" +:+ dimension_name dim +:+ ":" +:+ pretty id.
Definition keys (d : Dimensions) : list string :=
  (if 0 <? d.(dm_ChannelID) then [slotKey DimensionChannel d.(dm_ChannelID)] else []) ++
  (if 0 <? d.(dm_UserID) then [slotKey DimensionUser d.(dm_UserID)] else []) ++
  (if 0 <? d.(dm_TokenID) then [slotKey DimensionToken d.(dm_TokenID)] else []).

(** [prefix]: the random 64-bit number of the process; [n]: its counter. *)
Definition NewRequestID (prefix n : Z) : string := "r" +:+ FormatUint36 prefix +:+ "-" +:+ FormatUint36 n.

(** ** Redis *)

(** The sets with the time they expire at, and whether Redis knows the script. *)
Record Slots := mkSlots {
  sl_sets : gmap string (gmap string Z * Z);
  sl_loaded : bool
}.
Definition slots_at (now : Z) (s : Slots) (key : string) : gmap string Z :=
  match s.(sl_sets) !! key with Some (m, t) => if now <? t then m else ∅ | None => ∅ end.
(** A command that removes members keeps the expiry; an empty set is gone. *)
Definition shrink (now : Z) (key : string) (f : gmap string Z -> gmap string Z) (s : Slots) : Slots :=
  match s.(sl_sets) !! key with
  | None => s
  | Some (m, t) =>
      let m' := if now <? t then f m else ∅ in
      mkSlots (if bool_decide (m' = ∅) then delete key s.(sl_sets) else <[key := (m', t)]> s.(sl_sets)) s.(sl_loaded)
  end.
(** Members with a score of at most [cutoff] go. *)
Definition newer (cutoff : Z) (m : gmap string Z) : gmap string Z := filter (fun e => cutoff < e.2) m.
Definition ZRemRangeByScore (now cutoff : Z) (key : string) (s : Slots) : Slots := shrink now key (newer cutoff) s.
Definition ZRem (now : Z) (mem key : string) (s : Slots) : Slots := shrink now key (delete mem) s.
Definition trackScript (now : Z) (mem key : string) (s : Slots) : Slots :=
  let sec := now / 1000 in
  let m := newer (sec - SlotTTLSeconds) (slots_at now s key) in
  mkSlots (<[key := (<[mem := sec]> m, now + SlotTTLSeconds * 1000)]> s.(sl_sets)) s.(sl_loaded).
Definition over (ks : list string) (f : string -> Slots -> Slots) (s : Slots) : Slots := foldl (fun s k => f k s) s ks.

(** How a pipeline ends: with its answers, or with an error after its first commands. *)
Inductive pipe_end := Answered | Broken (n : nat).
#[export] Instance pipe_end_eq_dec : EqDecision pipe_end.
Proof. solve_decision. Defined.
Definition carried (e : pipe_end) (ks : list string) : list string := match e with Answered => ks | Broken n => take n ks end.

(** ** Operations *)

Inductive pipe_error := NoScript | Connection.
Definition execTrackPipeline (e : pipe_end) (useEval : bool) (now : Z) (mem : string) (ks : list string) (s : Slots) : option pipe_error * Slots :=
  let done := carried e ks in
  if useEval || s.(sl_loaded) then
    (match e with Answered => None | Broken _ => Some Connection end,
     let s' := over done (trackScript now mem) s in mkSlots s'.(sl_sets) (s'.(sl_loaded) || negb (bool_decide (done = []))))
  else (Some (if bool_decide (done = []) then Connection else NoScript), s).
(** A second try with [EVAL] at [now2] after a [NOSCRIPT]. *)
Definition runTrackPipeline (e1 e2 : pipe_end) (now1 now2 : Z) (mem : string) (ks : list string) (s : Slots) : option pipe_error * Slots :=
  match execTrackPipeline e1 false now1 mem ks s with
  | (Some NoScript, s) => execTrackPipeline e2 true now2 mem ks s
  | r => r
  end.
(** The error is only logged. *)
Definition Track (enabled : bool) (e1 e2 : pipe_end) (now1 now2 : Z) (d : Dimensions) (requestID : string) (s : Slots) : option pipe_error * Slots :=
  if negb enabled || String.eqb requestID "" then (None, s)
  else if bool_decide (keys d = []) then (None, s)
  else runTrackPipeline e1 e2 now1 now2 (member d requestID) (keys d) s.
(** The function that [Release] returns; [once]: it has been called. *)
Definition Release (enabled : bool) (e : pipe_end) (now : Z) (d : Dimensions) (requestID : string) (once : bool) (s : Slots) : bool * Slots :=
  if String.eqb requestID "" then (once, s)
  else if once then (true, s)
  else if negb enabled then (true, s)
  else (true, over (carried e (keys d)) (ZRem now (member d requestID)) s).

(** The answers to reads; [t]: the answer to [TIME], [now]: when the commands run. *)
Definition cutoff_of (t : Z) : Z := t / 1000 - SlotTTLSeconds.
Definition BatchCount (enabled : bool) (timed : option Z) (e : pipe_end) (now : Z) (dim : Dimension) (ids : list Z) (s : Slots) : gmap Z Z * Slots :=
  let zeros := list_to_map ((fun id => (id, 0)) <$> ids) : gmap Z Z in
  if negb enabled || bool_decide (ids = []) then (zeros, s)
  else match timed with
       | None => (zeros, s)
       | Some t =>
           let ids' := filter (fun id => 0 < id) ids in
           let s' := over (carried e (slotKey dim <$> ids')) (ZRemRangeByScore now (cutoff_of t)) s in
           match e with
           | Broken _ => (zeros, s')
           | Answered => (foldl (fun r id => <[id := Z.of_nat (size (slots_at now s' (slotKey dim id)))]> r) zeros ids', s')
           end
       end.

Definition bucket_of (mem : string) : option string :=
  match SplitN memberSeparator 3 mem with
  | _ :: model :: group :: token :: _ => Some (model +:+ "|" +:+ group +:+ "|" +:+ token)
  | _ => None
  end.
Definition count_member (r : gmap string Z) (mem : string) : gmap string Z :=
  match bucket_of mem with Some b => <[b := default 0 (r !! b) + 1]> r | None => r end.
(** [trimmed], [listed]: Redis answers the two commands. *)
Definition CountByDimension (enabled : bool) (timed : option Z) (trimmed listed : bool) (now : Z) (dim : Dimension) (id : Z) (s : Slots) : option (gmap string Z) * Slots :=
  if negb enabled || (id <=? 0) then (Some ∅, s)
  else match timed with
       | None => (None, s)
       | Some t =>
           if negb trimmed then (None, s)
           else let s := ZRemRangeByScore now (cutoff_of t) (slotKey dim id) s in
                if negb listed then (None, s) else (Some (foldl count_member ∅ (map_to_list (slots_at now s (slotKey dim id))).*1), s)
       end.
