(* ===== verification/ConcurrencyLaws.v ===== *)
(** * The count of requests in flight

    Identifiers are unique, members tell requests and their parts apart, and over every
    interleaving a read counts just the requests in flight. *)

From stdpp Require Import base tactics numbers list gmap strings pretty.
From Stdlib Require Import ZArith Lia.
From S2P Require Import Prelude Concurrency.
Open Scope Z_scope.

(** ** Strings without a character *)

Fixpoint lacks (c : Ascii.ascii) (s : string) : Prop := match s with EmptyString => True | String d s => d <> c /\ lacks c s end.
Lemma lacks_app c a b : lacks c (a +:+ b) <-> lacks c a /\ lacks c b.
Proof. induction a as [|d a IH]; simpl; [tauto|]. rewrite IH. tauto. Qed.
Lemma str_app_assoc a b c : (a +:+ b) +:+ c = a +:+ (b +:+ c).
Proof. induction a as [|d a IH]; [done|]. change (String d ((a +:+ b) +:+ c) = String d (a +:+ (b +:+ c))). by rewrite IH. Qed.
(** What precedes the first separator is determined. *)
Lemma split_first c a a' b b' : lacks c a -> lacks c a' -> a +:+ String c b = a' +:+ String c b' -> a = a' /\ b = b'.
Proof.
  revert a'. induction a as [|d a IH]; intros [|d' a']; simpl; [by intros _ _ [= ->]|by intros _ [? _] [= ]; subst|by intros [? _] _ [= ]; subst|].
  intros [_ Ha] [_ Ha'] [= -> E]. by destruct (IH a' Ha Ha' E) as [-> ->].
Qed.
Lemma lacks_separated c a b b' : lacks c a -> a = b +:+ String c b' -> False.
Proof. intros H ->. apply lacks_app in H as [_ [H _]]. done. Qed.
Lemma SplitN_first c k a b : lacks c a -> SplitN c (S k) (a +:+ String c b) = a :: SplitN c k b.
Proof. induction a as [|d a IH]; simpl; [by rewrite bool_decide_true|]. intros [Hd Ha]. rewrite bool_decide_false by done. specialize (IH Ha). simpl in IH. by rewrite IH. Qed.
Lemma SplitN_last c s : SplitN c 0 s = [s].
Proof. by destruct s. Qed.
Lemma SplitN_lacks c k a : lacks c a -> SplitN c k a = [a].
Proof. destruct k; [by rewrite SplitN_last|]. induction a as [|d a IH]; simpl; [done|]. intros [Hd Ha]. rewrite bool_decide_false by done. by rewrite IH. Qed.

(** ** Numbers *)

Definition dash : Ascii.ascii := Ascii.ascii_of_nat 45.
Definition value36 (c : Ascii.ascii) : Z := let n := Z.of_nat (Ascii.nat_of_ascii c) in if n <? 58 then n - 48 else n - 87.
Fixpoint read36 (v : Z) (s : string) : Z := match s with EmptyString => v | String c s => read36 (v * 36 + value36 c) s end.
Lemma digit_facts d : 0 <= d < 36 -> value36 (digit36 d) = d /\ digit36 d <> dash /\ digit36 d <> memberSeparator.
Proof.
  intros Hd. unfold value36, digit36, memberSeparator. set (n := Z.to_nat (if d <? 10 then 48 + d else 87 + d)).
  assert (48 <= n < 123)%nat as Hn by (unfold n; destruct (Z.ltb_spec d 10); lia). rewrite Ascii.nat_ascii_embedding by lia. split.
  - unfold n. rewrite Z2Nat.id by (destruct (d <? 10); lia). destruct (Z.ltb_spec d 10); [rewrite (proj2 (Z.ltb_lt _ _))|rewrite (proj2 (Z.ltb_ge _ _))]; lia.
  - split; intros H; apply (f_equal Ascii.nat_of_ascii) in H; rewrite Ascii.nat_ascii_embedding in H by lia; unfold dash in H; rewrite ?Ascii.nat_ascii_embedding in H by lia; lia.
Qed.
Lemma digits36_read fuel n acc : 0 <= n < 36 ^ Z.of_nat fuel -> (0 < fuel)%nat -> read36 0 (digits36 fuel n acc) = read36 n acc.
Proof.
  revert n acc. induction fuel as [|fuel IH]; intros n acc Hn Hf; [lia|]. cbn [digits36]. pose proof (Z.mod_pos_bound n 36 ltac:(lia)) as Hm.
  destruct (Z.ltb_spec n 36) as [Hs|Hb].
  - cbn [read36]. destruct (digit_facts (n mod 36) Hm) as [-> _]. by rewrite Z.mod_small by lia.
  - rewrite Nat2Z.inj_succ, Z.pow_succ_r in Hn by lia. assert (0 < fuel)%nat as Hf' by (destruct fuel; [simpl in Hn; lia|lia]).
    rewrite IH; [|split; [apply Z.div_pos; lia|apply Z.div_lt_upper_bound; lia]|done]. cbn [read36]. destruct (digit_facts (n mod 36) Hm) as [-> _].
    f_equal. pose proof (Z.div_mod n 36 ltac:(lia)). lia.
Qed.
Lemma digits36_lacks fuel n acc c : (c = dash \/ c = memberSeparator) -> lacks c acc -> lacks c (digits36 fuel n acc).
Proof.
  intros Hc. revert n acc. induction fuel as [|fuel IH]; intros n acc Ha; [done|]. cbn [digits36]. destruct (digit_facts (n mod 36)) as (_ & H1 & H2); [apply Z.mod_pos_bound; lia|].
  assert (lacks c (String (digit36 (n mod 36)) acc)) as Hl by (split; [destruct Hc as [->| ->]; done|done]). destruct (n <? 36); auto.
Qed.
Definition uint64 (n : Z) : Prop := 0 <= n < 2 ^ 64.
Lemma FormatUint36_inj a b : uint64 a -> uint64 b -> FormatUint36 a = FormatUint36 b -> a = b.
Proof.
  intros Ha Hb E. apply (f_equal (read36 0)) in E. unfold FormatUint36, uint64 in *. assert (2 ^ 64 < 36 ^ Z.of_nat 13) by reflexivity.
  rewrite !digits36_read in E by lia. exact E.
Qed.
Lemma FormatUint36_lacks n c : (c = dash \/ c = memberSeparator) -> lacks c (FormatUint36 n).
Proof. intros H. by apply digits36_lacks. Qed.

(** ** Identifiers, members and keys *)

Lemma NewRequestID_inj p n p' n' :
  uint64 p -> uint64 n -> uint64 p' -> uint64 n' -> NewRequestID p n = NewRequestID p' n' -> p = p' /\ n = n'.
Proof.
  intros Hp Hn Hp' Hn'. unfold NewRequestID. intros [= E]. apply split_first in E as [E1 E2]; [|apply FormatUint36_lacks; auto..].
  split; by apply FormatUint36_inj.
Qed.
Lemma NewRequestID_plain p n : lacks memberSeparator (NewRequestID p n).
Proof. unfold NewRequestID. repeat (apply lacks_app; split); try (apply FormatUint36_lacks; auto); by repeat split. Qed.
Lemma NewRequestID_nonempty p n : String.eqb (NewRequestID p n) "" = false.
Proof. done. Qed.
(** A member tells its request. *)
Lemma member_id d r d' r' : lacks memberSeparator r -> lacks memberSeparator r' -> member d r = member d' r' -> r = r'.
Proof.
  intros Hr Hr'. unfold member, separated. destruct (has_breakdown d), (has_breakdown d'); intros E; [by apply split_first in E as [? _]| | |done].
  - exfalso. eapply (lacks_separated memberSeparator r'); [done|]. by rewrite <- E.
  - exfalso. by eapply (lacks_separated memberSeparator r).
Qed.
(** A key tells its dimension and its id. *)
Lemma slotKey_inj dim id dim' id' : slotKey dim id = slotKey dim' id' -> dim = dim' /\ id = id'.
Proof.
  unfold slotKey. intros E. destruct dim, dim'; simpl in E; simplify_eq; try done.
  all: split; [done|]; by apply (inj pretty).
Qed.
Lemma keys_elem d k : k ∈ keys d <-> exists dim, 0 < id_of dim d /\ k = slotKey dim (id_of dim d).
Proof.
  unfold keys. rewrite !elem_of_app. destruct (Z.ltb_spec 0 d.(dm_ChannelID)), (Z.ltb_spec 0 d.(dm_UserID)), (Z.ltb_spec 0 d.(dm_TokenID));
    rewrite ?list_elem_of_singleton, ?elem_of_nil; (split; [intros H'; destruct_or?; subst; try done; first [by exists DimensionChannel|by exists DimensionUser|by exists DimensionToken]|
      intros ([] & H' & ->); simpl in *; try lia; auto]).
Qed.
Lemma keys_id d dim id : 0 < id -> slotKey dim id ∈ keys d <-> id_of dim d = id.
Proof.
  intros Hid. rewrite keys_elem. split; [intros (dim' & H & E)|intros <-; eauto]. by destruct (slotKey_inj _ _ _ _ E) as [-> ->].
Qed.

(** ** The sets *)

(** The score of a member and the expiry of its set. *)
Definition entry (s : Slots) (k mem : string) : option (Z * Z) :=
  match s.(sl_sets) !! k with Some (m, t) => (fun sec => (sec, t)) <$> m !! mem | None => None end.
Lemma slots_at_entry now s k mem sec : slots_at now s k !! mem = Some sec <-> exists t, entry s k mem = Some (sec, t) /\ now < t.
Proof.
  unfold slots_at, entry. destruct (s.(sl_sets) !! k) as [[m t]|]; [|rewrite lookup_empty; naive_solver].
  destruct (Z.ltb_spec now t).
  - destruct (m !! mem); simpl; naive_solver.
  - rewrite lookup_empty. destruct (m !! mem); simpl; [|naive_solver]. split; [done|]. intros (t' & [= -> ->] & ?). lia.
Qed.
Lemma entry_shrink now k f s k' mem sec t :
  entry (shrink now k f s) k' mem = Some (sec, t) <->
  if decide (k' = k) then exists m, s.(sl_sets) !! k = Some (m, t) /\ now < t /\ f m !! mem = Some sec else entry s k' mem = Some (sec, t).
Proof.
  unfold shrink, entry. destruct (s.(sl_sets) !! k) as [[m u]|] eqn:E; simpl.
  - destruct (decide (k' = k)) as [->|Hne].
    + destruct (Z.ltb_spec now u).
      * case_bool_decide as He; [rewrite lookup_delete_eq|rewrite lookup_insert_eq].
        -- split; [done|]. intros (m' & [= -> ->] & _ & Hf). by rewrite He in Hf.
        -- destruct (f m !! mem) eqn:Ef; simpl; naive_solver.
      * rewrite bool_decide_true, lookup_delete_eq by done. split; [done|]. intros (m' & [= -> ->] & ? & _). lia.
    + case_bool_decide; [rewrite lookup_delete_ne|rewrite lookup_insert_ne]; done.
  - destruct (decide (k' = k)) as [->|Hne]; [|done]. rewrite E. naive_solver.
Qed.
Lemma entry_ZRem now x k s k' mem sec t :
  entry (ZRem now x k s) k' mem = Some (sec, t) <-> entry s k' mem = Some (sec, t) /\ (k' = k -> mem <> x /\ now < t).
Proof.
  unfold ZRem. rewrite entry_shrink. destruct (decide (k' = k)) as [->|Hne]; [|naive_solver]. unfold entry. destruct (s.(sl_sets) !! k) as [[m u]|]; [|naive_solver].
  split.
  - intros (m' & [= -> ->] & Ht & [Hx Hm]%lookup_delete_Some). rewrite Hm. simpl. naive_solver.
  - destruct (m !! mem) eqn:Em; simpl; [|naive_solver]. intros ([= -> ->] & H). destruct (H eq_refl). exists m. split_and!; [done|done|]. by rewrite lookup_delete_ne.
Qed.
Lemma entry_ZRemRange now cutoff k s k' mem sec t :
  entry (ZRemRangeByScore now cutoff k s) k' mem = Some (sec, t) <-> entry s k' mem = Some (sec, t) /\ (k' = k -> cutoff < sec /\ now < t).
Proof.
  unfold ZRemRangeByScore. rewrite entry_shrink. destruct (decide (k' = k)) as [->|Hne]; [|naive_solver]. unfold entry. destruct (s.(sl_sets) !! k) as [[m u]|]; [|naive_solver].
  unfold newer. split.
  - intros (m' & [= -> ->] & Ht & [Hm Hc]%map_lookup_filter_Some). rewrite Hm. simpl. naive_solver.
  - destruct (m !! mem) eqn:Em; simpl; [|naive_solver]. intros ([= -> ->] & H). destruct (H eq_refl). exists m. split_and!; [done|done|]. by apply map_lookup_filter_Some.
Qed.
Lemma entry_track now x k s k' mem sec t :
  entry (trackScript now x k s) k' mem = Some (sec, t) <->
  if decide (k' = k) then t = now + SlotTTLSeconds * 1000 /\
    (if decide (mem = x) then sec = now / 1000 else exists u, entry s k mem = Some (sec, u) /\ now < u /\ now / 1000 - SlotTTLSeconds < sec)
  else entry s k' mem = Some (sec, t).
Proof.
  unfold trackScript. unfold entry at 1. cbn [sl_sets]. destruct (decide (k' = k)) as [->|Hne]; [|by rewrite lookup_insert_ne by done]. rewrite lookup_insert_eq.
  destruct (decide (mem = x)) as [->|Hm].
  - rewrite lookup_insert_eq. simpl. naive_solver.
  - rewrite lookup_insert_ne by done. unfold newer. destruct (_ !! mem) as [v|] eqn:Ev; simpl.
    + apply map_lookup_filter_Some in Ev as [Ev Hc]. apply slots_at_entry in Ev as (u & Hu & Hlt). simpl in Hc.
      split; [intros [= <- <-]; eauto 6|]. intros (-> & u' & Hu' & _ & _). congruence.
    + split; [done|]. intros (-> & u & Hu & Hlt & Hc). rewrite map_lookup_filter_None in Ev. destruct Ev as [Ev|Ev].
      * assert (slots_at now s k !! mem = Some sec) by (apply slots_at_entry; eauto). congruence.
      * exfalso. apply (Ev sec); [apply slots_at_entry; eauto|done].
Qed.

(** ** Runs *)

(** A request in flight, by its id: when it was tracked; whether the tracking succeeded, no
    release began and Redis has lost none of its sets since; whether the release was called,
    and whether it succeeded. *)
Record Flight := mkFlight { fl_dims : Dimensions; fl_at : Z; fl_kept : bool; fl_called : bool; fl_done : bool }.
Record Tracker := mkTracker {
  tr_slots : Slots;
  tr_counters : gmap Z Z;
  tr_flights : gmap string Flight;
  tr_now : Z
}.
(** What Redis still holds after it lost the sets [gone]: all of them after a flush or a
    restart without persistence, some of them after an eviction. *)
Definition lose (gone : gset string) (loaded : bool) (s : Slots) : Slots := mkSlots (filter (fun e => e.1 ∉ gone) s.(sl_sets)) loaded.
Definition robbed (gone : gset string) (f : Flight) : Flight :=
  mkFlight f.(fl_dims) f.(fl_at) (f.(fl_kept) && bool_decide (Forall (fun k => k ∉ gone) (keys f.(fl_dims)))) f.(fl_called) f.(fl_done).
(** Processes with different prefixes begin and end requests, and read; Redis may fail at any
    pipeline, is reached or not, and may lose sets and forget the script at any time; the
    clock does not go backwards. *)
Inductive tracker_step : Tracker -> Tracker -> Prop :=
| ts_begin tr p c d enabled e1 e2 now1 now2 err s' :
    tr.(tr_now) <= now1 <= now2 -> uint64 p -> c = default 0 (tr.(tr_counters) !! p) -> c + 1 < 2 ^ 64 ->
    Track enabled e1 e2 now1 now2 d (NewRequestID p (c + 1)) tr.(tr_slots) = (err, s') ->
    tracker_step tr (mkTracker s' (<[p := c + 1]> tr.(tr_counters))
      (<[NewRequestID p (c + 1) := mkFlight d (if tr.(tr_slots).(sl_loaded) then now1 else now2) (enabled && bool_decide (err = None)) false false]> tr.(tr_flights)) now2)
| ts_release tr id f enabled e now once s' :
    tr.(tr_now) <= now -> tr.(tr_flights) !! id = Some f -> Release enabled e now f.(fl_dims) id f.(fl_called) tr.(tr_slots) = (once, s') ->
    tracker_step tr (mkTracker s' tr.(tr_counters)
      (<[id := mkFlight f.(fl_dims) f.(fl_at) false once (f.(fl_done) || (negb f.(fl_called) && enabled && bool_decide (e = Answered)))]> tr.(tr_flights)) now)
| ts_count tr enabled t e now dim ids r s' :
    (forall x, t = Some x -> x <= now) -> tr.(tr_now) <= now -> BatchCount enabled t e now dim ids tr.(tr_slots) = (r, s') ->
    tracker_step tr (mkTracker s' tr.(tr_counters) tr.(tr_flights) now)
| ts_break_down tr enabled t e1 e2 now dim id r s' :
    (forall x, t = Some x -> x <= now) -> tr.(tr_now) <= now -> CountByDimension enabled t e1 e2 now dim id tr.(tr_slots) = (r, s') ->
    tracker_step tr (mkTracker s' tr.(tr_counters) tr.(tr_flights) now)
| ts_lose tr gone loaded now :
    tr.(tr_now) <= now -> tracker_step tr (mkTracker (lose gone loaded tr.(tr_slots)) tr.(tr_counters) (robbed gone <$> tr.(tr_flights)) now).
Definition idle (now : Z) : Tracker := mkTracker (mkSlots ∅ false) ∅ ∅ now.
Definition tracker_run (tr : Tracker) : Prop := exists now, rtc tracker_step (idle now) tr.

(** ** The invariant *)

Section invariant.
Implicit Types (fls : gmap string Flight) (s : Slots).
Abbreviation TTL := (SlotTTLSeconds * 1000).
Definition ids_ok (cs : gmap Z Z) fls : Prop :=
  forall id f, fls !! id = Some f -> exists p n, id = NewRequestID p n /\ uint64 p /\ 0 < n < 2 ^ 64 /\ n <= default 0 (cs !! p).
(** Members belong to requests whose release has not succeeded. *)
Definition members_ok (now : Z) fls s : Prop :=
  forall k mem sec t, entry s k mem = Some (sec, t) ->
    exists id f, fls !! id = Some f /\ mem = member f.(fl_dims) id /\ k ∈ keys f.(fl_dims) /\ sec = f.(fl_at) / 1000 /\ f.(fl_at) + TTL <= t /\
      f.(fl_at) <= now /\ f.(fl_done) = false.
Definition present s (id : string) (f : Flight) (k : string) : Prop := exists t, entry s k (member f.(fl_dims) id) = Some (f.(fl_at) / 1000, t) /\ f.(fl_at) + TTL <= t.
(** Requests that were tracked and not released are members, until they are too old. *)
Definition kept_ok (now : Z) fls s : Prop :=
  forall id f k, fls !! id = Some f -> f.(fl_kept) = true -> now / 1000 - SlotTTLSeconds < f.(fl_at) / 1000 -> k ∈ keys f.(fl_dims) -> present s id f k.
Definition slots_ok (now : Z) fls s : Prop := members_ok now fls s /\ kept_ok now fls s.

Lemma slots_ok_time now now' fls s : slots_ok now fls s -> now <= now' -> slots_ok now' fls s.
Proof.
  intros [Hm Hk] Hle. assert (now / 1000 <= now' / 1000) by (apply Z.div_le_mono; lia). split.
  - intros k mem sec t He. destruct (Hm _ _ _ _ He) as (id & f & ?); destruct_and!. exists id, f. split_and!; done || lia.
  - intros id f k Hf Hkept Hage. apply Hk; done || lia.
Qed.
Lemma young now at_ : now / 1000 - SlotTTLSeconds < at_ / 1000 -> now < at_ + TTL.
Proof. unfold SlotTTLSeconds. intros H. pose proof (Z.div_mod now 1000 ltac:(lia)). pose proof (Z.mod_pos_bound now 1000 ltac:(lia)).
  pose proof (Z.div_mod at_ 1000 ltac:(lia)). pose proof (Z.mod_pos_bound at_ 1000 ltac:(lia)). lia. Qed.

Lemma slots_ok_trim now cutoff k fls s : slots_ok now fls s -> cutoff <= now / 1000 - SlotTTLSeconds -> slots_ok now fls (ZRemRangeByScore now cutoff k s).
Proof.
  intros [Hm Hk] Hc. split.
  - intros k' mem sec t [He _]%entry_ZRemRange. by apply Hm.
  - intros id f k' Hf Hkept Hage Hin. destruct (Hk id f k' Hf Hkept Hage Hin) as (t & He & Ht). exists t. split; [|done]. apply entry_ZRemRange. split; [done|].
    intros ->. pose proof (young _ _ Hage). lia.
Qed.

Context (cs : gmap Z Z) (fls : gmap string Flight) (Hids : ids_ok cs fls).
Lemma members_distinct id f id' f' : fls !! id = Some f -> fls !! id' = Some f' -> member f.(fl_dims) id = member f'.(fl_dims) id' -> id = id'.
Proof.
  intros H H' E. destruct (Hids _ _ H) as (p & n & -> & _). destruct (Hids _ _ H') as (p' & n' & -> & _). eapply member_id; [apply NewRequestID_plain..|exact E].
Qed.
Lemma slots_ok_track now id f k s :
  slots_ok now fls s -> fls !! id = Some f -> f.(fl_at) = now -> f.(fl_done) = false -> k ∈ keys f.(fl_dims) ->
  slots_ok now fls (trackScript now (member f.(fl_dims) id) k s) /\ present (trackScript now (member f.(fl_dims) id) k s) id f k.
Proof.
  intros [Hm Hk] Hf Hat Hd Hin. assert (present (trackScript now (member f.(fl_dims) id) k s) id f k) as Hp.
  { exists (now + TTL). split; [|lia]. apply entry_track. rewrite !decide_True by done. by rewrite Hat. }
  split; [split|done].
  - intros k' mem sec t He. apply entry_track in He. destruct (decide (k' = k)) as [->|]; [|by apply Hm]. destruct He as [-> He]. destruct (decide (mem = _)) as [->|].
    + exists id, f. split_and!; congruence || lia || done.
    + destruct He as (u & He & _). destruct (Hm _ _ _ _ He) as (id' & f' & ?); destruct_and!. exists id', f'. split_and!; done || lia.
  - intros id' f' k' Hf' Hkept Hage Hin'. destruct (decide (id' = id)) as [->|Hne].
    + assert (f' = f) as -> by congruence. destruct (decide (k' = k)) as [->|Hk']; [done|]. destruct (Hk id f k' Hf Hkept Hage Hin') as (t & He & Ht). exists t. split; [|done]. apply entry_track. by rewrite decide_False.
    + destruct (Hk id' f' k' Hf' Hkept Hage Hin') as (t & He & Ht). destruct (decide (k' = k)) as [->|Hk'].
      * exists (now + TTL). destruct (Hm _ _ _ _ He) as (id2 & f2 & Hf2 & E2 & _ & _ & _ & Hle & _). rewrite <- (members_distinct _ _ _ _ Hf' Hf2 E2) in Hf2. simplify_eq.
        split; [|lia]. apply entry_track. rewrite decide_True by done. split; [done|].
        rewrite decide_False by (intros E; apply Hne; by eapply members_distinct). exists t. pose proof (young _ _ Hage). split_and!; done || lia.
      * exists t. split; [|done]. apply entry_track. by rewrite decide_False.
Qed.
Lemma slots_ok_remove now id f k s :
  slots_ok now fls s -> fls !! id = Some f -> f.(fl_kept) = false ->
  slots_ok now fls (ZRem now (member f.(fl_dims) id) k s).
Proof.
  intros [Hm Hk] Hf Hno. split.
  - intros k' mem sec t [He _]%entry_ZRem. by apply Hm.
  - intros id' f' k' Hf' Hkept Hage Hin. destruct (Hk id' f' k' Hf' Hkept Hage Hin) as (t & He & Ht). exists t. split; [|done]. apply entry_ZRem. split; [done|].
    intros ->. split; [|pose proof (young _ _ Hage); lia]. intros E. rewrite (members_distinct _ _ _ _ Hf' Hf E) in Hf'. congruence.
Qed.

(** Pipelines. *)
Lemma over_track now id f ks s :
  slots_ok now fls s -> fls !! id = Some f -> f.(fl_at) = now -> f.(fl_done) = false -> ks ⊆ keys f.(fl_dims) ->
  let s' := over ks (trackScript now (member f.(fl_dims) id)) s in
  slots_ok now fls s' /\ (forall k, present s id f k \/ k ∈ ks -> present s' id f k).
Proof.
  intros Hok Hf Hat Hd. revert s Hok. induction ks as [|k ks IH]; intros s Hok Hsub; [split; [done|]; intros k [|[]%elem_of_nil]; done|].
  destruct (slots_ok_track now id f k s Hok Hf Hat Hd ltac:(set_solver)) as [Hok' Hp]. destruct (IH _ Hok' ltac:(set_solver)) as [H1 H2].
  split; [done|]. intros k' Hk'. apply H2. destruct (decide (k' = k)) as [->|Hne]; [by left|]. destruct Hk' as [(t & He & Ht)|Hin]; [left|set_solver].
  exists t. split; [|done]. apply entry_track. by rewrite decide_False.
Qed.
Lemma over_remove now id f ks s :
  slots_ok now fls s -> fls !! id = Some f -> f.(fl_kept) = false ->
  let s' := over ks (ZRem now (member f.(fl_dims) id)) s in
  slots_ok now fls s' /\ (forall k, entry s k (member f.(fl_dims) id) = None \/ k ∈ ks -> entry s' k (member f.(fl_dims) id) = None).
Proof.
  intros Hok Hf Hno. revert s Hok. induction ks as [|k ks IH]; intros s Hok; [split; [done|]; intros k [|[]%elem_of_nil]; done|].
  destruct (IH _ (slots_ok_remove now id f k s Hok Hf Hno)) as [H1 H2]. split; [done|]. intros k' Hk'. apply H2.
  destruct (entry (ZRem _ _ _ _) k' _) as [[sec t]|] eqn:E; [|by left]. right. apply entry_ZRem in E as [E Hx]. destruct Hk' as [Hk'|Hk']; [congruence|].
  apply elem_of_cons in Hk' as [->|]; [|done]. by destruct (Hx eq_refl).
Qed.
Lemma over_trim now cutoff ks s : slots_ok now fls s -> cutoff <= now / 1000 - SlotTTLSeconds -> slots_ok now fls (over ks (ZRemRangeByScore now cutoff) s).
Proof. intros H Hc. revert s H. induction ks as [|k ks IH]; intros s H; [done|]. by apply IH, slots_ok_trim. Qed.
End invariant.

Lemma slots_ok_update now id f f' fls s :
  slots_ok now (<[id := f]> fls) s -> f'.(fl_dims) = f.(fl_dims) -> f'.(fl_at) = f.(fl_at) ->
  (f'.(fl_kept) = true -> f.(fl_kept) = true \/ forall k, k ∈ keys f.(fl_dims) -> present s id f k) ->
  (f'.(fl_done) = true -> f.(fl_done) = true \/ forall k, k ∈ keys f.(fl_dims) -> entry s k (member f.(fl_dims) id) = None) ->
  slots_ok now (<[id := f']> fls) s.
Proof.
  intros [Hm Hk] Hd Ha Hkept Hdone. split.
  - intros k mem sec t He. destruct (Hm _ _ _ _ He) as (id2 & f2 & Hf2 & -> & Hin & -> & Ht & Hle & Hnd). destruct (decide (id2 = id)) as [->|Hne].
    + rewrite lookup_insert_eq in Hf2. injection Hf2 as <-. exists id, f'. rewrite lookup_insert_eq, Hd, Ha. split_and!; try done.
      destruct (fl_done f'); [|done]. destruct (Hdone eq_refl) as [|Hx]; [congruence|]. rewrite (Hx k Hin) in He. done.
    + rewrite lookup_insert_ne in Hf2 by done. exists id2, f2. rewrite lookup_insert_ne by done. done.
  - intros id2 f2 k Hf2 Hk2 Hage Hin. destruct (decide (id2 = id)) as [->|Hne].
    + rewrite lookup_insert_eq in Hf2. injection Hf2 as <-. unfold present. rewrite Hd, Ha in *. destruct (Hkept Hk2) as [Hf|Hp]; [|by apply Hp].
      apply (Hk id f k); try done. by rewrite lookup_insert_eq.
    + apply Hk; try done. rewrite lookup_insert_ne in Hf2 |- * by done. done.
Qed.
Lemma slots_ok_fresh now id d at_ fls s : slots_ok now fls s -> fls !! id = None -> slots_ok now (<[id := mkFlight d at_ false false false]> fls) s.
Proof.
  intros [Hm Hk] Hnew. split.
  - intros k mem sec t He. destruct (Hm _ _ _ _ He) as (id2 & f2 & Hf2 & ?). exists id2, f2. rewrite lookup_insert_ne by congruence. done.
  - intros id2 f2 k Hf2 Hk2. destruct (decide (id2 = id)) as [->|Hne]; [rewrite lookup_insert_eq in Hf2; by simplify_eq|]. rewrite lookup_insert_ne in Hf2 by done. by apply Hk.
Qed.
Lemma fresh_id cs fls p c : ids_ok cs fls -> uint64 p -> c = default 0 (cs !! p) -> 0 <= c -> c + 1 < 2 ^ 64 -> fls !! NewRequestID p (c + 1) = None.
Proof.
  intros Hids Hp Hc H0 Hlt. destruct (fls !! _) as [f|] eqn:E; [|done]. destruct (Hids _ _ E) as (p' & n & Eid & Hp' & Hn & Hle).
  apply NewRequestID_inj in Eid as [<- <-]; unfold uint64 in *; lia.
Qed.
Lemma carried_sub e ks : carried e ks ⊆ ks.
Proof. destruct e as [|n]; [done|]. intros k. simpl. rewrite !list_elem_of_lookup. intros [i Hi]. exists i. by apply lookup_take_Some in Hi as [? _]. Qed.
Lemma exec_track cs fls now id f e useEval s err s' :
  ids_ok cs fls -> slots_ok now fls s -> fls !! id = Some f -> f.(fl_at) = now -> f.(fl_done) = false ->
  execTrackPipeline e useEval now (member f.(fl_dims) id) (keys f.(fl_dims)) s = (err, s') ->
  slots_ok now fls s' /\ (err = None -> forall k, k ∈ keys f.(fl_dims) -> present s' id f k) /\ (useEval || s.(sl_loaded) = false -> s' = s).
Proof.
  intros Hids Hok Hf Ha Hd. unfold execTrackPipeline. destruct (useEval || sl_loaded s); [|by intros [= <- <-]].
  destruct (over_track cs fls Hids now id f (carried e (keys f.(fl_dims))) s Hok Hf Ha Hd (carried_sub _ _)) as [H1 H2].
  intros [= <- <-]. split; [done|]. split; [|done]. destruct e; [|done]. intros _ k Hk. destruct (H2 k (or_intror Hk)) as (t & He & Ht). by exists t.
Qed.

Definition tracker_inv (tr : Tracker) : Prop :=
  ids_ok tr.(tr_counters) tr.(tr_flights) /\ (forall p, 0 <= default 0 (tr.(tr_counters) !! p)) /\ slots_ok tr.(tr_now) tr.(tr_flights) tr.(tr_slots).
Lemma ids_ok_begin cs fls p c f : ids_ok cs fls -> uint64 p -> c = default 0 (cs !! p) -> 0 <= c -> c + 1 < 2 ^ 64 ->
  ids_ok (<[p := c + 1]> cs) (<[NewRequestID p (c + 1) := f]> fls).
Proof.
  intros Hids Hp Hc H0 Hlt id g. destruct (decide (id = NewRequestID p (c + 1))) as [->|Hne].
  - intros _. exists p, (c + 1). rewrite lookup_insert_eq. simpl. split_and!; done || lia.
  - rewrite lookup_insert_ne by done. intros Hg. destruct (Hids _ _ Hg) as (p' & n & -> & Hp' & Hn & Hle). exists p', n. split_and!; try done; try lia.
    destruct (decide (p' = p)) as [->|]; [rewrite lookup_insert_eq; simpl; lia|by rewrite lookup_insert_ne].
Qed.
Lemma begin_inv tr p c d enabled e1 e2 now1 now2 err s' :
  tracker_inv tr -> tr.(tr_now) <= now1 <= now2 -> uint64 p -> c = default 0 (tr.(tr_counters) !! p) -> c + 1 < 2 ^ 64 ->
  Track enabled e1 e2 now1 now2 d (NewRequestID p (c + 1)) tr.(tr_slots) = (err, s') ->
  tracker_inv (mkTracker s' (<[p := c + 1]> tr.(tr_counters))
    (<[NewRequestID p (c + 1) := mkFlight d (if tr.(tr_slots).(sl_loaded) then now1 else now2) (enabled && bool_decide (err = None)) false false]> tr.(tr_flights)) now2).
Proof.
  intros (Hids & Hpos & Hok) Hnow Hp Hc Hlt Ht. pose proof (Hpos p) as H0. rewrite <- Hc in H0. set (id := NewRequestID p (c + 1)) in *.
  split; [by apply ids_ok_begin|]. split; [intros q; cbn [tr_counters]; destruct (decide (q = p)) as [->|]; [rewrite lookup_insert_eq; simpl; lia|by rewrite lookup_insert_ne]|]. simpl.
  set (at_ := if sl_loaded (tr_slots tr) then now1 else now2). assert (tr.(tr_now) <= at_ <= now2) as Hat by (unfold at_; destruct (sl_loaded _); lia).
  set (f := mkFlight d at_ false false false). assert (slots_ok at_ (<[id := f]> tr.(tr_flights)) tr.(tr_slots)) as Hok0.
  { apply slots_ok_fresh; [eapply slots_ok_time; [done|lia]|by eapply fresh_id]. }
  assert (forall (err' : option pipe_error) s1, slots_ok at_ (<[id := f]> tr.(tr_flights)) s1 -> (enabled = true -> err' = None -> forall k, k ∈ keys d -> present s1 id f k) ->
    slots_ok now2 (<[id := mkFlight d at_ (enabled && bool_decide (err' = None)) false false]> tr.(tr_flights)) s1) as Hfin.
  { intros err' s1 H1 H2. eapply slots_ok_time; [|apply Hat]. eapply slots_ok_update; [exact H1|done|done| |done]. simpl. intros [-> He]%andb_true_iff.
    apply bool_decide_eq_true in He. right. by apply H2. }
  assert (ids_ok (<[p := c + 1]> tr.(tr_counters)) (<[id := f]> tr.(tr_flights))) as Hids' by (by apply ids_ok_begin). assert ((<[id := f]> tr.(tr_flights)) !! id = Some f) as Hf by apply lookup_insert_eq.
  unfold Track in Ht. replace (String.eqb id "") with false in Ht by done. destruct enabled; simpl in Ht; [|injection Ht as <- <-; by apply Hfin].
  case_bool_decide as Hk; [injection Ht as <- <-; apply Hfin; [done|]; rewrite Hk; intros _ _ k Hin; set_solver|]. unfold runTrackPipeline in Ht.
  destruct (execTrackPipeline e1 false now1 _ _ _) as [o s1] eqn:E1. destruct (sl_loaded (tr_slots tr)) eqn:El.
  - destruct (exec_track _ _ now1 id f e1 false _ o s1 Hids' Hok0 Hf eq_refl eq_refl E1) as (H1 & H2 & _). destruct o as [[]|]; [|injection Ht as <- <-; by apply Hfin..].
    exfalso. unfold execTrackPipeline in E1. rewrite El in E1. simpl in E1. by destruct e1.
  - assert (s1 = tr.(tr_slots)) as -> by (unfold execTrackPipeline in E1; rewrite El in E1; by simplify_eq/=).
    destruct o as [[]|]; [|injection Ht as <- <-; by apply Hfin|]; [|unfold execTrackPipeline in E1; rewrite El in E1; by simplify_eq/=].
    destruct (exec_track _ _ now2 id f e2 true _ err s' Hids' Hok0 Hf eq_refl eq_refl Ht) as (H1 & H2 & _). by apply Hfin.
Qed.
Lemma release_inv tr id f enabled e now once s' :
  tracker_inv tr -> tr.(tr_now) <= now -> tr.(tr_flights) !! id = Some f -> Release enabled e now f.(fl_dims) id f.(fl_called) tr.(tr_slots) = (once, s') ->
  tracker_inv (mkTracker s' tr.(tr_counters)
    (<[id := mkFlight f.(fl_dims) f.(fl_at) false once (f.(fl_done) || (negb f.(fl_called) && enabled && bool_decide (e = Answered)))]> tr.(tr_flights)) now).
Proof.
  intros (Hids & Hpos & Hok) Hnow Hf Hr.
  assert (forall g, ids_ok tr.(tr_counters) (<[id := g]> tr.(tr_flights))) as Hids'.
  { intros g id' f'. destruct (decide (id' = id)) as [->|]; [intros _; by apply (Hids id f)|rewrite lookup_insert_ne by done; apply Hids]. }
  split; [apply Hids'|]. split; [done|]. simpl. set (g := mkFlight f.(fl_dims) f.(fl_at) false f.(fl_called) f.(fl_done)).
  assert (slots_ok now (<[id := g]> tr.(tr_flights)) tr.(tr_slots)) as H0.
  { apply (slots_ok_update now id f g); [|done|done|done|by left]. rewrite insert_id by done. by eapply slots_ok_time. }
  destruct (Hids id f Hf) as (p & n & Eid & _). assert (String.eqb id "" = false) as Hne by (by rewrite Eid). unfold Release in Hr. rewrite Hne in Hr.
  destruct f.(fl_called) eqn:Ec; simpl in *.
  { injection Hr as <- <-. rewrite orb_false_r. apply (slots_ok_update now id g); auto. }
  destruct enabled; simpl in *; [|injection Hr as <- <-; rewrite orb_false_r; apply (slots_ok_update now id g); auto].
  injection Hr as <- <-. destruct (over_remove tr.(tr_counters) (<[id := g]> tr.(tr_flights)) (Hids' g) now id g (carried e (keys f.(fl_dims))) tr.(tr_slots) H0 (lookup_insert_eq _ _ _) eq_refl) as [H1 H2].
  apply (slots_ok_update now id g); [exact H1|done|done|done|]. intros [Hd|He%bool_decide_eq_true]%orb_true_iff; [by left|subst e]. right. intros k Hk. apply H2. by right.
Qed.
Lemma cutoff_le t now : t <= now -> cutoff_of t <= now / 1000 - SlotTTLSeconds.
Proof. intros H. unfold cutoff_of. assert (t / 1000 <= now / 1000) by (apply Z.div_le_mono; lia). lia. Qed.
Lemma BatchCount_ok fls enabled t e now dim ids s r s' :
  slots_ok now fls s -> (forall x, t = Some x -> x <= now) -> BatchCount enabled t e now dim ids s = (r, s') -> slots_ok now fls s'.
Proof.
  intros Hok Ht. unfold BatchCount. destruct (negb enabled || _); [by intros [= _ <-]|]. destruct t as [t|]; [|by intros [= _ <-]].
  pose proof (cutoff_le t now (Ht t eq_refl)). destruct e; intros [= _ <-]; by apply over_trim.
Qed.
Lemma CountByDimension_ok fls enabled t e1 e2 now dim id s r s' :
  slots_ok now fls s -> (forall x, t = Some x -> x <= now) -> CountByDimension enabled t e1 e2 now dim id s = (r, s') -> slots_ok now fls s'.
Proof.
  intros Hok Ht. unfold CountByDimension. destruct (negb enabled || _); [by intros [= _ <-]|]. destruct t as [t|]; [|by intros [= _ <-]].
  pose proof (cutoff_le t now (Ht t eq_refl)). destruct (negb e1); [by intros [= _ <-]|]. destruct (negb e2); intros [= _ <-]; by apply slots_ok_trim.
Qed.
Lemma entry_lose gone loaded s k mem sec t : entry (lose gone loaded s) k mem = Some (sec, t) <-> entry s k mem = Some (sec, t) /\ k ∉ gone.
Proof.
  unfold entry, lose. simpl. destruct (filter _ _ !! k) as [[m u]|] eqn:E.
  - apply map_lookup_filter_Some in E as [-> Hk]. naive_solver.
  - apply map_lookup_filter_None in E as [->|E]; [naive_solver|]. destruct (sl_sets s !! k) as [[m u]|] eqn:Es; [|naive_solver]. split; [done|]. intros [_ Hk]. by destruct (E (m, u) eq_refl).
Qed.
Lemma robbed_lookup gone (fls : gmap string Flight) id f' : (robbed gone <$> fls) !! id = Some f' -> exists f, fls !! id = Some f /\ f' = robbed gone f.
Proof. rewrite lookup_fmap. destruct (fls !! id) as [f|] eqn:E; [|done]. intros [= <-]. eauto. Qed.
Lemma lose_ok gone loaded now (fls : gmap string Flight) s : slots_ok now fls s -> slots_ok now (robbed gone <$> fls) (lose gone loaded s).
Proof.
  intros [Hm Hk]. split.
  - intros k mem sec t [He _]%entry_lose. destruct (Hm _ _ _ _ He) as (id & f & Hf & H). exists id, (robbed gone f). by rewrite lookup_fmap, Hf.
  - intros id f' k (f & Hf & ->)%robbed_lookup [Hkept Hall]%andb_prop Hage Hin. apply bool_decide_eq_true in Hall. rewrite Forall_forall in Hall.
    destruct (Hk id f k Hf Hkept Hage Hin) as (t & He & Ht). exists t. split; [|done]. apply entry_lose. split; [done|by apply Hall].
Qed.
Lemma tracker_step_inv tr tr' : tracker_step tr tr' -> tracker_inv tr -> tracker_inv tr'.
Proof.
  intros Hs Hinv. destruct Hs as [| |tr enabled t e now dim ids r s' Ht Hn Hb|tr enabled t e1 e2 now dim id r s' Ht Hn Hb|tr gone b now Hn].
  - by eapply begin_inv.
  - by eapply release_inv.
  - destruct Hinv as (H1 & H2 & H3). split; [done|]. split; [done|]. eapply BatchCount_ok; [by eapply slots_ok_time|exact Ht|exact Hb].
  - destruct Hinv as (H1 & H2 & H3). split; [done|]. split; [done|]. eapply CountByDimension_ok; [by eapply slots_ok_time|exact Ht|exact Hb].
  - destruct Hinv as (H1 & H2 & H3). split; [intros id f' (f & Hf & ->)%robbed_lookup; by apply (H1 id f)|]. split; [done|]. apply lose_ok. by eapply slots_ok_time.
Qed.
Lemma tracker_run_inv tr : tracker_run tr -> tracker_inv tr.
Proof.
  intros [now Hr]. assert (tracker_inv (idle now)) as Hi.
  { split; [by intros id f Hf|]. split; [intros p; simpl; rewrite lookup_empty; simpl; lia|]. split; [intros k mem sec t; unfold entry; simpl; by rewrite lookup_empty|by intros id f k Hf]. }
  revert Hi. induction Hr as [|x y z Hxy _ IH]; [done|]. intros Hx. by apply IH, (tracker_step_inv x).
Qed.

(** ** What reads count *)

(** Of one id: what surely is in flight, and what may be, with a member that satisfies [Q]. *)
Section counting.
Context (Q : string -> Prop) `{!forall x, Decision (Q x)} (dim : Dimension) (id : Z).
Definition surely (now : Z) (fls : gmap string Flight) : gmap string Flight :=
  filter (fun e => id_of dim e.2.(fl_dims) = id /\ e.2.(fl_kept) = true /\ now / 1000 - SlotTTLSeconds < e.2.(fl_at) / 1000 /\ Q (member e.2.(fl_dims) e.1)) fls.
Definition maybe (t : Z) (fls : gmap string Flight) : gmap string Flight :=
  filter (fun e => id_of dim e.2.(fl_dims) = id /\ e.2.(fl_done) = false /\ t / 1000 - SlotTTLSeconds < e.2.(fl_at) / 1000 /\ Q (member e.2.(fl_dims) e.1)) fls.
Definition members_of (fls : gmap string Flight) : list string := (fun e => member e.2.(fl_dims) e.1) <$> map_to_list fls.

Lemma members_of_NoDup cs fls (P : string * Flight -> Prop) `{!forall x, Decision (P x)} : ids_ok cs fls -> NoDup (members_of (filter P fls)).
Proof.
  intros Hids. apply NoDup_fmap_2_strong; [|apply NoDup_map_to_list]. intros [i f] [j g] Hf%elem_of_map_to_list Hg%elem_of_map_to_list E. simpl in *.
  apply map_lookup_filter_Some in Hf as [Hf _], Hg as [Hg _]. pose proof (members_distinct cs fls Hids _ _ _ _ Hf Hg E). congruence.
Qed.
Lemma counted cs now t fls s :
  let k := slotKey dim id in let l := filter Q (map_to_list (slots_at now s k)).*1 in
  ids_ok cs fls -> slots_ok now fls s -> (forall x sec u, entry s k x = Some (sec, u) -> cutoff_of t < sec) -> 0 < id ->
  (size (surely now fls) <= length l <= size (maybe t fls))%nat.
Proof.
  intros k l Hids [Hm Hk] Hcut Hid.
  assert (forall x, x ∈ l <-> Q x /\ exists sec u, entry s k x = Some (sec, u) /\ now < u) as Hl.
  { intros x. unfold l. rewrite list_elem_of_filter, list_elem_of_fmap. split; intros [HQ Hx]; (split; [done|]).
    - destruct Hx as ([y sec] & -> & Hy%elem_of_map_to_list). apply slots_at_entry in Hy as (u & ? & ?). eauto.
    - destruct Hx as (sec & u & He & Hu). exists (x, sec). split; [done|]. apply elem_of_map_to_list, slots_at_entry. eauto. }
  assert (NoDup l) as Hnd by (apply NoDup_filter, NoDup_fst_map_to_list). split.
  - replace (size (surely now fls)) with (length (members_of (surely now fls))) by (unfold members_of; by rewrite length_fmap, length_map_to_list).
    apply submseteq_length, NoDup_submseteq; [by eapply members_of_NoDup|]. intros x Hx. apply list_elem_of_fmap in Hx as ([i f] & -> & Hf%elem_of_map_to_list).
    apply map_lookup_filter_Some in Hf as [Hf (Hd & Hkept & Hage & HQ)]. simpl in *. apply Hl. split; [done|].
    destruct (Hk i f k Hf Hkept Hage ltac:(by apply keys_id)) as (u & He & Hu). exists (fl_at f / 1000), u. split; [done|]. pose proof (young _ _ Hage). lia.
  - replace (size (maybe t fls)) with (length (members_of (maybe t fls))) by (unfold members_of; by rewrite length_fmap, length_map_to_list).
    apply submseteq_length, NoDup_submseteq; [done|]. intros x Hx. apply Hl in Hx as (HQ & sec & u & He & Hu). pose proof (Hcut _ _ _ He) as Hc.
    destruct (Hm _ _ _ _ He) as (i & f & Hf & -> & Hin & -> & _ & _ & Hdone). apply list_elem_of_fmap. exists (i, f). split; [done|]. apply elem_of_map_to_list, map_lookup_filter_Some.
    split; [done|]. simpl. apply keys_id in Hin; [|done]. done.
Qed.
(** When no tracking and no release of the id failed and none of its sets was lost, both are
    the requests in flight for less than half an hour. *)
Lemma surely_maybe now t fls :
  (forall i f, fls !! i = Some f -> id_of dim f.(fl_dims) = id -> f.(fl_kept) = negb f.(fl_done)) -> t / 1000 = now / 1000 -> surely now fls = maybe t fls.
Proof.
  intros Hall Ht. apply map_filter_ext. intros i f Hf. simpl. rewrite Ht. specialize (Hall i f Hf). destruct f.(fl_done); simpl in *; naive_solver.
Qed.
End counting.

Lemma list_filter_True (l : list string) : filter (fun _ => True) l = l.
Proof. induction l as [|x l IH]; [done|]. rewrite filter_cons_True by done. by rewrite IH. Qed.
Lemma entry_over_trim now cutoff ks s k mem sec t :
  entry (over ks (ZRemRangeByScore now cutoff) s) k mem = Some (sec, t) -> k ∈ ks -> cutoff < sec.
Proof.
  assert (forall ks s, entry (over ks (ZRemRangeByScore now cutoff) s) k mem = Some (sec, t) -> entry s k mem = Some (sec, t)) as Hold.
  { intros l. induction l as [|x l IH]; intros u; [done|]. intros H%IH. by apply entry_ZRemRange in H as [H _]. }
  revert s. induction ks as [|x ks IH]; intros s He Hk; [by apply elem_of_nil in Hk|]. apply elem_of_cons in Hk as [->|Hk]; [|by eapply IH].
  apply (Hold ks), entry_ZRemRange in He as [_ H]. by apply H.
Qed.
Lemma foldl_insert_lookup {A} (v : Z -> A) ids (r : gmap Z A) id : id ∈ ids -> foldl (fun r i => <[i := v i]> r) r ids !! id = Some (v id).
Proof.
  assert (forall l (r : gmap Z A), r !! id = Some (v id) -> foldl (fun r i => <[i := v i]> r) r l !! id = Some (v id)) as Hkeep.
  { intros l. induction l as [|i l IH]; intros r' Hr; [done|]. apply IH. destruct (decide (i = id)) as [->|]; [by rewrite lookup_insert_eq|by rewrite lookup_insert_ne]. }
  revert r. induction ids as [|i ids IH]; intros r Hid; [by apply elem_of_nil in Hid|]. apply elem_of_cons in Hid as [->|Hid]; [|by apply IH]. apply (Hkeep ids), lookup_insert_eq.
Qed.
Abbreviation anything := (fun _ : string => True).

(** C31. What the lists of channels, users and tokens show: over every interleaving of the
    requests of many processes, whatever tracking, release and reading fails and whatever sets
    Redis loses, a read counts of an id at least the requests that were tracked, not released,
    whose sets Redis has not lost and that are younger than half an hour, and at most those
    whose release has not succeeded and that are as young.  So what failures leave behind is
    gone after half an hour; and when nothing of the id failed or was lost, the read counts
    exactly the requests that have been in flight for less than half an hour (older ones are
    not counted any more although they may still run). *)
Theorem in_flight_counted tr t now dim ids id r s' :
  tracker_run tr -> tr.(tr_now) <= now -> t <= now -> id ∈ ids -> 0 < id ->
  BatchCount true (Some t) Answered now dim ids tr.(tr_slots) = (r, s') ->
  exists n, r !! id = Some (Z.of_nat n) /\
    (size (surely anything dim id now tr.(tr_flights)) <= n <= size (maybe anything dim id t tr.(tr_flights)))%nat /\
    ((forall i f, tr.(tr_flights) !! i = Some f -> id_of dim f.(fl_dims) = id -> f.(fl_kept) = negb f.(fl_done)) -> t / 1000 = now / 1000 ->
     n = size (maybe anything dim id now tr.(tr_flights))).
Proof.
  intros Hrun Hnow Ht Hin Hid Hb. destruct (tracker_run_inv tr Hrun) as (Hids & _ & Hok). eapply slots_ok_time in Hok; [|exact Hnow]. unfold BatchCount in Hb.
  rewrite bool_decide_false in Hb by (intros ->; by apply elem_of_nil in Hin). simpl in Hb. injection Hb as <- <-. set (ids' := filter (fun i => 0 < i) ids). assert (id ∈ ids') as Hin' by (by apply list_elem_of_filter).
  set (s := over _ _ _). assert (slots_ok now tr.(tr_flights) s) as Hs by (apply over_trim; [done|by apply cutoff_le]).
  exists (size (slots_at now s (slotKey dim id))). rewrite (foldl_insert_lookup (fun i => Z.of_nat (size (slots_at now s (slotKey dim i))))) by done. split; [done|].
  assert (size (slots_at now s (slotKey dim id)) = length (filter anything (map_to_list (slots_at now s (slotKey dim id))).*1)) as ->.
  { rewrite <- length_map_to_list, <- (length_fmap fst). f_equal. symmetry. by apply list_filter_True. }
  pose proof (counted anything dim id tr.(tr_counters) now t tr.(tr_flights) s Hids Hs) as Hc. destruct Hc as [H1 H2].
  { intros x sec u He. eapply entry_over_trim; [exact He|]. by apply list_elem_of_fmap_2. } { done. }
  split; [done|]. intros Hall Hsec. rewrite (surely_maybe anything dim id now t _ Hall Hsec) in H1. rewrite <- (surely_maybe anything dim id now now _ Hall eq_refl), (surely_maybe anything dim id now t _ Hall Hsec). lia.
Qed.
