(* ===== verification/Sampler.v ===== *)
(** * Samples of the requests in flight (pkg/perf_metrics/concurrency_sampler.go)

    A timer breaks the requests in flight down by channel, model, group and token, adds the
    counts to buckets of time in memory and writes the buckets that have ended to the table
    perf_concurrency (model/perf_concurrency.go), from which the curve of a model is drawn. *)

From stdpp Require Import base tactics numbers list gmap strings pretty sorting.
From Stdlib Require Import ZArith Lia Floats.SpecFloat.
From S2P Require Import Prelude Float64 Concurrency.
Open Scope Z_scope.

(** ** The triple of a member *)

Definition bar : Ascii.ascii := Ascii.ascii_of_nat 124.
(** What precedes and what follows the last [c], by [strings.LastIndex]. *)
Fixpoint cut_last (c : Ascii.ascii) (s : string) : option (string * string) :=
  match s with
  | EmptyString => None
  | String d s' =>
      match cut_last c s' with
      | Some (a, b) => Some (String d a, b)
      | None => if bool_decide (d = c) then Some (EmptyString, s') else None
      end
  end.
(** [strconv.ParseUint] in base ten: [None] on a character that is no digit. *)
Definition digit10 (c : Ascii.ascii) : option Z :=
  let n := Z.of_nat (Ascii.nat_of_ascii c) in if (48 <=? n) && (n <=? 57) then Some (n - 48) else None.
Fixpoint ParseUint10 (acc : Z) (s : string) : option Z :=
  match s with
  | EmptyString => Some acc
  | String c s =>
      match digit10 c with
      | None => None
      | Some d => let n := acc * 10 + d in if 2 ^ 64 <=? n then Some (2 ^ 64 - 1) else ParseUint10 n s
      end
  end.
Definition minus : Ascii.ascii := Ascii.ascii_of_nat 45.
Definition plus : Ascii.ascii := Ascii.ascii_of_nat 43.
(** [strconv.Atoi]: the number and whether there is no error. *)
Definition Atoi (s : string) : Z * bool :=
  let '(neg, digits) := match s with
                        | String c r => if bool_decide (c = minus) then (true, r) else if bool_decide (c = plus) then (false, r) else (false, s)
                        | EmptyString => (false, s)
                        end in
  if String.eqb digits "" then (0, false)
  else match ParseUint10 0 digits with
       | None => (0, false)
       | Some u =>
           if neg then (if 2 ^ 63 <? u then (- 2 ^ 63, false) else (- u, true))
           else (if 2 ^ 63 <=? u then (2 ^ 63 - 1, false) else (u, true))
       end.
Definition splitModelGroupToken (triple : string) : string * string * Z :=
  match cut_last bar triple with
  | None => (triple, EmptyString, 0)
  | Some (rest, token) =>
      match cut_last bar rest with
      | None => (rest, token, 0)
      | Some (model, group) => (model, group, (Atoi token).1)
      end
  end.

(** ** Which ids are live *)

(** [pages]: the answers to the [SCAN] commands; [None]: one fails. *)
Definition TrimPrefix (s p : string) : string := if HasPrefix s p then String.substring (String.length p) (String.length s - String.length p) s else s.
Definition key_ids (prefix : string) (ks : list string) : list Z :=
  omap (fun k => let '(id, ok) := Atoi (TrimPrefix k prefix) in if ok && (0 <? id) then Some id else None) ks.
Definition LiveIDs (enabled : bool) (pages : list (option (list string))) (dim : Dimension) : option (list Z) :=
  if negb enabled then Some []
  else mjoin <$> mapM (fmap (key_ids ("concurrency:v1:" +:+ dimension_name dim +:+ ":"))) pages.

(** ** Buckets *)

Record bucketKey := mkBucketKey { bk_model : string; bk_group : string; bk_channel : string; bk_tokenId : Z; bk_bucket : Z }.
#[export] Instance bucketKey_eq_dec : EqDecision bucketKey.
Proof. solve_decision. Defined.
#[export] Instance bucketKey_countable : Countable bucketKey.
Proof.
  refine (inj_countable' (fun k => (k.(bk_model), k.(bk_group), k.(bk_channel), k.(bk_tokenId), k.(bk_bucket))) (fun '(m, g, c, t, b) => mkBucketKey m g c t b) _). by intros [].
Defined.
(** A bucket in memory, and likewise a row of the table. *)
Record bucket := mkBucket { b_max : Z; b_sum : Z; b_count : Z }.
Definition empty_bucket : bucket := mkBucket 0 0 0.
Record Samples := mkSamples { sm_buckets : gmap bucketKey bucket; sm_rows : gmap bucketKey bucket }.

Definition bucketStart (bucketSeconds ts : Z) : Z := let bs := if bucketSeconds <=? 0 then 3600 else bucketSeconds in ts - Z.rem ts bs.
Definition add_sample (b : bucket) (count : Z) : bucket :=
  mkBucket (if b.(b_max) <? count then count else b.(b_max)) (b.(b_sum) + count) (b.(b_count) + 1).
Definition addConcurrencySamples (snapshot : gmap bucketKey Z) (bs : gmap bucketKey bucket) : gmap bucketKey bucket :=
  foldl (fun bs e => <[e.1 := add_sample (default empty_bucket (bs !! e.1)) e.2]> bs) bs (map_to_list snapshot).
(** The row of a key is created, or its peak raised and its sums added to. *)
Definition merge_rows (old new : bucket) : bucket :=
  mkBucket (if new.(b_max) <? old.(b_max) then old.(b_max) else new.(b_max)) (old.(b_sum) + new.(b_sum)) (old.(b_count) + new.(b_count)).
Definition UpsertPerfConcurrency (k : bucketKey) (b : bucket) (rows : gmap bucketKey bucket) : gmap bucketKey bucket :=
  <[k := match rows !! k with Some old => merge_rows old b | None => b end]> rows.
(** [up]: which writes the database carries out; a bucket whose write fails is gone. *)
Definition flush_bucket (up : bucketKey -> bool) (current : Z) (s : Samples) (e : bucketKey * bucket) : Samples :=
  if current <=? e.1.(bk_bucket) then s
  else mkSamples (delete e.1 s.(sm_buckets))
         (if (e.2.(b_count) =? 0) || negb (up e.1) then s.(sm_rows) else UpsertPerfConcurrency e.1 e.2 s.(sm_rows)).
Definition flushCompletedConcurrencyBuckets (up : bucketKey -> bool) (current : Z) (s : Samples) : Samples :=
  foldl (flush_bucket up current) s (map_to_list s.(sm_buckets)).

(** ** A sample *)

Definition bump (k : bucketKey) (count : Z) (m : gmap bucketKey Z) : gmap bucketKey Z := <[k := default 0 (m !! k) + count]> m.
(** The counts of one channel, by channel and by token. *)
Definition sort_counts (channel : string) (ts : Z) (acc : gmap bucketKey Z * gmap bucketKey Z) (e : string * Z) : gmap bucketKey Z * gmap bucketKey Z :=
  let '(model, group, tokenId) := splitModelGroupToken e.1 in
  let perChannel := bump (mkBucketKey model group channel 0 ts) e.2 acc.1 in
  if tokenId <=? 0 then (perChannel, acc.2) else (perChannel, bump (mkBucketKey model group EmptyString tokenId ts) e.2 acc.2).
(** How Redis answers the read of a channel: [TIME], the two commands, and when they run. *)
Record read_answers := mkReadAnswers { ra_time : option Z; ra_trimmed : bool; ra_listed : bool; ra_now : Z }.
Definition sample_channel (name : Z -> string) (answers : Z -> read_answers) (ts : Z) (acc : (gmap bucketKey Z * gmap bucketKey Z) * Slots) (id : Z) :
    (gmap bucketKey Z * gmap bucketKey Z) * Slots :=
  let a := answers id in
  match CountByDimension true a.(ra_time) a.(ra_trimmed) a.(ra_listed) a.(ra_now) DimensionChannel id acc.2 with
  | (None, s) => (acc.1, s)
  | (Some counts, s) => (foldl (sort_counts (name id) ts) acc.1 (map_to_list counts), s)
  end.
Definition snapshot (name : Z -> string) (answers : Z -> read_answers) (ts : Z) (ids : list Z) (slots : Slots) : (gmap bucketKey Z * gmap bucketKey Z) * Slots :=
  foldl (sample_channel name answers ts) ((∅, ∅), slots) ids.
(** [now1], [now2]: the seconds in which the counts are made and the buckets flushed. *)
Definition sampleConcurrency (enabled redis : bool) (pages : list (option (list string))) (name : Z -> string) (answers : Z -> read_answers)
    (up : bucketKey -> bool) (bucketSeconds now1 now2 : Z) (slots : Slots) (s : Samples) : Slots * Samples :=
  if negb enabled || negb redis then (slots, s)
  else match LiveIDs true pages DimensionChannel with
       | None => (slots, s)
       | Some [] => (slots, flushCompletedConcurrencyBuckets up (bucketStart bucketSeconds now2) s)
       | Some ids =>
           let '((perChannel, perToken), slots) := snapshot name answers (bucketStart bucketSeconds now1) ids slots in
           let bs := addConcurrencySamples perToken (addConcurrencySamples perChannel s.(sm_buckets)) in
           (slots, flushCompletedConcurrencyBuckets up (bucketStart bucketSeconds now2) (mkSamples bs s.(sm_rows)))
       end.

(** ** The curve of a model *)

Definition add_row (m : gmap Z bucket) (e : bucketKey * bucket) : gmap Z bucket :=
  if 0 <? e.1.(bk_tokenId) then m
  else let a := default empty_bucket (m !! e.1.(bk_bucket)) in
       <[e.1.(bk_bucket) := mkBucket (a.(b_max) + e.2.(b_max)) (a.(b_sum) + e.2.(b_sum)) (a.(b_count) + e.2.(b_count))]> m.
Definition average (b : bucket) : float64 :=
  if 0 <? b.(b_count) then SFdiv 53 1024 (float64_of_int b.(b_sum)) (float64_of_int b.(b_count)) else float64_of_int b.(b_max).
Definition GetPerfConcurrencies (model : string) (startTs endTs : Z) (rows : gmap bucketKey bucket) : list (bucketKey * bucket) :=
  filter (fun e => e.1.(bk_model) = model /\ startTs <= e.1.(bk_bucket) <= endTs) (map_to_list rows).
(** Points of time with peak and average, in order. *)
Definition concurrencySeriesForModel (model : string) (startTs endTs : Z) (rows : gmap bucketKey bucket) : list (Z * (Z * float64)) :=
  let byBucket := foldl add_row ∅ (GetPerfConcurrencies model startTs endTs rows) in
  (fun ts => let b := default empty_bucket (byBucket !! ts) in (ts, (b.(b_max), average b))) <$> merge_sort Z.le (map_to_list byBucket).*1.
