(* ===== verification/SamplerLaws.v ===== *)
(** * What the samples show

    The parts of a member are recovered; on its way to the table nothing sampled is counted
    twice, and nothing lost but what a failed write or a restart catches in memory; and two
    ways in which the curve is wrong. *)

From stdpp Require Import base tactics numbers list gmap strings pretty sorting.
From Stdlib Require Import ZArith Lia.
From S2P Require Import Prelude Float64 Concurrency ConcurrencyLaws Sampler.
Open Scope Z_scope.

(** ** The way of a triple *)

Lemma cut_last_none c s : lacks c s -> cut_last c s = None.
Proof. induction s as [|d s IH]; simpl; [done|]. intros [Hd Hs]. rewrite IH by done. by rewrite bool_decide_false. Qed.
Lemma cut_last_app c a b : lacks c b -> cut_last c (a +:+ String c b) = Some (a, b).
Proof. intros Hb. induction a as [|d a IH]; simpl; [by rewrite cut_last_none, bool_decide_true|by rewrite IH]. Qed.
Lemma cut_last_cases c s : match cut_last c s with None => lacks c s | Some (a, b) => s = a +:+ String c b /\ lacks c b end.
Proof.
  induction s as [|d s IH]; simpl; [done|]. destruct (cut_last c s) as [[a b]|]; [destruct IH as [-> Hb]; done|]. case_bool_decide as Hd; [by subst|]. done.
Qed.

Lemma digit10_char n : (n < 10)%N -> digit10 (pretty_N_char n) = Some (Z.of_N n).
Proof. intros Hn. destruct n as [|p]; [done|]. do 4 (destruct p as [p|p|]; try done). Qed.
Lemma ParseUint10_pretty x s : Z.of_N x < 2 ^ 64 -> ParseUint10 0 (pretty_N_go x s) = ParseUint10 (Z.of_N x) s.
Proof.
  revert s. induction (N.lt_wf_0 x) as [x _ IH]; intros s Hx. destruct (N.eq_dec x 0) as [->|Hne]; [done|]. rewrite pretty_N_go_step by lia.
  assert (x `div` 10 < x)%N as Hd by (apply N.div_lt; lia). rewrite IH by lia. cbn [ParseUint10]. assert (x `mod` 10 < 10)%N as Hm by (apply N.mod_lt; lia).
  rewrite digit10_char by done. assert (Z.of_N (x `div` 10) * 10 + Z.of_N (x `mod` 10) = Z.of_N x) as -> by (pose proof (N.div_mod x 10 ltac:(lia)); lia).
  cbv zeta. by rewrite (proj2 (Z.leb_gt _ _)).
Qed.
Lemma ParseUint10_N x : Z.of_N x < 2 ^ 64 -> ParseUint10 0 (pretty x) = Some (Z.of_N x).
Proof. intros Hx. unfold pretty, pretty_N. case_decide as H0; [by subst|]. by rewrite ParseUint10_pretty. Qed.
Lemma pretty_N_go_lacks c x s : digit10 c = None -> lacks c s -> lacks c (pretty_N_go x s).
Proof.
  intros Hc. revert s. induction (N.lt_wf_0 x) as [x _ IH]; intros s Hs. destruct (N.eq_dec x 0) as [->|Hne]; [done|]. rewrite pretty_N_go_step by lia.
  apply IH; [apply N.div_lt; lia|]. split; [|done]. intros <-. rewrite digit10_char in Hc by (apply N.mod_lt; lia). done.
Qed.
Lemma pretty_N_lacks c (x : N) : digit10 c = None -> lacks c (pretty x).
Proof. intros Hc. unfold pretty, pretty_N. case_decide; [split; [|done]; by intros <-|by apply pretty_N_go_lacks]. Qed.
Lemma pretty_Z_lacks c (z : Z) : digit10 c = None -> c <> minus -> lacks c (pretty z).
Proof.
  intros Hc Hm. destruct z as [|p|p]; [split; [by intros <-|done]|by apply (pretty_N_lacks c (N.pos p))|]. split; [by intros <-|by apply (pretty_N_lacks c (N.pos p))].
Qed.
(** Digits without a sign. *)
Lemma Atoi_digits x : Z.of_N x < 2 ^ 64 ->
  Atoi (pretty x) = (if 2 ^ 63 <=? Z.of_N x then (2 ^ 63 - 1, false) else (Z.of_N x, true)) /\
  Atoi (String minus (pretty x)) = (if 2 ^ 63 <? Z.of_N x then (- 2 ^ 63, false) else (- Z.of_N x, true)).
Proof.
  intros Hx. pose proof (ParseUint10_N x Hx) as Hp. pose proof (pretty_N_lacks minus x eq_refl) as Hm. pose proof (pretty_N_lacks plus x eq_refl) as Hl.
  unfold Atoi. rewrite (bool_decide_true (minus = minus)) by done. assert (String.eqb (pretty x) "" = false) as He.
  { apply String.eqb_neq. intros E. rewrite E in Hp. injection Hp as E0. assert (x = 0)%N as -> by lia. done. }
  rewrite He, Hp. split; [|done]. destruct (pretty x) as [|c s]; [done|]. rewrite (bool_decide_false (c = minus)) by apply Hm. rewrite bool_decide_false by apply Hl. by rewrite He, Hp.
Qed.
Lemma Atoi_pretty z : in_i64 z -> Atoi (pretty z) = (z, true).
Proof.
  unfold in_i64, MinInt64, MaxInt64. intros Hz. destruct z as [|p|p]; [done| |].
  - change (Atoi (pretty (N.pos p)) = (Z.pos p, true)). destruct (Atoi_digits (N.pos p)) as [-> _]; [simpl; lia|]. rewrite (proj2 (Z.leb_gt _ _)) by (simpl; lia). done.
  - change (Atoi (String minus (pretty (N.pos p))) = (Z.neg p, true)). destruct (Atoi_digits (N.pos p)) as [_ ->]; [simpl; lia|]. rewrite (proj2 (Z.ltb_ge _ _)) by (simpl; lia). done.
Qed.

Definition names_ok (d : Dimensions) : Prop := lacks memberSeparator d.(dm_Model) /\ lacks memberSeparator d.(dm_Group).
Definition bucket_name (d : Dimensions) : string := d.(dm_Model) +:+ String bar (d.(dm_Group) +:+ String bar (pretty d.(dm_TokenID))).
Lemma bucket_of_member d id : names_ok d -> lacks memberSeparator id -> bucket_of (member d id) = if has_breakdown d then Some (bucket_name d) else None.
Proof.
  intros [Hm Hg] Hid. unfold bucket_of, member, separated. destruct (has_breakdown d); [|by rewrite SplitN_lacks].
  rewrite !SplitN_first, SplitN_last by done. unfold bucket_name. done.
Qed.
Lemma split_triple d : in_i64 d.(dm_TokenID) -> splitModelGroupToken (bucket_name d) =
  match cut_last bar d.(dm_Group) with
  | None => (d.(dm_Model), d.(dm_Group), d.(dm_TokenID))
  | Some (g, g') => (d.(dm_Model) +:+ String bar g, g', d.(dm_TokenID))
  end.
Proof.
  intros Ht. unfold splitModelGroupToken, bucket_name. change (d.(dm_Model) +:+ String bar (d.(dm_Group) +:+ String bar (pretty d.(dm_TokenID)))) with
    (d.(dm_Model) +:+ (String bar d.(dm_Group) +:+ String bar (pretty d.(dm_TokenID)))). rewrite <- str_app_assoc, cut_last_app by (by apply pretty_Z_lacks).
  pose proof (cut_last_cases bar d.(dm_Group)) as Hg. destruct (cut_last bar d.(dm_Group)) as [[g g']|]; [|by rewrite cut_last_app, Atoi_pretty].
  destruct Hg as [-> Hg]. change (String bar (g +:+ String bar g')) with (String bar g +:+ String bar g'). by rewrite <- str_app_assoc, cut_last_app, Atoi_pretty.
Qed.
(** C33. When model and group hold no separator byte, model, group and token travel inside the
    member of a request: the read of a channel files the request under a key, and from the key
    the sampler recovers all three when the group holds no bar (the model may hold any
    number); of a group with a bar only what follows its last bar comes back as the group, and
    the rest of it is added to the model. *)
Theorem breakdown_roundtrip d p n :
  names_ok d -> in_i64 d.(dm_TokenID) -> has_breakdown d = true ->
  exists key, bucket_of (member d (NewRequestID p n)) = Some key /\
    (lacks bar d.(dm_Group) -> splitModelGroupToken key = (d.(dm_Model), d.(dm_Group), d.(dm_TokenID))) /\
    (forall g g', d.(dm_Group) = g +:+ String bar g' -> lacks bar g' -> splitModelGroupToken key = (d.(dm_Model) +:+ String bar g, g', d.(dm_TokenID))).
Proof.
  intros Hn Ht Hb. exists (bucket_name d). rewrite bucket_of_member, Hb by (done || apply NewRequestID_plain). split; [done|]. split.
  - intros Hg. by rewrite split_triple, cut_last_none.
  - intros g g' Hg Hg'. by rewrite split_triple, Hg, cut_last_app.
Qed.
Definition sample_dims : Dimensions := mkDimensions 3 7 12 "gpt|4o" "vip".
Lemma breakdown_roundtrip_witness :
  bucket_of (member sample_dims (NewRequestID 5 1)) = Some "gpt|4o|vip|12"%string /\ splitModelGroupToken "gpt|4o|vip|12" = ("gpt|4o"%string, "vip"%string, 12).
Proof.
  destruct (breakdown_roundtrip sample_dims 5 1) as (key & Hb & Hs & _); [vm_compute; repeat split; discriminate|vm_compute; split; discriminate|reflexivity|].
  assert (bucket_of (member sample_dims (NewRequestID 5 1)) = Some "gpt|4o|vip|12"%string) as E by (vm_compute; reflexivity). split; [exact E|].
  rewrite E in Hb. injection Hb as <-. apply Hs. vm_compute. repeat split; discriminate.
Defined.
(** ** The counts of a channel *)

Lemma count_members l r b : default 0 (foldl count_member r l !! b) = default 0 (r !! b) + Z.of_nat (length (filter (fun x => bucket_of x = Some b) l)).
Proof.
  revert r. induction l as [|x l IH]; intros r; simpl; [lia|]. rewrite IH, filter_cons. unfold count_member at 1. destruct (bucket_of x) as [b'|]; [|done].
  destruct (decide (b' = b)) as [->|Hne]; [rewrite decide_True by done; rewrite lookup_insert_eq; simpl; lia|]. rewrite decide_False by congruence. rewrite lookup_insert_ne by done. lia.
Qed.
(** The break-down of a channel counts under each key what a list of the channel would count
    of the requests with that key. *)
Theorem breakdown_counted tr t now dim id r s' b :
  tracker_run tr -> tr.(tr_now) <= now -> t <= now -> 0 < id ->
  CountByDimension true (Some t) true true now dim id tr.(tr_slots) = (Some r, s') ->
  Z.of_nat (size (surely (fun x => bucket_of x = Some b) dim id now tr.(tr_flights))) <= default 0 (r !! b) <= Z.of_nat (size (maybe (fun x => bucket_of x = Some b) dim id t tr.(tr_flights))).
Proof.
  intros Hrun Hnow Ht Hid Hb. destruct (tracker_run_inv tr Hrun) as (Hids & _ & Hok). eapply slots_ok_time in Hok; [|exact Hnow]. unfold CountByDimension in Hb.
  rewrite (proj2 (Z.leb_gt id 0)) in Hb by done. simpl in Hb. injection Hb as <- <-. rewrite count_members, lookup_empty. simpl.
  set (s := ZRemRangeByScore _ _ _ _). assert (slots_ok now tr.(tr_flights) s) as Hs by (apply slots_ok_trim; [done|by apply cutoff_le]).
  pose proof (counted (fun x => bucket_of x = Some b) dim id tr.(tr_counters) now t tr.(tr_flights) s Hids Hs) as Hc. destruct Hc as [H1 H2]; [|done|lia].
  intros x sec u He. by apply entry_ZRemRange in He as [_ [H _]].
Qed.

(** ** From the samples to the table *)

(** What is known of a key: its row and its bucket in memory together. *)
Definition known (s : Samples) (k : bucketKey) : bucket := merge_rows (default empty_bucket (s.(sm_rows) !! k)) (default empty_bucket (s.(sm_buckets) !! k)).
(** The counts sampled for a key, newest first. *)
Definition tally (k : bucketKey) (h : list (gmap bucketKey Z)) : bucket :=
  foldr (fun snap b => match snap !! k with Some c => add_sample b c | None => b end) empty_bucket h.
Lemma ltb_max a b : (if a <? b then b else a) = Z.max a b.
Proof. destruct (Z.ltb_spec a b); lia. Qed.
Lemma merge_add r b c : 0 <= r.(b_max) -> merge_rows r (add_sample b c) = add_sample (merge_rows r b) c.
Proof. intros Hr. unfold merge_rows, add_sample. simpl. rewrite !ltb_max. f_equal; lia. Qed.
Lemma merge_empty_l b : 0 <= b.(b_max) -> merge_rows empty_bucket b = b.
Proof. intros Hb. destruct b as [m u c]. unfold merge_rows. simpl in *. rewrite (proj2 (Z.ltb_ge m 0)) by done. done. Qed.
Lemma merge_empty_r b : 0 <= b.(b_max) -> merge_rows b empty_bucket = b.
Proof. intros Hb. destruct b as [m u c]. unfold merge_rows. simpl in *. rewrite !Z.add_0_r. f_equal. destruct (Z.ltb_spec 0 m); lia. Qed.

Lemma add_sample_fold l (bs : gmap bucketKey bucket) k :
  NoDup l.*1 -> foldl (fun bs e => <[e.1 := add_sample (default empty_bucket (bs !! e.1)) e.2]> bs) bs l !! k =
    match (list_to_map l : gmap bucketKey Z) !! k with Some c => Some (add_sample (default empty_bucket (bs !! k)) c) | None => bs !! k end.
Proof.
  revert bs. induction l as [|[k' c] l IH]; intros bs Hnd; simpl; [by rewrite lookup_empty|]. apply NoDup_cons in Hnd as [Hnin Hnd]. rewrite IH by done.
  destruct (decide (k' = k)) as [->|Hne].
  - rewrite lookup_insert_eq. rewrite (not_elem_of_list_to_map_1 l k) by done. by rewrite lookup_insert_eq.
  - rewrite (lookup_insert_ne bs), (lookup_insert_ne (list_to_map l)) by done. done.
Qed.
Lemma addConcurrencySamples_lookup snap bs k :
  addConcurrencySamples snap bs !! k = match snap !! k with Some c => Some (add_sample (default empty_bucket (bs !! k)) c) | None => bs !! k end.
Proof. unfold addConcurrencySamples. rewrite add_sample_fold by apply NoDup_fst_map_to_list. by rewrite list_to_map_to_list. Qed.
Lemma tally_bounds k h : 0 <= (tally k h).(b_max) /\ 0 <= (tally k h).(b_count) /\ ((tally k h).(b_count) = 0 -> tally k h = empty_bucket).
Proof.
  induction h as [|snap h IH]; [done|]. simpl. destruct (snap !! k) as [c|]; [|exact IH]. unfold add_sample. simpl. rewrite ltb_max. lia.
Qed.
Lemma tally_app k h1 h2 : tally k (h1 ++ h2) = merge_rows (tally k h2) (tally k h1).
Proof.
  induction h1 as [|snap h1 IH]; [symmetry; apply merge_empty_r, tally_bounds|]. simpl. rewrite IH. destruct (snap !! k); [|done]. symmetry. apply merge_add, tally_bounds.
Qed.

(** What the flush does to one key. *)
Definition flush_key (up : bool) (mem row : option bucket) : option bucket :=
  match mem with
  | Some b => if (b.(b_count) =? 0) || negb up then row else Some (match row with Some old => merge_rows old b | None => b end)
  | None => row
  end.
Lemma flush_fold up current l s k : NoDup l.*1 ->
  let s' := foldl (flush_bucket up current) s l in let b := (list_to_map l : gmap bucketKey bucket) !! k in
  s'.(sm_buckets) !! k = (if decide (k.(bk_bucket) < current /\ is_Some b) then None else s.(sm_buckets) !! k) /\
  s'.(sm_rows) !! k = if decide (k.(bk_bucket) < current) then flush_key (up k) b (s.(sm_rows) !! k) else s.(sm_rows) !! k.
Proof.
  revert s. induction l as [|[k' b'] l IH]; intros s Hnd s' b.
  { subst s' b. simpl. rewrite lookup_empty, decide_False by (intros [_ [? ?]]; done). by case_decide. }
  apply NoDup_cons in Hnd as [Hnin Hnd]. destruct (IH (flush_bucket up current s (k', b')) Hnd) as [H1 H2]. subst s' b. cbn [foldl list_to_map foldr uncurry]. rewrite H1, H2. clear H1 H2 IH.
  unfold flush_bucket. cbn [fst snd]. destruct (decide (k' = k)) as [->|Hne].
  - rewrite (not_elem_of_list_to_map_1 l k Hnin), lookup_insert_eq. rewrite (decide_False (P := _ /\ is_Some None)) by (intros [_ [? ?]]; done). simpl.
    destruct (Z.leb_spec current (bk_bucket k)); [by rewrite !decide_False by lia|]. rewrite !decide_True by (split_and?; try lia; done). simpl. split; [apply lookup_delete_eq|].
    destruct (_ || _); [done|]. apply lookup_insert_eq.
  - rewrite lookup_insert_ne by done. destruct (Z.leb_spec current (bk_bucket k')); [done|]. simpl. rewrite lookup_delete_ne by done. split; [done|].
    destruct (_ || _); [done|]. unfold UpsertPerfConcurrency. by rewrite lookup_insert_ne.
Qed.
Lemma flush_lookup up current s k :
  let s' := flushCompletedConcurrencyBuckets up current s in
  if decide (k.(bk_bucket) < current) then s'.(sm_buckets) !! k = None /\ s'.(sm_rows) !! k = flush_key (up k) (s.(sm_buckets) !! k) (s.(sm_rows) !! k)
  else s'.(sm_buckets) !! k = s.(sm_buckets) !! k /\ s'.(sm_rows) !! k = s.(sm_rows) !! k.
Proof.
  intros s'. destruct (flush_fold up current (map_to_list s.(sm_buckets)) s k (NoDup_fst_map_to_list _)) as [H1 H2]. rewrite list_to_map_to_list in *. unfold s', flushCompletedConcurrencyBuckets.
  rewrite H1, H2. case_decide as Hc; [|by rewrite decide_False by tauto]. split; [|done]. destruct (sm_buckets s !! k); [by rewrite decide_True|]. by case_decide.
Qed.

(** The counts that a sample contributes: by token and by channel. *)
Definition contributed (pages : list (option (list string))) (name : Z -> string) (answers : Z -> read_answers) (ts : Z) (slots : Slots) : list (gmap bucketKey Z) :=
  match LiveIDs true pages DimensionChannel with
  | Some (id :: ids) => let '(perChannel, perToken, _) := snapshot name answers ts (id :: ids) slots in [perToken; perChannel]
  | _ => []
  end.
(** Samples one after another, whatever happens to Redis in between and whichever writes the
    database refuses, and restarts of the process: with the counts sampled so far, for each of
    these calls the keys whose memory came through it, and the time of the last flush. *)
Inductive sampler_run (bucketSeconds : Z) : Samples -> list (gmap bucketKey Z) -> list (bucketKey -> bool) -> Z -> Prop :=
| sr_start : sampler_run bucketSeconds (mkSamples ∅ ∅) [] [] 0
| sr_call s h ups c pages name answers up now1 now2 slots slots' s' :
    sampler_run bucketSeconds s h ups c ->
    sampleConcurrency true true pages name answers up bucketSeconds now1 now2 slots s = (slots', s') ->
    sampler_run bucketSeconds s' (contributed pages name answers (bucketStart bucketSeconds now1) slots ++ h) (up :: ups)
      (match LiveIDs true pages DimensionChannel with Some _ => bucketStart bucketSeconds now2 | None => c end)
| sr_restart s h ups c :
    sampler_run bucketSeconds s h ups c ->
    sampler_run bucketSeconds (mkSamples ∅ s.(sm_rows)) h ((fun k => bool_decide (s.(sm_buckets) !! k = None)) :: ups) c.

(** Of one key: the row holds the older counts [hr], the bucket the newer ones [hm]. *)
Definition holds (k : bucketKey) (s : Samples) (hm hr : list (gmap bucketKey Z)) : Prop :=
  default empty_bucket (s.(sm_buckets) !! k) = tally k hm /\ default empty_bucket (s.(sm_rows) !! k) = tally k hr.
Definition recorded (k : bucketKey) (s : Samples) (h : list (gmap bucketKey Z)) (came_through : Prop) : Prop :=
  exists hm hr, holds k s hm hr /\ (hm ++ hr) `sublist_of` h /\ (came_through -> hm ++ hr = h).
Lemma holds_add k snap bs rows hm hr : holds k (mkSamples bs rows) hm hr -> holds k (mkSamples (addConcurrencySamples snap bs) rows) (snap :: hm) hr.
Proof. intros [Hm Hr]. split; [|done]. simpl in *. rewrite addConcurrencySamples_lookup. destruct (snap !! k); simpl; by rewrite Hm. Qed.
Lemma recorded_add k bs rows h P snaps :
  recorded k (mkSamples bs rows) h P -> recorded k (mkSamples (foldr addConcurrencySamples bs snaps) rows) (snaps ++ h) P.
Proof.
  intros (hm & hr & Hh & Hsub & Hall). exists (snaps ++ hm), hr. split; [|split].
  - induction snaps as [|snap snaps IH]; [done|]. by apply holds_add.
  - rewrite <- app_assoc. by apply sublist_app.
  - intros HP. rewrite <- app_assoc. by rewrite Hall.
Qed.
Lemma recorded_flush k up current s h (P : Prop) :
  recorded k s h P -> recorded k (flushCompletedConcurrencyBuckets up current s) h (up k = true /\ P).
Proof.
  intros (hm & hr & [Hm Hr] & Hsub & Hall). pose proof (flush_lookup up current s k) as Hf. cbv zeta in Hf. case_decide.
  2:{ destruct Hf as [E1 E2]. exists hm, hr. split; [by split; rewrite ?E1, ?E2|]. split; [done|]. by intros [_ HP]; apply Hall. }
  destruct Hf as [E1 E2]. destruct (up k) eqn:Eu.
  - exists [], (hm ++ hr). split; [|split; [done|by intros [_ HP]; apply Hall]]. split; [by rewrite E1|]. rewrite E2, tally_app, <- Hm, <- Hr. unfold flush_key.
    destruct (tally_bounds k hm) as (Hmax & _ & Hz). rewrite <- Hm in Hmax, Hz. destruct (tally_bounds k hr) as (Hrmax & _). rewrite <- Hr in Hrmax.
    destruct (sm_buckets s !! k) as [b|]; simpl in *; [|symmetry; by apply merge_empty_r]. rewrite orb_false_r. destruct (Z.eqb_spec (b_count b) 0) as [E0|]; [rewrite (Hz E0); symmetry; by apply merge_empty_r|].
    destruct (sm_rows s !! k); [done|]. simpl. symmetry. by apply merge_empty_l.
  - exists [], hr. split; [|split; [|by intros [? _]]].
    + split; [by rewrite E1|]. rewrite E2. unfold flush_key. destruct (sm_buckets s !! k); [|done]. by rewrite orb_true_r.
    + etrans; [|exact Hsub]. by apply sublist_inserts_l.
Qed.
Lemma sampler_run_recorded bucketSeconds s h ups c k : sampler_run bucketSeconds s h ups c ->
  recorded k s h (Forall (fun up => up k = true) ups) /\ (k.(bk_bucket) < c -> s.(sm_buckets) !! k = None).
Proof.
  induction 1 as [|s h ups c pages name answers up now1 now2 slots slots' s' _ [IH Hfl] Hs|s h ups c _ [IH Hfl]].
  - split; [|done]. exists [], []. done.
  - assert (forall s0, recorded k s0 (contributed pages name answers (bucketStart bucketSeconds now1) slots ++ h) (Forall (fun up => up k = true) ups) ->
      recorded k (flushCompletedConcurrencyBuckets up (bucketStart bucketSeconds now2) s0) (contributed pages name answers (bucketStart bucketSeconds now1) slots ++ h) (Forall (fun up => up k = true) (up :: ups)) /\
      (k.(bk_bucket) < bucketStart bucketSeconds now2 -> (flushCompletedConcurrencyBuckets up (bucketStart bucketSeconds now2) s0).(sm_buckets) !! k = None)) as Hflush.
    { intros s0 H0. split.
      - destruct (recorded_flush k up (bucketStart bucketSeconds now2) _ _ _ H0) as (hm & hr & H1 & H2 & H3). exists hm, hr. split_and!; [done|done|]. intros [Hu Hus]%Forall_cons. by apply H3.
      - intros Hlt. pose proof (flush_lookup up (bucketStart bucketSeconds now2) s0 k) as H. cbv zeta in H. rewrite decide_True in H by done. apply H. }
    unfold sampleConcurrency, contributed in *. simpl negb in Hs. cbn [orb] in Hs. destruct (LiveIDs true pages DimensionChannel) as [[|id ids]|].
    + injection Hs as _ <-. by apply Hflush.
    + destruct (snapshot _ _ _ _ _) as [[pc pt] slots1]. injection Hs as _ <-. apply Hflush. destruct s as [bs rows]. by apply (recorded_add k bs rows h _ [pt; pc]).
    + injection Hs as _ <-. split; [|done]. destruct IH as (hm & hr & H1 & H2 & H3). exists hm, hr. split_and!; [done|done|]. intros [_ Hus]%Forall_cons. by apply H3.
  - split; [|by intros _]. destruct IH as (hm & hr & [Hm Hr] & H2 & H3). destruct (s.(sm_buckets) !! k) as [b|] eqn:E.
    + exists [], hr. split; [done|]. split; [etrans; [|exact H2]; by apply sublist_inserts_l|]. intros [Hn _]%Forall_cons. apply bool_decide_eq_true in Hn. congruence.
    + exists hm, hr. split; [done|]. split; [done|]. intros [_ Hus]%Forall_cons. by apply H3.
Qed.
(** C32. From the samples to the table nothing is made up: over any number of samples, writes
    that the database refuses and restarts, for every model, group, channel or token and time,
    the row of the table and the bucket in memory together hold the peak, the sum and the
    number of some of the counts that were sampled for it, each taken once; and of all of them
    when the write of the key never failed and no restart came while it was in memory (a
    bucket is deleted before it is written, so what a failed write or a restart catches in
    memory is lost).  Once its time is over the row alone holds them.  What one sample counts
    is another matter: a channel that the scan returns twice is counted twice in it. *)
Theorem samples_recorded bucketSeconds s h ups c k : sampler_run bucketSeconds s h ups c ->
  exists h', h' `sublist_of` h /\ (Forall (fun up => up k = true) ups -> h' = h) /\
    known s k = tally k h' /\ (k.(bk_bucket) < c -> default empty_bucket (s.(sm_rows) !! k) = tally k h').
Proof.
  intros Hr. destruct (sampler_run_recorded _ _ _ _ _ k Hr) as [(hm & hr & [Hm Hrow] & Hsub & Hall) Hfl]. exists (hm ++ hr). split; [done|]. split; [done|].
  rewrite tally_app. split; [unfold known; by rewrite Hm, Hrow|]. intros Hc. rewrite (Hfl Hc) in Hm. simpl in Hm. rewrite <- Hm, Hrow. symmetry. apply merge_empty_r, tally_bounds.
Qed.

(** ** Samples and witnesses *)

(** Requests on channel 3 and, [two], on channel 4. *)
Definition in_redis (two : bool) : Slots :=
  let track n d s := (Track true Answered Answered 1000 1000 d (NewRequestID 5 n) s).2 in
  let one := track 1 (mkDimensions 3 7 12 "gpt-4o" "vip") (mkSlots ∅ true) in
  if two then track 2 (mkDimensions 4 7 12 "gpt-4o" "vip") one else one.
Definition prompt_answers : Z -> read_answers := fun _ => mkReadAnswers (Some 2000) true true 2000.
Definition channel_key (id : Z) : string := slotKey DimensionChannel id.
Definition sampled (pages : list (option (list string))) (two : bool) (now : Z) (s : Samples) : Samples :=
  (sampleConcurrency true true pages (fun id => "c" +:+ pretty id) prompt_answers (fun _ => true) 60 now now (in_redis two) s).2.
Definition row_of (channel : string) : bucketKey := mkBucketKey "gpt-4o" "vip" channel 0 0.

Lemma samples_recorded_witness :
  let s := sampled [Some []] false 61 (sampled [Some [channel_key 3]] false 2 (mkSamples ∅ ∅)) in
  s.(sm_buckets) = ∅ /\ default empty_bucket (s.(sm_rows) !! row_of "c3") = mkBucket 1 1 1.
Proof.
  intros s. split; [vm_compute; reflexivity|]. set (s1 := sampled [Some [channel_key 3]] false 2 (mkSamples ∅ ∅)).
  pose proof (sr_call 60 (mkSamples ∅ ∅) [] [] 0 [Some [channel_key 3]] (fun id => "c" +:+ pretty id) prompt_answers (fun _ => true) 2 2 (in_redis false) _ s1 (sr_start 60) (surjective_pairing _)) as H1.
  pose proof (sr_call 60 s1 _ _ _ [Some []] (fun id => "c" +:+ pretty id) prompt_answers (fun _ => true) 61 61 (in_redis false) _ s H1 (surjective_pairing _)) as H2.
  destruct (samples_recorded 60 s _ _ _ (row_of "c3") H2) as (h' & _ & Hall & _ & Hrow). rewrite Hall in Hrow by (repeat constructor).
  refine (eq_trans (Hrow _) _); vm_compute; reflexivity.
Defined.
(** When the database refuses the write, the bucket is gone. *)
Example refused_write_loses_bucket :
  let s1 := sampled [Some [channel_key 3]] false 2 (mkSamples ∅ ∅) in
  let s2 := (sampleConcurrency true true [Some []] (fun id => "c" +:+ pretty id) prompt_answers (fun _ => false) 60 61 61 (in_redis false) s1).2 in
  known s1 (row_of "c3") = mkBucket 1 1 1 /\ known s2 (row_of "c3") = empty_bucket.
Proof. vm_compute. done. Qed.

(** [SCAN] may return a key twice, and the ids are not made distinct: one request in flight
    is then recorded as two. *)
Theorem key_scanned_twice_counts_twice :
  (sampled [Some []] false 61 (sampled [Some [channel_key 3]; Some [channel_key 3]] false 2 (mkSamples ∅ ∅))).(sm_rows) !! row_of "c3" = Some (mkBucket 2 2 1).
Proof. vm_compute. reflexivity. Qed.
(** Two channels with one request each are sampled once: the peak of the model is two, its
    average one. *)
Theorem average_not_of_the_model :
  let s := sampled [Some []] true 61 (sampled [Some [channel_key 3; channel_key 4]] true 2 (mkSamples ∅ ∅)) in
  concurrencySeriesForModel "gpt-4o" 0 60 s.(sm_rows) = [(0, (2, float64_of_int 1))].
Proof. vm_compute. reflexivity. Qed.

(** Two requests of channel 3, of which one is released. *)
Definition one_left : Tracker :=
  let d := mkDimensions 3 7 12 "gpt-4o" "vip" in
  let s1 := (Track true Answered Answered 1000 1000 d (NewRequestID 5 1) (mkSlots ∅ false)).2 in
  let s2 := (Track true Answered Answered 1500 1500 d (NewRequestID 5 2) s1).2 in
  let s3 := (Release true Answered 1800 d (NewRequestID 5 1) false s2).2 in
  mkTracker s3 (<[5 := 2]> (<[5 := 1]> ∅))
    (<[NewRequestID 5 1 := mkFlight d 1000 false true true]> (<[NewRequestID 5 2 := mkFlight d 1500 true false false]> (<[NewRequestID 5 1 := mkFlight d 1000 true false false]> ∅))) 1800.
Lemma in_flight_counted_witness :
  exists r s', BatchCount true (Some 1900) Answered 1900 DimensionUser [7; 8] one_left.(tr_slots) = (r, s') /\ exists n, r !! 7 = Some (Z.of_nat n) /\ (1 <= n <= 1)%nat.
Proof.
  set (d := mkDimensions 3 7 12 "gpt-4o" "vip"). assert (tracker_run one_left) as Hrun.
  { exists 0. eapply rtc_l.
    { eapply (ts_begin (idle 0) 5 0 d true Answered Answered 1000 1000); [simpl; lia|unfold uint64; lia|reflexivity|lia|apply surjective_pairing]. }
    eapply rtc_l.
    { eapply (ts_begin _ 5 1 d true Answered Answered 1500 1500); [simpl; lia|unfold uint64; lia|reflexivity|lia|apply surjective_pairing]. }
    eapply rtc_l.
    { eapply (ts_release _ (NewRequestID 5 1) (mkFlight d 1000 true false false) true Answered 1800); [simpl; lia|reflexivity|apply surjective_pairing]. }
    apply rtc_refl. }
  eexists _, _. split; [reflexivity|].
  destruct (in_flight_counted one_left 1900 1900 DimensionUser [7; 8] 7 _ _ Hrun ltac:(vm_compute; discriminate) ltac:(vm_compute; discriminate) ltac:(left) ltac:(lia) eq_refl) as (n & Hn & Hb & _).
  exists n. split; [exact Hn|]. exact Hb.
Defined.
