(* ===== verification/UsageMerge.v ===== *)
(** * Usage and the snapshot that is billed (relaykit/dto/usage_merge.go, billing_usage.go)

    A provider reports usage in its own dialect, in streams several times.  [MergeUsageNonZero]
    and its siblings overlay the reports; [BillingUsage] carries the report of the provider
    through conversions of format, and [CanonicalUsage] decodes it for the bill.  Sums of
    counts wrap around. *)

From stdpp Require Import base tactics numbers list strings.
From Stdlib Require Import ZArith Lia SpecFloat.
From S2P Require Import Prelude Float64 Cost.
Open Scope Z_scope.
Open Scope i64_scope.

(** ** Dialects *)

Record OutputDetails := mkOutDetails { od_TextTokens : Z; od_AudioTokens : Z; od_ImageTokens : Z; od_ReasoningTokens : Z }.
(** dto.Usage without its snapshot; likewise below. *)
Record UsageCounts := mkUsageCounts {
  uc_PromptTokens : Z;
  uc_CompletionTokens : Z;
  uc_TotalTokens : Z;
  uc_PromptCacheHitTokens : Z;
  uc_UsageSemantic : string;
  uc_UsageSource : string;
  uc_PromptTokensDetails : InputTokenDetails;
  uc_CompletionTokenDetails : OutputDetails;
  uc_InputTokens : Z;
  uc_OutputTokens : Z;
  uc_InputTokensDetails : option InputTokenDetails;
  uc_ClaudeCacheCreation5mTokens : Z;
  uc_ClaudeCacheCreation1hTokens : Z;
  uc_Cost : option float64
}.
Record ClaudeCacheCreationUsage := mkCacheCreation { cx_Ephemeral5m : Z; cx_Ephemeral1h : Z }.
Record ClaudeServerToolUse := mkServerToolUse { sx_WebSearch : Z; sx_WebFetch : Z; sx_CodeExecution : Z; sx_ToolSearch : Z }.
Record ClaudeCounts := mkClaudeCounts {
  cl_InputTokens : Z;
  cl_CacheCreationInputTokens : Z;
  cl_CacheReadInputTokens : Z;
  cl_OutputTokens : Z;
  cl_CacheCreation : option ClaudeCacheCreationUsage;
  cl_5mTokens : Z;
  cl_1hTokens : Z;
  cl_ServerToolUse : option ClaudeServerToolUse
}.
Record GeminiDetail := mkGeminiDetail { gd_Modality : string; gd_TokenCount : Z }.
Record GeminiCounts := mkGeminiCounts {
  ge_PromptTokenCount : Z;
  ge_ToolUsePromptTokenCount : Z;
  ge_CandidatesTokenCount : Z;
  ge_TotalTokenCount : Z;
  ge_ThoughtsTokenCount : Z;
  ge_CachedContentTokenCount : Z;
  ge_PromptTokensDetails : list GeminiDetail;
  ge_ToolUsePromptTokensDetails : list GeminiDetail;
  ge_CandidatesTokensDetails : list GeminiDetail
}.
(** A snapshot holds a report, which may again hold a snapshot. *)
Inductive BillingUsage := mkBilling {
  bu_Source : string;
  bu_Semantic : string;
  bu_Estimated : bool;
  bu_OpenAIUsage : option (UsageCounts * option BillingUsage);
  bu_ClaudeUsage : option (ClaudeCounts * option BillingUsage);
  bu_GeminiUsageMetadata : option (GeminiCounts * option BillingUsage)
}.
Definition FullUsage : Type := UsageCounts * option BillingUsage.
Definition ClaudeUsage : Type := ClaudeCounts * option BillingUsage.
Definition GeminiUsage : Type := GeminiCounts * option BillingUsage.

Definition no_out_details : OutputDetails := mkOutDetails 0 0 0 0.
Definition no_counts : UsageCounts := mkUsageCounts 0 0 0 0 "" "" no_input_details no_out_details 0 0 None 0 0 None.
Definition no_claude : ClaudeCounts := mkClaudeCounts 0 0 0 0 None 0 0 None.

(** ** Strings *)

(** [strings.EqualFold] and [strings.ToUpper] on ASCII. *)
Definition fold_char (c : Ascii.ascii) : Ascii.ascii :=
  let n := Ascii.nat_of_ascii c in if ((97 <=? n) && (n <=? 122))%nat then Ascii.ascii_of_nat (n - 32) else c.
Fixpoint ToUpper (s : string) : string := match s with EmptyString => EmptyString | String c s => String (fold_char c) (ToUpper s) end.
Definition EqualFold (a b : string) : bool := String.eqb (ToUpper a) (ToUpper b).
Definition normalizeGeminiModality (m : string) : string := ToUpper (TrimSpace m).

(** ** Copies *)

Definition strip {A} (u : option (A * option BillingUsage)) : option (A * option BillingUsage) := (fun '(c, _) => (c, None)) <$> u.
Definition CloneBillingUsage (b : BillingUsage) : BillingUsage :=
  mkBilling b.(bu_Source) b.(bu_Semantic) b.(bu_Estimated) (strip b.(bu_OpenAIUsage)) (strip b.(bu_ClaudeUsage)) (strip b.(bu_GeminiUsageMetadata)).

(** ** Is there anything to bill *)

Definition cached_has_tokens (d : option CachedTokenDetails) : bool :=
  match d with
  | None => false
  | Some d => let pos o := negb (default 0 o =? 0) in pos d.(cd_TextTokens) || pos d.(cd_ImageTokens) || pos d.(cd_AudioTokens)
  end.
Definition any_count (l : list Z) : bool := existsb (fun z => negb (z =? 0)) l.
Definition input_has_tokens (d : InputTokenDetails) : bool :=
  cached_has_tokens d.(it_CachedTokensDetails) ||
  any_count [d.(it_CachedTokens); d.(it_CachedCreationTokens); d.(it_CacheWriteTokens); d.(it_TextTokens); d.(it_ImageTokens); d.(it_AudioTokens)].
Definition HasOpenAIUsageTokens (u : UsageCounts) : bool :=
  let o := u.(uc_CompletionTokenDetails) in
  any_count [u.(uc_PromptTokens); u.(uc_CompletionTokens); u.(uc_TotalTokens); u.(uc_InputTokens); u.(uc_OutputTokens); u.(uc_PromptCacheHitTokens);
             u.(uc_ClaudeCacheCreation5mTokens); u.(uc_ClaudeCacheCreation1hTokens)] ||
  input_has_tokens u.(uc_PromptTokensDetails) ||
  any_count [o.(od_ReasoningTokens); o.(od_TextTokens); o.(od_ImageTokens); o.(od_AudioTokens)] ||
  match u.(uc_InputTokensDetails) with None => false | Some d => input_has_tokens d end.
Definition HasClaudeUsageTokens (u : ClaudeCounts) : bool :=
  any_count [u.(cl_InputTokens); u.(cl_OutputTokens); u.(cl_CacheCreationInputTokens); u.(cl_CacheReadInputTokens); u.(cl_5mTokens); u.(cl_1hTokens)] ||
  match u.(cl_CacheCreation) with None => false | Some c => any_count [c.(cx_Ephemeral5m); c.(cx_Ephemeral1h)] end.
Definition HasGeminiUsageMetadataTokens (g : GeminiCounts) : bool :=
  any_count [g.(ge_PromptTokenCount); g.(ge_ToolUsePromptTokenCount); g.(ge_CandidatesTokenCount); g.(ge_TotalTokenCount); g.(ge_ThoughtsTokenCount);
             g.(ge_CachedContentTokenCount)] ||
  any_count (gd_TokenCount <$> g.(ge_PromptTokensDetails)) || any_count (gd_TokenCount <$> g.(ge_ToolUsePromptTokensDetails)) ||
  any_count (gd_TokenCount <$> g.(ge_CandidatesTokensDetails)).

Definition BillingUsageSourceClaudeMessages : string := "claude_messages".
Definition BillingUsageSourceGeminiChat : string := "gemini_chat".
Definition BillingUsageSourceOAIChat : string := "oai_chat".
Definition BillingUsageSourceOAIResponses : string := "oai_responses".
Definition BillingUsageSemanticAnthropic : string := "anthropic".
Definition BillingUsageSemanticGemini : string := "gemini".
Definition BillingUsageSemanticOpenAI : string := "openai".
Definition NewClaudeMessagesBillingUsage (u : ClaudeUsage) : option BillingUsage :=
  if HasClaudeUsageTokens u.1 then Some (mkBilling BillingUsageSourceClaudeMessages BillingUsageSemanticAnthropic false None (Some (u.1, None)) None) else None.
Definition newOpenAIBillingUsage (source : string) (u : FullUsage) : option BillingUsage :=
  if HasOpenAIUsageTokens u.1 then Some (mkBilling source BillingUsageSemanticOpenAI false (Some (u.1, None)) None None) else None.
Definition NewOpenAIChatBillingUsage : FullUsage -> option BillingUsage := newOpenAIBillingUsage BillingUsageSourceOAIChat.
Definition newGeminiChatBillingUsage (g : GeminiUsage) (estimated : bool) : option BillingUsage :=
  if HasGeminiUsageMetadataTokens g.1 then Some (mkBilling BillingUsageSourceGeminiChat BillingUsageSemanticGemini estimated None None (Some (g.1, None))) else None.

(** ** Overlays *)

(** A later positive count replaces, any other does not. *)
Definition later (new old : Z) : Z := if 0 <? new then new else old.
Definition later_text (new old : string) : string := if String.eqb new "" then old else new.
Definition mergeInputTokenDetails (cur inc : InputTokenDetails) : InputTokenDetails :=
  let cached := match inc.(it_CachedTokensDetails) with
                | None => cur.(it_CachedTokensDetails)
                | Some d =>
                    let c := default (mkCachedDetails None None None) cur.(it_CachedTokensDetails) in
                    let pick (n o : option Z) := match n with Some _ => n | None => o end in
                    Some (mkCachedDetails (pick d.(cd_TextTokens) c.(cd_TextTokens)) (pick d.(cd_ImageTokens) c.(cd_ImageTokens)) (pick d.(cd_AudioTokens) c.(cd_AudioTokens)))
                end in
  mkInputDetails (later inc.(it_CachedTokens) cur.(it_CachedTokens)) cached (later inc.(it_CachedCreationTokens) cur.(it_CachedCreationTokens))
    (later inc.(it_CacheWriteTokens) cur.(it_CacheWriteTokens)) (later inc.(it_TextTokens) cur.(it_TextTokens))
    (later inc.(it_AudioTokens) cur.(it_AudioTokens)) (later inc.(it_ImageTokens) cur.(it_ImageTokens)).
Definition reports_details (d : InputTokenDetails) : bool :=
  existsb (fun z => 0 <? z) [d.(it_CachedTokens); d.(it_CachedCreationTokens); d.(it_CacheWriteTokens); d.(it_TextTokens); d.(it_AudioTokens); d.(it_ImageTokens)] ||
  match d.(it_CachedTokensDetails) with Some _ => true | None => false end.
Definition merge_counts (cur inc : UsageCounts) : UsageCounts :=
  let prompt := later inc.(uc_PromptTokens) cur.(uc_PromptTokens) in
  let completion := later inc.(uc_CompletionTokens) cur.(uc_CompletionTokens) in
  let input := later inc.(uc_InputTokens) cur.(uc_InputTokens) in
  let output := later inc.(uc_OutputTokens) cur.(uc_OutputTokens) in
  let o := cur.(uc_CompletionTokenDetails) in let n := inc.(uc_CompletionTokenDetails) in
  let total := later inc.(uc_TotalTokens) cur.(uc_TotalTokens) in
  let total := if total <? prompt +! completion then prompt +! completion else total in
  let total := if total <? input +! output then input +! output else total in
  mkUsageCounts prompt completion total (later inc.(uc_PromptCacheHitTokens) cur.(uc_PromptCacheHitTokens))
    (later_text inc.(uc_UsageSemantic) cur.(uc_UsageSemantic)) (later_text inc.(uc_UsageSource) cur.(uc_UsageSource))
    (mergeInputTokenDetails cur.(uc_PromptTokensDetails) inc.(uc_PromptTokensDetails))
    (mkOutDetails (later n.(od_TextTokens) o.(od_TextTokens)) (later n.(od_AudioTokens) o.(od_AudioTokens)) (later n.(od_ImageTokens) o.(od_ImageTokens))
       (later n.(od_ReasoningTokens) o.(od_ReasoningTokens)))
    input output
    (match inc.(uc_InputTokensDetails) with
     | Some d => if reports_details d then Some (mergeInputTokenDetails (default no_input_details cur.(uc_InputTokensDetails)) d) else cur.(uc_InputTokensDetails)
     | None => cur.(uc_InputTokensDetails)
     end)
    (later inc.(uc_ClaudeCacheCreation5mTokens) cur.(uc_ClaudeCacheCreation5mTokens))
    (later inc.(uc_ClaudeCacheCreation1hTokens) cur.(uc_ClaudeCacheCreation1hTokens))
    (match inc.(uc_Cost) with Some (S754_zero false) | None => cur.(uc_Cost) | c => c end).

Definition MergeClaudeUsageNonZero (cur inc : option ClaudeUsage) : ClaudeUsage :=
  let c := default no_claude (fst <$> cur) in
  let kept := (CloneBillingUsage <$> (cur ≫= snd)) in
  match inc with
  | None => (c, kept)
  | Some (i, b) =>
      let '(m5, m1, creation) := match i.(cl_CacheCreation) with
                                 | Some x => (x.(cx_Ephemeral5m), x.(cx_Ephemeral1h), Some x)
                                 | None => (later i.(cl_5mTokens) c.(cl_5mTokens), later i.(cl_1hTokens) c.(cl_1hTokens), c.(cl_CacheCreation))
                                 end in
      let tools := match i.(cl_ServerToolUse) with
                   | None => c.(cl_ServerToolUse)
                   | Some n => let o := default (mkServerToolUse 0 0 0 0) c.(cl_ServerToolUse) in
                               Some (mkServerToolUse (later n.(sx_WebSearch) o.(sx_WebSearch)) (later n.(sx_WebFetch) o.(sx_WebFetch))
                                       (later n.(sx_CodeExecution) o.(sx_CodeExecution)) (later n.(sx_ToolSearch) o.(sx_ToolSearch)))
                   end in
      (mkClaudeCounts (later i.(cl_InputTokens) c.(cl_InputTokens)) (later i.(cl_CacheCreationInputTokens) c.(cl_CacheCreationInputTokens))
         (later i.(cl_CacheReadInputTokens) c.(cl_CacheReadInputTokens)) (later i.(cl_OutputTokens) c.(cl_OutputTokens)) creation m5 m1 tools,
       match b with Some b => Some (CloneBillingUsage b) | None => kept end)
  end.

(** The last detail of the modality, counted from [i]. *)
Fixpoint last_index (key : string) (i : nat) (l : list GeminiDetail) : option nat :=
  match l with
  | [] => None
  | d :: l => match last_index key (S i) l with
              | Some j => Some j
              | None => if String.eqb (normalizeGeminiModality d.(gd_Modality)) key then Some i else None
              end
  end.
Definition add_detail (l : list GeminiDetail) (d : GeminiDetail) : list GeminiDetail :=
  if d.(gd_TokenCount) <=? 0 then l
  else match last_index (normalizeGeminiModality d.(gd_Modality)) 0 l with
       | Some j => alter (fun x => mkGeminiDetail x.(gd_Modality) (x.(gd_TokenCount) +! d.(gd_TokenCount))) j l
       | None => l ++ [d]
       end.
Definition mergeGeminiTokenDetails (cur inc : list GeminiDetail) : list GeminiDetail := foldl add_detail cur inc.
Definition merge_gemini_counts (c i : GeminiCounts) : GeminiCounts :=
  let prompt := later i.(ge_PromptTokenCount) c.(ge_PromptTokenCount) in
  let tool := later i.(ge_ToolUsePromptTokenCount) c.(ge_ToolUsePromptTokenCount) in
  let candidates := later i.(ge_CandidatesTokenCount) c.(ge_CandidatesTokenCount) in
  let thoughts := if 0 <? i.(ge_CandidatesTokenCount) then i.(ge_ThoughtsTokenCount) else later i.(ge_ThoughtsTokenCount) c.(ge_ThoughtsTokenCount) in
  let total := later i.(ge_TotalTokenCount) c.(ge_TotalTokenCount) in
  let sum := prompt +! tool +! candidates +! thoughts in
  mkGeminiCounts prompt tool candidates (if total <? sum then sum else total) thoughts
    (later i.(ge_CachedContentTokenCount) c.(ge_CachedContentTokenCount))
    (mergeGeminiTokenDetails c.(ge_PromptTokensDetails) i.(ge_PromptTokensDetails))
    (mergeGeminiTokenDetails c.(ge_ToolUsePromptTokensDetails) i.(ge_ToolUsePromptTokensDetails))
    (mergeGeminiTokenDetails c.(ge_CandidatesTokensDetails) i.(ge_CandidatesTokensDetails)).

Definition both {A B} (a : option A) (b : option B) : bool := match a, b with Some _, Some _ => true | _, _ => false end.
Definition differ (a b : string) : bool := negb (String.eqb a "") && negb (String.eqb b "") && negb (EqualFold a b).
Definition sameBillingUsageDialect (c i : BillingUsage) : bool :=
  if differ c.(bu_Source) i.(bu_Source) then false
  else if differ c.(bu_Semantic) i.(bu_Semantic) then false
  else both c.(bu_OpenAIUsage) i.(bu_OpenAIUsage) || both c.(bu_ClaudeUsage) i.(bu_ClaudeUsage) || both c.(bu_GeminiUsageMetadata) i.(bu_GeminiUsageMetadata).
(** The report inside is overlaid too.  A report of OpenAI is stripped first, so that its
    overlay is one of counts; one of Gemini may hold a snapshot, which is overlaid in turn. *)
Fixpoint merge_billing (cur : option BillingUsage) (inc : BillingUsage) {struct inc} : BillingUsage :=
  match inc with
  | mkBilling source semantic estimated oai claude gemini =>
      match cur with
      | None => CloneBillingUsage inc
      | Some c =>
          let e := c.(bu_Estimated) || estimated in
          if negb (sameBillingUsageDialect c inc) then mkBilling source semantic e (strip oai) (strip claude) (strip gemini)
          else
            let m := mkBilling (later_text source c.(bu_Source)) (later_text semantic c.(bu_Semantic)) e in
            match c.(bu_OpenAIUsage), oai with
            | Some (co, _), Some (io, _) => m (Some (merge_counts co io, None)) (strip c.(bu_ClaudeUsage)) (strip c.(bu_GeminiUsageMetadata))
            | _, _ =>
                match c.(bu_ClaudeUsage), claude with
                | Some cc, Some ic => m (strip c.(bu_OpenAIUsage)) (Some (MergeClaudeUsageNonZero (Some cc) (Some ic))) (strip c.(bu_GeminiUsageMetadata))
                | _, _ =>
                    match c.(bu_GeminiUsageMetadata), gemini with
                    | Some (cg, cb), Some (ig, ib) =>
                        let kept := CloneBillingUsage <$> cb in
                        m (strip c.(bu_OpenAIUsage)) (strip c.(bu_ClaudeUsage))
                          (Some (merge_gemini_counts cg ig, match ib with Some ib => Some (merge_billing kept ib) | None => kept end))
                    | _, _ => m (strip c.(bu_OpenAIUsage)) (strip c.(bu_ClaudeUsage)) (strip c.(bu_GeminiUsageMetadata))
                    end
                end
            end
      end
  end.
Definition MergeBillingUsageNonZero (cur inc : option BillingUsage) : option BillingUsage :=
  match inc with None => CloneBillingUsage <$> cur | Some i => Some (merge_billing cur i) end.
Definition MergeUsageNonZero (cur inc : option FullUsage) : FullUsage :=
  let '(c, b) := default (no_counts, None) cur in
  match inc with
  | None => (c, b)
  | Some (i, ib) => (merge_counts c i, match ib with Some _ => MergeBillingUsageNonZero b ib | None => b end)
  end.
Definition MergeGeminiUsageMetadataNonZero (cur inc : option GeminiUsage) : option GeminiUsage :=
  match cur, inc with
  | None, None => None
  | None, Some (i, b) => Some (i, CloneBillingUsage <$> b)
  | Some (c, b), None => Some (c, CloneBillingUsage <$> b)
  | Some (c, b), Some (i, ib) =>
      let kept := CloneBillingUsage <$> b in
      Some (merge_gemini_counts c i, match ib with Some ib => Some (merge_billing kept ib) | None => kept end)
  end.

(** ** What is billed *)

Definition canonicalOpenAIUsage (b : BillingUsage) (u : UsageCounts) : FullUsage :=
  let details := match u.(uc_InputTokensDetails) with
                 | Some d => mergeInputTokenDetails d u.(uc_PromptTokensDetails)
                 | None => u.(uc_PromptTokensDetails)
                 end in
  let details := if (details.(it_CachedTokens) =? 0) && (0 <? u.(uc_PromptCacheHitTokens))
                 then mkInputDetails u.(uc_PromptCacheHitTokens) details.(it_CachedTokensDetails) details.(it_CachedCreationTokens) details.(it_CacheWriteTokens)
                        details.(it_TextTokens) details.(it_AudioTokens) details.(it_ImageTokens)
                 else details in
  let fill a b := if (a =? 0) && (0 <? b) then b else a in
  let prompt := fill u.(uc_PromptTokens) u.(uc_InputTokens) in
  let completion := fill u.(uc_CompletionTokens) u.(uc_OutputTokens) in
  (mkUsageCounts prompt completion (if u.(uc_TotalTokens) =? 0 then prompt +! completion else u.(uc_TotalTokens)) u.(uc_PromptCacheHitTokens)
     BillingUsageSemanticOpenAI b.(bu_Source) details u.(uc_CompletionTokenDetails) (fill u.(uc_InputTokens) prompt) (fill u.(uc_OutputTokens) completion)
     u.(uc_InputTokensDetails) u.(uc_ClaudeCacheCreation5mTokens) u.(uc_ClaudeCacheCreation1hTokens) u.(uc_Cost),
   Some (CloneBillingUsage b)).
Definition canonicalClaudeUsage (b : BillingUsage) (u : ClaudeCounts) : FullUsage :=
  let '(m5, m1) := match u.(cl_CacheCreation) with Some x => (x.(cx_Ephemeral5m), x.(cx_Ephemeral1h)) | None => (u.(cl_5mTokens), u.(cl_1hTokens)) end in
  (mkUsageCounts u.(cl_InputTokens) u.(cl_OutputTokens) (u.(cl_InputTokens) +! u.(cl_OutputTokens)) 0 BillingUsageSemanticAnthropic BillingUsageSourceClaudeMessages
     (mkInputDetails u.(cl_CacheReadInputTokens) None u.(cl_CacheCreationInputTokens) 0 0 0 0) no_out_details
     (u.(cl_InputTokens) +! u.(cl_CacheReadInputTokens) +! u.(cl_CacheCreationInputTokens)) u.(cl_OutputTokens) None m5 m1 None,
   Some (CloneBillingUsage b)).
Definition addGeminiInputTokenDetail (d : InputTokenDetails) (g : GeminiDetail) : InputTokenDetails :=
  let m := normalizeGeminiModality g.(gd_Modality) in let n := g.(gd_TokenCount) in
  let add (k : string) z := if String.eqb m k then z +! n else z in
  mkInputDetails d.(it_CachedTokens) d.(it_CachedTokensDetails) d.(it_CachedCreationTokens) d.(it_CacheWriteTokens)
    (add "TEXT"%string d.(it_TextTokens)) (add "AUDIO"%string d.(it_AudioTokens)) (add "IMAGE"%string d.(it_ImageTokens)).
Definition add_output_detail (d : OutputDetails) (g : GeminiDetail) : OutputDetails :=
  let m := normalizeGeminiModality g.(gd_Modality) in let n := g.(gd_TokenCount) in
  let add (k : string) z := if String.eqb m k then z +! n else z in
  mkOutDetails (add "TEXT"%string d.(od_TextTokens)) (add "AUDIO"%string d.(od_AudioTokens)) (add "IMAGE"%string d.(od_ImageTokens)) d.(od_ReasoningTokens).
Definition canonicalGeminiUsage (b : BillingUsage) (g : GeminiCounts) : FullUsage :=
  let prompt := g.(ge_PromptTokenCount) +! g.(ge_ToolUsePromptTokenCount) in
  let completion := g.(ge_CandidatesTokenCount) +! g.(ge_ThoughtsTokenCount) in
  let details := foldl addGeminiInputTokenDetail (mkInputDetails g.(ge_CachedContentTokenCount) None 0 0 0 0 0) (g.(ge_PromptTokensDetails) ++ g.(ge_ToolUsePromptTokensDetails)) in
  let out := foldl add_output_detail (mkOutDetails 0 0 0 g.(ge_ThoughtsTokenCount)) g.(ge_CandidatesTokensDetails) in
  let '(total, completion) :=
    if g.(ge_TotalTokenCount) =? 0 then (prompt +! completion, completion)
    else (g.(ge_TotalTokenCount), if completion <=? 0 then Z.max (g.(ge_TotalTokenCount) -! prompt) 0 else completion) in
  let details := if (0 <? prompt) && (details.(it_TextTokens) =? 0) && (details.(it_AudioTokens) =? 0)
                 then mkInputDetails details.(it_CachedTokens) None 0 0 prompt 0 details.(it_ImageTokens) else details in
  (mkUsageCounts prompt completion total 0 BillingUsageSemanticGemini BillingUsageSourceGeminiChat details out 0 0 None 0 0 None, Some (CloneBillingUsage b)).
Definition CanonicalUsage (b : BillingUsage) : option FullUsage :=
  let source := TrimSpace b.(bu_Source) in let semantic := TrimSpace b.(bu_Semantic) in
  let oai := match b.(bu_OpenAIUsage) with
             | Some (u, _) => if HasOpenAIUsageTokens u && (EqualFold source BillingUsageSourceOAIChat || EqualFold source BillingUsageSourceOAIResponses || EqualFold semantic BillingUsageSemanticOpenAI)
                              then Some (canonicalOpenAIUsage b u) else None
             | None => None
             end in
  let claude := match b.(bu_ClaudeUsage) with
                | Some (u, _) => if HasClaudeUsageTokens u && (EqualFold source BillingUsageSourceClaudeMessages || EqualFold semantic BillingUsageSemanticAnthropic)
                                 then Some (canonicalClaudeUsage b u) else None
                | None => None
                end in
  let gemini := match b.(bu_GeminiUsageMetadata) with
                | Some (u, _) => if HasGeminiUsageMetadataTokens u && (EqualFold source BillingUsageSourceGeminiChat || EqualFold semantic BillingUsageSemanticGemini)
                                 then Some (canonicalGeminiUsage b u) else None
                | None => None
                end in
  match oai with Some u => Some u | None => match claude with Some u => Some u | None => gemini end end.
Definition effectiveBillingUsage (u : FullUsage) : FullUsage := default u (u.2 ≫= CanonicalUsage).
(** What the cost reads of a usage. *)
Definition billed (u : FullUsage) : Usage :=
  let c := u.1 in let o := c.(uc_CompletionTokenDetails) in
  mkUsage c.(uc_PromptTokens) c.(uc_CompletionTokens) c.(uc_TotalTokens) c.(uc_UsageSemantic) c.(uc_UsageSource) c.(uc_PromptTokensDetails)
    (mkOutputDetails o.(od_TextTokens) o.(od_AudioTokens) o.(od_ImageTokens)) c.(uc_ClaudeCacheCreation5mTokens) c.(uc_ClaudeCacheCreation1hTokens) c.(uc_Cost).

(** ** Between the formats of OpenAI and Claude *)

Definition NormalizeCacheCreationSplit (total m5 m1 : Z) : Z * Z :=
  let remainder := total -! m5 -! m1 in (m5 +! (if remainder <? 0 then 0 else remainder), m1).
(** relayconvert/internal/shared/claude/usage.go *)
Definition UsageFromOpenAI (u : FullUsage) : ClaudeUsage :=
  let c := u.1 in
  let native := match u.2 with
                | Some b => if String.eqb b.(bu_Source) BillingUsageSourceClaudeMessages || String.eqb b.(bu_Semantic) BillingUsageSemanticAnthropic
                            then (fun cb => (cb.1, Some (CloneBillingUsage b))) <$> b.(bu_ClaudeUsage) else None
                | None => None
                end in
  match native with
  | Some r => r
  | None =>
      let billing := match u.2 with Some b => Some (CloneBillingUsage b) | None => NewOpenAIChatBillingUsage u end in
      let d := c.(uc_PromptTokensDetails) in
      let '(m5, m1) := NormalizeCacheCreationSplit d.(it_CachedCreationTokens) c.(uc_ClaudeCacheCreation5mTokens) c.(uc_ClaudeCacheCreation1hTokens) in
      let creation := CacheCreationTokensTotal d in
      let input := if String.eqb c.(uc_UsageSemantic) BillingUsageSemanticAnthropic then c.(uc_PromptTokens)
                   else let i := c.(uc_PromptTokens) -! d.(it_CachedTokens) -! creation in if i <? 0 then 0 else i in
      (mkClaudeCounts input creation d.(it_CachedTokens) c.(uc_CompletionTokens)
         (if (0 <? m5) || (0 <? m1) then Some (mkCacheCreation m5 m1) else None) 0 0 None, billing)
  end.
(** relayconvert/internal/claude_messages/to_oai_chat_resp.go *)
Definition cacheCreationTokensForOpenAIUsage (c : UsageCounts) : Z :=
  let split := c.(uc_ClaudeCacheCreation5mTokens) +! c.(uc_ClaudeCacheCreation1hTokens) in
  let flat := c.(uc_PromptTokensDetails).(it_CachedCreationTokens) in
  if split =? 0 then flat else if split <? flat then flat else split.
Definition buildOpenAIStyleUsageFromClaudeUsage (u : FullUsage) : FullUsage :=
  let c := u.1 in let d := c.(uc_PromptTokensDetails) in
  let '(m5, m1) := NormalizeCacheCreationSplit d.(it_CachedCreationTokens) c.(uc_ClaudeCacheCreation5mTokens) c.(uc_ClaudeCacheCreation1hTokens) in
  let creation := cacheCreationTokensForOpenAIUsage c in
  let total := c.(uc_PromptTokens) +! d.(it_CachedTokens) +! creation in
  (mkUsageCounts total c.(uc_CompletionTokens) (total +! c.(uc_CompletionTokens)) c.(uc_PromptCacheHitTokens) "openai" "anthropic"
     (mkInputDetails d.(it_CachedTokens) d.(it_CachedTokensDetails) d.(it_CachedCreationTokens) creation d.(it_TextTokens) d.(it_AudioTokens) d.(it_ImageTokens))
     c.(uc_CompletionTokenDetails) total c.(uc_OutputTokens) c.(uc_InputTokensDetails) m5 m1 c.(uc_Cost),
   CloneBillingUsage <$> u.2).
Definition UsageFromClaudeAPIUsage (u : option ClaudeUsage) : FullUsage :=
  match u with
  | None => (no_counts, None)
  | Some u =>
      let c := u.1 in
      let '(m5, m1) := match c.(cl_CacheCreation) with Some x => (x.(cx_Ephemeral5m), x.(cx_Ephemeral1h)) | None => (0, 0) end in
      buildOpenAIStyleUsageFromClaudeUsage
        (mkUsageCounts c.(cl_InputTokens) c.(cl_OutputTokens) 0 0 "anthropic" "anthropic"
           (mkInputDetails c.(cl_CacheReadInputTokens) None c.(cl_CacheCreationInputTokens) 0 0 0 0) no_out_details 0 0 None m5 m1 None,
         match u.2 with Some b => Some (CloneBillingUsage b) | None => NewClaudeMessagesBillingUsage u end)
  end.

(** relayconvert/internal/oai_chat/to_oai_responses_resp.go *)
Definition UsageFromChatUsage (u : FullUsage) : FullUsage :=
  let c := u.1 in let d := c.(uc_PromptTokensDetails) in let o := c.(uc_CompletionTokenDetails) in
  (mkUsageCounts c.(uc_PromptTokens) c.(uc_CompletionTokens)
     (if negb (c.(uc_TotalTokens) =? 0) then c.(uc_TotalTokens) else c.(uc_PromptTokens) +! c.(uc_CompletionTokens)) 0 c.(uc_UsageSemantic) c.(uc_UsageSource)
     no_input_details
     (if negb (o.(od_ReasoningTokens) =? 0) || negb (o.(od_TextTokens) =? 0) || negb (o.(od_AudioTokens) =? 0) || negb (o.(od_ImageTokens) =? 0) then o else no_out_details)
     c.(uc_PromptTokens) c.(uc_CompletionTokens)
     (if negb (d.(it_CachedTokens) =? 0) || negb (d.(it_ImageTokens) =? 0) || negb (d.(it_AudioTokens) =? 0) || negb (d.(it_CachedCreationTokens) =? 0)
         || negb (d.(it_CacheWriteTokens) =? 0) || negb (d.(it_TextTokens) =? 0) then Some d else None)
     c.(uc_ClaudeCacheCreation5mTokens) c.(uc_ClaudeCacheCreation1hTokens) c.(uc_Cost),
   match u.2 with Some b => Some (CloneBillingUsage b) | None => NewOpenAIChatBillingUsage u end).

(** ** Missing completions *)

Definition CloneBillingUsageWithEstimatedCompletion (b : BillingUsage) (completion : Z) : BillingUsage :=
  let clone := CloneBillingUsage b in
  if completion <=? 0 then clone
  else match b.(bu_OpenAIUsage), b.(bu_ClaudeUsage), b.(bu_GeminiUsageMetadata) with
       | Some (u, _), _, _ =>
           if (u.(uc_CompletionTokens) =? 0) && (u.(uc_OutputTokens) =? 0) then
             let input := if u.(uc_PromptTokens) =? 0 then u.(uc_InputTokens) else u.(uc_PromptTokens) in
             let total := if u.(uc_TotalTokens) <? input +! completion then input +! completion else u.(uc_TotalTokens) in
             mkBilling b.(bu_Source) b.(bu_Semantic) true
               (Some (mkUsageCounts u.(uc_PromptTokens) completion total u.(uc_PromptCacheHitTokens) u.(uc_UsageSemantic) u.(uc_UsageSource) u.(uc_PromptTokensDetails)
                        u.(uc_CompletionTokenDetails) u.(uc_InputTokens) completion u.(uc_InputTokensDetails) u.(uc_ClaudeCacheCreation5mTokens)
                        u.(uc_ClaudeCacheCreation1hTokens) u.(uc_Cost), None)) (strip b.(bu_ClaudeUsage)) (strip b.(bu_GeminiUsageMetadata))
           else clone
       | None, Some (u, _), _ =>
           if u.(cl_OutputTokens) =? 0 then
             mkBilling b.(bu_Source) b.(bu_Semantic) true None
               (Some (mkClaudeCounts u.(cl_InputTokens) u.(cl_CacheCreationInputTokens) u.(cl_CacheReadInputTokens) completion u.(cl_CacheCreation) u.(cl_5mTokens)
                        u.(cl_1hTokens) u.(cl_ServerToolUse), None)) (strip b.(bu_GeminiUsageMetadata))
           else clone
       | None, None, Some (g, _) =>
           if g.(ge_CandidatesTokenCount) =? 0 then
             let candidates := Z.max (completion -! g.(ge_ThoughtsTokenCount)) 0 in
             let sum := g.(ge_PromptTokenCount) +! g.(ge_ToolUsePromptTokenCount) +! candidates +! g.(ge_ThoughtsTokenCount) in
             mkBilling b.(bu_Source) b.(bu_Semantic) true None None
               (Some (mkGeminiCounts g.(ge_PromptTokenCount) g.(ge_ToolUsePromptTokenCount) candidates (if g.(ge_TotalTokenCount) <? sum then sum else g.(ge_TotalTokenCount))
                        g.(ge_ThoughtsTokenCount) g.(ge_CachedContentTokenCount) g.(ge_PromptTokensDetails) g.(ge_ToolUsePromptTokensDetails) g.(ge_CandidatesTokensDetails), None))
           else clone
       | None, None, None => clone
       end.
