(* ===== verification/UsageLaws.v ===== *)
(** * What overlays and snapshots keep

    Overlaid reports show the last positive count; a snapshot carries the bill through
    conversions of format; the details of Gemini pile up. *)

From stdpp Require Import base tactics numbers list strings.
From Stdlib Require Import ZArith Lia SpecFloat.
From S2P Require Import Prelude Float64 QuotaMath DecimalQ ToolPrice DecimalOrder Cost CostSamples UsageMerge.
Open Scope Z_scope.
Open Scope i64_scope.

(** ** Overlays *)

(** The last positive of a list of counts, or [z]. *)
Definition last_positive (z : Z) (l : list Z) : Z := foldl (fun z n => if 0 <? n then n else z) z l.
Lemma overlay_field (f : UsageCounts -> Z) :
  (forall c i, f (merge_counts c i) = later (f i) (f c)) -> forall l c, f (foldl merge_counts c l) = last_positive (f c) (f <$> l).
Proof. intros Hf l. induction l as [|i l IH]; intros c; [done|]. simpl. rewrite IH, Hf. done. Qed.
Lemma covered t p i : let t1 := if t <? p then p else t in let t2 := if t1 <? i then i else t1 in p <= t2 /\ i <= t2.
Proof. cbv zeta. destruct (Z.ltb_spec t p); case_match eqn:E; (apply Z.ltb_lt in E || apply Z.ltb_ge in E); lia. Qed.
Lemma merge_total c i : let m := merge_counts c i in
  m.(uc_PromptTokens) +! m.(uc_CompletionTokens) <= m.(uc_TotalTokens) /\ m.(uc_InputTokens) +! m.(uc_OutputTokens) <= m.(uc_TotalTokens).
Proof.
  unfold merge_counts. cbn [uc_PromptTokens uc_CompletionTokens uc_TotalTokens uc_InputTokens uc_OutputTokens].
  apply covered.
Qed.
(** The reports of a stream, overlaid in order: prompt, completion and cached tokens are the
    last positive ones reported, and the total covers them. *)
Theorem overlay_last_positive (c : UsageCounts) (r : UsageCounts) (l : list UsageCounts) :
  let m := foldl merge_counts c (l ++ [r]) in
  m.(uc_PromptTokens) = last_positive c.(uc_PromptTokens) (uc_PromptTokens <$> (l ++ [r])) /\
  m.(uc_CompletionTokens) = last_positive c.(uc_CompletionTokens) (uc_CompletionTokens <$> (l ++ [r])) /\
  m.(uc_PromptTokensDetails).(it_CachedTokens) =
    last_positive c.(uc_PromptTokensDetails).(it_CachedTokens) ((fun u => u.(uc_PromptTokensDetails).(it_CachedTokens)) <$> (l ++ [r])) /\
  m.(uc_PromptTokens) +! m.(uc_CompletionTokens) <= m.(uc_TotalTokens).
Proof.
  intros m. split; [by apply overlay_field|]. split; [by apply overlay_field|].
  split; [by apply (overlay_field (fun u => u.(uc_PromptTokensDetails).(it_CachedTokens)))|]. unfold m. rewrite foldl_app. apply merge_total.
Qed.

(** ** Snapshots *)

Lemma strip_strip {A} (u : option (A * option BillingUsage)) : strip (strip u) = strip u.
Proof. by destruct u as [[]|]. Qed.
Lemma clone_clone b : CloneBillingUsage (CloneBillingUsage b) = CloneBillingUsage b.
Proof. unfold CloneBillingUsage. simpl. by rewrite !strip_strip. Qed.
Lemma canonical_clone b : CanonicalUsage (CloneBillingUsage b) = CanonicalUsage b.
Proof.
  assert (forall u, canonicalOpenAIUsage (CloneBillingUsage b) u = canonicalOpenAIUsage b u) as E1 by (intros u; unfold canonicalOpenAIUsage; by rewrite clone_clone).
  assert (forall u, canonicalClaudeUsage (CloneBillingUsage b) u = canonicalClaudeUsage b u) as E2 by (intros u; unfold canonicalClaudeUsage; by rewrite clone_clone).
  assert (forall u, canonicalGeminiUsage (CloneBillingUsage b) u = canonicalGeminiUsage b u) as E3 by (intros u; unfold canonicalGeminiUsage; by rewrite clone_clone).
  unfold CanonicalUsage. cbv zeta. change (bu_Source (CloneBillingUsage b)) with (bu_Source b). change (bu_Semantic (CloneBillingUsage b)) with (bu_Semantic b).
  change (bu_OpenAIUsage (CloneBillingUsage b)) with (strip (bu_OpenAIUsage b)). change (bu_ClaudeUsage (CloneBillingUsage b)) with (strip (bu_ClaudeUsage b)).
  change (bu_GeminiUsageMetadata (CloneBillingUsage b)) with (strip (bu_GeminiUsageMetadata b)).
  destruct (bu_OpenAIUsage b) as [[u ?]|], (bu_ClaudeUsage b) as [[u2 ?]|], (bu_GeminiUsageMetadata b) as [[u3 ?]|]; cbn [strip fmap option_fmap option_map];
    rewrite ?E1, ?E2, ?E3; done.
Qed.
(** A hop: one gateway answers in the format of Claude, the next reads the answer. *)
Definition hop (u : FullUsage) : FullUsage := UsageFromClaudeAPIUsage (Some (UsageFromOpenAI u)).
Lemma hop_snapshot u b : (match u.2 with Some b => Some b | None => NewOpenAIChatBillingUsage u end) = Some b -> (hop u).2 = Some (CloneBillingUsage b).
Proof.
  intros Hb. unfold hop, UsageFromClaudeAPIUsage, buildOpenAIStyleUsageFromClaudeUsage.
  assert ((UsageFromOpenAI u).2 = Some (CloneBillingUsage b)) as E.
  { unfold UsageFromOpenAI. destruct u as [c [b'|]]; simpl in *.
    - injection Hb as ->. destruct (_ || _); [destruct (bu_ClaudeUsage b) as [[]|]; done|done].
    - rewrite Hb. unfold NewOpenAIChatBillingUsage, newOpenAIBillingUsage in Hb. destruct (HasOpenAIUsageTokens _); [|done].
      injection Hb as <-. done. }
  destruct (cl_CacheCreation _); simpl; rewrite E; simpl; by rewrite !clone_clone.
Qed.

(** A report of an OpenAI provider with its counts in the usual fields, without a snapshot. *)
Record plain_report (u : FullUsage) : Prop := {
  pr_none : u.2 = None;
  pr_prompt : 0 < u.1.(uc_PromptTokens);
  pr_completion : u.1.(uc_CompletionTokens) <> 0 \/ u.1.(uc_OutputTokens) <= 0;
  pr_hits : u.1.(uc_PromptCacheHitTokens) <= 0;
  pr_details : u.1.(uc_InputTokensDetails) = None;
  pr_semantic : u.1.(uc_UsageSemantic) = EmptyString \/ u.1.(uc_UsageSemantic) = BillingUsageSemanticOpenAI;
  pr_split : u.1.(uc_ClaudeCacheCreation5mTokens) <= 0 /\ u.1.(uc_ClaudeCacheCreation1hTokens) <= 0
}.
Lemma canonical_openai b u x : b.(bu_OpenAIUsage) = Some (u, x) -> HasOpenAIUsageTokens u = true -> b.(bu_Semantic) = BillingUsageSemanticOpenAI ->
  CanonicalUsage b = Some (canonicalOpenAIUsage b u).
Proof. intros Hu Ht Hs. unfold CanonicalUsage. rewrite Hu, Ht, Hs. change (EqualFold (TrimSpace BillingUsageSemanticOpenAI) BillingUsageSemanticOpenAI) with true. by rewrite orb_true_r. Qed.
Lemma effective_hop_plain u : plain_report u ->
  exists b, (hop u).2 = Some b /\ effectiveBillingUsage (hop u) = canonicalOpenAIUsage b u.1 /\ b.(bu_Source) = BillingUsageSourceOAIChat.
Proof.
  intros H. assert (HasOpenAIUsageTokens u.1 = true) as Ht.
  { unfold HasOpenAIUsageTokens, any_count. cbn [existsb]. rewrite (proj2 (Z.eqb_neq (uc_PromptTokens u.1) 0)) by (pose proof (pr_prompt u H); lia). done. }
  set (b := mkBilling BillingUsageSourceOAIChat BillingUsageSemanticOpenAI false (Some (u.1, None)) None None).
  assert ((hop u).2 = Some (CloneBillingUsage b)) as E by (apply hop_snapshot; rewrite (pr_none u H); unfold NewOpenAIChatBillingUsage, newOpenAIBillingUsage; by rewrite Ht).
  exists (CloneBillingUsage b). split; [done|]. split; [|done]. unfold effectiveBillingUsage. rewrite E. change (Some (CloneBillingUsage b) ≫= CanonicalUsage) with (CanonicalUsage (CloneBillingUsage b)). by rewrite (canonical_openai (CloneBillingUsage b) u.1 None).
Qed.
Lemma canonical_semantic b c : CanonicalUsage b = Some c -> c.1.(uc_UsageSemantic) <> EmptyString.
Proof.
  assert (forall u, (canonicalOpenAIUsage b u).1.(uc_UsageSemantic) <> EmptyString) as H1 by done.
  assert (forall u, (canonicalClaudeUsage b u).1.(uc_UsageSemantic) <> EmptyString) as H2 by (intros u; unfold canonicalClaudeUsage; by destruct (cl_CacheCreation u)).
  assert (forall u, (canonicalGeminiUsage b u).1.(uc_UsageSemantic) <> EmptyString) as H3 by (intros u; unfold canonicalGeminiUsage; by destruct (ge_TotalTokenCount u =? 0)).
  unfold CanonicalUsage. destruct (bu_OpenAIUsage b) as [[u ?]|], (bu_ClaudeUsage b) as [[u2 ?]|], (bu_GeminiUsageMetadata b) as [[u3 ?]|]; repeat destruct (_ && _); intros [= <-]; done.
Qed.

(** The request when the channel's answers come in Claude's format ([claude]), or not. *)
Definition answered_in (claude : bool) (rq : TextRequest) : TextRequest :=
  mkTextRequest rq.(rq_BillingModelName) claude rq.(rq_OpenRouter) rq.(rq_EstimatePromptTokens) rq.(rq_ModeResponses) rq.(rq_BuiltInTools) rq.(rq_ClaudeWebSearch)
    rq.(rq_GeminiGoogleSearch) rq.(rq_DefaultRatio) rq.(rq_PriceData).

Section bill.
Context {D : Decimal} {O : DecimalOps D}.
Variable idx : toolPriceIndex.
Variable quotaPerUnit : float64.
Lemma summary_same rq f f' u v :
  u.(us_PromptTokens) = v.(us_PromptTokens) -> u.(us_CompletionTokens) = v.(us_CompletionTokens) -> u.(us_PromptTokensDetails) = v.(us_PromptTokensDetails) ->
  u.(us_ClaudeCacheCreation5mTokens) = v.(us_ClaudeCacheCreation5mTokens) -> u.(us_ClaudeCacheCreation1hTokens) = v.(us_ClaudeCacheCreation1hTokens) ->
  u.(us_Cost) = v.(us_Cost) ->
  usageSemanticFromUsage (answered_in f rq) (Some u) = usageSemanticFromUsage (answered_in f' rq) (Some v) ->
  isLegacyClaudeDerivedOpenAIUsage (answered_in f rq) u = isLegacyClaudeDerivedOpenAIUsage (answered_in f' rq) v ->
  calculateTextQuotaSummary idx quotaPerUnit (answered_in f rq) (Some u) = calculateTextQuotaSummary idx quotaPerUnit (answered_in f' rq) (Some v).
Proof.
  intros H1 H2 H3 H4 H5 H6 H7 H8. unfold calculateTextQuotaSummary. simpl default. rewrite H7, H8.
  assert (forall claude, summarize idx quotaPerUnit (answered_in f rq) claude u = summarize idx quotaPerUnit (answered_in f' rq) claude v) as E; [|by rewrite E].
  intros claude. unfold summarize, CalcOpenRouterCacheCreateTokens. by rewrite H1, H2, H3, H4, H5, H6.
Qed.
(** Usage that says its semantic is settled alike whatever format the answer came in. *)
Lemma summary_any_format rq f f' u : u.(us_UsageSemantic) <> EmptyString ->
  calculateTextQuotaSummary idx quotaPerUnit (answered_in f rq) (Some u) = calculateTextQuotaSummary idx quotaPerUnit (answered_in f' rq) (Some u).
Proof.
  intros Hs. apply summary_same; try done.
  - unfold usageSemanticFromUsage. by rewrite (proj2 (String.eqb_neq _ _) Hs).
  - unfold isLegacyClaudeDerivedOpenAIUsage. rewrite (proj2 (String.eqb_neq _ _) Hs), orb_true_r. by destruct (rq_FinalClaude _), (rq_FinalClaude _).
Qed.
(** C37. A conversion of format does not change the bill.  If usage passes from one gateway to
    the next in the format of Claude, the next settles by the snapshot inside.  A snapshot
    that decodes at the first gateway is decoded to the same usage at the next, and costs the
    same there with the same prices, whatever formats the two received.  A plain report of
    an OpenAI provider without a snapshot, which the first gateway received in OpenAI's format,
    costs at the next, which reads Claude's format ([FinalRequestRelayFormat]), what it costs
    at the first. *)
Theorem hop_keeps_bill u rq :
  (forall b c, u.2 = Some b -> CanonicalUsage b = Some c ->
     effectiveBillingUsage (hop u) = effectiveBillingUsage u /\
     forall there here, calculateTextQuotaSummary idx quotaPerUnit (answered_in there rq) (Some (billed (effectiveBillingUsage (hop u)))) =
                        calculateTextQuotaSummary idx quotaPerUnit (answered_in here rq) (Some (billed (effectiveBillingUsage u)))) /\
  (plain_report u ->
     calculateTextQuotaSummary idx quotaPerUnit (answered_in true rq) (Some (billed (effectiveBillingUsage (hop u)))) =
     calculateTextQuotaSummary idx quotaPerUnit (answered_in false rq) (Some (billed (effectiveBillingUsage u)))).
Proof.
  split.
  - intros b c Hb Hc. assert (effectiveBillingUsage u = c) as Eu by (unfold effectiveBillingUsage; rewrite Hb; simpl; by rewrite Hc).
    assert (effectiveBillingUsage (hop u) = c) as -> by (unfold effectiveBillingUsage; rewrite (hop_snapshot u b) by (by rewrite Hb); simpl; by rewrite canonical_clone, Hc).
    rewrite Eu. split; [done|]. intros there here. apply summary_any_format. by apply (canonical_semantic b c).
  - intros H. destruct (effective_hop_plain u H) as (b & _ & -> & _). assert (effectiveBillingUsage u = u) as -> by (unfold effectiveBillingUsage; by rewrite (pr_none u H)).
    pose proof (pr_prompt u H) as Hp. pose proof (pr_completion u H) as Hc. pose proof (pr_hits u H) as Hh. pose proof (pr_split u H) as Hs.
    apply summary_same; simpl; try done.
    + by rewrite (proj2 (Z.eqb_neq (uc_PromptTokens u.1) 0)) by lia.
    + destruct (Z.eqb_spec (uc_CompletionTokens u.1) 0), (Z.ltb_spec 0 (uc_OutputTokens u.1)); simpl; lia.
    + rewrite (pr_details u H). rewrite (proj2 (Z.ltb_ge 0 (uc_PromptCacheHitTokens u.1))) by lia. by rewrite andb_false_r.
    + by destruct (pr_semantic u H) as [-> | ->].
    + unfold isLegacyClaudeDerivedOpenAIUsage. simpl.
      destruct Hs as [Hs1 Hs2]. rewrite (proj2 (Z.ltb_ge _ _) Hs1), (proj2 (Z.ltb_ge _ _) Hs2). by destruct (_ || _).
Qed.
End bill.

(** ** The details of Gemini *)

(** A report of [p] prompt tokens, [a] of them audio. *)
Definition audio_report (p a : Z) : GeminiCounts := mkGeminiCounts p 0 0 p 0 0 [mkGeminiDetail "AUDIO" a] [] [].
Lemma canonical_gemini b g x : b.(bu_OpenAIUsage) = None -> b.(bu_ClaudeUsage) = None -> b.(bu_GeminiUsageMetadata) = Some (g, x) -> HasGeminiUsageMetadataTokens g = true ->
  b.(bu_Semantic) = BillingUsageSemanticGemini -> CanonicalUsage b = Some (canonicalGeminiUsage b g).
Proof.
  intros Ho Hc Hg Ht Hs. unfold CanonicalUsage. rewrite Ho, Hc, Hg, Ht, Hs. change (EqualFold (TrimSpace BillingUsageSemanticGemini) BillingUsageSemanticGemini) with true. by rewrite orb_true_r.
Qed.
Lemma pile_step p a b : 0 < p <= MaxInt64 -> 0 < a -> 0 <= b -> b + a <= MaxInt64 -> merge_gemini_counts (audio_report p b) (audio_report p a) = audio_report p (b + a).
Proof.
  intros Hp Ha Hb Hfit. assert (forall z, 0 < z <= MaxInt64 -> wrap64 z = z) as W by (intros z Hz; apply wrap64_id; unfold in_i64, MinInt64, MaxInt64 in *; lia).
  assert (mergeGeminiTokenDetails [mkGeminiDetail "AUDIO" b] [mkGeminiDetail "AUDIO" a] = [mkGeminiDetail "AUDIO" (b + a)]) as E.
  { unfold mergeGeminiTokenDetails. cbn [foldl]. unfold add_detail. cbn [gd_TokenCount gd_Modality]. rewrite (proj2 (Z.leb_gt a 0)) by lia. simpl. by rewrite W by lia. }
  unfold merge_gemini_counts, audio_report. cbn [ge_PromptTokenCount ge_ToolUsePromptTokenCount ge_CandidatesTokenCount ge_TotalTokenCount ge_ThoughtsTokenCount
    ge_CachedContentTokenCount ge_PromptTokensDetails ge_ToolUsePromptTokensDetails ge_CandidatesTokensDetails]. rewrite E.
  assert (later p p = p) as -> by (unfold later; by destruct (0 <? p)). change (later 0 0) with 0. change (0 <? 0) with false. cbv zeta iota. by rewrite !Z.add_0_r, !(W p Hp), Z.ltb_irrefl.
Qed.
(** [n] reports after the first, all the same, overlaid. *)
Definition overlay (n : nat) (p a : Z) : option GeminiUsage :=
  Nat.iter n (fun c => MergeGeminiUsageMetadataNonZero c (Some (audio_report p a, None))) (Some (audio_report p a, None)).
Lemma overlay_piles_up p a n : 0 < p <= MaxInt64 -> 0 < a -> (Z.of_nat n + 1) * a <= MaxInt64 -> overlay n p a = Some (audio_report p ((Z.of_nat n + 1) * a), None).
Proof.
  intros Hp Ha. induction n as [|n IH]; intros Hn; [by rewrite Z.mul_1_l|]. unfold overlay in *. rewrite Nat.iter_succ, IH by nia. simpl.
  rewrite pile_step by nia. do 3 f_equal. lia.
Qed.
(** C39. Gemini repeats its cumulative usage in every chunk of a stream.  Overlaying keeps the
    count of the prompt, but adds up the counts by modality: after [n + 1] equal reports the
    usage that is billed has the prompt [p] and [(n + 1) * a] audio tokens in it. *)
Theorem stream_details_pile_up p a n : 0 < p <= MaxInt64 -> 0 < a <= p -> (Z.of_nat n + 1) * a <= MaxInt64 ->
  exists g b u, overlay n p a = Some g /\ newGeminiChatBillingUsage g false = Some b /\ CanonicalUsage b = Some u /\
    u.1.(uc_PromptTokens) = p /\ u.1.(uc_PromptTokensDetails).(it_AudioTokens) = (Z.of_nat n + 1) * a.
Proof.
  intros Hp Ha Hn. rewrite (overlay_piles_up p a n) by (done || lia). set (x := (Z.of_nat n + 1) * a) in *. assert (0 < x) as Hx by (unfold x; nia). clearbody x. clear n.
  assert (HasGeminiUsageMetadataTokens (audio_report p x) = true) as Ht by (unfold HasGeminiUsageMetadataTokens, any_count; simpl; rewrite (proj2 (Z.eqb_neq p 0)) by lia; done).
  set (b := mkBilling BillingUsageSourceGeminiChat BillingUsageSemanticGemini false None None (Some (audio_report p x, None))).
  exists (audio_report p x, None), b, (canonicalGeminiUsage b (audio_report p x)). split; [done|]. split; [unfold newGeminiChatBillingUsage; cbn [fst]; by rewrite Ht|].
  split; [by apply (canonical_gemini b (audio_report p x) None)|]. unfold canonicalGeminiUsage. simpl. rewrite (proj2 (Z.eqb_neq p 0)) by lia. simpl.
  assert (forall z, 0 < z <= MaxInt64 -> wrap64 (z + 0) = z /\ wrap64 z = z) as W by (intros z Hz; rewrite Z.add_0_r, wrap64_id; [done|unfold in_i64, MinInt64, MaxInt64 in *; lia]).
  destruct (W p Hp) as [-> _]. destruct (W x ltac:(lia)) as [_ Wx]. rewrite Z.add_0_l, Wx, (proj2 (Z.eqb_neq x 0)) by lia. rewrite andb_false_r. done.
Qed.

(** ** Samples *)

(** A report of 100 prompt tokens, 40 of them cached, and 20 completion tokens. *)
Definition sample_report : FullUsage :=
  (mkUsageCounts 100 20 120 0 "" "" (mkInputDetails 40 None 0 0 0 0 0) no_out_details 0 0 None 0 0 None, None).
Lemma stream_details_pile_up_witness :
  exists g b u, overlay 4 100 30 = Some g /\ newGeminiChatBillingUsage g false = Some b /\ CanonicalUsage b = Some u /\
    u.1.(uc_PromptTokens) = 100 /\ u.1.(uc_PromptTokensDetails).(it_AudioTokens) = 150.
Proof. apply (stream_details_pile_up 100 30 4); [unfold MaxInt64; lia|lia|unfold MaxInt64; lia]. Defined.
(** The snapshot of the report and what the two gateways make of it. *)
Lemma hop_sample : (hop sample_report).1.(uc_PromptTokens) = 100 /\ (effectiveBillingUsage (hop sample_report)).1.(uc_PromptTokensDetails).(it_CachedTokens) = 40.
Proof. split; vm_compute; reflexivity. Qed.
Lemma sample_report_plain : plain_report sample_report.
Proof. constructor; simpl; (reflexivity || lia || (left; lia) || (left; reflexivity) || (split; lia)). Qed.
(** The same report behind a snapshot. *)
Definition snapshot_report : FullUsage := (sample_report.1, NewOpenAIChatBillingUsage sample_report).
Lemma hop_keeps_bill_witness :
  let bill claude u := @calculateTextQuotaSummary QDecimal QDecimalOps default_index unit_quota (answered_in claude sample_request) (Some (billed (effectiveBillingUsage u))) in
  bill true (hop sample_report) = bill false sample_report /\ bill true (hop snapshot_report) = bill false snapshot_report.
Proof.
  split; [apply (@hop_keeps_bill QDecimal QDecimalOps default_index unit_quota sample_report sample_request); exact sample_report_plain|].
  apply (proj2 (proj1 (@hop_keeps_bill QDecimal QDecimalOps default_index unit_quota snapshot_report sample_request) _ _ eq_refl eq_refl)).
Defined.
