(* ===== verification/ClaudeStream.v ===== *)
(** * Streams of Chat Completions as streams of Claude Messages
    (relaykit/relayconvert/internal/oai_chat/to_claude_messages_resp.go)

    Every chunk of an OpenAI stream becomes events of Claude's protocol: blocks of text,
    thinking and tool use that start, carry deltas and stop.  A pointer to a tool call is its
    position in the list of tool calls.  [C] is the type of citations, [uuid] names a tool
    whose id never came, by its block. *)

From stdpp Require Import base tactics numbers list gmap strings.
From Stdlib Require Import ZArith Lia.
From S2P Require Import Prelude Cost UsageMerge.
Open Scope Z_scope.

(** ** Chunks *)

Record ToolCallDelta := mkToolCallDelta { tc_Index : option Z; tc_ID : string; tc_Name : string; tc_Arguments : string }.
(** [ch_Citations]: what the annotations of the delta convert to. *)
Record Choice (C : Type) := mkChoice {
  ch_FinishReason : option string;
  ch_Content : option string;
  ch_ReasoningContent : option string;
  ch_Reasoning : option string;
  ch_ToolCalls : list ToolCallDelta;
  ch_Citations : list C
}.
Record StreamChunk (C : Type) := mkChunk { ck_Id : string; ck_Model : string; ck_Usage : option FullUsage; ck_Choices : list (Choice C) }.
Arguments mkChoice {C}.
Arguments ch_FinishReason {C}.
Arguments ch_Content {C}.
Arguments ch_ReasoningContent {C}.
Arguments ch_Reasoning {C}.
Arguments ch_ToolCalls {C}.
Arguments ch_Citations {C}.
Arguments mkChunk {C}.
Arguments ck_Id {C}.
Arguments ck_Model {C}.
Arguments ck_Usage {C}.
Arguments ck_Choices {C}.
Definition GetContentString {C} (c : Choice C) : string := default "" c.(ch_Content).
Definition GetReasoningContent {C} (c : Choice C) : string :=
  match c.(ch_ReasoningContent), c.(ch_Reasoning) with Some s, _ => s | None, Some s => s | None, None => "" end.

(** ** Events *)

Inductive block := TextBlock | ThinkingBlock | ToolUseBlock (id name : string).
Inductive delta (C : Type) := TextDelta (s : string) | ThinkingDelta (s : string) | InputJsonDelta (s : string) | CitationsDelta (c : C).
Inductive event (C : Type) :=
| MessageStart (id model : string) (usage : ClaudeUsage)
| BlockStart (index : nat) (b : block)
| BlockDelta (index : nat) (d : delta C)
| BlockStop (index : nat)
| MessageDelta (usage : option ClaudeUsage) (stopReason : string)
| MessageStop.
Arguments TextDelta {C}.
Arguments ThinkingDelta {C}.
Arguments InputJsonDelta {C}.
Arguments CitationsDelta {C}.
Arguments MessageStart {C}.
Arguments BlockStart {C}.
Arguments BlockDelta {C}.
Arguments BlockStop {C}.
Arguments MessageDelta {C}.
Arguments MessageStop {C}.

(** ** State (relaykit/relayconvert/convmeta/meta.go) *)

Inductive LastMessageType := LastMessageTypeNone | LastMessageTypeText | LastMessageTypeTools | LastMessageTypeThinking.
#[export] Instance LastMessageType_eq_dec : EqDecision LastMessageType.
Proof. solve_decision. Defined.
Record ClaudeStreamToolCall := mkToolCall { tl_BlockIndex : nat; tl_ID : string; tl_Name : string; tl_PendingArguments : string; tl_Started : bool }.
Record ClaudeConvertInfo := mkConvertInfo {
  ci_LastMessagesType : LastMessageType;
  ci_Index : nat;
  ci_Usage : option FullUsage;
  ci_FinishReason : string;
  ci_Done : bool;
  ci_ToolCallBaseIndex : nat;
  ci_ToolCallMaxIndexOffset : nat;
  ci_ToolCalls : list ClaudeStreamToolCall;
  ci_ToolCallByIndex : gmap Z nat;
  ci_ToolCallByID : gmap string nat
}.
Definition new_info : ClaudeConvertInfo := mkConvertInfo LastMessageTypeNone 0 None "" false 0 0 [] ∅ ∅.
Definition set_type (t : LastMessageType) (s : ClaudeConvertInfo) : ClaudeConvertInfo :=
  mkConvertInfo t s.(ci_Index) s.(ci_Usage) s.(ci_FinishReason) s.(ci_Done) s.(ci_ToolCallBaseIndex) s.(ci_ToolCallMaxIndexOffset) s.(ci_ToolCalls) s.(ci_ToolCallByIndex) s.(ci_ToolCallByID).
Definition set_index (i : nat) (s : ClaudeConvertInfo) : ClaudeConvertInfo :=
  mkConvertInfo s.(ci_LastMessagesType) i s.(ci_Usage) s.(ci_FinishReason) s.(ci_Done) s.(ci_ToolCallBaseIndex) s.(ci_ToolCallMaxIndexOffset) s.(ci_ToolCalls) s.(ci_ToolCallByIndex) s.(ci_ToolCallByID).
Definition set_usage (u : option FullUsage) (s : ClaudeConvertInfo) : ClaudeConvertInfo :=
  mkConvertInfo s.(ci_LastMessagesType) s.(ci_Index) u s.(ci_FinishReason) s.(ci_Done) s.(ci_ToolCallBaseIndex) s.(ci_ToolCallMaxIndexOffset) s.(ci_ToolCalls) s.(ci_ToolCallByIndex) s.(ci_ToolCallByID).
Definition set_finish (f : string) (s : ClaudeConvertInfo) : ClaudeConvertInfo :=
  mkConvertInfo s.(ci_LastMessagesType) s.(ci_Index) s.(ci_Usage) f s.(ci_Done) s.(ci_ToolCallBaseIndex) s.(ci_ToolCallMaxIndexOffset) s.(ci_ToolCalls) s.(ci_ToolCallByIndex) s.(ci_ToolCallByID).
Definition set_done (s : ClaudeConvertInfo) : ClaudeConvertInfo :=
  mkConvertInfo s.(ci_LastMessagesType) s.(ci_Index) s.(ci_Usage) s.(ci_FinishReason) true s.(ci_ToolCallBaseIndex) s.(ci_ToolCallMaxIndexOffset) s.(ci_ToolCalls) s.(ci_ToolCallByIndex) s.(ci_ToolCallByID).
Definition set_tools (base off : nat) (l : list ClaudeStreamToolCall) (bi : gmap Z nat) (bd : gmap string nat) (s : ClaudeConvertInfo) : ClaudeConvertInfo :=
  mkConvertInfo s.(ci_LastMessagesType) s.(ci_Index) s.(ci_Usage) s.(ci_FinishReason) s.(ci_Done) base off l bi bd.
Definition set_calls (l : list ClaudeStreamToolCall) (s : ClaudeConvertInfo) : ClaudeConvertInfo :=
  set_tools s.(ci_ToolCallBaseIndex) s.(ci_ToolCallMaxIndexOffset) l s.(ci_ToolCallByIndex) s.(ci_ToolCallByID) s.

(** ** Finish reasons (relaykit/reasonmap) *)

Definition lower_char (c : Ascii.ascii) : Ascii.ascii :=
  let n := Ascii.nat_of_ascii c in if ((65 <=? n) && (n <=? 90))%nat then Ascii.ascii_of_nat (n + 32) else c.
Fixpoint ToLower (s : string) : string := match s with EmptyString => EmptyString | String c s => String (lower_char c) (ToLower s) end.
Definition OpenAIFinishReasonToClaudeStopReason (r : string) : string :=
  let l := ToLower r in
  if String.eqb l "stop" then "end_turn"
  else if String.eqb l "stop_sequence" then "stop_sequence"
  else if String.eqb l "length" || String.eqb l "max_tokens" then "max_tokens"
  else if String.eqb l "content_filter" then "refusal"
  else if String.eqb l "tool_calls" then "tool_use"
  else r.
Definition ClaudeStopReasonToOpenAIFinishReason (r : string) : string :=
  let l := ToLower r in
  if String.eqb l "stop_sequence" || String.eqb l "end_turn" then "stop"
  else if String.eqb l "max_tokens" then "length"
  else if String.eqb l "tool_use" then "tool_calls"
  else if String.eqb l "pause_turn" then "length"
  else if String.eqb l "refusal" then "content_filter"
  else r.

Section convert.
Context {C : Type} (uuid : nat -> string).
Implicit Types s : ClaudeConvertInfo.

(** ** Closing blocks *)

Definition stopOpenBlocks s : list (event C) :=
  match s.(ci_LastMessagesType) with
  | LastMessageTypeText | LastMessageTypeThinking => [BlockStop s.(ci_Index)]
  | LastMessageTypeTools =>
      match s.(ci_ToolCalls) with
      | [] => (fun off => BlockStop (s.(ci_ToolCallBaseIndex) + off)) <$> seq 0 (S s.(ci_ToolCallMaxIndexOffset))
      | l => (fun t => BlockStop t.(tl_BlockIndex)) <$> filter (fun t => t.(tl_Started) = true) l
      end
  | LastMessageTypeNone => []
  end.
Definition nonempty_delta (i : nat) (args : string) : list (event C) := if String.eqb args "" then [] else [BlockDelta i (InputJsonDelta args)].
Definition start_tool (t : ClaudeStreamToolCall) : list (event C) * ClaudeStreamToolCall :=
  (BlockStart t.(tl_BlockIndex) (ToolUseBlock t.(tl_ID) t.(tl_Name)) :: nonempty_delta t.(tl_BlockIndex) t.(tl_PendingArguments),
   mkToolCall t.(tl_BlockIndex) t.(tl_ID) t.(tl_Name) "" true).
Definition start_pending (t : ClaudeStreamToolCall) : list (event C) * ClaudeStreamToolCall :=
  if t.(tl_Started) || String.eqb t.(tl_Name) "" then ([], t)
  else start_tool (mkToolCall t.(tl_BlockIndex) (if String.eqb t.(tl_ID) "" then "toolu_" +:+ uuid t.(tl_BlockIndex) else t.(tl_ID)) t.(tl_Name) t.(tl_PendingArguments) false).
Definition startPendingToolBlocks s : list (event C) * ClaudeConvertInfo :=
  match s.(ci_LastMessagesType) with
  | LastMessageTypeTools => (concat ((fun t => (start_pending t).1) <$> s.(ci_ToolCalls)), set_calls ((fun t => (start_pending t).2) <$> s.(ci_ToolCalls)) s)
  | _ => ([], s)
  end.
Definition appendStopOpenBlocks s : list (event C) * ClaudeConvertInfo :=
  let (es, s) := startPendingToolBlocks s in (es ++ stopOpenBlocks s, s).
Definition stopOpenBlocksAndAdvance s : list (event C) * ClaudeConvertInfo :=
  match s.(ci_LastMessagesType) with
  | LastMessageTypeNone => ([], s)
  | t =>
      let (es, s) := appendStopOpenBlocks s in
      let s := match t with
               | LastMessageTypeTools => set_tools 0 0 [] ∅ ∅ (set_index (s.(ci_ToolCallBaseIndex) + length s.(ci_ToolCalls)) s)
               | _ => set_index (S s.(ci_Index)) s
               end in
      (es, set_type LastMessageTypeNone s)
  end.

(** ** Usage *)

Definition clientVisibleClaudeStreamUsage s (incoming : option FullUsage) : option ClaudeUsage * ClaudeConvertInfo :=
  let prior := UsageFromOpenAI <$> s.(ci_Usage) in
  let converted := UsageFromOpenAI <$> incoming in
  let s := match incoming with Some _ => set_usage (Some (MergeUsageNonZero s.(ci_Usage) incoming)) s | None => s end in
  (match prior, converted with
   | None, _ => converted
   | _, None => prior
   | _, _ => Some (MergeClaudeUsageNonZero prior converted)
   end, s).

(** ** Tool calls *)

(** The tool call that a delta belongs to: by its id, by its index, or a new one. *)
Definition find_tool (toolIndex : Z) (incomingID : string) s : option nat :=
  let byID := if String.eqb incomingID "" then None else s.(ci_ToolCallByID) !! incomingID in
  match (match byID with Some p => Some p | None => s.(ci_ToolCallByIndex) !! toolIndex end) with
  | None => None
  | Some p =>
      match s.(ci_ToolCalls) !! p with
      | None => None
      | Some t => if negb (String.eqb incomingID "") && negb (String.eqb t.(tl_ID) "") && negb (String.eqb t.(tl_ID) incomingID) then None else Some p
      end
  end.
Definition toolIndex_of (i : nat) (tc : ToolCallDelta) : Z := default (Z.of_nat i) tc.(tc_Index).
(** The position the delta [i] of a chunk goes to. *)
Definition tool_position s (i : nat) (tc : ToolCallDelta) : nat := default (length s.(ci_ToolCalls)) (find_tool (toolIndex_of i tc) (TrimSpace tc.(tc_ID)) s).
(** The tool call with what the delta adds to it, and the events. *)
Definition update_tool (tc : ToolCallDelta) (t : ClaudeStreamToolCall) : list (event C) * ClaudeStreamToolCall :=
  let id := TrimSpace tc.(tc_ID) in
  let name := TrimSpace tc.(tc_Name) in
  let t := mkToolCall t.(tl_BlockIndex) (if String.eqb t.(tl_ID) "" then id else t.(tl_ID)) (if String.eqb t.(tl_Name) "" then name else t.(tl_Name))
             (if t.(tl_Started) then t.(tl_PendingArguments) else t.(tl_PendingArguments) +:+ tc.(tc_Arguments)) t.(tl_Started) in
  if negb t.(tl_Started) && negb (String.eqb t.(tl_ID) "") && negb (String.eqb t.(tl_Name) "") then start_tool t
  else (if t.(tl_Started) then nonempty_delta t.(tl_BlockIndex) tc.(tc_Arguments) else [], t).
Definition toolCallStep s (i : nat) (tc : ToolCallDelta) : list (event C) * ClaudeConvertInfo :=
  let id := TrimSpace tc.(tc_ID) in
  let p := tool_position s i tc in
  let l := if bool_decide (p < length s.(ci_ToolCalls))%nat then s.(ci_ToolCalls)
           else s.(ci_ToolCalls) ++ [mkToolCall (s.(ci_ToolCallBaseIndex) + length s.(ci_ToolCalls)) "" "" "" false] in
  match l !! p with
  | None => ([], s)
  | Some t =>
      let byID := if String.eqb t.(tl_ID) "" && negb (String.eqb id "") then <[id := p]> s.(ci_ToolCallByID) else s.(ci_ToolCallByID) in
      let (es, t) := update_tool tc t in
      (es, set_tools s.(ci_ToolCallBaseIndex) s.(ci_ToolCallMaxIndexOffset) (<[p := t]> l) (<[toolIndex_of i tc := p]> s.(ci_ToolCallByIndex)) byID s)
  end.
Fixpoint toolCallLoop (i : nat) (tcs : list ToolCallDelta) s : list (event C) * ClaudeConvertInfo :=
  match tcs with
  | [] => ([], s)
  | tc :: tcs => let (es, s) := toolCallStep s i tc in let (es', s) := toolCallLoop (S i) tcs s in (es ++ es', s)
  end.
Definition convert_tools (tcs : list ToolCallDelta) s : list (event C) * ClaudeConvertInfo :=
  let '(es, s) := match s.(ci_LastMessagesType) with
                  | LastMessageTypeTools => ([], s)
                  | _ => let (es, s) := stopOpenBlocksAndAdvance s in (es, set_tools s.(ci_Index) 0 [] ∅ ∅ s)
                  end in
  let (es', s) := toolCallLoop 0 tcs (set_type LastMessageTypeTools s) in
  let n := length s.(ci_ToolCalls) in
  let s := set_tools s.(ci_ToolCallBaseIndex) (n - 1) s.(ci_ToolCalls) s.(ci_ToolCallByIndex) s.(ci_ToolCallByID) s in
  (es ++ es', if bool_decide (0 < n)%nat then set_index (s.(ci_ToolCallBaseIndex) + n - 1) s else s).

(** ** Text and thinking *)

(** The block of the type is open at the current index afterwards. *)
Definition ensure_block (t : LastMessageType) (b : block) s : list (event C) * ClaudeConvertInfo :=
  if bool_decide (s.(ci_LastMessagesType) = t) then ([], s)
  else let (es, s) := stopOpenBlocksAndAdvance s in (es ++ [BlockStart s.(ci_Index) b], set_type t s).
Definition convert_text (c : Choice C) s : list (event C) * ClaudeConvertInfo :=
  let reasoning := GetReasoningContent c in let text := GetContentString c in
  if negb (String.eqb reasoning "") then
    let (es, s) := ensure_block LastMessageTypeThinking ThinkingBlock s in (es ++ [BlockDelta s.(ci_Index) (ThinkingDelta reasoning)], s)
  else if negb (String.eqb text "") then
    let (es, s) := ensure_block LastMessageTypeText TextBlock s in (es ++ [BlockDelta s.(ci_Index) (TextDelta text)], s)
  else ([], s).
Definition appendCitationDeltas (cs : list C) s : list (event C) * ClaudeConvertInfo :=
  match cs with
  | [] => ([], s)
  | _ => let (es, s) := ensure_block LastMessageTypeText TextBlock s in (es ++ ((fun c => BlockDelta s.(ci_Index) (CitationsDelta c)) <$> cs), s)
  end.

(** ** A chunk *)

Definition finish (u : option ClaudeUsage) (reason : string) s : list (event C) * ClaudeConvertInfo :=
  let (es, s) := appendStopOpenBlocks s in (es ++ [MessageDelta u reason; MessageStop], set_done s).
Definition message_start (count estimate : Z) (ck : StreamChunk C) s : list (event C) * ClaudeConvertInfo :=
  if count =? 1 then
    let estimated : ClaudeUsage := (mkClaudeCounts estimate 0 0 0 None 0 0 None, None) in
    match ck.(ck_Usage) with
    | Some u => if HasOpenAIUsageTokens u.1
                then ([MessageStart ck.(ck_Id) ck.(ck_Model) (UsageFromOpenAI u)], set_usage (Some (MergeUsageNonZero s.(ci_Usage) (Some u))) s)
                else ([MessageStart ck.(ck_Id) ck.(ck_Model) estimated], s)
    | None => ([MessageStart ck.(ck_Id) ck.(ck_Model) estimated], s)
    end
  else ([], s).
Definition or_end_turn (r : string) : string := if String.eqb r "" then "end_turn" else r.
Definition convert_choice (u : option FullUsage) (c : Choice C) s : list (event C) * ClaudeConvertInfo :=
  let reason := default "" c.(ch_FinishReason) in
  let doneChunk := negb (String.eqb reason "") in
  let s := if doneChunk then set_finish reason s else s in
  let (es1, s) := match c.(ch_ToolCalls) with [] => convert_text c s | tcs => convert_tools tcs s end in
  let (es2, s) := appendCitationDeltas c.(ch_Citations) s in
  if doneChunk then
    match clientVisibleClaudeStreamUsage s u with
    | (None, s) => (es1 ++ es2, s)
    | (Some v, s) => let (es3, s) := finish (Some v) (OpenAIFinishReasonToClaudeStopReason s.(ci_FinishReason)) s in (es1 ++ es2 ++ es3, s)
    end
  else (es1 ++ es2, s).
Definition StreamResponseOpenAI2Claude (count estimate : Z) (ck : StreamChunk C) s : list (event C) * ClaudeConvertInfo :=
  if s.(ci_Done) then ([], s)
  else
    let (es0, s) := message_start count estimate ck s in
    match ck.(ck_Choices) with
    | [] =>
        match clientVisibleClaudeStreamUsage s ck.(ck_Usage) with
        | (None, s) => (es0, s)
        | (Some v, s) => let (es, s) := finish (Some v) (or_end_turn (OpenAIFinishReasonToClaudeStopReason s.(ci_FinishReason))) s in (es0 ++ es, s)
        end
    | c :: _ => let (es, s) := convert_choice ck.(ck_Usage) c s in (es0 ++ es, s)
    end.
Definition FinalizeStreamResponseOpenAI2Claude s : list (event C) * ClaudeConvertInfo :=
  if s.(ci_Done) then ([], s)
  else let (v, s) := clientVisibleClaudeStreamUsage s None in
       finish v (or_end_turn (OpenAIFinishReasonToClaudeStopReason s.(ci_FinishReason))) s.

(** ** Streams *)

(** The converter of relaykit counts the chunks itself (response_registry.go). *)
Fixpoint convert_chunks (count estimate : Z) (cks : list (StreamChunk C)) s : list (event C) * ClaudeConvertInfo :=
  match cks with
  | [] => ([], s)
  | ck :: cks => let (es, s) := StreamResponseOpenAI2Claude (count + 1) estimate ck s in
                 let (es', s) := convert_chunks (count + 1) estimate cks s in (es ++ es', s)
  end.
(** What the stream state remembers of the usages, each chunk's merged by the step and again
    by its caller. *)
Definition rememberUsage (cur : option FullUsage) (u : FullUsage) : option FullUsage := Some (MergeUsageNonZero cur (Some u)).
Definition remembered (cks : list (StreamChunk C)) : option FullUsage :=
  foldl (fun cur ck => match UsageFromChatUsage <$> ck.(ck_Usage) with Some u => rememberUsage (rememberUsage cur u) u | None => cur end) None cks.
Definition FinalizeStreamResponse (usage : option FullUsage) s : list (event C) * ClaudeConvertInfo :=
  FinalizeStreamResponseOpenAI2Claude (match s.(ci_Usage) with None => set_usage usage s | Some _ => s end).
Definition convert_stream (estimate : Z) (cks : list (StreamChunk C)) : list (event C) :=
  let (es, s) := convert_chunks 0 estimate cks new_info in es ++ (FinalizeStreamResponse (remembered cks) s).1.

(** The handler of an OpenAI channel (relay/channel/openai): every chunk but the last is
    counted and converted when the next one comes, the last one is converted at the end,
    with the usage that will be billed. *)
Definition handleClaudeFormat (count estimate : Z) (ck : StreamChunk C) s : list (event C) * ClaudeConvertInfo :=
  StreamResponseOpenAI2Claude count estimate ck (match ck.(ck_Usage) with Some u => set_usage (Some u) s | None => s end).
Definition HandleFinalResponse (count estimate : Z) (usage : FullUsage) (ck : StreamChunk C) s : list (event C) * ClaudeConvertInfo :=
  let (es, s) := StreamResponseOpenAI2Claude count estimate ck (set_usage (Some usage) s) in (es, set_done s).
Fixpoint handle_chunks (count estimate : Z) (usage : FullUsage) (ck : StreamChunk C) (cks : list (StreamChunk C)) s : list (event C) * ClaudeConvertInfo :=
  match cks with
  | [] => HandleFinalResponse count estimate usage ck s
  | ck' :: cks => let (es, s) := handleClaudeFormat (count + 1) estimate ck s in
                  let (es', s) := handle_chunks (count + 1) estimate usage ck' cks s in (es ++ es', s)
  end.
Definition OaiStreamHandler (estimate : Z) (usage : FullUsage) (ck : StreamChunk C) (cks : list (StreamChunk C)) : list (event C) := (handle_chunks 0 estimate usage ck cks new_info).1.
End convert.
