(* ===== verification/ClaudeProtocol.v ===== *)
(** * The protocol of a Claude stream

    A message starts, then blocks start, carry deltas of their kind and stop, each index
    once; when all have stopped the message ends.  The converter of ClaudeStream keeps it. *)

From stdpp Require Import base tactics numbers list gmap strings.
From Stdlib Require Import ZArith Lia.
From S2P Require Import Prelude Cost UsageMerge ClaudeStream.
Open Scope Z_scope.

Inductive phase := Fresh | Streaming (open : gmap nat block) (used : gset nat) | Closing | Finished.
Definition fits {C} (b : block) (d : delta C) : bool :=
  match b, d with
  | TextBlock, TextDelta _ | TextBlock, CitationsDelta _ | ThinkingBlock, ThinkingDelta _ | ToolUseBlock _ _, InputJsonDelta _ => true
  | _, _ => false
  end.
Definition accept {C} (p : phase) (e : event C) : option phase :=
  match p, e with
  | Fresh, MessageStart _ _ _ => Some (Streaming ∅ ∅)
  | Streaming open used, BlockStart i b => if bool_decide (i ∈ used) then None else Some (Streaming (<[i := b]> open) ({[i]} ∪ used))
  | Streaming open used, BlockDelta i d => match open !! i with Some b => if fits b d then Some p else None | None => None end
  | Streaming open used, BlockStop i => match open !! i with Some _ => Some (Streaming (delete i open) used) | None => None end
  | Streaming open used, MessageDelta _ _ => if bool_decide (open = ∅) then Some Closing else None
  | Closing, MessageStop => Some Finished
  | _, _ => None
  end.
Fixpoint run {C} (p : phase) (es : list (event C)) : option phase :=
  match es with [] => Some p | e :: es => match accept p e with Some p => run p es | None => None end end.
Lemma run_app {C} p (es es' : list (event C)) : run p (es ++ es') = run p es ≫= fun p => run p es'.
Proof. revert p. induction es as [|e es IH]; intros p; simpl; [done|]. destruct (accept p e); [apply IH|done]. Qed.
Lemma run_trans {C} p q r (es es' : list (event C)) : run p es = Some q -> run q es' = Some r -> run p (es ++ es') = Some r.
Proof. intros H1 H2. by rewrite run_app, H1. Qed.

Section protocol.
Context {C : Type} (uuid : nat -> string).
Implicit Types (s : ClaudeConvertInfo) (open : gmap nat block) (used : gset nat) (es : list (event C)).

(** ** Closing *)

Lemma run_stops L open used :
  NoDup L -> (forall i, i ∈ L <-> is_Some (open !! i)) -> run (Streaming open used) ((fun i => BlockStop i) <$> L : list (event C)) = Some (Streaming ∅ used).
Proof.
  revert open. induction L as [|i L IH]; intros open Hnd Hdom; simpl.
  - do 2 f_equal. apply map_eq. intros i. rewrite lookup_empty. destruct (open !! i) eqn:E; [|done]. exfalso. apply (not_elem_of_nil i), Hdom. by exists b.
  - apply NoDup_cons in Hnd as [Hi Hnd]. destruct (proj1 (Hdom i) ltac:(left)) as [b Hb]. rewrite Hb. apply IH; [done|]. intros j. destruct (decide (j = i)) as [->|Hne].
    + rewrite lookup_delete_eq. split; [done|by intros []].
    + rewrite lookup_delete_ne by done. rewrite <- Hdom, elem_of_cons. naive_solver.
Qed.

(** The tool calls of a run: their blocks are consecutive, those that were started are the
    open ones, and the others are unused. *)
Record tools_inv (base : nat) (l : list ClaudeStreamToolCall) open used : Prop := {
  ti_index p t : l !! p = Some t -> t.(tl_BlockIndex) = (base + p)%nat;
  ti_started p t : l !! p = Some t -> if t.(tl_Started) then exists id name, open !! (base + p)%nat = Some (ToolUseBlock id name) else (base + p)%nat ∉ used;
  ti_open i : is_Some (open !! i) -> exists p t, i = (base + p)%nat /\ l !! p = Some t /\ t.(tl_Started) = true;
  ti_used i : i ∈ used -> (i < base + length l)%nat
}.
Definition stream_inv s open used : Prop :=
  match s.(ci_LastMessagesType) with
  | LastMessageTypeNone => open = ∅ /\ forall i, i ∈ used -> (i < s.(ci_Index))%nat
  | LastMessageTypeText => open = {[s.(ci_Index) := TextBlock]} /\ forall i, i ∈ used -> (i <= s.(ci_Index))%nat
  | LastMessageTypeThinking => open = {[s.(ci_Index) := ThinkingBlock]} /\ forall i, i ∈ used -> (i <= s.(ci_Index))%nat
  | LastMessageTypeTools => tools_inv s.(ci_ToolCallBaseIndex) s.(ci_ToolCalls) open used /\ s.(ci_ToolCalls) <> []
  end.
(** The events of an operation are accepted and lead to a state of the invariant. *)
Definition keeps (r : list (event C) * ClaudeConvertInfo) open used : Prop :=
  exists open' used', run (Streaming open used) r.1 = Some (Streaming open' used') /\ stream_inv r.2 open' used'.
Lemma keeps_bind es s (r : list (event C) * ClaudeConvertInfo) open used :
  keeps (es, s) open used -> (forall open' used', stream_inv s open' used' -> keeps r open' used') -> keeps (es ++ r.1, r.2) open used.
Proof.
  intros (o1 & u1 & R1 & I1) H. destruct (H o1 u1 I1) as (o2 & u2 & R2 & I2). exists o2, u2. split; [|done]. by eapply run_trans.
Qed.
Lemma keeps_nil s open used : stream_inv s open used -> keeps ([], s) open used.
Proof. intros H. by exists open, used. Qed.

Lemma tools_start base l open used p t t' id name args :
  tools_inv base l open used -> l !! p = Some t -> t.(tl_Started) = false -> t'.(tl_BlockIndex) = t.(tl_BlockIndex) -> t'.(tl_Started) = true ->
  exists open' used', run (Streaming open used) (BlockStart t.(tl_BlockIndex) (ToolUseBlock id name) :: nonempty_delta t.(tl_BlockIndex) args : list (event C)) = Some (Streaming open' used') /\
    tools_inv base (<[p := t']> l) open' used'.
Proof.
  intros [H1 H2 H3 H4] Hp Hst Hbi Hst'. pose proof (H1 _ _ Hp) as Hi. pose proof (H2 _ _ Hp) as Hu. rewrite Hst in Hu.
  exists (<[(base + p)%nat := ToolUseBlock id name]> open), ({[(base + p)%nat]} ∪ used). split.
  - rewrite Hi. simpl. rewrite bool_decide_false by done. unfold nonempty_delta. destruct (String.eqb args ""); simpl; [done|]. by rewrite lookup_insert_eq.
  - assert (p < length l)%nat as Hlt by (by eapply lookup_lt_Some). split.
    + intros q x. destruct (decide (q = p)) as [->|Hne]; [rewrite list_lookup_insert_eq by done; intros [= <-]; congruence|rewrite list_lookup_insert_ne by done; apply H1].
    + intros q x. destruct (decide (q = p)) as [->|Hne].
      * rewrite list_lookup_insert_eq by done. intros [= <-]. rewrite Hst', lookup_insert_eq. eauto.
      * rewrite list_lookup_insert_ne by done. intros Hx. specialize (H2 _ _ Hx). destruct (tl_Started x); [rewrite lookup_insert_ne by lia; done|]. set_solver by lia.
    + intros i. destruct (decide (i = base + p)%nat) as [->|Hne].
      * intros _. exists p, t'. rewrite list_lookup_insert_eq by done. done.
      * rewrite lookup_insert_ne by done. intros Hi'. destruct (H3 i Hi') as (q & x & -> & Hx & Hxs). exists q, x. rewrite list_lookup_insert_ne by (intros ->; done). done.
    + intros i. rewrite length_insert, elem_of_union, elem_of_singleton. intros [->|Hi']; [lia|by apply H4].
Qed.
Lemma tools_same base l open used p t t' :
  tools_inv base l open used -> l !! p = Some t -> t'.(tl_BlockIndex) = t.(tl_BlockIndex) -> t'.(tl_Started) = t.(tl_Started) -> tools_inv base (<[p := t']> l) open used.
Proof.
  intros [H1 H2 H3 H4] Hp Hbi Hst. assert (p < length l)%nat as Hlt by (by eapply lookup_lt_Some). split.
  - intros q x. destruct (decide (q = p)) as [->|Hne]; [rewrite list_lookup_insert_eq by done; intros [= <-]; rewrite Hbi; by apply H1|rewrite list_lookup_insert_ne by done; apply H1].
  - intros q x. destruct (decide (q = p)) as [->|Hne]; [rewrite list_lookup_insert_eq by done; intros [= <-]; rewrite Hst; by apply H2|rewrite list_lookup_insert_ne by done; apply H2].
  - intros i Hi. destruct (H3 i Hi) as (q & x & -> & Hx & Hs). destruct (decide (q = p)) as [->|Hne].
    + exists p, t'. rewrite list_lookup_insert_eq by done. rewrite Hst. naive_solver.
    + exists q, x. rewrite list_lookup_insert_ne by done. done.
  - intros i Hi. rewrite length_insert. by apply H4.
Qed.
Lemma tools_delta base l open used p t args :
  tools_inv base l open used -> l !! p = Some t -> t.(tl_Started) = true -> run (Streaming open used) (nonempty_delta t.(tl_BlockIndex) args : list (event C)) = Some (Streaming open used).
Proof.
  intros H Hp Hst. pose proof (ti_index _ _ _ _ H _ _ Hp) as ->. pose proof (ti_started _ _ _ _ H _ _ Hp) as Hs. rewrite Hst in Hs. destruct Hs as (id & name & Ho).
  unfold nonempty_delta. destruct (String.eqb args ""); simpl; [done|]. by rewrite Ho.
Qed.

(** Starting what is pending, one tool call after the other. *)
Lemma pending_one base l open used p t :
  tools_inv base l open used -> l !! p = Some t ->
  exists open' used', run (Streaming open used) (start_pending (C := C) uuid t).1 = Some (Streaming open' used') /\ tools_inv base (<[p := (start_pending (C := C) uuid t).2]> l) open' used'.
Proof.
  intros H Hp. unfold start_pending. destruct t.(tl_Started) eqn:Hs; simpl.
  { exists open, used. split; [done|]. by rewrite list_insert_id. }
  destruct (String.eqb t.(tl_Name) ""); simpl; [exists open, used; split; [done|]; by rewrite list_insert_id|]. by eapply tools_start.
Qed.
Lemma pending_all base l2 l1 open used :
  tools_inv base (l1 ++ l2) open used ->
  exists open' used', run (Streaming open used) (concat ((fun t => (start_pending (C := C) uuid t).1) <$> l2)) = Some (Streaming open' used') /\
    tools_inv base (l1 ++ ((fun t => (start_pending (C := C) uuid t).2) <$> l2)) open' used'.
Proof.
  revert l1 open used. induction l2 as [|t l2 IH]; intros l1 open used H; [by exists open, used|].
  destruct (pending_one base (l1 ++ t :: l2) open used (length l1) t H ltac:(by apply list_lookup_middle)) as (o1 & u1 & R1 & I1).
  rewrite insert_app_r_alt, Nat.sub_diag in I1 by done. simpl in I1. change (l1 ++ (start_pending (C:=C) uuid t).2 :: l2) with (l1 ++ [(start_pending (C:=C) uuid t).2] ++ l2) in I1.
  rewrite app_assoc in I1. destruct (IH _ _ _ I1) as (o2 & u2 & R2 & I2). exists o2, u2. split; [by eapply run_trans|]. by rewrite <- app_assoc in I2.
Qed.

(** The first index that is not used. *)
Definition limit s : nat :=
  match s.(ci_LastMessagesType) with
  | LastMessageTypeNone => s.(ci_Index)
  | LastMessageTypeTools => s.(ci_ToolCallBaseIndex) + length s.(ci_ToolCalls)
  | _ => S s.(ci_Index)
  end.
Lemma stop_tools base l open used :
  tools_inv base l open used ->
  run (Streaming open used) ((fun t => BlockStop t.(tl_BlockIndex)) <$> filter (fun t => t.(tl_Started) = true) l : list (event C)) = Some (Streaming ∅ used).
Proof.
  intros H. trans (run (Streaming open used) ((fun i => BlockStop i) <$> (tl_BlockIndex <$> filter (fun t => t.(tl_Started) = true) l) : list (event C))); [by rewrite <- list_fmap_compose|].
  apply run_stops.
  - assert (forall k n, (forall p t, k !! p = Some t -> t.(tl_BlockIndex) = (n + p)%nat) -> NoDup (tl_BlockIndex <$> filter (fun t => t.(tl_Started) = true) k) /\
      Forall (fun i => n <= i)%nat (tl_BlockIndex <$> filter (fun t => t.(tl_Started) = true) k)) as Hnd; [|by apply (Hnd l base), H].
    induction k as [|t k IH]; intros n Hk; [split; constructor|]. destruct (IH (S n)) as [N F]; [intros p x Hx; rewrite (Hk (S p) x) by done; lia|].
    assert (Forall (fun i => n <= i)%nat (tl_BlockIndex <$> filter (fun t => t.(tl_Started) = true) k)) as F' by (eapply Forall_impl; [exact F|simpl; lia]).
    rewrite filter_cons. destruct (decide _); [|done]. simpl. pose proof (Hk 0%nat t eq_refl) as H0. split; [|constructor; [lia|done]]. apply NoDup_cons. split; [|done].
    intros Hin. rewrite Forall_forall in F. specialize (F _ Hin). simpl in F. lia.
  - intros i. rewrite list_elem_of_fmap. split.
    + intros (t & -> & Ht). apply list_elem_of_filter in Ht as [Hs Hin]. apply list_elem_of_lookup in Hin as [p Hp]. rewrite (ti_index _ _ _ _ H _ _ Hp).
      pose proof (ti_started _ _ _ _ H _ _ Hp) as Ho. rewrite Hs in Ho. destruct Ho as (? & ? & ->). done.
    + intros Hi. destruct (ti_open _ _ _ _ H i Hi) as (p & t & -> & Hp & Hs). exists t. split; [by rewrite (ti_index _ _ _ _ H _ _ Hp)|]. apply list_elem_of_filter. split; [done|].
      by eapply list_elem_of_lookup_2.
Qed.
Lemma stop_all s open used : stream_inv s open used ->
  exists used', run (Streaming open used) (appendStopOpenBlocks (C := C) uuid s).1 = Some (Streaming ∅ used') /\ (forall i, i ∈ used' -> (i < limit s)%nat) /\
    limit (appendStopOpenBlocks (C := C) uuid s).2 = limit s /\ (appendStopOpenBlocks (C := C) uuid s).2.(ci_LastMessagesType) = s.(ci_LastMessagesType) /\
    (appendStopOpenBlocks (C := C) uuid s).2.(ci_Index) = s.(ci_Index).
Proof.
  unfold stream_inv, appendStopOpenBlocks, startPendingToolBlocks, limit. destruct s.(ci_LastMessagesType) eqn:E; simpl.
  - unfold stopOpenBlocks. rewrite ?E. intros [-> H]. exists used. simpl. rewrite ?E. split_and!; try done.
  - unfold stopOpenBlocks. rewrite ?E. intros [-> H]. exists used. simpl. rewrite lookup_singleton_eq, delete_singleton_eq, ?E. split_and!; try done. intros i Hi. specialize (H i Hi). lia.
  - intros [H Hne]. destruct (pending_all _ _ [] _ _ H) as (o & u & R & I). simpl in *. set (l := _ <$> s.(ci_ToolCalls)) in I |- *. exists u. unfold stopOpenBlocks. simpl. rewrite ?E.
    assert (length l = length s.(ci_ToolCalls)) as Hlen by apply length_fmap. destruct l as [|t l'] eqn:El; [by destruct s.(ci_ToolCalls)|]. rewrite <- El in *.
    split; [eapply run_trans; [exact R|by eapply stop_tools]|]. split; [intros i Hi; rewrite <- Hlen; by apply I|]. by rewrite Hlen.
  - unfold stopOpenBlocks. rewrite ?E. intros [-> H]. exists used. simpl. rewrite lookup_singleton_eq, delete_singleton_eq, ?E. split_and!; try done. intros i Hi. specialize (H i Hi). lia.
Qed.
Lemma stop_advance s open used : stream_inv s open used ->
  let r := stopOpenBlocksAndAdvance (C := C) uuid s in
  exists used', run (Streaming open used) r.1 = Some (Streaming ∅ used') /\ r.2.(ci_LastMessagesType) = LastMessageTypeNone /\ r.2.(ci_Index) = limit s /\
    (forall i, i ∈ used' -> (i < limit s)%nat).
Proof.
  intros H. destruct (stop_all s open used H) as (u & R & Hu & Hlim & Ht & Hi). unfold stopOpenBlocksAndAdvance, limit in *.
  destruct (appendStopOpenBlocks (C := C) uuid s) as [es s']. simpl in *. rewrite Ht in Hlim. unfold stream_inv in H.
  destruct s.(ci_LastMessagesType) eqn:E; simpl; [destruct H as [-> H]; by exists used|exists u..]; (split; [exact R|]); (split; [done|]); (split; [congruence|exact Hu]).
Qed.
Lemma ensure_keeps t b s open used :
  (t = LastMessageTypeText /\ b = TextBlock \/ t = LastMessageTypeThinking /\ b = ThinkingBlock) -> stream_inv s open used ->
  let r := ensure_block (C := C) uuid t b s in
  exists used', run (Streaming open used) r.1 = Some (Streaming {[r.2.(ci_Index) := b]} used') /\ r.2.(ci_LastMessagesType) = t /\ (forall i, i ∈ used' -> (i <= r.2.(ci_Index))%nat).
Proof.
  intros Hb H. unfold ensure_block. case_bool_decide as Ht.
  - simpl. unfold stream_inv in H. rewrite Ht in H. exists used. destruct Hb as [[-> ->]|[-> ->]]; destruct H as [-> H]; done.
  - destruct (stop_advance s open used H) as (u & R & Ht' & Hi & Hu). destruct (stopOpenBlocksAndAdvance (C := C) uuid s) as [es s']. simpl in *.
    exists ({[s'.(ci_Index)]} ∪ u). split; [eapply run_trans; [exact R|]; simpl; rewrite bool_decide_false by (intros Hx; specialize (Hu _ Hx); lia); by rewrite insert_empty|].
    split; [done|]. intros i. rewrite elem_of_union, elem_of_singleton. intros [->|Hx]; [lia|specialize (Hu _ Hx); lia].
Qed.
Lemma block_inv s b used :
  (s.(ci_LastMessagesType) = LastMessageTypeText /\ b = TextBlock \/ s.(ci_LastMessagesType) = LastMessageTypeThinking /\ b = ThinkingBlock) ->
  (forall i, i ∈ used -> (i <= s.(ci_Index))%nat) -> stream_inv s {[s.(ci_Index) := b]} used.
Proof. unfold stream_inv. by intros [[-> ->]|[-> ->]] H. Qed.
Lemma text_keeps c s open used : stream_inv s open used -> keeps (convert_text (C := C) uuid c s) open used.
Proof.
  intros H. unfold convert_text. destruct (negb (String.eqb (GetReasoningContent c) "")).
  - destruct (ensure_keeps LastMessageTypeThinking ThinkingBlock s open used ltac:(by right) H) as (u & R & Ht & Hu). destruct (ensure_block _ _ _ _) as [es s']. simpl in *.
    exists {[s'.(ci_Index) := ThinkingBlock]}, u. split; [eapply run_trans; [exact R|]; simpl; by rewrite lookup_singleton_eq|]. apply block_inv; [by right|done].
  - destruct (negb (String.eqb (GetContentString c) "")); [|by apply keeps_nil].
    destruct (ensure_keeps LastMessageTypeText TextBlock s open used ltac:(by left) H) as (u & R & Ht & Hu). destruct (ensure_block _ _ _ _) as [es s']. simpl in *.
    exists {[s'.(ci_Index) := TextBlock]}, u. split; [eapply run_trans; [exact R|]; simpl; by rewrite lookup_singleton_eq|]. apply block_inv; [by left|done].
Qed.
Lemma citations_keeps cs s open used : stream_inv s open used -> keeps (appendCitationDeltas (C := C) uuid cs s) open used.
Proof.
  intros H. unfold appendCitationDeltas. destruct cs as [|c cs]; [by apply keeps_nil|].
  destruct (ensure_keeps LastMessageTypeText TextBlock s open used ltac:(by left) H) as (u & R & Ht & Hu). destruct (ensure_block _ _ _ _) as [es s']. cbn [fst snd] in *.
  exists {[s'.(ci_Index) := TextBlock]}, u. split; [|apply block_inv; [by left|done]]. eapply run_trans; [exact R|]. clear R. generalize (c :: cs). intros l. induction l as [|x l IH]; [done|].
  simpl. rewrite lookup_singleton_eq. simpl. exact IH.
Qed.

(** Tool calls. *)
Lemma tools_append base l open used t : tools_inv base l open used -> t.(tl_BlockIndex) = (base + length l)%nat -> t.(tl_Started) = false -> tools_inv base (l ++ [t]) open used.
Proof.
  intros [H1 H2 H3 H4] Hb Hs. split.
  - intros p x [Hx|[Hp Hx]]%lookup_app_Some; [by apply H1|]. apply list_lookup_singleton_Some in Hx as [E <-]. rewrite Hb. lia.
  - intros p x [Hx|[Hp Hx]]%lookup_app_Some; [by apply H2|]. apply list_lookup_singleton_Some in Hx as [E <-]. rewrite Hs. intros Hin. specialize (H4 _ Hin). lia.
  - intros i Hi. destruct (H3 i Hi) as (p & x & -> & Hx & Hxs). exists p, x. split_and!; try done. by apply lookup_app_l_Some.
  - intros i Hi. rewrite length_app. simpl. specialize (H4 _ Hi). lia.
Qed.
Lemma route_le s i tc : (tool_position s i tc <= length s.(ci_ToolCalls))%nat.
Proof.
  unfold tool_position, find_tool. destruct (match _ with Some p => Some p | None => _ end) as [p|]; simpl; [|lia]. destruct (s.(ci_ToolCalls) !! p) eqn:E; simpl; [|lia].
  destruct (_ && _); simpl; [lia|]. apply lookup_lt_Some in E. lia.
Qed.
(** The list that a delta is added to. *)
Definition grown s (p : nat) : list ClaudeStreamToolCall :=
  if bool_decide (p < length s.(ci_ToolCalls))%nat then s.(ci_ToolCalls)
  else s.(ci_ToolCalls) ++ [mkToolCall (s.(ci_ToolCallBaseIndex) + length s.(ci_ToolCalls)) "" "" "" false].
Lemma grown_lookup s i tc : is_Some (grown s (tool_position s i tc) !! tool_position s i tc).
Proof.
  apply lookup_lt_is_Some. pose proof (route_le s i tc). unfold grown. case_bool_decide; [done|]. rewrite length_app. simpl. lia.
Qed.
Lemma grown_inv s p open used : tools_inv s.(ci_ToolCallBaseIndex) s.(ci_ToolCalls) open used -> tools_inv s.(ci_ToolCallBaseIndex) (grown s p) open used.
Proof. intros H. unfold grown. case_bool_decide; [done|]. by apply tools_append. Qed.
Lemma update_keeps base l open used p t tc : tools_inv base l open used -> l !! p = Some t ->
  exists open' used', run (Streaming open used) (update_tool (C := C) tc t).1 = Some (Streaming open' used') /\ tools_inv base (<[p := (update_tool (C := C) tc t).2]> l) open' used'.
Proof.
  intros H Hp. unfold update_tool. cbv zeta. cbn [tl_Started tl_ID tl_Name tl_BlockIndex tl_PendingArguments]. destruct t.(tl_Started) eqn:Hs; cbn [negb andb fst snd].
  - exists open, used. split; [by eapply tools_delta|]. eapply tools_same; [exact H|exact Hp|done|done].
  - destruct (negb (String.eqb _ "") && negb (String.eqb _ "")); cbn [fst snd].
    + unfold start_tool. cbn [fst snd tl_BlockIndex tl_ID tl_Name tl_PendingArguments]. by eapply tools_start.
    + exists open, used. split; [done|]. eapply tools_same; [exact H|exact Hp|done|done].
Qed.
Lemma tool_step s i tc open used : tools_inv s.(ci_ToolCallBaseIndex) s.(ci_ToolCalls) open used ->
  let r := toolCallStep (C := C) s i tc in
  exists open' used', run (Streaming open used) r.1 = Some (Streaming open' used') /\ tools_inv r.2.(ci_ToolCallBaseIndex) r.2.(ci_ToolCalls) open' used' /\
    r.2.(ci_ToolCalls) <> [] /\ r.2.(ci_LastMessagesType) = s.(ci_LastMessagesType).
Proof.
  intros H. unfold toolCallStep. fold (grown s (tool_position s i tc)). destruct (grown_lookup s i tc) as [t Ht]. rewrite Ht.
  destruct (update_keeps _ _ _ _ _ _ tc (grown_inv s (tool_position s i tc) _ _ H) Ht) as (o & u & R & I). destruct (update_tool (C := C) tc t) as [es t']. simpl in *.
  exists o, u. split; [done|]. split; [done|]. split; [|done]. intros E. apply (f_equal length) in E. rewrite length_insert in E. apply lookup_lt_Some in Ht. simpl in E. lia.
Qed.
Lemma tool_loop tcs s i open used : tools_inv s.(ci_ToolCallBaseIndex) s.(ci_ToolCalls) open used ->
  let r := toolCallLoop (C := C) i tcs s in
  exists open' used', run (Streaming open used) r.1 = Some (Streaming open' used') /\ tools_inv r.2.(ci_ToolCallBaseIndex) r.2.(ci_ToolCalls) open' used' /\
    (tcs <> [] \/ s.(ci_ToolCalls) <> [] -> r.2.(ci_ToolCalls) <> []) /\ r.2.(ci_LastMessagesType) = s.(ci_LastMessagesType).
Proof.
  revert s i open used. induction tcs as [|tc tcs IH]; intros s i open used H; simpl; [exists open, used; split_and!; try done; by intros [|]|].
  destruct (tool_step s i tc open used H) as (o & u & R & I & Hne & Ht). destruct (toolCallStep (C := C) s i tc) as [es s1]. simpl in *.
  destruct (IH s1 (S i) o u I) as (o2 & u2 & R2 & I2 & Hne2 & Ht2). destruct (toolCallLoop (C := C) (S i) tcs s1) as [es2 s2]. simpl in *.
  exists o2, u2. split; [by eapply run_trans|]. split; [done|]. split; [intros _; apply Hne2; by right|congruence].
Qed.
Lemma tools_keeps tcs s open used : tcs <> [] -> stream_inv s open used -> keeps (convert_tools (C := C) uuid tcs s) open used.
Proof.
  intros Hne H. unfold convert_tools.
  assert (exists es s1 o u, (match s.(ci_LastMessagesType) with LastMessageTypeTools => ([], s) | _ => let (es, s) := stopOpenBlocksAndAdvance (C := C) uuid s in (es, set_tools s.(ci_Index) 0 [] ∅ ∅ s) end) = (es, s1) /\
    run (Streaming open used) es = Some (Streaming o u) /\ tools_inv s1.(ci_ToolCallBaseIndex) s1.(ci_ToolCalls) o u) as (es & s1 & o & u & -> & R & I).
  { assert (forall X : list (event C) * ClaudeConvertInfo, X = (let (es, s) := stopOpenBlocksAndAdvance (C := C) uuid s in (es, set_tools s.(ci_Index) 0 [] ∅ ∅ s)) ->
      exists es s1 o u, X = (es, s1) /\ run (Streaming open used) es = Some (Streaming o u) /\ tools_inv s1.(ci_ToolCallBaseIndex) s1.(ci_ToolCalls) o u) as Hother.
    { intros X ->. destruct (stop_advance s open used H) as (u & R & _ & Hi & Hu). destruct (stopOpenBlocksAndAdvance (C := C) uuid s) as [es s1]. simpl in *.
      exists es, (set_tools s1.(ci_Index) 0 [] ∅ ∅ s1), ∅, u. split; [done|]. split; [done|]. simpl. split; [done|done|intros i [? Hx]; done|]. intros i Hx. specialize (Hu i Hx). simpl. lia. }
    destruct s.(ci_LastMessagesType) eqn:E; try by apply Hother. unfold stream_inv in H. rewrite E in H. exists [], s, open, used. by destruct H. }
  destruct (tool_loop tcs (set_type LastMessageTypeTools s1) 0 o u I) as (o2 & u2 & R2 & I2 & Hne2 & Ht2). destruct (toolCallLoop (C := C) 0 tcs (set_type LastMessageTypeTools s1)) as [es2 s2].
  simpl in *. exists o2, u2. split; [by eapply run_trans|]. unfold stream_inv. case_bool_decide; simpl; rewrite Ht2; (split; [done|]); apply Hne2; by left.
Qed.
(** ** A chunk *)

(** Only the end of the message sets the flag, and blocks leave usage and finish reason alone. *)
Definition fixed s : bool * option FullUsage * string := (s.(ci_Done), s.(ci_Usage), s.(ci_FinishReason)).
Lemma fixed_done s s' : fixed s = fixed s' -> s.(ci_Done) = s'.(ci_Done).
Proof. unfold fixed. congruence. Qed.
Lemma fixed_stop s : fixed (appendStopOpenBlocks (C := C) uuid s).2 = fixed s.
Proof. unfold appendStopOpenBlocks, startPendingToolBlocks. by destruct s.(ci_LastMessagesType). Qed.
Lemma fixed_advance s : fixed (stopOpenBlocksAndAdvance (C := C) uuid s).2 = fixed s.
Proof.
  unfold stopOpenBlocksAndAdvance. pose proof (fixed_stop s) as H. destruct (appendStopOpenBlocks (C := C) uuid s) as [es s']. simpl in H. by destruct s.(ci_LastMessagesType).
Qed.
Lemma fixed_ensure t b s : fixed (ensure_block (C := C) uuid t b s).2 = fixed s.
Proof. unfold ensure_block. case_bool_decide; [done|]. pose proof (fixed_advance s) as Ha. by destruct (stopOpenBlocksAndAdvance (C := C) uuid s). Qed.
Lemma fixed_text c s : fixed (convert_text (C := C) uuid c s).2 = fixed s.
Proof.
  unfold convert_text. destruct (negb _).
  - pose proof (fixed_ensure LastMessageTypeThinking ThinkingBlock s) as H. by destruct (ensure_block _ _ _ _).
  - destruct (negb _); [|done]. pose proof (fixed_ensure LastMessageTypeText TextBlock s) as H. by destruct (ensure_block _ _ _ _).
Qed.
Lemma fixed_citations cs s : fixed (appendCitationDeltas (C := C) uuid cs s).2 = fixed s.
Proof. unfold appendCitationDeltas. destruct cs; [done|]. pose proof (fixed_ensure LastMessageTypeText TextBlock s) as H. by destruct (ensure_block _ _ _ _). Qed.
Lemma fixed_loop tcs s i : fixed (toolCallLoop (C := C) i tcs s).2 = fixed s.
Proof.
  revert s i. induction tcs as [|tc tcs IH]; intros s i; [done|]. simpl. assert (fixed (toolCallStep (C := C) s i tc).2 = fixed s) as H.
  { unfold toolCallStep. destruct (_ !! tool_position s i tc); [|done]. by destruct (update_tool _ _). }
  destruct (toolCallStep (C := C) s i tc) as [es s1]. simpl in H. pose proof (IH s1 (S i)) as H2. destruct (toolCallLoop (C := C) (S i) tcs s1). cbn [fst snd] in *. unfold fixed in *; simpl in *; congruence.
Qed.
Lemma fixed_tools tcs s : fixed (convert_tools (C := C) uuid tcs s).2 = fixed s.
Proof.
  unfold convert_tools. assert (fixed (match s.(ci_LastMessagesType) with LastMessageTypeTools => ([], s) | _ => let (es, s) := stopOpenBlocksAndAdvance (C := C) uuid s in (es, set_tools s.(ci_Index) 0 [] ∅ ∅ s) end).2 = fixed s) as H.
  { pose proof (fixed_advance s) as H. destruct (stopOpenBlocksAndAdvance (C := C) uuid s). by destruct s.(ci_LastMessagesType). }
  destruct (match s.(ci_LastMessagesType) with LastMessageTypeTools => ([], s) | _ => _ end) as [es s1]. simpl in H.
  pose proof (fixed_loop tcs (set_type LastMessageTypeTools s1) 0) as H2. destruct (toolCallLoop (C := C) 0 tcs (set_type LastMessageTypeTools s1)) as [es2 s2]. simpl in *. unfold fixed in *; case_bool_decide; simpl in *; congruence.
Qed.
Lemma visible_state s u : exists w, (clientVisibleClaudeStreamUsage s u).2 = set_usage w s.
Proof. unfold clientVisibleClaudeStreamUsage. destruct u; simpl; [eauto|]. exists s.(ci_Usage). by destruct s. Qed.

Lemma finish_ends v r s open used : stream_inv s open used ->
  run (Streaming open used) (finish (C := C) uuid v r s).1 = Some Finished /\ (finish (C := C) uuid v r s).2.(ci_Done) = true.
Proof.
  intros H. unfold finish. destruct (stop_all s open used H) as (u & R & _). destruct (appendStopOpenBlocks (C := C) uuid s) as [es s']. simpl in *.
  split; [|done]. eapply run_trans; [exact R|]. simpl. done.
Qed.
(** After an operation the message is over, or the stream goes on in the invariant. *)
Definition outcome (p : phase) (r : list (event C) * ClaudeConvertInfo) : Prop :=
  exists q, run p r.1 = Some q /\ (if r.2.(ci_Done) then q = Finished else exists open used, q = Streaming open used /\ stream_inv r.2 open used).
Lemma outcome_prepend p q es (r : list (event C) * ClaudeConvertInfo) : run p es = Some q -> outcome q r -> outcome p (es ++ r.1, r.2).
Proof. intros R (x & Rx & Hx). exists x. split; [by eapply run_trans|done]. Qed.
Lemma choice_outcome u c s open used : stream_inv s open used -> s.(ci_Done) = false -> outcome (Streaming open used) (convert_choice (C := C) uuid u c s).
Proof.
  intros H Hd. unfold convert_choice. set (reason := default "" (ch_FinishReason c)). set (s0 := if negb (String.eqb reason "") then set_finish reason s else s).
  assert (stream_inv s0 open used /\ s0.(ci_Done) = false) as [H0 Hd0] by (unfold s0; by destruct (negb _)). clearbody s0. clear s H Hd.
  assert (keeps (match c.(ch_ToolCalls) with [] => convert_text (C := C) uuid c s0 | tcs => convert_tools (C := C) uuid tcs s0 end) open used /\
    (match c.(ch_ToolCalls) with [] => convert_text (C := C) uuid c s0 | tcs => convert_tools (C := C) uuid tcs s0 end).2.(ci_Done) = false) as [(o1 & u1 & R1 & I1) Hd1].
  { destruct c.(ch_ToolCalls); [split; [by apply text_keeps|by rewrite (fixed_done _ _ (fixed_text c s0))]|split; [by apply tools_keeps|by rewrite (fixed_done _ _ (fixed_tools _ s0))]]. }
  destruct (match c.(ch_ToolCalls) with [] => _ | _ => _ end) as [es1 s1]. cbn [fst snd] in *.
  destruct (citations_keeps c.(ch_Citations) s1 o1 u1 I1) as (o2 & u2 & R2 & I2). pose proof (fixed_done _ _ (fixed_citations c.(ch_Citations) s1)) as Hd2. rewrite Hd1 in Hd2.
  destruct (appendCitationDeltas (C := C) uuid (ch_Citations c) s1) as [es2 s2]. cbn [fst snd] in *. pose proof (run_trans _ _ _ _ _ R1 R2) as R.
  destruct (negb (String.eqb reason "")); [|exists (Streaming o2 u2); cbn [fst snd]; rewrite Hd2; split; [done|eauto]].
  destruct (visible_state s2 u) as [w Ew]. destruct (clientVisibleClaudeStreamUsage s2 u) as [[v|] s3]; cbn [snd] in Ew; subst s3.
  - match goal with |- context [finish uuid (Some v) ?r ?x] => destruct (finish_ends (Some v) r x o2 u2 I2) as [R3 Hd3]; destruct (finish (C := C) uuid (Some v) r x) as [es3 s3] end.
    simpl in *. exists Finished. simpl. rewrite Hd3. split; [|done]. rewrite app_assoc. by eapply run_trans.
  - exists (Streaming o2 u2). simpl. rewrite Hd2. split; [done|]. exists o2, u2. split; [done|exact I2].
Qed.
Lemma chunk_outcome count estimate ck s open used : stream_inv s open used -> s.(ci_Done) = false -> count <> 1 ->
  outcome (Streaming open used) (StreamResponseOpenAI2Claude (C := C) uuid count estimate ck s).
Proof.
  intros H Hd Hc. unfold StreamResponseOpenAI2Claude, message_start. rewrite Hd, (proj2 (Z.eqb_neq count 1)) by done. destruct ck.(ck_Choices) as [|c cs].
  - destruct (visible_state s ck.(ck_Usage)) as [w Ew]. destruct (clientVisibleClaudeStreamUsage s ck.(ck_Usage)) as [[v|] s3]; cbn [snd] in Ew; subst s3.
    + match goal with |- context [finish uuid (Some v) ?r ?x] => destruct (finish_ends (Some v) r x open used H) as [R Hd']; destruct (finish (C := C) uuid (Some v) r x) as [es s3] end. exists Finished. simpl in *. by rewrite Hd'.
    + exists (Streaming open used). simpl. rewrite Hd. split; [done|]. exists open, used. split; [done|exact H].
  - pose proof (choice_outcome ck.(ck_Usage) c s open used H Hd) as Ho. by destruct (convert_choice (C := C) uuid (ck_Usage ck) c s).
Qed.
(** The first chunk starts the message, and goes on as another would. *)
Lemma first_chunk_starts estimate ck s : s.(ci_Done) = false -> exists id model u w,
  StreamResponseOpenAI2Claude (C := C) uuid 1 estimate ck s =
    (MessageStart id model u :: (StreamResponseOpenAI2Claude (C := C) uuid 0 estimate ck (set_usage w s)).1, (StreamResponseOpenAI2Claude (C := C) uuid 0 estimate ck (set_usage w s)).2).
Proof.
  intros Hd. assert (exists id model u w, message_start (C := C) 1 estimate ck s = ([MessageStart id model u], set_usage w s)) as (id & model & u & w & E).
  { unfold message_start. cbn. assert (s = set_usage s.(ci_Usage) s) as Hs by (by destruct s). destruct ck.(ck_Usage) as [u|]; [destruct (HasOpenAIUsageTokens u.1)|]; eexists _, _, _, _; (reflexivity || (rewrite Hs at 1; reflexivity)). }
  exists id, model, u, w. unfold StreamResponseOpenAI2Claude. rewrite E. cbn [ci_Done set_usage]. rewrite Hd. change (message_start 0 estimate ck (set_usage w s)) with (@nil (event C), set_usage w s).
  destruct ck.(ck_Choices) as [|c cs].
  - destruct (clientVisibleClaudeStreamUsage _ _) as [[v|] s3]; [|done]. by destruct (finish _ _ _ s3).
  - by destruct (convert_choice _ _ _ _).
Qed.
Lemma first_chunk_outcome w0 estimate ck : outcome Fresh (StreamResponseOpenAI2Claude (C := C) uuid 1 estimate ck (set_usage w0 new_info)).
Proof.
  destruct (first_chunk_starts estimate ck (set_usage w0 new_info) eq_refl) as (id & model & u & w & ->).
  apply (outcome_prepend Fresh (Streaming ∅ ∅) [MessageStart id model u]); [done|]. apply chunk_outcome; [|done|lia]. split; [done|set_solver].
Qed.
Lemma chunks_outcome cks count estimate s open used : 0 < count -> stream_inv s open used -> s.(ci_Done) = false ->
  outcome (Streaming open used) (convert_chunks (C := C) uuid count estimate cks s).
Proof.
  revert count s open used. induction cks as [|ck cks IH]; intros count s open used Hc H Hd; simpl; [exists (Streaming open used); simpl; rewrite Hd; eauto|].
  destruct (chunk_outcome (count + 1) estimate ck s open used H Hd ltac:(lia)) as (q & R & Hq). destruct (StreamResponseOpenAI2Claude (C := C) uuid (count + 1) estimate ck s) as [es s1]. simpl in *.
  destruct (ci_Done s1) eqn:Hd1.
  - subst q. assert (forall n l, convert_chunks (C := C) uuid n estimate l s1 = ([], s1)) as Hrest.
    { intros n l. revert n. induction l as [|x l IHl]; intros n; simpl; [done|]. unfold StreamResponseOpenAI2Claude. rewrite Hd1. by rewrite IHl. }
    rewrite Hrest, app_nil_r. exists Finished. simpl. by rewrite Hd1.
  - destruct Hq as (o & u & -> & I). pose proof (IH (count + 1) s1 o u ltac:(lia) I Hd1) as Ho. apply (outcome_prepend _ _ _ _ R) in Ho. by destruct (convert_chunks (C := C) uuid (count + 1) estimate cks s1).
Qed.
Lemma done_chunks cks count estimate s : s.(ci_Done) = true -> convert_chunks (C := C) uuid count estimate cks s = ([], s).
Proof.
  intros Hd. revert count. induction cks as [|ck cks IH]; intros count; simpl; [done|]. unfold StreamResponseOpenAI2Claude. rewrite Hd. by rewrite IH.
Qed.
End protocol.

(** The stream that relaykit makes of the chunks, driven from start to finish. *)
Lemma convert_stream_accepted {C} (uuid : nat -> string) estimate (ck : StreamChunk C) cks :
  run Fresh (convert_stream uuid estimate (ck :: cks)) = Some Finished.
Proof.
  unfold convert_stream. cbn [convert_chunks]. change (0 + 1) with 1. destruct (first_chunk_outcome uuid None estimate ck) as (q & R & Hq). change (set_usage None new_info) with new_info in *.
  destruct (StreamResponseOpenAI2Claude uuid 1 estimate ck new_info) as [es s1]. cbn [fst snd] in *.
  assert (outcome q (convert_chunks uuid 1 estimate cks s1)) as (q2 & R2 & Hq2).
  { destruct (ci_Done s1) eqn:Hd; [subst q; rewrite done_chunks by done; exists Finished; simpl; by rewrite Hd|]. destruct Hq as (o & u & -> & I). by apply chunks_outcome. }
  destruct (convert_chunks uuid 1 estimate cks s1) as [es2 s2]. cbn [fst snd] in *. apply (run_trans _ q2); [by eapply run_trans|]. unfold FinalizeStreamResponse.
  set (s2' := match ci_Usage s2 with Some _ => _ | None => _ end). assert (s2'.(ci_Done) = s2.(ci_Done) /\ forall o u, stream_inv s2 o u -> stream_inv s2' o u) as [Hd' Hi'] by (unfold s2'; by destruct (ci_Usage s2)).
  clearbody s2'. unfold FinalizeStreamResponseOpenAI2Claude. rewrite Hd'. destruct (ci_Done s2) eqn:Hd; [by subst q2|]. destruct Hq2 as (o & u & -> & I). destruct (visible_state s2' None) as [w Ew].
  destruct (clientVisibleClaudeStreamUsage s2' None) as [v s3]. cbn [snd] in Ew. subst s3. by apply finish_ends, Hi'.
Qed.
