(* ===== verification/ClaudeContent.v ===== *)
(** * What a converted stream says

    The text, thinking and citations that a client of the Claude protocol reads are those of
    the chunks that do not mix them, in their order, up to the end of the message.  The events
    are a run of the protocol, from relaykit's converter and, for three chunks or more, from
    the handler of OpenAI channels; that handler counts its chunks so that the message of a
    shorter stream starts twice or never. *)

From stdpp Require Import base tactics numbers list gmap strings.
From Stdlib Require Import ZArith Lia.
From S2P Require Import Prelude Cost UsageMerge ClaudeStream ClaudeProtocol.
Open Scope Z_scope.

(** ** Specification *)

Definition is_prose {C} (e : event C) : list (delta C) :=
  match e with BlockDelta _ (InputJsonDelta _) => [] | BlockDelta _ d => [d] | _ => [] end.
(** The deltas that are not arguments of tools. *)
Definition prose {C} (es : list (event C)) : list (delta C) := es ≫= is_prose.
Definition utter {C} (d : string -> delta C) (t : string) : list (delta C) := if String.eqb t "" then [] else [d t].
(** What a choice says: its thinking, its text and its citations; and what a chunk says, by
    its first choice. *)
Definition words {C} (c : Choice C) : list (delta C) := utter ThinkingDelta (GetReasoningContent c) ++ utter TextDelta (GetContentString c).
Definition spoken {C} (c : Choice C) : list (delta C) := words c ++ (CitationsDelta <$> c.(ch_Citations)).
Definition chunk_says {C} (ck : StreamChunk C) : list (delta C) := match ck.(ck_Choices) with [] => [] | c :: _ => spoken c end.
(** Whether a choice carries more than one of thinking, text and tool calls. *)
Definition mixed {C} (c : Choice C) : bool := match c.(ch_ToolCalls), words c with [], [] | [], [_] | _ :: _, [] => false | _, _ => true end.
Definition chunk_mixed {C} (ck : StreamChunk C) : bool := match ck.(ck_Choices) with [] => false | c :: _ => mixed c end.
(** What the converter keeps of it: of a choice with tool calls no words, of one that thinks
    not the text. *)
Definition kept_words {C} (c : Choice C) : list (delta C) := match c.(ch_ToolCalls) with [] => take 1 (words c) | _ => [] end.
Definition chunk_kept {C} (ck : StreamChunk C) : list (delta C) :=
  match ck.(ck_Choices) with [] => [] | c :: _ => kept_words c ++ (CitationsDelta <$> c.(ch_Citations)) end.
(** Whether the provider says that this chunk is the last one with content. *)
Definition asks_to_end {C} (ck : StreamChunk C) : bool :=
  match ck.(ck_Choices) with [] => true | c :: _ => negb (String.eqb (default "" c.(ch_FinishReason)) "") end.
Definition some {A} (o : option A) : bool := match o with Some _ => true | None => false end.
(** The message ends with the first chunk that asks for it when the usage is known. *)
Fixpoint heard {C} (first known : bool) (cks : list (StreamChunk C)) : list (StreamChunk C) :=
  match cks with
  | [] => []
  | ck :: cks =>
      let known := known || (first && match ck.(ck_Usage) with Some u => HasOpenAIUsageTokens u.1 | None => false end) in
      let known := known || (asks_to_end ck && some ck.(ck_Usage)) in
      ck :: if asks_to_end ck && known then [] else heard false known cks
  end.

Section content.
Context {C : Type} (uuid : nat -> string).
Implicit Types (s : ClaudeConvertInfo) (es : list (event C)).

Lemma prose_app es es' : prose (es ++ es') = prose es ++ prose es'.
Proof. apply bind_app. Qed.
Lemma prose_silent es : Forall (fun e => is_prose e = []) es -> prose es = [].
Proof. induction 1 as [|e es He _ IH]; [done|]. unfold prose in *. cbn. by rewrite He, IH. Qed.
Definition silent (r : list (event C) * ClaudeConvertInfo) : Prop := Forall (fun e => is_prose e = []) r.1.

Lemma silent_start_tool t : Forall (fun e : event C => is_prose e = []) (start_tool t).1.
Proof. unfold start_tool, nonempty_delta. destruct (String.eqb _ _); repeat constructor. Qed.
Lemma silent_pending t : Forall (fun e : event C => is_prose e = []) (start_pending uuid t).1.
Proof. unfold start_pending. destruct (_ || _); [constructor|apply silent_start_tool]. Qed.
Lemma silent_start s : silent (startPendingToolBlocks uuid s).
Proof.
  unfold silent, startPendingToolBlocks. destruct s.(ci_LastMessagesType); try constructor. cbn [fst]. induction s.(ci_ToolCalls) as [|t l IH]; [constructor|]. cbn. apply Forall_app. split; [apply silent_pending|exact IH].
Qed.
Lemma silent_stops s : Forall (fun e : event C => is_prose e = []) (stopOpenBlocks s).
Proof.
  unfold stopOpenBlocks. destruct s.(ci_LastMessagesType); try (repeat constructor). destruct s.(ci_ToolCalls); apply Forall_fmap, Forall_forall; done.
Qed.
Lemma silent_stop s : silent (appendStopOpenBlocks uuid s).
Proof.
  unfold silent, appendStopOpenBlocks. pose proof (silent_start s) as H. destruct (startPendingToolBlocks (C := C) uuid s) as [es s']. apply Forall_app. split; [exact H|apply silent_stops].
Qed.
Lemma silent_advance s : silent (stopOpenBlocksAndAdvance uuid s).
Proof.
  unfold silent, stopOpenBlocksAndAdvance. pose proof (silent_stop s) as H. destruct (appendStopOpenBlocks (C := C) uuid s) as [es s']. destruct s.(ci_LastMessagesType); [constructor|exact H..].
Qed.
Lemma silent_step s i tc : silent (toolCallStep s i tc).
Proof.
  unfold silent, toolCallStep. destruct (_ !! tool_position s i tc) as [t|]; [|constructor]. unfold update_tool.
  destruct (negb _ && _ && _).
  - pose proof silent_start_tool as H. match goal with |- context [start_tool ?t] => specialize (H t); destruct (start_tool (C := C) t) end. exact H.
  - cbn. destruct (tl_Started t); [|constructor]. unfold nonempty_delta. destruct (String.eqb _ _); repeat constructor.
Qed.
Lemma silent_loop tcs s i : silent (toolCallLoop i tcs s).
Proof.
  unfold silent. revert s i. induction tcs as [|tc tcs IH]; intros s i; simpl; [constructor|]. pose proof (silent_step s i tc) as H. destruct (toolCallStep (C := C) s i tc) as [es s1].
  specialize (IH s1 (S i)). destruct (toolCallLoop (C := C) (S i) tcs s1). by apply Forall_app.
Qed.
Lemma silent_tools tcs s : silent (convert_tools uuid tcs s).
Proof.
  unfold silent, convert_tools. pose proof (silent_advance s) as Ha. destruct (stopOpenBlocksAndAdvance (C := C) uuid s) as [es1 s1].
  assert (forall es x, Forall (fun e : event C => is_prose e = []) es -> Forall (fun e => is_prose e = []) (let (es', s') := toolCallLoop (C := C) 0 tcs x in (es ++ es', s')).1) as H.
  { intros es x He. pose proof (silent_loop tcs x 0) as Hl. destruct (toolCallLoop (C := C) 0 tcs x). by apply Forall_app. }
  destruct s.(ci_LastMessagesType); match goal with |- context [toolCallLoop 0 tcs ?x] => pose proof (H es1 x Ha) as H1; pose proof (H [] x (List.Forall_nil _)) as H2; destruct (toolCallLoop (C := C) 0 tcs x) end; first [exact H1|exact H2].
Qed.
Lemma prose_ensure t b s : prose (ensure_block (C := C) uuid t b s).1 = [].
Proof.
  unfold ensure_block. case_bool_decide; [done|]. pose proof (silent_advance s) as Ha. destruct (stopOpenBlocksAndAdvance (C := C) uuid s) as [es s']. cbn [fst]. rewrite prose_app, (prose_silent es) by exact Ha. done.
Qed.
Lemma kept_sublist (ck : StreamChunk C) : chunk_kept ck `sublist_of` chunk_says ck /\ (chunk_mixed ck = false -> chunk_kept ck = chunk_says ck).
Proof.
  unfold chunk_kept, chunk_says, chunk_mixed, spoken. destruct (ck_Choices ck) as [|c l]; [done|]. unfold kept_words, mixed. split.
  - apply sublist_app; [|done]. destruct (ch_ToolCalls c); [apply sublist_take|apply sublist_nil_l].
  - destruct (ch_ToolCalls c), (words c) as [|? []]; done.
Qed.
Lemma prose_text (c : Choice C) s : prose (convert_text uuid c s).1 = take 1 (words c).
Proof.
  unfold convert_text, words, utter. destruct (String.eqb (GetReasoningContent c) ""); [destruct (String.eqb (GetContentString c) ""); [done|]|]; cbn [negb].
  - pose proof (prose_ensure LastMessageTypeText TextBlock s) as H. destruct (ensure_block (C := C) uuid _ _ s). cbn [fst] in *. by rewrite prose_app, H.
  - pose proof (prose_ensure LastMessageTypeThinking ThinkingBlock s) as H. destruct (ensure_block (C := C) uuid _ _ s). cbn [fst] in *. by rewrite prose_app, H.
Qed.
Lemma prose_citations (cs : list C) s : prose (appendCitationDeltas uuid cs s).1 = CitationsDelta <$> cs.
Proof.
  unfold appendCitationDeltas. destruct cs as [|c cs]; [done|]. pose proof (prose_ensure LastMessageTypeText TextBlock s) as H. destruct (ensure_block (C := C) uuid _ _ s) as [es s'].
  cbn [fst] in *. rewrite prose_app, H. generalize (c :: cs). intros l. induction l as [|x l IH]; [done|]. unfold prose in *. cbn in *. by rewrite IH.
Qed.
Lemma prose_finish v r s : prose (finish (C := C) uuid v r s).1 = [] /\ (finish (C := C) uuid v r s).2.(ci_Done) = true.
Proof.
  unfold finish. pose proof (silent_stop s) as H. destruct (appendStopOpenBlocks (C := C) uuid s) as [es s']. split; [|done]. cbn [fst]. by rewrite prose_app, (prose_silent es).
Qed.
Lemma visible_known s u : some (clientVisibleClaudeStreamUsage s u).1 = some s.(ci_Usage) || some u /\
  some (clientVisibleClaudeStreamUsage s u).2.(ci_Usage) = some s.(ci_Usage) || some u /\ (clientVisibleClaudeStreamUsage s u).2.(ci_Done) = s.(ci_Done).
Proof. unfold clientVisibleClaudeStreamUsage. destruct s.(ci_Usage) eqn:E, u; cbn; rewrite ?E; done. Qed.
Lemma finish_usage v r s : (finish (C := C) uuid v r s).2.(ci_Usage) = s.(ci_Usage).
Proof. unfold finish. pose proof (fixed_stop (C := C) uuid s) as H. destruct (appendStopOpenBlocks (C := C) uuid s). unfold fixed in H. simpl in *. congruence. Qed.
(** Ending with the visible usage, if there is one. *)
Lemma end_if_known s u (r : ClaudeConvertInfo -> string) es : s.(ci_Done) = false ->
  let x := match clientVisibleClaudeStreamUsage s u with
           | (None, s) => (es, s)
           | (Some v, s) => let (es', s) := finish (C := C) uuid (Some v) (r s) s in (es ++ es', s)
           end in
  prose x.1 = prose es /\ x.2.(ci_Done) = some s.(ci_Usage) || some u /\ some x.2.(ci_Usage) = some s.(ci_Usage) || some u.
Proof.
  intros Hd. destruct (visible_known s u) as (Hv & Hu & Hd'). destruct (clientVisibleClaudeStreamUsage s u) as [[v|] s']; cbn in Hv, Hu, Hd'.
  - destruct (prose_finish (Some v) (r s') s') as [Hp Hdone]. pose proof (finish_usage (Some v) (r s') s') as Hf. destruct (finish (C := C) uuid (Some v) (r s') s'). cbn [fst snd] in *. rewrite prose_app, Hp, app_nil_r, Hf, <- Hv. split_and!; [done|done|congruence].
  - cbn. split_and!; [done| |done]. congruence.
Qed.
Lemma prose_choice u (c : Choice C) s : s.(ci_Done) = false -> let r := convert_choice uuid u c s in
  let asks := negb (String.eqb (default "" c.(ch_FinishReason)) "") in
  prose r.1 = kept_words c ++ (CitationsDelta <$> c.(ch_Citations)) /\ r.2.(ci_Done) = asks && (some s.(ci_Usage) || some u) /\ some r.2.(ci_Usage) = some s.(ci_Usage) || (asks && some u).
Proof.
  intros Hd. unfold convert_choice. set (reason := default "" (ch_FinishReason c)). set (s0 := if negb (String.eqb reason "") then set_finish reason s else s).
  assert (s0.(ci_Done) = false /\ s0.(ci_Usage) = s.(ci_Usage)) as [Hd0 Hu0] by (unfold s0; by destruct (negb _)). clearbody s0.
  pose proof (fun tcs => conj (prose_silent _ (silent_tools tcs s0)) (fixed_tools (C := C) uuid tcs s0)) as Ht. pose proof (conj (prose_text c s0) (fixed_text uuid c s0)) as Hx.
  destruct (match c.(ch_ToolCalls) with [] => _ | _ => _ end) as [es1 s1] eqn:E.
  assert (fixed s1 = fixed s0 /\ prose es1 = kept_words c) as [Hf1 Hp1].
  { unfold kept_words. destruct c.(ch_ToolCalls) as [|tc tcs]; [rewrite E in Hx; split; apply Hx|]. specialize (Ht (tc :: tcs)). rewrite E in Ht. split; apply Ht. }
  pose proof (prose_citations c.(ch_Citations) s1) as Hp2. pose proof (fixed_citations uuid c.(ch_Citations) s1) as Hf2. destruct (appendCitationDeltas (C := C) uuid (ch_Citations c) s1) as [es2 s2].
  cbn [fst snd] in *. rewrite <- Hp1, <- Hp2, <- prose_app. assert (s2.(ci_Done) = false /\ s2.(ci_Usage) = s.(ci_Usage)) as [Hd2 Hu2] by (unfold fixed in *; split; congruence).
  destruct (negb (String.eqb reason "")); cbn [andb]; [|cbn; rewrite Hu2; split_and!; [done|done|by rewrite orb_false_r]].
  pose proof (end_if_known s2 u (fun s => OpenAIFinishReasonToClaudeStopReason s.(ci_FinishReason)) (es1 ++ es2) Hd2) as He. rewrite Hu2 in He. cbn zeta in He.
  destruct (clientVisibleClaudeStreamUsage s2 u) as [[v|] s3]; [|exact He]. destruct (finish (C := C) uuid (Some v) _ s3). rewrite app_assoc. exact He.
Qed.
Lemma prose_start count estimate (ck : StreamChunk C) s : let r := message_start count estimate ck s in
  prose r.1 = [] /\ r.2.(ci_Done) = s.(ci_Done) /\
  some r.2.(ci_Usage) = some s.(ci_Usage) || ((count =? 1) && match ck.(ck_Usage) with Some u => HasOpenAIUsageTokens u.1 | None => false end).
Proof.
  unfold message_start. destruct (count =? 1); cbn; [|by rewrite orb_false_r]. destruct ck.(ck_Usage) as [u|]; [destruct (HasOpenAIUsageTokens u.1)|]; cbn; rewrite ?orb_true_r, ?orb_false_r; done.
Qed.
Lemma prose_chunk count estimate (ck : StreamChunk C) s : s.(ci_Done) = false -> let r := StreamResponseOpenAI2Claude uuid count estimate ck s in
  let known := some s.(ci_Usage) || ((count =? 1) && match ck.(ck_Usage) with Some u => HasOpenAIUsageTokens u.1 | None => false end) in
  let known := known || (asks_to_end ck && some ck.(ck_Usage)) in
  prose r.1 = chunk_kept ck /\ r.2.(ci_Done) = asks_to_end ck && known /\ some r.2.(ci_Usage) = known.
Proof.
  intros Hd. unfold StreamResponseOpenAI2Claude, asks_to_end, chunk_kept. rewrite Hd. destruct (prose_start count estimate ck s) as (Hp & Hd1 & Hu). destruct (message_start count estimate ck s) as [es0 s0]. cbn [fst snd] in *.
  rewrite Hd in Hd1. destruct ck.(ck_Choices) as [|c cs].
  - pose proof (end_if_known s0 ck.(ck_Usage) (fun s => or_end_turn (OpenAIFinishReasonToClaudeStopReason s.(ci_FinishReason))) es0 Hd1) as He. cbn zeta in He. rewrite Hu, Hp in He. cbn zeta beta iota.
    rewrite !andb_true_l. exact He.
  - destruct (prose_choice ck.(ck_Usage) c s0 Hd1) as (Hp' & Hd' & Hu'). destruct (convert_choice uuid (ck_Usage ck) c s0) as [es s1]. cbn [fst snd] in *. rewrite prose_app, Hp, Hp', Hd', Hu', Hu. split_and!; [done| |done].
    destruct (negb _), (some (ci_Usage s)), (count =? 1); cbn; try done; by destruct (match ck.(ck_Usage) with Some u => _ | None => _ end).
Qed.
Lemma prose_chunks (cks : list (StreamChunk C)) count estimate s : s.(ci_Done) = false -> 0 <= count ->
  prose (convert_chunks uuid count estimate cks s).1 = heard (count =? 0) (some s.(ci_Usage)) cks ≫= chunk_kept.
Proof.
  revert count s. induction cks as [|ck cks IH]; intros count s Hd Hc; [done|]. cbn [convert_chunks heard]. destruct (prose_chunk (count + 1) estimate ck s Hd) as (Hp & Hd1 & Hu1). cbn zeta in Hd1, Hu1.
  replace (count + 1 =? 1) with (count =? 0) in * by (destruct (Z.eqb_spec count 0), (Z.eqb_spec (count + 1) 1); lia). rewrite <- Hu1. rewrite <- Hu1 in Hd1. rewrite <- Hd1.
  destruct (StreamResponseOpenAI2Claude uuid (count + 1) estimate ck s) as [es s1]. cbn [fst snd] in *.
  destruct (ci_Done s1) eqn:E.
  - rewrite done_chunks by done. cbn [fst]. rewrite app_nil_r, Hp. cbn. by rewrite app_nil_r.
  - specialize (IH (count + 1) s1 E ltac:(lia)). replace (count + 1 =? 0) with false in IH by lia. destruct (convert_chunks uuid (count + 1) estimate cks s1) as [es' s2]. cbn [fst] in *. rewrite prose_app, Hp, IH. done.
Qed.
Lemma prose_finalize u s : prose (FinalizeStreamResponse (C := C) uuid u s).1 = [].
Proof.
  unfold FinalizeStreamResponse. generalize (match ci_Usage s with Some _ => s | None => set_usage u s end). clear s. intros s. unfold FinalizeStreamResponseOpenAI2Claude. destruct (ci_Done s); [done|].
  destruct (clientVisibleClaudeStreamUsage s None) as [v s']. apply prose_finish.
Qed.
End content.

(** C36. A client of the Claude protocol reads what the provider said.  The text, thinking and
    citations of the events that relaykit makes of a stream are, chunk by chunk and in order,
    up to the end of the message, part of what the first choice of the chunk says, and all of
    it for every chunk that does not mix thinking, text and tool calls (of one that does, the
    converter drops words).  Nothing is repeated or made up. *)
Theorem stream_says_what_was_said {C} (uuid : nat -> string) estimate (cks : list (StreamChunk C)) :
  exists ls, prose (convert_stream uuid estimate cks) = concat ls /\
    Forall2 (fun ck l => l `sublist_of` chunk_says ck /\ (chunk_mixed ck = false -> l = chunk_says ck)) (heard true false cks) ls.
Proof.
  exists (chunk_kept <$> heard true false cks). split.
  - unfold convert_stream. pose proof (prose_chunks uuid cks 0 estimate new_info eq_refl ltac:(lia)) as H. destruct (convert_chunks uuid 0 estimate cks new_info) as [es s]. cbn [fst] in H.
    rewrite prose_app, H, prose_finalize, app_nil_r. clear H. cbn. induction (heard true false cks) as [|x l IH]; [done|]. cbn. by rewrite <- IH.
  - apply Forall2_fmap_r, Forall_Forall2_diag, Forall_forall. intros ck _. apply kept_sublist.
Qed.
(** A chunk with thinking and text loses the text. *)
Example mixed_chunk_loses_text :
  let ck : StreamChunk unit := mkChunk "c" "m" None [mkChoice None (Some "Hello") (Some "hm") None [] []] in
  chunk_says ck = [ThinkingDelta "hm"; TextDelta "Hello"] /\ prose (convert_stream (fun _ => "") 0 [ck]) = [ThinkingDelta "hm"].
Proof. split; vm_compute; reflexivity. Qed.

(** ** The handler of OpenAI channels *)

Definition starts {C} (es : list (event C)) : nat := length (filter (fun e => match e with MessageStart _ _ _ => true | _ => false end = true) es).
Lemma starts_app {C} (es es' : list (event C)) : starts (es ++ es') = (starts es + starts es')%nat.
Proof. unfold starts. by rewrite filter_app, length_app. Qed.
(** Nothing the protocol accepts after the start is a start. *)
Lemma run_no_start {C} (es : list (event C)) p q : p <> Fresh -> run p es = Some q -> starts es = 0%nat.
Proof.
  revert p. induction es as [|e es IH]; intros p Hp H; [done|]. cbn [run] in H. destruct (accept p e) as [p'|] eqn:E; [|done]. unfold starts. rewrite filter_cons_False.
  - apply (IH p'); [|done]. intros ->. destruct p, e; cbn in E; try done; repeat case_match; done.
  - destruct p, e; done.
Qed.
Section handler.
Context {C : Type} (uuid : nat -> string) (estimate : Z) (usage : FullUsage).

Lemma outcome_no_start open used (r : list (event C) * ClaudeConvertInfo) : outcome (Streaming open used) r -> starts r.1 = 0%nat.
Proof. intros (q & R & _). by apply (run_no_start _ (Streaming open used) q). Qed.
(** A state in which the message has started, and may be over. *)
Definition begun (s : ClaudeConvertInfo) : Prop := if s.(ci_Done) then True else exists open used, stream_inv s open used.
Lemma begun_usage u s : begun s -> begun (set_usage u s).
Proof. intros H. exact H. Qed.
Lemma begun_chunk count (ck : StreamChunk C) s : count <> 1 -> begun s -> starts (StreamResponseOpenAI2Claude uuid count estimate ck s).1 = 0%nat /\ begun (StreamResponseOpenAI2Claude uuid count estimate ck s).2.
Proof.
  unfold begun at 1. intros Hc H. destruct (ci_Done s) eqn:Hd.
  - unfold StreamResponseOpenAI2Claude. rewrite Hd. split; [done|]. unfold begun. cbn [snd]. by rewrite Hd.
  - destruct H as (o & u & I). pose proof (chunk_outcome uuid count estimate ck s o u I Hd Hc) as Ho. split; [by apply (outcome_no_start o u)|]. destruct Ho as (q & _ & Hq). revert Hq. unfold begun.
    destruct (ci_Done (StreamResponseOpenAI2Claude uuid count estimate ck s).2); [done|]. intros (o' & u' & _ & I'). eauto.
Qed.
Lemma begun_handle (cks : list (StreamChunk C)) count ck s : 1 < count -> begun s -> starts (handle_chunks uuid count estimate usage ck cks s).1 = 0%nat.
Proof.
  revert count ck s. induction cks as [|ck' cks IH]; intros count ck s Hc H; cbn [handle_chunks].
  - unfold HandleFinalResponse. destruct (begun_chunk count ck (set_usage (Some usage) s) ltac:(lia) (begun_usage _ _ H)) as [E _]. by destruct (StreamResponseOpenAI2Claude _ _ _ _ _).
  - unfold handleClaudeFormat. set (s0 := match ck_Usage ck with Some _ => _ | None => _ end). assert (begun s0) as H0 by (unfold s0; by destruct (ck_Usage ck)).
    destruct (begun_chunk (count + 1) ck s0 ltac:(lia) H0) as [E H1]. destruct (StreamResponseOpenAI2Claude _ _ _ ck s0) as [es s1]. specialize (IH (count + 1) ck' s1 ltac:(lia) H1). destruct (handle_chunks _ _ _ _ _ _ _). cbn [fst snd] in *. by rewrite starts_app, E, IH.
Qed.
Lemma first_start (ck : StreamChunk C) s : s.(ci_Done) = false -> begun s -> starts (StreamResponseOpenAI2Claude uuid 1 estimate ck s).1 = 1%nat /\ begun (StreamResponseOpenAI2Claude uuid 1 estimate ck s).2.
Proof.
  intros Hd H. destruct (first_chunk_starts uuid estimate ck s Hd) as (id & model & u & w & ->). cbn [fst snd]. destruct (begun_chunk 0 ck (set_usage w s) ltac:(lia) (begun_usage _ _ H)) as [E H1]. split; [|done].
  change (MessageStart id model u :: ?l) with ([MessageStart id model u] ++ l). by rewrite starts_app, E.
Qed.
End handler.
(** Where the protocol is when the converter has state [s]. *)
Definition at_phase (p : phase) (s : ClaudeConvertInfo) : Prop := if s.(ci_Done) then p = Finished else exists open used, p = Streaming open used /\ stream_inv s open used.
Lemma at_phase_usage {C} (u : FullUsage) (ck : StreamChunk C) p s : at_phase p s -> at_phase p (set_usage (Some u) s) /\ at_phase p (match ck.(ck_Usage) with Some u => set_usage (Some u) s | None => s end).
Proof. intros H. split; [exact H|]. by destruct (ck_Usage ck). Qed.
Lemma at_phase_chunk {C} (uuid : nat -> string) estimate count (ck : StreamChunk C) p s : count <> 1 -> at_phase p s ->
  exists q, run p (StreamResponseOpenAI2Claude uuid count estimate ck s).1 = Some q /\ at_phase q (StreamResponseOpenAI2Claude uuid count estimate ck s).2.
Proof.
  unfold at_phase at 1. intros Hc H. destruct (ci_Done s) eqn:Hd.
  - unfold StreamResponseOpenAI2Claude. rewrite Hd. exists p. split; [done|]. unfold at_phase. cbn [snd]. by rewrite Hd.
  - destruct H as (o & u & -> & I). exact (chunk_outcome uuid count estimate ck s o u I Hd Hc).
Qed.
Lemma handle_ends {C} (uuid : nat -> string) estimate usage (cks : list (StreamChunk C)) count ck p s :
  1 < count -> at_phase p s -> asks_to_end (default ck (last cks)) = true -> run p (handle_chunks uuid count estimate usage ck cks s).1 = Some Finished.
Proof.
  revert count ck p s. induction cks as [|ck' cks IH]; intros count ck p s Hc Hp Ha; cbn [handle_chunks].
  - unfold HandleFinalResponse. destruct (at_phase_usage usage ck p s Hp) as [Hp' _]. destruct (at_phase_chunk uuid estimate count ck p _ ltac:(lia) Hp') as (q & R & Hq).
    assert ((StreamResponseOpenAI2Claude uuid count estimate ck (set_usage (Some usage) s)).2.(ci_Done) = true) as Hd.
    { destruct (ci_Done (set_usage (Some usage) s)) eqn:Hd; [unfold StreamResponseOpenAI2Claude; by rewrite Hd|]. destruct (prose_chunk uuid count estimate ck _ Hd) as (_ & -> & _). simpl in Ha. by rewrite Ha. }
    destruct (StreamResponseOpenAI2Claude uuid count estimate ck (set_usage (Some usage) s)) as [es s1]. cbn [fst snd] in *. unfold at_phase in Hq. rewrite Hd in Hq. by subst q.
  - unfold handleClaudeFormat. destruct (at_phase_usage usage ck p s Hp) as [_ Hp']. destruct (at_phase_chunk uuid estimate (count + 1) ck p _ ltac:(lia) Hp') as (q & R & Hq).
    destruct (StreamResponseOpenAI2Claude uuid (count + 1) estimate ck _) as [es s1]. cbn [fst snd] in *. assert (asks_to_end (default ck' (last cks)) = true) as Ha' by (rewrite last_cons in Ha; by destruct (last cks)).
    specialize (IH (count + 1) ck' q s1 ltac:(lia) Hq Ha'). destruct (handle_chunks _ _ _ _ _ _ _). cbn [fst] in *. by eapply run_trans.
Qed.
(** C34. A stream of chat completions becomes a stream of Claude's protocol.  Whatever chunks
    come, at least one, with text, thinking, citations and parallel tool calls in any order,
    with and without usage and finish reason, the events that the stateful converter of
    relaykit makes of them are a whole run of the protocol: the message starts once and first,
    every block starts once, carries only deltas of its kind while it is open and is stopped,
    and the message ends after that, once and last.  The handler of OpenAI channels, which
    drives the same converter in its own way, does so too for a stream of three chunks or more
    whose last chunk has no choices or a finish reason. *)
Theorem claude_stream_wellformed {C} (uuid : nat -> string) estimate (ck : StreamChunk C) cks :
  run Fresh (convert_stream uuid estimate (ck :: cks)) = Some Finished /\
  forall usage ck' ck'', asks_to_end (default ck'' (last cks)) = true -> run Fresh (OaiStreamHandler uuid estimate usage ck (ck' :: ck'' :: cks)) = Some Finished.
Proof.
  split; [apply convert_stream_accepted|]. intros usage ck' ck'' Ha. unfold OaiStreamHandler. cbn [handle_chunks]. unfold handleClaudeFormat at 1. change (0 + 1) with 1.
  replace (match ck_Usage ck with Some u => set_usage (Some u) new_info | None => new_info end) with (set_usage (ck_Usage ck) new_info) by (by destruct (ck_Usage ck)).
  destruct (first_chunk_outcome uuid (ck_Usage ck) estimate ck) as (q & R & Hq). destruct (StreamResponseOpenAI2Claude uuid 1 estimate ck (set_usage (ck_Usage ck) new_info)) as [es s1]. cbn [fst snd] in *.
  unfold handleClaudeFormat. destruct (at_phase_usage usage ck' q s1 Hq) as [_ Hq']. change (1 + 1) with 2. destruct (at_phase_chunk uuid estimate 2 ck' q _ ltac:(lia) Hq') as (q2 & R2 & Hq2).
  destruct (StreamResponseOpenAI2Claude uuid 2 estimate ck' _) as [es2 s2]. cbn [fst snd] in *. pose proof (handle_ends uuid estimate usage cks 2 ck'' q2 s2 ltac:(lia) Hq2 Ha) as R3.
  destruct (handle_chunks _ _ _ _ _ _ _). cbn [fst] in *. eapply run_trans; [exact R|]. by eapply run_trans.
Qed.
(** C38. The handler of OpenAI channels counts the last chunk as the one before it.  A stream
    of three chunks or more starts its message once, but a stream of one chunk never does, and
    a stream of two, of which the first does not end the message, starts it twice. *)
Theorem short_streams_misstart {C} (uuid : nat -> string) estimate usage (ck ck' ck'' : StreamChunk C) cks : asks_to_end ck = false ->
  starts (OaiStreamHandler uuid estimate usage ck []) = 0%nat /\ starts (OaiStreamHandler uuid estimate usage ck [ck']) = 2%nat /\
  starts (OaiStreamHandler uuid estimate usage ck (ck' :: ck'' :: cks)) = 1%nat.
Proof.
  intros Ha. assert (forall w, begun (set_usage w new_info)) as Hw by (intros w; exists ∅, ∅; split; [done|set_solver]). unfold OaiStreamHandler. split.
  { cbn. unfold HandleFinalResponse. destruct (begun_chunk uuid estimate 0 ck (set_usage (Some usage) new_info) ltac:(lia) (Hw _)) as [E _]. by destruct (StreamResponseOpenAI2Claude _ _ _ _ _). }
  cbn [handle_chunks]. unfold handleClaudeFormat at 1 2. change (0 + 1) with 1. set (s0 := match ck_Usage ck with Some _ => _ | None => _ end).
  assert (begun s0 /\ s0.(ci_Done) = false) as [H0 Hd0] by (unfold s0; destruct (ck_Usage ck); (split; [apply (Hw _) || apply (Hw None)|done])).
  destruct (first_start uuid estimate ck s0 Hd0 H0) as [E H1]. destruct (prose_chunk uuid 1 estimate ck s0 Hd0) as (_ & Hd1 & _). rewrite Ha in Hd1. destruct (StreamResponseOpenAI2Claude uuid 1 estimate ck s0) as [es s1]. cbn [fst snd] in *. split.
  - unfold HandleFinalResponse. destruct (first_start uuid estimate ck' (set_usage (Some usage) s1) Hd1 (begun_usage _ _ H1)) as [E' _]. destruct (StreamResponseOpenAI2Claude uuid 1 estimate ck' _). cbn [fst] in *. by rewrite starts_app, E, E'.
  - unfold handleClaudeFormat. set (s2 := match ck_Usage ck' with Some _ => _ | None => _ end). assert (begun s2) as H2 by (unfold s2; by destruct (ck_Usage ck')). destruct (begun_chunk uuid estimate 2 ck' s2 ltac:(lia) H2) as [E2 H3].
    change (1 + 1) with 2. destruct (StreamResponseOpenAI2Claude uuid 2 estimate ck' s2) as [es2 s3]. cbn [fst snd] in *. pose proof (begun_handle uuid estimate usage cks 2 ck'' s3 ltac:(lia) H3) as E3. destruct (handle_chunks _ _ _ _ _ _ _). cbn [fst] in *.
    by rewrite !starts_app, E, E2, E3.
Qed.
Definition text_chunk (text : string) : StreamChunk unit := mkChunk "c" "m" None [mkChoice None (Some text) None None [] []].
Lemma short_streams_misstart_witness : asks_to_end (text_chunk "Hi") = false /\ starts (OaiStreamHandler (fun _ => "") 5 (no_counts, None) (text_chunk "Hi") [text_chunk "!"]) = 2%nat.
Proof. split; [done|]. apply (short_streams_misstart (fun _ => "") 5 (no_counts, None) (text_chunk "Hi") (text_chunk "!") (text_chunk "") []). done. Defined.
