(* ===== verification/ClaudeTools.v ===== *)
(** * The arguments of parallel tool calls

    A provider interleaves the pieces of several tool calls, told apart by their index.  The
    converter opens a block for each call and sends the pieces to the block of their call,
    holding back those that come before the name or the id. *)

From stdpp Require Import base tactics numbers list gmap strings pretty.
From Stdlib Require Import ZArith Lia.
From S2P Require Import Prelude Cost UsageMerge ClaudeStream ClaudeProtocol.
Open Scope Z_scope.

(** ** Specification *)

(** The arguments a client gathers for block [b]. *)
Fixpoint json_of {C} (b : nat) (es : list (event C)) : string :=
  match es with
  | [] => ""
  | BlockDelta i (InputJsonDelta a) :: es => if decide (i = b) then a +:+ json_of b es else json_of b es
  | _ :: es => json_of b es
  end.
(** The arguments and the name the provider sent for index [k]. *)
Fixpoint args_of (k : Z) (tcs : list ToolCallDelta) : string :=
  match tcs with [] => "" | tc :: tcs => (if decide (tc.(tc_Index) = Some k) then tc.(tc_Arguments) else "") +:+ args_of k tcs end.
Fixpoint name_of (k : Z) (tcs : list ToolCallDelta) : string :=
  match tcs with
  | [] => ""
  | tc :: tcs => if decide (tc.(tc_Index) = Some k /\ TrimSpace tc.(tc_Name) <> "") then TrimSpace tc.(tc_Name) else name_of k tcs
  end.
(** Every piece names its index, and its id, if any, is the id of that index. *)
Definition addressed (ident : Z -> string) (tc : ToolCallDelta) : Prop :=
  match tc.(tc_Index) with Some k => TrimSpace tc.(tc_ID) = "" \/ TrimSpace tc.(tc_ID) = ident k | None => False end.
(** A run of chunks that carry tool calls, then the end of the blocks. *)
Fixpoint convert_run {C} (uuid : nat -> string) (tcss : list (list ToolCallDelta)) (s : ClaudeConvertInfo) : list (event C) * ClaudeConvertInfo :=
  match tcss with
  | [] => appendStopOpenBlocks uuid s
  | tcs :: tcss => let (es, s) := convert_tools uuid tcs s in let (es', s) := convert_run uuid tcss s in (es ++ es', s)
  end.

Lemma string_app_nil_r (x : string) : x +:+ "" = x.
Proof. induction x as [|c x IH]; [done|]. change (String c (x +:+ "") = String c x). by rewrite IH. Qed.
Lemma string_app_assoc (x y z : string) : x +:+ (y +:+ z) = (x +:+ y) +:+ z.
Proof. induction x as [|c x IH]; [done|]. change (String c (x +:+ (y +:+ z)) = String c ((x +:+ y) +:+ z)). by rewrite IH. Qed.
Lemma json_of_app {C} b (es es' : list (event C)) : json_of b (es ++ es') = json_of b es +:+ json_of b es'.
Proof.
  induction es as [|e es IH]; [done|]. simpl. destruct e as [| |i d| | |]; try done. destruct d; try done. destruct (decide (i = b)); [|done]. by rewrite IH, string_app_assoc.
Qed.
Lemma args_of_snoc k L tc : args_of k (L ++ [tc]) = args_of k L +:+ (if decide (tc.(tc_Index) = Some k) then tc.(tc_Arguments) else "").
Proof. induction L as [|x L IH]; simpl; [by rewrite string_app_nil_r|]. by rewrite IH, string_app_assoc. Qed.
Lemma name_of_snoc k L tc : name_of k (L ++ [tc]) = if String.eqb (name_of k L) "" then name_of k [tc] else name_of k L.
Proof.
  induction L as [|x L IH]; [done|]. cbn [app name_of]. destruct (decide (tc_Index x = Some k /\ TrimSpace (tc_Name x) <> "")) as [[_ H]|_]; [|exact IH]. by rewrite (proj2 (String.eqb_neq _ _) H).
Qed.
Lemma snoc_other k L tc : tc.(tc_Index) <> Some k -> args_of k (L ++ [tc]) = args_of k L /\ name_of k (L ++ [tc]) = name_of k L.
Proof.
  intros H. rewrite args_of_snoc, name_of_snoc, decide_False, string_app_nil_r by done. split; [done|]. simpl. rewrite decide_False by tauto. by destruct (String.eqb_spec (name_of k L) "").
Qed.

Section run.
Context {C : Type} (uuid : nat -> string) (ident : Z -> string).
Hypothesis ident_inj : forall k k', ident k = ident k' -> k = k'.
Implicit Types (s : ClaudeConvertInfo) (es : list (event C)) (L : list ToolCallDelta) (t : ClaudeStreamToolCall).

Definition shown (b : nat) (name : string) es : Prop := exists id, BlockStart b (ToolUseBlock id name) ∈ es.
(** The tool call of index [k], at block [b]. *)
Definition tool_ok (k : Z) L es (b : nat) t : Prop :=
  t.(tl_BlockIndex) = b /\ (t.(tl_ID) = "" \/ t.(tl_ID) = ident k) /\ t.(tl_Name) = name_of k L /\ json_of b es +:+ t.(tl_PendingArguments) = args_of k L /\
  (t.(tl_Started) = true -> t.(tl_PendingArguments) = "" /\ t.(tl_Name) <> "" /\ shown b t.(tl_Name) es).
Record run_inv s es L : Prop := {
  ri_index q t : s.(ci_ToolCalls) !! q = Some t -> t.(tl_BlockIndex) = (s.(ci_ToolCallBaseIndex) + q)%nat;
  ri_tool k p : s.(ci_ToolCallByIndex) !! k = Some p -> exists t, s.(ci_ToolCalls) !! p = Some t /\ tool_ok k L es (s.(ci_ToolCallBaseIndex) + p) t;
  ri_none k : s.(ci_ToolCallByIndex) !! k = None -> args_of k L = "" /\ name_of k L = "";
  ri_inj k k' p : s.(ci_ToolCallByIndex) !! k = Some p -> s.(ci_ToolCallByIndex) !! k' = Some p -> k = k';
  ri_id id p : s.(ci_ToolCallByID) !! id = Some p -> exists k, id = ident k /\ s.(ci_ToolCallByIndex) !! k = Some p;
  ri_fresh j : (s.(ci_ToolCallBaseIndex) + length s.(ci_ToolCalls) <= j)%nat -> json_of j es = ""
}.

Lemma shown_mono b name es es' : shown b name es -> shown b name (es ++ es').
Proof. intros [id H]. exists id. apply elem_of_app. by left. Qed.
Lemma json_nonempty b i a : json_of b (nonempty_delta (C := C) i a) = if decide (i = b) then a else "".
Proof. unfold nonempty_delta. destruct (String.eqb_spec a "") as [->|H]; simpl; [by destruct (decide _)|]. destruct (decide (i = b)); [by rewrite string_app_nil_r|done]. Qed.
Lemma json_start_tool b t : json_of b (start_tool (C := C) t).1 = if decide (t.(tl_BlockIndex) = b) then t.(tl_PendingArguments) else "".
Proof. apply json_nonempty. Qed.
(** Starting a call sends what was held back. *)
Lemma start_ok k L es b t : tool_ok k L es b t -> t.(tl_Name) <> "" -> tool_ok k L (es ++ (start_tool (C := C) t).1) b (start_tool (C := C) t).2.
Proof.
  intros (Hb & Hi & Hn & Ha & _) Hne. unfold tool_ok. rewrite json_of_app, json_start_tool, decide_True by done. cbn. rewrite string_app_nil_r. split_and!; try done.
  intros _. split; [done|]. split; [done|]. exists t.(tl_ID). apply elem_of_app. right. rewrite Hb. left.
Qed.
Lemma json_update b tc t : b <> t.(tl_BlockIndex) -> json_of b (update_tool (C := C) tc t).1 = "".
Proof.
  intros H. unfold update_tool. cbn zeta. destruct (negb _ && _ && _); [rewrite json_start_tool, decide_False by (cbn; congruence); done|]. cbn. destruct (tl_Started t); [|done]. by rewrite json_nonempty, decide_False.
Qed.
Lemma update_index tc t : (update_tool (C := C) tc t).2.(tl_BlockIndex) = t.(tl_BlockIndex).
Proof. unfold update_tool. cbn zeta. by destruct (negb _ && _ && _). Qed.
(** A piece is sent or held back, after what came before it. *)
Lemma update_ok k L es b tc t : tc.(tc_Index) = Some k -> addressed ident tc -> tool_ok k L es b t ->
  tool_ok k (L ++ [tc]) (es ++ (update_tool (C := C) tc t).1) b (update_tool (C := C) tc t).2.
Proof.
  intros Hk Had (Hb & Hi & Hn & Ha & Hs). unfold addressed in Had. rewrite Hk in Had.
  set (t1 := mkToolCall t.(tl_BlockIndex) (if String.eqb t.(tl_ID) "" then TrimSpace tc.(tc_ID) else t.(tl_ID)) (if String.eqb t.(tl_Name) "" then TrimSpace tc.(tc_Name) else t.(tl_Name))
             (if t.(tl_Started) then t.(tl_PendingArguments) else t.(tl_PendingArguments) +:+ tc.(tc_Arguments)) t.(tl_Started)).
  assert (t1.(tl_ID) = "" \/ t1.(tl_ID) = ident k) as Hi1 by (cbn; destruct (String.eqb_spec t.(tl_ID) ""); tauto).
  assert (t1.(tl_Name) = name_of k (L ++ [tc])) as Hn1.
  { rewrite name_of_snoc. cbn. rewrite Hn. destruct (String.eqb_spec (name_of k L) ""); [|done]. destruct (String.eqb_spec (TrimSpace tc.(tc_Name)) "") as [E|E]; [rewrite decide_False by tauto; done|by rewrite decide_True]. }
  unfold update_tool. fold t1. cbn zeta. change (tl_Started t1) with (tl_Started t).
  assert (args_of k (L ++ [tc]) = args_of k L +:+ tc.(tc_Arguments)) as Hx by (by rewrite args_of_snoc, decide_True).
  destruct (tl_Started t) eqn:Es.
  - cbn [negb andb fst snd]. destruct (Hs eq_refl) as (Hp & Hne & Hsh). unfold tool_ok. rewrite json_of_app, json_nonempty, decide_True by done. cbn in Hi1, Hn1 |- *. rewrite Hx, <- Ha, Hp, !string_app_nil_r.
    rewrite (proj2 (String.eqb_neq _ _) Hne) in *. split_and!; try done. intros _. split_and!; [done|done|by apply shown_mono].
  - cbn [negb]. assert (tool_ok k (L ++ [tc]) es b t1) as H1.
    { unfold tool_ok. split_and!; try done. cbn. by rewrite Hx, <- Ha, string_app_assoc. }
    destruct (negb (String.eqb (tl_ID t1) "")); cbn [andb]; [|by rewrite app_nil_r]. destruct (String.eqb_spec (tl_Name t1) "") as [E|E]; cbn [negb]; [by rewrite app_nil_r|by apply start_ok].
Qed.

Lemma tool_ok_other k L es es' b t tc : tc.(tc_Index) <> Some k -> json_of b es' = "" -> tool_ok k L es b t -> tool_ok k (L ++ [tc]) (es ++ es') b t.
Proof.
  intros Hk Hj (Hb & Hi & Hn & Ha & Hs). unfold tool_ok. destruct (snoc_other k L tc Hk) as [-> ->]. rewrite json_of_app, Hj, string_app_nil_r. split_and!; try done.
  intros E. destruct (Hs E) as (? & ? & ?). split_and!; [done|done|by apply shown_mono].
Qed.
(** A piece goes where the pieces of its index went. *)
Lemma route_index s es L i k tc : run_inv s es L -> tc.(tc_Index) = Some k -> addressed ident tc -> tool_position s i tc = default (length s.(ci_ToolCalls)) (s.(ci_ToolCallByIndex) !! k).
Proof.
  intros H Hk Had. unfold addressed in Had. rewrite Hk in Had. unfold tool_position, find_tool, toolIndex_of. rewrite Hk. cbn [default from_option id]. f_equal.
  set (id := TrimSpace tc.(tc_ID)) in *.
  assert (match (if String.eqb id "" then None else s.(ci_ToolCallByID) !! id) with Some p => Some p | None => s.(ci_ToolCallByIndex) !! k end = s.(ci_ToolCallByIndex) !! k) as ->.
  { destruct (String.eqb_spec id ""); [done|]. destruct (s.(ci_ToolCallByID) !! id) as [p|] eqn:E; [|done]. destruct (ri_id _ _ _ H _ _ E) as (k' & Hid & Hp). destruct Had as [?|Had]; [done|]. rewrite Had in Hid.
    by rewrite (ident_inj _ _ Hid). }
  destruct (s.(ci_ToolCallByIndex) !! k) as [p|] eqn:E; [|done]. destruct (ri_tool _ _ _ H _ _ E) as (t & Ht & _ & Hi & _). rewrite Ht.
  destruct (String.eqb_spec id "") as [_|H1], (String.eqb_spec t.(tl_ID) "") as [_|H2], (String.eqb_spec t.(tl_ID) id) as [_|H3]; try done. exfalso. destruct Had, Hi; congruence.
Qed.
(** The list with the call of the piece, which is the last one if it is new. *)
Lemma grown_ok s es L k p l : run_inv s es L -> p = default (length s.(ci_ToolCalls)) (s.(ci_ToolCallByIndex) !! k) ->
  l = (if bool_decide (p < length s.(ci_ToolCalls))%nat then s.(ci_ToolCalls) else s.(ci_ToolCalls) ++ [mkToolCall (s.(ci_ToolCallBaseIndex) + length s.(ci_ToolCalls)) "" "" "" false]) ->
  exists t, l !! p = Some t /\ tool_ok k L es (s.(ci_ToolCallBaseIndex) + p) t /\ (p < length l)%nat /\ (length s.(ci_ToolCalls) <= length l)%nat /\
    (forall q u, l !! q = Some u -> u.(tl_BlockIndex) = (s.(ci_ToolCallBaseIndex) + q)%nat) /\ (forall q u, s.(ci_ToolCalls) !! q = Some u -> l !! q = Some u) /\
    (forall k', s.(ci_ToolCallByIndex) !! k' = Some p -> k' = k).
Proof.
  intros H -> ->. destruct (s.(ci_ToolCallByIndex) !! k) as [p|] eqn:E; cbn [default from_option id].
  - destruct (ri_tool _ _ _ H _ _ E) as (t & Ht & Hok). pose proof (lookup_lt_Some _ _ _ Ht) as Hlt. rewrite bool_decide_true by done. exists t. split_and!; try done.
    + apply (ri_index _ _ _ H).
    + intros k' Hk'. by apply (ri_inj _ _ _ H _ _ p).
  - rewrite bool_decide_false by lia. eexists. rewrite lookup_app_r, Nat.sub_diag, length_app by lia. split_and!; [done| |simpl; lia|lia| | |].
    + destruct (ri_none _ _ _ H _ E) as [Ha Hn]. unfold tool_ok. cbn. rewrite Ha, Hn, (ri_fresh _ _ _ H) by lia. split_and!; try done. by left.
    + intros q u. rewrite lookup_app_Some, list_lookup_singleton_Some. intros [Hq|(Hge & Hq & <-)]; [by apply (ri_index _ _ _ H)|]. cbn. lia.
    + intros q u Hq. by apply lookup_app_l_Some.
    + intros k' Hk'. destruct (ri_tool _ _ _ H _ _ Hk') as (t & Ht & _). apply lookup_lt_Some in Ht. lia.
Qed.
Lemma step_inv s es L i tc : run_inv s es L -> addressed ident tc ->
  run_inv (toolCallStep (C := C) s i tc).2 (es ++ (toolCallStep (C := C) s i tc).1) (L ++ [tc]).
Proof.
  intros H Had. destruct (tc.(tc_Index)) as [k|] eqn:Hk; [|by unfold addressed in Had; rewrite Hk in Had].
  unfold toolCallStep. rewrite (route_index s es L i k tc H Hk Had). set (n := length s.(ci_ToolCalls)). set (base := s.(ci_ToolCallBaseIndex)). set (p := default n (s.(ci_ToolCallByIndex) !! k)).
  set (l := if bool_decide (p < n)%nat then _ else _).
  destruct (grown_ok s es L k p l H eq_refl eq_refl) as (t & Hl & Hok & Hlen & Hn & Hidx & Hsub & Hown). fold n base in Hok, Hn, Hidx.
  rewrite Hl. pose proof (update_ok k L es (base + p) tc t Hk Had Hok) as Hup. pose proof (fun b => json_update b tc t) as Hj. pose proof (update_index tc t) as Hui.
  destruct (update_tool (C := C) tc t) as [es1 t1]. cbn [fst snd] in *. assert (t.(tl_BlockIndex) = (base + p)%nat) as Hb by apply Hok. rewrite Hb in *.
  unfold toolIndex_of. rewrite Hk. cbn [default from_option id].
  split; cbn; fold base.
  - intros q u. rewrite list_lookup_insert_Some. intros [(<- & <- & _)|[_ Hq]]; [done|by apply Hidx].
  - intros k' p'. rewrite lookup_insert_Some. intros [[<- <-]|[Hne Hk']]; [exists t1; by rewrite list_lookup_insert_eq|]. destruct (ri_tool _ _ _ H _ _ Hk') as (u & Hu & Hok').
    assert (p <> p') as Hp by (intros ->; naive_solver). exists u. rewrite list_lookup_insert_ne by done. split; [by apply Hsub|]. apply tool_ok_other; [congruence|apply Hj; lia|done].
  - intros k'. rewrite lookup_insert_None. intros [Hk' Hne]. destruct (snoc_other k' L tc ltac:(congruence)) as [-> ->]. by apply (ri_none _ _ _ H).
  - intros k1 k2 q. rewrite !lookup_insert_Some. intros [[<- <-]|[Hn1 H1]] [[<- Hq]|[Hn2 H2]]; try done; try (by apply Hown in H2); [subst q; by apply Hown in H1|]. by apply (ri_inj _ _ _ H _ _ q).
  - intros id q Hq. assert (s.(ci_ToolCallByID) !! id = Some q \/ id = ident k /\ q = p) as [Hq'|[-> ->]]; [|destruct (ri_id _ _ _ H _ _ Hq') as (k' & -> & Hk')|exists k; by rewrite lookup_insert_eq].
    + unfold addressed in Had. rewrite Hk in Had. destruct (String.eqb (tl_ID t) ""), (String.eqb_spec (TrimSpace (tc_ID tc)) "") as [|Hne]; cbn in Hq; try tauto. destruct Had as [?|Had]; [done|]. apply lookup_insert_Some in Hq as [[<- <-]|[_ ?]]; tauto.
    + exists k'. split; [done|]. destruct (decide (k' = k)) as [->|Hne]; [rewrite lookup_insert_eq; unfold p; by rewrite Hk'|by rewrite lookup_insert_ne].
  - intros j. rewrite length_insert. intros Hle. rewrite json_of_app, (ri_fresh _ _ _ H j), (Hj j) by (fold base; lia). done.
Qed.
Lemma loop_inv tcs s es L i : run_inv s es L -> Forall (addressed ident) tcs -> run_inv (toolCallLoop (C := C) i tcs s).2 (es ++ (toolCallLoop (C := C) i tcs s).1) (L ++ tcs).
Proof.
  revert s es L i. induction tcs as [|tc tcs IH]; intros s es L i H Hf; cbn [toolCallLoop]; [by rewrite !app_nil_r|]. apply Forall_cons in Hf as [Ha Hf]. pose proof (step_inv s es L i tc H Ha) as H1.
  destruct (toolCallStep (C := C) s i tc) as [es1 s1]. specialize (IH s1 _ _ (S i) H1 Hf). destruct (toolCallLoop (C := C) (S i) tcs s1) as [es2 s2]. cbn [fst snd] in *. by rewrite <- !app_assoc in IH.
Qed.
(** The invariant reads the tool calls of the state only. *)
Lemma inv_frame s s' es L : s'.(ci_ToolCalls) = s.(ci_ToolCalls) -> s'.(ci_ToolCallBaseIndex) = s.(ci_ToolCallBaseIndex) -> s'.(ci_ToolCallByIndex) = s.(ci_ToolCallByIndex) ->
  s'.(ci_ToolCallByID) = s.(ci_ToolCallByID) -> run_inv s es L -> run_inv s' es L.
Proof. intros E1 E2 E3 E4 [H1 H2 H3 H4 H5 H6]. split; rewrite ?E1, ?E2, ?E3, ?E4; assumption. Qed.
Lemma loop_type tcs s i : (toolCallLoop (C := C) i tcs s).2.(ci_LastMessagesType) = s.(ci_LastMessagesType).
Proof.
  revert s i. induction tcs as [|tc tcs IH]; intros s i; [done|]. cbn [toolCallLoop]. assert ((toolCallStep (C := C) s i tc).2.(ci_LastMessagesType) = s.(ci_LastMessagesType)) as H.
  { unfold toolCallStep. destruct (_ !! tool_position s i tc); [|done]. by destruct (update_tool _ _). }
  destruct (toolCallStep (C := C) s i tc) as [es s1]. pose proof (IH s1 (S i)) as H2. destruct (toolCallLoop (C := C) (S i) tcs s1). cbn in *. congruence.
Qed.
Lemma tools_inv_next tcs s es L : s.(ci_LastMessagesType) = LastMessageTypeTools -> run_inv s es L -> Forall (addressed ident) tcs ->
  run_inv (convert_tools (C := C) uuid tcs s).2 (es ++ (convert_tools (C := C) uuid tcs s).1) (L ++ tcs) /\ (convert_tools (C := C) uuid tcs s).2.(ci_LastMessagesType) = LastMessageTypeTools.
Proof.
  intros Ht H Hf. unfold convert_tools. rewrite Ht. pose proof (loop_inv tcs (set_type LastMessageTypeTools s) es L 0 ltac:(by apply (inv_frame s)) Hf) as Hl. pose proof (loop_type tcs (set_type LastMessageTypeTools s) 0) as Hty.
  destruct (toolCallLoop (C := C) 0 tcs (set_type LastMessageTypeTools s)) as [es1 s1]. cbn [fst snd] in *. case_bool_decide; (split; [by apply (inv_frame s1)|exact Hty]).
Qed.

Lemma json_stops b s : json_of b (stopOpenBlocks (C := C) s) = "".
Proof.
  assert (forall (A : Type) (f : A -> nat) (l : list A), json_of b ((fun x => BlockStop (C := C) (f x)) <$> l) = "") as H by (intros A f l; by induction l).
  unfold stopOpenBlocks. destruct s.(ci_LastMessagesType); try done. destruct s.(ci_ToolCalls); apply H.
Qed.
Lemma json_pick {A} b (f : A -> list (event C)) (l : list A) p x : l !! p = Some x -> (forall q y, l !! q = Some y -> q <> p -> json_of b (f y) = "") -> json_of b (concat (f <$> l)) = json_of b (f x).
Proof.
  assert (forall l' : list A, (forall q y, l' !! q = Some y -> json_of b (f y) = "") -> json_of b (concat (f <$> l')) = "") as Hn.
  { intros l'. induction l' as [|y l' IH]; intros Hq; [done|]. cbn. rewrite json_of_app, (Hq 0%nat y eq_refl), IH; [done|]. intros q z Hz. by apply (Hq (S q)). }
  revert p. induction l as [|y l IH]; intros p Hp Hq; [done|]. destruct p as [|p]; cbn in *; rewrite json_of_app.
  - injection Hp as ->. rewrite Hn, string_app_nil_r; [done|]. intros q z Hz. by apply (Hq (S q)).
  - rewrite (Hq 0%nat y eq_refl) by done. rewrite (IH p Hp); [done|]. intros q z Hz Hne. apply (Hq (S q)); [done|lia].
Qed.
(** What a client gathers when the blocks are closed. *)
Definition delivered es L : Prop :=
  exists block : Z -> nat, (forall k k', name_of k L <> "" -> name_of k' L <> "" -> block k = block k' -> k = k') /\
    forall k, name_of k L <> "" -> shown (block k) (name_of k L) es /\ json_of (block k) es = args_of k L.
Lemma start_pending_json b t : t.(tl_BlockIndex) <> b -> json_of b (start_pending (C := C) uuid t).1 = "".
Proof. intros H. unfold start_pending. destruct (_ || _); [done|]. by rewrite json_start_tool, decide_False. Qed.
Lemma pending_ok k L es b t : tool_ok k L es b t -> name_of k L <> "" -> shown b (name_of k L) (es ++ (start_pending (C := C) uuid t).1) /\ json_of b (es ++ (start_pending (C := C) uuid t).1) = args_of k L.
Proof.
  intros (Hb & Hi & Hn & Ha & Hs) Hne. rewrite <- Ha, <- Hn in *. unfold start_pending. rewrite (proj2 (String.eqb_neq _ _) Hne), orb_false_r. destruct (tl_Started t).
  - destruct (Hs eq_refl) as (-> & _ & Hsh). cbn. by rewrite app_nil_r, string_app_nil_r.
  - split; [eexists; apply elem_of_app; right; cbn; rewrite Hb; left|]. by rewrite json_of_app, json_start_tool, decide_True.
Qed.
Lemma close_delivers s es L : s.(ci_LastMessagesType) = LastMessageTypeTools -> run_inv s es L -> delivered (es ++ (appendStopOpenBlocks (C := C) uuid s).1) L.
Proof.
  intros Ht H. exists (fun k => (s.(ci_ToolCallBaseIndex) + default 0%nat (s.(ci_ToolCallByIndex) !! k))%nat).
  assert (forall k, name_of k L <> "" -> is_Some (s.(ci_ToolCallByIndex) !! k)) as Hsome.
  { intros k Hne. destruct (s.(ci_ToolCallByIndex) !! k) eqn:E; [done|]. by destruct (ri_none _ _ _ H _ E). }
  split.
  - intros k k' H1 H2. destruct (Hsome k H1) as [p Hp], (Hsome k' H2) as [p' Hp']. rewrite Hp, Hp'. cbn. intros E. assert (p = p') as -> by lia. by apply (ri_inj _ _ _ H _ _ p').
  - intros k Hne. destruct (Hsome k Hne) as [p Hp]. rewrite Hp. cbn [default from_option id]. destruct (ri_tool _ _ _ H _ _ Hp) as (t & Hl & Hok). destruct (pending_ok _ _ _ _ _ Hok Hne) as [[id Hsh] Hj].
    unfold appendStopOpenBlocks, startPendingToolBlocks. rewrite Ht. cbn [fst]. set (b := (s.(ci_ToolCallBaseIndex) + p)%nat) in *. split.
    + exists id. rewrite app_assoc. apply elem_of_app. left. apply elem_of_app in Hsh as [Hsh|Hsh]; apply elem_of_app; [by left|right]. apply list_elem_of_In, in_concat. exists (start_pending (C := C) uuid t).1. split; [|by apply list_elem_of_In].
      apply list_elem_of_In, list_elem_of_fmap. exists t. split; [done|]. by eapply list_elem_of_lookup_2.
    + rewrite !json_of_app, json_stops, string_app_nil_r. rewrite (json_pick b _ _ p t Hl); [by rewrite <- json_of_app|]. intros q u Hu Hq. apply start_pending_json. rewrite (ri_index _ _ _ H _ _ Hu). unfold b. lia.
Qed.
Lemma run_delivers tcss s es L : s.(ci_LastMessagesType) = LastMessageTypeTools -> run_inv s es L -> Forall (Forall (addressed ident)) tcss ->
  delivered (es ++ (convert_run (C := C) uuid tcss s).1) (L ++ concat tcss).
Proof.
  revert s es L. induction tcss as [|tcs tcss IH]; intros s es L Ht H Hf; cbn [convert_run concat].
  - rewrite app_nil_r. by apply close_delivers.
  - apply Forall_cons in Hf as [Ha Hf]. destruct (tools_inv_next tcs s es L Ht H Ha) as [H1 Ht1]. destruct (convert_tools (C := C) uuid tcs s) as [es1 s1]. specialize (IH s1 _ _ Ht1 H1 Hf).
    destruct (convert_run (C := C) uuid tcss s1) as [es2 s2]. cbn [fst snd] in *. by rewrite <- !app_assoc in IH.
Qed.
(** The first chunk of a run closes what was open and forgets earlier calls. *)
Lemma json_advance b s : s.(ci_LastMessagesType) <> LastMessageTypeTools -> json_of b (stopOpenBlocksAndAdvance (C := C) uuid s).1 = "".
Proof.
  intros Ht. unfold stopOpenBlocksAndAdvance, appendStopOpenBlocks, startPendingToolBlocks. destruct s.(ci_LastMessagesType) eqn:E; cbn [fst app]; try done; apply json_stops.
Qed.
Lemma first_inv tcs s : s.(ci_LastMessagesType) <> LastMessageTypeTools -> Forall (addressed ident) tcs ->
  run_inv (convert_tools (C := C) uuid tcs s).2 (convert_tools (C := C) uuid tcs s).1 tcs /\ (convert_tools (C := C) uuid tcs s).2.(ci_LastMessagesType) = LastMessageTypeTools.
Proof.
  intros Ht Hf. pose proof (fun b => json_advance b s Ht) as Hj. destruct (stopOpenBlocksAndAdvance (C := C) uuid s) as [es0 s0] eqn:E0.
  set (s1 := set_tools s0.(ci_Index) 0 [] ∅ ∅ s0). assert (run_inv (set_type LastMessageTypeTools s1) es0 []) as H by (split; cbn; [done|done|done|done|done|auto]).
  destruct (tools_inv_next tcs (set_type LastMessageTypeTools s1) _ _ eq_refl H Hf) as [H1 Ht1]. assert (convert_tools uuid tcs s = (es0 ++ (convert_tools (C := C) uuid tcs (set_type LastMessageTypeTools s1)).1, (convert_tools (C := C) uuid tcs (set_type LastMessageTypeTools s1)).2)) as ->; [|by split].
  unfold convert_tools. rewrite E0. cbn [ci_LastMessagesType set_type]. fold s1. change (set_type LastMessageTypeTools (set_type LastMessageTypeTools s1)) with (set_type LastMessageTypeTools s1).
  destruct s.(ci_LastMessagesType); [..|done|]; by destruct (toolCallLoop 0 tcs (set_type LastMessageTypeTools s1)).
Qed.
End run.

(** C35. Parallel tool calls are told apart.  However a provider cuts the arguments of several
    calls into pieces and interleaves them over the chunks of a run, with the name and the id
    of a call at any piece, as long as every piece carries the index of its call and an id
    belongs to one index: every call that got a name has a block of its own that starts with
    that name, and the arguments sent in that block are the pieces of that call, all of them
    and in order. *)
Theorem tool_arguments_delivered {C} (uuid : nat -> string) (ident : Z -> string) tcs tcss s :
  (forall k k', ident k = ident k' -> k = k') -> s.(ci_LastMessagesType) <> LastMessageTypeTools -> Forall (Forall (addressed ident)) (tcs :: tcss) ->
  delivered (convert_run (C := C) uuid (tcs :: tcss) s).1 (concat (tcs :: tcss)).
Proof.
  intros Hinj Ht Hf. apply Forall_cons in Hf as [Ha Hf]. destruct (first_inv (C := C) uuid ident Hinj tcs s Ht Ha) as [H Ht1]. cbn [convert_run concat]. destruct (convert_tools (C := C) uuid tcs s) as [es s1].
  pose proof (run_delivers uuid ident Hinj tcss s1 es tcs Ht1 H Hf) as Hd. by destruct (convert_run uuid tcss s1).
Qed.
(** Two calls, the pieces of the second before its id and between those of the first. *)
Definition two_calls : list (list ToolCallDelta) :=
  [[mkToolCallDelta (Some 0) "0" "weather" ""; mkToolCallDelta (Some 1) "" "" "{'a':"];
   [mkToolCallDelta (Some 0) "" "" "{'city':"; mkToolCallDelta (Some 1) "1" "sum" "1"]; [mkToolCallDelta (Some 1) "" "" "}"; mkToolCallDelta (Some 0) "" "" "'Rome'}"]].
Lemma tool_arguments_delivered_witness :
  delivered (convert_run (C := unit) (fun _ => "") two_calls new_info).1 (concat two_calls) /\ args_of 0 (concat two_calls) = "{'city':'Rome'}" /\ args_of 1 (concat two_calls) = "{'a':1}" /\
  name_of 0 (concat two_calls) = "weather" /\ name_of 1 (concat two_calls) = "sum".
Proof.
  split; [|by vm_compute]. apply (tool_arguments_delivered (fun _ => "") (@pretty Z _)).
  - intros k k' H. by apply (inj pretty) in H.
  - done.
  - repeat (apply List.Forall_cons || apply List.Forall_nil); cbn; ((left; by vm_compute) || (right; by vm_compute)).
Defined.
