(* ===== verification/Steps.v ===== *)
(** * Programs of statements over a shared store

    An operation is a program of single statements (of the database or of Redis); between
    any two statements others may run theirs and time may pass, and any statement may fail,
    before or after it took effect.  A program logic follows one program through all of
    that, with the history of the store, and is adequate for every interleaving. *)

From stdpp Require Import base tactics numbers list sets relations.
From Stdlib Require Import ZArith Lia.
From S2P Require Import Prelude.
Open Scope Z_scope.

Section steps.
Context {S : Type} (clock : S -> Z).

(** [Now]: the time is read.  [Stmt]: a statement with its answer, [None] for an error. *)
Inductive prog (A : Type) : Type :=
| Done (a : A)
| Now (k : Z -> prog A)
| Stmt (B : Set) (f : S -> B * S) (k : option B -> prog A).
Arguments Done {A} a.
Arguments Now {A} k.
Arguments Stmt {A} B f k.
Fixpoint pbind {A B} (p : prog A) (q : A -> prog B) : prog B :=
  match p with
  | Done a => q a
  | Now k => Now (fun t => pbind (k t) q)
  | Stmt C f k => Stmt C f (fun r => pbind (k r) q)
  end.
Definition stmt {B : Set} (f : S -> B * S) : prog (option B) := Stmt B f Done.

(** A program run alone; the script says which statements fail, without effect. *)
Fixpoint run_alone {A} (faults : list bool) (p : prog A) (s : S) : A * S :=
  match p with
  | Done a => (a, s)
  | Now k => run_alone faults (k (clock s)) s
  | Stmt B f k =>
      match faults with
      | true :: fs => run_alone fs (k None) s
      | _ => let (b, s') := f s in run_alone (tail faults) (k (Some b)) s'
      end
  end.

(** ** A logic with history *)

(** [I s h]: the invariant of the store [s] with the stores [h] there have been. *)
Section wp.
Context (I : S -> list S -> Prop).

Fixpoint wp {A} (h : list S) (p : prog A) (Q : list S -> A -> Prop) : Prop :=
  match p with
  | Done a => forall h', h ⊆ h' -> Q h' a
  | Now k => forall s h', h ⊆ h' -> I s h' -> wp h' (k (clock s)) Q
  | Stmt B f k => forall s h', h ⊆ h' -> I s h' ->
      let s' := (f s).2 in
      I s' (s' :: h') /\ wp (s' :: h') (k (Some (f s).1)) Q /\ wp (s' :: h') (k None) Q /\ wp h' (k None) Q
  end.
Lemma hist_mono {A} h h' (p : prog A) (Q Q' : list S -> A -> Prop) : wp h p Q -> h ⊆ h' -> (forall g a, h' ⊆ g -> Q g a -> Q' g a) -> wp h' p Q'.
Proof.
  revert h h'. induction p as [a|k IH|B f k IH]; intros h h' Hp Hh HQ; cbn in *.
  - intros g Hg. apply HQ; [done|]. apply Hp. by transitivity h'.
  - intros s g Hg Hi. apply (IH (clock s) g g); [apply Hp; [by transitivity h'|done]|done|]. intros g' a Hg'. apply HQ. by transitivity g.
  - intros s g Hg Hi. destruct (Hp s g ltac:(by transitivity h') Hi) as (H1 & H2 & H3 & H4). split; [done|].
    assert (forall x, h ⊆ g -> wp x (k None) Q -> g ⊆ x -> wp x (k None) Q') as Hn by (intros x _ Hx Hgx; apply (IH None x x); [done|done|]; intros y a Hy; apply HQ; set_solver).
    split_and!; [|apply Hn; [set_solver|done|set_solver]|apply Hn; [set_solver|done|done]]. apply (IH _ _ _ H2); [done|]. intros y a Hy. apply HQ. set_solver.
Qed.
Lemma hist_bind {A B} h (p : prog A) (q : A -> prog B) (Q : list S -> B -> Prop) : wp h p (fun g a => wp g (q a) Q) -> wp h (pbind p q) Q.
Proof.
  revert h. induction p as [a|k IH|C f k IH]; intros h Hp; cbn in *.
  - by apply Hp.
  - intros s g Hg Hi. apply IH. by apply Hp.
  - intros s g Hg Hi. destruct (Hp s g Hg Hi) as (H1 & H2 & H3 & H4). split_and!; [done|by apply IH..].
Qed.
Lemma wp_done {A} h (a : A) (Q : list S -> A -> Prop) : (forall h', h ⊆ h' -> Q h' a) -> wp h (Done a) Q.
Proof. done. Qed.
End wp.

(** ** Many processes *)

Section system.
Context {Op R : Type} (exec : Op -> prog R) (env : S -> S -> Prop).

(** [finished] holds what ended, with the time it started. *)
Record Config := mkConfig { store : S; past : list S; running : list (Z * Op * prog R); finished : list (Z * Op * R) }.
Inductive step : Config -> Config -> Prop :=
| s_env c s : env c.(store) s -> step c (mkConfig s (s :: c.(past)) c.(running) c.(finished))
| s_start c o : step c (mkConfig c.(store) c.(past) ((clock c.(store), o, exec o) :: c.(running)) c.(finished))
| s_now c i t o k : c.(running) !! i = Some (t, o, Now k) ->
    step c (mkConfig c.(store) c.(past) (<[i := (t, o, k (clock c.(store)))]> c.(running)) c.(finished))
| s_stmt c i t o B f k : c.(running) !! i = Some (t, o, Stmt B f k) ->
    step c (mkConfig (f c.(store)).2 ((f c.(store)).2 :: c.(past)) (<[i := (t, o, k (Some (f c.(store)).1))]> c.(running)) c.(finished))
| s_lost c i t o (B : Set) (f : S -> B * S) k : c.(running) !! i = Some (t, o, Stmt B f k) ->
    step c (mkConfig (f c.(store)).2 ((f c.(store)).2 :: c.(past)) (<[i := (t, o, k None)]> c.(running)) c.(finished))
| s_fault c i t o (B : Set) (f : S -> B * S) k : c.(running) !! i = Some (t, o, Stmt B f k) ->
    step c (mkConfig c.(store) c.(past) (<[i := (t, o, k None)]> c.(running)) c.(finished))
| s_end c i t o a : c.(running) !! i = Some (t, o, Done a) ->
    step c (mkConfig c.(store) c.(past) (delete i c.(running)) ((t, o, a) :: c.(finished)))
| s_crash c i : step c (mkConfig c.(store) c.(past) (delete i c.(running)) c.(finished)).
Definition start_config (s : S) : Config := mkConfig s [s] [] [].
Definition reachable (s : S) (c : Config) : Prop := rtc step (start_config s) c.

Context (I : S -> list S -> Prop) (post : Z -> Op -> list S -> R -> Prop).
Hypothesis env_ok : forall s s' h, env s s' -> I s h -> I s' (s' :: h).
Hypothesis exec_ok : forall o s h, I s h -> wp I h (exec o) (post (clock s) o).
Definition config_ok (c : Config) : Prop :=
  I c.(store) c.(past) /\ Forall (fun x => wp I c.(past) x.2 (post x.1.1 x.1.2)) c.(running) /\
  Forall (fun x => forall h, c.(past) ⊆ h -> post x.1.1 x.1.2 h x.2) c.(finished).
Lemma running_mono h h' (l : list (Z * Op * prog R)) : h ⊆ h' -> Forall (fun x => wp I h x.2 (post x.1.1 x.1.2)) l -> Forall (fun x => wp I h' x.2 (post x.1.1 x.1.2)) l.
Proof. intros Hh Hl. apply (Forall_impl _ _ _ Hl). intros [[t o] p] Hp. by apply (hist_mono I h h' _ _ _ Hp). Qed.
Lemma finished_mono h h' (l : list (Z * Op * R)) : h ⊆ h' -> Forall (fun x => forall g, h ⊆ g -> post x.1.1 x.1.2 g x.2) l -> Forall (fun x => forall g, h' ⊆ g -> post x.1.1 x.1.2 g x.2) l.
Proof. intros Hh Hl. apply (Forall_impl _ _ _ Hl). intros x Hx g Hg. apply Hx. by transitivity h'. Qed.
Lemma config_step c c' : step c c' -> config_ok c -> config_ok c'.
Proof.
  destruct 1 as [c s Henv|c o|c i t o k Hi|c i t o B f k Hi|c i t o B f k Hi|c i t o B f k Hi|c i t o a Hi|c i]; intros (HI & Hr & Hf); unfold config_ok; cbn [store past running finished].
  - split_and!; [by apply (env_ok (store c))|apply (running_mono (past c)); [set_solver|done]|apply (finished_mono (past c)); [set_solver|done]].
  - split_and!; [done| |done]. constructor; [|done]. by apply exec_ok.
  - pose proof (Forall_lookup_1 _ _ _ _ Hr Hi) as Hw. cbn in Hw. split_and!; [done| |done]. apply Forall_insert; [done|]. by apply Hw.
  - pose proof (Forall_lookup_1 _ _ _ _ Hr Hi) as Hw. destruct (Hw (store c) (past c) ltac:(done) HI) as (H1 & H2 & _). split_and!; [done| |apply (finished_mono (past c)); [set_solver|done]].
    apply Forall_insert; [|done]. apply (running_mono (past c)); [set_solver|done].
  - pose proof (Forall_lookup_1 _ _ _ _ Hr Hi) as Hw. destruct (Hw (store c) (past c) ltac:(done) HI) as (H1 & _ & H2 & _). split_and!; [done| |apply (finished_mono (past c)); [set_solver|done]].
    apply Forall_insert; [|done]. apply (running_mono (past c)); [set_solver|done].
  - pose proof (Forall_lookup_1 _ _ _ _ Hr Hi) as Hw. destruct (Hw (store c) (past c) ltac:(done) HI) as (_ & _ & _ & H2). split_and!; [done| |done]. by apply Forall_insert.
  - pose proof (Forall_lookup_1 _ _ _ _ Hr Hi) as Hw. split_and!; [done|by apply Forall_delete|]. constructor; [|done]. exact Hw.
  - split_and!; [done|by apply Forall_delete|done].
Qed.
(** What the logic says of a program holds of every process that ended, in every run. *)
Lemma wp_adequate s c : I s [s] -> reachable s c -> config_ok c.
Proof.
  intros Hs Hr. unfold reachable in Hr. assert (config_ok (start_config s)) as H0 by (split_and!; [done|constructor..]). induction Hr as [|c1 c2 c3 H1 _ IH]; [done|]. apply IH. by eapply config_step.
Qed.
Lemma finished_post s c t o a : I s [s] -> reachable s c -> (t, o, a) ∈ c.(finished) -> post t o c.(past) a.
Proof. intros Hs Hr Hin. destruct (wp_adequate s c Hs Hr) as (_ & _ & Hf). by apply (proj1 (Forall_forall _ _) Hf (t, o, a) Hin). Qed.

(** ** Schedules *)

(** A schedule can be computed: what happens next, in order. *)
Inductive act (E : Type) := AEnv (e : E) | AStart (o : Op) | ARun (i : nat) | ALost (i : nat) | AFault (i : nat).
Arguments AEnv {E} e.
Arguments AStart {E} o.
Arguments ARun {E} i.
Arguments ALost {E} i.
Arguments AFault {E} i.
Context {E : Type} (world : E -> S -> S).
Definition perform (c : Config) (a : act E) : Config :=
  match a with
  | AEnv e => mkConfig (world e c.(store)) (world e c.(store) :: c.(past)) c.(running) c.(finished)
  | AStart o => mkConfig c.(store) c.(past) ((clock c.(store), o, exec o) :: c.(running)) c.(finished)
  | ARun i =>
      match c.(running) !! i with
      | None => c
      | Some (t, o, Done a) => mkConfig c.(store) c.(past) (delete i c.(running)) ((t, o, a) :: c.(finished))
      | Some (t, o, Now k) => mkConfig c.(store) c.(past) (<[i := (t, o, k (clock c.(store)))]> c.(running)) c.(finished)
      | Some (t, o, Stmt B f k) => let r := f c.(store) in mkConfig r.2 (r.2 :: c.(past)) (<[i := (t, o, k (Some r.1))]> c.(running)) c.(finished)
      end
  | ALost i =>
      match c.(running) !! i with
      | Some (t, o, Stmt B f k) => let r := f c.(store) in mkConfig r.2 (r.2 :: c.(past)) (<[i := (t, o, k None)]> c.(running)) c.(finished)
      | _ => c
      end
  | AFault i =>
      match c.(running) !! i with
      | Some (t, o, Stmt B f k) => mkConfig c.(store) c.(past) (<[i := (t, o, k None)]> c.(running)) c.(finished)
      | _ => c
      end
  end.
Hypothesis world_ok : forall e s, env s (world e s).
Lemma perform_step c a : rtc step c (perform c a).
Proof.
  destruct a as [e|o|i|i|i]; cbn.
  - apply rtc_once. by constructor.
  - apply rtc_once. constructor.
  - destruct (running c !! i) as [[[t o] [a|k|B f k]]|] eqn:H; [| | |done]; apply rtc_once; by econstructor.
  - destruct (running c !! i) as [[[t o] [a|k|B f k]]|] eqn:H; try done. apply rtc_once. by eapply s_lost.
  - destruct (running c !! i) as [[[t o] [a|k|B f k]]|] eqn:H; try done. apply rtc_once. by eapply s_fault.
Qed.
Lemma schedule_reachable s acts : reachable s (foldl perform (start_config s) acts).
Proof.
  unfold reachable. generalize (start_config s). induction acts as [|a acts IH]; intros c; [done|]. cbn. etransitivity; [apply perform_step|apply IH].
Qed.
End system.
End steps.
Arguments AEnv {Op E} e.
Arguments AStart {Op E} o.
Arguments ARun {Op E} i.
Arguments ALost {Op E} i.
Arguments AFault {Op E} i.
Arguments prog S A : clear implicits.
Arguments Done {S A} a.
Arguments Now {S A} k.
Arguments Stmt {S A} B f k.
Declare Scope steps_scope.
Notation "'let*' x := p 'in' q" := (pbind p (fun x => q)) (at level 10, x name, p at level 100, q at level 200) : steps_scope.

(** * What can happen only once

    Some changes of the store can happen only once: a flow is consumed, a recovery code is
    used, a refresh token is replaced.  A process that succeeds made such a change itself, so
    at most one process succeeds. *)

Section exclusive.
Context {S : Type} (clock : S -> Z) {Op R : Type} (exec : Op -> prog S R) (allowed : Op -> Prop) (env : S -> S -> Prop).

(** ** Runs that record who changed what *)

(** A process with the changes it made; [log] holds all changes. *)
Record XConfig := mkXConfig { xstore : S; log : list (S * S); xrunning : list (Op * list (S * S) * prog S R); xfinished : list (Op * list (S * S) * R) }.
Inductive xstep : XConfig -> XConfig -> Prop :=
| x_env c s : env c.(xstore) s -> xstep c (mkXConfig s c.(log) c.(xrunning) c.(xfinished))
| x_start c o : allowed o -> xstep c (mkXConfig c.(xstore) c.(log) ((o, [], exec o) :: c.(xrunning)) c.(xfinished))
| x_now c i o own k : c.(xrunning) !! i = Some (o, own, Now k) ->
    xstep c (mkXConfig c.(xstore) c.(log) ((o, own, k (clock c.(xstore))) :: delete i c.(xrunning)) c.(xfinished))
| x_stmt c i o own B f k (seen : bool) : c.(xrunning) !! i = Some (o, own, Stmt B f k) ->
    let r := f c.(xstore) in
    xstep c (mkXConfig r.2 ((c.(xstore), r.2) :: c.(log)) ((o, (c.(xstore), r.2) :: own, k (if seen then Some r.1 else None)) :: delete i c.(xrunning)) c.(xfinished))
| x_fault c i o own (B : Set) (f : S -> B * S) k : c.(xrunning) !! i = Some (o, own, Stmt B f k) ->
    xstep c (mkXConfig c.(xstore) c.(log) ((o, own, k None) :: delete i c.(xrunning)) c.(xfinished))
| x_end c i o own a : c.(xrunning) !! i = Some (o, own, Done a) ->
    xstep c (mkXConfig c.(xstore) c.(log) (delete i c.(xrunning)) ((o, own, a) :: c.(xfinished)))
| x_crash c i : xstep c (mkXConfig c.(xstore) c.(log) (delete i c.(xrunning)) c.(xfinished)).
Definition xreachable (s : S) (c : XConfig) : Prop := rtc xstep (mkXConfig s [] [] []) c.

(** Schedules: with [xperform] a run can be evaluated. *)
Context {W : Type} (world : W -> S -> S).
Definition xperform (c : XConfig) (a : act (Op := Op) W) : XConfig :=
  match a with
  | AEnv e => mkXConfig (world e c.(xstore)) c.(log) c.(xrunning) c.(xfinished)
  | AStart o => mkXConfig c.(xstore) c.(log) ((o, [], exec o) :: c.(xrunning)) c.(xfinished)
  | ARun i | ALost i =>
      match c.(xrunning) !! i with
      | None => c
      | Some (o, own, Done a) => mkXConfig c.(xstore) c.(log) (delete i c.(xrunning)) ((o, own, a) :: c.(xfinished))
      | Some (o, own, Now k) => mkXConfig c.(xstore) c.(log) ((o, own, k (clock c.(xstore))) :: delete i c.(xrunning)) c.(xfinished)
      | Some (o, own, Stmt B f k) =>
          let r := f c.(xstore) in
          let seen := match a with ARun _ => true | _ => false end in
          mkXConfig r.2 ((c.(xstore), r.2) :: c.(log)) ((o, (c.(xstore), r.2) :: own, k (if seen then Some r.1 else None)) :: delete i c.(xrunning)) c.(xfinished)
      end
  | AFault i =>
      match c.(xrunning) !! i with
      | Some (o, own, Stmt B f k) => mkXConfig c.(xstore) c.(log) ((o, own, k None) :: delete i c.(xrunning)) c.(xfinished)
      | _ => c
      end
  end.
Definition starts_allowed (a : act (Op := Op) W) : Prop := match a with AStart o => allowed o | _ => True end.
Lemma xperform_step c a : (forall e s, env s (world e s)) -> starts_allowed a -> rtc xstep c (xperform c a).
Proof.
  intros He. destruct a as [e|o|i|i|i]; intros Ha; cbn.
  - apply rtc_once. by constructor.
  - apply rtc_once. by constructor.
  - destruct (xrunning c !! i) as [[[o own] [a|k|B f k]]|] eqn:H; [| | |done]; apply rtc_once; [by econstructor|by econstructor|by apply (x_stmt c i o own B f k true)].
  - destruct (xrunning c !! i) as [[[o own] [a|k|B f k]]|] eqn:H; [| | |done]; apply rtc_once; [by econstructor|by econstructor|by apply (x_stmt c i o own B f k false)].
  - destruct (xrunning c !! i) as [[[o own] [a|k|B f k]]|] eqn:H; try done. apply rtc_once. by eapply x_fault.
Qed.
Lemma xschedule_reachable s acts : (forall e s, env s (world e s)) -> Forall starts_allowed acts -> xreachable s (foldl xperform (mkXConfig s [] [] []) acts).
Proof.
  intros He Ha. unfold xreachable. generalize (mkXConfig s [] [] []). induction Ha as [|a acts Ha _ IH]; intros c; [done|]. cbn. etransitivity; [by apply xperform_step|apply IH].
Qed.

(** ** Changes that happen once *)

Context {K : Type} (J : S -> Prop) (fires : K -> S -> S -> bool) (dead : K -> S -> Prop).
(** What a single statement may do. *)
Definition lawful (s s' : S) : Prop :=
  J s' /\ (forall k, dead k s -> dead k s') /\ (forall k, fires k s s' = true -> ~ dead k s /\ dead k s').
(** A program all of whose statements are lawful, and what it ends with. *)
Fixpoint follows {A} (own : list (S * S)) (p : prog S A) (Q : list (S * S) -> A -> Prop) : Prop :=
  match p with
  | Done a => Q own a
  | Now k => forall t, follows own (k t) Q
  | Stmt B f k => (forall s, J s -> lawful s (f s).2 /\ follows ((s, (f s).2) :: own) (k (Some (f s).1)) Q /\ follows ((s, (f s).2) :: own) (k None) Q) /\ follows own (k None) Q
  end.
Lemma follows_mono {A} own (p : prog S A) (Q Q' : list (S * S) -> A -> Prop) : follows own p Q -> (forall l a, Q l a -> Q' l a) -> follows own p Q'.
Proof.
  intros Hp HQ. revert own Hp. induction p as [a|k IH|B f k IH]; intros own Hp; cbn in *; [auto|auto|]. destruct Hp as [Hp Hn]. split; [|auto]. intros s Hs. destruct (Hp s Hs) as (H1 & H2 & H3). auto.
Qed.
Lemma follows_bind {A B} own (p : prog S A) (q : A -> prog S B) Q : follows own p (fun l a => follows l (q a) Q) -> follows own (pbind p q) Q.
Proof.
  revert own. induction p as [a|k IH|C f k IH]; intros own Hp; cbn in *; [done|auto|]. destruct Hp as [Hp Hn]. split; [|auto]. intros s Hs. destruct (Hp s Hs) as (H1 & H2 & H3). auto.
Qed.
Lemma follows_then {A B} own (p : prog S A) (q : A -> prog S B) P Q : follows own p P -> (forall l a, P l a -> follows l (q a) Q) -> follows own (pbind p q) Q.
Proof. intros Hp Hq. apply follows_bind. by eapply follows_mono. Qed.

(** The changes a process made stay. *)
Lemma follows_grow {A} own (p : prog S A) Q : follows own p Q -> follows own p (fun l a => Q l a /\ own ⊆ l).
Proof.
  revert own. induction p as [a|k IH|B f k IH]; intros own Hp; cbn in *; [done|auto|]. destruct Hp as [Hp Hn]. split; [|auto]. intros s Hs. destruct (Hp s Hs) as (H1 & H2 & H3).
  split; [done|]. split; (eapply follows_mono; [by apply IH|]); intros l a [Hl Hs']; (split; [done|]; intros z Hz; apply Hs'; by right).
Qed.
Definition fired (k : K) (l : list (S * S)) : list (S * S) := filter (fun t => fires k t.1 t.2 = true) l.
#[local] Arguments fired : simpl never.
Definition wins (k : K) (own : list (S * S)) : Prop := exists s s', (s, s') ∈ own /\ fires k s s' = true.
Lemma wins_fired k own : wins k own -> (1 <= length (fired k own))%nat.
Proof.
  intros (s & s' & Hin & Hf). assert ((s, s') ∈ fired k own) as H by (apply list_elem_of_filter; done). destruct (fired k own); [by apply not_elem_of_nil in H|cbn; lia].
Qed.

Lemma wins_mono k l l' : l ⊆ l' -> wins k l -> wins k l'.
Proof. intros Hl (s & s' & Hin & Hf). exists s, s'. auto. Qed.

Context (post : Op -> list (S * S) -> R -> Prop).
Hypothesis exec_ok : forall o, allowed o -> follows [] (exec o) (post o).
Hypothesis env_ok : forall s s', env s s' -> J s -> J s' /\ forall k, dead k s -> dead k s'.

Definition owns (c : XConfig) : list (S * S) := concat ((fun x => x.1.2) <$> c.(xrunning)) ++ concat ((fun x => x.1.2) <$> c.(xfinished)).
Record xok (c : XConfig) : Prop := {
  xo_J : J c.(xstore);
  xo_run : Forall (fun x => follows x.1.2 x.2 (post x.1.1)) c.(xrunning);
  xo_fin : Forall (fun x => post x.1.1 x.1.2 x.2) c.(xfinished);
  xo_own k : (length (fired k (owns c)) <= length (fired k c.(log)))%nat;
  xo_once k : (length (fired k c.(log)) <= 1)%nat;
  xo_dead k : length (fired k c.(log)) = 1%nat -> dead k c.(xstore)
}.
Lemma fired_app k l l' : length (fired k (l ++ l')) = (length (fired k l) + length (fired k l'))%nat.
Proof. unfold fired. by rewrite filter_app, length_app. Qed.
Lemma fired_cons k s s' l : length (fired k ((s, s') :: l)) = ((if fires k s s' then 1 else 0) + length (fired k l))%nat.
Proof. unfold fired. rewrite filter_cons. cbn [fst snd]. destruct (fires k s s'); [by rewrite decide_True|by rewrite decide_False]. Qed.
(** The changes of the process at [i], and of the others. *)
Lemma fired_pick {X} k (f : X -> list (S * S)) (l : list X) i x : l !! i = Some x ->
  length (fired k (concat (f <$> l))) = (length (fired k (f x)) + length (fired k (concat (f <$> delete i l))))%nat.
Proof.
  revert i. induction l as [|y l IH]; intros i Hi; [done|]. destruct i as [|i]; cbn in *; rewrite fired_app; [by injection Hi as ->|]. rewrite (IH i Hi). change (concat (f <$> y :: delete i l)) with (f y ++ concat (f <$> delete i l)). rewrite fired_app, !Nat.add_assoc. f_equal. apply Nat.add_comm.
Qed.
Lemma fired_delete {X} k (f : X -> list (S * S)) (l : list X) i : (length (fired k (concat (f <$> delete i l))) <= length (fired k (concat (f <$> l))))%nat.
Proof. revert i. induction l as [|y l IH]; intros [|i]; cbn; rewrite ?fired_app; [done|done|lia|]. apply Nat.add_le_mono_l, IH. Qed.
Lemma xstep_ok c c' : xstep c c' -> xok c -> xok c'.
Proof.
  destruct 1 as [c s He|c o Ho|c i o own k Hi|c i o own B f k seen Hi|c i o own B f k Hi|c i o own a Hi|c i]; intros [H1 H2 H3 H4 H5 H6].
  - destruct (env_ok _ _ He H1) as [HJ Hd]. split; [done|done|done|exact H4|done|]. cbn. auto.
  - split; cbn; [done| |done|exact H4|done|done]. constructor; [by apply exec_ok|done].
  - pose proof (Forall_lookup_1 _ _ _ _ H2 Hi) as Hp. split; cbn; [done| |done| |done|done].
    + constructor; [apply Hp|by apply Forall_delete].
    + intros k0. specialize (H4 k0). unfold owns in *. cbn in *. rewrite !fired_app in *. rewrite (fired_pick k0 (fun x => x.1.2) _ _ _ Hi) in H4. cbn in H4. lia.
  - pose proof (Forall_lookup_1 _ _ _ _ H2 Hi) as Hp. destruct Hp as [Hp _]. destruct (Hp _ H1) as ((HJ & Hd & Hf) & Hk1 & Hk2). unfold r. split; cbn [xstore log xrunning xfinished].
    + exact HJ.
    + constructor; [cbn; by destruct seen|by apply Forall_delete].
    + done.
    + intros k0. specialize (H4 k0). unfold owns in *. cbn in *. rewrite !fired_app in *. rewrite (fired_pick k0 (fun x => x.1.2) _ _ _ Hi) in H4. cbn in H4. rewrite !fired_cons, !fired_app. lia.
    + intros k0. rewrite fired_cons. specialize (H5 k0). specialize (H6 k0). destruct (fires k0 _ _) eqn:E; [|lia]. destruct (Hf k0 E) as [Hnd _]. destruct (Nat.eq_dec (length (fired k0 (log c))) 1) as [E1|E1]; [by destruct Hnd; apply H6|]. lia.
    + intros k0. rewrite fired_cons. destruct (fires k0 _ _) eqn:E; [intros _; by apply Hf|]. intros E1. apply Hd, H6, E1.
  - pose proof (Forall_lookup_1 _ _ _ _ H2 Hi) as Hp. destruct Hp as [_ Hp]. split; cbn; [done| |done| |done|done].
    + constructor; [done|by apply Forall_delete].
    + intros k0. specialize (H4 k0). unfold owns in *. cbn in *. rewrite !fired_app in *. rewrite (fired_pick k0 (fun x => x.1.2) _ _ _ Hi) in H4. cbn in H4. lia.
  - pose proof (Forall_lookup_1 _ _ _ _ H2 Hi) as Hp. split; cbn; [done|by apply Forall_delete| | |done|done].
    + constructor; [exact Hp|done].
    + intros k0. specialize (H4 k0). unfold owns in *. cbn in *. rewrite !fired_app in *. rewrite (fired_pick k0 (fun x => x.1.2) _ _ _ Hi) in H4. cbn in H4. lia.
  - split; cbn; [done|by apply Forall_delete|done| |done|done]. intros k0. specialize (H4 k0). unfold owns in *. cbn. rewrite !fired_app in *. pose proof (fired_delete k0 (fun x => x.1.2) (xrunning c) i). lia.
Qed.
Lemma xreachable_ok s c : J s -> xreachable s c -> xok c.
Proof.
  intros Hs Hr. unfold xreachable in Hr. assert (xok (mkXConfig s [] [] [])) as H0 by (split; cbn; [done|apply Forall_nil_2|apply Forall_nil_2|done|unfold fired; cbn; lia|done]).
  induction Hr as [|c1 c2 c3 H1 _ IH]; [done|]. apply IH. by eapply xstep_ok.
Qed.
(** No two processes that ended made the same change. *)
Lemma one_winner s c k i j oi oj owni ownj ai aj : J s -> xreachable s c -> i <> j ->
  c.(xfinished) !! i = Some (oi, owni, ai) -> c.(xfinished) !! j = Some (oj, ownj, aj) -> wins k owni -> wins k ownj -> False.
Proof.
  intros Hs Hr Hij Hi Hj Wi Wj. destruct (xreachable_ok s c Hs Hr) as [_ _ _ H4 H5 _]. specialize (H4 k). specialize (H5 k). apply wins_fired in Wi, Wj. unfold owns in H4. rewrite fired_app in H4.
  rewrite (fired_pick k (fun x => x.1.2) _ _ _ Hi) in H4. cbn in H4.
  assert (exists j', delete i (xfinished c) !! j' = Some (oj, ownj, aj)) as [j' Hj'].
  { destruct (decide (j < i)%nat); [exists j; by rewrite list_lookup_delete_lt|]. exists (j - 1)%nat. rewrite list_lookup_delete_ge by lia. by replace (Datatypes.S (j - 1)) with j by lia. }
  rewrite (fired_pick k (fun x => x.1.2) _ _ _ Hj') in H4. cbn in H4. lia.
Qed.
Lemma finished_follows s c i o own a : J s -> xreachable s c -> c.(xfinished) !! i = Some (o, own, a) -> post o own a.
Proof. intros Hs Hr Hi. destruct (xreachable_ok s c Hs Hr) as [_ _ H3 _ _ _]. exact (Forall_lookup_1 _ _ _ _ H3 Hi). Qed.
End exclusive.
