(* ===== verification/Session.v ===== *)
(** * Login sessions (model/user_session.go, service/auth_session.go)

    A session is a row of the database with a snapshot in Redis, and a chain of refresh
    tokens.  Every operation is a program of single statements of the database or of Redis
    (Steps).  The digest that keys a snapshot is taken to tell sessions apart, so the key is
    the session's id.  Times are nanoseconds; those of a row are seconds and those of Redis
    milliseconds, as in the code. *)

From stdpp Require Import base tactics numbers list gmap strings sorting.
From Stdlib Require Import ZArith Lia.
From S2P Require Import Prelude Steps.
Open Scope Z_scope.
Open Scope steps_scope.

Definition second : Z := 1000000000.
Definition millisecond : Z := 1000000.
Definition Unix (t : Z) : Z := t / second.
Definition UnixMilli (t : Z) : Z := t / millisecond.

(** ** Data *)

Definition UserSessionStatusActive : string := "active".
Definition UserSessionStatusRevoking : string := "revoking".
Definition UserSessionStatusRevoked : string := "revoked".
Definition userSessionCacheSchema : Z := 1.
Definition userSessionRevokeBatchSize : nat := 500.
Definition userSessionCleanupScanLimit : nat := 1000.
Definition userSessionCleanupBatchSize : nat := 500.
Definition UserStatusEnabled : Z := 1.

Inductive SErr :=
| ErrUserSessionInvalid | ErrUserSessionInactive | ErrUserSessionRefreshInvalid | ErrUserSessionRefreshRace | ErrUserSessionRefreshReuse
| ErrUserSessionLimit | ErrUserSessionIssuanceLimit | errUserSessionCacheObservationStale
| ErrLoginSessionInvalid | ErrLoginSessionRevoked | ErrLoginSessionMismatch | ErrRefreshTokenInvalid | ErrRefreshRace | ErrAuthTokenInvalid
| ErrRecordNotFound | ErrDuplicateKey | ErrDatabase | ErrRedis | ErrCacheMiss | ErrCacheSchema | ErrStillRunning.
#[export] Instance SErr_eq_dec : EqDecision SErr.
Proof. solve_decision. Defined.
Definition res (A : Type) : Type := SErr + A.

Record UserSession := mkUserSession {
  se_SID : string;
  se_UserID : Z;
  se_Version : Z;
  se_UserAuthVersion : Z;
  se_Status : string;
  se_RefreshHash : string;
  se_PreviousRefreshHash : string;
  se_PreviousValidUntil : Z;
  se_LoginMethod : string;
  se_IP : string;
  se_UserAgent : string;
  se_CreatedAt : Z;
  se_LastActiveAt : Z;
  se_ExpiresAt : Z;
  se_RevokedAt : Z;
  se_RevokedReason : string
}.
Record userSessionCacheEntry := mkEntry {
  en_SID : string;
  en_UserID : Z;
  en_Version : Z;
  en_UserAuthVersion : Z;
  en_Status : string;
  en_LoginMethod : string;
  en_IP : string;
  en_UserAgent : string;
  en_CreatedAt : Z;
  en_LastActiveAt : Z;
  en_ExpiresAt : Z;
  en_RevokedAt : Z;
  en_RevokedReason : string;
  en_CacheSchema : Z
}.
Definition AfterFind (r : UserSession) : UserSession :=
  mkUserSession r.(se_SID) r.(se_UserID) r.(se_Version) r.(se_UserAuthVersion) r.(se_Status) r.(se_RefreshHash) (TrimSpace r.(se_PreviousRefreshHash))
    r.(se_PreviousValidUntil) r.(se_LoginMethod) r.(se_IP) r.(se_UserAgent) r.(se_CreatedAt) r.(se_LastActiveAt) r.(se_ExpiresAt) r.(se_RevokedAt) r.(se_RevokedReason).
Definition cacheEntry (r : UserSession) : userSessionCacheEntry :=
  mkEntry r.(se_SID) r.(se_UserID) r.(se_Version) r.(se_UserAuthVersion) r.(se_Status) r.(se_LoginMethod) r.(se_IP) r.(se_UserAgent)
    r.(se_CreatedAt) r.(se_LastActiveAt) r.(se_ExpiresAt) r.(se_RevokedAt) r.(se_RevokedReason) userSessionCacheSchema.
Definition entry_session (e : userSessionCacheEntry) : UserSession :=
  mkUserSession e.(en_SID) e.(en_UserID) e.(en_Version) e.(en_UserAuthVersion) e.(en_Status) "" "" 0 e.(en_LoginMethod) e.(en_IP) e.(en_UserAgent)
    e.(en_CreatedAt) e.(en_LastActiveAt) e.(en_ExpiresAt) e.(en_RevokedAt) e.(en_RevokedReason).
Definition set_revoked (status : string) (now : Z) (reason : string) (r : UserSession) : UserSession :=
  mkUserSession r.(se_SID) r.(se_UserID) r.(se_Version) r.(se_UserAuthVersion) status r.(se_RefreshHash) r.(se_PreviousRefreshHash)
    r.(se_PreviousValidUntil) r.(se_LoginMethod) r.(se_IP) r.(se_UserAgent) r.(se_CreatedAt) r.(se_LastActiveAt) r.(se_ExpiresAt) now reason.
Definition set_refresh (prev next : string) (until now : Z) (r : UserSession) : UserSession :=
  mkUserSession r.(se_SID) r.(se_UserID) r.(se_Version) r.(se_UserAuthVersion) r.(se_Status) next prev until r.(se_LoginMethod) r.(se_IP) r.(se_UserAgent)
    r.(se_CreatedAt) now r.(se_ExpiresAt) r.(se_RevokedAt) r.(se_RevokedReason).
Definition set_versions (v av now : Z) (r : UserSession) : UserSession :=
  mkUserSession r.(se_SID) r.(se_UserID) v av r.(se_Status) r.(se_RefreshHash) r.(se_PreviousRefreshHash) r.(se_PreviousValidUntil) r.(se_LoginMethod) r.(se_IP)
    r.(se_UserAgent) r.(se_CreatedAt) now r.(se_ExpiresAt) r.(se_RevokedAt) r.(se_RevokedReason).

(** What the code reads of a user. *)
Record UserAuth := mkUserAuth { ua_Status : Z; ua_AuthVersion : Z }.
Record AuthSessionIdentity := mkIdentity { id_UserID : Z; id_SessionID : string; id_UserAuthVersion : Z; id_SessionVersion : Z }.
#[export] Instance AuthSessionIdentity_eq_dec : EqDecision AuthSessionIdentity.
Proof. solve_decision. Defined.

(** ** The store *)

(** Rows by id, snapshots with the millisecond they live to, users as the cache of users
    answers and as the database has them, and the clock. *)
Record SState := mkSState {
  ss_rows : gmap string UserSession;
  ss_cache : gmap string (userSessionCacheEntry * Z);
  ss_user_cache : gmap Z UserAuth;
  ss_users : gmap Z UserAuth;
  ss_clock : Z
}.
Definition set_rows (f : gmap string UserSession -> gmap string UserSession) (s : SState) : SState :=
  mkSState (f s.(ss_rows)) s.(ss_cache) s.(ss_user_cache) s.(ss_users) s.(ss_clock).
Definition set_cache (f : gmap string (userSessionCacheEntry * Z) -> gmap string (userSessionCacheEntry * Z)) (s : SState) : SState :=
  mkSState s.(ss_rows) (f s.(ss_cache)) s.(ss_user_cache) s.(ss_users) s.(ss_clock).
Definition sprog (A : Type) : Type := prog SState A.
Definition time_Now : sprog Z := Now Done.

(** A key that has outlived its time is not there. *)
Definition live (s : SState) (sid : string) : option userSessionCacheEntry :=
  match s.(ss_cache) !! sid with
  | Some (e, when) => if UnixMilli s.(ss_clock) <=? when then Some e else None
  | None => None
  end.
Definition is_active (status : string) : bool := String.eqb status UserSessionStatusActive.
Definition is_deny (status : string) : bool := String.eqb status UserSessionStatusRevoking || String.eqb status UserSessionStatusRevoked.
(** The script of [writeUserSessionCache]. *)
Definition cache_script (e : userSessionCacheEntry) (expiration : Z) (s : SState) : bool * SState :=
  let now := UnixMilli s.(ss_clock) in
  let current := live s e.(en_SID) in
  if is_active e.(en_Status) && match current with Some c => is_deny c.(en_Status) | None => false end then (false, s)
  else if e.(en_Version) <? match current with Some c => c.(en_Version) | None => 0 end then (false, s)
  else
    let when := if is_active e.(en_Status) then expiration else now + expiration in
    (true, set_cache (fun m => if when <=? now then delete e.(en_SID) m else <[e.(en_SID) := (e, when)]> m) s).
Definition hgetall (sid : string) (s : SState) : option userSessionCacheEntry * SState := (live s sid, s).

Definition find_row (p : UserSession -> bool) (sid : string) (s : SState) : option UserSession * SState :=
  (match s.(ss_rows) !! sid with Some r => if p r then Some (AfterFind r) else None | None => None end, s).
Definition create_row (r : UserSession) (s : SState) : bool * SState :=
  match s.(ss_rows) !! r.(se_SID) with Some _ => (false, s) | None => (true, set_rows (insert r.(se_SID) r) s) end.
(** [RowsAffected] with the update, of one row and of a list of rows. *)
Definition update_row (p : UserSession -> bool) (f : UserSession -> UserSession) (sid : string) (s : SState) : Z * SState :=
  match s.(ss_rows) !! sid with
  | Some r => if p r then (1, set_rows (insert sid (f r)) s) else (0, s)
  | None => (0, s)
  end.
Definition update_rows (p : UserSession -> bool) (f : UserSession -> UserSession) (sids : list string) (s : SState) : Z * SState :=
  (Z.of_nat (length (filter (fun kr => kr.1 ∈ sids /\ p kr.2 = true) (map_to_list s.(ss_rows)))),
   set_rows (map_imap (fun k r => Some (if bool_decide (k ∈ sids) && p r then f r else r))) s).
Definition rows_where (p : UserSession -> bool) (s : SState) : list UserSession := filter (fun r => p r = true) (map_to_list s.(ss_rows)).*2.
Definition count_rows (p : UserSession -> bool) (s : SState) : Z * SState := (Z.of_nat (length (rows_where p s)), s).
(** Rows in an order, the first [n]. *)
Definition by_sid (a b : UserSession) : Prop := String.leb a.(se_SID) b.(se_SID) = true.
#[export] Instance by_sid_dec : RelDecision by_sid.
Proof. intros a b. unfold by_sid. apply _. Defined.
Definition by_key (key : UserSession -> Z) (a b : UserSession) : Prop := key a <= key b.
#[export] Instance by_key_dec key : RelDecision (by_key key).
Proof. intros a b. unfold by_key. apply _. Defined.
Definition first_rows (R : UserSession -> UserSession -> Prop) `{!RelDecision R} (n : nat) (p : UserSession -> bool) (s : SState) : list UserSession * SState :=
  (AfterFind <$> take n (merge_sort R (rows_where p s)), s).
Definition delete_rows (p : UserSession -> bool) (sids : list string) (s : SState) : unit * SState :=
  (tt, set_rows (filter (fun kr => ~ (kr.1 ∈ sids /\ p kr.2 = true))) s).

(** ** Settings *)

(** The settings, and the keyed digests of service/auth_session.go. *)
Class SessionConfig := {
  RedisEnabled : bool;
  userCacheTTLSeconds : Z;
  UserSessionActiveLimit : Z;
  UserSessionIssuanceLimit : Z;
  UserSessionIssuanceWindowSeconds : Z;
  UserSessionRevokedRetentionDays : Z;
  hashRefreshSecret : string -> string;
  deriveNextRefreshSecret : string -> string -> string;
  uuid_ok : string -> bool
}.
Definition LoginSessionTTL : Z := 30 * 24 * 3600.
Definition RefreshReplayWindow : Z := 30 * second.

Section session.
Context `{SC : SessionConfig}.

(** An error ends the operation. *)
Definition try_ {A B} (p : sprog (res A)) (q : A -> sprog (res B)) : sprog (res B) :=
  let* r := p in match r with inl e => Done (inl e) | inr a => q a end.
(** A statement of the database. *)
Definition db {B : Set} (f : SState -> B * SState) : sprog (res B) :=
  let* r := stmt f in match r with None => Done (inl ErrDatabase) | Some b => Done (inr b) end.
(** [First]: no row is an error. *)
Definition first {B : Set} (f : SState -> option B * SState) : sprog (res B) :=
  try_ (db f) (fun r => Done (match r with None => inl ErrRecordNotFound | Some b => inr b end)).
Definition userSessionCacheDeadline : sprog Z := let* now := time_Now in Done (now + userCacheTTLSeconds * second).

(** ** Snapshots *)

(** The expiration a snapshot is written with: a point in time for an active one, a span
    for a denial. *)
Definition expiration_of (e : userSessionCacheEntry) (deadline : option Z) (now : Z) : res Z :=
  let sessionExpiresAt := e.(en_ExpiresAt) * second in
  let sessionTTL := sessionExpiresAt - now in
  if is_active e.(en_Status) then
    match deadline with
    | None => inl ErrUserSessionInvalid
    | Some d =>
        if d - now <=? 0 then inl errUserSessionCacheObservationStale
        else if sessionTTL <=? 0 then inl ErrUserSessionInactive
        else let x := if sessionExpiresAt <? d then sessionExpiresAt else d in
             if x - now <? millisecond then inl errUserSessionCacheObservationStale else inr (UnixMilli x)
    end
  else
    let ttl := Z.min sessionTTL (userCacheTTLSeconds * second) in
    let ttl := if ttl <=? 0 then second else ttl in
    let ms := ttl / millisecond in inr (if ms <=? 0 then 1 else ms).
Definition writeUserSessionCache (e : userSessionCacheEntry) (deadline : option Z) : sprog (res unit) :=
  if negb RedisEnabled then Done (inr tt)
  else
    let* now := time_Now in
    match expiration_of e deadline now with
    | inl err => Done (inl err)
    | inr expiration =>
        let* r := stmt (cache_script e expiration) in
        match r with
        | None => Done (inl ErrRedis)
        | Some false => Done (inl ErrUserSessionInactive)
        | Some true =>
            if is_active e.(en_Status) then
              let* completedAt := time_Now in
              Done (if negb (completedAt <? default 0 deadline) then inl errUserSessionCacheObservationStale
                    else if negb (completedAt <? e.(en_ExpiresAt) * second) then inl ErrUserSessionInactive else inr tt)
            else Done (inr tt)
        end
    end.
Definition confirmUserSessionActiveSnapshot (r : UserSession) : sprog (res unit) :=
  if String.eqb r.(se_SID) "" || (r.(se_UserID) <=? 0) || (r.(se_Version) <=? 0) || (r.(se_UserAuthVersion) <=? 0) then Done (inl ErrUserSessionInvalid)
  else
    let* now := time_Now in
    try_ (db (count_rows (fun x => String.eqb x.(se_SID) r.(se_SID) && (x.(se_UserID) =? r.(se_UserID)) && is_active x.(se_Status) && (x.(se_RevokedAt) =? 0)
                && (Unix now <? x.(se_ExpiresAt)) && (x.(se_Version) =? r.(se_Version)) && (x.(se_UserAuthVersion) =? r.(se_UserAuthVersion)))))
      (fun n => Done (if n =? 1 then inr tt else inl ErrUserSessionInactive)).
(** The row that was read or written is published; a stale observation is confirmed. *)
Definition publish (r : UserSession) (deadline : Z) (other : SErr -> res unit) : sprog (res unit) :=
  let* w := writeUserSessionCache (cacheEntry r) (Some deadline) in
  match w with
  | inr _ => Done (inr tt)
  | inl errUserSessionCacheObservationStale => confirmUserSessionActiveSnapshot r
  | inl e => Done (other e)
  end.
(** Other errors than an inactive session are only logged. *)
Definition inactive_only (e : SErr) : res unit := match e with ErrUserSessionInactive => inl e | _ => inr tt end.
Definition publishCreatedUserSession (r : UserSession) (deadline : Z) : sprog (res unit) := publish r deadline inactive_only.
Definition writeUserSessionDenyFence (r : UserSession) (status : string) (now : Z) (reason : string) : sprog (res unit) :=
  if negb RedisEnabled then Done (inr tt) else writeUserSessionCache (cacheEntry (set_revoked status now reason r)) None.

(** ** Creation and lookup *)

Definition createUserSessionWithTx (r : UserSession) : sprog (res UserSession) :=
  let* t := time_Now in
  let now := Unix t in
  if String.eqb r.(se_SID) "" || (r.(se_UserID) <=? 0) || (r.(se_UserAuthVersion) <=? 0) || String.eqb r.(se_RefreshHash) "" || (r.(se_ExpiresAt) <=? now)
  then Done (inl ErrUserSessionInvalid)
  else
    let version := if r.(se_Version) <=? 0 then 1 else r.(se_Version) in
    let status := if String.eqb r.(se_Status) "" then UserSessionStatusActive else r.(se_Status) in
    if negb (is_active status) || negb (r.(se_RevokedAt) =? 0) then Done (inl ErrUserSessionInvalid)
    else
      let r := mkUserSession r.(se_SID) r.(se_UserID) version r.(se_UserAuthVersion) status r.(se_RefreshHash) r.(se_PreviousRefreshHash) r.(se_PreviousValidUntil)
                 r.(se_LoginMethod) r.(se_IP) r.(se_UserAgent) (if r.(se_CreatedAt) =? 0 then now else r.(se_CreatedAt))
                 (if r.(se_LastActiveAt) =? 0 then now else r.(se_LastActiveAt)) r.(se_ExpiresAt) r.(se_RevokedAt) r.(se_RevokedReason) in
      try_ (db (create_row r)) (fun ok => Done (if ok : bool then inr r else inl ErrDuplicateKey)).
Definition CreateUserSession (r : UserSession) : sprog (res UserSession) :=
  let* deadline := userSessionCacheDeadline in
  try_ (createUserSessionWithTx r) (fun r => try_ (publishCreatedUserSession r deadline) (fun _ => Done (inr r))).
Definition or_now (now : Z) : sprog Z := if now <=? 0 then let* t := time_Now in Done (Unix t) else Done now.
Definition CountActiveUserSessions (userID now : Z) : sprog (res Z) :=
  if userID <=? 0 then Done (inl ErrUserSessionInvalid)
  else let* now := or_now now in db (count_rows (fun r => (r.(se_UserID) =? userID) && is_active r.(se_Status) && (now <? r.(se_ExpiresAt)))).
Definition CountUserSessionsCreatedSince (userID createdAfter : Z) : sprog (res Z) :=
  if (userID <? 0) || (createdAfter <=? 0) then Done (inl ErrUserSessionInvalid)
  else db (count_rows (fun r => (createdAfter <? r.(se_CreatedAt)) && ((userID <=? 0) || (r.(se_UserID) =? userID)))).
Definition GetUserSessionBySID (sid : string) : sprog (res UserSession) :=
  if String.eqb sid "" then Done (inl ErrUserSessionInvalid) else first (find_row (fun _ => true) sid).
Definition getUserSessionCache (sid : string) : sprog (res userSessionCacheEntry) :=
  let* r := stmt (hgetall sid) in
  match r with
  | None => Done (inl ErrRedis)
  | Some None => Done (inl ErrCacheMiss)
  | Some (Some e) =>
      if negb (e.(en_CacheSchema) =? userSessionCacheSchema) || negb (String.eqb e.(en_SID) sid) || (e.(en_UserID) <=? 0) || (e.(en_Version) <=? 0) || (e.(en_UserAuthVersion) <=? 0)
      then Done (inl ErrCacheSchema)
      else
        let* now := time_Now in
        Done (if negb (is_active e.(en_Status)) || negb (e.(en_RevokedAt) =? 0) || (e.(en_ExpiresAt) <=? Unix now) then inl ErrUserSessionInactive else inr e)
  end.
Definition inactive_row (r : UserSession) (now : Z) : bool := negb (is_active r.(se_Status)) || negb (r.(se_RevokedAt) =? 0) || (r.(se_ExpiresAt) <=? now).
(** The database behind the cache. *)
Definition session_from_db (sid : string) : sprog (res UserSession) :=
  let* deadline := userSessionCacheDeadline in
  try_ (GetUserSessionBySID sid) (fun r =>
    let* now := time_Now in
    if inactive_row r (Unix now) then
      let* _ := writeUserSessionCache (cacheEntry (set_revoked UserSessionStatusRevoked r.(se_RevokedAt) r.(se_RevokedReason) r)) None in
      Done (inl ErrUserSessionInactive)
    else if RedisEnabled then try_ (publish r deadline inactive_only) (fun _ => Done (inr r))
    else Done (inr r)).
Definition GetUserSessionCached (sid : string) : sprog (res UserSession) :=
  if String.eqb sid "" then Done (inl ErrUserSessionInvalid)
  else if RedisEnabled then
    let* c := getUserSessionCache sid in
    match c with
    | inr e => Done (inr (entry_session e))
    | inl ErrUserSessionInactive => Done (inl ErrUserSessionInactive)
    | inl _ => session_from_db sid
    end
  else session_from_db sid.

(** ** Refresh tokens *)

(** The answer of a rotation in Go's two values: a race comes with the session. *)
Definition rotate_result : Type := option UserSession * option SErr.
Definition rfail (e : SErr) : sprog rotate_result := Done (None, Some e).
(** A known previous token outside its window: the family is revoked. *)
Definition refresh_reused (userID : Z) (sid : string) (now : Z) (r : UserSession) : sprog rotate_result :=
  let* f := writeUserSessionDenyFence r UserSessionStatusRevoking now "refresh_reuse" in
  match f with
  | inl e => rfail e
  | inr _ =>
      let* u := db (update_row (fun x => (x.(se_UserID) =? userID) && is_active x.(se_Status) && (x.(se_RevokedAt) =? 0) && (now <? x.(se_ExpiresAt)))
                      (set_revoked UserSessionStatusRevoked now "refresh_reuse") sid) in
      match u with
      | inl e => rfail e
      | inr n =>
          if n =? 0 then rfail ErrUserSessionInactive
          else let* _ := writeUserSessionCache (cacheEntry (set_revoked UserSessionStatusRevoked now "refresh_reuse" r)) None in rfail ErrUserSessionRefreshReuse
      end
  end.
Fixpoint rotate_loop (rounds : nat) (userID : Z) (sid presentedHash nextHash : string) (now graceSeconds : Z) : sprog rotate_result :=
  match rounds with
  | O => rfail ErrUserSessionRefreshInvalid
  | S rounds =>
      let* deadline := userSessionCacheDeadline in
      let* f := first (find_row (fun x => x.(se_UserID) =? userID) sid) in
      match f with
      | inl e => rfail e
      | inr r =>
          if inactive_row r now then rfail ErrUserSessionInactive
          else if String.eqb r.(se_RefreshHash) presentedHash then
            let* u := db (update_row (fun x => (x.(se_UserID) =? userID) && is_active x.(se_Status) && (x.(se_RevokedAt) =? 0) && (now <? x.(se_ExpiresAt)) && String.eqb x.(se_RefreshHash) presentedHash)
                            (set_refresh r.(se_RefreshHash) nextHash (now + graceSeconds) now) sid) in
            match u with
            | inl e => rfail e
            | inr n =>
                if n =? 0 then rotate_loop rounds userID sid presentedHash nextHash now graceSeconds
                else
                  let r := set_refresh r.(se_RefreshHash) nextHash (now + graceSeconds) now r in
                  let* p := publish r deadline inactive_only in
                  match p with inl e => rfail e | inr _ => Done (Some r, None) end
            end
          else if String.eqb r.(se_PreviousRefreshHash) "" || negb (String.eqb r.(se_PreviousRefreshHash) presentedHash) then rfail ErrUserSessionRefreshInvalid
          else if now <=? r.(se_PreviousValidUntil) then Done (Some r, Some ErrUserSessionRefreshRace)
          else refresh_reused userID sid now r
      end
  end.
Definition RotateUserSessionRefresh (userID : Z) (sid presentedHash nextHash : string) (now grace : Z) : sprog rotate_result :=
  if (userID <=? 0) || String.eqb sid "" || String.eqb presentedHash "" || String.eqb nextHash "" || String.eqb presentedHash nextHash then rfail ErrUserSessionInvalid
  else
    let* now := or_now now in
    let graceSeconds := Z.quot grace second in
    if graceSeconds <? 0 then rfail ErrUserSessionInvalid else rotate_loop 3 userID sid presentedHash nextHash now graceSeconds.

(** ** Revocation *)

(** The denial that follows the row. *)
Definition finalize_revoke (r : UserSession) (now : Z) (reason : string) : sprog unit :=
  let* _ := writeUserSessionCache (cacheEntry (set_revoked UserSessionStatusRevoked now reason r)) None in Done tt.
Definition RevokeUserSession (userID : Z) (sid reason : string) : sprog (res bool) :=
  if (userID <=? 0) || String.eqb sid "" then Done (inl ErrUserSessionInvalid)
  else
    let* t := time_Now in
    let now := Unix t in
    let* f := first (find_row (fun x => x.(se_UserID) =? userID) sid) in
    match f with
    | inl ErrRecordNotFound => Done (inr false)
    | inl e => Done (inl e)
    | inr candidate =>
        if inactive_row candidate now then Done (inr false)
        else
          try_ (writeUserSessionDenyFence candidate UserSessionStatusRevoking now reason) (fun _ =>
          try_ (first (find_row (fun x => x.(se_UserID) =? userID) sid)) (fun current =>
          if inactive_row current now then Done (inr false)
          else
            try_ (db (update_row (fun x => is_active x.(se_Status)) (set_revoked UserSessionStatusRevoked now reason) sid)) (fun n =>
            if n =? 1 then let* _ := finalize_revoke candidate now reason in Done (inr true) else Done (inr false))))
    end.
Definition RevokeUserSessionByRefreshHash (sid presentedHash reason : string) : sprog (res bool) :=
  if String.eqb sid "" || String.eqb presentedHash "" then Done (inl ErrUserSessionInvalid)
  else
    let* t := time_Now in
    let now := Unix t in
    let* f := first (find_row (fun _ => true) sid) in
    match f with
    | inl ErrRecordNotFound => Done (inr false)
    | inl e => Done (inl e)
    | inr r =>
        let validCurrent := String.eqb r.(se_RefreshHash) presentedHash in
        let validPrevious := negb (String.eqb r.(se_PreviousRefreshHash) "") && (now <=? r.(se_PreviousValidUntil)) && String.eqb r.(se_PreviousRefreshHash) presentedHash in
        if inactive_row r now || (negb validCurrent && negb validPrevious) then Done (inr false)
        else
          try_ (writeUserSessionDenyFence r UserSessionStatusRevoking now reason) (fun _ =>
          try_ (db (update_row (fun x => is_active x.(se_Status)) (set_revoked UserSessionStatusRevoked now reason) sid)) (fun n =>
          if n =? 1 then let* _ := finalize_revoke r now reason in Done (inr true) else Done (inr false)))
    end.
Definition AdvanceUserSessionAuthVersion (userID : Z) (sid : string) (expectedSessionVersion expectedUserAuthVersion nextUserAuthVersion : Z) : sprog (res UserSession) :=
  if (userID <=? 0) || String.eqb sid "" || (expectedSessionVersion <=? 0) || (expectedUserAuthVersion <=? 0) || (nextUserAuthVersion <=? expectedUserAuthVersion)
  then Done (inl ErrUserSessionInvalid)
  else
    let* deadline := userSessionCacheDeadline in
    let* t := time_Now in
    let now := Unix t in
    try_ (first (find_row (fun x => x.(se_UserID) =? userID) sid)) (fun r =>
    if negb (is_active r.(se_Status)) || (r.(se_ExpiresAt) <=? now) || negb (r.(se_Version) =? expectedSessionVersion) || negb (r.(se_UserAuthVersion) =? expectedUserAuthVersion)
    then Done (inl ErrUserSessionInactive)
    else
      let r := set_versions (r.(se_Version) +! 1) nextUserAuthVersion now r in
      try_ (db (update_row (fun x => is_active x.(se_Status) && (x.(se_Version) =? expectedSessionVersion) && (x.(se_UserAuthVersion) =? expectedUserAuthVersion))
                  (set_versions r.(se_Version) r.(se_UserAuthVersion) r.(se_LastActiveAt)) sid)) (fun n =>
      if negb (n =? 1) then Done (inl ErrUserSessionInactive)
      else try_ (publish r deadline inl) (fun _ => Done (inr r)))).

Fixpoint fence_all (l : list UserSession) (now : Z) (reason : string) : sprog (res unit) :=
  match l with
  | [] => Done (inr tt)
  | r :: l => try_ (writeUserSessionDenyFence r UserSessionStatusRevoking now reason) (fun _ => fence_all l now reason)
  end.
Fixpoint finalize_all (l : list UserSession) (now : Z) (reason : string) : sprog unit :=
  match l with [] => Done tt | r :: l => let* _ := finalize_revoke r now reason in finalize_all l now reason end.
(** Rounds of at most 500 sessions until none is left. *)
Fixpoint revoke_rounds (rounds : nat) (userID : Z) (excludedSID reason : string) (now total : Z) : sprog (res Z) :=
  match rounds with
  | O => Done (inl ErrStillRunning)
  | S rounds =>
      try_ (db (first_rows by_sid userSessionRevokeBatchSize (fun r => (r.(se_UserID) =? userID) && is_active r.(se_Status) && (now <? r.(se_ExpiresAt)) && (String.eqb excludedSID "" || negb (String.eqb r.(se_SID) excludedSID)))))
        (fun candidates =>
      match candidates with
      | [] => Done (inr total)
      | _ =>
          try_ (fence_all candidates now reason) (fun _ =>
          try_ (db (first_rows by_sid userSessionRevokeBatchSize (fun r => bool_decide (r.(se_SID) ∈ (se_SID <$> candidates)) && is_active r.(se_Status)))) (fun revoked =>
          try_ (match revoked with
                | [] => Done (inr 0)
                | _ => db (update_rows (fun x => is_active x.(se_Status)) (set_revoked UserSessionStatusRevoked now reason) (se_SID <$> revoked))
                end) (fun affected =>
          let* _ := finalize_all revoked now reason in
          revoke_rounds rounds userID excludedSID reason now (total + affected))))
      end)
  end.
Definition revokeUserSessions (rounds : nat) (userID : Z) (excludedSID reason : string) : sprog (res Z) :=
  if userID <=? 0 then Done (inl ErrUserSessionInvalid) else let* t := time_Now in revoke_rounds rounds userID excludedSID reason (Unix t) 0.
Definition RevokeOtherUserSessions (rounds : nat) (userID : Z) (currentSID reason : string) : sprog (res Z) := revokeUserSessions rounds userID currentSID reason.
Definition RevokeAllUserSessions (rounds : nat) (userID : Z) (reason : string) : sprog (res Z) := revokeUserSessions rounds userID "" reason.

(** ** Clean-up *)

(** Rounds of at most 1000 sessions, deleted in batches of 500. *)
Fixpoint delete_rounds (rounds : nat) (key : UserSession -> Z) (p : UserSession -> bool) : sprog (res unit) :=
  match rounds with
  | O => Done (inl ErrStillRunning)
  | S rounds =>
      try_ (db (first_rows (by_key key) userSessionCleanupScanLimit p)) (fun l =>
      match se_SID <$> l with
      | [] => Done (inr tt)
      | sids =>
          try_ (db (delete_rows p (take userSessionCleanupBatchSize sids))) (fun _ =>
          try_ (match drop userSessionCleanupBatchSize sids with [] => Done (inr tt) | rest => db (delete_rows p rest) end) (fun _ =>
          delete_rounds rounds key p))
      end)
  end.
Definition expired_before (expiredBefore issuanceCutoff revokedBefore : Z) (r : UserSession) : bool :=
  (r.(se_ExpiresAt) <? expiredBefore) && (r.(se_CreatedAt) <=? issuanceCutoff)
  && (negb (String.eqb r.(se_Status) UserSessionStatusRevoked) || (r.(se_RevokedAt) <=? 0) || (r.(se_RevokedAt) <? revokedBefore)).
Definition revoked_before (revokedBefore issuanceCutoff : Z) (r : UserSession) : bool :=
  String.eqb r.(se_Status) UserSessionStatusRevoked && (0 <? r.(se_RevokedAt)) && (r.(se_RevokedAt) <? revokedBefore) && (r.(se_CreatedAt) <=? issuanceCutoff).
Definition DeleteExpiredUserSessions (rounds : nat) (now : Z) : sprog (res unit) :=
  let* now := or_now now in
  if (UserSessionRevokedRetentionDays <=? 0) || (UserSessionIssuanceWindowSeconds <=? 0) then Done (inl ErrUserSessionInvalid)
  else delete_rounds rounds se_ExpiresAt (expired_before now (now -! UserSessionIssuanceWindowSeconds) (now -! (UserSessionRevokedRetentionDays *! 86400))).
Definition DeleteOldRevokedUserSessions (rounds : nat) (now : Z) : sprog (res unit) :=
  let* now := or_now now in
  if (UserSessionRevokedRetentionDays <=? 0) || (UserSessionIssuanceWindowSeconds <=? 0) then Done (inl ErrUserSessionInvalid)
  else delete_rounds rounds se_RevokedAt (revoked_before (now -! (UserSessionRevokedRetentionDays *! 86400)) (now -! UserSessionIssuanceWindowSeconds)).
End session.
