(* ===== verification/SessionLogin.v ===== *)
(** * Logging in and out (service/auth_session.go)

    The operations of the service on top of the sessions' store.  The access token is the
    identity it carries; signing and parsing it is the business of a library. *)

From stdpp Require Import base tactics numbers list gmap strings sorting.
From Stdlib Require Import ZArith Lia Ascii.
From S2P Require Import Prelude Steps Session.
Open Scope Z_scope.
Open Scope steps_scope.

(** An access token with the refresh token that comes with it, "" for none. *)
Record AuthBundle := mkBundle { ab_Access : AuthSessionIdentity; ab_RefreshToken : string }.

(** [strings.Cut] at a dot. *)
Fixpoint CutDot (s : string) : option (string * string) :=
  match s with
  | EmptyString => None
  | String c s => if Ascii.eqb c "."%char then Some (EmptyString, s) else match CutDot s with Some (a, b) => Some (String c a, b) | None => None end
  end.

Section login.
Context `{SC : SessionConfig}.

Definition splitRefreshToken (raw : string) : option (string * string) :=
  match CutDot (TrimSpace raw) with
  | Some (sid, secret) => if String.eqb sid "" || String.eqb secret "" || Contains secret "." || negb (uuid_ok sid) then None else Some (sid, secret)
  | None => None
  end.
Definition truncateAuthMetadata (value : string) (max : nat) : string := let v := TrimSpace value in if (String.length v <=? max)%nat then v else String.substring 0 max v.
Definition IssueAccessToken (i : AuthSessionIdentity) : res AuthSessionIdentity :=
  if (i.(id_UserID) <=? 0) || String.eqb i.(id_SessionID) "" || (i.(id_UserAuthVersion) <=? 0) || (i.(id_SessionVersion) <=? 0) then inl ErrAuthTokenInvalid else inr i.
Definition identity_of (r : UserSession) : AuthSessionIdentity := mkIdentity r.(se_UserID) r.(se_SID) r.(se_UserAuthVersion) r.(se_Version).
Definition issueAuthBundle (r : UserSession) (rawRefreshToken : string) : res AuthBundle :=
  match IssueAccessToken (identity_of r) with inl e => inl e | inr i => inr (mkBundle i rawRefreshToken) end.
Definition GetUserCache (userID : Z) : sprog (res UserAuth) := first (fun s => (s.(ss_user_cache) !! userID, s)).
Definition GetSelfUserById (userID : Z) : sprog (res UserAuth) := first (fun s => (s.(ss_users) !! userID, s)).

(** [sid] and [refreshSecret] are drawn at random. *)
Definition newLoginSession (sid refreshSecret : string) (userID authVersion : Z) (loginMethod ip userAgent : string) : sprog UserSession :=
  let* t := time_Now in
  let now := Unix t in
  let m := TrimSpace loginMethod in
  Done (mkUserSession sid userID 1 authVersion UserSessionStatusActive (hashRefreshSecret refreshSecret) "" 0 (if String.eqb m "" then "unknown" else m)
          (truncateAuthMetadata ip 64) (truncateAuthMetadata userAgent 512) now now (now + LoginSessionTTL) 0 "").
Definition createLoginSession (sid refreshSecret : string) (userID expectedAuthVersion : Z) (loginMethod ip userAgent : string) : sprog (res AuthBundle) :=
  try_ (GetUserCache userID) (fun user =>
  if negb (user.(ua_Status) =? UserStatusEnabled) || (user.(ua_AuthVersion) <=? 0) then Done (inl ErrLoginSessionInvalid)
  else if (0 <? expectedAuthVersion) && negb (user.(ua_AuthVersion) =? expectedAuthVersion) then Done (inl ErrLoginSessionRevoked)
  else
    let* t := time_Now in
    let now := Unix t in
    try_ (CountActiveUserSessions userID now) (fun activeCount =>
    if UserSessionActiveLimit <=? activeCount then Done (inl ErrUserSessionLimit)
    else
      try_ (CountUserSessionsCreatedSince userID (now -! UserSessionIssuanceWindowSeconds)) (fun issuanceCount =>
      if UserSessionIssuanceLimit <=? issuanceCount then Done (inl ErrUserSessionIssuanceLimit)
      else
        let* session := newLoginSession sid refreshSecret userID user.(ua_AuthVersion) loginMethod ip userAgent in
        try_ (CreateUserSession session) (fun session =>
        match issueAuthBundle session (session.(se_SID) +:+ "." +:+ refreshSecret) with
        | inl e => let* _ := RevokeUserSession userID session.(se_SID) "token_issue_failed" in Done (inl e)
        | inr b => Done (inr b)
        end)))).
Definition CreateLoginSession (sid refreshSecret : string) (userID : Z) (loginMethod ip userAgent : string) : sprog (res AuthBundle) :=
  createLoginSession sid refreshSecret userID 0 loginMethod ip userAgent.
Definition CreateLoginSessionAtAuthVersion (sid refreshSecret : string) (userID expectedAuthVersion : Z) (loginMethod ip userAgent : string) : sprog (res AuthBundle) :=
  if expectedAuthVersion <=? 0 then Done (inl ErrLoginSessionInvalid) else createLoginSession sid refreshSecret userID expectedAuthVersion loginMethod ip userAgent.

Definition ValidateLoginSession (i : AuthSessionIdentity) : sprog (res (UserSession * UserAuth)) :=
  let* c := GetUserSessionCached i.(id_SessionID) in
  match c with
  | inl ErrUserSessionInactive => Done (inl ErrLoginSessionRevoked)
  | inl e => Done (inl e)
  | inr r =>
      let* now := time_Now in
      if negb (r.(se_UserID) =? i.(id_UserID)) || inactive_row r (Unix now) || negb (r.(se_Version) =? i.(id_SessionVersion)) || negb (r.(se_UserAuthVersion) =? i.(id_UserAuthVersion))
      then Done (inl ErrLoginSessionRevoked)
      else
        try_ (GetUserCache i.(id_UserID)) (fun user =>
        if negb (user.(ua_Status) =? UserStatusEnabled) || negb (user.(ua_AuthVersion) =? i.(id_UserAuthVersion)) then Done (inl ErrLoginSessionRevoked)
        else Done (inr (r, user)))
  end.
Definition ValidateSessionReference (userID : Z) (sid : string) : sprog (res AuthSessionIdentity) :=
  if (userID <=? 0) || String.eqb (TrimSpace sid) "" then Done (inl ErrLoginSessionInvalid)
  else
    try_ (GetUserSessionCached sid) (fun r =>
    let i := mkIdentity userID sid r.(se_UserAuthVersion) r.(se_Version) in
    try_ (ValidateLoginSession i) (fun _ => Done (inr i))).

Definition advanceCurrentSessionToVersion (rounds : nat) (i : AuthSessionIdentity) (nextUserAuthVersion : Z) (reason : string) : sprog (res AuthBundle) :=
  try_ (AdvanceUserSessionAuthVersion i.(id_UserID) i.(id_SessionID) i.(id_SessionVersion) i.(id_UserAuthVersion) nextUserAuthVersion) (fun r =>
  try_ (RevokeOtherUserSessions rounds i.(id_UserID) i.(id_SessionID) reason) (fun _ => Done (issueAuthBundle r ""))).
Definition AdvanceCurrentSessionToUserVersion (rounds : nat) (i : AuthSessionIdentity) (reason : string) : sprog (res AuthBundle) :=
  try_ (GetUserCache i.(id_UserID)) (fun user =>
  if negb (user.(ua_Status) =? UserStatusEnabled) || (user.(ua_AuthVersion) <=? i.(id_UserAuthVersion)) then Done (inl ErrLoginSessionRevoked)
  else advanceCurrentSessionToVersion rounds i user.(ua_AuthVersion) reason).

(** What a refresh makes of the answer of the rotation. *)
Definition refresh_answer (sid nextSecret : string) (r : rotate_result) : res AuthBundle :=
  match r with
  | (Some r, Some ErrUserSessionRefreshRace) =>
      if String.eqb (hashRefreshSecret nextSecret) r.(se_RefreshHash) then issueAuthBundle r (sid +:+ "." +:+ nextSecret) else inl ErrRefreshRace
  | (_, Some ErrUserSessionRefreshReuse) => inl ErrLoginSessionRevoked
  | (_, Some ErrUserSessionRefreshInvalid) => inl ErrRefreshTokenInvalid
  | (_, Some ErrUserSessionRefreshRace) => inl ErrRefreshRace
  | (_, Some e) => inl e
  | (Some r, None) => issueAuthBundle r (sid +:+ "." +:+ nextSecret)
  | (None, None) => inl ErrRefreshTokenInvalid
  end.
Definition RefreshLoginSession (rawRefreshToken expectedSID : string) : sprog (res AuthBundle) :=
  match splitRefreshToken rawRefreshToken with
  | None => Done (inl ErrRefreshTokenInvalid)
  | Some (sid, secret) =>
      let expected := TrimSpace expectedSID in
      if negb (String.eqb expected "") && negb (String.eqb expected sid) then Done (inl ErrLoginSessionMismatch)
      else
        let* c := GetUserSessionCached sid in
        match c with
        | inl ErrUserSessionInactive => Done (inl ErrLoginSessionRevoked)
        | inl _ => Done (inl ErrRefreshTokenInvalid)
        | inr r =>
            let* now := time_Now in
            if inactive_row r (Unix now) then Done (inl ErrLoginSessionRevoked)
            else
              try_ (GetUserCache r.(se_UserID)) (fun cached =>
              try_ (GetSelfUserById r.(se_UserID)) (fun current =>
              if negb (cached.(ua_Status) =? UserStatusEnabled) || negb (cached.(ua_AuthVersion) =? r.(se_UserAuthVersion))
                 || negb (current.(ua_Status) =? UserStatusEnabled) || negb (current.(ua_AuthVersion) =? r.(se_UserAuthVersion))
              then let* _ := RevokeUserSession r.(se_UserID) r.(se_SID) "user_security_changed" in Done (inl ErrLoginSessionRevoked)
              else
                let nextSecret := deriveNextRefreshSecret sid secret in
                let* t := time_Now in
                let* rotated := RotateUserSessionRefresh r.(se_UserID) sid (hashRefreshSecret secret) (hashRefreshSecret nextSecret) (Unix t) RefreshReplayWindow in
                Done (refresh_answer sid nextSecret rotated)))
        end
  end.
Definition RevokeByRefreshToken (rawRefreshToken expectedSID reason : string) : sprog (res unit) :=
  match splitRefreshToken rawRefreshToken with
  | None => Done (inr tt)
  | Some (sid, secret) =>
      let expected := TrimSpace expectedSID in
      if negb (String.eqb expected "") && negb (String.eqb expected sid) then Done (inl ErrLoginSessionMismatch)
      else try_ (RevokeUserSessionByRefreshHash sid (hashRefreshSecret secret) reason) (fun _ => Done (inr tt))
  end.
End login.
