(* ===== verification/SessionLaws.v ===== *)
(** * Revoked sessions stay out (theorems on Session)

    Over every interleaving of any number of processes with any failures, lost keys of Redis
    included: what a snapshot lets in was so in the database at most one lifetime of a
    snapshot ago. *)

From stdpp Require Import base tactics numbers list sets gmap strings sorting relations.
From Stdlib Require Import ZArith Lia.
From S2P Require Import Prelude Steps Session SessionLogin.
Open Scope Z_scope.
Open Scope steps_scope.

Section laws.
Context `{SC : SessionConfig}.
Hypothesis ttl_pos : 0 < userCacheTTLSeconds.
Definition ttl : Z := userCacheTTLSeconds * second.

(** At [t] or later a session was active with these versions. *)
Definition had (h : list SState) (sid : string) (version authVersion t : Z) : Prop :=
  exists s r, s ∈ h /\ s.(ss_rows) !! sid = Some r /\ is_active r.(se_Status) = true /\ r.(se_Version) = version /\ r.(se_UserAuthVersion) = authVersion /\ t <= s.(ss_clock).
Record inv (s : SState) (h : list SState) : Prop := {
  iv_now : s ∈ h;
  iv_clock x : x ∈ h -> x.(ss_clock) <= s.(ss_clock);
  iv_rows sid r : s.(ss_rows) !! sid = Some r -> r.(se_SID) = sid;
  iv_cache sid e when : s.(ss_cache) !! sid = Some (e, when) -> is_active e.(en_Status) = true ->
    e.(en_SID) = sid /\ had h sid e.(en_Version) e.(en_UserAuthVersion) (when * millisecond - ttl)
}.
Abbreviation wps := (wp ss_clock inv).

Lemma had_mono h h' sid v av t t' : h ⊆ h' -> t' <= t -> had h sid v av t -> had h' sid v av t'.
Proof. intros Hh Ht (s & r & Hs & Hr & H1 & H2 & H3 & H4). exists s, r. split_and!; auto; lia. Qed.

(** ** Which statements keep the invariant *)

(** A statement that leaves the snapshots and the clock alone, and rows under their id. *)
Definition tame {B : Type} (f : SState -> B * SState) : Prop := forall s,
  (f s).2.(ss_cache) = s.(ss_cache) /\ (f s).2.(ss_clock) = s.(ss_clock) /\
  ((forall sid r, s.(ss_rows) !! sid = Some r -> r.(se_SID) = sid) -> forall sid r, (f s).2.(ss_rows) !! sid = Some r -> r.(se_SID) = sid).
Lemma inv_more s s' h : inv s h -> s'.(ss_clock) = s.(ss_clock) -> (forall sid r, s'.(ss_rows) !! sid = Some r -> r.(se_SID) = sid) ->
  (forall sid e when, s'.(ss_cache) !! sid = Some (e, when) -> is_active e.(en_Status) = true ->
     s.(ss_cache) !! sid = Some (e, when) \/ (e.(en_SID) = sid /\ had (s' :: h) sid e.(en_Version) e.(en_UserAuthVersion) (when * millisecond - ttl))) -> inv s' (s' :: h).
Proof.
  intros [H1 H2 H3 H4] Hc Hr Hs. split.
  - left.
  - intros x Hx. apply elem_of_cons in Hx as [->|Hx]; [lia|]. rewrite Hc. auto.
  - done.
  - intros sid e when He Ha. destruct (Hs sid e when He Ha) as [Ho|Ho]; [|done]. destruct (H4 sid e when Ho Ha) as [Hid Hh]. split; [done|]. eapply had_mono; [|done|exact Hh]. set_solver.
Qed.
Lemma inv_tame {B} (f : SState -> B * SState) s h : tame f -> inv s h -> inv (f s).2 ((f s).2 :: h).
Proof.
  intros Hf Hi. destruct (Hf s) as (Hc & Hk & Hr). apply (inv_more s); [done|done|apply Hr, (iv_rows s h Hi)|]. intros sid e when. rewrite Hc. auto.
Qed.
Definition read_only {B : Type} (f : SState -> B * SState) : Prop := forall s, (f s).2 = s.
Lemma read_tame {B} (f : SState -> B * SState) : read_only f -> tame f.
Proof. intros Hf s. pose proof (Hf s) as E. unfold tame. destruct (f s) as [b s1]. cbn in *. subst s1. auto. Qed.
Lemma find_read p sid : read_only (find_row p sid).
Proof. by intros s. Qed.
Lemma count_read p : read_only (count_rows p).
Proof. by intros s. Qed.
Lemma first_rows_read R `{!RelDecision R} n p : read_only (first_rows R n p).
Proof. by intros s. Qed.
Lemma update_tame p f sid : (forall r, (f r).(se_SID) = r.(se_SID)) -> tame (update_row p f sid).
Proof.
  intros Hf s. unfold update_row. destruct (ss_rows s !! sid) as [r|] eqn:E; [|done]. destruct (p r); [|done]. split_and!; [done|done|]. intros Hr k x. cbn. rewrite lookup_insert_Some. intros [[<- <-]|[_ Hx]]; [rewrite Hf|]; eauto.
Qed.
Lemma update_rows_tame p f sids : (forall r, (f r).(se_SID) = r.(se_SID)) -> tame (update_rows p f sids).
Proof.
  intros Hf s. split_and!; [done|done|]. intros Hr k x. cbn. rewrite map_lookup_imap. destruct (ss_rows s !! k) as [r|] eqn:E; [|done]. cbn. intros [= <-]. destruct (_ && _); [rewrite Hf|]; eauto.
Qed.
Lemma delete_tame p sids : tame (delete_rows p sids).
Proof. intros s. split_and!; [done|done|]. intros Hr k x. cbn. rewrite map_lookup_filter_Some. intros [Hx _]. eauto. Qed.
Lemma create_tame r : tame (create_row r).
Proof.
  intros s. unfold create_row. destruct (ss_rows s !! se_SID r) eqn:E; [done|]. split_and!; [done|done|]. intros Hr k x. cbn. rewrite lookup_insert_Some. intros [[<- <-]|[_ Hx]]; eauto.
Qed.
(** A script writes a denial at any time, and an active snapshot of what the database had
    within the lifetime of a snapshot before it expires. *)
Lemma inv_script e x s h : (is_active e.(en_Status) = true -> had h e.(en_SID) e.(en_Version) e.(en_UserAuthVersion) (x * millisecond - ttl)) ->
  inv s h -> inv (cache_script e x s).2 ((cache_script e x s).2 :: h).
Proof.
  intros He Hi. apply (inv_more s); [done| | |].
  - unfold cache_script. by repeat case_match.
  - unfold cache_script. repeat case_match; apply (iv_rows s h Hi).
  - intros sid e' when. unfold cache_script. destruct (is_active (en_Status e) && _); [by left|]. destruct (_ <? _); [by left|]. cbn.
    set (w := if is_active (en_Status e) then x else _). destruct (w <=? _); [rewrite lookup_delete_Some; intros [_ ?]; by left|]. rewrite lookup_insert_Some. intros [[<- [= <- <-]]|[_ Hx]] Ha; [|by left]. right.
    split; [done|]. unfold w. rewrite Ha. eapply had_mono; [|done|by apply He]. set_solver.
Qed.

(** ** Rules *)

(** Only what an operation returns without an error matters. *)
Definition ok {A} (P : list SState -> A -> Prop) (h : list SState) (x : res A) : Prop := match x with inl _ => True | inr a => P h a end.
Abbreviation any := (fun (_ : list SState) _ => True).
Lemma wp_try {A B} h (p : sprog (res A)) (q : A -> sprog (res B)) P R : wps h p (ok P) -> (forall g a, h ⊆ g -> P g a -> wps g (q a) (ok R)) -> wps h (try_ p q) (ok R).
Proof.
  intros Hp Hq. apply hist_bind. apply (hist_mono _ _ h h p _ _ Hp); [done|]. intros g [e|a] Hg Ha; [done|]. by apply Hq.
Qed.
Lemma wp_then {A B} h (p : sprog A) (q : A -> sprog B) P R : wps h p P -> (forall g a, h ⊆ g -> P g a -> wps g (q a) R) -> wps h (pbind p q) R.
Proof. intros Hp Hq. apply hist_bind. apply (hist_mono _ _ h h p _ _ Hp); [done|]. intros g a Hg Ha. by apply Hq. Qed.
Lemma wp_any {A} h (p : sprog (res A)) : wps h p any -> wps h p (ok any).
Proof. intros Hp. apply (hist_mono _ _ h h p _ _ Hp); [done|]. by intros g [e|a]. Qed.
Lemma wp_end {A} h (x : res A) : wps h (Done x) (ok any).
Proof. intros g _. by destruct x. Qed.
(** The time that is read is that of a store there has been, and no earlier than what was
    seen. *)
Lemma wps_time {A} h (q : Z -> sprog A) R : (forall g s, h ⊆ g -> s ∈ g -> (forall x, x ∈ h -> x.(ss_clock) <= s.(ss_clock)) -> wps g (q s.(ss_clock)) R) -> wps h (pbind time_Now q) R.
Proof. intros Hq s g Hg Hi. cbn. apply Hq; [done|apply Hi|]. intros x Hx. apply (iv_clock s g Hi). set_solver. Qed.
Lemma wps_stmt {A} {B : Set} h (f : SState -> B * SState) (q : option B -> sprog A) R :
  (forall s g, h ⊆ g -> inv s g -> inv (f s).2 ((f s).2 :: g)) ->
  (forall s g, h ⊆ g -> inv s g -> wps ((f s).2 :: g) (q (Some (f s).1)) R) -> (forall g, h ⊆ g -> wps g (q None) R) -> wps h (pbind (stmt f) q) R.
Proof.
  intros Hi Hs Hn s g Hg HI. cbn. split_and!; [by apply Hi|by apply Hs|apply Hn; set_solver|by apply Hn].
Qed.
Lemma wp_db {B : Set} h (f : SState -> B * SState) (P : list SState -> B -> Prop) : tame f ->
  (forall s g, h ⊆ g -> inv s g -> forall k, (f s).2 :: g ⊆ k -> P k (f s).1) -> wps h (db f) (ok P).
Proof.
  intros Hf HP. apply wps_stmt; [intros s g _; by apply inv_tame|intros s g Hg Hi k Hk; by apply (HP s g)|by intros g _ k _].
Qed.
Lemma wp_db_any {B : Set} h (f : SState -> B * SState) : tame f -> wps h (db f) (ok any).
Proof. intros Hf. by apply wp_db. Qed.
(** A row that is found was there at a time no earlier than what was seen. *)
Definition found (h : list SState) (p : UserSession -> bool) (sid : string) (g : list SState) (r : UserSession) : Prop :=
  exists s r0, s ∈ g /\ s.(ss_rows) !! sid = Some r0 /\ r = AfterFind r0 /\ r.(se_SID) = sid /\ p r0 = true /\ forall x, x ∈ h -> x.(ss_clock) <= s.(ss_clock).
Lemma wp_first h p sid : wps h (first (find_row p sid)) (ok (found h p sid)).
Proof.
  apply (wp_try _ _ _ (fun g (x : option UserSession) => forall r, x = Some r -> found h p sid g r)).
  - apply wp_db; [apply read_tame, find_read|]. intros s g Hg Hi k Hk r. cbn. intros E. destruct (ss_rows s !! sid) as [r0|] eqn:Er; [|done]. destruct (p r0) eqn:Ep; [|done]. injection E as <-.
    exists s, r0. change (find_row p sid s).2 with s in Hk. split_and!; [set_solver|done|done|exact (iv_rows s g Hi sid r0 Er)|done|]. intros x Hx. apply (iv_clock s g Hi). set_solver.
  - intros g [r|] Hg Ha k Hk; [|done]. destruct (Ha r eq_refl) as (s & r0 & Hs & Hr). exists s, r0. split; [set_solver|done].
Qed.
Lemma found_had h p sid g r t : found h p sid g r -> is_active r.(se_Status) = true -> (exists x, x ∈ h /\ t <= x.(ss_clock)) -> had g sid r.(se_Version) r.(se_UserAuthVersion) t.
Proof. intros (s & r0 & Hs & Hr & -> & _ & _ & Hc) Ha (x & Hx & Ht). exists s, r0. split_and!; try done. specialize (Hc x Hx). lia. Qed.

(** ** Snapshots *)

Lemma expiration_bound e d now x : is_active e.(en_Status) = true -> expiration_of e (Some d) now = inr x -> x * millisecond <= d.
Proof.
  intros Ha. unfold expiration_of. rewrite Ha. cbn zeta. destruct (_ <=? 0); [done|]. destruct (_ <=? 0); [done|]. set (y := if _ <? d then _ else d).
  destruct (_ <? millisecond); [done|]. intros [= <-]. assert (y <= d) by (unfold y; destruct (Z.ltb_spec (en_ExpiresAt e * second) d); lia).
  unfold UnixMilli. pose proof (Z.mul_div_le y millisecond ltac:(done)). lia.
Qed.
Lemma wp_write h e d : (is_active e.(en_Status) = true -> exists x, d = Some x /\ had h e.(en_SID) e.(en_Version) e.(en_UserAuthVersion) (x - ttl)) -> wps h (writeUserSessionCache e d) any.
Proof.
  intros He. unfold writeUserSessionCache. destruct (negb RedisEnabled); [done|]. apply wps_time. intros g s Hg _ _. destruct (expiration_of e d (ss_clock s)) as [err|x] eqn:E; [done|].
  apply wps_stmt.
  - intros s' g' Hg'. apply inv_script. intros Ha. destruct (He Ha) as (y & -> & Hh). pose proof (expiration_bound e y _ _ Ha E). eapply had_mono; [|..|exact Hh]; [set_solver|lia].
  - intros s' g' _ _. destruct (cache_script e x s').1; [|done]. destruct (is_active (en_Status e)); [|done]. apply wps_time. done.
  - done.
Qed.
Lemma wp_deny h r status now reason : is_active status = false -> wps h (writeUserSessionDenyFence r status now reason) any.
Proof. intros Hs. unfold writeUserSessionDenyFence. destruct (negb RedisEnabled); [done|]. apply wp_write. intros Ha. change (is_active status = true) in Ha. congruence. Qed.
Lemma wp_confirm h r : wps h (confirmUserSessionActiveSnapshot r) any.
Proof.
  unfold confirmUserSessionActiveSnapshot. destruct (_ || _); [done|]. apply wps_time. intros g s _ _ _.
  apply (hist_mono _ _ g g _ (ok any)); [|done|done]. eapply wp_try; [apply wp_db_any, read_tame, count_read|]. intros k n _ _. apply wp_end.
Qed.
Lemma wp_publish h r d other : had h r.(se_SID) r.(se_Version) r.(se_UserAuthVersion) (d - ttl) -> wps h (publish r d other) any.
Proof.
  intros Hh. unfold publish. eapply wp_then; [apply wp_write; intros _; by exists d|]. intros g [e|[]] Hg _; [|done]. destruct e; try done. apply wp_confirm.
Qed.

(** ** Lookup *)

(** A store was seen at [t] or later. *)
Definition seen (h : list SState) (t : Z) : Prop := exists x, x ∈ h /\ t <= x.(ss_clock).
Lemma seen_mono h h' t : h ⊆ h' -> seen h t -> seen h' t.
Proof. intros Hh (x & Hx & Ht). exists x. auto. Qed.
Lemma wp_deadline {A} h (q : Z -> sprog A) R : (forall g d, h ⊆ g -> seen g (d - ttl) -> wps g (q d) R) -> wps h (let* d := userSessionCacheDeadline in q d) R.
Proof.
  intros Hq. unfold userSessionCacheDeadline. apply hist_bind, wps_time. intros g s Hg Hs _ g' Hg'. apply Hq; [set_solver|]. exists s. split; [set_solver|]. unfold ttl. lia.
Qed.
Lemma wp_by_sid h sid : wps h (GetUserSessionBySID sid) (ok (found h (fun _ => true) sid)).
Proof. unfold GetUserSessionBySID. destruct (String.eqb sid ""); [done|]. apply wp_first. Qed.
Lemma wp_from_db h sid t : seen h t -> wps h (session_from_db sid) (ok (fun g r => r.(se_SID) = sid /\ had g sid r.(se_Version) r.(se_UserAuthVersion) t)).
Proof.
  intros Ht. unfold session_from_db. apply wp_deadline. intros g d Hg Hd. eapply wp_try; [apply wp_by_sid|]. intros g1 r Hg1 Hf. apply wps_time. intros g2 s Hg2 _ _.
  unfold inactive_row. destruct (is_active (se_Status r)) eqn:Ha; cbn [negb orb].
  2: { eapply wp_then; [apply wp_write; cbn; done|]. done. }
  destruct (_ || _).
  { eapply wp_then; [apply wp_write; cbn; done|]. done. }
  assert (forall k, g2 ⊆ k -> r.(se_SID) = sid /\ had k sid r.(se_Version) r.(se_UserAuthVersion) t) as Hpost.
  { intros k Hk. destruct Hf as (x & r0 & H1 & H2 & H3 & H4 & H5 & H6). split; [done|]. destruct Ht as (y & Hy & Hty). eapply had_mono; [|done|].
    2: { apply (found_had g (fun _ => true) sid g1); [by exists x, r0|done|]. exists y. set_solver. }
    set_solver. }
  destruct RedisEnabled; [|done]. eapply wp_try; [apply wp_any, wp_publish|].
  - assert (se_SID r = sid) as -> by (by destruct (Hpost g2 ltac:(done))). eapply had_mono; [|done|by apply (found_had g (fun _ => true) sid g1)]. set_solver.
  - intros k _ Hk _ k' Hk'. apply Hpost. set_solver.
Qed.
(** A snapshot that lets a session in has not expired. *)
Lemma wp_get_cache h sid t : seen h t -> wps h (getUserSessionCache sid) (ok (fun g e => e.(en_SID) = sid /\ had g sid e.(en_Version) e.(en_UserAuthVersion) (t - ttl - millisecond))).
Proof.
  intros (y & Hy & Hty). unfold getUserSessionCache. apply wps_stmt; [intros s g _; apply (inv_tame (hgetall sid)), read_tame; by intros x| |done]. intros s g Hg Hi. cbn [hgetall fst snd].
  unfold live. destruct (ss_cache s !! sid) as [[e when]|] eqn:E; [|done]. destruct (Z.leb_spec (UnixMilli (ss_clock s)) when) as [Hw|]; [|done].
  destruct (_ || _ || _ || _ || _); [done|]. apply wps_time. intros g' s' Hg' _ _ k Hk. destruct (is_active (en_Status e)) eqn:Ha; cbn [negb orb]; [|done]. destruct (_ || _); [done|]. cbn.
  destruct (iv_cache s g Hi sid e when E Ha) as [Hid Hh]. split; [done|]. eapply had_mono; [| |exact Hh]; [set_solver|]. pose proof (iv_clock s g Hi y ltac:(set_solver)). unfold UnixMilli in Hw.
  pose proof (Z.mul_succ_div_gt (ss_clock s) millisecond ltac:(done)). unfold millisecond in *. lia.
Qed.
Lemma wp_cached h sid t : seen h t -> wps h (GetUserSessionCached sid) (ok (fun g r => r.(se_SID) = sid /\ had g sid r.(se_Version) r.(se_UserAuthVersion) (t - ttl - millisecond))).
Proof.
  intros Ht. unfold GetUserSessionCached. destruct (String.eqb sid ""); [done|].
  assert (forall g, h ⊆ g -> wps g (session_from_db sid) (ok (fun g r => r.(se_SID) = sid /\ had g sid r.(se_Version) r.(se_UserAuthVersion) (t - ttl - millisecond)))) as Hdb.
  { intros g Hg. eapply hist_mono; [apply (wp_from_db g sid (t - ttl - millisecond))|done|].
    - destruct Ht as (x & Hx & Ht). exists x. split; [set_solver|]. unfold millisecond, ttl, second. lia.
    - intros k [e|r] _ Hr; [done|exact Hr]. }
  destruct RedisEnabled; [|by apply Hdb]. eapply wp_then; [by apply wp_get_cache|]. intros g [e|e] Hg He.
  - destruct e; try done; by apply Hdb.
  - intros k Hk. cbn. destruct He as [He1 He2]. split; [done|]. eapply had_mono; [exact Hk|done|exact He2].
Qed.

(** ** The other operations *)

Lemma wp_or_now {A} h now (q : Z -> sprog A) R : (forall g n, h ⊆ g -> wps g (q n) R) -> wps h (let* n := or_now now in q n) R.
Proof.
  intros Hq. unfold or_now. apply hist_bind. destruct (now <=? 0); [apply wps_time; intros g s Hg _ _ k Hk|intros k Hk]; apply Hq; set_solver.
Qed.
(** A row that was updated is there as it was written. *)
Lemma wp_update h p f sid : (forall r, (f r).(se_SID) = r.(se_SID)) ->
  wps h (db (update_row p f sid)) (ok (fun g n => n = 1 -> exists s r, s ∈ g /\ s.(ss_rows) !! sid = Some (f r) /\ p r = true /\ forall x, x ∈ h -> x.(ss_clock) <= s.(ss_clock))).
Proof.
  intros Hf. apply wp_db; [by apply update_tame|]. intros s g Hg Hi k Hk. unfold update_row in *. destruct (ss_rows s !! sid) as [r|] eqn:E; [|done]. destruct (p r) eqn:Ep; [|done]. intros _.
  exists (set_rows (insert sid (f r)) s), r. split_and!; [set_solver|cbn; by rewrite lookup_insert_eq|done|]. intros x Hx. cbn. apply (iv_clock s g Hi). set_solver.
Qed.
Lemma wp_update_any h p f sid : (forall r, (f r).(se_SID) = r.(se_SID)) -> wps h (db (update_row p f sid)) (ok any).
Proof. intros Hf. apply wp_db_any. by apply update_tame. Qed.
Lemma wp_create h r : wps h (CreateUserSession r) (ok any).
Proof.
  unfold CreateUserSession. apply wp_deadline. intros g d Hg Hd.
  apply (wp_try _ _ _ (fun k x => had k x.(se_SID) x.(se_Version) x.(se_UserAuthVersion) (d - ttl))).
  - unfold createUserSessionWithTx. apply wps_time. intros g1 s Hg1 _ _. destruct (_ || _ || _ || _ || _); [done|]. cbn zeta. set (status := if String.eqb (se_Status r) "" then _ else _).
    destruct (is_active status) eqn:Ha; cbn [negb orb]; [|done]. destruct (negb _); [done|]. match goal with |- context [create_row ?x] => set (r1 := x) end.
    apply (wp_try _ _ _ (fun k (x : bool) => x = true -> had k r1.(se_SID) r1.(se_Version) r1.(se_UserAuthVersion) (d - ttl))).
    + apply wp_db; [apply create_tame|]. intros x k Hk Hi k' Hk' E. unfold create_row in *. destruct (ss_rows x !! se_SID r1); [done|]. exists (set_rows (insert (se_SID r1) r1) x), r1.
      split_and!; [set_solver|cbn; by rewrite lookup_insert_eq|done|done|done|]. destruct Hd as (y & Hy & Hd). pose proof (iv_clock x k Hi y ltac:(set_solver)). cbn. lia.
    + intros k [] Hk Hb k' Hk'; [|done]. cbn. eapply had_mono; [exact Hk'|done|by apply Hb].
  - intros k x Hk Hx. eapply wp_try; [apply wp_any, wp_publish, Hx|]. done.
Qed.
Lemma wp_count h userID now : wps h (CountActiveUserSessions userID now) (ok any).
Proof. unfold CountActiveUserSessions. destruct (_ <=? 0); [done|]. apply wp_or_now. intros g n _. apply wp_db_any, read_tame, count_read. Qed.
Lemma wp_count_since h userID after : wps h (CountUserSessionsCreatedSince userID after) (ok any).
Proof. unfold CountUserSessionsCreatedSince. destruct (_ || _); [done|]. apply wp_db_any, read_tame, count_read. Qed.
Lemma wp_finalize h r now reason : wps h (finalize_revoke r now reason) any.
Proof. unfold finalize_revoke. eapply wp_then; [apply wp_write; done|]. done. Qed.
Lemma wp_reused h userID sid now r : wps h (refresh_reused userID sid now r) any.
Proof.
  unfold refresh_reused. eapply wp_then; [by apply wp_deny|]. intros g [e|[]] _ _; [done|]. eapply wp_then; [by apply wp_update_any|]. intros g1 [e|n] _ _; [done|]. destruct (n =? 0); [done|].
  eapply wp_then; [apply wp_write; done|]. done.
Qed.
Lemma wp_rotate_loop rounds h userID sid presented next now grace : wps h (rotate_loop rounds userID sid presented next now grace) any.
Proof.
  revert h. induction rounds as [|rounds IH]; intros h; [done|]. cbn [rotate_loop]. apply wp_deadline. intros g d Hg Hd. eapply wp_then; [apply wp_first|]. intros g1 [e|r] Hg1 Hf; [done|].
  unfold inactive_row. destruct (is_active (se_Status r)) eqn:Ha; cbn [negb orb]; [|done]. destruct (_ || _); [done|]. destruct (String.eqb (se_RefreshHash r) presented).
  - eapply wp_then; [by apply wp_update_any|]. intros g2 [e|n] Hg2 _; [done|]. destruct (n =? 0); [apply IH|]. eapply wp_then; [apply wp_publish|intros k [e|[]] _ _; done]. cbn.
    assert (se_SID r = sid) as -> by (by destruct Hf as (x & r0 & _ & _ & _ & H4 & _)). eapply had_mono; [exact Hg2|done|by apply (found_had g _ sid g1 r _ Hf)].
  - destruct (_ || _); [done|]. destruct (_ <=? _); [done|]. apply wp_reused.
Qed.
Lemma wp_rotate h userID sid presented next now grace : wps h (RotateUserSessionRefresh userID sid presented next now grace) any.
Proof. unfold RotateUserSessionRefresh. destruct (_ || _ || _ || _ || _); [done|]. apply wp_or_now. intros g n _. destruct (_ <? 0); [done|]. apply wp_rotate_loop. Qed.
Lemma wp_revoke h userID sid reason : wps h (RevokeUserSession userID sid reason) (ok any).
Proof.
  unfold RevokeUserSession. destruct (_ || _); [done|]. apply wps_time. intros g s _ _ _. eapply wp_then; [apply wp_first|]. intros g1 [e|r] _ _; [by destruct e|]. destruct (inactive_row r _); [done|].
  eapply wp_try; [by apply wp_any, wp_deny|]. intros g2 _ _ _. eapply wp_try; [apply wp_first|]. intros g3 c _ _. destruct (inactive_row c _); [done|].
  eapply wp_try; [by apply wp_update_any|]. intros g4 n _ _. destruct (n =? 1); [|done]. eapply wp_then; [apply wp_finalize|]. done.
Qed.
Lemma wp_revoke_hash h sid presented reason : wps h (RevokeUserSessionByRefreshHash sid presented reason) (ok any).
Proof.
  unfold RevokeUserSessionByRefreshHash. destruct (_ || _); [done|]. apply wps_time. intros g s _ _ _. eapply wp_then; [apply wp_first|]. intros g1 [e|r] _ _; [by destruct e|]. cbn zeta. destruct (_ || _); [done|].
  eapply wp_try; [by apply wp_any, wp_deny|]. intros g2 _ _ _. eapply wp_try; [by apply wp_update_any|]. intros g4 n _ _. destruct (n =? 1); [|done]. eapply wp_then; [apply wp_finalize|]. done.
Qed.
Lemma wp_advance h userID sid v av next : wps h (AdvanceUserSessionAuthVersion userID sid v av next) (ok any).
Proof.
  unfold AdvanceUserSessionAuthVersion. destruct (_ || _ || _ || _ || _); [done|]. apply wp_deadline. intros g d Hg Hd. apply wps_time. intros g1 s Hg1 _ _. eapply wp_try; [apply wp_first|].
  intros g2 r Hg2 Hf. destruct (_ || _ || _ || _); [done|]. cbn zeta. eapply wp_try; [by apply wp_update|]. intros g3 n Hg3 Hn. destruct (Z.eqb_spec n 1) as [->|]; cbn [negb]; [|done].
  eapply wp_try; [apply wp_any, wp_publish|done]. destruct (Hn eq_refl) as (x & r1 & Hx & Hr & Hp & Hc). assert (se_SID r = sid) as Hsid by (by destruct Hf as (? & ? & _ & _ & _ & H4 & _)). cbn. rewrite Hsid.
  exists x, (set_versions (se_Version r +! 1) next (Unix (ss_clock s)) r1). apply andb_prop in Hp as [Hp _]. apply andb_prop in Hp as [Hp _]. split_and!; try done. destruct Hd as (y & Hy & Hty). specialize (Hc y ltac:(set_solver)). lia.
Qed.
Lemma wp_fence_all l h now reason : wps h (fence_all l now reason) (ok any).
Proof. revert h. induction l as [|r l IH]; intros h; [done|]. cbn [fence_all]. eapply wp_try; [by apply wp_any, wp_deny|]. intros g _ _ _. apply IH. Qed.
Lemma wp_finalize_all l h now reason : wps h (finalize_all l now reason) any.
Proof. revert h. induction l as [|r l IH]; intros h; [done|]. cbn [finalize_all]. eapply wp_then; [apply wp_finalize|]. intros g _ _ _. apply IH. Qed.
Lemma wp_revoke_rounds rounds h userID excluded reason now total : wps h (revoke_rounds rounds userID excluded reason now total) (ok any).
Proof.
  revert h total. induction rounds as [|rounds IH]; intros h total; [done|]. cbn [revoke_rounds]. eapply wp_try; [apply wp_db_any, read_tame, first_rows_read|]. intros g l _ _. destruct l as [|r l]; [done|].
  eapply wp_try; [apply wp_fence_all|]. intros g1 _ _ _. eapply wp_try; [apply wp_db_any, read_tame, first_rows_read|]. intros g2 revoked _ _.
  apply (wp_try _ _ _ any); [destruct revoked; [done|by apply wp_db_any, update_rows_tame]|]. intros g3 n _ _. eapply wp_then; [apply wp_finalize_all|]. intros g4 _ _ _. apply IH.
Qed.
Lemma wp_revoke_sessions rounds h userID excluded reason : wps h (revokeUserSessions rounds userID excluded reason) (ok any).
Proof. unfold revokeUserSessions. destruct (_ <=? 0); [done|]. apply wps_time. intros g s _ _ _. apply wp_revoke_rounds. Qed.
Lemma wp_delete_rounds rounds h key p : wps h (delete_rounds rounds key p) (ok any).
Proof.
  revert h. induction rounds as [|rounds IH]; intros h; [done|]. cbn [delete_rounds]. eapply wp_try; [apply wp_db_any, read_tame, first_rows_read|]. intros g l _ _. destruct (se_SID <$> l) as [|sid sids]; [done|].
  eapply wp_try; [apply wp_db_any, delete_tame|]. intros g1 _ _ _. apply (wp_try _ _ _ any); [destruct (drop _ _); [done|apply wp_db_any, delete_tame]|]. intros g2 _ _ _. apply IH.
Qed.
Lemma wp_delete_expired rounds h now : wps h (DeleteExpiredUserSessions rounds now) (ok any).
Proof. unfold DeleteExpiredUserSessions. apply wp_or_now. intros g n _. destruct (_ || _); [done|]. apply wp_delete_rounds. Qed.
Lemma wp_delete_revoked rounds h now : wps h (DeleteOldRevokedUserSessions rounds now) (ok any).
Proof. unfold DeleteOldRevokedUserSessions. apply wp_or_now. intros g n _. destruct (_ || _); [done|]. apply wp_delete_rounds. Qed.
Lemma wp_user {B : Set} h (f : SState -> option B) : wps h (first (fun s => (f s, s))) (ok any).
Proof. eapply wp_try; [apply wp_db_any, read_tame; by intros s|]. intros g [b|] _ _; done. Qed.
Lemma wp_login h sid secret userID version m ip ua : wps h (createLoginSession sid secret userID version m ip ua) (ok any).
Proof.
  unfold createLoginSession. eapply wp_try; [apply wp_user|]. intros g user _ _. destruct (_ || _); [done|]. destruct (_ && _); [done|]. apply wps_time. intros g1 s _ _ _.
  eapply wp_try; [apply wp_count|]. intros g2 n _ _. destruct (_ <=? n); [done|]. eapply wp_try; [apply wp_count_since|]. intros g3 n' _ _. destruct (_ <=? n'); [done|].
  unfold newLoginSession. apply (wp_then _ _ _ any); [apply wps_time; done|]. intros g4 r _ _. eapply wp_try; [apply wp_create|]. intros g5 r' _ _. destruct (issueAuthBundle _ _); [|done].
  eapply wp_then; [apply wp_revoke|]. done.
Qed.
(** What an accepted identity was: active with these versions in the database, a lifetime of
    a snapshot before at the latest. *)
Definition recent (t : Z) (i : AuthSessionIdentity) (h : list SState) : Prop := had h i.(id_SessionID) i.(id_SessionVersion) i.(id_UserAuthVersion) (t - ttl - millisecond).
Lemma recent_mono t i h h' : h ⊆ h' -> recent t i h -> recent t i h'.
Proof. intros Hh. by apply had_mono. Qed.
Lemma wp_validate h i t : seen h t -> wps h (ValidateLoginSession i) (ok (fun g _ => recent t i g)).
Proof.
  intros Ht. unfold ValidateLoginSession. eapply wp_then; [by apply wp_cached|]. intros g [e|r] Hg Hr; [by destruct e|]. destruct Hr as [_ Hr]. apply wps_time. intros g1 s Hg1 _ _.
  destruct (_ || _) eqn:E; [done|]. apply orb_false_iff in E as [E Eav]. apply orb_false_iff in E as [_ Ev]. apply negb_false_iff, Z.eqb_eq in Ev, Eav.
  eapply wp_try; [apply wp_user|]. intros g2 user Hg2 _. destruct (_ || _); [done|]. intros k Hk. cbn. apply (recent_mono t i g); [set_solver|]. unfold recent. by rewrite <- Ev, <- Eav.
Qed.
Lemma wp_reference h userID sid t : seen h t -> wps h (ValidateSessionReference userID sid) (ok (fun g i => recent t i g)).
Proof.
  intros Ht. unfold ValidateSessionReference. destruct (_ || _); [done|]. eapply wp_try; [by apply wp_cached|]. intros g r Hg _. cbn zeta. eapply wp_try; [apply (wp_validate g _ t), (seen_mono h), Ht; done|].
  intros g1 x Hg1 Hr k Hk. cbn. by apply (recent_mono t _ g1).
Qed.
Lemma wp_advance_current rounds h i next reason : wps h (advanceCurrentSessionToVersion rounds i next reason) (ok any).
Proof. unfold advanceCurrentSessionToVersion. eapply wp_try; [apply wp_advance|]. intros g r _ _. eapply wp_try; [apply wp_revoke_sessions|]. intros g1 _ _ _. apply wp_end. Qed.
Lemma wp_refresh h raw expected t : seen h t -> wps h (RefreshLoginSession raw expected) (ok any).
Proof.
  intros Ht. unfold RefreshLoginSession. destruct (splitRefreshToken raw) as [[sid secret]|]; [|done]. cbn zeta. destruct (_ && _); [done|]. eapply wp_then; [by apply wp_cached|].
  intros g [e|r] _ _; [by destruct e|]. apply wps_time. intros g1 s _ _ _. destruct (inactive_row r _); [done|]. eapply wp_try; [apply wp_user|]. intros g2 c _ _.
  eapply wp_try; [apply wp_user|]. intros g3 u _ _. destruct (_ || _); [eapply wp_then; [apply wp_revoke|]; done|]. apply wps_time. intros g4 s' _ _ _. eapply wp_then; [apply wp_rotate|]. intros g5 x _ _. apply wp_end.
Qed.
Lemma wp_revoke_token h raw expected reason : wps h (RevokeByRefreshToken raw expected reason) (ok any).
Proof. unfold RevokeByRefreshToken. destruct (splitRefreshToken raw) as [[sid secret]|]; [|done]. cbn zeta. destruct (_ && _); [done|]. eapply wp_try; [apply wp_revoke_hash|]. done. Qed.

(** ** Runs *)

Inductive Op :=
| OpCreate (r : UserSession)
| OpGet (sid : string)
| OpRotate (userID : Z) (sid presented next : string) (now grace : Z)
| OpRevoke (userID : Z) (sid reason : string)
| OpRevokeHash (sid presented reason : string)
| OpAdvance (userID : Z) (sid : string) (version authVersion next : Z)
| OpRevokeSessions (rounds : nat) (userID : Z) (excluded reason : string)
| OpDeleteExpired (rounds : nat) (now : Z)
| OpDeleteRevoked (rounds : nat) (now : Z)
| OpLogin (sid secret : string) (userID version : Z) (method ip agent : string)
| OpValidate (i : AuthSessionIdentity)
| OpReference (userID : Z) (sid : string)
| OpAdvanceCurrent (rounds : nat) (i : AuthSessionIdentity) (next : Z) (reason : string)
| OpRefresh (raw expected : string)
| OpRevokeToken (raw expected reason : string).
(** How an operation ended: with an identity let in, with something else, with an error. *)
Inductive outcome := Accepted (i : AuthSessionIdentity) | Ended | Failed (e : SErr).
Definition report {A} (f : A -> outcome) (p : sprog (res A)) : sprog outcome := let* r := p in Done (match r with inl e => Failed e | inr a => f a end).
Definition ended {A} (a : A) : outcome := Ended.
Definition exec (o : Op) : sprog outcome :=
  match o with
  | OpCreate r => report ended (CreateUserSession r)
  | OpGet sid => report (fun r => Accepted (identity_of r)) (GetUserSessionCached sid)
  | OpRotate u sid p n now grace => let* r := RotateUserSessionRefresh u sid p n now grace in Done (match r.2 with Some e => Failed e | None => Ended end)
  | OpRevoke u sid reason => report ended (RevokeUserSession u sid reason)
  | OpRevokeHash sid p reason => report ended (RevokeUserSessionByRefreshHash sid p reason)
  | OpAdvance u sid v av n => report ended (AdvanceUserSessionAuthVersion u sid v av n)
  | OpRevokeSessions rounds u x reason => report ended (revokeUserSessions rounds u x reason)
  | OpDeleteExpired rounds now => report ended (DeleteExpiredUserSessions rounds now)
  | OpDeleteRevoked rounds now => report ended (DeleteOldRevokedUserSessions rounds now)
  | OpLogin sid secret u v m ip ua => report ended (createLoginSession sid secret u v m ip ua)
  | OpValidate i => report (fun _ => Accepted i) (ValidateLoginSession i)
  | OpReference u sid => report Accepted (ValidateSessionReference u sid)
  | OpAdvanceCurrent rounds i n reason => report ended (advanceCurrentSessionToVersion rounds i n reason)
  | OpRefresh raw x => report ended (RefreshLoginSession raw x)
  | OpRevokeToken raw x reason => report ended (RevokeByRefreshToken raw x reason)
  end.
(** Time passes, Redis loses keys, and users change. *)
Inductive World := Tick (d : nat) | Lose (sid : string) | Users (cached rows : gmap Z UserAuth).
Definition world (e : World) (s : SState) : SState :=
  match e with
  | Tick d => mkSState s.(ss_rows) s.(ss_cache) s.(ss_user_cache) s.(ss_users) (s.(ss_clock) + Z.of_nat d)
  | Lose sid => set_cache (delete sid) s
  | Users c r => mkSState s.(ss_rows) s.(ss_cache) c r s.(ss_clock)
  end.
Definition env (s s' : SState) : Prop := exists e, s' = world e s.
Definition post (t : Z) (o : Op) (h : list SState) (a : outcome) : Prop := match a with Accepted i => recent t i h | _ => True end.

Lemma env_inv s s' h : env s s' -> inv s h -> inv s' (s' :: h).
Proof.
  intros [e ->] [H1 H2 H3 H4]. assert (ss_clock s <= ss_clock (world e s)) as Hc by (destruct e; cbn; lia). split.
  - left.
  - intros x Hx. apply elem_of_cons in Hx as [->|Hx]; [done|]. specialize (H2 x Hx). lia.
  - destruct e; exact H3.
  - intros sid x when Hx Ha. assert (ss_cache s !! sid = Some (x, when)) as Hx' by (destruct e; cbn in Hx; [done|by apply lookup_delete_Some in Hx as [_ ?]|done]).
    destruct (H4 sid x when Hx' Ha) as [Hid Hh]. split; [done|]. eapply had_mono; [|done|exact Hh]. set_solver.
Qed.
Lemma wp_report {A} h (p : sprog (res A)) (f : A -> outcome) P t o : wps h p (ok P) -> (forall g a, P g a -> forall k, g ⊆ k -> post t o k (f a)) -> wps h (report f p) (post t o).
Proof. intros Hp Hf. eapply wp_then; [exact Hp|]. intros g [e|a] Hg Ha k Hk; [done|]. by apply (Hf g). Qed.
Lemma exec_post o s h : inv s h -> wps h (exec o) (post (ss_clock s) o).
Proof.
  intros Hi. assert (seen h (ss_clock s)) as Ht by (exists s; split; [apply Hi|lia]).
  destruct o; cbn [exec]; try (eapply wp_report; [|done]).
  - apply wp_create.
  - eapply wp_report; [by apply wp_cached|]. intros g r [Hs Hr] k Hk. unfold post, recent. cbn. rewrite Hs. eapply had_mono; [exact Hk|done|exact Hr].
  - eapply wp_then; [apply wp_rotate|]. intros g [r [e|]] _ _ k _; done.
  - apply wp_revoke.
  - apply wp_revoke_hash.
  - apply wp_advance.
  - apply wp_revoke_sessions.
  - apply wp_delete_expired.
  - apply wp_delete_revoked.
  - apply wp_login.
  - eapply wp_report; [by apply wp_validate|]. intros g a Hr k Hk. by apply (recent_mono _ _ g).
  - eapply wp_report; [by apply wp_reference|]. intros g a Hr k Hk. by apply (recent_mono _ _ g).
  - apply wp_advance_current.
  - by eapply wp_refresh.
  - apply wp_revoke_token.
Qed.
End laws.

(** Where a deployment starts: rows under their ids and no snapshots. *)
Definition fresh_store (s : SState) : Prop := (forall sid r, s.(ss_rows) !! sid = Some r -> r.(se_SID) = sid) /\ s.(ss_cache) = ∅.
(** In no store from [t0] on is the session active with the versions of the identity. *)
Definition out_since (t0 : Z) (i : AuthSessionIdentity) (h : list SState) : Prop :=
  forall s r, s ∈ h -> t0 <= s.(ss_clock) -> s.(ss_rows) !! i.(id_SessionID) = Some r -> is_active r.(se_Status) = true -> r.(se_Version) = i.(id_SessionVersion) -> r.(se_UserAuthVersion) <> i.(id_UserAuthVersion).

(** C24. Revoked sessions stay out.  Over every interleaving of any number of logins,
    validations, refreshes, revocations, version advances and clean-ups, with statements that
    fail before or after their effect and with keys that Redis loses: once a session is no
    longer active in the database with the versions an access token carries, no validation
    that starts a lifetime of a snapshot (and a millisecond) later lets that token in. *)
Theorem revoked_sessions_stay_out `{SC : SessionConfig} s c t o i t0 :
  0 < userCacheTTLSeconds -> fresh_store s -> reachable ss_clock exec env s c -> (t, o, Accepted i) ∈ c.(finished) -> out_since t0 i c.(past) ->
  t < t0 + userCacheTTLSeconds * second + millisecond.
Proof.
  intros Httl [Hr Hc] Hreach Hin Hout.
  pose proof (finished_post ss_clock exec env inv post (env_inv Httl) (exec_post Httl) s c t o (Accepted i)) as Hp. destruct Hp as (x & r & Hx & Hrow & Ha & Hv & Hav & Hle); [|done|done|].
  { split; [left|intros x Hx; apply list_elem_of_singleton in Hx; subst; lia|done|]. intros sid e when. by rewrite Hc. }
  unfold ttl in Hle. destruct (Z.lt_ge_cases (ss_clock x) t0) as [Hlt|Hge]; [lia|]. by destruct (Hout x r Hx Hge Hrow Ha Hv).
Qed.

(** ** A sample *)

Definition sample_config : SessionConfig :=
  Build_SessionConfig true 60 50 100 86400 7 (fun s => "h:" +:+ s) (fun sid s => "n" +:+ s) (fun _ => true).
Definition sample_store : SState := mkSState ∅ ∅ {[7 := mkUserAuth 1 1]} {[7 := mkUserAuth 1 1]} (1000000 * second).
Definition sample_identity : AuthSessionIdentity := mkIdentity 7 "sid" 1 1.
(** A login; a validation that misses the snapshot and reads the row; the session is revoked
    and Redis loses the denial; the validation writes what it read, and another one is let in
    a second after the revocation. *)
Definition sample_schedule : list (act (Op := Op) World) :=
  [AStart (OpLogin "sid" "x" 7 0 "password" "" "")] ++ repeat (ARun 0) 30 ++ [AEnv (Lose "sid"); AStart (OpValidate sample_identity)] ++ repeat (ARun 0) 4 ++
  [AEnv (Tick (Z.to_nat 1000)); AStart (OpRevoke 7 "sid" "logout")] ++ repeat (ARun 0) 9 ++ [AEnv (Lose "sid"); AEnv (Tick 1000)] ++ repeat (ARun 0) 6 ++
  [AStart (OpValidate sample_identity)] ++ repeat (ARun 0) 6.
Definition sample_end : Config := foldl (perform ss_clock (exec (SC := sample_config)) world) (start_config sample_store) sample_schedule.
Definition out_check (t0 : Z) (i : AuthSessionIdentity) (h : list SState) : bool :=
  forallb (fun s => (s.(ss_clock) <? t0) || match s.(ss_rows) !! i.(id_SessionID) with Some r => negb (is_active r.(se_Status)) | None => true end) h.
Lemma out_check_ok t0 i h : out_check t0 i h = true -> out_since t0 i h.
Proof.
  unfold out_check. rewrite forallb_forall. intros H s r Hs Ht Hr Ha. specialize (H s (proj1 (list_elem_of_In _ _) Hs)). rewrite Hr, Ha in H. apply orb_true_iff in H as [H|H]; [|done]. apply Z.ltb_lt in H. lia.
Qed.
Lemma sample_end_reachable : reachable ss_clock (exec (SC := sample_config)) env sample_store sample_end.
Proof. apply schedule_reachable. intros e s. by exists e. Qed.
Lemma revoked_sessions_stay_out_witness :
  1000000 * second + 2000 < 1000000 * second + 1001 + 60 * second + millisecond /\ (1000000 * second + 2000, OpValidate sample_identity, Accepted sample_identity) ∈ sample_end.(finished).
Proof.
  assert ((1000000 * second + 2000, OpValidate sample_identity, Accepted sample_identity) ∈ sample_end.(finished)) as Hin by (vm_compute; left).
  split; [|exact Hin]. apply (revoked_sessions_stay_out (SC := sample_config) sample_store sample_end _ (OpValidate sample_identity) sample_identity).
  - vm_compute. reflexivity.
  - split; [intros sid r H; discriminate H|reflexivity].
  - exact sample_end_reachable.
  - exact Hin.
  - apply out_check_ok. vm_compute. reflexivity.
Defined.
