(* ===== verification/SessionRefresh.v ===== *)
(** * A refresh token is exchanged once (theorems on Session)

    The row of a session holds the digest of its refresh token; a rotation replaces it by
    compare-and-swap.  Over every interleaving at most one rotation succeeds with a token. *)

From stdpp Require Import base tactics numbers list sets gmap strings sorting relations.
From Stdlib Require Import ZArith Lia.
From S2P Require Import Prelude Steps Session SessionLogin SessionLaws.
Open Scope Z_scope.
Open Scope steps_scope.

Section refresh.
Context `{SC : SessionConfig} (age : string -> nat).

(** The digest [h] of a session is replaced, and it is past. *)
Definition replaced (k : string * string) (s s' : SState) : bool :=
  match s.(ss_rows) !! k.1, s'.(ss_rows) !! k.1 with
  | Some r, Some r' => String.eqb r.(se_RefreshHash) k.2 && negb (String.eqb r'.(se_RefreshHash) k.2)
  | _, _ => false
  end.
Definition outdated (k : string * string) (s : SState) : Prop := exists r, s.(ss_rows) !! k.1 = Some r /\ (age k.2 < age r.(se_RefreshHash))%nat.
Definition anything (s : SState) : Prop := True.
Abbreviation flw := (follows anything replaced outdated).

(** Statements that leave every digest alone are lawful. *)
Definition same_hashes {B : Type} (f : SState -> B * SState) : Prop :=
  forall s sid r, s.(ss_rows) !! sid = Some r -> exists r', (f s).2.(ss_rows) !! sid = Some r' /\ r'.(se_RefreshHash) = r.(se_RefreshHash).
Lemma same_lawful {B} (f : SState -> B * SState) s : same_hashes f -> lawful anything replaced outdated s (f s).2.
Proof.
  intros Hf. split; [done|]. split.
  - intros k (r & Hr & Ha). destruct (Hf s _ _ Hr) as (r' & Hr' & E). exists r'. by rewrite E.
  - intros k. unfold replaced. destruct (ss_rows s !! k.1) as [r|] eqn:Hr; [|done]. destruct (Hf s _ _ Hr) as (r' & -> & ->). by destruct (String.eqb _ _).
Qed.
(** A calm program leaves every digest alone. *)
Definition calm {A} (p : sprog A) : Prop := forall own, flw own p (fun _ _ => True).
Lemma calm_done {A} (a : A) : calm (Done a).
Proof. by intros own. Qed.
Lemma calm_bind {A B} (p : sprog A) (q : A -> sprog B) : calm p -> (forall a, calm (q a)) -> calm (pbind p q).
Proof. intros Hp Hq own. eapply follows_then; [apply Hp|]. intros l a _. apply Hq. Qed.
Lemma calm_try {A B} (p : sprog (res A)) (q : A -> sprog (res B)) : calm p -> (forall a, calm (q a)) -> calm (try_ p q).
Proof. intros Hp Hq. apply calm_bind; [done|]. intros [e|a]; [apply calm_done|apply Hq]. Qed.
Lemma calm_time : calm time_Now.
Proof. by intros own. Qed.
Lemma calm_stmt {B : Set} (f : SState -> B * SState) : same_hashes f -> calm (stmt f).
Proof. intros Hf own. split; [|done]. intros s _. split; [by apply same_lawful|done]. Qed.
Lemma calm_db {B : Set} (f : SState -> B * SState) : same_hashes f -> calm (db f).
Proof. intros Hf. apply calm_bind; [by apply calm_stmt|]. intros [b|]; apply calm_done. Qed.
Lemma calm_first {B : Set} (f : SState -> option B * SState) : same_hashes f -> calm (first f).
Proof. intros Hf. apply calm_try; [by apply calm_db|]. intros b. apply calm_done. Qed.
Lemma reads_same {B} (f : SState -> B * SState) : (forall s, (f s).2 = s) -> same_hashes f.
Proof. intros Hf s sid r Hr. rewrite Hf. eauto. Qed.
Lemma script_same e x : same_hashes (cache_script e x).
Proof. intros s sid r Hr. exists r. split; [|done]. unfold cache_script. by repeat case_match. Qed.
Lemma update_same p f sid : (forall r, (f r).(se_RefreshHash) = r.(se_RefreshHash)) -> same_hashes (update_row p f sid).
Proof.
  intros Hf s k r Hr. unfold update_row. destruct (ss_rows s !! sid) as [r0|] eqn:E; [|eauto]. destruct (p r0); [|eauto]. cbn. destruct (decide (k = sid)) as [->|Hne]; [|rewrite lookup_insert_ne by done; eauto].
  rewrite lookup_insert_eq. rewrite E in Hr. injection Hr as <-. eauto.
Qed.
Lemma update_rows_same p f sids : (forall r, (f r).(se_RefreshHash) = r.(se_RefreshHash)) -> same_hashes (update_rows p f sids).
Proof. intros Hf s k r Hr. cbn. rewrite map_lookup_imap, Hr. cbn. eexists. split; [done|]. by destruct (_ && _). Qed.
Lemma create_same r : same_hashes (create_row r).
Proof.
  intros s k x Hx. unfold create_row. destruct (ss_rows s !! se_SID r) eqn:E; [eauto|]. cbn. rewrite lookup_insert_ne; [eauto|]. congruence.
Qed.
(** Programs of calm statements are calm. *)
Ltac calm :=
  repeat first
    [ apply calm_done | apply calm_time | (apply calm_db; first [apply reads_same; by intros ? | by apply update_same | by apply update_rows_same | apply create_same])
    | (apply calm_first; apply reads_same; by intros ?) | (apply calm_stmt; first [apply script_same | apply reads_same; by intros ?])
    | assumption | (apply calm_try; [|intros ?]) | (apply calm_bind; [|intros ?]) | case_match ].
Lemma calm_write e d : calm (writeUserSessionCache e d).
Proof. unfold writeUserSessionCache. calm. Qed.
Lemma calm_publish r d other : calm (publish r d other).
Proof. unfold publish, confirmUserSessionActiveSnapshot. apply calm_bind; [apply calm_write|]. intros x. calm. Qed.
Lemma calm_fence r status now reason : calm (writeUserSessionDenyFence r status now reason).
Proof. unfold writeUserSessionDenyFence. case_match; [calm|apply calm_write]. Qed.
Lemma calm_finalize r now reason : calm (finalize_revoke r now reason).
Proof. unfold finalize_revoke. apply calm_bind; [apply calm_write|]. intros x. calm. Qed.
Lemma calm_create r : calm (CreateUserSession r).
Proof.
  unfold CreateUserSession, createUserSessionWithTx, userSessionCacheDeadline. apply calm_bind; [calm|]. intros d. apply calm_try; [calm|]. intros x. apply calm_try; [apply calm_publish|]. intros u. calm.
Qed.
Lemma calm_from_db sid : calm (session_from_db sid).
Proof.
  unfold session_from_db, GetUserSessionBySID, userSessionCacheDeadline. apply calm_bind; [calm|]. intros d. apply calm_try; [calm|]. intros r. apply calm_bind; [calm|]. intros t. case_match; [apply calm_bind; [apply calm_write|]; intros x; calm|].
  case_match; [|calm]. apply calm_try; [apply calm_publish|]. intros x. calm.
Qed.
Lemma calm_cached sid : calm (GetUserSessionCached sid).
Proof.
  pose proof (calm_from_db sid) as Hd. unfold GetUserSessionCached. case_match; [calm|]. case_match; [|done]. apply calm_bind; [unfold getUserSessionCache; calm|]. intros [e|e]; [|calm]. by destruct e; try (apply calm_done).
Qed.
Lemma calm_reused u sid now r : calm (refresh_reused u sid now r).
Proof. unfold refresh_reused, rfail. apply calm_bind; [apply calm_fence|]. intros x. case_match; [calm|]. apply calm_bind; [calm|]. intros y. case_match; [calm|]. case_match; [calm|]. apply calm_bind; [apply calm_write|]. intros ?. calm. Qed.
Lemma calm_revoke u sid reason : calm (RevokeUserSession u sid reason).
Proof.
  unfold RevokeUserSession. case_match; [calm|]. apply calm_bind; [calm|]. intros t. apply calm_bind; [calm|]. intros [e|r]; [destruct e; calm|]. case_match; [calm|]. apply calm_try; [apply calm_fence|]. intros x.
  apply calm_try; [calm|]. intros c. case_match; [calm|]. apply calm_try; [calm|]. intros n. case_match; [|calm]. apply calm_bind; [apply calm_finalize|]. intros y. calm.
Qed.
Lemma calm_revoke_hash sid p reason : calm (RevokeUserSessionByRefreshHash sid p reason).
Proof.
  unfold RevokeUserSessionByRefreshHash. case_match; [calm|]. apply calm_bind; [calm|]. intros t. apply calm_bind; [calm|]. intros [e|r]; [destruct e; calm|]. cbn zeta. case_match; [calm|]. apply calm_try; [apply calm_fence|]. intros x.
  apply calm_try; [calm|]. intros n. case_match; [|calm]. apply calm_bind; [apply calm_finalize|]. intros y. calm.
Qed.
Lemma calm_advance u sid v av n : calm (AdvanceUserSessionAuthVersion u sid v av n).
Proof.
  unfold AdvanceUserSessionAuthVersion, userSessionCacheDeadline. case_match; [calm|]. apply calm_bind; [calm|]. intros d. apply calm_bind; [calm|]. intros t. apply calm_try; [calm|]. intros r. case_match; [calm|]. cbn zeta. apply calm_try; [calm|].
  intros m. case_match; [calm|]. apply calm_try; [apply calm_publish|]. intros x. calm.
Qed.
Lemma calm_revoke_rounds rounds u x reason now total : calm (revoke_rounds rounds u x reason now total).
Proof.
  revert total. induction rounds as [|rounds IH]; intros total; cbn [revoke_rounds]; [calm|]. apply calm_try; [calm|]. intros l. case_match; [calm|].
  apply calm_try; [|intros y]. { generalize (u0 :: l0). intros fs. induction fs as [|f fs IHf]; cbn [fence_all]; [calm|]. apply calm_try; [apply calm_fence|]. intros z. exact IHf. }
  apply calm_try; [calm|]. intros revoked. apply calm_try; [case_match; calm|]. intros n. apply calm_bind; [|intros z; apply IH].
  clear. induction revoked as [|f fs IHf]; cbn [finalize_all]; [calm|]. apply calm_bind; [apply calm_finalize|]. intros z. exact IHf.
Qed.
Lemma calm_login sid secret u v m ip ua : calm (createLoginSession sid secret u v m ip ua).
Proof.
  unfold createLoginSession, GetUserCache, CountActiveUserSessions, CountUserSessionsCreatedSince, or_now, newLoginSession. apply calm_try; [calm|]. intros user. case_match; [calm|]. case_match; [calm|]. apply calm_bind; [calm|]. intros t.
  apply calm_try; [calm|]. intros n. case_match; [calm|]. apply calm_try; [calm|]. intros n'. case_match; [calm|]. apply calm_bind; [calm|]. intros r. apply calm_try; [apply calm_create|]. intros r'. case_match; [|calm]. apply calm_bind; [apply calm_revoke|]. intros x. calm.
Qed.
Lemma calm_validate i : calm (ValidateLoginSession i).
Proof.
  unfold ValidateLoginSession, GetUserCache. apply calm_bind; [apply calm_cached|]. intros [e|r]; [destruct e; calm|]. calm.
Qed.

(** ** The compare-and-swap *)

Section swap.
Context (q : UserSession -> bool) (sid presented next : string) (f : UserSession -> UserSession).
Hypothesis q_hash : forall r, q r = true -> r.(se_RefreshHash) = presented.
Hypothesis f_hash : forall r, (f r).(se_RefreshHash) = next.
Hypothesis older : (age presented < age next)%nat.
Lemma swap_lawful s : lawful anything replaced outdated s (update_row q f sid s).2.
Proof.
  unfold update_row. destruct (ss_rows s !! sid) as [r0|] eqn:E; [|by apply (same_lawful (fun s => (tt, s)) s), reads_same]. destruct (q r0) eqn:Eq; [|by apply (same_lawful (fun s => (tt, s)) s), reads_same].
  cbn [snd]. pose proof (q_hash r0 Eq) as Hp. split; [done|]. split.
  - intros k (r & Hr & Ha). unfold outdated. cbn. destruct (decide (k.1 = sid)) as [Ek|Hne]; [|rewrite lookup_insert_ne by done; eauto]. rewrite Ek in *. rewrite lookup_insert_eq. exists (f r0). split; [done|].
    rewrite E in Hr. injection Hr as <-. rewrite f_hash. rewrite Hp in Ha. lia.
  - intros k. unfold replaced, outdated. cbn. destruct (ss_rows s !! k.1) as [r|] eqn:Hr; [|done]. destruct (decide (k.1 = sid)) as [Ek|Hne].
    + rewrite Ek in *. rewrite lookup_insert_eq. rewrite E in Hr. injection Hr as <-. intros Hf. apply andb_prop in Hf as [Hf _]. apply String.eqb_eq in Hf. split.
      * intros (r1 & Hr1 & Ha). injection Hr1 as <-. rewrite Hf in Ha. lia.
      * exists (f r0). split; [done|]. rewrite f_hash. rewrite <- Hf, Hp. done.
    + rewrite lookup_insert_ne, Hr by done. by destruct (String.eqb _ _).
Qed.
Lemma swap_fires s : (update_row q f sid s).1 <> 0 -> replaced (sid, presented) s (update_row q f sid s).2 = true.
Proof.
  unfold update_row. destruct (ss_rows s !! sid) as [r0|] eqn:E; [|done]. destruct (q r0) eqn:Eq; [|done]. intros _. unfold replaced. cbn. rewrite E, lookup_insert_eq, f_hash, (q_hash r0 Eq), String.eqb_refl. cbn.
  destruct (String.eqb_spec next presented) as [->|]; [lia|done].
Qed.
Lemma flw_swap own : flw own (db (update_row q f sid)) (fun l x => match x with inr n => n <> 0 -> wins replaced (sid, presented) l | inl _ => True end).
Proof.
  split; [|done]. intros s _. split; [apply swap_lawful|]. split; [|done]. intros Hn. exists s, (update_row q f sid s).2. split; [left|by apply swap_fires].
Qed.
End swap.
Lemma flw_reused own u sid now r : flw own (refresh_reused u sid now r) (fun _ x => x.2 <> None).
Proof.
  unfold refresh_reused, rfail. eapply follows_then; [apply calm_fence|]. intros l [e|x] _; [done|]. eapply follows_then; [calm|]. intros l1 [e|n] _; [done|]. case_match; [done|]. eapply follows_then; [apply calm_write|]. done.
Qed.
(** A rotation that succeeds replaced the digest itself. *)
Lemma flw_rotate rounds own u sid p n now grace : (age p < age n)%nat ->
  flw own (rotate_loop rounds u sid p n now grace) (fun l x => x.2 = None -> wins replaced (sid, p) l).
Proof.
  intros Ha. revert own. induction rounds as [|rounds IH]; intros own; [done|]. cbn [rotate_loop]. eapply follows_then; [apply calm_bind; [calm|intros ?; apply calm_done]|]. intros l d _.
  eapply follows_then; [calm|]. intros l1 [e|r] _; [done|]. case_match; [done|]. case_match.
  - eapply follows_then; [apply (flw_swap _ sid p n)|].
    + intros x Hx. apply andb_prop in Hx as [_ Hx]. by apply String.eqb_eq in Hx.
    + done.
    + done.
    + intros l2 [e|m] Hm; [done|]. destruct (Z.eqb_spec m 0) as [_|Hne]; [apply IH|]. eapply follows_then; [exact (follows_grow _ _ _ l2 _ _ (calm_publish _ _ _ l2))|]. intros l3 x [_ Hl]. cbn in Hm. specialize (Hm Hne). destruct x; [done|]. intros _. by apply (wins_mono _ _ l2).
  - case_match; [done|]. case_match; [done|]. eapply follows_mono; [apply flw_reused|]. by intros l2 x Hx E.
Qed.
Lemma flw_rotation own u sid p n now grace : (age p < age n)%nat ->
  flw own (RotateUserSessionRefresh u sid p n now grace) (fun l x => x.2 = None -> wins replaced (sid, p) l).
Proof.
  intros Ha. unfold RotateUserSessionRefresh, or_now. case_match; [done|]. eapply follows_then; [case_match; calm|]. intros l t _. cbn zeta. case_match; [done|]. by apply flw_rotate.
Qed.
(** A refresh replaces at most the digest of the secret it was given. *)
Lemma flw_refresh own raw expected : (forall sid x, (age (hashRefreshSecret x) < age (hashRefreshSecret (deriveNextRefreshSecret sid x)))%nat) ->
  flw own (RefreshLoginSession raw expected) (fun _ _ => True).
Proof.
  intros Ha. unfold RefreshLoginSession. case_match; [|done]. case_match. cbn zeta. case_match; [done|]. eapply follows_then; [apply calm_cached|]. intros l [e|r] _; [by destruct e|]. eapply follows_then; [calm|]. intros l1 now _. case_match; [done|].
  eapply follows_then; [unfold GetUserCache; calm|]. intros l2 [e|c] _; [done|]. eapply follows_then; [unfold GetSelfUserById; calm|]. intros l3 [e|u] _; [done|]. case_match; [eapply follows_then; [apply calm_revoke|done]|].
  eapply follows_then; [calm|]. intros l4 t _. eapply follows_then; [apply flw_rotation, Ha|]. done.
Qed.
Lemma calm_advance_current rounds i n reason : calm (advanceCurrentSessionToVersion rounds i n reason).
Proof.
  unfold advanceCurrentSessionToVersion, RevokeOtherUserSessions, revokeUserSessions. apply calm_try; [apply calm_advance|]. intros r. apply calm_try; [|intros x; calm]. case_match; [calm|]. apply calm_bind; [calm|]. intros t. apply calm_revoke_rounds.
Qed.
Lemma calm_reference u sid : calm (ValidateSessionReference u sid).
Proof. unfold ValidateSessionReference. case_match; [calm|]. apply calm_try; [apply calm_cached|]. intros r. cbn zeta. apply calm_try; [apply calm_validate|]. intros x. calm. Qed.

(** ** Runs *)

(** New digests are new; rows are kept. *)
Definition forward (o : Op) : Prop :=
  match o with
  | OpRotate _ _ p n _ _ => (age p < age n)%nat
  | OpRefresh _ _ => forall sid x, (age (hashRefreshSecret x) < age (hashRefreshSecret (deriveNextRefreshSecret sid x)))%nat
  | OpDeleteExpired _ _ | OpDeleteRevoked _ _ => False
  | _ => True
  end.
Definition rotated (o : Op) (own : list (SState * SState)) (a : outcome) : Prop :=
  match o, a with OpRotate _ sid p _ _ _, Ended => wins replaced (sid, p) own | _, _ => True end.
Lemma calm_report {A} (p : sprog (res A)) f : calm p -> calm (report f p).
Proof. intros Hp. apply calm_bind; [done|]. intros r. calm. Qed.
Lemma exec_forward o : forward o -> flw [] (exec o) (rotated o).
Proof.
  destruct o; cbn [forward exec]; intros Ho; try done; try (eapply follows_mono; [apply calm_report|done]).
  - apply calm_create.
  - apply calm_cached.
  - eapply follows_then; [by apply flw_rotation|]. intros l [r [e|]] Hx; [done|]. by apply Hx.
  - apply calm_revoke.
  - apply calm_revoke_hash.
  - apply calm_advance.
  - unfold revokeUserSessions. case_match; [calm|]. apply calm_bind; [calm|]. intros t. apply calm_revoke_rounds.
  - apply calm_login.
  - apply calm_validate.
  - apply calm_reference.
  - apply calm_advance_current.
  - intros own. by apply flw_refresh.
  - unfold RevokeByRefreshToken. case_match; [|calm]. case_match. cbn zeta. case_match; [calm|]. apply calm_try; [apply calm_revoke_hash|]. intros x. calm.
Qed.
Lemma env_forward s s' : env s s' -> anything s -> anything s' /\ forall k, outdated k s -> outdated k s'.
Proof. intros [e ->] _. split; [done|]. intros k (r & Hr & Ha). exists r. split; [by destruct e|done]. Qed.
End refresh.

(** C25. A refresh token is exchanged once.  Over every interleaving of rotations, refreshes,
    logins, validations, revocations and version advances, with statements that fail before
    or after their effect: of the rotations of a session that present one digest at most one
    succeeds, as long as a new digest is newer than the one it replaces and no clean-up
    deletes rows. *)
Theorem refresh_token_exchanged_once `{SC : SessionConfig} (age : string -> nat) s c i j ui uj sid p ni nj ti tj gi gj owni ownj :
  xreachable ss_clock exec (forward age) env s c ->
  c.(xfinished) !! i = Some (OpRotate ui sid p ni ti gi, owni, Ended) -> c.(xfinished) !! j = Some (OpRotate uj sid p nj tj gj, ownj, Ended) -> i = j.
Proof.
  intros Hr Hi Hj. destruct (decide (i = j)) as [|Hij]; [done|exfalso]. pose proof (finished_follows ss_clock _ _ _ _ _ _ _ (exec_forward age) (env_forward age) s c) as Hf.
  pose proof (Hf i _ _ _ I Hr Hi) as Wi. pose proof (Hf j _ _ _ I Hr Hj) as Wj. cbn in Wi, Wj.
  exact (one_winner ss_clock _ _ _ _ _ _ _ (exec_forward age) (env_forward age) s c (sid, p) i j _ _ _ _ _ _ I Hr Hij Hi Hj Wi Wj).
Qed.

(** ** A sample *)

(** Two rotations with one token in lock step, a third after them. *)
Definition rotation_store : SState :=
  mkSState {["sid" := mkUserSession "sid" 7 1 1 UserSessionStatusActive "h:x" "" 0 "password" "" "" 1000000 1000000 2000000 0 ""]} ∅ ∅ ∅ (1000100 * second).
Definition sample_rotation : Op := OpRotate 7 "sid" "h:x" "h:nx" 0 (10 * second).
Definition rotation_schedule : list (act (Op := Op) World) :=
  [AStart sample_rotation; AStart sample_rotation] ++ repeat (ARun 1) 60 ++ [AStart sample_rotation] ++ repeat (ARun 0) 20.
Definition rotation_end : XConfig := foldl (xperform ss_clock (exec (SC := sample_config)) world) (mkXConfig rotation_store [] [] []) rotation_schedule.
Definition rotation_outcomes (c : XConfig (S := SState) (Op := Op) (R := outcome)) : list outcome := (fun x => x.2) <$> c.(xfinished).
Lemma rotation_end_reachable : xreachable ss_clock (exec (SC := sample_config)) (forward (SC := sample_config) String.length) env rotation_store rotation_end.
Proof.
  apply xschedule_reachable; [intros e s; by exists e|]. assert (forward (SC := sample_config) String.length sample_rotation) as Hf by (cbn; lia).
  unfold rotation_schedule. repeat apply Forall_app_2; repeat apply Forall_cons_2; first [exact Hf|exact I|apply Forall_nil_2].
Qed.
Definition rotation_winner : list (SState * SState) := match rotation_end.(xfinished) !! 0%nat with Some x => x.1.2 | None => [] end.
Lemma refresh_token_exchanged_once_witness :
  rotation_outcomes rotation_end = [Ended; Failed ErrUserSessionRefreshRace; Failed ErrUserSessionRefreshRace] /\ 0%nat = 0%nat.
Proof.
  split; [vm_compute; reflexivity|].
  apply (refresh_token_exchanged_once (SC := sample_config) String.length rotation_store rotation_end 0 0 7 7 "sid" "h:x" "h:nx" "h:nx" 0 0 (10 * second) (10 * second) rotation_winner rotation_winner).
  - exact rotation_end_reachable.
  - vm_compute. reflexivity.
  - vm_compute. reflexivity.
Defined.
