(* ===== verification/AuthFlow.v ===== *)
(** * One-time flows of authentication (model/auth_flow.go, model/login_verification.go)

    A flow is a row that a ceremony of authentication creates and consumes once.  A
    transaction holds the locks of the rows it writes, so it is one statement of a program
    (Steps); when it fails nothing of it stays. *)

From stdpp Require Import base tactics numbers list gmap strings.
From Stdlib Require Import ZArith Lia.
From S2P Require Import Prelude Steps Session SessionLogin.
Open Scope Z_scope.
Open Scope steps_scope.

(** ** Data *)

Inductive AErr :=
| ErrSession (e : SErr) | ErrAuthFlowInvalid | ErrAuthFlowExpired | ErrAuthFlowConsumed
| ErrTwoFANotEnabled | ErrTwoFAAlreadyEnabled | ErrTwoFASetupInvalid | ErrTwoFACodeInvalid
| ErrVerificationFailed | ErrVerificationUnavailable | ErrVerificationLocked | ErrVerificationForbidden | ErrProofScope | ErrProofMethod
| ErrUserIdEmpty | ErrTwoFAIdEmpty | ErrTwoFALocked | ErrBackupCodeFormat | ErrNumericFormat | ErrAttemptsConflict | ErrHashing | ErrPayload
| ErrFlowDuplicate | ErrFlowStore | ErrNoRecord.
Definition ares (A : Type) : Type := result AErr A.

Record AuthFlow := mkAuthFlow {
  af_Id : Z;
  af_TokenHash : string;
  af_Purpose : string;
  af_Provider : string;
  af_Intent : string;
  af_UserId : Z;
  af_SessionId : string;
  af_Payload : string;
  af_CreatedAt : Z;
  af_ExpiresAt : Z;
  af_ConsumedAt : option Z
}.
Record AuthFlowCreate := mkFlowCreate { fc_Purpose : string; fc_Provider : string; fc_Intent : string; fc_UserId : Z; fc_SessionId : string; fc_Payload : string; fc_ExpiresAt : option Z }.
Record AuthFlowMatch := mkFlowMatch { fm_Purpose : string; fm_Provider : string; fm_Intent : string; fm_UserId : Z; fm_SessionId : string }.
Definition AuthFlowPurposeTwoFASetup : string := "2fa_setup".
Definition AuthFlowPurposeLoginVerification : string := "login_verification".
Definition AuthFlowPurposeSecurityProof : string := "security_proof".
Definition AuthFlowDefaultCleanupRetention : Z := 24 * 3600 * second.

Record TwoFA := mkTwoFA { tf_Id : Z; tf_UserId : Z; tf_Secret : string; tf_IsEnabled : bool; tf_FailedAttempts : Z; tf_LockedUntil : option Z; tf_LastUsedAt : option Z }.
Record TwoFABackupCode := mkBackupCode { bc_Id : Z; bc_UserId : Z; bc_CodeHash : string; bc_IsUsed : bool; bc_UsedAt : option Z; bc_Deleted : bool }.
(** What else is read of a user: the role, and whether there are a password and passkeys. *)
Record UserProfile := mkProfile { up_Role : Z; up_HasPassword : bool; up_HasPasskey : bool }.

(** ** The store *)

(** The store of the sessions with the tables of this file; ids are drawn in order. *)
Record AState := mkAState {
  as_base : SState;
  as_profiles : gmap Z UserProfile;
  as_flows : gmap Z AuthFlow;
  as_next_flow : Z;
  as_twofa : gmap Z TwoFA;
  as_next_twofa : Z;
  as_codes : gmap Z TwoFABackupCode;
  as_next_code : Z
}.
Definition as_clock (s : AState) : Z := s.(as_base).(ss_clock).
Definition set_base (b : SState) (s : AState) : AState := mkAState b s.(as_profiles) s.(as_flows) s.(as_next_flow) s.(as_twofa) s.(as_next_twofa) s.(as_codes) s.(as_next_code).
Definition set_flows (m : gmap Z AuthFlow) (s : AState) : AState := mkAState s.(as_base) s.(as_profiles) m s.(as_next_flow) s.(as_twofa) s.(as_next_twofa) s.(as_codes) s.(as_next_code).
Definition set_twofa (m : gmap Z TwoFA) (s : AState) : AState := mkAState s.(as_base) s.(as_profiles) s.(as_flows) s.(as_next_flow) m s.(as_next_twofa) s.(as_codes) s.(as_next_code).
Definition set_codes (m : gmap Z TwoFABackupCode) (s : AState) : AState := mkAState s.(as_base) s.(as_profiles) s.(as_flows) s.(as_next_flow) s.(as_twofa) s.(as_next_twofa) m s.(as_next_code).
(** [Create]: the row gets the next id. *)
Definition new_flow (f : Z -> AuthFlow) (s : AState) : AState :=
  mkAState s.(as_base) s.(as_profiles) (<[s.(as_next_flow) := f s.(as_next_flow)]> s.(as_flows)) (s.(as_next_flow) + 1) s.(as_twofa) s.(as_next_twofa) s.(as_codes) s.(as_next_code).
Definition new_twofa (f : Z -> TwoFA) (s : AState) : AState :=
  mkAState s.(as_base) s.(as_profiles) s.(as_flows) s.(as_next_flow) (<[s.(as_next_twofa) := f s.(as_next_twofa)]> s.(as_twofa)) (s.(as_next_twofa) + 1) s.(as_codes) s.(as_next_code).
Definition new_code (f : Z -> TwoFABackupCode) (s : AState) : AState :=
  mkAState s.(as_base) s.(as_profiles) s.(as_flows) s.(as_next_flow) s.(as_twofa) s.(as_next_twofa) (<[s.(as_next_code) := f s.(as_next_code)]> s.(as_codes)) (s.(as_next_code) + 1).
(** The rows of a table that satisfy a condition, and [Updates] of them with the number of
    rows that were changed. *)
Definition rows {A} (p : A -> bool) (m : gmap Z A) : list A := filter (fun r => p r = true) (map_to_list m).*2.
Definition updates {A} (p : A -> bool) (f : A -> A) (m : gmap Z A) : gmap Z A := (fun r => if p r then f r else r) <$> m.
Definition affected {A} (p : A -> bool) (m : gmap Z A) : Z := Z.of_nat (length (rows p m)).

(** ** Programs *)

Definition aprog (A : Type) : Type := prog AState A.
Definition A_Now : aprog Z := Now Done.
(** A transaction: all of it or nothing. *)
Definition atomically {A : Type} (m : M AState AErr A) (s : AState) : ares A * AState :=
  match m s with (Ok a, s') => (Ok a, s') | (Err e, _) => (Err e, s) end.
Definition transaction {A : Set} (m : M AState AErr A) : aprog (ares A) :=
  let* r := stmt (B := result AErr A) (atomically m) in Done (match r with None => Err ErrFlowStore | Some x => x end).
Definition andThen {A B} (p : aprog (ares A)) (q : A -> aprog (ares B)) : aprog (ares B) :=
  let* r := p in match r with Err e => Done (Err e) | Ok a => q a end.
(** Programs of the sessions run on their part of the store; in a transaction without
    interruption. *)
Fixpoint on_sessions {A} (p : sprog A) : aprog A :=
  match p with
  | Done a => Done a
  | Now k => Now (fun t => on_sessions (k t))
  | Stmt B f k => Stmt B (fun s => let (b, x) := f s.(as_base) in (b, set_base x s)) (fun r => on_sessions (k r))
  end.
Definition session_result {A} (r : res A) : ares A := match r with inl e => Err (ErrSession e) | inr a => Ok a end.
Definition sessions {A} (p : sprog (res A)) : aprog (ares A) := let* r := on_sessions p in Done (session_result r).
Definition within {A} (p : sprog (res A)) : M AState AErr A :=
  fun s => let (r, b) := run_alone ss_clock [] p s.(as_base) in (session_result r, set_base b s).

(** ** Settings *)

(** Keyed digests, encodings of payloads, the check of a time-based code and the hash of
    passwords are parameters. *)
Record loginFlowPayload := mkLoginPayload { lp_AuthVersion : Z; lp_LoginMethod : string }.
#[export] Instance loginFlowPayload_eq_dec : EqDecision loginFlowPayload.
Proof. solve_decision. Defined.
Record AuthFlowAuthorization := mkAuthorization { aa_Identity : AuthSessionIdentity; aa_ProofID : Z; aa_Scope : string; aa_ContextHash : string; aa_Method : string }.
Record twoFAEnrollmentPayload := mkEnrollment { ep_TwoFAID : Z; ep_SecretHash : string; ep_Authorization : option AuthFlowAuthorization }.
Class AuthConfig := {
  auth_sessions :: SessionConfig;
  authFlowTokenHash : string -> string;
  enrollmentHash : string -> string;
  totp_Validate : string -> string -> Z -> bool;
  Password2Hash : string -> string -> option string;
  ValidatePasswordAndHash : string -> string -> bool;
  MarshalLogin : loginFlowPayload -> string;
  UnmarshalLogin : string -> option loginFlowPayload;
  MarshalEnrollment : twoFAEnrollmentPayload -> string;
  UnmarshalEnrollment : string -> option twoFAEnrollmentPayload;
  PasskeyEnabled : bool
}.

Section flow.
Context `{AC : AuthConfig}.

(** ** Identities *)

(** [First] in a transaction. *)
Definition First {A} (l : list A) : M AState AErr A := match l with [] => throw ErrNoRecord | x :: _ => ret x end.
Definition inactive {A} : M AState AErr A := throw (ErrSession ErrUserSessionInactive).
Definition ValidateAuthSessionWithTx (i : AuthSessionIdentity) : M AState AErr unit :=
  if (i.(id_UserID) <=? 0) || String.eqb i.(id_SessionID) "" || (i.(id_UserAuthVersion) <=? 0) || (i.(id_SessionVersion) <=? 0) then inactive
  else
    let! s := get in
    match s.(as_base).(ss_users) !! i.(id_UserID) with
    | None => throw ErrNoRecord
    | Some user =>
        if negb (user.(ua_Status) =? UserStatusEnabled) || negb (user.(ua_AuthVersion) =? i.(id_UserAuthVersion)) then inactive
        else
          match (find_row (fun x => x.(se_UserID) =? i.(id_UserID)) i.(id_SessionID) s.(as_base)).1 with
          | None => throw ErrNoRecord
          | Some r => if inactive_row r (Unix (as_clock s)) || negb (r.(se_UserAuthVersion) =? i.(id_UserAuthVersion)) || negb (r.(se_Version) =? i.(id_SessionVersion)) then inactive else ret tt
          end
    end.

(** ** Flows *)

Definition applyAuthFlowMatch (token : string) (m : AuthFlowMatch) (f : AuthFlow) : bool :=
  String.eqb f.(af_TokenHash) (authFlowTokenHash token) && String.eqb f.(af_Purpose) m.(fm_Purpose)
  && (String.eqb m.(fm_Provider) "" || String.eqb f.(af_Provider) m.(fm_Provider)) && (String.eqb m.(fm_Intent) "" || String.eqb f.(af_Intent) m.(fm_Intent))
  && ((m.(fm_UserId) =? 0) || (f.(af_UserId) =? m.(fm_UserId))) && (String.eqb m.(fm_SessionId) "" || String.eqb f.(af_SessionId) m.(fm_SessionId)).
(** The unique index on the digest. *)
Definition flow_exists (hash : string) (s : AState) : bool := negb (affected (fun f => String.eqb f.(af_TokenHash) hash) s.(as_flows) =? 0).
(** [token] is drawn at random. *)
Definition createAuthFlowWithTx (token : string) (input : AuthFlowCreate) (now : Z) : M AState AErr (string * AuthFlow) :=
  match input.(fc_ExpiresAt) with
  | None => throw ErrAuthFlowInvalid
  | Some expiresAt =>
      if String.eqb (TrimSpace input.(fc_Purpose)) "" || (expiresAt <=? now) then throw ErrAuthFlowInvalid
      else
        let hash := authFlowTokenHash token in
        let! s := get in
        let flow id := mkAuthFlow id hash input.(fc_Purpose) input.(fc_Provider) input.(fc_Intent) input.(fc_UserId) input.(fc_SessionId) input.(fc_Payload) (as_clock s) expiresAt None in
        guardE (flow_exists hash s) ErrFlowDuplicate ;;
        modify (new_flow flow) ;;
        ret (token, flow s.(as_next_flow))
  end.
Definition CreateAuthFlow (token : string) (input : AuthFlowCreate) : aprog (ares (string * AuthFlow)) :=
  let* now := A_Now in transaction (createAuthFlowWithTx token input now).
Definition ClaimExternalAuthAssertionWithTx (purpose assertion : string) (expiresAt now : Z) : M AState AErr unit :=
  let purpose := TrimSpace purpose in
  let assertion := TrimSpace assertion in
  if String.eqb purpose "" || String.eqb assertion "" || (expiresAt <=? now) then throw ErrAuthFlowInvalid
  else
    let hash := authFlowTokenHash ("external:" +:+ purpose +:+ ":" +:+ assertion) in
    let! s := get in
    if flow_exists hash s then throw ErrAuthFlowConsumed
    else modify (new_flow (fun id => mkAuthFlow id hash purpose "" "" 0 "" "" (as_clock s) expiresAt (Some now))).
Definition ClaimExternalAuthAssertion (purpose assertion : string) (expiresAt : Z) : aprog (ares unit) :=
  let* now := A_Now in transaction (ClaimExternalAuthAssertionWithTx purpose assertion expiresAt now).
Definition GetAuthFlow (token : string) (m : AuthFlowMatch) : aprog (ares AuthFlow) :=
  if String.eqb token "" || String.eqb m.(fm_Purpose) "" then Done (Err ErrAuthFlowInvalid)
  else
    let* r := stmt (fun s => (head (rows (applyAuthFlowMatch token m) s.(as_flows)), s)) in
    match r with
    | None => Done (Err ErrFlowStore)
    | Some None => Done (Err ErrAuthFlowInvalid)
    | Some (Some flow) =>
        if bool_decide (flow.(af_ConsumedAt) <> None) then Done (Err ErrAuthFlowConsumed)
        else let* now := A_Now in Done (if flow.(af_ExpiresAt) <=? now then Err ErrAuthFlowExpired else Ok flow)
    end.
Definition consume (now : Z) (f : AuthFlow) : AuthFlow :=
  mkAuthFlow f.(af_Id) f.(af_TokenHash) f.(af_Purpose) f.(af_Provider) f.(af_Intent) f.(af_UserId) f.(af_SessionId) f.(af_Payload) f.(af_CreatedAt) f.(af_ExpiresAt) (Some now).
Definition consumable (token : string) (m : AuthFlowMatch) (now : Z) (f : AuthFlow) : bool :=
  applyAuthFlowMatch token m f && bool_decide (f.(af_ConsumedAt) = None) && (now <? f.(af_ExpiresAt)).
(** What the transaction of a consumption does, begun at [now].  What the action leaves in
    the variables of the caller is its result. *)
Definition consume_tx {B} (token : string) (m : AuthFlowMatch) (now : Z) (action : AuthFlow -> M AState AErr B) : M AState AErr (AuthFlow * B) :=
  let! s := get in
  let n := affected (consumable token m now) s.(as_flows) in
  modify (set_flows (updates (consumable token m now) (consume now) s.(as_flows))) ;;
  let! s := get in
  match rows (applyAuthFlowMatch token m) s.(as_flows) with
  | [] => throw ErrAuthFlowInvalid
  | consumed :: _ =>
      if negb (n =? 1) && bool_decide (consumed.(af_ConsumedAt) <> None) then throw ErrAuthFlowConsumed
      else if consumed.(af_ExpiresAt) <=? as_clock s then throw ErrAuthFlowExpired
      else if negb (n =? 1) then throw ErrAuthFlowInvalid
      else let! b := action consumed in ret (consumed, b)
  end.
Definition ConsumeAuthFlowWithAction {B : Set} (token : string) (m : AuthFlowMatch) (action : AuthFlow -> M AState AErr B) : aprog (ares (AuthFlow * B)) :=
  if String.eqb token "" || String.eqb m.(fm_Purpose) "" then Done (Err ErrAuthFlowInvalid)
  else let* now := A_Now in transaction (consume_tx token m now action).
Definition ConsumeAuthFlow (token : string) (m : AuthFlowMatch) : aprog (ares AuthFlow) := andThen (ConsumeAuthFlowWithAction token m (fun _ => ret tt)) (fun r => Done (Ok r.1)).
Definition stale_flow (cutoff : Z) (f : AuthFlow) : bool :=
  (f.(af_ExpiresAt) <? cutoff) || match f.(af_ConsumedAt) with Some t => t <? cutoff | None => false end.
Definition DeleteExpiredAuthFlows (now : Z) : aprog (ares unit) :=
  let cutoff := now - AuthFlowDefaultCleanupRetention in
  transaction (modify (fun s => set_flows (filter (fun kf => stale_flow cutoff kf.2 = false) s.(as_flows)) s)).
End flow.
