(* ===== verification/TwoFactor.v ===== *)
(** * Second factors (model/twofa.go, model/twofa_enrollment.go, common/totp.go)

    A user has at most one second factor: a secret for time-based codes with a counter of
    failures, and recovery codes that are used once. *)

From stdpp Require Import base tactics numbers list gmap strings.
From Stdlib Require Import ZArith Lia Ascii.
From S2P Require Import Prelude Steps Session SessionLogin StatusCodes UsageMerge AuthFlow.
Open Scope Z_scope.
Open Scope steps_scope.
Open Scope i64_scope.

(** ** Codes (common/totp.go) *)

Definition BackupCodeLength : nat := 8.
Definition BackupCodeCount : nat := 4.
Definition MaxFailAttempts : Z := 5.
Definition LockoutDuration : Z := 300.
Definition is_digit (c : ascii) : bool := let n := nat_of_ascii c in ((48 <=? n) && (n <=? 57))%nat.
Definition is_upper (c : ascii) : bool := let n := nat_of_ascii c in ((65 <=? n) && (n <=? 90))%nat.
Fixpoint all_chars (p : ascii -> bool) (s : string) : bool := match s with EmptyString => true | String c s => p c && all_chars p s end.
(** [strconv.Atoi] takes digits after an optional sign. *)
Definition Atoi_ok (s : string) : bool :=
  match s with
  | EmptyString => false
  | String c rest => if Ascii.eqb c "+" || Ascii.eqb c "-" then negb (String.eqb rest "") && all_chars is_digit rest else all_chars is_digit s
  end.
Definition ValidateNumericCode (code : string) : ares string :=
  let code := remove_char " " code in
  if negb (String.length code =? 6)%nat then Err ErrNumericFormat else if Atoi_ok code then Ok code else Err ErrNumericFormat.
Definition charset : string := "ABCDEFGHIJKLMNOPQRSTUVWXYZ0123456789".
(** [random] are the bytes that are drawn. *)
Definition generateRandomBackupCode (random : list Z) : string :=
  let code := foldr (fun b s => String (default "A"%char (String.get (Z.to_nat (b mod 36)) charset)) s) EmptyString random in
  String.substring 0 4 code +:+ "-" +:+ String.substring 4 4 code.
Definition GenerateBackupCodes (random : list (list Z)) : list string := generateRandomBackupCode <$> take BackupCodeCount random.
Definition clean_code (code : string) : string := ToUpper (remove_char "-" code).
Definition ValidateBackupCode_format (code : string) : bool :=
  let c := clean_code code in (String.length c =? BackupCodeLength)%nat && all_chars (fun x => is_upper x || is_digit x) c.
Definition NormalizeBackupCode (code : string) : string :=
  let c := clean_code code in if (String.length c =? BackupCodeLength)%nat then String.substring 0 4 c +:+ "-" +:+ String.substring 4 4 c else code.

Section twofactor.
Context `{AC : AuthConfig}.

(** A recovery code is hashed with a salt that is drawn at random. *)
Definition HashBackupCode (salt code : string) : option string := Password2Hash salt (NormalizeBackupCode code).
Definition ValidateTOTPCode (secret code : string) (now : Z) : bool :=
  let c := remove_char " " code in (String.length c =? 6)%nat && totp_Validate c secret now.

(** ** The factor *)

(** A statement of the database. *)
Definition query {B : Set} (f : AState -> B * AState) : aprog (ares B) :=
  let* r := stmt f in Done (match r with None => Err ErrFlowStore | Some b => Ok b end).
Definition GetTwoFAByUserId (userId : Z) : aprog (ares (option TwoFA)) :=
  if userId =? 0 then Done (Err ErrUserIdEmpty) else query (fun s => (head (rows (fun t => t.(tf_UserId) =? userId) s.(as_twofa)), s)).
Definition IsTwoFAEnabled (userId : Z) : aprog (ares bool) :=
  andThen (GetTwoFAByUserId userId) (fun t => Done (Ok (match t with Some t => t.(tf_IsEnabled) | None => false end))).
Definition set_factor (attempts : Z) (locked used : option Z) (t : TwoFA) : TwoFA := mkTwoFA t.(tf_Id) t.(tf_UserId) t.(tf_Secret) t.(tf_IsEnabled) attempts locked used.
Definition has_id (id : Z) (t : TwoFA) : bool := t.(tf_Id) =? id.
Definition updateUsageState (t : TwoFA) : aprog (ares unit) :=
  if t.(tf_Id) =? 0 then Done (Err ErrTwoFAIdEmpty)
  else query (fun s => (tt, set_twofa (updates (has_id t.(tf_Id)) (set_factor t.(tf_FailedAttempts) t.(tf_LockedUntil) t.(tf_LastUsedAt)) s.(as_twofa)) s)).
Definition ResetFailedAttempts (t : TwoFA) : aprog (ares unit) := updateUsageState (set_factor 0 None t.(tf_LastUsedAt) t).
Definition locked_at (now : Z) (until : option Z) : bool := match until with Some u => now <? u | None => false end.
Definition IsLocked (t : TwoFA) : aprog bool := match t.(tf_LockedUntil) with None => Done false | Some u => let* now := A_Now in Done (now <? u) end.
(** The condition of the update that counts a failure, and the update. *)
Definition still_open (current : TwoFA) (now : Z) (r : TwoFA) : bool :=
  has_id current.(tf_Id) r && (r.(tf_FailedAttempts) =? current.(tf_FailedAttempts)) && negb (locked_at now r.(tf_LockedUntil)).
Definition next_lock (attempts now : Z) (until : option Z) : option Z := if MaxFailAttempts <=? attempts then Some (now + LockoutDuration * second) else until.
Fixpoint increment_loop (rounds : nat) (t : TwoFA) : aprog (ares TwoFA) :=
  match rounds with
  | O => Done (Err ErrAttemptsConflict)
  | S rounds =>
      andThen (query (fun s => (head (rows (has_id t.(tf_Id)) s.(as_twofa)), s))) (fun c =>
      match c with
      | None => Done (Err ErrNoRecord)
      | Some current =>
          let* now := A_Now in
          if locked_at now current.(tf_LockedUntil) then Done (Ok (set_factor current.(tf_FailedAttempts) current.(tf_LockedUntil) t.(tf_LastUsedAt) t))
          else
            let attempts := current.(tf_FailedAttempts) +! 1 in
            let until := next_lock attempts now current.(tf_LockedUntil) in
            andThen (query (fun s => (affected (still_open current now) s.(as_twofa), set_twofa (updates (still_open current now) (fun r => set_factor attempts until r.(tf_LastUsedAt) r) s.(as_twofa)) s)))
              (fun n => if n =? 0 then increment_loop rounds t else Done (Ok (set_factor attempts until t.(tf_LastUsedAt) t)))
      end)
  end.
Definition IncrementFailedAttempts (t : TwoFA) : aprog (ares TwoFA) := if t.(tf_Id) =? 0 then Done (Err ErrTwoFAIdEmpty) else increment_loop 5 t.

(** ** Recovery codes *)

Definition set_code_used (now : Z) (c : TwoFABackupCode) : TwoFABackupCode := mkBackupCode c.(bc_Id) c.(bc_UserId) c.(bc_CodeHash) true (Some now) c.(bc_Deleted).
Definition set_code_deleted (c : TwoFABackupCode) : TwoFABackupCode := mkBackupCode c.(bc_Id) c.(bc_UserId) c.(bc_CodeHash) c.(bc_IsUsed) c.(bc_UsedAt) true.
Definition unused_of (userId : Z) (c : TwoFABackupCode) : bool := (c.(bc_UserId) =? userId) && negb c.(bc_IsUsed) && negb c.(bc_Deleted).
Definition unused_code (id : Z) (c : TwoFABackupCode) : bool := (c.(bc_Id) =? id) && negb c.(bc_IsUsed) && negb c.(bc_Deleted).
(** [salts] are drawn at random, one for every code. *)
Fixpoint create_codes (userId : Z) (codes : list (string * string)) : M AState AErr unit :=
  match codes with
  | [] => ret tt
  | (salt, code) :: codes =>
      match HashBackupCode salt code with
      | None => throw ErrHashing
      | Some h => modify (new_code (fun id => mkBackupCode id userId h false None false)) ;; create_codes userId codes
      end
  end.
Definition replaceBackupCodesWithTx (userId : Z) (codes : list (string * string)) : M AState AErr unit :=
  modify (fun s => set_codes (updates (fun c => c.(bc_UserId) =? userId) set_code_deleted s.(as_codes)) s) ;; create_codes userId codes.
(** The user's version rises with a change of a factor (IncrementUserAuthVersionWithTx). *)
Definition raise_auth_version (userId : Z) : M AState AErr unit :=
  let! s := get in
  match s.(as_base).(ss_users) !! userId with
  | None => throw ErrNoRecord
  | Some u =>
      let b := s.(as_base) in
      modify (set_base (mkSState b.(ss_rows) b.(ss_cache) b.(ss_user_cache) (<[userId := mkUserAuth u.(ua_Status) (Z.max u.(ua_AuthVersion) 1 +! 1)]> b.(ss_users)) b.(ss_clock)))
  end.
(** The cache of users takes the new row; what it answers is up to the environment. *)
Definition publish_user (userId : Z) : aprog (ares unit) :=
  andThen (query (fun s => (s.(as_base).(ss_users) !! userId, s))) (fun u => match u with None => Done (Err ErrNoRecord) | Some _ => query (fun s => (tt, s)) end).
Definition check_owner (userId : Z) (identity : option AuthSessionIdentity) : M AState AErr unit :=
  match identity with
  | Some i => ValidateAuthSessionWithTx i
  | None => let! s := get in match s.(as_base).(ss_users) !! userId with None => throw ErrNoRecord | Some _ => ret tt end
  end.
Definition enabled_factor (userId : Z) : M AState AErr TwoFA :=
  let! s := get in match rows (fun t => (t.(tf_UserId) =? userId) && t.(tf_IsEnabled)) s.(as_twofa) with [] => throw ErrTwoFANotEnabled | t :: _ => ret t end.
Definition replaceBackupCodesWithAuthVersion (userId : Z) (codes : list (string * string)) (identity : option AuthSessionIdentity) : aprog (ares unit) :=
  andThen (transaction (check_owner userId identity ;; enabled_factor userId ;; raise_auth_version userId ;; replaceBackupCodesWithTx userId codes)) (fun _ => publish_user userId).
Definition ReplaceBackupCodesWithAuthVersion (userId : Z) (codes : list (string * string)) : aprog (ares unit) := replaceBackupCodesWithAuthVersion userId codes None.
Definition ReplaceBackupCodesForSession (i : AuthSessionIdentity) (codes : list (string * string)) : aprog (ares unit) := replaceBackupCodesWithAuthVersion i.(id_UserID) codes (Some i).
Definition disableTwoFAWithAuthVersion (userId : Z) (identity : option AuthSessionIdentity) : aprog (ares unit) :=
  andThen (transaction (
    check_owner userId identity ;;
    let! t := enabled_factor userId in
    raise_auth_version userId ;;
    modify (fun s => set_codes (filter (fun kc => kc.2.(bc_UserId) <> userId) s.(as_codes)) s) ;;
    modify (fun s => set_twofa (filter (fun kt => kt.2.(tf_Id) <> t.(tf_Id)) s.(as_twofa)) s))) (fun _ => publish_user userId).
Definition DisableTwoFAWithAuthVersion (userId : Z) : aprog (ares unit) := disableTwoFAWithAuthVersion userId None.
Definition DisableTwoFAForSession (i : AuthSessionIdentity) : aprog (ares unit) := disableTwoFAWithAuthVersion i.(id_UserID) (Some i).
Definition ValidateBackupCode (userId : Z) (code : string) : aprog (ares bool) :=
  if negb (ValidateBackupCode_format code) then Done (Err ErrBackupCodeFormat)
  else
    let normalizedCode := NormalizeBackupCode code in
    andThen (query (fun s => (rows (unused_of userId) s.(as_codes), s))) (fun backupCodes =>
    match filter (fun bc => ValidatePasswordAndHash normalizedCode bc.(bc_CodeHash) = true) backupCodes with
    | [] => Done (Ok false)
    | bc :: _ =>
        let* now := A_Now in
        andThen (query (fun s => (affected (unused_code bc.(bc_Id)) s.(as_codes), set_codes (updates (unused_code bc.(bc_Id)) (set_code_used now) s.(as_codes)) s)))
          (fun n => Done (Ok (n =? 1)))
    end).
Definition GetUnusedBackupCodeCount (userId : Z) : aprog (ares Z) := query (fun s => (affected (unused_of userId) s.(as_codes), s)).

(** ** Checks *)

Definition used_now (t : TwoFA) : aprog (ares bool) :=
  let* now := A_Now in andThen (updateUsageState (set_factor 0 None (Some now) t)) (fun _ => Done (Ok true)).
Definition ValidateTOTPAndUpdateUsage (t : TwoFA) (code : string) : aprog (ares bool) :=
  let* locked := IsLocked t in
  if locked : bool then Done (Err ErrTwoFALocked)
  else
    let* now := A_Now in
    if negb (ValidateTOTPCode t.(tf_Secret) code now) then andThen (IncrementFailedAttempts t) (fun _ => Done (Ok false))
    else used_now t.
Definition ValidateBackupCodeAndUpdateUsage (t : TwoFA) (code : string) : aprog (ares bool) :=
  let* locked := IsLocked t in
  if locked : bool then Done (Err ErrTwoFALocked)
  else
    andThen (ValidateBackupCode t.(tf_UserId) code) (fun valid =>
    if negb valid then andThen (IncrementFailedAttempts t) (fun _ => Done (Ok false)) else used_now t).
(** service/security_verification.go *)
Definition VerifyTwoFactorCode (twoFA : option TwoFA) (code : string) : aprog (ares unit) :=
  match twoFA with
  | None => Done (Err ErrTwoFANotEnabled)
  | Some t =>
      if negb t.(tf_IsEnabled) then Done (Err ErrTwoFANotEnabled)
      else
        let* locked := IsLocked t in
        if locked : bool then Done (Err ErrVerificationLocked)
        else
          let code := TrimSpace code in
          andThen (match ValidateNumericCode code with
                   | Ok numeric => ValidateTOTPAndUpdateUsage t numeric
                   | Err _ =>
                       if ValidateBackupCode_format code then ValidateBackupCodeAndUpdateUsage t code
                       else andThen (IncrementFailedAttempts t) (fun _ => Done (Ok false))
                   end) (fun valid => Done (if valid : bool then Ok tt else Err ErrVerificationFailed))
  end.

(** ** Enrollment (model/twofa_enrollment.go) *)

Definition authorized (i : AuthSessionIdentity) (a : option AuthFlowAuthorization) : bool :=
  match a with Some a => (0 <? a.(aa_ProofID)) && bool_decide (a.(aa_Identity) = i) | None => false end.
(** [token] and the salts are drawn at random. *)
Definition CreateTwoFAEnrollment (token : string) (i : AuthSessionIdentity) (a : option AuthFlowAuthorization) (secret : string) (codes : list (string * string)) (expiresAt : Z) : aprog (ares string) :=
  if negb (authorized i a) then Done (Err ErrTwoFASetupInvalid)
  else
    let* now := A_Now in
    transaction (
      ValidateAuthSessionWithTx i ;;
      let! s := get in
      match rows (fun t => t.(tf_UserId) =? i.(id_UserID)) s.(as_twofa) with
      | [] => ret tt
      | existing :: _ => if existing.(tf_IsEnabled) then throw ErrTwoFAAlreadyEnabled else modify (fun s => set_twofa (filter (fun kt => kt.2.(tf_Id) <> existing.(tf_Id)) s.(as_twofa)) s)
      end ;;
      let! s := get in
      let id := s.(as_next_twofa) in
      modify (new_twofa (fun id => mkTwoFA id i.(id_UserID) secret false 0 None None)) ;;
      replaceBackupCodesWithTx i.(id_UserID) codes ;;
      let payload := MarshalEnrollment (mkEnrollment id (enrollmentHash secret) a) in
      let! r := createAuthFlowWithTx token (mkFlowCreate AuthFlowPurposeTwoFASetup "" "" i.(id_UserID) i.(id_SessionID) payload (Some expiresAt)) now in
      ret r.1).
Definition enrollment_action (i : AuthSessionIdentity) (cleanCode : string) (flow : AuthFlow) : M AState AErr unit :=
  match UnmarshalEnrollment flow.(af_Payload) with
  | None => throw ErrPayload
  | Some payload =>
      if negb (authorized i payload.(ep_Authorization)) then throw ErrTwoFASetupInvalid
      else
        ValidateAuthSessionWithTx i ;;
        let! s := get in
        match rows (fun t => has_id payload.(ep_TwoFAID) t && (t.(tf_UserId) =? i.(id_UserID)) && negb t.(tf_IsEnabled)) s.(as_twofa) with
        | [] => throw ErrTwoFASetupInvalid
        | pending :: _ =>
            if negb (String.eqb payload.(ep_SecretHash) (enrollmentHash pending.(tf_Secret))) then throw ErrTwoFASetupInvalid
            else if negb (ValidateTOTPCode pending.(tf_Secret) cleanCode (as_clock s)) then throw ErrTwoFACodeInvalid
            else
              raise_auth_version i.(id_UserID) ;;
              modify (fun s => set_twofa (updates (has_id pending.(tf_Id)) (fun t => mkTwoFA t.(tf_Id) t.(tf_UserId) t.(tf_Secret) true 0 None t.(tf_LastUsedAt)) s.(as_twofa)) s)
        end
  end.
Definition EnableTwoFAEnrollment (i : AuthSessionIdentity) (token code : string) : aprog (ares unit) :=
  match ValidateNumericCode code with
  | Err _ => Done (Err ErrTwoFACodeInvalid)
  | Ok cleanCode =>
      let* r := ConsumeAuthFlowWithAction token (mkFlowMatch AuthFlowPurposeTwoFASetup "" "" i.(id_UserID) i.(id_SessionID)) (enrollment_action i cleanCode) in
      match r with
      | Err ErrAuthFlowInvalid | Err ErrAuthFlowExpired | Err ErrAuthFlowConsumed => Done (Err ErrTwoFASetupInvalid)
      | Err e => Done (Err e)
      | Ok _ => publish_user i.(id_UserID)
      end
  end.
End twofactor.
