(* ===== verification/LoginFlow.v ===== *)
(** * Logging in with a second factor (service/login_verification.go, model/login_verification.go)

    After the first factor a login continues as a flow: the second factor is verified, and
    one transaction consumes the flow and creates the session. *)

From stdpp Require Import base tactics numbers list gmap strings.
From Stdlib Require Import ZArith Lia.
From S2P Require Import Prelude Steps Session SessionLogin AuthFlow TwoFactor.
Open Scope Z_scope.
Open Scope steps_scope.
Open Scope i64_scope.

Definition LoginVerificationTTL : Z := 300 * second.
Definition VerificationMethodTwoFA : string := "2fa".
Definition VerificationMethodPasskey : string := "passkey".
Definition VerificationMethodPassword : string := "password".
Definition VerificationMethodOAuth : string := "oauth".
Definition role_root : Z := 100.

(** The scopes of service/security_verification.go. *)
Inductive Scope :=
| ScopeChannelKeyRead | ScopePasskeyRegister | ScopePasskeyDelete | ScopeTwoFASetup | ScopeTwoFADisable | ScopeTwoFABackupCodes | ScopeLogin
| ScopeAccessTokenGenerate | ScopeAccessTokenRevoke | ScopeAccountBind | ScopeAccountUnbind | ScopePasswordSet | ScopePasswordChange | ScopeAccountDelete
| ScopeOther (name : string).
Record UserVerificationState := mkVerificationState {
  vs_UserID : Z; vs_Status : Z; vs_Role : Z; vs_AuthVersion : Z; vs_HasPassword : bool; vs_HasTwoFA : bool; vs_TwoFALocked : bool; vs_HasPasskey : bool
}.
Record VerificationMethodOption := mkMethodOption { mo_Method : string; mo_Available : bool }.
Record LoginVerification := mkLoginVerification { lv_Flow : AuthFlow; lv_State : UserVerificationState; lv_payload : loginFlowPayload }.
Record LoginChallenge := mkLoginChallenge { lc_FlowToken : string; lc_ExpiresAt : Z; lc_Methods : list VerificationMethodOption }.

Section login_flow.
Context `{AC : AuthConfig}.

(** [now] is the time at which the query is written. *)
Definition getUserVerificationState (userID now : Z) : M AState AErr UserVerificationState :=
  if userID <=? 0 then throw (ErrSession ErrUserSessionInvalid)
  else
    let! s := get in
    match s.(as_base).(ss_users) !! userID with
    | None => throw ErrNoRecord
    | Some u =>
        let p := default (mkProfile 0 false false) (s.(as_profiles) !! userID) in
        let factor := rows (fun t => (t.(tf_UserId) =? userID) && t.(tf_IsEnabled)) s.(as_twofa) in
        ret (mkVerificationState userID u.(ua_Status) p.(up_Role) u.(ua_AuthVersion) p.(up_HasPassword) (negb (Nat.eqb (length factor) 0))
               (existsb (fun t => locked_at now t.(tf_LockedUntil)) factor) p.(up_HasPasskey))
    end.
Definition GetUserVerificationState (userID : Z) : aprog (ares UserVerificationState) := let* now := A_Now in transaction (getUserVerificationState userID now).

(** The methods a scope asks for; reasons are left out. *)
Definition available (scope : Scope) (state : UserVerificationState) (method : string) : bool :=
  negb (String.eqb method VerificationMethodTwoFA && state.(vs_TwoFALocked))
  && negb (negb PasskeyEnabled && (String.eqb method VerificationMethodPasskey || match scope with ScopePasskeyRegister => true | _ => false end)).
Definition securityVerificationPolicy (scope : Scope) (state : UserVerificationState) : ares (list VerificationMethodOption) :=
  let methods := (if state.(vs_HasTwoFA) then [VerificationMethodTwoFA] else []) ++ (if state.(vs_HasPasskey) then [VerificationMethodPasskey] else []) in
  let options l := Ok ((fun m => mkMethodOption m (available scope state m)) <$> l) in
  let first_factor := match methods with [] => [if state.(vs_HasPassword) then VerificationMethodPassword else VerificationMethodOAuth] | _ => methods end in
  match scope with
  | ScopeChannelKeyRead | ScopePasskeyDelete | ScopeLogin => options methods
  | ScopeTwoFADisable | ScopeTwoFABackupCodes => if state.(vs_HasTwoFA) then options methods else Err ErrTwoFANotEnabled
  | ScopeAccountDelete => if state.(vs_Role) =? role_root then Err ErrVerificationForbidden else options first_factor
  | ScopeTwoFASetup => if state.(vs_HasTwoFA) then Err ErrTwoFAAlreadyEnabled else options first_factor
  | ScopePasswordSet => if state.(vs_HasPassword) then Err ErrVerificationForbidden else options first_factor
  | ScopePasswordChange => if state.(vs_HasPassword) then options first_factor else Err ErrVerificationForbidden
  | ScopePasskeyRegister | ScopeAccessTokenGenerate | ScopeAccessTokenRevoke | ScopeAccountBind | ScopeAccountUnbind => options first_factor
  | ScopeOther _ => Err ErrProofScope
  end.
(** The first option of the method decides. *)
Definition requireLoginVerificationMethod (state : UserVerificationState) (method : string) : ares unit :=
  match securityVerificationPolicy ScopeLogin state with
  | Err e => Err e
  | Ok methods =>
      match filter (fun o => String.eqb o.(mo_Method) method = true) methods with
      | [] => Err ErrProofMethod
      | o :: _ => if o.(mo_Available) then Ok tt else Err ErrVerificationUnavailable
      end
  end.

(** No challenge when there is no second factor. *)
Definition StartLoginVerification (token : string) (userId authVersion : Z) (loginMethod : string) : aprog (ares (option LoginChallenge)) :=
  if (userId <=? 0) || (authVersion <=? 0) || String.eqb loginMethod "" then Done (Err ErrAuthFlowInvalid)
  else
    andThen (GetUserVerificationState userId) (fun state =>
    if negb (state.(vs_Status) =? UserStatusEnabled) || negb (state.(vs_AuthVersion) =? authVersion) then Done (Err (ErrSession ErrUserSessionInactive))
    else
      match securityVerificationPolicy ScopeLogin state with
      | Err e => Done (Err e)
      | Ok [] => Done (Ok None)
      | Ok methods =>
          if negb (existsb mo_Available methods) then Done (Err ErrVerificationUnavailable)
          else
            let* now := A_Now in
            let expiresAt := now + LoginVerificationTTL in
            andThen (CreateAuthFlow token (mkFlowCreate AuthFlowPurposeLoginVerification "" "" userId "" (MarshalLogin (mkLoginPayload state.(vs_AuthVersion) loginMethod)) (Some expiresAt)))
              (fun r => Done (Ok (Some (mkLoginChallenge r.1 (Unix expiresAt) methods))))
      end).
Definition RequireLoginVerification (token method : string) : aprog (ares LoginVerification) :=
  andThen (GetAuthFlow token (mkFlowMatch AuthFlowPurposeLoginVerification "" "" 0 "")) (fun flow =>
  match UnmarshalLogin flow.(af_Payload) with
  | None => Done (Err ErrAuthFlowInvalid)
  | Some payload =>
      if (payload.(lp_AuthVersion) <=? 0) || String.eqb payload.(lp_LoginMethod) "" then Done (Err ErrAuthFlowInvalid)
      else
        andThen (GetUserVerificationState flow.(af_UserId)) (fun state =>
        if negb (state.(vs_Status) =? UserStatusEnabled) || negb (state.(vs_AuthVersion) =? payload.(lp_AuthVersion)) then Done (Err (ErrSession ErrUserSessionInactive))
        else match requireLoginVerificationMethod state method with Err e => Done (Err e) | Ok _ => Done (Ok (mkLoginVerification flow state payload)) end)
  end).
(** What the transaction does with the flow it consumed. *)
Definition session_action (session : UserSession) (validate : AuthFlow -> UserVerificationState -> ares unit) (flow : AuthFlow) : M AState AErr UserSession :=
  let! s := get in
  let! state := getUserVerificationState session.(se_UserID) (as_clock s) in
  if negb (state.(vs_Status) =? UserStatusEnabled) || negb (state.(vs_AuthVersion) =? session.(se_UserAuthVersion)) then inactive
  else
    of_result (validate flow state) ;;
    let now := Unix (as_clock s) in
    let! s := get in
    let activeCount := (count_rows (fun r => (r.(se_UserID) =? session.(se_UserID)) && is_active r.(se_Status) && (now <? r.(se_ExpiresAt))) s.(as_base)).1 in
    if UserSessionActiveLimit <=? activeCount then throw (ErrSession ErrUserSessionLimit)
    else
      let issuanceCount := (count_rows (fun r => (r.(se_UserID) =? session.(se_UserID)) && (now -! UserSessionIssuanceWindowSeconds <? r.(se_CreatedAt))) s.(as_base)).1 in
      if UserSessionIssuanceLimit <=? issuanceCount then throw (ErrSession ErrUserSessionIssuanceLimit)
      else within (createUserSessionWithTx session).
(** The session as the transaction left it: [createUserSessionWithTx] fills in defaults. *)
Definition CreateUserSessionFromLoginFlow (token : string) (session : UserSession) (validate : AuthFlow -> UserVerificationState -> ares unit) : aprog (ares UserSession) :=
  let* cacheDeadline := on_sessions userSessionCacheDeadline in
  andThen (ConsumeAuthFlowWithAction token (mkFlowMatch AuthFlowPurposeLoginVerification "" "" session.(se_UserID) "") (session_action session validate)) (fun r =>
  andThen (sessions (publishCreatedUserSession r.2 cacheDeadline)) (fun _ => Done (Ok r.2))).
Definition same_flow (v : LoginVerification) (method : string) (flow : AuthFlow) (state : UserVerificationState) : ares unit :=
  if negb (flow.(af_Id) =? v.(lv_Flow).(af_Id)) || negb (bool_decide (UnmarshalLogin flow.(af_Payload) = Some v.(lv_payload))) then Err ErrAuthFlowInvalid
  else requireLoginVerificationMethod state method.
(** [sid] and [refreshSecret] are drawn at random. *)
Definition CompleteLoginVerification (sid refreshSecret token : string) (v : LoginVerification) (method ip userAgent : string) : aprog (ares AuthBundle) :=
  let* session := on_sessions (newLoginSession sid refreshSecret v.(lv_State).(vs_UserID) v.(lv_payload).(lp_AuthVersion) v.(lv_payload).(lp_LoginMethod) ip userAgent) in
  andThen (CreateUserSessionFromLoginFlow token session (same_flow v method)) (fun session =>
  match issueAuthBundle session (session.(se_SID) +:+ "." +:+ refreshSecret) with
  | inl e => let* _ := on_sessions (RevokeUserSession session.(se_UserID) session.(se_SID) "token_issue_failed") in Done (Err (ErrSession e))
  | inr b => Done (Ok b)
  end).
Definition VerifyLoginCode (sid refreshSecret token code ip userAgent : string) : aprog (ares AuthBundle) :=
  andThen (RequireLoginVerification token VerificationMethodTwoFA) (fun v =>
  andThen (GetTwoFAByUserId v.(lv_State).(vs_UserID)) (fun twoFA =>
  andThen (VerifyTwoFactorCode twoFA code) (fun _ =>
  CompleteLoginVerification sid refreshSecret token v VerificationMethodTwoFA ip userAgent))).
End login_flow.
