(* ===== verification/FactorLaws.v ===== *)
(** * Flows and recovery codes are spent once (theorems on AuthFlow, TwoFactor, LoginFlow)

    Over every interleaving of every operation on flows, factors and sessions: a login with
    a second factor spends a flow and verifies the factor, and nothing is spent twice. *)

From stdpp Require Import base tactics numbers list sets gmap strings relations.
From Stdlib Require Import ZArith Lia.
From S2P Require Import Prelude Steps Session SessionLogin SessionLaws AuthFlow TwoFactor LoginFlow.
Open Scope Z_scope.
Open Scope steps_scope.

(** ** What can be spent *)

Inductive Ticket := TFlow (id : Z) | TCode (id : Z).
(** A flow that is not consumed, a code that is not used. *)
Definition alive (k : Ticket) (s : AState) : bool :=
  match k with
  | TFlow id => match s.(as_flows) !! id with Some f => bool_decide (f.(af_ConsumedAt) = None) | None => false end
  | TCode id => match s.(as_codes) !! id with Some c => negb c.(bc_IsUsed) | None => false end
  end.
Definition drawn (k : Ticket) (s : AState) : Prop := match k with TFlow id => id < s.(as_next_flow) | TCode id => id < s.(as_next_code) end.
Definition spends (k : Ticket) (s s' : AState) : bool := alive k s && negb (alive k s').
Definition spent (k : Ticket) (s : AState) : Prop := drawn k s /\ alive k s = false.
(** Rows are under their ids, and ids are drawn in order. *)
Record tables_ok (s : AState) : Prop := {
  to_flow id f : s.(as_flows) !! id = Some f -> f.(af_Id) = id /\ id < s.(as_next_flow);
  to_code id c : s.(as_codes) !! id = Some c -> c.(bc_Id) = id /\ id < s.(as_next_code)
}.
(** Nothing that was spent comes back. *)
Record grows (s s' : AState) : Prop := {
  gr_ok : tables_ok s';
  gr_drawn k : drawn k s -> drawn k s';
  gr_alive k : drawn k s -> alive k s' = true -> alive k s = true
}.
Lemma alive_drawn k s : tables_ok s -> alive k s = true -> drawn k s.
Proof. intros [Hf Hc]. destruct k as [id|id]; cbn; destruct (_ !! id) eqn:E; try done; intros _; [by apply (Hf id _ E)|by apply (Hc id _ E)]. Qed.
Lemma grows_lawful s s' : tables_ok s -> grows s s' -> lawful tables_ok spends spent s s'.
Proof.
  intros Hs [H1 H2 H3]. split; [done|]. split.
  - intros k [Hd Ha]. split; [auto|]. destruct (alive k s') eqn:E; [|done]. rewrite (H3 k Hd E) in Ha. done.
  - intros k Hk. apply andb_prop in Hk as [Ha Hn]. apply negb_true_iff in Hn. split; [intros [_ Hf]; congruence|]. split; [|done]. apply H2. by apply alive_drawn.
Qed.
Lemma grows_refl s : tables_ok s -> grows s s.
Proof. by split. Qed.
Lemma grows_trans s s1 s2 : grows s s1 -> grows s1 s2 -> grows s s2.
Proof. intros [A1 A2 A3] [B1 B2 B3]. split; auto. Qed.

(** ** What transactions keep *)

Definition keeps {A} (m : M AState AErr A) : Prop := forall s, tables_ok s -> grows s (m s).2.
Definition steady (f : AState -> AState) : Prop := forall s, tables_ok s -> grows s (f s).
Lemma keeps_const {A} (r : result AErr A) : keeps (fun s => (r, s)).
Proof. intros s. apply grows_refl. Qed.
Lemma tx_keeps_bind {A B} (m : M AState AErr A) (f : A -> M AState AErr B) : keeps m -> (forall a, keeps (f a)) -> keeps (bind m f).
Proof.
  intros Hm Hf s Hs. unfold bind. pose proof (Hm s Hs) as H1. destruct (m s) as [[a|e] s1]; [|done]. cbn in H1. eapply grows_trans; [exact H1|]. apply Hf, H1.
Qed.
Lemma keeps_get : keeps get.
Proof. intros s. apply grows_refl. Qed.
Lemma keeps_modify f : steady f -> keeps (modify f).
Proof. intros Hf s Hs. by apply Hf. Qed.
Lemma keeps_within {A} (p : sprog (res A)) : keeps (within p).
Proof. intros s Hs. unfold within. destruct (run_alone _ _ _ _) as [r b]. cbn. by destruct Hs. Qed.
Lemma steady_base (g : AState -> SState) : steady (fun s => set_base (g s) s).
Proof. intros s Hs. by destruct Hs. Qed.
Lemma steady_base_const b : steady (set_base b).
Proof. apply (steady_base (fun _ => b)). Qed.
Lemma steady_twofa (g : AState -> gmap Z TwoFA) : steady (fun s => set_twofa (g s) s).
Proof. intros s Hs. by destruct Hs. Qed.
Lemma steady_new_twofa f : steady (new_twofa f).
Proof. intros s Hs. by destruct Hs. Qed.
Lemma steady_new_flow f : (forall id, (f id).(af_Id) = id) -> steady (new_flow f).
Proof.
  intros Hf s [H1 H2]. split.
  - split; [|done]. intros id x. cbn. rewrite lookup_insert_Some. intros [[<- <-]|[_ Hx]]; [split; [apply Hf|lia]|]. destruct (H1 id x Hx). split; [done|lia].
  - intros [id|id]; cbn; lia.
  - intros [id|id]; cbn; [|done]. intros Hd. by rewrite lookup_insert_ne by lia.
Qed.
Lemma steady_new_code f : (forall id, (f id).(bc_Id) = id) -> steady (new_code f).
Proof.
  intros Hf s [H1 H2]. split.
  - split; [done|]. intros id x. cbn. rewrite lookup_insert_Some. intros [[<- <-]|[_ Hx]]; [split; [apply Hf|lia]|]. destruct (H2 id x Hx). split; [done|lia].
  - intros [id|id]; cbn; lia.
  - intros [id|id]; cbn; [done|]. intros Hd. by rewrite lookup_insert_ne by lia.
Qed.
Lemma steady_flows (g : AState -> gmap Z AuthFlow) :
  (forall s id f', g s !! id = Some f' -> exists f, s.(as_flows) !! id = Some f /\ f'.(af_Id) = f.(af_Id) /\ (f'.(af_ConsumedAt) = None -> f.(af_ConsumedAt) = None)) -> steady (fun s => set_flows (g s) s).
Proof.
  intros Hg s [H1 H2]. split; [split; [|done]|done|].
  - intros id f' Hf'. destruct (Hg s id f' Hf') as (f & Hf & -> & _). exact (H1 id f Hf).
  - intros [id|id] _; [|done]. cbn. destruct (g s !! id) as [f'|] eqn:E; [|done]. destruct (Hg s id f' E) as (f & -> & _ & Hc). rewrite !bool_decide_eq_true. exact Hc.
Qed.
Lemma steady_codes (g : AState -> gmap Z TwoFABackupCode) :
  (forall s id c', g s !! id = Some c' -> exists c, s.(as_codes) !! id = Some c /\ c'.(bc_Id) = c.(bc_Id) /\ (c'.(bc_IsUsed) = false -> c.(bc_IsUsed) = false)) -> steady (fun s => set_codes (g s) s).
Proof.
  intros Hg s [H1 H2]. split; [split; [done|]|done|].
  - intros id f' Hf'. destruct (Hg s id f' Hf') as (f & Hf & -> & _). exact (H2 id f Hf).
  - intros [id|id] _; [done|]. cbn. destruct (g s !! id) as [f'|] eqn:E; [|done]. destruct (Hg s id f' E) as (f & -> & _ & Hc). rewrite !negb_true_iff. exact Hc.
Qed.
Lemma updates_lookup {A} p (f : A -> A) m id r' : updates p f m !! id = Some r' -> exists r, m !! id = Some r /\ r' = if p r then f r else r.
Proof. unfold updates. rewrite lookup_fmap. destruct (m !! id) as [r|]; [|done]. intros [= <-]. eauto. Qed.
Lemma steady_flow_filter (P : Z * AuthFlow -> Prop) `{!forall x, Decision (P x)} : steady (fun s => set_flows (filter P s.(as_flows)) s).
Proof. apply steady_flows. intros s id f' Hf. apply map_lookup_filter_Some in Hf as [Hf _]. eauto. Qed.
Lemma steady_code_filter (P : Z * TwoFABackupCode -> Prop) `{!forall x, Decision (P x)} : steady (fun s => set_codes (filter P s.(as_codes)) s).
Proof. apply steady_codes. intros s id f' Hf. apply map_lookup_filter_Some in Hf as [Hf _]. eauto. Qed.
Lemma steady_consume p now : steady (fun s => set_flows (updates p (consume now) s.(as_flows)) s).
Proof. apply steady_flows. intros s id f' Hf. apply updates_lookup in Hf as (f & Hf & ->). exists f. by destruct (p f). Qed.
Lemma steady_code_updates p f : (forall c, (f c).(bc_Id) = c.(bc_Id) /\ ((f c).(bc_IsUsed) = false -> c.(bc_IsUsed) = false)) -> steady (fun s => set_codes (updates p f s.(as_codes)) s).
Proof. intros Hf. apply steady_codes. intros s id c' Hc. apply updates_lookup in Hc as (c & Hc & ->). exists c. split; [done|]. destruct (p c); [apply Hf|done]. Qed.

Section laws.
Context `{AC : AuthConfig}.

Ltac steadies :=
  first [ apply steady_base_const | apply steady_base | apply steady_twofa | apply steady_new_twofa | (by apply steady_new_flow) | (by apply steady_new_code)
        | apply steady_flow_filter | apply steady_code_filter | apply steady_consume | (apply steady_code_updates; done) ].
Ltac keeps := repeat first [ assumption | apply keeps_const | apply keeps_get | apply keeps_within | (apply keeps_modify; steadies) | (apply tx_keeps_bind; [|intros ?]) | case_match ].
Lemma keeps_validate i : keeps (ValidateAuthSessionWithTx i).
Proof. unfold ValidateAuthSessionWithTx, inactive. case_match; [keeps|]. keeps. Qed.
Lemma keeps_create token input now : keeps (createAuthFlowWithTx token input now).
Proof. unfold createAuthFlowWithTx, guardE. keeps. Qed.
Lemma keeps_claim purpose assertion expiresAt now : keeps (ClaimExternalAuthAssertionWithTx purpose assertion expiresAt now).
Proof. unfold ClaimExternalAuthAssertionWithTx. cbn zeta. keeps. Qed.
Lemma keeps_create_codes userId codes : keeps (create_codes userId codes).
Proof. induction codes as [|[salt code] codes IH]; cbn [create_codes]; keeps. Qed.
Lemma keeps_replace userId codes : keeps (replaceBackupCodesWithTx userId codes).
Proof. pose proof (keeps_create_codes userId codes). unfold replaceBackupCodesWithTx. keeps. Qed.
Lemma keeps_raise userId : keeps (raise_auth_version userId).
Proof. unfold raise_auth_version. keeps. Qed.
Lemma keeps_owner userId identity : keeps (check_owner userId identity).
Proof. unfold check_owner. destruct identity as [i|]; [apply keeps_validate|keeps]. Qed.
Lemma keeps_factor userId : keeps (enabled_factor userId).
Proof. unfold enabled_factor. keeps. Qed.
Lemma keeps_state userID now : keeps (getUserVerificationState userID now).
Proof. unfold getUserVerificationState. keeps. Qed.
Lemma keeps_enrollment i code flow : keeps (enrollment_action i code flow).
Proof. pose proof (keeps_validate i). pose proof (keeps_raise (id_UserID i)). unfold enrollment_action. keeps. Qed.
Lemma keeps_session session validate flow : keeps (session_action session validate flow).
Proof.
  unfold session_action. apply tx_keeps_bind; [keeps|]. intros s. apply tx_keeps_bind; [apply keeps_state|]. intros state. unfold inactive, of_result. keeps.
Qed.

(** ** Consumption *)

Lemma rows_elem {A} p (m : gmap Z A) r : r ∈ rows p m <-> p r = true /\ exists id, m !! id = Some r.
Proof.
  unfold rows. rewrite list_elem_of_filter, list_elem_of_fmap. split.
  - intros [Hp ([id x] & -> & Hx)]. apply elem_of_map_to_list in Hx. eauto.
  - intros [Hp [id Hx]]. split; [done|]. exists (id, r). split; [done|]. by apply elem_of_map_to_list.
Qed.
Lemma affected_some {A} p (m : gmap Z A) : affected p m <> 0 -> exists id r, m !! id = Some r /\ p r = true.
Proof.
  unfold affected. destruct (rows p m) as [|r l] eqn:E; [done|]. intros _. assert (r ∈ rows p m) as Hr by (rewrite E; left). apply rows_elem in Hr as [Hp [id Hr]]. eauto.
Qed.
(** A flow that matches was consumed. *)
Definition flow_spent (token : string) (m : AuthFlowMatch) (s s' : AState) : Prop :=
  exists f, s.(as_flows) !! f.(af_Id) = Some f /\ applyAuthFlowMatch token m f = true /\ spends (TFlow f.(af_Id)) s s' = true.
Lemma consume_keeps {B} token m now (action : AuthFlow -> M AState AErr B) : (forall f, keeps (action f)) -> keeps (consume_tx token m now action).
Proof.
  intros Ha s Hs. unfold consume_tx, bind, get, modify. cbn -[updates rows affected]. pose proof (steady_consume (consumable token m now) now s Hs) as H1. set (s1 := set_flows _ s) in *.
  destruct (rows _ _) as [|f l]; [done|]. destruct (_ && _); [done|]. destruct (_ <=? _); [done|]. destruct (negb _); [done|]. pose proof (Ha f s1 (gr_ok _ _ H1)) as H2. destruct (action f s1) as [[b|e] s2]; cbn in *; by eapply grows_trans.
Qed.
Lemma consume_spends {B} token m now (action : AuthFlow -> M AState AErr B) s f b s' : tables_ok s -> (forall f, keeps (action f)) -> consume_tx token m now action s = (Ok (f, b), s') ->
  flow_spent token m s s' /\ exists s1, tables_ok s1 /\ action f s1 = (Ok b, s').
Proof.
  intros Hs Ha. unfold consume_tx, bind, get, modify. cbn -[updates rows affected]. pose proof (steady_consume (consumable token m now) now s Hs) as H1. set (s1 := set_flows _ s) in *.
  destruct (rows (applyAuthFlowMatch token m) _) as [|g l]; [done|]. destruct (_ && _); [done|]. destruct (_ <=? _); [done|]. destruct (affected _ _ =? 1) eqn:En; cbn [negb]; [|done]. apply Z.eqb_eq in En.
  pose proof (Ha g s1 (gr_ok _ _ H1)) as H2. destruct (action g s1) as [[x|e] s2] eqn:E; [|done]. intros [= <- <- <-]. split; [|exists s1; split; [apply H1|done]].
  destruct (affected_some (consumable token m now) (as_flows s)) as (id & f & Hf & Hc); [lia|]. destruct (to_flow s Hs id f Hf) as [Hid Hlt]. apply andb_prop in Hc as [Hc He]. apply andb_prop in Hc as [Hm Hn].
  exists f. rewrite Hid. split; [done|]. split; [done|]. unfold spends, alive at 1. rewrite Hf, Hn. cbn [andb]. destruct (alive (TFlow id) s2) eqn:Ea; [|done]. exfalso.
  pose proof (gr_alive _ _ H2 (TFlow id) (gr_drawn _ _ H1 (TFlow id) Hlt) Ea) as Hb. unfold alive, s1, set_flows in Hb. cbn -[updates] in Hb. unfold updates in Hb. rewrite lookup_fmap, Hf in Hb. cbn in Hb. unfold consumable in Hb. by rewrite Hm, Hn, He in Hb.
Qed.

(** ** Programs *)

Abbreviation fol := (follows tables_ok spends spent).
(** A program that ends in any way, its changes kept. *)
Definition quiet {A} (p : aprog A) : Prop := forall own, fol own p (fun l _ => own ⊆ l).
Lemma quiet_done {A} (a : A) : quiet (Done a).
Proof. intros own x Hx. exact Hx. Qed.
Lemma quiet_now : quiet A_Now.
Proof. intros own t x Hx. exact Hx. Qed.
Lemma quiet_bind {A B} (p : aprog A) (q : A -> aprog B) : quiet p -> (forall a, quiet (q a)) -> quiet (pbind p q).
Proof. intros Hp Hq own. eapply follows_then; [apply Hp|]. intros l a Hl. eapply follows_mono; [apply Hq|]. intros l' b Hl' x Hx. by apply Hl', Hl. Qed.
Lemma quiet_then {A B} (p : aprog (ares A)) (q : A -> aprog (ares B)) : quiet p -> (forall a, quiet (q a)) -> quiet (andThen p q).
Proof. intros Hp Hq. apply quiet_bind; [done|]. intros [a|e]; [apply Hq|apply quiet_done]. Qed.
Lemma fol_stmt {B : Set} own (f : AState -> B * AState) Q : (forall s, tables_ok s -> grows s (f s).2) ->
  (forall s, tables_ok s -> Q ((s, (f s).2) :: own) (Some (f s).1)) -> (forall l, own ⊆ l -> Q l None) -> fol own (stmt f) Q.
Proof.
  intros Hf Hs Hn. split; [|apply Hn; intros x Hx; exact Hx]. intros s Hok. split; [by apply grows_lawful, Hf|]. split; [by apply Hs|]. apply Hn. intros x Hx. by right.
Qed.
Lemma fol_query {B : Set} own (f : AState -> B * AState) (Q : list (AState * AState) -> ares B -> Prop) : (forall s, tables_ok s -> grows s (f s).2) ->
  (forall s, tables_ok s -> Q ((s, (f s).2) :: own) (Ok (f s).1)) -> (forall l, own ⊆ l -> Q l (Err ErrFlowStore)) -> fol own (query f) Q.
Proof. intros Hf Hs Hn. apply follows_bind, fol_stmt; auto. Qed.
Lemma quiet_query {B : Set} (f : AState -> B * AState) : (forall s, tables_ok s -> grows s (f s).2) -> quiet (query f).
Proof. intros Hf own. apply fol_query; [done| |done]. intros s _ x Hx. by right. Qed.
Lemma quiet_read {B : Set} (f : AState -> B) : quiet (query (fun s => (f s, s))).
Proof. apply quiet_query. intros s. apply grows_refl. Qed.
Lemma atomically_grows {A} (m : M AState AErr A) s : keeps m -> tables_ok s -> grows s (atomically m s).2.
Proof. intros Hm Hs. unfold atomically. specialize (Hm s Hs). destruct (m s) as [[a|e] s1]; [done|]. by apply grows_refl. Qed.
(** What holds of a transaction that commits. *)
Lemma fol_transaction {A : Set} own (m : M AState AErr A) (P : AState -> AState -> A -> Prop) : keeps m -> (forall s a s', tables_ok s -> m s = (Ok a, s') -> P s s' a) ->
  fol own (transaction m) (fun l r => own ⊆ l /\ forall a, r = Ok a -> exists s s', (s, s') ∈ l /\ P s s' a).
Proof.
  intros Hm HP. apply follows_bind, fol_stmt; [intros s; by apply atomically_grows| |by intros l Hl].
  intros s Hs. split; [intros x Hx; by right|]. intros a Ha. cbn in Ha. unfold atomically in Ha |- *. destruct (m s) as [[x|e] s1] eqn:E; [|done]. injection Ha as <-. exists s, s1. split; [left|]. by apply HP.
Qed.
Lemma quiet_transaction {A : Set} (m : M AState AErr A) : keeps m -> quiet (transaction m).
Proof. intros Hm own. eapply follows_mono; [by apply (fol_transaction own m (fun _ _ _ => True))|]. by intros l r [Hl _]. Qed.
Lemma quiet_on_sessions {A} (p : sprog A) : quiet (on_sessions p).
Proof.
  induction p as [a|k IH|B f k IH]; intros own; cbn [on_sessions]; [intros x Hx; exact Hx|intros t; apply IH|].
  split; [|apply IH]. intros s Hs. destruct (f (as_base s)) as [b x] eqn:E. cbn [fst snd]. split; [by apply grows_lawful, steady_base_const|].
  split; (eapply follows_mono; [apply IH|]); intros l a Hl y Hy; apply Hl; by right.
Qed.
Lemma quiet_sessions {A} (p : sprog (res A)) : quiet (sessions p).
Proof. apply quiet_bind; [apply quiet_on_sessions|]. intros r. apply quiet_done. Qed.
Lemma quiet_locked t : quiet (IsLocked t).
Proof. unfold IsLocked. case_match; [|apply quiet_done]. apply quiet_bind; [apply quiet_now|]. intros now. apply quiet_done. Qed.
Lemma quiet_usage t : quiet (updateUsageState t).
Proof. unfold updateUsageState. case_match; [apply quiet_done|]. apply quiet_query. intros s. apply (steady_twofa (fun s => updates _ _ s.(as_twofa))). Qed.
Lemma quiet_used t : quiet (used_now t).
Proof. apply quiet_bind; [apply quiet_now|]. intros now. apply quiet_then; [apply quiet_usage|]. intros x. apply quiet_done. Qed.
Lemma quiet_increment_loop rounds t : quiet (increment_loop rounds t).
Proof.
  induction rounds as [|rounds IH]; cbn [increment_loop]; [apply quiet_done|]. apply quiet_then; [apply quiet_read|]. intros [c|]; [|apply quiet_done]. apply quiet_bind; [apply quiet_now|]. intros now.
  case_match; [apply quiet_done|]. cbn zeta. apply quiet_then; [|intros n; case_match; [exact IH|apply quiet_done]]. apply quiet_query. intros s. apply (steady_twofa (fun s => updates _ _ s.(as_twofa))).
Qed.
Lemma quiet_increment t : quiet (IncrementFailedAttempts t).
Proof. unfold IncrementFailedAttempts. case_match; [apply quiet_done|apply quiet_increment_loop]. Qed.
Lemma quiet_publish_user userId : quiet (publish_user userId).
Proof. apply quiet_then; [apply quiet_read|]. intros [u|]; [apply quiet_read|apply quiet_done]. Qed.
(** An error ends a program; what holds of a result is kept. *)
Lemma fol_then {A B} own (p : aprog (ares A)) (q : A -> aprog (ares B)) (P : list (AState * AState) -> A -> Prop) Q :
  fol own p (fun l r => own ⊆ l /\ forall a, r = Ok a -> P l a) -> (forall l a, own ⊆ l -> P l a -> fol l (q a) Q) -> (forall l e, own ⊆ l -> Q l (Err e)) -> fol own (andThen p q) Q.
Proof. intros Hp Hq He. eapply follows_then; [exact Hp|]. intros l [a|e] [Hl Ha]; [|by apply He]. apply Hq; [done|]. by apply Ha. Qed.
Lemma fol_quiet {A} own (p : aprog (ares A)) : quiet p -> fol own p (fun l r => own ⊆ l /\ forall a, r = Ok a -> True).
Proof. intros Hp. eapply follows_mono; [apply Hp|]. done. Qed.

(** ** Recovery codes *)

(** A code of the user that matches was read and then spent. *)
Definition code_spent (userId : Z) (code : string) (l : list (AState * AState)) : Prop :=
  exists c s, (s, s) ∈ l /\ s.(as_codes) !! c.(bc_Id) = Some c /\ c.(bc_UserId) = userId /\ ValidatePasswordAndHash (NormalizeBackupCode code) c.(bc_CodeHash) = true /\ wins spends (TCode c.(bc_Id)) l.
Lemma spend_code id now s : tables_ok s -> affected (unused_code id) s.(as_codes) = 1 -> spends (TCode id) s (set_codes (updates (unused_code id) (set_code_used now) s.(as_codes)) s) = true.
Proof.
  intros Hs Hn. destruct (affected_some (unused_code id) (as_codes s)) as (k & c & Hc & Hu); [lia|]. destruct (to_code s Hs k c Hc) as [Hid _]. pose proof Hu as Hu'. apply andb_prop in Hu' as [Hu' _]. apply andb_prop in Hu' as [Hk Hun]. apply Z.eqb_eq in Hk.
  assert (k = id) as -> by congruence. unfold spends, alive. cbn -[updates]. unfold updates. by rewrite lookup_fmap, Hc, Hun; cbn; rewrite Hu.
Qed.
Lemma fol_backup own userId code : fol own (ValidateBackupCode userId code) (fun l r => own ⊆ l /\ forall b, r = Ok b -> b = true -> code_spent userId code l).
Proof.
  unfold ValidateBackupCode. case_match; [by split|]. cbn zeta.
  apply (fol_then _ _ _ (fun l bcs => exists s, (s, s) ∈ l /\ tables_ok s /\ bcs = rows (unused_of userId) s.(as_codes))).
  - apply fol_query; [intros s; apply grows_refl| |done]. intros s Hs. split; [intros x Hx; by right|]. intros bcs [= <-]. exists s. split; [left|done].
  - intros l bcs Hl (s & Hin & Hs & ->). destruct (filter _ _) as [|bc rest] eqn:E; [by split; [done|intros b [= <-]]|].
    assert (bc ∈ rows (unused_of userId) (as_codes s) /\ ValidatePasswordAndHash (NormalizeBackupCode code) (bc_CodeHash bc) = true) as [Hbc Hv].
    { assert (bc ∈ filter (fun bc => ValidatePasswordAndHash (NormalizeBackupCode code) (bc_CodeHash bc) = true) (rows (unused_of userId) (as_codes s))) as Hbc by (rewrite E; left). by apply list_elem_of_filter in Hbc as [? ?]. }
    apply rows_elem in Hbc as [Hu [id Hid]]. apply andb_prop in Hu as [Hu _]. apply andb_prop in Hu as [Hu _]. apply Z.eqb_eq in Hu. destruct (to_code s Hs id bc Hid) as [<- _].
    intros now. apply (fol_then _ _ _ (fun l' n => l ⊆ l' /\ (n = 1 -> wins spends (TCode (bc_Id bc)) l'))).
    + apply fol_query; [intros x; by apply (steady_code_updates _ (set_code_used now))| |done]. intros x Hx. split; [intros y Hy; by right|]. intros n [= <-]. split; [intros y Hy; by right|]. intros Hn.
      eexists x, _. split; [left|]. by apply spend_code.
    + intros l' n Hl' [_ Hw]. split; [by transitivity l|]. intros b [= <-] Hb. apply Z.eqb_eq in Hb. exists bc, s. split_and!; [by apply Hl'|done|done|done|by apply Hw].
    + intros l' e Hl'. split; [by transitivity l|done].
  - done.
Qed.

(** ** The factor is verified *)

Definition code_checked (t : TwoFA) (code : string) (l : list (AState * AState)) : Prop :=
  match ValidateNumericCode (TrimSpace code) with
  | Ok c => exists now, ValidateTOTPCode t.(tf_Secret) c now = true
  | Err _ => code_spent t.(tf_UserId) (TrimSpace code) l
  end.
Lemma code_spent_mono userId code l l' : l ⊆ l' -> code_spent userId code l -> code_spent userId code l'.
Proof. intros Hl (c & s & H1 & H2 & H3 & H4 & H5). exists c, s. split_and!; auto. by eapply wins_mono. Qed.
Lemma code_checked_mono t code l l' : l ⊆ l' -> code_checked t code l -> code_checked t code l'.
Proof. intros Hl. unfold code_checked. destruct (ValidateNumericCode _); [done|]. by apply code_spent_mono. Qed.
(** The checks answer true only then. *)
Abbreviation true_only P := (fun l r => forall b, r = Ok b -> b = true -> P l).
Lemma fol_false own (p : aprog (ares TwoFA)) (P : list (AState * AState) -> Prop) : quiet p -> fol own (andThen p (fun _ => Done (Ok false))) (fun l r => own ⊆ l /\ true_only P l r).
Proof. intros Hp. apply (fol_then _ _ _ (fun _ _ => True)); [by apply fol_quiet| |done]. intros l a Hl _. split; [done|]. by intros b [= <-]. Qed.
Lemma fol_used own t (P : list (AState * AState) -> Prop) : (forall l, own ⊆ l -> P l) -> fol own (used_now t) (fun l r => own ⊆ l /\ true_only P l r).
Proof. intros HP. eapply follows_mono; [apply quiet_used|]. intros l r Hl. split; [done|]. intros b _ _. by apply HP. Qed.
Lemma fol_locked own t (q : bool -> aprog (ares bool)) Q : (forall l, own ⊆ l -> fol l (q false) Q) -> (forall l, own ⊆ l -> fol l (q true) Q) -> fol own (pbind (IsLocked t) q) Q.
Proof. intros Hf Ht. eapply follows_then; [apply quiet_locked|]. intros l [|] Hl; auto. Qed.
Lemma fol_sub {A} own l (p : aprog A) (Q : list (AState * AState) -> A -> Prop) : own ⊆ l -> fol l p (fun l' a => l ⊆ l' /\ Q l' a) -> fol l p (fun l' a => own ⊆ l' /\ Q l' a).
Proof. intros Hl Hp. eapply follows_mono; [exact Hp|]. intros l' a [Hl' HQ]. split; [by transitivity l|done]. Qed.
Lemma fol_totp own t code : fol own (ValidateTOTPAndUpdateUsage t code) (fun l r => own ⊆ l /\ true_only (fun _ => exists now, ValidateTOTPCode t.(tf_Secret) code now = true) l r).
Proof.
  unfold ValidateTOTPAndUpdateUsage. apply fol_locked; intros l Hl; apply (fol_sub own l); try done. intros now. cbn [pbind]. destruct (ValidateTOTPCode (tf_Secret t) code now) eqn:E; cbn [negb]; [apply (fol_used l t (fun _ => _)); eauto|apply (fol_false l _ (fun _ => _)), quiet_increment].
Qed.
Lemma fol_recovery own t code : fol own (ValidateBackupCodeAndUpdateUsage t code) (fun l r => own ⊆ l /\ true_only (code_spent t.(tf_UserId) code) l r).
Proof.
  unfold ValidateBackupCodeAndUpdateUsage. apply fol_locked; intros l Hl; apply (fol_sub own l); try done. apply (fol_then _ _ _ (fun l' b => b = true -> code_spent (tf_UserId t) code l')); [| |done].
  - eapply follows_mono; [apply fol_backup|]. intros l' r [Hl' Hr]. split; [done|]. intros b Hb. by apply Hr.
  - intros l1 b Hl1 Hb. apply (fol_sub l l1); [done|]. destruct b; cbn [negb]; [|apply fol_false, quiet_increment]. apply fol_used. intros l2 Hl2. by apply (code_spent_mono _ _ l1); [|apply Hb].
Qed.
Lemma fol_verify own t code : fol own (VerifyTwoFactorCode t code) (fun l r => own ⊆ l /\ forall x, r = Ok x -> exists t', t = Some t' /\ t'.(tf_IsEnabled) = true /\ code_checked t' code l).
Proof.
  unfold VerifyTwoFactorCode. destruct t as [t|]; [|done]. destruct (tf_IsEnabled t) eqn:Et; cbn [negb]; [|done]. eapply follows_then; [apply quiet_locked|]. intros l [|] Hl; [by split|]. cbn zeta. apply (fol_sub own l); [done|].
  apply (fol_then _ _ _ (fun l' b => b = true -> code_checked t code l')).
  - unfold code_checked. destruct (ValidateNumericCode (TrimSpace code)) as [c|e] eqn:E.
    + eapply follows_mono; [apply fol_totp|]. intros l' r [Hl' Hr]. split; [done|]. intros b Hb. by apply Hr.
    + destruct (ValidateBackupCode_format _).
      * eapply follows_mono; [apply fol_recovery|]. intros l' r [Hl' Hr]. split; [done|]. intros b Hb. by apply Hr.
      * eapply follows_mono; [apply (fol_false l _ (fun _ => False)), quiet_increment|]. intros l' r [Hl' Hr]. split; [done|]. intros b Hb Ht. by destruct (Hr b Hb Ht).
  - intros l' [|] Hl' Hb; [|done]. split; [done|]. intros x _. exists t. split_and!; [done|done|by apply Hb].
  - by intros l' e Hl'.
Qed.

(** ** The login *)

Definition second_factor (userId : Z) (code : string) (l : list (AState * AState)) : Prop :=
  exists t s, (s, s) ∈ l /\ t ∈ rows (fun t => t.(tf_UserId) =? userId) s.(as_twofa) /\ t.(tf_IsEnabled) = true /\ code_checked t code l.
Definition flow_wins (token : string) (m : AuthFlowMatch) (l : list (AState * AState)) : Prop := exists s s', (s, s') ∈ l /\ flow_spent token m s s'.
Definition login_match (userId : Z) : AuthFlowMatch := mkFlowMatch AuthFlowPurposeLoginVerification "" "" userId "".
Lemma fol_factor own userId : fol own (GetTwoFAByUserId userId) (fun l r => own ⊆ l /\ forall x, r = Ok x -> forall t, x = Some t -> exists s, (s, s) ∈ l /\ t ∈ rows (fun t => t.(tf_UserId) =? userId) s.(as_twofa)).
Proof.
  unfold GetTwoFAByUserId. case_match; [done|]. apply fol_query; [intros s; apply grows_refl| |done]. intros s _. split; [intros x Hx; by right|]. intros x [= <-] t Ht. exists s. split; [left|]. cbn in Ht. destruct (rows _ _); [done|]. injection Ht as <-. left.
Qed.
Lemma created_user r s r' s' : within (createUserSessionWithTx r) s = (Ok r', s') -> r'.(se_UserID) = r.(se_UserID).
Proof.
  unfold within, createUserSessionWithTx. cbn -[create_row]. destruct (_ || _); [done|]. destruct (_ || _); [done|]. cbn -[create_row]. destruct (create_row _ _) as [[|] b]; [|done]. by intros [= <- _].
Qed.
Lemma session_user session validate flow s r s' : session_action session validate flow s = (Ok r, s') -> r.(se_UserID) = session.(se_UserID).
Proof.
  unfold session_action. intros H. apply bind_inv in H as [(x & s1 & _ & H)|(e & _ & He)]; [|done]. apply bind_inv in H as [(st & s2 & _ & H)|(e & _ & He)]; [|done]. destruct (_ || _); [done|].
  apply bind_inv in H as [(y & s3 & _ & H)|(e & _ & He)]; [|done]. apply bind_inv in H as [(z & s4 & _ & H)|(e & _ & He)]; [|done]. destruct (_ <=? _); [done|]. cbn zeta in H. destruct (_ <=? _); [done|]. by apply created_user in H.
Qed.
Lemma fol_consume {B : Set} own token m (action : AuthFlow -> M AState AErr B) (P : B -> Prop) : (forall f, keeps (action f)) -> (forall f s b s', action f s = (Ok b, s') -> P b) ->
  fol own (ConsumeAuthFlowWithAction token m action) (fun l r => own ⊆ l /\ forall x, r = Ok x -> flow_wins token m l /\ P x.2).
Proof.
  intros Ha HP. unfold ConsumeAuthFlowWithAction. case_match; [done|]. intros now. cbn [pbind]. eapply follows_mono; [apply (fol_transaction own _ (fun s s' x => flow_spent token m s s' /\ P x.2)); [by apply consume_keeps|]|].
  - intros s [f b] s' Hs Hx. destruct (consume_spends token m now action s f b s' Hs Ha Hx) as [H1 (s1 & _ & H2)]. split; [done|]. by apply (HP f s1 b s').
  - intros l r [Hl Hr]. split; [done|]. intros x Hx. destruct (Hr x Hx) as (s & s' & Hin & H1 & H2). split; [by exists s, s'|done].
Qed.
Lemma flow_wins_mono token m l l' : l ⊆ l' -> flow_wins token m l -> flow_wins token m l'.
Proof. intros Hl (s & s' & Hin & H). exists s, s'. auto. Qed.
Lemma fol_create_session own token session validate : fol own (CreateUserSessionFromLoginFlow token session validate)
  (fun l r => own ⊆ l /\ forall x, r = Ok x -> flow_wins token (login_match session.(se_UserID)) l /\ x.(se_UserID) = session.(se_UserID)).
Proof.
  unfold CreateUserSessionFromLoginFlow. eapply follows_then; [apply quiet_on_sessions|]. intros l d Hl. apply (fol_sub own l); [done|].
  apply (fol_then _ _ _ (fun l' x => flow_wins token (login_match session.(se_UserID)) l' /\ x.2.(se_UserID) = session.(se_UserID))); [| |done].
  - apply (fol_consume _ _ _ _ (fun x => se_UserID x = se_UserID session)); [intros f; apply keeps_session|]. intros f s b s'. apply session_user.
  - intros l1 x Hl1 [Hw Hu]. apply (fol_sub l l1); [done|]. apply (fol_then _ _ _ (fun l' _ => True)); [apply fol_quiet, quiet_sessions| |done]. intros l2 y Hl2 _. split; [done|]. intros z [= <-]. split; [by eapply flow_wins_mono|done].
Qed.
Lemma bundle_user r raw b : issueAuthBundle r raw = inr b -> b.(ab_Access).(id_UserID) = r.(se_UserID).
Proof. unfold issueAuthBundle, IssueAccessToken. destruct (_ || _ || _ || _); [done|]. by intros [= <-]. Qed.
Lemma fol_complete own sid secret token v method ip ua : fol own (CompleteLoginVerification sid secret token v method ip ua)
  (fun l r => own ⊆ l /\ forall b, r = Ok b -> flow_wins token (login_match v.(lv_State).(vs_UserID)) l /\ b.(ab_Access).(id_UserID) = v.(lv_State).(vs_UserID)).
Proof.
  unfold CompleteLoginVerification, newLoginSession. intros now. cbn [pbind on_sessions]. cbn zeta.
  apply (fol_then _ _ _ (fun l x => flow_wins token (login_match v.(lv_State).(vs_UserID)) l /\ x.(se_UserID) = v.(lv_State).(vs_UserID))); [apply fol_create_session| |done].
  intros l x Hl [Hw Hu]. apply (fol_sub own l); [done|]. destruct (issueAuthBundle _ _) as [e|b] eqn:E; [eapply follows_then; [apply quiet_on_sessions|]; done|]. split; [done|]. intros b' [= <-]. split; [done|]. by rewrite (bundle_user _ _ _ E).
Qed.
Lemma quiet_get token m : quiet (GetAuthFlow token m).
Proof.
  unfold GetAuthFlow. case_match; [apply quiet_done|]. apply quiet_bind; [intros own; apply fol_stmt; [intros s; apply grows_refl|intros s _ x Hx; by right|done]|].
  intros [[f|]|]; [|apply quiet_done..]. case_match; [apply quiet_done|]. apply quiet_bind; [apply quiet_now|]. intros t. apply quiet_done.
Qed.
Lemma quiet_require token method : quiet (RequireLoginVerification token method).
Proof.
  unfold RequireLoginVerification. apply quiet_then; [apply quiet_get|].
  intros flow. case_match; [|apply quiet_done]. case_match; [apply quiet_done|]. apply quiet_then; [apply quiet_bind; [apply quiet_now|]; intros t; apply quiet_transaction, keeps_state|]. intros state. case_match; [apply quiet_done|]. case_match; apply quiet_done.
Qed.
Definition login_ok (token code : string) (l : list (AState * AState)) (b : AuthBundle) : Prop :=
  let userId := b.(ab_Access).(id_UserID) in flow_wins token (login_match userId) l /\ second_factor userId code l.
Lemma fol_login own sid secret token code ip ua : fol own (VerifyLoginCode sid secret token code ip ua) (fun l r => own ⊆ l /\ forall b, r = Ok b -> login_ok token code l b).
Proof.
  unfold VerifyLoginCode. apply (fol_then _ _ _ (fun _ _ => True)); [apply fol_quiet, quiet_require| |done]. intros l v Hl _. apply (fol_sub own l); [done|].
  eapply fol_then; [apply fol_factor| |done]. intros l1 t Hl1 Ht. apply (fol_sub l l1); [done|]. eapply fol_then; [apply fol_verify| |done]. intros l2 u Hl2 (t' & Et & He & Hc). destruct (Ht t' Et) as (s & Hin & Hrow). apply (fol_sub l1 l2); [done|].
  eapply follows_mono; [apply fol_complete|]. intros l3 r [Hl3 Hr]. split; [done|]. intros b Hb. destruct (Hr b Hb) as [Hw Hu]. unfold login_ok. rewrite Hu. split; [done|]. exists t', s. split_and!; [auto|done|done|by eapply code_checked_mono].
Qed.
End laws.

(** ** Runs *)

Section runs.
Context `{AC : AuthConfig}.

Inductive FOp :=
| FStart (token : string) (userId authVersion : Z) (method : string)
| FLogin (sid secret token code ip agent : string)
| FVerify (userId : Z) (code : string)
| FCreate (token : string) (input : AuthFlowCreate)
| FClaim (purpose assertion : string) (expiresAt : Z)
| FGet (token : string) (m : AuthFlowMatch)
| FConsume (token : string) (m : AuthFlowMatch)
| FClean (now : Z)
| FReplace (userId : Z) (codes : list (string * string)) (identity : option AuthSessionIdentity)
| FDisable (userId : Z) (identity : option AuthSessionIdentity)
| FEnroll (token : string) (i : AuthSessionIdentity) (a : option AuthFlowAuthorization) (secret : string) (codes : list (string * string)) (expiresAt : Z)
| FEnable (i : AuthSessionIdentity) (token code : string)
| FSession (o : Op).
Inductive foutcome := LoggedIn (b : AuthBundle) | Verified | Consumed (f : AuthFlow) | FEnded | FFailed (e : AErr) | FOther (o : outcome).
Definition freport {A} (f : A -> foutcome) (p : aprog (ares A)) : aprog foutcome := let* r := p in Done (match r with Err e => FFailed e | Ok a => f a end).
Definition fended {A} (a : A) : foutcome := FEnded.
(** The check of a second factor outside of a login. *)
Definition verify_user (userId : Z) (code : string) : aprog (ares unit) := andThen (GetTwoFAByUserId userId) (fun t => VerifyTwoFactorCode t code).
Definition fexec (o : FOp) : aprog foutcome :=
  match o with
  | FStart token u v m => freport fended (StartLoginVerification token u v m)
  | FLogin sid secret token code ip ua => freport LoggedIn (VerifyLoginCode sid secret token code ip ua)
  | FVerify u code => freport (fun _ => Verified) (verify_user u code)
  | FCreate token input => freport fended (CreateAuthFlow token input)
  | FClaim p a x => freport fended (ClaimExternalAuthAssertion p a x)
  | FGet token m => freport fended (GetAuthFlow token m)
  | FConsume token m => freport Consumed (ConsumeAuthFlow token m)
  | FClean now => freport fended (DeleteExpiredAuthFlows now)
  | FReplace u codes i => freport fended (replaceBackupCodesWithAuthVersion u codes i)
  | FDisable u i => freport fended (disableTwoFAWithAuthVersion u i)
  | FEnroll token i a secret codes x => freport fended (CreateTwoFAEnrollment token i a secret codes x)
  | FEnable i token code => freport fended (EnableTwoFAEnrollment i token code)
  | FSession o => let* r := on_sessions (SessionLaws.exec o) in Done (FOther r)
  end.
(** The environment of the sessions, and changes of passwords and passkeys. *)
Inductive FWorld := FBase (e : World) | FProfiles (m : gmap Z UserProfile).
Definition fworld (e : FWorld) (s : AState) : AState :=
  match e with
  | FBase e => set_base (world e s.(as_base)) s
  | FProfiles m => mkAState s.(as_base) m s.(as_flows) s.(as_next_flow) s.(as_twofa) s.(as_next_twofa) s.(as_codes) s.(as_next_code)
  end.
Definition fenv (s s' : AState) : Prop := exists e, s' = fworld e s.
Definition any_op (o : FOp) : Prop := True.
Definition fpost (o : FOp) (l : list (AState * AState)) (a : foutcome) : Prop :=
  match o, a with
  | FLogin _ _ token code _ _, LoggedIn b => login_ok token code l b
  | FVerify userId code, Verified => second_factor userId code l
  | FConsume token m, Consumed _ => flow_wins token m l
  | _, _ => True
  end.
Lemma quiet_report {A} (p : aprog (ares A)) f : quiet p -> quiet (freport f p).
Proof. intros Hp. apply quiet_bind; [done|]. intros r. apply quiet_done. Qed.
Lemma fol_report {A} own (p : aprog (ares A)) f (P : list (AState * AState) -> A -> Prop) o :
  follows tables_ok spends spent own p (fun l r => own ⊆ l /\ forall a, r = Ok a -> P l a) -> (forall l a, P l a -> fpost o l (f a)) -> (forall l e, fpost o l (FFailed e)) ->
  follows tables_ok spends spent own (freport f p) (fpost o).
Proof. intros Hp Hf He. eapply follows_then; [exact Hp|]. intros l [a|e] [_ Ha]; [by apply Hf, Ha|by apply He]. Qed.
Lemma quiet_tx_publish {A : Set} (m : M AState AErr A) userId : keeps m -> quiet (andThen (transaction m) (fun _ => publish_user userId)).
Proof. intros Hm. apply quiet_then; [by apply quiet_transaction|]. intros x. apply quiet_publish_user. Qed.
Lemma quiet_start token u v m : quiet (StartLoginVerification token u v m).
Proof.
  unfold StartLoginVerification, CreateAuthFlow. case_match; [apply quiet_done|]. apply quiet_then; [apply quiet_bind; [apply quiet_now|]; intros t; apply quiet_transaction, keeps_state|]. intros state. case_match; [apply quiet_done|].
  case_match; [|apply quiet_done]. case_match; [apply quiet_done|]. case_match; [apply quiet_done|]. apply quiet_bind; [apply quiet_now|]. intros now. apply quiet_then; [apply quiet_bind; [apply quiet_now|]; intros t; apply quiet_transaction, keeps_create|]. intros r. apply quiet_done.
Qed.
Lemma keeps_enroll token i a secret codes x now : keeps (
  ValidateAuthSessionWithTx i ;;
  let! s := get in
  match rows (fun t => t.(tf_UserId) =? i.(id_UserID)) s.(as_twofa) with
  | [] => ret tt
  | existing :: _ => if existing.(tf_IsEnabled) then throw ErrTwoFAAlreadyEnabled else modify (fun s => set_twofa (filter (fun kt => kt.2.(tf_Id) <> existing.(tf_Id)) s.(as_twofa)) s)
  end ;;
  let! s := get in
  let id := s.(as_next_twofa) in
  modify (new_twofa (fun id => mkTwoFA id i.(id_UserID) secret false 0 None None)) ;;
  replaceBackupCodesWithTx i.(id_UserID) codes ;;
  let payload := MarshalEnrollment (mkEnrollment id (enrollmentHash secret) a) in
  let! r := createAuthFlowWithTx token (mkFlowCreate AuthFlowPurposeTwoFASetup "" "" i.(id_UserID) i.(id_SessionID) payload (Some x)) now in
  ret r.1).
Proof.
  apply tx_keeps_bind; [apply keeps_validate|]. intros _. apply tx_keeps_bind; [apply keeps_get|]. intros s. apply tx_keeps_bind; [case_match; [apply keeps_const|]; case_match; [apply keeps_const|]; apply keeps_modify, (steady_twofa (fun s => filter _ s.(as_twofa)))|].
  intros _. apply tx_keeps_bind; [apply keeps_get|]. intros s'. cbn zeta. apply tx_keeps_bind; [apply keeps_modify, steady_new_twofa|]. intros _. apply tx_keeps_bind; [apply keeps_replace|]. intros _. apply tx_keeps_bind; [apply keeps_create|]. intros r. apply keeps_const.
Qed.
Lemma fexec_ok o : any_op o -> follows tables_ok spends spent [] (fexec o) (fpost o).
Proof.
  intros _. destruct o; cbn [fexec]; try (eapply follows_mono; [apply quiet_report|done]).
  - apply quiet_start.
  - eapply fol_report; [apply fol_login|done|done].
  - apply (fol_report _ _ _ (fun l _ => second_factor userId code l)); [|done|done]. eapply fol_then; [apply fol_factor| |done]. intros l t Hl Ht. apply (fol_sub [] l); [done|]. eapply follows_mono; [apply fol_verify|]. intros l1 r [Hl1 Hr]. split; [done|]. intros x Hx. destruct (Hr x Hx) as (t' & Et & He & Hc).
    destruct (Ht t' Et) as (s & Hin & Hrow). exists t', s. split_and!; auto.
  - apply quiet_bind; [apply quiet_now|]. intros now. apply quiet_transaction, keeps_create.
  - apply quiet_bind; [apply quiet_now|]. intros now. apply quiet_transaction, keeps_claim.
  - apply quiet_get.
  - apply (fol_report _ _ _ (fun l _ => flow_wins token m l)); [|done|done]. eapply fol_then; [apply (fol_consume _ _ _ _ (fun _ => True)); [intros f; apply keeps_const|done]| |done]. intros l x Hl [Hw _]. split; [done|]. intros f [= <-]. exact Hw.
  - apply quiet_transaction, keeps_modify, steady_flow_filter.
  - apply quiet_tx_publish. apply tx_keeps_bind; [apply keeps_owner|]. intros _. apply tx_keeps_bind; [apply keeps_factor|]. intros t. apply tx_keeps_bind; [apply keeps_raise|]. intros _. apply keeps_replace.
  - apply quiet_tx_publish. apply tx_keeps_bind; [apply keeps_owner|]. intros _. apply tx_keeps_bind; [apply keeps_factor|]. intros t. apply tx_keeps_bind; [apply keeps_raise|]. intros _. apply tx_keeps_bind; [apply keeps_modify, steady_code_filter|]. intros _. apply keeps_modify, (steady_twofa (fun s => filter _ s.(as_twofa))).
  - unfold CreateTwoFAEnrollment. case_match; [apply quiet_done|]. apply quiet_bind; [apply quiet_now|]. intros now. apply quiet_transaction, keeps_enroll.
  - unfold EnableTwoFAEnrollment. case_match; [|apply quiet_done]. apply quiet_bind; [|intros [x|e]; [apply quiet_publish_user|destruct e; apply quiet_done]]. intros own. eapply follows_mono; [apply (fol_consume _ _ _ _ (fun _ => True)); [intros f; apply keeps_enrollment|done]|]. by intros l r [Hl _].
  - eapply follows_then; [apply quiet_on_sessions|]. done.
Qed.
Lemma fenv_ok s s' : fenv s s' -> tables_ok s -> tables_ok s' /\ forall k, spent k s -> spent k s'.
Proof. intros [e ->] Hs. destruct e; (split; [by destruct Hs|]); by intros [id|id]. Qed.
End runs.

(** C26. A second factor cannot be passed by and nothing is spent twice.  Over every
    interleaving of logins, verifications, enrollments, replacements of recovery codes,
    clean-ups and operations on sessions, with statements that fail before or after their
    effect: a login with a second factor consumed a flow of its token for the user it logs
    in, and verified an enabled factor of that user, by a time-based code or by a matching
    recovery code it used up; and no two operations that ended consumed the same flow or
    used the same recovery code. *)
Theorem second_factor_logins `{AC : AuthConfig} s c : tables_ok s -> xreachable as_clock fexec any_op fenv s c ->
  (forall i sid secret token code ip agent own b, c.(xfinished) !! i = Some (FLogin sid secret token code ip agent, own, LoggedIn b) -> login_ok token code own b) /\
  (forall i j oi oj owni ownj ai aj k, i <> j -> c.(xfinished) !! i = Some (oi, owni, ai) -> c.(xfinished) !! j = Some (oj, ownj, aj) -> wins spends k owni -> ~ wins spends k ownj).
Proof.
  intros Hs Hr. split.
  - intros i sid secret token code ip agent own b Hi. exact (finished_follows as_clock _ _ _ _ _ _ _ fexec_ok fenv_ok s c i _ _ _ Hs Hr Hi).
  - intros i j oi oj owni ownj ai aj k Hij Hi Hj Wi Wj. exact (one_winner as_clock _ _ _ _ _ _ _ fexec_ok fenv_ok s c k i j _ _ _ _ _ _ Hs Hr Hij Hi Hj Wi Wj).
Qed.

(** ** A sample *)

Definition sample_auth : AuthConfig :=
  Build_AuthConfig sample_config (fun s => "t:" +:+ s) (fun s => "e:" +:+ s) (fun code secret now => String.eqb code "123456") (fun salt code => Some (salt +:+ code)) (fun code h => String.eqb h ("s" +:+ code))
    lp_LoginMethod (fun s => Some (mkLoginPayload 1 s)) ep_SecretHash (fun s => None) true.
Definition factor_store : AState :=
  mkAState sample_store ∅ ∅ 1 {[1 := mkTwoFA 1 7 "secret" true 0 None None]} 2 {[1 := mkBackupCode 1 7 "sABCD-EFGH" false None false]} 2.
(** The first factor was passed; two logins with one flow, one by a time-based and one by a
    recovery code, in lock step. *)
Definition factor_schedule : list (act (Op := FOp) FWorld) :=
  [AStart (FStart "tok" 7 1 "password")] ++ repeat (ARun 0) 12 ++ [AStart (FLogin "sid1" "x" "tok" "123 456" "" ""); AStart (FLogin "sid2" "y" "tok" "abcd-efgh" "" "")] ++ repeat (ARun 1) 80 ++ repeat (ARun 0) 30.
Definition factor_end : XConfig := foldl (xperform as_clock (fexec (AC := sample_auth)) fworld) (mkXConfig factor_store [] [] []) factor_schedule.
Definition factor_outcomes (c : XConfig (S := AState) (Op := FOp) (R := foutcome)) : list foutcome := (fun x => x.2) <$> c.(xfinished).
Lemma factor_end_reachable : xreachable as_clock (fexec (AC := sample_auth)) any_op fenv factor_store factor_end.
Proof. apply xschedule_reachable; [intros e s; by exists e|]. apply Forall_true. by intros [e|o|i|i|i]. Qed.
Lemma factor_store_ok : tables_ok factor_store.
Proof.
  split; intros id x Hx; [done|]. change (({[1 := mkBackupCode 1 7 "sABCD-EFGH" false None false]} : gmap Z TwoFABackupCode) !! id = Some x) in Hx. apply lookup_singleton_Some in Hx as [<- <-]. done.
Qed.
Definition factor_winner : list (AState * AState) := match factor_end.(xfinished) !! 0%nat with Some x => x.1.2 | None => [] end.
Definition factor_bundle : AuthBundle := mkBundle (mkIdentity 7 "sid1" 1 1) "sid1.x".
Lemma second_factor_logins_witness :
  factor_outcomes factor_end = [LoggedIn factor_bundle; FFailed ErrAuthFlowConsumed; FEnded] /\ login_ok (AC := sample_auth) "tok" "123 456" factor_winner factor_bundle.
Proof.
  split; [vm_compute; reflexivity|].
  apply (proj1 (second_factor_logins (AC := sample_auth) factor_store factor_end factor_store_ok factor_end_reachable) 0%nat "sid1" "x" "tok" "123 456" "" "").
  vm_compute. reflexivity.
Defined.
