(* ===== verification/FactorGuess.v ===== *)
(** * Guessing a second factor (theorems on TwoFactor)

    Failures are counted; from the fifth on every failure locks the factor for five minutes. *)

From stdpp Require Import base tactics numbers list sets gmap strings.
From Stdlib Require Import ZArith Lia Ascii.
From S2P Require Import Prelude Steps Session SessionLogin SessionLaws StatusCodes UsageMerge AuthFlow TwoFactor LoginFlow FactorLaws.
Open Scope Z_scope.
Open Scope steps_scope.
Open Scope i64_scope.

Section guess.
Context `{AC : AuthConfig}.

(** ** Programs run alone *)

Abbreviation alone := (run_alone as_clock []).
Lemma alone_bind {A B} (p : aprog A) (q : A -> aprog B) s : alone (pbind p q) s = (let (a, s1) := alone p s in alone (q a) s1).
Proof. revert s. induction p as [a|k IH|C f k IH]; intros s; cbn; [done|apply IH|]. destruct (f s) as [b s1]. apply IH. Qed.
Lemma alone_then {A B} (p : aprog (ares A)) (q : A -> aprog (ares B)) s :
  alone (andThen p q) s = (let (r, s1) := alone p s in match r with Ok a => alone (q a) s1 | Err e => (Err e, s1) end).
Proof. unfold andThen. rewrite alone_bind. by destruct (alone p s) as [[a|e] s1]. Qed.
Lemma alone_query {B : Set} (f : AState -> B * AState) s : alone (query f) s = (Ok (f s).1, (f s).2).
Proof. unfold query. rewrite alone_bind. cbn. by destruct (f s). Qed.
Lemma alone_now {A} (q : Z -> aprog A) s : alone (let* t := A_Now in q t) s = alone (q (as_clock s)) s.
Proof. done. Qed.
Lemma alone_locked {A} t (q : bool -> aprog A) s : alone (let* b := IsLocked t in q b) s = alone (q (locked_at (as_clock s) t.(tf_LockedUntil))) s.
Proof. unfold IsLocked. by destruct (tf_LockedUntil t). Qed.

(** ** One factor *)

(** The user's factor is [t], and rows are under their ids. *)
Definition sole (s : AState) (userId : Z) (t : TwoFA) : Prop :=
  s.(as_twofa) !! t.(tf_Id) = Some t /\ t.(tf_UserId) = userId /\ forall id x, s.(as_twofa) !! id = Some x -> x.(tf_Id) = id /\ (x.(tf_UserId) = userId -> id = t.(tf_Id)).
Lemma rows_single {A} (p : A -> bool) (m : gmap Z A) k r : m !! k = Some r -> p r = true -> (forall id x, m !! id = Some x -> p x = true -> id = k) -> rows p m = [r].
Proof.
  intros Hk Hp Hu. unfold rows. rewrite <- (insert_id m k r Hk), <- insert_delete_eq. assert (map_to_list (<[k:=r]> (delete k m)) ≡ₚ (k, r) :: map_to_list (delete k m)) as Hm by (apply map_to_list_insert, lookup_delete_eq).
  assert (filter (fun x => p x = true) (map_to_list (delete k m)).*2 = []) as Hn.
  { apply elem_of_nil_inv. intros x Hx. apply list_elem_of_filter in Hx as [Hx Hin]. apply list_elem_of_fmap in Hin as ([id y] & -> & Hin). apply elem_of_map_to_list in Hin. apply lookup_delete_Some in Hin as [Hne Hin]. by destruct Hne; symmetry; apply (Hu id y). }
  apply Permutation_singleton_r. rewrite Hm, fmap_cons. cbn [snd]. rewrite filter_cons_True by done. by rewrite Hn.
Qed.
Lemma sole_user s u t : sole s u t -> rows (fun x => x.(tf_UserId) =? u) s.(as_twofa) = [t].
Proof. intros (H1 & H2 & H3). apply (rows_single _ _ t.(tf_Id)); [done|by apply Z.eqb_eq|]. intros id x Hx Hp. apply (H3 id x Hx). by apply Z.eqb_eq. Qed.
Lemma sole_id s u t : sole s u t -> rows (has_id t.(tf_Id)) s.(as_twofa) = [t].
Proof. intros (H1 & H2 & H3). apply (rows_single _ _ t.(tf_Id)); [done|by apply Z.eqb_eq|]. intros id x Hx Hp. destruct (H3 id x Hx) as [<- _]. by apply Z.eqb_eq in Hp. Qed.
(** The counter after a failure. *)
Definition failed_once (now : Z) (t : TwoFA) : TwoFA := let a := t.(tf_FailedAttempts) +! 1 in set_factor a (next_lock a now t.(tf_LockedUntil)) t.(tf_LastUsedAt) t.
Lemma sole_failed s u t : sole s u t -> locked_at (as_clock s) t.(tf_LockedUntil) = false ->
  let a := t.(tf_FailedAttempts) +! 1 in
  sole (set_twofa (updates (still_open t (as_clock s)) (fun r => set_factor a (next_lock a (as_clock s) t.(tf_LockedUntil)) r.(tf_LastUsedAt) r) s.(as_twofa)) s) u (failed_once (as_clock s) t).
Proof.
  intros (H1 & H2 & H3) Hl a. assert (still_open t (as_clock s) t = true) as Ho by (unfold still_open, has_id; by rewrite !Z.eqb_refl, Hl). split_and!.
  - cbn -[updates]. unfold updates. rewrite lookup_fmap, H1. cbn. by rewrite Ho.
  - done.
  - intros id x Hx. cbn -[updates] in Hx. apply updates_lookup in Hx as (r & Hr & ->). destruct (H3 id r Hr) as [Hid Hu]. by destruct (still_open _ _ r).
Qed.
Lemma alone_increment s u t : sole s u t -> t.(tf_Id) <> 0 -> locked_at (as_clock s) t.(tf_LockedUntil) = false ->
  exists s', alone (IncrementFailedAttempts t) s = (Ok (failed_once (as_clock s) t), s') /\ sole s' u (failed_once (as_clock s) t) /\ as_clock s' = as_clock s.
Proof.
  intros Hs Hid Hl. unfold IncrementFailedAttempts. destruct (Z.eqb_spec (tf_Id t) 0) as [|_]; [done|]. cbn [increment_loop]. rewrite alone_then, alone_query. cbn [fst snd]. rewrite (sole_id s u t Hs). cbn [head]. rewrite alone_now, Hl.
  cbn zeta. rewrite alone_then, alone_query. cbn [fst snd]. eexists. split; [|split; [by apply sole_failed|done]].
  unfold affected. destruct Hs as (H1 & H2 & H3). rewrite (rows_single (still_open t (as_clock s)) _ (tf_Id t) t); [done|done|unfold still_open, has_id; by rewrite !Z.eqb_refl, Hl|].
  intros id x Hx Hp. apply andb_prop in Hp as [Hp _]. apply andb_prop in Hp as [Hp _]. apply Z.eqb_eq in Hp. destruct (H3 id x Hx) as [<- _]. done.
Qed.
Lemma alone_backup s u code : ValidateBackupCode_format code = true -> exists b s1, alone (ValidateBackupCode u code) s = (Ok b, s1) /\ s1.(as_twofa) = s.(as_twofa) /\ as_clock s1 = as_clock s.
Proof.
  intros Hf. unfold ValidateBackupCode. rewrite Hf. cbn [negb]. cbn zeta. rewrite alone_then, alone_query. cbn [fst snd]. destruct (filter _ _) as [|bc l]; [by exists false, s|]. rewrite alone_now, alone_then, alone_query. cbn [fst snd]. by eexists _, _.
Qed.
Lemma alone_used s t : t.(tf_Id) <> 0 -> (alone (used_now t) s).1 = Ok true.
Proof. intros Hid. unfold used_now. rewrite alone_now, alone_then. unfold updateUsageState. cbn [tf_Id set_factor]. destruct (Z.eqb_spec (tf_Id t) 0); [done|]. by rewrite alone_query. Qed.
(** What a failed check leaves. *)
Definition failure (s : AState) (u : Z) (t : TwoFA) (x : ares bool * AState) : Prop := x.1 = Ok false /\ sole x.2 u (failed_once (as_clock s) t) /\ as_clock x.2 = as_clock s.
Lemma alone_fail s s1 u t : sole s u t -> s1.(as_twofa) = s.(as_twofa) -> as_clock s1 = as_clock s -> t.(tf_Id) <> 0 -> locked_at (as_clock s) t.(tf_LockedUntil) = false ->
  failure s u t (alone (andThen (IncrementFailedAttempts t) (fun _ => Done (Ok false))) s1).
Proof.
  intros Hs Ht Hc Hid Hl. assert (sole s1 u t) as Hs1 by (unfold sole; by rewrite Ht). rewrite <- Hc in Hl. destruct (alone_increment s1 u t Hs1 Hid Hl) as (s' & E & Hs' & Hc'). rewrite alone_then, E. unfold failure. rewrite <- Hc. done.
Qed.
Lemma alone_totp s u t code : sole s u t -> t.(tf_Id) <> 0 -> locked_at (as_clock s) t.(tf_LockedUntil) = false ->
  let x := alone (ValidateTOTPAndUpdateUsage t code) s in x.1 = Ok true \/ failure s u t x.
Proof. intros Hs Hid Hl x. unfold x, ValidateTOTPAndUpdateUsage. rewrite alone_locked, Hl, alone_now. destruct (ValidateTOTPCode _ _ _); cbn [negb]; [left; by apply alone_used|right; by apply alone_fail]. Qed.
Lemma alone_recovery s u t code : sole s u t -> t.(tf_Id) <> 0 -> locked_at (as_clock s) t.(tf_LockedUntil) = false -> ValidateBackupCode_format code = true ->
  let x := alone (ValidateBackupCodeAndUpdateUsage t code) s in x.1 = Ok true \/ failure s u t x.
Proof.
  intros Hs Hid Hl Hf x. unfold x, ValidateBackupCodeAndUpdateUsage. rewrite alone_locked, Hl, alone_then. destruct (alone_backup s (tf_UserId t) code Hf) as (b & s1 & -> & H1 & H2). destruct b; cbn [negb]; [left; by apply alone_used|right; by apply alone_fail].
Qed.
(** A guess while the factor is locked is refused; another one is right or counts. *)
Lemma alone_guess s u t code r s' : sole s u t -> t.(tf_Id) <> 0 -> t.(tf_IsEnabled) = true -> u <> 0 -> alone (verify_user u code) s = (r, s') ->
  if locked_at (as_clock s) t.(tf_LockedUntil) then r = Err ErrVerificationLocked /\ s' = s
  else r = Ok tt \/ (r = Err ErrVerificationFailed /\ sole s' u (failed_once (as_clock s) t) /\ as_clock s' = as_clock s).
Proof.
  intros Hs Hid He Hu. unfold verify_user, GetTwoFAByUserId. destruct (Z.eqb_spec u 0) as [|_]; [done|]. rewrite alone_then, alone_query. cbn [fst snd]. rewrite (sole_user s u t Hs). cbn [head VerifyTwoFactorCode]. rewrite He. cbn [negb]. rewrite alone_locked.
  destruct (locked_at _ _) eqn:Hl; [by intros [= <- <-]|]. cbn zeta. rewrite alone_then.
  set (p := match ValidateNumericCode _ with Ok _ => _ | Err _ => _ end). assert ((alone p s).1 = Ok true \/ failure s u t (alone p s)) as Hp.
  { unfold p. destruct (ValidateNumericCode _) as [c|e]; [by apply alone_totp|]. destruct (ValidateBackupCode_format _) eqn:Hf; [by apply alone_recovery|]. right. by apply alone_fail. }
  destruct (alone p s) as [x s1]. unfold failure in Hp. cbn [fst snd] in Hp. destruct Hp as [->|(-> & H1 & H2)]; cbn; intros [= <- <-]; [by left|by right].
Qed.

(** ** Many guesses *)

Definition at_time (now : Z) (s : AState) : AState := let b := s.(as_base) in set_base (mkSState b.(ss_rows) b.(ss_cache) b.(ss_user_cache) b.(ss_users) now) s.
(** Guesses one after the other, each at its time, with the answers. *)
Fixpoint guesses (u : Z) (l : list (Z * string)) (s : AState) : list (ares unit) * AState :=
  match l with
  | [] => ([], s)
  | (now, code) :: l => let (r, s1) := alone (verify_user u code) (at_time now s) in let (rs, s2) := guesses u l s1 in (r :: rs, s2)
  end.
Fixpoint in_order (now : Z) (l : list (Z * string)) : Prop := match l with [] => True | (t, _) :: l => now <= t /\ in_order t l end.
Definition is_wrong (r : ares unit) : bool := match r with Err ErrVerificationFailed => true | _ => false end.
Definition wrong (rs : list (ares unit)) : Z := Z.of_nat (length (filter (fun r => is_wrong r = true) rs)).
Definition lockout : Z := LockoutDuration * second.
(** After [n] wrong guesses since [t0]. *)
Record counted (t0 n : Z) (s : AState) (u : Z) (t : TwoFA) : Prop := {
  co_sole : sole s u t;
  co_id : t.(tf_Id) <> 0;
  co_on : t.(tf_IsEnabled) = true;
  co_attempts : t.(tf_FailedAttempts) = n;
  co_few : n < MaxFailAttempts -> t.(tf_LockedUntil) = None;
  co_many : MaxFailAttempts <= n -> exists x, t.(tf_LockedUntil) = Some x /\ t0 + lockout * (n - 4) <= x;
  co_time : t0 <= as_clock s /\ (MaxFailAttempts <= n -> t0 + lockout * (n - 5) <= as_clock s)
}.
Lemma counted_later t0 n s u t now : as_clock s <= now -> counted t0 n s u t -> counted t0 n (at_time now s) u t.
Proof. intros Hn [H1 H2 H3 H4 H5 H6 [H7 H8]]. split; try done. cbn. split; [lia|]. intros Hm. specialize (H8 Hm). lia. Qed.
Lemma counted_failed t0 n s s' u t : 0 <= n < 2 ^ 62 -> counted t0 n s u t -> locked_at (as_clock s) t.(tf_LockedUntil) = false -> sole s' u (failed_once (as_clock s) t) -> as_clock s' = as_clock s ->
  counted t0 (n + 1) s' u (failed_once (as_clock s) t).
Proof.
  intros Hn [H1 H2 H3 H4 H5 H6 [H7 H8]] Hl Hs Hc. assert (tf_FailedAttempts t +! 1 = n + 1) as Ha by (rewrite H4; apply wrap64_id; unfold in_i64, MinInt64, MaxInt64; lia). unfold MaxFailAttempts in *.
  assert (5 <= n -> t0 + lockout * (n - 4) <= as_clock s) as Hw by (intros Hm; destruct (H6 Hm) as (x & Hx & Hle); rewrite Hx in Hl; cbn in Hl; lia).
  split; try done.
  - unfold MaxFailAttempts; intros Hf. cbn [tf_LockedUntil failed_once set_factor]. rewrite Ha. unfold next_lock, MaxFailAttempts. destruct (Z.leb_spec 5 (n + 1)); [lia|]. apply H5. lia.
  - unfold MaxFailAttempts; intros Hf. cbn [tf_LockedUntil failed_once set_factor]. rewrite Ha. unfold next_lock, MaxFailAttempts. destruct (Z.leb_spec 5 (n + 1)); [|lia]. eexists. split; [done|]. fold lockout. destruct (Z.eq_dec n 4) as [->|]; [lia|]. specialize (Hw ltac:(lia)). lia.
  - rewrite Hc. split; [done|]. unfold MaxFailAttempts; intros Hf. destruct (Z.eq_dec n 4) as [->|]; [lia|]. specialize (Hw ltac:(lia)). lia.
Qed.
Lemma guesses_counted u l t0 n s t rs s' : u <> 0 -> 0 <= n -> n + Z.of_nat (length l) < 2 ^ 62 -> counted t0 n s u t -> in_order (as_clock s) l -> guesses u l s = (rs, s') -> Ok tt ∉ rs ->
  exists t', counted t0 (n + wrong rs) s' u t'.
Proof.
  revert n s t rs. induction l as [|[now code] l IH]; intros n s t rs Hu Hn Hb Hc Ho Hg Hno; [injection Hg as <- <-; exists t; unfold wrong; cbn; by rewrite Z.add_0_r|].
  destruct Ho as [Hnow Ho]. cbn [guesses] in Hg. destruct (alone _ _) as [r s1] eqn:E. destruct (guesses u l s1) as [rs' s2] eqn:Eg. injection Hg as <- <-. apply (counted_later _ _ _ _ _ now Hnow) in Hc.
  pose proof (alone_guess _ _ _ _ _ _ (co_sole _ _ _ _ _ Hc) (co_id _ _ _ _ _ Hc) (co_on _ _ _ _ _ Hc) Hu E) as Hr. apply not_elem_of_cons in Hno as [Hr' Hno]. cbn [length] in Hb. destruct (locked_at _ _) eqn:Hl.
  - destruct Hr as [-> ->]. unfold wrong. rewrite filter_cons_False by done. by apply (IH n (at_time now s) t); try done; lia.
  - destruct Hr as [->|(-> & Hs & Hck)]; [done|]. unfold wrong. rewrite filter_cons_True by done. cbn [length]. rewrite Nat2Z.inj_succ, <- Z.add_1_l, Z.add_assoc. apply (IH (n + 1) s1 (failed_once (as_clock (at_time now s)) t)); [done|lia|lia| |by rewrite Hck|done|done].
    apply (counted_failed t0 n (at_time now s)); [lia|done..].
Qed.
End guess.

(** C27. Guessing is slow.  However many codes are tried one after the other against a
    factor that has no failures yet, and whatever the codes are: as long as none is right,
    at most five and one more for every five minutes that pass are checked at all. *)
Theorem wrong_guesses_bounded `{AC : AuthConfig} u l s t rs s' :
  u <> 0 -> sole s u t -> t.(tf_Id) <> 0 -> t.(tf_IsEnabled) = true -> t.(tf_FailedAttempts) = 0 -> t.(tf_LockedUntil) = None ->
  in_order (as_clock s) l -> Z.of_nat (length l) < 2 ^ 62 -> guesses u l s = (rs, s') -> Ok tt ∉ rs -> wrong rs <= 5 + (as_clock s' - as_clock s) / (LockoutDuration * second).
Proof.
  intros Hu Hs Hid He Ha Hl Ho Hb Hg Hno. assert (counted (as_clock s) 0 s u t) as Hc by (split; try done; unfold MaxFailAttempts; lia).
  destruct (guesses_counted u l (as_clock s) 0 s t rs s' Hu ltac:(done) Hb Hc Ho Hg Hno) as [t' [_ _ _ _ _ _ [H1 H2]]]. fold lockout. assert (0 < lockout) by done.
  pose proof (Z.div_pos (as_clock s' - as_clock s) lockout ltac:(lia) ltac:(lia)). destruct (Z.lt_ge_cases (wrong rs) MaxFailAttempts) as [Hf|Hf]; [unfold MaxFailAttempts in Hf; lia|]. specialize (H2 Hf).
  assert (wrong rs - 5 <= (as_clock s' - as_clock s) / lockout) by (apply Z.div_le_lower_bound; lia). lia.
Qed.

(** ** Recovery codes that are issued *)

Definition charset_char (b : Z) : Ascii.ascii := default "A"%char (String.get (Z.to_nat (b mod 36)) charset).
Lemma charset_ok b : let c := charset_char b in is_upper c || is_digit c = true /\ fold_char c = c /\ bool_decide (c = "-"%char) = false.
Proof.
  unfold charset_char. assert (Z.to_nat (b mod 36) < 36)%nat as H by (pose proof (Z.mod_pos_bound b 36 ltac:(done)); lia). revert H. generalize (Z.to_nat (b mod 36)). intros n Hn.
  do 36 (destruct n as [|n]; [by vm_compute|]). lia.
Qed.
Lemma clean_char b s : clean_code (String (charset_char b) s) = String (charset_char b) (clean_code s).
Proof. unfold clean_code. cbn [remove_char]. destruct (charset_ok b) as (_ & E & ->). cbn [ToUpper]. by rewrite E. Qed.
Lemma clean_dash s : clean_code (String "-" s) = clean_code s.
Proof. done. Qed.
Lemma all_char p b s : p (charset_char b) = true -> all_chars p (String (charset_char b) s) = all_chars p s.
Proof. intros H. cbn [all_chars]. by rewrite H. Qed.
(** A code as it is issued has the format and is its own normal form; typed in without the
    dash it is the same code. *)
Lemma issued_code_normal random : length random = BackupCodeLength ->
  let code := generateRandomBackupCode random in ValidateBackupCode_format code = true /\ NormalizeBackupCode code = code /\ NormalizeBackupCode (clean_code code) = code.
Proof.
  intros Hl. do 8 (destruct random as [|? random]; [done|]). destruct random; [|done]. cbn zeta.
  set (code := String (charset_char z) (String (charset_char z0) (String (charset_char z1) (String (charset_char z2) (String (charset_char z3) (String (charset_char z4) (String (charset_char z5) (String (charset_char z6) "")))))))).
  assert (generateRandomBackupCode [z; z0; z1; z2; z3; z4; z5; z6] = String.substring 0 4 code +:+ "-" +:+ String.substring 4 4 code) as -> by done.
  assert (clean_code (String.substring 0 4 code +:+ "-" +:+ String.substring 4 4 code) = code) as Hc.
  { change (String.substring 0 4 code +:+ "-" +:+ String.substring 4 4 code) with (String (charset_char z) (String (charset_char z0) (String (charset_char z1) (String (charset_char z2) (String "-" (String (charset_char z3) (String (charset_char z4) (String (charset_char z5) (String (charset_char z6) ""))))))))).
    by rewrite !clean_char, clean_dash, !clean_char. }
  assert (clean_code code = code) as Hc' by (unfold code; by rewrite !clean_char). unfold ValidateBackupCode_format, NormalizeBackupCode. rewrite !Hc, Hc'. split; [|done].
  change (String.length code =? BackupCodeLength)%nat with true. unfold code. cbn [andb]. rewrite !all_char by apply charset_ok. done.
Qed.

(** ** Samples *)

(** Ten wrong codes: seven within a second, two a while later and one after the lock. *)
Definition sample_guesses : list (Z * string) :=
  (fun d => (1000000 * second + d, "000000")) <$> [0; 1; 2; 3; 4; 5; second; 100 * second; 299 * second; 301 * second].
Definition sample_answers : list (ares unit) := (guesses (AC := sample_auth) 7 sample_guesses factor_store).1.
Lemma wrong_guesses_bounded_witness : wrong sample_answers = 6 /\ wrong sample_answers <= 5 + 301 * second / (LockoutDuration * second).
Proof.
  split; [vm_compute; reflexivity|].
  apply (wrong_guesses_bounded (AC := sample_auth) 7 sample_guesses factor_store (mkTwoFA 1 7 "secret" true 0 None None) sample_answers (guesses (AC := sample_auth) 7 sample_guesses factor_store).2).
  - discriminate.
  - split_and!; [reflexivity|reflexivity|]. intros id x Hx. change (({[1 := mkTwoFA 1 7 "secret" true 0 None None]} : gmap Z TwoFA) !! id = Some x) in Hx. apply lookup_singleton_Some in Hx as [<- <-]. split; reflexivity.
  - discriminate.
  - reflexivity.
  - reflexivity.
  - reflexivity.
  - vm_compute. repeat split; discriminate.
  - vm_compute. reflexivity.
  - apply surjective_pairing.
  - vm_compute. intros H. repeat (apply elem_of_cons in H as [H|H]; [discriminate|]). by apply elem_of_nil in H.
Defined.
(** Twenty codes tried at the same time are all checked: every process has read the factor
    before the first failure is counted. *)
Definition parallel_schedule : list (act (Op := FOp) FWorld) :=
  repeat (AStart (FVerify 7 "000000")) 20 ++ repeat (ARun 19) 20 ++ repeat (ARun 0) 400.
Lemma parallel_guesses_checked :
  (fun x => x.2) <$> (foldl (xperform as_clock (fexec (AC := sample_auth)) fworld) (mkXConfig factor_store [] [] []) parallel_schedule).(xfinished) = repeat (FFailed ErrVerificationFailed) 20.
Proof. vm_compute. reflexivity. Qed.
